(* ===== verification/_CoqProject ===== *)
-Q . S2P
Prelude.v
SysvState.v
IpcUtil.v
IpcFacts.v
SysvMsg.v
MsgText.v
SysvInv.v
SysvOps.v
SysvTransfer.v
SysvSearch.v
SysvSystem.v
SysvEffects.v
SysvTheorems.v
SysvProc.v
Hmsh.v
CmdMonitor.v
ClockMonitors.v
ClockDisplay.v
ClockTasks.v
ClockTheorems.v
Wrist.v
WristFacts.v
WristInv.v
WristDisplay.v
WristRun.v
WristTheorems.v
Timerbench.v
TimerbenchFacts.v
Scrambler.v
CycTime.v
CycOptions.v
CycThread.v
CycStats.v
CycReport.v
CycTrace.v
CycTraceFacts.v
CycMain.v
Latency.v
LatencyFacts.v
LatencyDriver.v
LatencyReport.v
LatencyTheorems.v
MsgServers.v
MsgTheorems.v
SkeletonDrivers.v
DemoDriver.v
Jepplin.v
JepplinFacts.v
JepplinToken.v
JepplinTheorems.v
Condtest.v
CondFacts.v
CondOrder.v
CondRun.v
CondTheorems.v
FusionSwitch.v
FusionFacts.v
Mqtest.v
MqFacts.v
Calibration.v
CalFacts.v
CalTheorems.v
Ftest.v
FtestFacts.v
MailService.v
Testmsg.v
TestmsgFacts.v
TestmsgInv.v
TestmsgSteps.v
TestmsgRun.v
SysvMail.v
TestmsgModule.v
TestmsgTheorems.v
Kcomedi.v
KcomediFacts.v
KcomediTheorems.v
Agent.v
AgentFacts.v
AgentTheorems.v
FusionLatency.v
