(* ===== verification/Prelude.v ===== *)
(** * RTAI-Demos: a verification library

    The repository (src/v3.x) is a collection of demonstration programs for the
    RTAI real-time extension of Linux: user-space programs, kernel modules and
    POSIX programs that use its services.  The programs are independent of each
    other.  This library models the ones with logic of their own, and proves what
    makes them correct.  All code is translated by hand to executable functions;
    the services of RTAI, of the kernel and of the C library outside the
    repository are inputs or parameters.

    ** Programs and files

    - System V message queues, user/sysvmsg (msg.c, util.c, util.h).  [SysvState]
      has the data: identifier table, queues, messages, receivers and senders on
      the stacks of sleeping tasks, locks, and a count of the memory blocks.
      [IpcUtil] has the functions of util.c and util.h, [SysvMsg] those of msg.c,
      each one whole, in the monad [M] below: a call runs to its return or to
      [schedule()], and a sleeping call is resumed by [msgsnd_resume] and
      [msgrcv_resume].  A [BUG()], a dangling pointer, an index out of range or a
      lock misused is a [Fault].  [SysvSystem] is the transition system of any
      number of tasks making calls.  [IpcFacts], [MsgText], [SysvInv], [SysvOps],
      [SysvTransfer], [SysvSearch], [SysvEffects] hold the lemmas, by operation;
      [SysvTheorems] the properties: no call faults in any reachable state, the
      counters and the memory are accounted for, and the calls do what their
      contract says ([pick_documented], [choose] and [mailbox] are that contract;
      [pick] is what the code does, and differs on a message of type exactly
      [-msgtyp]).  A queue removed ends the waits on it whatever the other tasks do
      before the waiting ones run again: [SysvEffects] shows what the calls of the
      others leave alone.
      [SysvProc] is the /proc report: reads one after the other give all of it.

    - Message queue test program, user/sysvmsg/testmsg.c: a server and ten clients
      over eleven of those queues.  [MailService] is the interface between the
      program and the module: the class [Mail] of services with the laws
      [MailLaws] (a send appends or waits for room, a receive takes the first
      message or waits for one).  [Testmsg] has the tasks and [main] as steps over
      any such service, with their buffers byte by byte; [TestmsgFacts],
      [TestmsgInv], [TestmsgSteps] and [TestmsgRun] have its invariant and the
      rank by which a run comes nearer to the end.  [SysvMail] shows that the
      code of msg.c obeys the laws, sleeps and direct hand-overs included, and
      [TestmsgModule] has the creation and the removal of the queues.
      [TestmsgTheorems]: replies reach the client that asked, a client that waits
      can be brought its reply, the test can always be ended, and it leaves nothing
      behind in the module.

    - Wrist clock, user/sem_clock (clock.c, cmdclk.c, cmdcrn.c, dispclk.c,
      screen.c, keybrd.c).  [Hmsh] is the arithmetic on times of day, [CmdMonitor]
      the protocol of the two command monitors over the interface [CommandMonitor]
      with its laws [MonitorLaws], [ClockMonitors] the two instances,
      [ClockDisplay] the display monitor, [ClockTasks] the tasks and the screen.
      Monitors are step relations whose steps are the semaphore operations, so
      that every interleaving is covered.  [ClockTheorems] has the properties:
      order and mutual exclusion, which commands reach the tasks and which one is
      kept while a final time is shown, what the clock shows.  [Wrist] puts the four tasks, the three monitors and the keys together
      in one transition system; [WristFacts] measures the work that is left,
      [WristInv], [WristDisplay] and [WristRun] have its invariant, and
      [WristTheorems] shows that the whole program ends when it is told to, and that
      keys typed before the tasks start can hang it.

    - Wrist clock, user/msg_clock: the same tasks, with a server task and messages
      in place of each monitor.  [ClockMonitors] has the server of cmdclk.c,
      [MsgServers] those of cmdcrn.c and dispclk.c with the static buffers the
      tasks share, [MsgTheorems] what is kept (commands in order, what the display
      shows) and what is not (a stale status, a display line sent to the wrong
      place).

    - Timer benchmark, user/benchrtdm/timerbench.c.  [Timerbench] has the driver's
      context and entry points, [TimerbenchFacts] the properties: release dates
      and overruns, statistics, two defects, and the resources of a context used for
      one benchmark at a time, with what starts that fail lose.

    - Latency monitor, user/benchrtdm/latency.c.  [Latency] has the options and
      [main], the measuring task, the display, the histogram dumps and the end of
      a run, over the interface [TscClock] of the time-stamp counter with its laws
      [TscLaws].  [LatencyFacts] says what a run leaves, [LatencyDriver] the same
      of the driver [Timerbench] which the monitor calls in its other modes,
      [LatencyReport] what the printed histograms account for.  [LatencyTheorems]
      puts them together: the statistics of a run, the agreement of the measuring
      task and of the driver on the same latencies, the options [main] accepts, the
      division by zero of a slow period, and that what the monitor asks of the
      driver is within its contract.

    - Latency monitor of fusion, user/fusion/latency.c, an earlier version.
      [FusionLatency] has its tasks, its end and [main], over the globals and
      histograms of [Latency], and shows the statistics of a run, the warm-up, the
      delay that stays after lost periods, the sum that wraps and the end without
      memory.

    - RTDM tutorials, user/tutrtdm (tut01-skeleton-drv.c, tut02-skeleton-drv.c):
      [SkeletonDrivers].  RTDM demonstration driver, user/i386/rtdmap
      (realtimedriver.c): [DemoDriver].

    - Semaphore and message queue exercise, posix/user/jepplin.c.  [Jepplin] has
      the two kinds of task as functions of one step, one for each call on a
      semaphore or a queue.  [JepplinFacts] accounts for the semaphores and the
      queues by how far the tasks are, [JepplinToken] follows the token of the
      ring, [JepplinTheorems] shows the order of the display and that every run
      ends with all tasks complete, in every interleaving, unless a timed wait
      takes a unit meant for another task; that this can happen is shown too.

    - Condition variable exercise, posix/user/condtest.c.  [Condtest] has the code
      of the five tasks as lists of calls, and one step for each call; which
      waiting task a signal wakes is the interface [SignalPolicy] with its laws
      [PolicyLaws].  [CondFacts] has the part of the invariant that any such code
      has (the mutex, the sleeping tasks, the barriers), [CondOrder] the order of
      the assignments, [CondRun] what is left to do and what was displayed;
      [CondTheorems] shows that every run in which the time out comes last ends, and
      that with another policy, or with an early time out, one does not.

    - Message queue test, posix/user/mqtest.c.  [Mqtest] has the code of its tasks
      as lists of calls over queues that keep their messages by priority;
      [MqFacts] shows that every run ends with the messages received in order.
      Its states are few, and the proof is by a computed list that no step leaves.

    - Task switch test, user/fusion/switch.c.  [FusionSwitch] has its two tasks and
      their interleavings, [FusionFacts] what the samples are and what is printed.

    - Calibration tools, kern/i386/calibration (calmod.c, calproc.c, ucal.c).
      [Calibration] has the interrupt handlers, the task and the service request of
      the module, and the commands of the program, over the interface [Fifo] with
      its laws [FifoLaws]; interrupts and turns of the program come in any order.
      [CalFacts] follows the counts, the jitters and the sums, [CalTheorems] shows
      what the measurements print, and when they print something else.

    - Serial line test, user/rtdm/ftest.c.  [Ftest] has [main], the two tasks, the
      signal handler and the clean-up, over the interface [Services]: what a call
      returns may depend on all the calls before it.  [FtestFacts] shows that every
      error path undoes what was done.

    - Comedi test module, user/comedi/kcomedi.c.  [Kcomedi] has its functions and
      their table over a memory of bytes, the layouts of the structures being
      parameters; [KcomediFacts] follows the lists of instructions,
      [KcomediTheorems] shows that the remote form of a call does what the call
      does, also for a block of a machine with another layout, and which entries
      suspend their caller.

    - Agent between two processes, user/rt_agent (rt_agent.c, sender.c,
      receiver.c).  [Agent] has a period of the agent as one function, as on one
      processor, and the steps of the two processes, [AgentFacts] the token they pass on with the
      block, [AgentTheorems] shows that blocks arrive intact and in order, that the
      relay can be ended, and the zero that ends it too early.

    - Scrambled remote calls, share/scrambler/scrambler.c.  [Scrambler]: encoding
      and decoding are inverse, a damaged word is detected.

    - cyclictest, posix/user (cyclictest.c, rt-utils.c).  [CycTime] is time stamps
      and numbers, [CycOptions] the command line, [CycThread] priorities and the
      timer thread, [CycStats] what its statistics mean, [CycReport] the reports,
      [CycTrace] kernel variables and tracers over the interface [FileSystem],
      [CycTraceFacts] what is restored under the laws [ProcVars], [CycMain] the
      start and the end of [main].

    ** Conventions

    A C integer is a [Z]; [int], [long] and pointers have 32 bits, as on the
    machines these programs were written for, and wrap-around is written out with
    [u32], [i32] and the like wherever the code can reach it.  A loop that is not
    structural has fuel that is enough by construction, and a lemma says so: the
    segments of a message (its length), the overruns of a sample (the number of
    periods in it), [tsnorm] (two turns, a [long] of nanoseconds), [setscheduler]
    (one more try), the reader of [print_stat] (the values not yet read), the lines
    of the gnuplot file (the cells of the histogram), the reads of the /proc report
    (one for each character), the digits of a number (ten for an [unsigned long]),
    the instructions of a list (their number).  Results about loops say that they
    end.  Doubles are integers rounded to 53 bits.

    ** Not modelled

    The layout of printed text, creation of tasks and semaphores, the sleeps
    that only pace a demo, the first exchange of messages between tasks, the
    standard deviation of [dump_stats]; the demos that only call RTAI services
    whose code is elsewhere (the other latency monitors, the clients of comedi,
    the examples without logic of their own), and the kernel and multiprocessor
    variants of the same demos.

    ** This file

    Machine integers, case analysis on boolean tests, the state monad with faults,
    invariants of transition systems, and sums over lists and maps. *)

From stdpp Require Import base tactics numbers list gmap relations.
From Stdlib Require Import ZArith Lia.

#[global] Open Scope Z_scope.

(** ** Machine-width integers

    A C integer of width [w] is a [Z]; the wrap-around of the code is written
    out with these functions. *)

Definition INT_MAX : Z := 2147483647.
Definition USHRT_MAX : Z := 65535.

(** Reduction of an arbitrary integer to an unsigned type of [w] bits. *)
Definition wrap_u (w x : Z) : Z := x mod 2 ^ w.

(** Reduction to a signed (two's complement) type of [w] bits. *)
Definition wrap_s (w x : Z) : Z :=
  (x + 2 ^ (w - 1)) mod 2 ^ w - 2 ^ (w - 1).

Declare Scope cint_scope.
Delimit Scope cint_scope with cint.
Abbreviation u8 := (wrap_u 8).
Abbreviation u16 := (wrap_u 16).
Abbreviation u32 := (wrap_u 32).
Abbreviation u64 := (wrap_u 64).
Abbreviation i8 := (wrap_s 8).
Abbreviation i32 := (wrap_s 32).
Abbreviation i64 := (wrap_s 64).
#[global] Open Scope cint_scope.

Lemma wrap_u_range w x : 0 <= w -> 0 <= wrap_u w x < 2 ^ w.
Proof. intros. unfold wrap_u. apply Z.mod_pos_bound. apply Z.pow_pos_nonneg; lia. Qed.

Lemma wrap_u_id w x : 0 <= x < 2 ^ w -> wrap_u w x = x.
Proof. intros. unfold wrap_u. now apply Z.mod_small. Qed.

Lemma wrap_s_range w x : 0 < w -> - 2 ^ (w - 1) <= wrap_s w x < 2 ^ (w - 1).
Proof.
  intros. unfold wrap_s.
  assert (2 ^ w = 2 * 2 ^ (w - 1)) as Hp
    by (rewrite <- Z.pow_succ_r by lia; f_equal; lia).
  pose proof (Z.mod_pos_bound (x + 2 ^ (w - 1)) (2 ^ w)
                (ltac:(apply Z.pow_pos_nonneg; lia))). lia.
Qed.

Lemma wrap_s_id w x : 0 < w -> - 2 ^ (w - 1) <= x < 2 ^ (w - 1) -> wrap_s w x = x.
Proof.
  intros. unfold wrap_s.
  assert (2 ^ w = 2 * 2 ^ (w - 1)) as Hp
    by (rewrite <- Z.pow_succ_r by lia; f_equal; lia).
  rewrite Z.mod_small; lia.
Qed.

Lemma wrap_s_idem w x : 0 < w -> wrap_s w (wrap_s w x) = wrap_s w x.
Proof. intros. apply wrap_s_id; [assumption | now apply wrap_s_range]. Qed.

(** Wrapping an operand does not change a wrapped sum. *)
Lemma wrap_u_add_l w a b : 0 <= w -> wrap_u w (wrap_u w a + b) = wrap_u w (a + b).
Proof.
  intros Hw. unfold wrap_u. apply Z.add_mod_idemp_l.
  pose proof (Z.pow_pos_nonneg 2 w). lia.
Qed.

Lemma wrap_s_add_l w a b : 0 < w -> wrap_s w (wrap_s w a + b) = wrap_s w (a + b).
Proof.
  intros Hw. unfold wrap_s. f_equal.
  replace ((a + 2 ^ (w - 1)) mod 2 ^ w - 2 ^ (w - 1) + b + 2 ^ (w - 1))
    with ((a + 2 ^ (w - 1)) mod 2 ^ w + b) by lia.
  rewrite Z.add_mod_idemp_l by (pose proof (Z.pow_pos_nonneg 2 w); lia). f_equal. lia.
Qed.

(** Congruence modulo 2^32: the equality that counters of 32 bits respect
    whether or not they wrap. *)
Definition eq32 (a b : Z) : Prop := a mod 2 ^ 32 = b mod 2 ^ 32.
Infix "≡₃₂" := eq32 (at level 70) : cint_scope.

#[export] Instance eq32_equivalence : Equivalence eq32.
Proof.
  split; [intros ?; reflexivity | intros ??; unfold eq32; congruence
         | intros ???; unfold eq32; congruence].
Qed.

#[export] Instance eq32_add_proper : Proper (eq32 ==> eq32 ==> eq32) Z.add.
Proof.
  intros a b Hab c d Hcd. unfold eq32 in *.
  rewrite (Z.add_mod a c), (Z.add_mod b d) by lia. now rewrite Hab, Hcd.
Qed.

#[export] Instance eq32_sub_proper : Proper (eq32 ==> eq32 ==> eq32) Z.sub.
Proof.
  intros a b Hab c d Hcd. unfold eq32 in *.
  rewrite (Zminus_mod a c), (Zminus_mod b d). now rewrite Hab, Hcd.
Qed.

Lemma wrap_u32_eq32 x : wrap_u 32 x ≡₃₂ x.
Proof. unfold eq32, wrap_u. now rewrite Z.mod_mod by lia. Qed.

Lemma wrap_s32_eq32 x : wrap_s 32 x ≡₃₂ x.
Proof.
  unfold eq32, wrap_s.
  rewrite Zminus_mod, Z.mod_mod, <- Zminus_mod by lia. f_equal. lia.
Qed.

Lemma eq32_small a b : 0 <= a < 2 ^ 32 -> 0 <= b < 2 ^ 32 -> a ≡₃₂ b -> a = b.
Proof. intros ?? H. unfold eq32 in H. now rewrite !Z.mod_small in H. Qed.

(** ** Booleans and case analysis *)

(** Turn the boolean comparisons of the code into propositions. *)
Ltac bool_to_prop :=
  repeat match goal with
  | H : _ && _ = true |- _ => apply andb_true_iff in H as [? ?]
  | H : _ && _ = false |- _ => apply andb_false_iff in H
  | H : _ || _ = true |- _ => apply orb_true_iff in H
  | H : _ || _ = false |- _ => apply orb_false_iff in H as [? ?]
  | H : negb _ = true |- _ => apply negb_true_iff in H
  | H : negb _ = false |- _ => apply negb_false_iff in H
  | H : (_ =? _) = true |- _ => apply Z.eqb_eq in H
  | H : (_ =? _) = false |- _ => apply Z.eqb_neq in H
  | H : (_ <? _) = true |- _ => apply Z.ltb_lt in H
  | H : (_ <? _) = false |- _ => apply Z.ltb_ge in H
  | H : (_ <=? _) = true |- _ => apply Z.leb_le in H
  | H : (_ <=? _) = false |- _ => apply Z.leb_gt in H
  | H : (_ >? _) = true |- _ => rewrite Z.gtb_ltb in H
  | H : (_ >? _) = false |- _ => rewrite Z.gtb_ltb in H
  | H : (_ >=? _) = true |- _ => rewrite Z.geb_leb in H
  | H : (_ >=? _) = false |- _ => rewrite Z.geb_leb in H
  end.

(** Split the innermost condition of an [if] or [match] in the goal, with an
    equation, and turn it into a proposition. *)
Ltac split_if :=
  match goal with
  | |- context [if ?b then _ else _] =>
      lazymatch b with context [if _ then _ else _] => fail
      | _ => let E := fresh "E" in destruct b eqn:E; bool_to_prop end
  end.

Ltac split_if_in H :=
  match type of H with
  | context [if ?b then _ else _] =>
      lazymatch b with context [if _ then _ else _] => fail
      | _ => let E := fresh "E" in destruct b eqn:E; bool_to_prop end
  end.

(** The tests of the code that keep the larger or the smaller value. *)
Lemma if_ltb_max a b : (if a <? b then b else a) = Z.max a b.
Proof. destruct (Z.ltb_spec a b); lia. Qed.

Lemma if_ltb_min a b : (if a <? b then a else b) = Z.min a b.
Proof. destruct (Z.ltb_spec a b); lia. Qed.

(** ** A state monad with faults

    [res S F A] is the outcome of a piece of C code: it ran to its end with a
    value and a new state, or it met a fault of type [F] (a [BUG()], a dangling
    pointer, a misused lock). *)

Inductive res (S F A : Type) : Type :=
| OK (a : A) (s : S)
| Fault (f : F).
Arguments OK {S F A} _ _.
Arguments Fault {S F A} _.

Definition M (S F A : Type) : Type := S -> res S F A.

Definition ret {S F A} (a : A) : M S F A := fun s => OK a s.
Definition bind {S F A B} (m : M S F A) (k : A -> M S F B) : M S F B :=
  fun s => match m s with OK a s' => k a s' | Fault f => Fault f end.
Definition fault {S F A} (f : F) : M S F A := fun _ => Fault f.
Definition get {S F} : M S F S := fun s => OK s s.
Definition put {S F} (s : S) : M S F unit := fun _ => OK tt s.
Definition modify {S F} (f : S -> S) : M S F unit := fun s => OK tt (f s).

Declare Scope cmonad_scope.
Delimit Scope cmonad_scope with cmonad.
Notation "'let!' x := m 'in' k" := (bind m (fun x => k))
  (at level 10, x pattern, m at level 100, k at level 200) : cmonad_scope.
Notation "m ;; k" := (bind m (fun _ => k))
  (at level 100, right associativity) : cmonad_scope.

(** ** Invariants of a transition system *)

(** A property that holds initially and that every step preserves holds in
    every reachable state. *)
Lemma rtc_invariant {S} (step : S -> S -> Prop) (Inv : S -> Prop) s0 s :
  Inv s0 -> (forall a b, Inv a -> step a b -> Inv b) -> rtc step s0 s -> Inv s.
Proof. intros H0 Hstep Hr. induction Hr; eauto. Qed.

(** ** Sums over lists and finite maps *)

Definition sumZ {A} (f : A -> Z) (l : list A) : Z := foldr (fun x acc => f x + acc) 0 l.

Lemma sumZ_app {A} (f : A -> Z) l1 l2 : sumZ f (l1 ++ l2) = sumZ f l1 + sumZ f l2.
Proof. induction l1; simpl in *; lia. Qed.

Lemma sumZ_nonneg {A} (f : A -> Z) l : (forall x, x ∈ l -> 0 <= f x) -> 0 <= sumZ f l.
Proof.
  induction l as [|x l IH]; simpl; [lia|]. intros H.
  assert (0 <= f x) by (apply H; constructor).
  assert (0 <= sumZ f l) by (apply IH; intros; apply H; now constructor). lia.
Qed.

Lemma sumZ_cons {A} (f : A -> Z) x l : sumZ f (x :: l) = f x + sumZ f l.
Proof. reflexivity. Qed.

Lemma sumZ_snoc {A} (f : A -> Z) l x : sumZ f (l ++ [x]) = sumZ f l + f x.
Proof. rewrite sumZ_app. unfold sumZ at 2. simpl. lia. Qed.

Lemma sumZ_fmap {A B} (f : B -> Z) (h : A -> B) l : sumZ f (h <$> l) = sumZ (fun x => f (h x)) l.
Proof. induction l as [|x l IH]; [reflexivity|]. rewrite fmap_cons, !sumZ_cons, IH. reflexivity. Qed.

Lemma sumZ_delete {A} (f : A -> Z) l i x :
  l !! i = Some x -> sumZ f (delete i l) = sumZ f l - f x.
Proof.
  revert i. induction l as [|y l IH]; intros [|i] H; try discriminate.
  - injection H as ->. cbn [delete list_delete]. rewrite sumZ_cons. lia.
  - cbn [delete list_delete]. rewrite !sumZ_cons, IH by exact H. lia.
Qed.

Lemma sumZ_ext {A} (f h : A -> Z) l : (forall x, x ∈ l -> f x = h x) -> sumZ f l = sumZ h l.
Proof.
  induction l as [|x l IH]; intros H; [reflexivity|]. rewrite !sumZ_cons, IH, (H x); [reflexivity|..].
  - constructor.
  - intros y Hy. apply H. now constructor.
Qed.

Lemma sumZ_insert {A} (f : A -> Z) l i x y :
  l !! i = Some x -> sumZ f (<[i := y]> l) = sumZ f l - f x + f y.
Proof.
  revert i. induction l as [|z l IH]; intros [|i] H; try discriminate.
  - injection H as ->. cbn [insert list_insert]. rewrite !sumZ_cons. lia.
  - cbn in H. change (<[S i := y]> (z :: l)) with (z :: <[i := y]> l). rewrite !sumZ_cons, (IH i H). lia.
Qed.

#[global] Arguments sumZ : simpl never.

Definition msum {A} (f : A -> Z) (m : gmap Z A) : Z :=
  map_fold (fun _ x acc => f x + acc) 0 m.

Lemma msum_empty {A} (f : A -> Z) : msum f ∅ = 0.
Proof. apply map_fold_empty. Qed.

Lemma msum_insert_new {A} (f : A -> Z) m k x :
  m !! k = None -> msum f (<[k:=x]> m) = f x + msum f m.
Proof.
  intros Hk. unfold msum. rewrite map_fold_insert_L; [reflexivity | | assumption].
  intros. lia.
Qed.

Lemma msum_delete {A} (f : A -> Z) m k x :
  m !! k = Some x -> msum f (delete k m) = msum f m - f x.
Proof.
  intros Hk. unfold msum. rewrite (map_fold_delete_L _ _ k x m); [lia | | assumption].
  intros. lia.
Qed.

Lemma msum_insert_old {A} (f : A -> Z) m k x y :
  m !! k = Some x -> msum f (<[k:=y]> m) = msum f m - f x + f y.
Proof.
  intros Hk. rewrite <- insert_delete_eq, msum_insert_new by apply lookup_delete_eq.
  rewrite (msum_delete f m k x) by assumption. lia.
Qed.

Lemma msum_fmap {A} (f : A -> Z) (g : A -> A) m :
  (forall x, f (g x) = f x) -> msum f (g <$> m) = msum f m.
Proof.
  intros Hg. induction m as [|k x m Hk IH] using map_ind.
  - now rewrite fmap_empty.
  - rewrite fmap_insert, !msum_insert_new; [now rewrite Hg, IH | assumption |].
    now rewrite lookup_fmap, Hk.
Qed.

(** ** Automation *)

(** [rtai]: ranges of machine integers, and the lengths of lists. *)
Create HintDb rtai.
Create Rewrite HintDb rtai.
#[export] Hint Resolve wrap_u_range wrap_s_range : rtai.
#[export] Hint Extern 5 (_ <= _)%Z => lia : rtai.
#[export] Hint Extern 5 (_ < _)%Z => lia : rtai.
#[export] Hint Rewrite @length_app @length_insert @length_fmap @length_replicate @length_take
  @length_drop : rtai.

(** Arithmetic over the lengths of lists. *)
Ltac len_lia := autorewrite with rtai; cbn [length]; lia.
