(* ===== verification/SysvState.v ===== *)
(** * State of the SysV message queue module (user/sysvmsg)

    The structures of [util.h], [msg.c] and [rtai_sysvmsg.h] and the memory
    they live in.  The model is the 32-bit build ([int], [long], [size_t] and
    pointers of 32 bits, pages of 4096 bytes), with [CONFIG_SMP] locks.

    A [struct msg_queue *] (equivalently, its first member, the
    [struct kern_ipc_perm *] of [util.c]) is a [Z] looked up in [queues]; a
    pointer that is not there any more is dangling.  A [struct msg_receiver]
    or [struct msg_sender] lives on the stack of a sleeping task and is found
    under the identity of that task.  Everything outside the module (the
    allocator, the copies to and from user space, credentials, the clock) is
    the environment [env] of a call. *)

From stdpp Require Import base tactics numbers list gmap.
From S2P Require Import Prelude.
#[global] Open Scope cmonad_scope.

(** ** Constants of the Linux headers the module is built against *)

Definition IPCMNI : Z := 32768.
Definition SEQ_MULTIPLIER : Z := IPCMNI.
Definition IPC_PRIVATE : Z := 0.
Definition IPC_CREAT : Z := 512.
Definition IPC_EXCL : Z := 1024.
Definition IPC_NOWAIT : Z := 2048.
Definition IPC_RMID : Z := 0.
Definition IPC_SET : Z := 1.
Definition IPC_STAT : Z := 2.
Definition IPC_INFO : Z := 3.
Definition IPC_OLD : Z := 0.
Definition IPC_64 : Z := 256.
Definition S_IRWXUGO : Z := 511.
Definition S_IRUGO : Z := 292.
Definition S_IWUGO : Z := 146.

Definition EPERM : Z := 1.
Definition ENOENT : Z := 2.
Definition EINTR : Z := 4.
Definition E2BIG : Z := 7.
Definition EAGAIN : Z := 11.
Definition ENOMEM : Z := 12.
Definition EACCES : Z := 13.
Definition EFAULT : Z := 14.
Definition EEXIST : Z := 17.
Definition EINVAL : Z := 22.
Definition ENOSPC : Z := 28.
Definition ENOMSG : Z := 42.
Definition EIDRM : Z := 43.

(** ** Constants of [rtai_sysvmsg.h] *)

Definition MSG_STAT : Z := 11.
Definition MSG_INFO : Z := 12.
Definition MSG_NOERROR : Z := 4096.
Definition MSG_EXCEPT : Z := 8192.
Definition MSGMNI : Z := 16.
Definition MSGMAX : Z := 8192.
Definition MSGMNB : Z := 16384.
Definition MSGPOOL : Z := MSGMNI * MSGMNB / 1024.
Definition MSGTQL : Z := MSGMNB.
Definition MSGMAP : Z := MSGMNB.
Definition MSGSSZ : Z := 16.
Definition MSGSEG : Z :=
  let s := MSGPOOL * 1024 / MSGSSZ in if s <=? 65535 then s else 65535.

(** ** Constants of [msg.c] *)

Definition msg_ctlmax : Z := MSGMAX.
Definition msg_ctlmnb : Z := MSGMNB.
Definition msg_ctlmni : Z := MSGMNI.

Definition PAGE_SIZE : Z := 4096.
(** Two list pointers, a [long], an [int] and the segment pointer. *)
Definition sizeof_msg_msg : Z := 20.
Definition sizeof_msg_msgseg : Z := 4.
Definition DATALEN_MSG : Z := PAGE_SIZE - sizeof_msg_msg.
Definition DATALEN_SEG : Z := PAGE_SIZE - sizeof_msg_msgseg.

Definition SEARCH_ANY : Z := 1.
Definition SEARCH_EQUAL : Z := 2.
Definition SEARCH_NOTEQUAL : Z := 3.
Definition SEARCH_LESSEQUAL : Z := 4.

(** ** Structures *)

(** [struct kern_ipc_perm] *)
Record kern_ipc_perm := KIP {
  p_key : Z; p_uid : Z; p_gid : Z; p_cuid : Z; p_cgid : Z; p_mode : Z; p_seq : Z
}.

(** [struct ipc_ids]: [ids_sem] and [ids_ary] say whether the semaphore and
    the spin lock are held; an entry is the pointer of [struct ipc_id]. *)
Record ipc_ids := IDS {
  ids_size : Z; ids_in_use : Z; ids_max_id : Z; ids_seq : Z; ids_seq_max : Z;
  ids_sem : bool; ids_ary : bool; ids_entries : list (option Z)
}.

(** [struct msg_msg]: the text that follows the header, and the texts of the
    chain of [struct msg_msgseg] hanging off [next]. *)
Record msg_msg := MSG {
  m_type : Z; m_ts : Z; m_text : list Z; m_next : list (list Z)
}.

(** [struct msg_receiver]: [r_list] is the queue it is linked on, [None] once
    [list_del] took it off; [r_msg] is a message or an error code. *)
Record msg_receiver := RCV {
  r_list : option Z; r_tsk : Z; r_mode : Z; r_msgtype : Z; r_maxsize : Z;
  r_msg : msg_msg + Z
}.

(** [struct msg_sender]: [s_list] is the queue it is linked on, [None] when
    [list.next] is [NULL]. *)
Record msg_sender := SND { s_list : option Z; s_tsk : Z }.

(** [struct msg_queue] *)
Record msg_queue := MSQ {
  q_perm : kern_ipc_perm;
  q_stime : Z; q_rtime : Z; q_ctime : Z;
  q_cbytes : Z; q_qnum : Z; q_qbytes : Z;
  q_lspid : Z; q_lrpid : Z;
  q_messages : list msg_msg; q_receivers : list Z; q_senders : list Z
}.

(** The locals a call keeps on its stack across [schedule()]. *)
Inductive pending :=
| PSnd (msqid : Z) (msg : msg_msg) (msgsz msgflg : Z)
| PRcv (msqid msq msgsz msgtyp mode msgflg : Z) (space : bool).

(** The module's memory: its globals, the queues that are allocated, the
    stacks of the sleeping callers, the number of blocks of [rt_malloc] that
    are live, and the tasks [wake_up_process] was called on, latest first. *)
Record sys := SYS {
  msg_ids : ipc_ids;
  msg_bytes : Z; msg_hdrs : Z;
  queues : gmap Z msg_queue; next_ptr : Z;
  receivers : gmap Z msg_receiver;
  senders : gmap Z msg_sender;
  sleeping : gmap Z pending;
  heap : Z;
  woken : list Z
}.

(** What must never happen. *)
Inductive fault_kind :=
| F_BUG        (* BUG() *)
| F_NULL       (* NULL dereference *)
| F_DANGLING   (* access to a freed queue or to a stack frame that is gone *)
| F_BOUNDS     (* array index out of range *)
| F_RELOCK     (* spin_lock or down by the holder: deadlock *)
| F_UNLOCK     (* spin_unlock or up of something not held *)
| F_LIST.      (* list_del of an entry that is not linked *)

Abbreviation cmd := (M sys fault_kind).

(** ** Environment of one call *)

Inductive capability := CAP_SYS_ADMIN | CAP_SYS_RESOURCE | CAP_IPC_OWNER.

(** [e_alloc n] and [e_copy n] say whether the [n]-th allocation, and the
    [n]-th copy from or to user space, of the call succeed. *)
Record env := ENV {
  e_pid : Z; e_euid : Z; e_egid : Z;
  e_in_group_p : Z -> bool;
  e_capable : capability -> bool;
  e_get_seconds : Z;
  e_signal_pending : bool;
  e_alloc : nat -> bool;
  e_copy : nat -> bool
}.

(** ** Field updates *)

Definition set_ids (f : ipc_ids -> ipc_ids) (s : sys) : sys :=
  SYS (f (msg_ids s)) (msg_bytes s) (msg_hdrs s) (queues s) (next_ptr s)
      (receivers s) (senders s) (sleeping s) (heap s) (woken s).
Definition set_atomics (db dh : Z) (s : sys) : sys :=
  SYS (msg_ids s) (i32 (msg_bytes s + db)) (i32 (msg_hdrs s + dh)) (queues s)
      (next_ptr s) (receivers s) (senders s) (sleeping s) (heap s) (woken s).
Definition set_queues (f : gmap Z msg_queue -> gmap Z msg_queue) (s : sys) : sys :=
  SYS (msg_ids s) (msg_bytes s) (msg_hdrs s) (f (queues s)) (next_ptr s)
      (receivers s) (senders s) (sleeping s) (heap s) (woken s).
Definition set_next_ptr (p : Z) (s : sys) : sys :=
  SYS (msg_ids s) (msg_bytes s) (msg_hdrs s) (queues s) p
      (receivers s) (senders s) (sleeping s) (heap s) (woken s).
Definition set_receivers (f : gmap Z msg_receiver -> gmap Z msg_receiver) (s : sys) : sys :=
  SYS (msg_ids s) (msg_bytes s) (msg_hdrs s) (queues s) (next_ptr s)
      (f (receivers s)) (senders s) (sleeping s) (heap s) (woken s).
Definition set_senders (f : gmap Z msg_sender -> gmap Z msg_sender) (s : sys) : sys :=
  SYS (msg_ids s) (msg_bytes s) (msg_hdrs s) (queues s) (next_ptr s)
      (receivers s) (f (senders s)) (sleeping s) (heap s) (woken s).
Definition set_sleeping (f : gmap Z pending -> gmap Z pending) (s : sys) : sys :=
  SYS (msg_ids s) (msg_bytes s) (msg_hdrs s) (queues s) (next_ptr s)
      (receivers s) (senders s) (f (sleeping s)) (heap s) (woken s).
Definition add_heap (d : Z) (s : sys) : sys :=
  SYS (msg_ids s) (msg_bytes s) (msg_hdrs s) (queues s) (next_ptr s)
      (receivers s) (senders s) (sleeping s) (heap s + d) (woken s).
Definition add_woken (t : Z) (s : sys) : sys :=
  SYS (msg_ids s) (msg_bytes s) (msg_hdrs s) (queues s) (next_ptr s)
      (receivers s) (senders s) (sleeping s) (heap s) (t :: woken s).

Definition ids_with_locks (sem ary : bool) (i : ipc_ids) : ipc_ids :=
  IDS (ids_size i) (ids_in_use i) (ids_max_id i) (ids_seq i) (ids_seq_max i)
      sem ary (ids_entries i).
Definition ids_with_entries (es : list (option Z)) (i : ipc_ids) : ipc_ids :=
  IDS (ids_size i) (ids_in_use i) (ids_max_id i) (ids_seq i) (ids_seq_max i)
      (ids_sem i) (ids_ary i) es.

Definition msq_with_perm (p : kern_ipc_perm) (q : msg_queue) : msg_queue :=
  MSQ p (q_stime q) (q_rtime q) (q_ctime q) (q_cbytes q) (q_qnum q) (q_qbytes q)
      (q_lspid q) (q_lrpid q) (q_messages q) (q_receivers q) (q_senders q).
Definition msq_with_receivers (l : list Z) (q : msg_queue) : msg_queue :=
  MSQ (q_perm q) (q_stime q) (q_rtime q) (q_ctime q) (q_cbytes q) (q_qnum q)
      (q_qbytes q) (q_lspid q) (q_lrpid q) (q_messages q) l (q_senders q).
Definition msq_with_senders (l : list Z) (q : msg_queue) : msg_queue :=
  MSQ (q_perm q) (q_stime q) (q_rtime q) (q_ctime q) (q_cbytes q) (q_qnum q)
      (q_qbytes q) (q_lspid q) (q_lrpid q) (q_messages q) (q_receivers q) l.

Definition rcv_with_msg (m : msg_msg + Z) (r : msg_receiver) : msg_receiver :=
  RCV (r_list r) (r_tsk r) (r_mode r) (r_msgtype r) (r_maxsize r) m.
Definition rcv_unlinked (r : msg_receiver) : msg_receiver :=
  RCV None (r_tsk r) (r_mode r) (r_msgtype r) (r_maxsize r) (r_msg r).

(** ** Primitive operations *)

(** [spin_lock]/[spin_unlock] on [msg_ids.ary] ([rt_spin_lock_irq]). *)
Definition spin_lock : cmd unit := fun s =>
  if ids_ary (msg_ids s) then Fault F_RELOCK
  else OK tt (set_ids (fun i => ids_with_locks (ids_sem i) true i) s).
Definition spin_unlock : cmd unit := fun s =>
  if ids_ary (msg_ids s)
  then OK tt (set_ids (fun i => ids_with_locks (ids_sem i) false i) s)
  else Fault F_UNLOCK.

(** [down]/[up] on [msg_ids.sem] ([rt_sem_wait]/[rt_sem_signal]). *)
Definition down : cmd unit := fun s =>
  if ids_sem (msg_ids s) then Fault F_RELOCK
  else OK tt (set_ids (fun i => ids_with_locks true (ids_ary i) i) s).
Definition up : cmd unit := fun s =>
  if ids_sem (msg_ids s)
  then OK tt (set_ids (fun i => ids_with_locks false (ids_ary i) i) s)
  else Fault F_UNLOCK.

Definition kmalloc (ok : bool) : cmd bool := fun s =>
  if ok then OK true (add_heap 1 s) else OK false s.
Definition kfree : cmd unit := modify (add_heap (-1)).

Definition wake_up_process (t : Z) : cmd unit := modify (add_woken t).

(** [p->...] for a [struct msg_queue *p]. *)
Definition deref_q (p : Z) : cmd msg_queue := fun s =>
  match queues s !! p with Some q => OK q s | None => Fault F_DANGLING end.
Definition upd_q (p : Z) (f : msg_queue -> msg_queue) : cmd unit := fun s =>
  match queues s !! p with
  | Some q => OK tt (set_queues <[p := f q]> s)
  | None => Fault F_DANGLING
  end.

(** [r->...] for the [struct msg_receiver] on the stack of task [t]. *)
Definition deref_r (t : Z) : cmd msg_receiver := fun s =>
  match receivers s !! t with Some r => OK r s | None => Fault F_DANGLING end.
Definition upd_r (t : Z) (f : msg_receiver -> msg_receiver) : cmd unit := fun s =>
  match receivers s !! t with
  | Some r => OK tt (set_receivers <[t := f r]> s)
  | None => Fault F_DANGLING
  end.
Definition upd_s (t : Z) (f : msg_sender -> msg_sender) : cmd unit := fun s =>
  match senders s !! t with
  | Some r => OK tt (set_senders <[t := f r]> s)
  | None => Fault F_DANGLING
  end.

(** [ids->entries[lid].p] *)
Definition entry_at (lid : Z) : cmd (option Z) := fun s =>
  if lid <? 0 then Fault F_BOUNDS
  else match ids_entries (msg_ids s) !! Z.to_nat lid with
       | Some p => OK p s
       | None => Fault F_BOUNDS
       end.
Definition set_entry (lid : Z) (p : option Z) : cmd unit := fun s =>
  if lid <? 0 then Fault F_BOUNDS
  else if Z.of_nat (length (ids_entries (msg_ids s))) <=? lid then Fault F_BOUNDS
  else OK tt (set_ids (fun i =>
         ids_with_entries (<[Z.to_nat lid := p]> (ids_entries i)) i) s).
