(* ===== verification/IpcUtil.v ===== *)
(** * IPC identifiers (user/sysvmsg/util.c and util.h)

    The identifier table: slots are allocated and released, a slot's sequence
    number makes the identifiers handed out to users unique over reuse, keys
    are searched, permissions are checked. *)

From stdpp Require Import base tactics numbers list gmap.
From S2P Require Import Prelude SysvState.

(** ** Operations *)

(** [ipc_get] *)
Definition ipc_get (id : Z) : cmd (option Z) :=
  let! s := get in
  let lid := Z.rem id SEQ_MULTIPLIER in
  if ids_size (msg_ids s) <=? lid then ret None
  else let! out := entry_at lid in
  ret out.

(** [ipc_lock] *)
Definition ipc_lock (id : Z) : cmd (option Z) :=
  let! s := get in
  let lid := Z.rem id SEQ_MULTIPLIER in
  if ids_size (msg_ids s) <=? lid then ret None
  else spin_lock ;;
  let! out := entry_at lid in
  match out with
  | None => spin_unlock ;; ret None
  | Some p => ret (Some p)
  end.

(** [ipc_unlock] *)
Definition ipc_unlock (id : Z) : cmd unit := spin_unlock.

(** [ipc_lockall], [ipc_unlockall] *)
Definition ipc_lockall : cmd unit := spin_lock.
Definition ipc_unlockall : cmd unit := spin_unlock.

(** [ipc_buildid]: arithmetic of type [int]. *)
Definition ipc_buildid (id seq : Z) : Z := i32 (SEQ_MULTIPLIER * seq + id).

(** [ipc_checkid]: [true] when the sequence number does not match. *)
Definition ipc_checkid (ipcp : kern_ipc_perm) (uid : Z) : bool :=
  negb (Z.quot uid SEQ_MULTIPLIER =? p_seq ipcp).

(** [ipc_alloc]: both allocators are [rt_malloc]. *)
Definition ipc_alloc (ok : bool) (size : Z) : cmd bool :=
  if PAGE_SIZE <? size then kmalloc ok else kmalloc ok.

(** [ipc_free]: both are [rt_free]; freeing [NULL] does nothing. *)
Definition ipc_free (nonnull : bool) (size : Z) : cmd unit :=
  if nonnull then if PAGE_SIZE <? size then kfree else kfree else ret tt.

(** [sizeof(struct ipc_id)] *)
Definition sizeof_ipc_id : Z := 4.

(** [ipc_init_ids] *)
Definition ipc_init_ids (e : env) (size : Z) : cmd unit :=
  let size := if IPCMNI <? size then IPCMNI else size in
  let seq_limit := Z.quot INT_MAX SEQ_MULTIPLIER in
  let seq_max := if USHRT_MAX <? seq_limit then USHRT_MAX else u16 seq_limit in
  let! ok := ipc_alloc (e_alloc e 0) (sizeof_ipc_id * size) in
  let size := if ok then size else 0 in
  modify (set_ids (fun _ =>
    IDS size 0 (-1) 0 seq_max false false (replicate (Z.to_nat size) None))).

(** The loop of [ipc_findkey], from [id] on, with [n] slots left. *)
Fixpoint ipc_findkey_from (key : Z) (n : nat) (id : Z) : cmd Z :=
  match n with
  | O => ret (-1)
  | S n' =>
      let! p := entry_at id in
      match p with
      | None => ipc_findkey_from key n' (id + 1)
      | Some p =>
          let! q := deref_q p in
          if key =? p_key (q_perm q) then ret id
          else ipc_findkey_from key n' (id + 1)
      end
  end.

(** [ipc_findkey]: slots [0 .. max_id]. *)
Definition ipc_findkey (key : Z) : cmd Z :=
  let! s := get in
  ipc_findkey_from key (Z.to_nat (ids_max_id (msg_ids s) + 1)) 0.

(** [grow_ary] *)
Definition grow_ary (e : env) (newsize : Z) : cmd Z :=
  let! s := get in
  let newsize := if IPCMNI <? newsize then IPCMNI else newsize in
  let size := ids_size (msg_ids s) in
  if newsize <=? size then ret newsize
  else
    let! ok := ipc_alloc (e_alloc e 1) (sizeof_ipc_id * newsize) in
    if ok then
      let new := take (Z.to_nat size) (ids_entries (msg_ids s))
                 ++ replicate (Z.to_nat (newsize - size)) None in
      spin_lock ;;
      modify (set_ids (fun i =>
        IDS newsize (ids_in_use i) (ids_max_id i) (ids_seq i) (ids_seq_max i)
            (ids_sem i) (ids_ary i) new)) ;;
      spin_unlock ;;
      ipc_free (0 <? size) (sizeof_ipc_id * size) ;;
      ret newsize
    else ret size.

(** The search of [ipc_addid] for a free slot. *)
Fixpoint find_free_from (n : nat) (id : Z) : cmd Z :=
  match n with
  | O => ret (-1)
  | S n' =>
      let! p := entry_at id in
      match p with
      | None => ret id
      | Some _ => find_free_from n' (id + 1)
      end
  end.

(** [ipc_addid]: on success the spin lock is left held. *)
Definition ipc_addid (e : env) (new size : Z) : cmd Z :=
  let! size := grow_ary e size in
  let! id := find_free_from (Z.to_nat size) 0 in
  if id =? -1 then ret (-1)
  else
    let! s := get in
    let seq := ids_seq (msg_ids s) in
    modify (set_ids (fun i =>
      let seq1 := u16 (ids_seq i + 1) in
      IDS (ids_size i) (ids_in_use i + 1)
          (if ids_max_id i <? id then id else ids_max_id i)
          (if ids_seq_max i <? seq1 then 0 else seq1) (ids_seq_max i)
          (ids_sem i) (ids_ary i) (ids_entries i))) ;;
    upd_q new (fun q => let p := q_perm q in
      msq_with_perm (KIP (p_key p) (e_euid e) (e_egid e) (e_euid e) (e_egid e)
                         (p_mode p) seq) q) ;;
    spin_lock ;;
    set_entry id (Some new) ;;
    ret id.

(** The [do .. while] of [ipc_rmid], entered with [lid = n]. *)
Fixpoint rmid_scan (n : nat) : cmd Z :=
  match n with
  | O => ret (-1)
  | S k =>
      let! p := entry_at (Z.of_nat k) in
      match p with
      | None => rmid_scan k
      | Some _ => ret (Z.of_nat k)
      end
  end.

(** [ipc_rmid] *)
Definition ipc_rmid (id : Z) : cmd Z :=
  let! s := get in
  let lid := Z.rem id SEQ_MULTIPLIER in
  if ids_size (msg_ids s) <=? lid then fault F_BUG
  else
    let! p := entry_at lid in
    set_entry lid None ;;
    match p with
    | None => fault F_BUG
    | Some p =>
        modify (set_ids (fun i =>
          IDS (ids_size i) (ids_in_use i - 1) (ids_max_id i) (ids_seq i)
              (ids_seq_max i) (ids_sem i) (ids_ary i) (ids_entries i))) ;;
        (if lid =? ids_max_id (msg_ids s) then
           let! m := rmid_scan (Z.to_nat lid) in
           modify (set_ids (fun i =>
             IDS (ids_size i) (ids_in_use i) m (ids_seq i)
                 (ids_seq_max i) (ids_sem i) (ids_ary i) (ids_entries i)))
         else ret tt) ;;
        ret p
    end.

(** [ipcperms]: 0 when access is granted, -1 otherwise; [flag] is a [short]. *)
Definition ipcperms (e : env) (ipcp : kern_ipc_perm) (flag : Z) : Z :=
  let requested_mode := Z.lor (Z.lor (Z.shiftr flag 6) (Z.shiftr flag 3)) flag in
  let granted_mode :=
    if (e_euid e =? p_cuid ipcp) || (e_euid e =? p_uid ipcp)
    then Z.shiftr (p_mode ipcp) 6
    else if e_in_group_p e (p_cgid ipcp) || e_in_group_p e (p_gid ipcp)
    then Z.shiftr (p_mode ipcp) 3
    else p_mode ipcp in
  if negb (Z.land (Z.land requested_mode (Z.lnot granted_mode)) 7 =? 0)
     && negb (e_capable e CAP_IPC_OWNER)
  then -1 else 0.

(** [struct ipc64_perm] and [struct ipc_perm] *)
Record ipc64_perm := I64P {
  o_key : Z; o_uid : Z; o_gid : Z; o_cuid : Z; o_cgid : Z; o_mode : Z; o_seq : Z
}.
Record ipc_perm := IPP {
  i_key : Z; i_uid : Z; i_gid : Z; i_cuid : Z; i_cgid : Z; i_mode : Z; i_seq : Z
}.

(** [kernel_to_ipc64_perm] *)
Definition kernel_to_ipc64_perm (i : kern_ipc_perm) : ipc64_perm :=
  I64P (p_key i) (p_uid i) (p_gid i) (p_cuid i) (p_cgid i) (p_mode i) (p_seq i).

(** [ipc64_perm_to_ipc_perm] *)
Definition ipc64_perm_to_ipc_perm (i : ipc64_perm) : ipc_perm :=
  IPP (o_key i) (o_uid i) (o_gid i) (o_cuid i) (o_cgid i) (o_mode i) (o_seq i).

(** [ipc_parse_version]: the version and the command without it. *)
Definition ipc_parse_version (cmd : Z) : Z * Z :=
  if negb (Z.land cmd IPC_64 =? 0) then (IPC_64, Z.lxor cmd IPC_64)
  else (IPC_OLD, cmd).
