(* ===== verification/IpcFacts.v ===== *)
(** * Facts about the identifier table (user/sysvmsg/util.c)

    Well-formedness of [struct ipc_ids], and what each operation of [util.c]
    does on a well-formed table. *)

From stdpp Require Import base tactics numbers list gmap.
From S2P Require Import Prelude SysvState IpcUtil.

(** ** Well-formed tables *)

(** Number of slots in use. *)
Definition used (es : list (option Z)) : Z :=
  sumZ (fun o : option Z => match o with Some _ => 1 | None => 0 end) es.

#[global] Arguments used : simpl never.

(** [m] is the greatest slot in use, -1 when there is none. *)
Definition is_max_id (es : list (option Z)) (m : Z) : Prop :=
  -1 <= m < Z.of_nat (length es) /\
  (0 <= m -> exists p, es !! Z.to_nat m = Some (Some p)) /\
  (forall i p, es !! i = Some (Some p) -> Z.of_nat i <= m).

Record ids_wf (i : ipc_ids) : Prop := {
  wf_size : 0 <= ids_size i <= msg_ctlmni;
  wf_len : Z.of_nat (length (ids_entries i)) = ids_size i;
  wf_max : is_max_id (ids_entries i) (ids_max_id i);
  wf_use : ids_in_use i = used (ids_entries i);
  wf_seqmax : ids_seq_max i = 65535;
  wf_seq : 0 <= ids_seq i <= 65535
}.

(** The slot a user-visible identifier selects. *)
Definition slot (id : Z) : nat := Z.to_nat (Z.rem id SEQ_MULTIPLIER).

(** The queue an identifier selects, whatever its sequence number. *)
Definition queue_at (i : ipc_ids) (id : Z) : option Z := mjoin (ids_entries i !! slot id).

Definition locked (s : sys) : sys := set_ids (fun i => ids_with_locks (ids_sem i) true i) s.
Definition unlocked (s : sys) : sys := set_ids (fun i => ids_with_locks (ids_sem i) false i) s.

Lemma unlocked_id s : ids_ary (msg_ids s) = false -> unlocked s = s.
Proof. destruct s as [[] ? ? ? ? ? ? ? ? ?]; cbn. intros ->. reflexivity. Qed.

Lemma unlocked_locked s : ids_ary (msg_ids s) = false -> unlocked (locked s) = s.
Proof. destruct s as [[] ? ? ? ? ? ? ? ? ?]; cbn. intros ->. reflexivity. Qed.

Lemma locked_unlocked s : ids_ary (msg_ids s) = true -> locked (unlocked s) = s.
Proof. destruct s as [[] ? ? ? ? ? ? ? ? ?]; cbn. intros ->. reflexivity. Qed.

Lemma rem_bounds id : 0 <= id -> 0 <= Z.rem id SEQ_MULTIPLIER < SEQ_MULTIPLIER.
Proof. intros. apply Z.rem_bound_pos; unfold SEQ_MULTIPLIER, IPCMNI; lia. Qed.

(** ** Array accesses *)

Lemma entry_at_eq lid s o :
  ids_entries (msg_ids s) !! lid = Some o -> entry_at (Z.of_nat lid) s = OK o s.
Proof.
  intros H. unfold entry_at. destruct (Z.ltb_spec (Z.of_nat lid) 0); [lia|].
  now rewrite Nat2Z.id, H.
Qed.

Lemma set_entry_eq lid o s :
  (lid < length (ids_entries (msg_ids s)))%nat ->
  set_entry (Z.of_nat lid) o s =
    OK tt (set_ids (fun i => ids_with_entries (<[lid := o]> (ids_entries i)) i) s).
Proof.
  intros H. unfold set_entry. destruct (Z.ltb_spec (Z.of_nat lid) 0); [lia|].
  destruct (Z.leb_spec (Z.of_nat (length (ids_entries (msg_ids s)))) (Z.of_nat lid)); [lia|].
  now rewrite Nat2Z.id.
Qed.

(** ** ipc_lock *)

Lemma ipc_lock_eq id s :
  0 <= id -> ids_wf (msg_ids s) -> ids_ary (msg_ids s) = false ->
  ipc_lock id s =
    match queue_at (msg_ids s) id with
    | Some p => OK (Some p) (locked s)
    | None => OK None s
    end.
Proof.
  intros Hid Hwf Hary. pose proof (rem_bounds id Hid). destruct Hwf as [Hs Hl _ _ _ _].
  unfold ipc_lock, queue_at, slot, bind, get.
  destruct (Z.leb_spec (ids_size (msg_ids s)) (Z.rem id SEQ_MULTIPLIER)).
  - rewrite lookup_ge_None_2 by lia. reflexivity.
  - destruct (lookup_lt_is_Some_2 (ids_entries (msg_ids s))
                (Z.to_nat (Z.rem id SEQ_MULTIPLIER))) as [o Ho]; [lia|].
    rewrite Ho. unfold spin_lock. rewrite Hary.
    change (entry_at _ _) with (entry_at (Z.rem id SEQ_MULTIPLIER) (locked s)).
    rewrite <- (Z2Nat.id (Z.rem id SEQ_MULTIPLIER)) at 1 by lia.
    rewrite (entry_at_eq _ _ o) by exact Ho.
    destruct o; [reflexivity|]. cbn. f_equal. exact (unlocked_locked s Hary).
Qed.

Lemma queue_at_slot i id p :
  queue_at i id = Some p -> ids_entries i !! slot id = Some (Some p).
Proof. unfold queue_at. destruct (_ !! _) as [[]|]; cbn; congruence. Qed.

(** ** Identifiers: sequence numbers and slots *)

(** An identifier built from a slot and a sequence number is a non-negative
    [int]; taking it apart gives back the slot, and [ipc_checkid] accepts it
    for exactly that sequence number. *)
Lemma buildid_range id seq :
  0 <= id < IPCMNI -> 0 <= seq <= 65535 ->
  ipc_buildid id seq = SEQ_MULTIPLIER * seq + id /\ 0 <= ipc_buildid id seq <= INT_MAX.
Proof.
  unfold ipc_buildid, SEQ_MULTIPLIER, IPCMNI, INT_MAX. intros.
  rewrite wrap_s_id by lia. lia.
Qed.

Lemma buildid_slot id seq :
  0 <= id < IPCMNI -> 0 <= seq <= 65535 -> slot (ipc_buildid id seq) = Z.to_nat id.
Proof.
  intros Hi Hs. destruct (buildid_range id seq Hi Hs) as [-> _].
  unfold slot, SEQ_MULTIPLIER, IPCMNI in *. f_equal.
  rewrite Z.rem_mod_nonneg by lia.
  rewrite Z.add_comm, Z.mul_comm, Z_mod_plus_full. now apply Z.mod_small.
Qed.

Lemma checkid_buildid p id seq :
  0 <= id < IPCMNI -> 0 <= seq <= 65535 ->
  ipc_checkid p (ipc_buildid id seq) = negb (seq =? p_seq p).
Proof.
  intros Hi Hs. destruct (buildid_range id seq Hi Hs) as [-> _].
  unfold ipc_checkid, SEQ_MULTIPLIER, IPCMNI in *.
  rewrite Z.quot_div_nonneg by lia.
  rewrite Z.add_comm, Z.mul_comm, Z_div_plus_full by lia.
  now rewrite Z.div_small.
Qed.

(** ** Searches *)

(** The least slot from [i] on whose entry satisfies [P]. *)
Fixpoint first_slot (P : option Z -> bool) (es : list (option Z)) (i : Z) : Z :=
  match es with
  | [] => -1
  | o :: es' => if P o then i else first_slot P es' (i + 1)
  end.

Lemma first_slot_none P es i : 0 <= i ->
  first_slot P es i = -1 <-> (forall k o, es !! k = Some o -> P o = false).
Proof.
  revert i. induction es as [|o es IH]; intros i Hi; cbn.
  - split; [intros _ k o H; now rewrite lookup_nil in H | reflexivity].
  - destruct (P o) eqn:E.
    + split; [lia | intros H; specialize (H 0%nat o eq_refl); congruence].
    + rewrite IH by lia. split.
      * intros H [|k] o' Hk; cbn in Hk; [congruence | eauto].
      * intros H k o' Hk. exact (H (S k) o' Hk).
Qed.

Lemma first_slot_some P es i r : 0 <= i ->
  first_slot P es i = r -> r <> -1 ->
  exists k o, r = i + Z.of_nat k /\ es !! k = Some o /\ P o = true /\
    forall j o', (j < k)%nat -> es !! j = Some o' -> P o' = false.
Proof.
  revert i. induction es as [|o es IH]; intros i Hi Hr Hne; cbn in *; [congruence|].
  destruct (P o) eqn:E.
  - exists 0%nat, o. repeat split; [lia | assumption | intros; lia].
  - destruct (IH (i + 1) ltac:(lia) Hr Hne) as (k & o' & -> & Hk & HP & Hmin).
    exists (S k), o'. repeat split; [lia | assumption | assumption |].
    intros [|j] o'' Hj Hl; cbn in Hl; [congruence | eapply Hmin; [|eassumption]; lia].
Qed.

Definition is_free (o : option Z) : bool := match o with None => true | Some _ => false end.

Lemma find_free_from_eq n id s :
  (id + n <= length (ids_entries (msg_ids s)))%nat ->
  find_free_from n (Z.of_nat id) s =
    OK (first_slot is_free (take n (drop id (ids_entries (msg_ids s)))) (Z.of_nat id)) s.
Proof.
  revert id. induction n as [|n IH]; intros id Hle; cbn; [reflexivity|].
  destruct (lookup_lt_is_Some_2 (ids_entries (msg_ids s)) id) as [o Ho]; [lia|].
  rewrite (drop_S _ _ _ Ho). cbn. unfold bind. rewrite (entry_at_eq _ _ _ Ho).
  destruct o; cbn; [|reflexivity].
  replace (Z.of_nat id + 1) with (Z.of_nat (S id)) by lia. apply IH. lia.
Qed.

(** The test of [ipc_findkey], with the queues in memory. *)
Definition has_key (s : sys) (key : Z) (o : option Z) : bool :=
  match o with
  | None => false
  | Some p => match queues s !! p with
              | Some q => key =? p_key (q_perm q)
              | None => false
              end
  end.

Lemma ipc_findkey_from_eq key n id s :
  (id + n <= length (ids_entries (msg_ids s)))%nat ->
  (forall k p, ids_entries (msg_ids s) !! k = Some (Some p) -> is_Some (queues s !! p)) ->
  ipc_findkey_from key n (Z.of_nat id) s =
    OK (first_slot (has_key s key) (take n (drop id (ids_entries (msg_ids s)))) (Z.of_nat id)) s.
Proof.
  intros Hle Hq. revert id Hle. induction n as [|n IH]; intros id Hle; cbn; [reflexivity|].
  destruct (lookup_lt_is_Some_2 (ids_entries (msg_ids s)) id) as [o Ho]; [lia|].
  rewrite (drop_S _ _ _ Ho). cbn. unfold bind. rewrite (entry_at_eq _ _ _ Ho).
  replace (Z.of_nat id + 1) with (Z.of_nat (S id)) by lia.
  destruct o as [p|]; cbn; [|apply IH; lia].
  destruct (Hq _ _ Ho) as [q Hpq]. unfold deref_q. rewrite Hpq.
  destruct (key =? _); [reflexivity | apply IH; lia].
Qed.

Lemma ipc_findkey_eq key s :
  ids_wf (msg_ids s) ->
  (forall k p, ids_entries (msg_ids s) !! k = Some (Some p) -> is_Some (queues s !! p)) ->
  ipc_findkey key s = OK (first_slot (has_key s key) (ids_entries (msg_ids s)) 0) s.
Proof.
  intros Hwf Hq. destruct Hwf as [Hs Hl [Hm [_ Hmax]] _ _ _].
  unfold ipc_findkey, bind, get. change 0 with (Z.of_nat 0).
  rewrite ipc_findkey_from_eq by (assumption || lia). f_equal.
  rewrite drop_0. set (es := ids_entries (msg_ids s)) in *.
  set (n := Z.to_nat (ids_max_id (msg_ids s) + 1)).
  rewrite <- (take_drop n es) at 2.
  assert (Hd : forall k o, drop n es !! k = Some o -> has_key s key o = false).
  { intros k [p|] Hk; [|reflexivity]. rewrite lookup_drop in Hk.
    specialize (Hmax _ _ Hk). subst n. lia. }
  revert Hd. generalize (drop n es), (take n es). intros l2 l1 Hd.
  assert (0 <= Z.of_nat 0) as Hp by lia. revert Hp. generalize (Z.of_nat 0).
  induction l1 as [|o l1 IH]; intros i Hi; cbn.
  - symmetry. now apply first_slot_none.
  - destruct (has_key s key o); [reflexivity | apply IH; lia].
Qed.

(** ** Occupancy of the table *)

Lemma used_cons o es : used (o :: es) = (if is_free o then 0 else 1) + used es.
Proof. now destruct o. Qed.

Lemma used_insert_some es k p :
  es !! k = Some None -> used (<[k := Some p]> es) = used es + 1.
Proof.
  revert k. induction es as [|o es IH]; intros [|k] H; try discriminate.
  - injection H as ->. cbn [insert list_insert]. rewrite !used_cons. cbn [is_free]. lia.
  - cbn [insert list_insert]. rewrite !used_cons, IH by exact H. lia.
Qed.

Lemma used_insert_none es k p :
  es !! k = Some (Some p) -> used (<[k := None]> es) = used es - 1.
Proof.
  revert k. induction es as [|o es IH]; intros [|k] H; try discriminate.
  - injection H as ->. cbn [insert list_insert]. rewrite !used_cons. cbn [is_free]. lia.
  - cbn [insert list_insert]. rewrite !used_cons, IH by exact H. lia.
Qed.

Lemma used_app_none es k : used (es ++ replicate k None) = used es.
Proof.
  induction es as [|o es IH]; [induction k; [reflexivity | now cbn [replicate app] in *; rewrite used_cons]|].
  cbn [app]. rewrite !used_cons. lia.
Qed.

Lemma is_max_id_app es k m : is_max_id es m -> is_max_id (es ++ replicate k None) m.
Proof.
  intros ([H0 H1] & H2 & H3). split; [rewrite length_app; lia|]. split.
  - intros Hm. destruct (H2 Hm) as [p Hp]. exists p. now apply lookup_app_l_Some.
  - intros i p [Hi | [_ Hi]]%lookup_app_Some; [eauto|].
    apply lookup_replicate in Hi as [Hi _]. discriminate.
Qed.

Lemma is_max_id_insert es m k p :
  is_max_id es m -> (k < length es)%nat ->
  is_max_id (<[k := Some p]> es) (if m <? Z.of_nat k then Z.of_nat k else m).
Proof.
  intros ([H0 H1] & H2 & H3) Hk. split; [rewrite length_insert; split_if; lia|]. split.
  - intros Hm. split_if.
    + exists p. rewrite Nat2Z.id. now apply list_lookup_insert_eq.
    + destruct (decide (k = Z.to_nat m)) as [->|Hne].
      * exists p. now apply list_lookup_insert_eq.
      * destruct (H2 Hm) as [p' Hp']. exists p'. now rewrite list_lookup_insert_ne.
  - intros i p' Hi. destruct (decide (k = i)) as [->|Hne]; [split_if; lia|].
    rewrite list_lookup_insert_ne in Hi by assumption.
    specialize (H3 _ _ Hi). split_if; lia.
Qed.

(** ** ipc_rmid *)

(** The scan for the new [max_id] finds the greatest slot in use below its
    start. *)
Lemma rmid_scan_spec n s :
  (n <= length (ids_entries (msg_ids s)))%nat ->
  exists m, rmid_scan n s = OK m s /\ -1 <= m < Z.of_nat n /\
    (0 <= m -> exists p, ids_entries (msg_ids s) !! Z.to_nat m = Some (Some p)) /\
    (forall i p, (i < n)%nat -> ids_entries (msg_ids s) !! i = Some (Some p) -> Z.of_nat i <= m).
Proof.
  induction n as [|n IH]; intros Hle; cbn.
  - exists (-1). repeat split; try lia.
  - destruct (lookup_lt_is_Some_2 (ids_entries (msg_ids s)) n) as [o Ho]; [lia|].
    unfold bind. rewrite (entry_at_eq _ _ _ Ho). destruct o as [p|].
    + exists (Z.of_nat n). repeat split; try lia.
      intros _. exists p. now rewrite Nat2Z.id.
    + destruct (IH ltac:(lia)) as (m & E & Hm & Hp & Hmax). exists m.
      repeat split; try lia; auto. intros i p Hi Hl.
      destruct (decide (i = n)) as [->|]; [congruence | apply (Hmax i p); [lia|assumption]].
Qed.

(** Removing a slot in use keeps the table well formed: [max_id] is again the
    greatest slot in use, and [in_use] the number of slots in use. *)
Lemma ipc_rmid_spec id s p :
  0 <= id -> ids_wf (msg_ids s) -> queue_at (msg_ids s) id = Some p ->
  exists i', ipc_rmid id s = OK p (set_ids (fun _ => i') s) /\ ids_wf i' /\
    ids_entries i' = <[slot id := None]> (ids_entries (msg_ids s)) /\
    ids_size i' = ids_size (msg_ids s) /\
    ids_sem i' = ids_sem (msg_ids s) /\ ids_ary i' = ids_ary (msg_ids s).
Proof.
  intros Hid Hwf Hq. pose proof (rem_bounds id Hid) as Hr. apply queue_at_slot in Hq.
  destruct Hwf as [Hs Hl Hm Hu Hsm Hsq].
  pose proof (lookup_lt_Some _ _ _ Hq) as Hlt.
  unfold ipc_rmid, bind, get.
  assert (El : Z.rem id SEQ_MULTIPLIER = Z.of_nat (slot id)) by (unfold slot; lia).
  rewrite El. destruct (Z.leb_spec (ids_size (msg_ids s)) (Z.of_nat (slot id))); [lia|].
  rewrite (entry_at_eq _ _ _ Hq), set_entry_eq by assumption. cbn.
  set (es' := <[slot id := None]> (ids_entries (msg_ids s))).
  assert (Hmono : forall i p', es' !! i = Some (Some p') ->
            ids_entries (msg_ids s) !! i = Some (Some p') /\ i <> slot id).
  { subst es'. intros i p' Hi. destruct (decide (slot id = i)) as [Ei|Hne].
    - subst i. rewrite list_lookup_insert_eq in Hi by assumption. discriminate.
    - rewrite list_lookup_insert_ne in Hi by assumption. auto. }
  destruct Hm as ([Hm0 Hm1] & Hm2 & Hm3).
  assert (Hlen : length es' = length (ids_entries (msg_ids s))) by apply length_insert.
  assert (Huse : used es' = used (ids_entries (msg_ids s)) - 1)
    by now apply used_insert_none with p.
  destruct (Z.eqb_spec (Z.of_nat (slot id)) (ids_max_id (msg_ids s))) as [Emax|Emax].
  - rewrite Nat2Z.id. unfold modify, set_ids, ids_with_entries, bind; cbn. fold es'.
    match goal with |- context [rmid_scan ?n ?st] =>
      destruct (rmid_scan_spec n st) as (m & E & Hb & Hp & Hmax); [cbn; lia|]; rewrite E
    end. cbn in *.
    eexists. split; [reflexivity|]. split; [|now auto].
    constructor; cbn; try (lia || assumption). split; [lia|]. split; [assumption|].
    intros i p' Hi. destruct (Hmono _ _ Hi) as [Ho Hne].
    apply (Hmax i p'); [|assumption]. specialize (Hm3 _ _ Ho). lia.
  - eexists. split; [unfold modify, ret, set_ids, ids_with_entries; cbn; reflexivity|].
    cbn. fold es'. split; [|now auto].
    constructor; cbn; try (lia || assumption). split; [lia|]. split.
    + intros Hge. destruct (Hm2 Hge) as [p' Hp']. exists p'. subst es'.
      rewrite list_lookup_insert_ne; [assumption|]. intros Eq. lia.
    + intros i p' Hi. destruct (Hmono _ _ Hi) as [Ho _]. eauto.
Qed.

(** ** grow_ary and ipc_addid *)

Lemma ipc_alloc_eq ok n : ipc_alloc ok n = kmalloc ok.
Proof. unfold ipc_alloc. now destruct (_ <? _). Qed.

Lemma ipc_free_eq nn n : ipc_free nn n = if nn then kfree else ret tt.
Proof. unfold ipc_free. destruct nn; [|reflexivity]. now destruct (_ <? _). Qed.

(** Blocks of memory the table itself holds. *)
Definition tab_blocks (i : ipc_ids) : Z := if 0 <? ids_size i then 1 else 0.

Lemma grow_ary_spec e newsize s :
  0 <= newsize <= msg_ctlmni -> ids_wf (msg_ids s) -> ids_ary (msg_ids s) = false ->
  exists i1 r dh, grow_ary e newsize s = OK r (add_heap dh (set_ids (fun _ => i1) s)) /\
    ids_wf i1 /\ 0 <= r <= ids_size i1 /\
    (exists k, ids_entries i1 = ids_entries (msg_ids s) ++ replicate k None) /\
    ids_sem i1 = ids_sem (msg_ids s) /\ ids_ary i1 = false /\
    ids_seq i1 = ids_seq (msg_ids s) /\
    tab_blocks i1 = tab_blocks (msg_ids s) + dh.
Proof.
  intros Hn Hwf Hary. pose proof Hwf as [Hs Hl Hm Hu Hsm Hsq].
  unfold grow_ary, bind, get.
  assert (H0 : (if IPCMNI <? newsize then IPCMNI else newsize) <= msg_ctlmni)
    by (unfold IPCMNI, msg_ctlmni, MSGMNI in *; split_if; lia).
  assert (H1 : 0 <= (if IPCMNI <? newsize then IPCMNI else newsize))
    by (split_if; unfold IPCMNI; lia).
  set (n := if IPCMNI <? newsize then IPCMNI else newsize) in *.
  assert (Hid : forall r, OK r s =
     (OK r (add_heap 0 (set_ids (fun _ => msg_ids s) s)) : res sys fault_kind Z)).
  { intros r. destruct s as [[] ? ? ? ? ? ? ? ? ?]; cbn. unfold add_heap; cbn.
    now rewrite Z.add_0_r. }
  assert (Hsame : forall r, 0 <= r <= ids_size (msg_ids s) ->
    exists i1 r' dh, OK r s = (OK r' (add_heap dh (set_ids (fun _ => i1) s)) : res sys fault_kind Z) /\
    ids_wf i1 /\ 0 <= r' <= ids_size i1 /\
    (exists k, ids_entries i1 = ids_entries (msg_ids s) ++ replicate k None) /\
    ids_sem i1 = ids_sem (msg_ids s) /\ ids_ary i1 = false /\
    ids_seq i1 = ids_seq (msg_ids s) /\ tab_blocks i1 = tab_blocks (msg_ids s) + dh).
  { intros r Hr. exists (msg_ids s), r, 0. split; [apply Hid|].
    split_and!; try (assumption || reflexivity || lia).
    exists 0%nat. cbn. now rewrite app_nil_r. }
  destruct (Z.leb_spec n (ids_size (msg_ids s))); [apply Hsame; lia|].
  rewrite ipc_alloc_eq. unfold kmalloc. destruct (e_alloc e 1); cycle 1.
  { apply Hsame; lia. }
  assert (Ht : take (Z.to_nat (ids_size (msg_ids s))) (ids_entries (msg_ids s))
               = ids_entries (msg_ids s)) by (apply take_ge; lia).
  set (k := Z.to_nat (n - ids_size (msg_ids s))).
  assert (Hblk : (if 0 <? ids_size (msg_ids s) then 0 else 1) = 1 - tab_blocks (msg_ids s))
    by (unfold tab_blocks; split_if; lia).
  exists (IDS n (ids_in_use (msg_ids s)) (ids_max_id (msg_ids s)) (ids_seq (msg_ids s))
            (ids_seq_max (msg_ids s)) (ids_sem (msg_ids s)) false
            (ids_entries (msg_ids s) ++ replicate k None)), n,
         (if 0 <? ids_size (msg_ids s) then 0 else 1).
  split.
  - rewrite Ht.
    unfold spin_lock, add_heap, set_ids, modify; cbn. rewrite Hary. cbn.
    rewrite ipc_free_eq. unfold kfree, modify, spin_unlock. cbn.
    destruct (0 <? ids_size (msg_ids s)); cbn; unfold add_heap, set_ids; cbn;
      f_equal; f_equal; lia.
  - split_and!; cbn; try (lia || reflexivity || (eexists; reflexivity)).
    + constructor; cbn; try (lia || assumption).
      * rewrite length_app, length_replicate. lia.
      * now apply is_max_id_app.
      * now rewrite used_app_none.
    + rewrite Hblk. unfold tab_blocks. cbn. destruct (Z.ltb_spec 0 n); lia.
Qed.

(** The permissions [ipc_addid] gives to a new entry. *)
Definition addid_perm (e : env) (seq : Z) (p : kern_ipc_perm) : kern_ipc_perm :=
  KIP (p_key p) (e_euid e) (e_egid e) (e_euid e) (e_egid e) (p_mode p) seq.

(** The table after [ipc_addid] took slot [id] for [new]. *)
Definition addid_ids (id new : Z) (i : ipc_ids) : ipc_ids :=
  IDS (ids_size i) (ids_in_use i + 1) (if ids_max_id i <? id then id else ids_max_id i)
      (if ids_seq_max i <? u16 (ids_seq i + 1) then 0 else u16 (ids_seq i + 1))
      (ids_seq_max i) (ids_sem i) true (<[Z.to_nat id := Some new]> (ids_entries i)).

Lemma addid_ids_wf id new i :
  0 <= id -> ids_entries i !! Z.to_nat id = Some None -> ids_wf i -> ids_wf (addid_ids id new i).
Proof.
  intros Hid He [Hs Hl Hm Hu Hsm Hsq]. pose proof (lookup_lt_Some _ _ _ He) as Hlt.
  constructor; cbn.
  - assumption.
  - now rewrite length_insert.
  - pose proof (is_max_id_insert _ _ (Z.to_nat id) new Hm Hlt) as H.
    now rewrite Z2Nat.id in H.
  - rewrite used_insert_some by assumption. lia.
  - assumption.
  - pose proof (wrap_u_range 16 (ids_seq i + 1) ltac:(lia)). split_if; lia.
Qed.

(** [ipc_addid], after [grow_ary] left the table [i1]: it takes the first free
    slot, leaving the lock held, and fails exactly when there is none. *)
Lemma ipc_addid_spec e new size s q0 :
  0 <= size <= msg_ctlmni -> ids_wf (msg_ids s) -> ids_ary (msg_ids s) = false ->
  queues s !! new = Some q0 ->
  exists i1 n dh,
    grow_ary e size s = OK n (add_heap dh (set_ids (fun _ => i1) s)) /\
    ids_wf i1 /\ (exists k, ids_entries i1 = ids_entries (msg_ids s) ++ replicate k None) /\
    ids_sem i1 = ids_sem (msg_ids s) /\ ids_ary i1 = false /\
    ids_seq i1 = ids_seq (msg_ids s) /\
    tab_blocks i1 = tab_blocks (msg_ids s) + dh /\
    let id := first_slot is_free (take (Z.to_nat n) (ids_entries i1)) 0 in
    if id =? -1
    then ipc_addid e new size s = OK (-1) (add_heap dh (set_ids (fun _ => i1) s))
    else ids_entries i1 !! Z.to_nat id = Some None /\ 0 <= id < IPCMNI /\
      ipc_addid e new size s = OK id (set_ids (fun _ => addid_ids id new i1)
        (set_queues <[new := msq_with_perm (addid_perm e (ids_seq i1) (q_perm q0)) q0]>
          (add_heap dh (set_ids (fun _ => i1) s)))).
Proof.
  intros Hsz Hwf Hary Hnew.
  destruct (grow_ary_spec e size s Hsz Hwf Hary)
    as (i1 & n & dh & Eg & Hwf1 & Hr & Hk & Hsem & Hary1 & Hseq & Hblk).
  exists i1, n, dh. split_and!; try assumption. cbv zeta.
  unfold ipc_addid, bind. rewrite Eg.
  set (s1 := add_heap dh (set_ids (fun _ => i1) s)).
  pose proof Hwf1 as [Hs1 Hl1 _ _ _ _].
  set (id := first_slot is_free (take (Z.to_nat n) (ids_entries i1)) 0).
  assert (Ef : find_free_from (Z.to_nat n) 0 s1 = OK id s1)
    by (apply (find_free_from_eq (Z.to_nat n) 0 s1); cbn; lia).
  rewrite Ef.
  destruct (Z.eqb_spec id (-1)) as [E|E]; [reflexivity|].
  destruct (first_slot_some _ _ 0 id ltac:(lia) eq_refl E) as (k & o & Ek & Hl & Ho & _).
  destruct o; [discriminate|]. apply lookup_take_Some in Hl as [Hl Hkn].
  rewrite Z.add_0_l in Ek. rewrite Ek, Nat2Z.id.
  pose proof (lookup_lt_Some _ _ _ Hl) as Hlt.
  split; [assumption|]. split; [unfold IPCMNI, msg_ctlmni, MSGMNI in *; lia|].
  unfold get, modify, upd_q, set_ids, add_heap, set_queues. cbn. rewrite Hnew. cbn.
  unfold spin_lock. cbn. rewrite Hary1.
  rewrite (set_entry_eq k) by (cbn; lia).
  unfold ret, set_ids, set_queues, addid_ids. cbn. now rewrite Nat2Z.id.
Qed.
