(* ===== verification/SysvMsg.v ===== *)
(** * SysV message queues: the operations (user/sysvmsg/msg.c)

    Every function of [msg.c] that touches the queues, in the order of the
    file.  A call that reaches [schedule()] ends its step there: the locals it
    still needs are saved in [sleeping] and [msgsnd_resume]/[msgrcv_resume] are
    the code after [schedule()]. *)

From stdpp Require Import base tactics numbers list gmap.
From S2P Require Import Prelude SysvState IpcUtil.

(** ** Queue creation *)

(** [newque]: the members are uninitialised until the assignments; the model
    starts them at 0. *)
Definition newque (e : env) (key msgflg : Z) : cmd Z :=
  let! ok := kmalloc (e_alloc e 0) in
  if negb ok then ret (- ENOMEM)
  else
    let! s := get in
    let msq := next_ptr s in
    modify (set_next_ptr (msq + 1)) ;;
    modify (set_queues <[msq :=
      MSQ (KIP 0 0 0 0 0 0 0) 0 0 0 0 0 0 0 0 [] [] []]>) ;;
    let! id := ipc_addid e msq msg_ctlmni in
    if id =? -1 then
      modify (set_queues (delete msq)) ;;
      kfree ;;
      ret (- ENOSPC)
    else
      upd_q msq (fun q => let p := q_perm q in
        MSQ (KIP key (p_uid p) (p_gid p) (p_cuid p) (p_cgid p)
                 (Z.land msgflg S_IRWXUGO) (p_seq p))
            0 0 (e_get_seconds e) 0 0 msg_ctlmnb 0 0 [] [] []) ;;
      ipc_unlock id ;;
      let! q := deref_q msq in
      ret (ipc_buildid id (p_seq (q_perm q))).

(** ** Message texts *)

(** [free_msg]: one block for the header, one per segment. *)
Definition free_msg (msg : msg_msg) : cmd unit :=
  kfree ;; modify (add_heap (- Z.of_nat (length (m_next msg)))).

(** The [while(len > 0)] of [load_msg]: [k] counts allocations, [segs] is the
    chain built so far.  On an error the chain that [free_msg] will walk is
    returned with the code. *)
Fixpoint load_segs (fuel : nat) (e : env) (k : nat) (src : list Z) (len : Z)
    (space : bool) (segs : list (list Z)) : cmd (list (list Z) + Z * list (list Z)) :=
  if len <=? 0 then ret (inl segs)
  else match fuel with
  | O => fault F_BUG
  | S fuel' =>
      let alen := if DATALEN_SEG <? len then DATALEN_SEG else len in
      let! ok := kmalloc (e_alloc e k) in
      if negb ok then ret (inr (- ENOMEM, segs))
      else if space && negb (e_copy e k) then ret (inr (- EFAULT, segs ++ [[]]))
      else load_segs fuel' e (S k) (drop (Z.to_nat alen) src) (len - alen) space
                     (segs ++ [take (Z.to_nat alen) src])
  end.

(** [load_msg]: a message with the text of [src], or an error code
    ([ERR_PTR]). *)
Definition load_msg (e : env) (src : list Z) (len : Z) (space : bool) : cmd (msg_msg + Z) :=
  let alen := if DATALEN_MSG <? len then DATALEN_MSG else len in
  let! ok := kmalloc (e_alloc e 0) in
  if negb ok then ret (inr (- ENOMEM))
  else if space && negb (e_copy e 0) then
    free_msg (MSG 0 0 [] []) ;; ret (inr (- EFAULT))
  else
    let! r := load_segs (Z.to_nat len) e 1 (drop (Z.to_nat alen) src) (len - alen) space [] in
    match r with
    | inl segs => ret (inl (MSG 0 0 (take (Z.to_nat alen) src) segs))
    | inr (err, segs) => free_msg (MSG 0 0 [] segs) ;; ret (inr err)
    end.

(** The [while(len > 0)] of [store_msg]; [k] counts copies. *)
Fixpoint store_segs (fuel : nat) (e : env) (k : nat) (segs : list (list Z)) (len : Z)
    (space : bool) (dest : list Z) : cmd (Z * list Z) :=
  if len <=? 0 then ret (0, dest)
  else match fuel, segs with
  | O, _ => fault F_BUG
  | S _, [] => fault F_NULL
  | S fuel', seg :: segs' =>
      let alen := if DATALEN_SEG <? len then DATALEN_SEG else len in
      if space && negb (e_copy e k) then ret (-1, dest)
      else store_segs fuel' e (S k) segs' (len - alen) space
                      (dest ++ take (Z.to_nat alen) seg)
  end.

(** [store_msg]: 0 or -1, and what was written at the destination; copy 0 of
    the call is the [put_user] of its caller. *)
Definition store_msg (e : env) (msg : msg_msg) (len : Z) (space : bool) : cmd (Z * list Z) :=
  let alen := if DATALEN_MSG <? len then DATALEN_MSG else len in
  if space && negb (e_copy e 1) then ret (-1, [])
  else store_segs (Z.to_nat len) e 2 (m_next msg) (len - alen) space
                  (take (Z.to_nat alen) (m_text msg)).

(** ** Sleeping senders and receivers *)

(** [ss_add] *)
Definition ss_add (e : env) (msq : Z) : cmd unit :=
  modify (set_senders <[e_pid e := SND (Some msq) (e_pid e)]>) ;;
  upd_q msq (fun q => msq_with_senders (q_senders q ++ [e_pid e]) q).

(** Remove the first occurrence: [list_del] of the node of task [t]. *)
Fixpoint unlink (t : Z) (l : list Z) : list Z :=
  match l with
  | [] => []
  | x :: l' => if t =? x then l' else x :: unlink t l'
  end.

(** [ss_del] for the [struct msg_sender] of task [t]. *)
Definition ss_del (t : Z) : cmd unit := fun s =>
  match senders s !! t with
  | None => Fault F_DANGLING
  | Some mss =>
      match s_list mss with
      | None => OK tt s
      | Some msq =>
          upd_q msq (fun q => msq_with_senders (unlink t (q_senders q)) q) s
      end
  end.

(** [list_del(&msr->r_list)] for the [struct msg_receiver] of task [t]. *)
Definition rcv_list_del (t : Z) : cmd unit :=
  let! r := deref_r t in
  match r_list r with
  | None => fault F_LIST
  | Some msq =>
      upd_q msq (fun q => msq_with_receivers (unlink t (q_receivers q)) q) ;;
      upd_r t rcv_unlinked
  end.

(** [ss_wakeup] over the senders of the list [h]. *)
Fixpoint ss_wakeup (h : list Z) (kill : bool) : cmd unit :=
  match h with
  | [] => ret tt
  | t :: h' =>
      (if kill then upd_s t (fun mss => SND None (s_tsk mss)) else ret tt) ;;
      wake_up_process t ;;
      ss_wakeup h' kill
  end.

(** The loop of [expunge_all] over the receivers of a queue. *)
Fixpoint expunge_list (l : list Z) (res : Z) : cmd unit :=
  match l with
  | [] => ret tt
  | t :: l' =>
      upd_r t (rcv_with_msg (inr res)) ;;
      wake_up_process t ;;
      expunge_list l' res
  end.

(** [expunge_all] *)
Definition expunge_all (msq res : Z) : cmd unit :=
  let! q := deref_q msq in
  expunge_list (q_receivers q) res.

(** The loop of [freeque] over the messages of the queue. *)
Fixpoint free_messages (l : list msg_msg) : cmd unit :=
  match l with
  | [] => ret tt
  | msg :: l' =>
      modify (set_atomics 0 (-1)) ;;
      free_msg msg ;;
      free_messages l'
  end.

(** [freeque] *)
Definition freeque (id : Z) : cmd unit :=
  let! msq := ipc_rmid id in
  expunge_all msq (- EIDRM) ;;
  let! q := deref_q msq in
  ss_wakeup (q_senders q) true ;;
  ipc_unlock id ;;
  let! q := deref_q msq in
  free_messages (q_messages q) ;;
  modify (set_atomics (- q_cbytes q) 0) ;;
  modify (set_queues (delete msq)) ;;
  kfree.

(** ** rt_msgget *)

Definition rt_msgget (e : env) (key msgflg : Z) : cmd Z :=
  down ;;
  let! r :=
    (if key =? IPC_PRIVATE then newque e key msgflg
     else
       let! id := ipc_findkey key in
       if id =? -1 then
         if Z.land msgflg IPC_CREAT =? 0 then ret (- ENOENT)
         else newque e key msgflg
       else if negb (Z.land msgflg IPC_CREAT =? 0) && negb (Z.land msgflg IPC_EXCL =? 0)
       then ret (- EEXIST)
       else
         let! msq := ipc_lock id in
         match msq with
         | None => fault F_BUG
         | Some msq =>
             let! q := deref_q msq in
             let r := if negb (ipcperms e (q_perm q) (wrap_s 16 msgflg) =? 0)
                      then - EACCES else ipc_buildid id (p_seq (q_perm q)) in
             ipc_unlock id ;;
             ret r
         end) in
  up ;;
  ret r.

(** ** rt_msgctl *)

(** [struct msqid64_ds], the members the module uses. *)
Record msqid64_ds := M64 {
  msg_perm64 : ipc64_perm;
  msg_stime64 : Z; msg_rtime64 : Z; msg_ctime64 : Z;
  msg_cbytes64 : Z; msg_qnum64 : Z; msg_qbytes64 : Z;
  msg_lspid64 : Z; msg_lrpid64 : Z
}.

(** [struct msqid_ds] *)
Record msqid_ds := MDS {
  msg_perm : ipc_perm;
  msg_stime : Z; msg_rtime : Z; msg_ctime : Z;
  msg_lcbytes : Z; msg_lqbytes : Z;
  msg_cbytes : Z; msg_qnum : Z; msg_qbytes : Z;
  msg_lspid : Z; msg_lrpid : Z
}.

(** [struct msginfo] *)
Record msginfo := MINFO {
  msgpool : Z; msgmap : Z; msgmax : Z; msgmnb : Z; msgmni : Z; msgssz : Z;
  msgtql : Z; msgseg : Z
}.

(** [struct msq_setbuf] *)
Record msq_setbuf := SETBUF { sb_qbytes : Z; sb_uid : Z; sb_gid : Z; sb_mode : Z }.

(** What a caller finds in its buffer. *)
Inductive ctl_out :=
| OutNone | OutInfo (i : msginfo) | Out64 (d : msqid64_ds) | OutOld (d : msqid_ds).

(** The buffer a caller passes: [NULL], or memory that reads as one of the two
    structures according to the version. *)
Inductive ctl_buf := BufNull | Buf (b64 : msqid64_ds) (bold : msqid_ds).

(** Saturation of the 16-bit members of the old structure. *)
Definition sat16 (x : Z) : Z := if USHRT_MAX <? x then USHRT_MAX else u16 x.

(** [copy_msqid_to_user]: 0 and what was written, or nonzero. *)
Definition copy_msqid_to_user (e : env) (i : msqid64_ds) (version : Z) (space : bool)
    : Z * ctl_out :=
  if version =? IPC_64 then
    if space && negb (e_copy e 0) then (1, OutNone) else (0, Out64 i)
  else if version =? IPC_OLD then
    let out := MDS (ipc64_perm_to_ipc_perm (msg_perm64 i))
      (msg_stime64 i) (msg_rtime64 i) (msg_ctime64 i)
      (msg_cbytes64 i) (msg_qbytes64 i)
      (sat16 (msg_cbytes64 i)) (sat16 (msg_qnum64 i)) (sat16 (msg_qbytes64 i))
      (msg_lspid64 i) (msg_lrpid64 i) in
    if space && negb (e_copy e 0) then (1, OutNone) else (0, OutOld out)
  else (u32 (- EINVAL), OutNone).

(** [copy_msqid_from_user] *)
Definition copy_msqid_from_user (e : env) (b64 : msqid64_ds) (bold : msqid_ds)
    (version : Z) (space : bool) : msq_setbuf + Z :=
  if version =? IPC_64 then
    if space && negb (e_copy e 0) then inr (- EFAULT)
    else inl (SETBUF (u32 (msg_qbytes64 b64)) (o_uid (msg_perm64 b64))
                     (o_gid (msg_perm64 b64)) (o_mode (msg_perm64 b64)))
  else if version =? IPC_OLD then
    if space && negb (e_copy e 0) then inr (- EFAULT)
    else inl (SETBUF (if u16 (msg_qbytes bold) =? 0 then u32 (msg_lqbytes bold)
                      else u16 (msg_qbytes bold))
                     (i_uid (msg_perm bold)) (i_gid (msg_perm bold)) (i_mode (msg_perm bold)))
  else inr (- EINVAL).

(** The [IPC_INFO]/[MSG_INFO] case. *)
Definition msgctl_info (e : env) (cmd : Z) (buf : ctl_buf) (space : bool) : SysvState.cmd (Z * ctl_out) :=
  match buf with
  | BufNull => ret (- EFAULT, OutNone)
  | Buf _ _ =>
      down ;;
      let! s := get in
      let info :=
        if cmd =? MSG_INFO
        then MINFO (ids_in_use (msg_ids s)) (msg_hdrs s) msg_ctlmax msg_ctlmnb
                   msg_ctlmni MSGSSZ (msg_bytes s) MSGSEG
        else MINFO MSGPOOL MSGMAP msg_ctlmax msg_ctlmnb msg_ctlmni MSGSSZ MSGTQL MSGSEG in
      let max_id := ids_max_id (msg_ids s) in
      up ;;
      if space && negb (e_copy e 0) then ret (- EFAULT, OutNone)
      else ret (if max_id <? 0 then 0 else max_id, OutInfo info)
  end.

(** The [MSG_STAT]/[IPC_STAT] case. *)
Definition msgctl_stat (e : env) (msqid cmd version : Z) (buf : ctl_buf) (space : bool)
    : SysvState.cmd (Z * ctl_out) :=
  match buf with
  | BufNull => ret (- EFAULT, OutNone)
  | Buf _ _ =>
      let! s := get in
      if (cmd =? MSG_STAT) && (ids_size (msg_ids s) <=? msqid) then ret (- EINVAL, OutNone)
      else
        let! msq := ipc_lock msqid in
        match msq with
        | None => ret (- EINVAL, OutNone)
        | Some msq =>
            let! q := deref_q msq in
            if negb (cmd =? MSG_STAT) && ipc_checkid (q_perm q) msqid
            then ipc_unlock msqid ;; ret (- EIDRM, OutNone)
            else
              let success_return :=
                if cmd =? MSG_STAT then ipc_buildid msqid (p_seq (q_perm q)) else 0 in
              if negb (ipcperms e (q_perm q) S_IRUGO =? 0)
              then ipc_unlock msqid ;; ret (- EACCES, OutNone)
              else
                let tbuf := M64 (kernel_to_ipc64_perm (q_perm q))
                  (q_stime q) (q_rtime q) (q_ctime q) (q_cbytes q) (q_qnum q)
                  (q_qbytes q) (q_lspid q) (q_lrpid q) in
                ipc_unlock msqid ;;
                let '(r, out) := copy_msqid_to_user e tbuf version space in
                if negb (r =? 0) then ret (- EFAULT, OutNone)
                else ret (success_return, out)
        end
  end.

(** The second half of [_rt_msgctl], [IPC_SET] (with [setbuf]) and
    [IPC_RMID]. *)
Definition msgctl_change (e : env) (msqid : Z) (setbuf : option msq_setbuf) : SysvState.cmd Z :=
  down ;;
  let! msq := ipc_lock msqid in
  match msq with
  | None => up ;; ret (- EINVAL)
  | Some msq =>
      let! q := deref_q msq in
      let ipcp := q_perm q in
      if ipc_checkid ipcp msqid then ipc_unlock msqid ;; up ;; ret (- EIDRM)
      else if negb (e_euid e =? p_cuid ipcp) && negb (e_euid e =? p_uid ipcp)
              && negb (e_capable e CAP_SYS_ADMIN)
      then ipc_unlock msqid ;; up ;; ret (- EPERM)
      else match setbuf with
      | Some b =>
          if (msg_ctlmnb <? sb_qbytes b) && negb (e_capable e CAP_SYS_RESOURCE)
          then ipc_unlock msqid ;; up ;; ret (- EPERM)
          else
            upd_q msq (fun q =>
              MSQ (KIP (p_key ipcp) (sb_uid b) (sb_gid b) (p_cuid ipcp) (p_cgid ipcp)
                       (Z.lor (Z.land (p_mode ipcp) (Z.lnot S_IRWXUGO))
                              (Z.land S_IRWXUGO (sb_mode b)))
                       (p_seq ipcp))
                  (q_stime q) (q_rtime q) (e_get_seconds e) (q_cbytes q) (q_qnum q)
                  (sb_qbytes b) (q_lspid q) (q_lrpid q) (q_messages q)
                  (q_receivers q) (q_senders q)) ;;
            expunge_all msq (- EAGAIN) ;;
            let! q := deref_q msq in
            ss_wakeup (q_senders q) false ;;
            ipc_unlock msqid ;;
            up ;;
            ret 0
      | None =>
          freeque msqid ;;
          up ;;
          ret 0
      end
  end.

Definition _rt_msgctl (e : env) (msqid cmd : Z) (buf : ctl_buf) (space : bool)
    : SysvState.cmd (Z * ctl_out) :=
  if (msqid <? 0) || (cmd <? 0) then ret (- EINVAL, OutNone)
  else
    let '(version, cmd) := ipc_parse_version cmd in
    if (cmd =? IPC_INFO) || (cmd =? MSG_INFO) then msgctl_info e cmd buf space
    else if (cmd =? MSG_STAT) || (cmd =? IPC_STAT) then msgctl_stat e msqid cmd version buf space
    else if cmd =? IPC_SET then
      match buf with
      | BufNull => ret (- EFAULT, OutNone)
      | Buf b64 bold =>
          match copy_msqid_from_user e b64 bold version space with
          | inr _ => ret (- EFAULT, OutNone)
          | inl b => let! r := msgctl_change e msqid (Some b) in ret (r, OutNone)
          end
      end
    else if cmd =? IPC_RMID then
      let! r := msgctl_change e msqid None in ret (r, OutNone)
    else ret (- EINVAL, OutNone).

(** ** Matching *)

(** [testmsg] *)
Definition testmsg (msg : msg_msg) (type mode : Z) : bool :=
  if mode =? SEARCH_ANY then true
  else if mode =? SEARCH_LESSEQUAL then m_type msg <=? type
  else if mode =? SEARCH_EQUAL then m_type msg =? type
  else if mode =? SEARCH_NOTEQUAL then negb (m_type msg =? type)
  else false.

(** [convert_mode]: the mode and the new value of [msgtyp] (a [long]). *)
Definition convert_mode (msgtyp msgflg : Z) : Z * Z :=
  if msgtyp =? 0 then (SEARCH_ANY, msgtyp)
  else if msgtyp <? 0 then (SEARCH_LESSEQUAL, i32 (- msgtyp))
  else if negb (Z.land msgflg MSG_EXCEPT =? 0) then (SEARCH_NOTEQUAL, msgtyp)
  else (SEARCH_EQUAL, msgtyp).

(** ** Sending *)

(** The loop of [pipelined_send] over the receivers of queue [msq]. *)
Fixpoint pipelined_list (e : env) (msq : Z) (msg : msg_msg) (l : list Z) : cmd bool :=
  match l with
  | [] => ret false
  | t :: l' =>
      let! msr := deref_r t in
      if testmsg msg (r_msgtype msr) (r_mode msr) then
        rcv_list_del t ;;
        if r_maxsize msr <? m_ts msg then
          upd_r t (rcv_with_msg (inr (- E2BIG))) ;;
          wake_up_process t ;;
          pipelined_list e msq msg l'
        else
          upd_r t (rcv_with_msg (inl msg)) ;;
          upd_q msq (fun q =>
            MSQ (q_perm q) (q_stime q) (e_get_seconds e) (q_ctime q) (q_cbytes q)
                (q_qnum q) (q_qbytes q) (q_lspid q) (r_tsk msr) (q_messages q)
                (q_receivers q) (q_senders q)) ;;
          wake_up_process t ;;
          ret true
      else pipelined_list e msq msg l'
  end.

(** [pipelined_send] *)
Definition pipelined_send (e : env) (msq : Z) (msg : msg_msg) : cmd bool :=
  let! q := deref_q msq in
  pipelined_list e msq msg (q_receivers q).

(** From the label [retry] of [_rt_msgsnd] to its return, or to [schedule()]
    ([None]: the caller sleeps).  The spin lock is held on entry. *)
Definition msgsnd_retry (e : env) (msqid msq : Z) (msg : msg_msg) (msgsz msgflg : Z)
    : cmd (option Z) :=
  let! q := deref_q msq in
  if ipc_checkid (q_perm q) msqid then
    ipc_unlock msqid ;; free_msg msg ;; ret (Some (- EIDRM))
  else if negb (ipcperms e (q_perm q) S_IWUGO =? 0) then
    ipc_unlock msqid ;; free_msg msg ;; ret (Some (- EACCES))
  else if (q_qbytes q <? u32 (msgsz + q_cbytes q)) || (q_qbytes q <? u32 (1 + q_qnum q)) then
    if negb (Z.land msgflg IPC_NOWAIT =? 0) then
      ipc_unlock msqid ;; free_msg msg ;; ret (Some (- EAGAIN))
    else
      ss_add e msq ;;
      ipc_unlock msqid ;;
      modify (set_sleeping <[e_pid e := PSnd msqid msg msgsz msgflg]>) ;;
      ret None
  else
    upd_q msq (fun q =>
      MSQ (q_perm q) (e_get_seconds e) (q_rtime q) (q_ctime q) (q_cbytes q) (q_qnum q)
          (q_qbytes q) (e_pid e) (q_lrpid q) (q_messages q) (q_receivers q) (q_senders q)) ;;
    let! delivered := pipelined_send e msq msg in
    (if delivered then ret tt
     else
       upd_q msq (fun q =>
         MSQ (q_perm q) (q_stime q) (q_rtime q) (q_ctime q) (u32 (q_cbytes q + msgsz))
             (u32 (q_qnum q + 1)) (q_qbytes q) (q_lspid q) (q_lrpid q)
             (q_messages q ++ [msg]) (q_receivers q) (q_senders q)) ;;
       modify (set_atomics msgsz 1)) ;;
    ipc_unlock msqid ;;
    ret (Some 0).

(** [_rt_msgsnd] up to its return or its first [schedule()]. *)
Definition _rt_msgsnd (e : env) (msqid mtype : Z) (mtext : list Z) (msgsz msgflg : Z)
    (space : bool) : cmd (option Z) :=
  let msgsz := u32 msgsz in
  let mtype := i32 mtype in
  if (msg_ctlmax <? msgsz) || (i32 msgsz <? 0) || (msqid <? 0) then ret (Some (- EINVAL))
  else if mtype <? 1 then ret (Some (- EINVAL))
  else
    let! r := load_msg e mtext msgsz space in
    match r with
    | inr err => ret (Some err)
    | inl msg0 =>
        let msg := MSG mtype msgsz (m_text msg0) (m_next msg0) in
        let! msq := ipc_lock msqid in
        match msq with
        | None => free_msg msg ;; ret (Some (- EINVAL))
        | Some msq => msgsnd_retry e msqid msq msg msgsz msgflg
        end
    end.

(** [_rt_msgsnd] after [schedule()], for the caller [e_pid e]. *)
Definition msgsnd_resume (e : env) (msqid : Z) (msg : msg_msg) (msgsz msgflg : Z)
    : cmd (option Z) :=
  let t := e_pid e in
  let! msq := ipc_lock msqid in
  match msq with
  | None =>
      modify (set_senders (delete t)) ;;
      free_msg msg ;; ret (Some (- EIDRM))
  | Some msq =>
      ss_del t ;;
      modify (set_senders (delete t)) ;;
      if e_signal_pending e then
        ipc_unlock msqid ;; free_msg msg ;; ret (Some (- EINTR))
      else msgsnd_retry e msqid msq msg msgsz msgflg
  end.

(** ** Receiving *)

(** What a caller of [_rt_msgrcv] gets: the return value, [*mtype] when it was
    written, and the bytes written at [mtext]. *)
Record reply := REPLY { rp_ret : Z; rp_mtype : option Z; rp_mtext : list Z }.

Definition err_reply (err : Z) : reply := REPLY err None [].

(** The search of [_rt_msgrcv]: the index of the message found, from index
    [i] on, [found] being the index found so far.  A match in
    [SEARCH_LESSEQUAL] mode lowers [msgtyp] and goes on. *)
Fixpoint search_from (msgtyp mode : Z) (i : nat) (found : option nat) (l : list msg_msg)
    : option nat :=
  match l with
  | [] => found
  | msg :: l' =>
      if testmsg msg msgtyp mode then
        if (mode =? SEARCH_LESSEQUAL) && negb (m_type msg =? 1)
        then search_from (m_type msg - 1) mode (S i) (Some i) l'
        else Some i
      else search_from msgtyp mode (S i) found l'
  end.

Definition search_msg (msgtyp mode : Z) (l : list msg_msg) : option nat :=
  search_from msgtyp mode 0 None l.

(** The code at [out_success]. *)
Definition msgrcv_success (e : env) (msg : msg_msg) (msgsz : Z) (space : bool) : cmd reply :=
  let msgsz := if m_ts msg <? msgsz then m_ts msg else msgsz in
  let! r :=
    (if space then
       if negb (e_copy e 0) then ret (REPLY (- EFAULT) None [])
       else
         let! st := store_msg e msg msgsz space in
         let (rc, text) := st : Z * list Z in
         ret (REPLY (if rc =? 0 then msgsz else - EFAULT) (Some (m_type msg)) text)
     else
       let! st := store_msg e msg msgsz space in
       let (rc, text) := st : Z * list Z in
       ret (REPLY (if rc =? 0 then msgsz else - EFAULT) (Some (m_type msg)) text)) in
  free_msg msg ;;
  ret r.

(** From the label [retry] of [_rt_msgrcv] to its return or to [schedule()].
    The spin lock is held on entry. *)
Definition msgrcv_retry (e : env) (msqid msq msgsz msgtyp mode msgflg : Z) (space : bool)
    : cmd (option reply) :=
  let! q := deref_q msq in
  if ipc_checkid (q_perm q) msqid then
    ipc_unlock msqid ;; ret (Some (err_reply (- EIDRM)))
  else if negb (ipcperms e (q_perm q) S_IRUGO =? 0) then
    ipc_unlock msqid ;; ret (Some (err_reply (- EACCES)))
  else match search_msg msgtyp mode (q_messages q) with
  | Some i =>
      match q_messages q !! i with
      | None => fault F_BOUNDS
      | Some msg =>
          if (msgsz <? m_ts msg) && (Z.land msgflg MSG_NOERROR =? 0) then
            ipc_unlock msqid ;; ret (Some (err_reply (- E2BIG)))
          else
            upd_q msq (fun q =>
              MSQ (q_perm q) (q_stime q) (e_get_seconds e) (q_ctime q)
                  (u32 (q_cbytes q - m_ts msg)) (u32 (q_qnum q - 1)) (q_qbytes q)
                  (q_lspid q) (e_pid e) (delete i (q_messages q)) (q_receivers q)
                  (q_senders q)) ;;
            modify (set_atomics (- m_ts msg) (-1)) ;;
            ss_wakeup (q_senders q) false ;;
            ipc_unlock msqid ;;
            let! r := msgrcv_success e msg msgsz space in
            ret (Some r)
      end
  | None =>
      if negb (Z.land msgflg IPC_NOWAIT =? 0) then
        ipc_unlock msqid ;; ret (Some (err_reply (- ENOMSG)))
      else
        upd_q msq (fun q => msq_with_receivers (q_receivers q ++ [e_pid e]) q) ;;
        modify (set_receivers <[e_pid e :=
          RCV (Some msq) (e_pid e) mode msgtyp
              (if negb (Z.land msgflg MSG_NOERROR =? 0) then INT_MAX else msgsz)
              (inr (- EAGAIN))]>) ;;
        ipc_unlock msqid ;;
        modify (set_sleeping <[e_pid e := PRcv msqid msq msgsz msgtyp mode msgflg space]>) ;;
        ret None
  end.

(** [_rt_msgrcv] up to its return or its first [schedule()]. *)
Definition _rt_msgrcv (e : env) (msqid msgsz msgtyp msgflg : Z) (space : bool)
    : cmd (option reply) :=
  let msgsz := u32 msgsz in
  if (msqid <? 0) || (i32 msgsz <? 0) then ret (Some (err_reply (- EINVAL)))
  else
    let '(mode, msgtyp) := convert_mode (i32 msgtyp) msgflg in
    let! msq := ipc_lock msqid in
    match msq with
    | None => ret (Some (err_reply (- EINVAL)))
    | Some msq => msgrcv_retry e msqid msq msgsz msgtyp mode msgflg space
    end.

(** [_rt_msgrcv] after [schedule()], for the caller [e_pid e]. *)
Definition msgrcv_resume (e : env) (msqid msq msgsz msgtyp mode msgflg : Z) (space : bool)
    : cmd (option reply) :=
  let tsk := e_pid e in
  let! t := ipc_lock msqid in
  let msqid := match t with None => -1 | Some _ => msqid end in
  let! msr := deref_r tsk in
  match r_msg msr with
  | inl msg =>
      (if negb (msqid =? -1) then ipc_unlock msqid else ret tt) ;;
      modify (set_receivers (delete tsk)) ;;
      let! r := msgrcv_success e msg msgsz space in
      ret (Some r)
  | inr err =>
      if err =? - EAGAIN then
        if msqid =? -1 then fault F_BUG
        else
          rcv_list_del tsk ;;
          modify (set_receivers (delete tsk)) ;;
          if e_signal_pending e then
            ipc_unlock msqid ;; ret (Some (err_reply (- EINTR)))
          else msgrcv_retry e msqid msq msgsz msgtyp mode msgflg space
      else
        (if negb (msqid =? -1) then ipc_unlock msqid else ret tt) ;;
        modify (set_receivers (delete tsk)) ;;
        ret (Some (err_reply err))
  end.

(** [msg_init] *)
Definition msg_init (e : env) : cmd unit := ipc_init_ids e msg_ctlmni.
