(* ===== verification/MsgText.v ===== *)
(** * Message texts in pages (load_msg, store_msg, free_msg of msg.c)

    A text longer than what fits behind the message header is cut into a chain
    of segments.  What [load_msg] cuts, [store_msg] puts together again, and
    on every error path the blocks allocated so far are given back. *)

From stdpp Require Import base tactics numbers list gmap.
From S2P Require Import Prelude SysvState IpcUtil SysvMsg.

Lemma DATALEN_MSG_eq : DATALEN_MSG = 4076.
Proof. reflexivity. Qed.
Lemma DATALEN_SEG_eq : DATALEN_SEG = 4092.
Proof. reflexivity. Qed.

(** Length of the piece taken when [len] bytes are left and [n] fit. *)
Definition piece (n len : Z) : nat := Z.to_nat (if n <? len then n else len).

(** The pieces of a text, as the loop cuts them. *)
Fixpoint seg_split (fuel : nat) (src : list Z) (len : Z) : list (list Z) :=
  if len <=? 0 then []
  else match fuel with
  | O => []
  | S fuel' =>
      take (piece DATALEN_SEG len) src
      :: seg_split fuel' (drop (piece DATALEN_SEG len) src)
                   (len - Z.of_nat (piece DATALEN_SEG len))
  end.

Lemma piece_pos n len : 0 < n -> 0 < len -> 0 < Z.of_nat (piece n len) <= len.
Proof. intros. unfold piece. split_if; lia. Qed.

Lemma piece_Z n len : 0 <= n -> 0 <= len -> Z.of_nat (piece n len) = if n <? len then n else len.
Proof. intros. unfold piece. split_if; lia. Qed.

(** Number of blocks of [rt_malloc] a message occupies. *)
Definition msg_blocks (m : msg_msg) : Z := 1 + Z.of_nat (length (m_next m)).

Lemma add_heap_add_heap a b s : add_heap a (add_heap b s) = add_heap (b + a) s.
Proof. unfold add_heap; cbn. now rewrite Z.add_assoc. Qed.

Lemma add_heap_0 s : add_heap 0 s = s.
Proof. destruct s; unfold add_heap; cbn. now rewrite Z.add_0_r. Qed.

Lemma free_msg_eq m s : free_msg m s = OK tt (add_heap (- msg_blocks m) s).
Proof.
  unfold free_msg, kfree, bind, modify. rewrite add_heap_add_heap.
  do 2 f_equal. unfold msg_blocks. lia.
Qed.

Definition alloc_err (err : Z) : Prop := err = - ENOMEM \/ err = - EFAULT.

Lemma load_segs_spec fuel e k src len space segs s :
  (Z.to_nat len <= fuel)%nat ->
  exists r dh, load_segs fuel e k src len space segs s = OK r (add_heap dh s) /\
    match r with
    | inl segs' => segs' = segs ++ seg_split fuel src len /\
                   dh = Z.of_nat (length (seg_split fuel src len))
    | inr (err, segs') => alloc_err err /\
                          dh = Z.of_nat (length segs') - Z.of_nat (length segs) /\
                          ~ ((forall n, e_alloc e n = true) /\ (forall n, e_copy e n = true))
    end.
Proof.
  revert k src len segs s. induction fuel as [|fuel IH]; intros k src len segs s Hf; cbn.
  - destruct (Z.leb_spec len 0); [|lia].
    exists (inl segs), 0. rewrite add_heap_0, app_nil_r. auto.
  - destruct (Z.leb_spec len 0).
    { exists (inl segs), 0. rewrite add_heap_0, app_nil_r. auto. }
    change (Z.to_nat (if DATALEN_SEG <? len then DATALEN_SEG else len))
      with (piece DATALEN_SEG len).
    pose proof (piece_pos DATALEN_SEG len ltac:(reflexivity) ltac:(lia)) as Hp.
    rewrite <- (piece_Z DATALEN_SEG len) by (rewrite ?DATALEN_SEG_eq; lia).
    unfold kmalloc, bind. destruct (e_alloc e k) eqn:Ea; cycle 1.
    { exists (inr (- ENOMEM, segs)), 0. rewrite add_heap_0. split; [reflexivity|].
      split_and!; [left; reflexivity | lia | intros [Ha _]; congruence]. }
    cbn [negb]. destruct (space && negb (e_copy e k)) eqn:Ec.
    { exists (inr (- EFAULT, segs ++ [[]])), 1. split; [reflexivity|].
      bool_to_prop. rewrite length_app. cbn.
      split_and!; [right; reflexivity | lia | intros [_ Hc]; congruence]. }
    destruct (IH (S k) (drop (piece DATALEN_SEG len) src)
                (len - Z.of_nat (piece DATALEN_SEG len))
                (segs ++ [take (piece DATALEN_SEG len) src]) (add_heap 1 s) ltac:(lia))
      as (r & dh & E & Hr).
    exists r, (1 + dh). rewrite E, add_heap_add_heap. split; [reflexivity|].
    destruct r as [segs'|[err segs']].
    + destruct Hr as [-> ->]. rewrite <- app_assoc. cbn. split; [reflexivity | lia].
    + destruct Hr as (He & -> & Hn). rewrite length_app. cbn.
      split_and!; [assumption | lia | assumption].
Qed.

(** The message [load_msg] builds when nothing fails. *)
Definition loaded (src : list Z) (len : Z) : msg_msg :=
  let a := piece DATALEN_MSG len in
  MSG 0 0 (take a src) (seg_split (Z.to_nat len) (drop a src) (len - Z.of_nat a)).

Lemma load_msg_spec e src len space s :
  0 <= len ->
  exists r dh, load_msg e src len space s = OK r (add_heap dh s) /\
    match r with
    | inl m => m = loaded src len /\ dh = msg_blocks m
    | inr err => alloc_err err /\ dh = 0 /\
                 ~ ((forall n, e_alloc e n = true) /\ (forall n, e_copy e n = true))
    end.
Proof.
  intros Hlen. unfold load_msg, bind, kmalloc.
  destruct (e_alloc e 0) eqn:Ea; cbn [negb]; cycle 1.
  { exists (inr (- ENOMEM)), 0. rewrite add_heap_0. split; [reflexivity|].
    split_and!; [left; reflexivity | reflexivity | intros [Ha _]; congruence]. }
  destruct (space && negb (e_copy e 0)) eqn:Ec.
  { exists (inr (- EFAULT)), 0. bool_to_prop. rewrite free_msg_eq, add_heap_add_heap.
    split; [reflexivity|].
    split_and!; [right; reflexivity | reflexivity | intros [_ Hc]; congruence]. }
  change (Z.to_nat (if DATALEN_MSG <? len then DATALEN_MSG else len)) with (piece DATALEN_MSG len).
  rewrite <- (piece_Z DATALEN_MSG len) by (rewrite ?DATALEN_MSG_eq; lia).
  destruct (load_segs_spec (Z.to_nat len) e 1 (drop (piece DATALEN_MSG len) src)
              (len - Z.of_nat (piece DATALEN_MSG len)) space [] (add_heap 1 s) ltac:(lia))
    as (r & dh & E & Hr). rewrite E.
  destruct r as [segs|[err segs]].
  - destruct Hr as [-> ->]. eexists (inl _), _. split.
    + unfold ret. rewrite add_heap_add_heap. reflexivity.
    + unfold msg_blocks; cbn. split; reflexivity || lia.
  - destruct Hr as (He & -> & Hn). rewrite free_msg_eq, !add_heap_add_heap.
    exists (inr err), 0. split; [|auto]. unfold ret, msg_blocks. cbn. do 2 f_equal. lia.
Qed.

(** Capacity of the chain. *)
Lemma seg_split_cover fuel src len :
  (Z.to_nat len <= fuel)%nat ->
  len <= DATALEN_SEG * Z.of_nat (length (seg_split fuel src len)).
Proof.
  revert src len. induction fuel as [|fuel IH]; intros src len Hf; cbn -[Z.mul];
    destruct (Z.leb_spec len 0); cbn -[Z.mul]; try lia.
  pose proof (piece_pos DATALEN_SEG len ltac:(reflexivity) ltac:(lia)).
  specialize (IH (drop (piece DATALEN_SEG len) src)
                 (len - Z.of_nat (piece DATALEN_SEG len)) ltac:(lia)).
  rewrite DATALEN_SEG_eq in *. unfold piece in *. split_if; lia.
Qed.

Lemma seg_split_concat fuel src len :
  (Z.to_nat len <= fuel)%nat -> concat (seg_split fuel src len) = take (Z.to_nat len) src.
Proof.
  revert src len. induction fuel as [|fuel IH]; intros src len Hf; cbn [seg_split];
    destruct (Z.leb_spec len 0); try lia; try (now replace (Z.to_nat len) with 0%nat by lia).
  pose proof (piece_pos DATALEN_SEG len ltac:(reflexivity) ltac:(lia)).
  cbn [concat]. rewrite IH by lia.
  rewrite <- (take_drop (piece DATALEN_SEG len) (take (Z.to_nat len) src)).
  rewrite take_take, Nat.min_l by lia. f_equal. rewrite skipn_firstn_comm. f_equal. lia.
Qed.

(** A message as [_rt_msgsnd] makes it: a positive type, and a text cut into
    pieces by [load_msg]. *)
Definition msg_ok (m : msg_msg) : Prop :=
  1 <= m_type m /\ 0 <= m_ts m /\
  exists src, m = MSG (m_type m) (m_ts m) (m_text (loaded src (m_ts m))) (m_next (loaded src (m_ts m))).

(** The text of a message. *)
Definition payload (m : msg_msg) : list Z := m_text m ++ concat (m_next m).

Lemma piece_le n len : 0 <= n -> 0 <= len -> Z.of_nat (piece n len) <= len.
Proof. intros. rewrite piece_Z by assumption. split_if; lia. Qed.

Lemma payload_loaded src len mtype ts :
  0 <= len ->
  payload (MSG mtype ts (m_text (loaded src len)) (m_next (loaded src len)))
    = take (Z.to_nat len) src.
Proof.
  intros Hlen. unfold payload. cbn [m_text m_next loaded].
  pose proof (piece_le DATALEN_MSG len ltac:(discriminate) Hlen).
  rewrite seg_split_concat by lia.
  rewrite <- (take_drop (piece DATALEN_MSG len) (take (Z.to_nat len) src)).
  rewrite take_take, Nat.min_l by lia. f_equal. rewrite skipn_firstn_comm. f_equal. lia.
Qed.

Lemma loaded_ok src len mtype :
  0 <= len -> 1 <= mtype ->
  msg_ok (MSG mtype len (m_text (loaded src len)) (m_next (loaded src len))).
Proof. intros Hlen Ht. split_and!; [exact Ht | exact Hlen|]. now exists src. Qed.

(** The chain of a message holds its text: what [store_msg] relies on to stay
    inside it. *)
Lemma msg_ok_cover m : msg_ok m -> m_ts m - DATALEN_MSG <= DATALEN_SEG * Z.of_nat (length (m_next m)).
Proof.
  intros (_ & Hlen & src & E). rewrite E at 2. cbn [m_next loaded].
  pose proof (seg_split_cover (Z.to_nat (m_ts m)) (drop (piece DATALEN_MSG (m_ts m)) src)
    (m_ts m - Z.of_nat (piece DATALEN_MSG (m_ts m))) ltac:(lia)).
  rewrite piece_Z in * by (rewrite ?DATALEN_MSG_eq; lia).
  destruct (Z.ltb_spec DATALEN_MSG (m_ts m)); lia.
Qed.

(** ** Reading back *)

Lemma store_segs_ok fuel e k segs len space dest s :
  (Z.to_nat len <= fuel)%nat ->
  len <= DATALEN_SEG * Z.of_nat (length segs) ->
  exists rc text, store_segs fuel e k segs len space dest s = OK (rc, text) s.
Proof.
  revert k segs len dest. induction fuel as [|fuel IH]; intros k segs len dest Hf Hc; cbn.
  - destruct (Z.leb_spec len 0); [now exists 0, dest | lia].
  - destruct (Z.leb_spec len 0); [now exists 0, dest|].
    destruct segs as [|seg segs]; [cbn [length] in Hc; lia|].
    destruct (space && negb (e_copy e k)); [now exists (-1), dest|].
    apply IH; cbn [length] in Hc; rewrite DATALEN_SEG_eq in *; split_if; lia.
Qed.

(** [store_msg] never runs off the chain of a well-formed message. *)
Lemma store_msg_ok e m len space s :
  msg_ok m -> len <= m_ts m ->
  exists rc text, store_msg e m len space s = OK (rc, text) s.
Proof.
  intros Hm Hl. pose proof (msg_ok_cover m Hm) as Hc. destruct Hm as (_ & H0 & _). unfold store_msg.
  destruct (space && negb (e_copy e 1)); [now exists (-1), []|].
  apply store_segs_ok; rewrite DATALEN_MSG_eq, ?DATALEN_SEG_eq in *; split_if; lia.
Qed.

Definition copies_ok (e : env) (space : bool) : Prop :=
  space = true -> forall n, e_copy e n = true.

Lemma copies_ok_test e space n : copies_ok e space -> space && negb (e_copy e n) = false.
Proof. intros H. destruct space; [|reflexivity]. now rewrite H. Qed.

(** Reading a prefix of [n] bytes back from the segments cut from [len]. *)
Lemma store_segs_split fuel fuel' e k src len n space dest s :
  copies_ok e space -> (Z.to_nat len <= fuel)%nat -> (Z.to_nat n <= fuel')%nat -> n <= len ->
  store_segs fuel' e k (seg_split fuel src len) n space dest s
    = OK (0, dest ++ take (Z.to_nat n) src) s.
Proof.
  intros Hc. revert fuel k src len n dest.
  induction fuel' as [|fuel' IH]; intros fuel k src len n dest Hf Hf' Hn; cbn [store_segs].
  - destruct (Z.leb_spec n 0); [|lia]. replace (Z.to_nat n) with 0%nat by lia.
    rewrite take_0, app_nil_r. reflexivity.
  - destruct (Z.leb_spec n 0).
    { replace (Z.to_nat n) with 0%nat by lia. rewrite take_0, app_nil_r. reflexivity. }
    destruct fuel as [|fuel]; [lia|]. cbn [seg_split].
    destruct (Z.leb_spec len 0); [lia|].
    rewrite copies_ok_test by assumption.
    change (Z.to_nat (if DATALEN_SEG <? n then DATALEN_SEG else n)) with (piece DATALEN_SEG n).
    rewrite <- (piece_Z DATALEN_SEG n) by (rewrite ?DATALEN_SEG_eq; lia).
    pose proof (piece_pos DATALEN_SEG n ltac:(reflexivity) ltac:(lia)) as Hp.
    pose proof (piece_pos DATALEN_SEG len ltac:(reflexivity) ltac:(lia)) as Hp'.
    assert (Hle : (piece DATALEN_SEG n <= piece DATALEN_SEG len)%nat)
      by (unfold piece; rewrite DATALEN_SEG_eq; repeat split_if; lia).
    assert (Hcase : (piece DATALEN_SEG n = Z.to_nat n \/
                     piece DATALEN_SEG n = piece DATALEN_SEG len)%nat)
      by (unfold piece; rewrite DATALEN_SEG_eq; repeat split_if; lia).
    rewrite take_take, Nat.min_l by assumption.
    destruct Hcase as [Hcase|Hcase].
    + destruct fuel' as [|fuel']; cbn [store_segs];
        (destruct (Z.leb_spec (n - Z.of_nat (piece DATALEN_SEG n)) 0); [|lia]);
        now rewrite Hcase.
    + rewrite IH by (rewrite ?Hcase in *; lia).
      do 2 f_equal. rewrite Hcase in *. rewrite <- app_assoc. do 2 f_equal.
      rewrite <- (take_drop (piece DATALEN_SEG len) (take (Z.to_nat n) src)).
      rewrite take_take, Nat.min_l by lia. f_equal.
      rewrite skipn_firstn_comm. f_equal. lia.
Qed.

Lemma store_loaded e src len mtype n space s :
  copies_ok e space -> 0 <= n <= len ->
  store_msg e (MSG mtype len (m_text (loaded src len)) (m_next (loaded src len))) n space s
    = OK (0, take (Z.to_nat n) src) s.
Proof.
  intros Hc Hn. unfold store_msg. rewrite copies_ok_test by assumption.
  cbn [m_text m_next loaded].
  change (Z.to_nat (if DATALEN_MSG <? n then DATALEN_MSG else n)) with (piece DATALEN_MSG n).
  rewrite <- (piece_Z DATALEN_MSG n) by (rewrite ?DATALEN_MSG_eq; lia).
  assert (Hle : (piece DATALEN_MSG n <= piece DATALEN_MSG len)%nat)
    by (unfold piece; rewrite DATALEN_MSG_eq; repeat split_if; lia).
  assert (Hcase : (piece DATALEN_MSG n = Z.to_nat n \/
                   piece DATALEN_MSG n = piece DATALEN_MSG len)%nat)
    by (unfold piece; rewrite DATALEN_MSG_eq; repeat split_if; lia).
  assert (Hpn : Z.of_nat (piece DATALEN_MSG n) <= n)
    by (rewrite piece_Z by (rewrite ?DATALEN_MSG_eq; lia); split_if; lia).
  assert (Hpl : Z.of_nat (piece DATALEN_MSG len) <= len)
    by (rewrite piece_Z by (rewrite ?DATALEN_MSG_eq; lia); split_if; lia).
  rewrite take_take, Nat.min_l by assumption.
  destruct Hcase as [Hcase|Hcase].
  - destruct (Z.to_nat n) as [|f] eqn:En; cbn [store_segs];
      (destruct (Z.leb_spec (n - Z.of_nat (piece DATALEN_MSG n)) 0); [|lia]);
      now rewrite Hcase.
  - rewrite store_segs_split by (assumption || lia).
    do 2 f_equal. rewrite Hcase in *.
    rewrite <- (take_drop (piece DATALEN_MSG len) (take (Z.to_nat n) src)).
    rewrite take_take, Nat.min_l by lia. f_equal.
    rewrite skipn_firstn_comm. f_equal. lia.
Qed.

(** Reading a prefix of a message gives that prefix of its text. *)
Lemma store_payload e m n space s :
  msg_ok m -> copies_ok e space -> 0 <= n <= m_ts m ->
  store_msg e m n space s = OK (0, take (Z.to_nat n) (payload m)) s.
Proof.
  intros (_ & H0 & src & ->) Hc Hn. rewrite store_loaded by assumption.
  rewrite payload_loaded, take_take by assumption. cbn [m_ts] in Hn. rewrite Nat.min_l by lia. reflexivity.
Qed.
