(* ===== verification/SysvInv.v ===== *)
(** * The invariant of the message queue module

    [Inv sem ary d s]: the module's memory is consistent, the semaphore and
    the spin lock are held as [sem] and [ary] say, and [d] blocks of memory
    are live beyond those reachable from the module's data (the message a call
    in progress is carrying).  The lemmas give its preservation for each
    primitive change of state the operations are made of. *)

From stdpp Require Import base tactics numbers list gmap.
From S2P Require Import Prelude SysvState IpcUtil IpcFacts SysvMsg MsgText.

(** ** Definitions *)

(** The identifier table and the allocated queues point at each other, no
    queue has two slots, and no two queues have the same (public) key. *)
Record table_wf (es : list (option Z)) (qs : gmap Z msg_queue) (next : Z) : Prop := {
  tw_live : forall i p, es !! i = Some (Some p) -> is_Some (qs !! p);
  tw_inj : forall i j p, es !! i = Some (Some p) -> es !! j = Some (Some p) -> i = j;
  tw_slot : forall p q, qs !! p = Some q -> exists i, es !! i = Some (Some p);
  tw_next : forall p q, qs !! p = Some q -> p < next;
  tw_key : forall p1 p2 q1 q2, qs !! p1 = Some q1 -> qs !! p2 = Some q2 ->
    p_key (q_perm q1) = p_key (q_perm q2) -> p_key (q_perm q1) <> IPC_PRIVATE -> p1 = p2
}.

(** The counters of a queue agree with its messages, modulo 2^32. *)
Record queue_wf (q : msg_queue) : Prop := {
  qw_seq : 0 <= p_seq (q_perm q) <= 65535;
  qw_cbytes : 0 <= q_cbytes q < 2 ^ 32 /\ q_cbytes q ≡₃₂ sumZ m_ts (q_messages q);
  qw_qnum : 0 <= q_qnum q < 2 ^ 32 /\ q_qnum q ≡₃₂ Z.of_nat (length (q_messages q));
  qw_qbytes : 0 <= q_qbytes q < 2 ^ 32;
  qw_msgs : Forall msg_ok (q_messages q)
}.

(** The lists of a queue hold exactly the sleeping senders and receivers
    linked on it. *)
Record link_wf (rs : gmap Z msg_receiver) (ss : gmap Z msg_sender) (p : Z) (q : msg_queue)
    : Prop := {
  lw_snd_nodup : NoDup (q_senders q);
  lw_rcv_nodup : NoDup (q_receivers q);
  lw_snd : forall t, t ∈ q_senders q <-> exists m, ss !! t = Some m /\ s_list m = Some p;
  lw_rcv : forall t, t ∈ q_receivers q <->
    exists r, rs !! t = Some r /\ r_list r = Some p /\ r_msg r = inr (- EAGAIN)
}.

Definition qat (es : list (option Z)) (id : Z) : option Z := mjoin (es !! slot id).

(** The stack of a task: empty when it is not sleeping, otherwise the record
    of its call; one that still waits is linked on the queue its identifier
    selects. *)
Definition task_wf (es : list (option Z)) (rs : gmap Z msg_receiver) (ss : gmap Z msg_sender)
    (sl : option pending) (t : Z) : Prop :=
  match sl with
  | None => ss !! t = None /\ rs !! t = None
  | Some (PSnd msqid msg msgsz _) =>
      0 <= msqid /\ msg_ok msg /\ m_ts msg = msgsz /\ rs !! t = None /\
      exists m, ss !! t = Some m /\ (forall p, s_list m = Some p -> qat es msqid = Some p)
  | Some (PRcv msqid msq msgsz _ _ _ _) =>
      0 <= msqid /\ ss !! t = None /\
      exists r, rs !! t = Some r /\ r_tsk r = t /\
        match r_msg r with
        | inl m => msg_ok m
        | inr err => err = - EAGAIN -> r_list r = Some msq /\ qat es msqid = Some msq
        end
  end.

Definition q_blocks (q : msg_queue) : Z := 1 + sumZ msg_blocks (q_messages q).
Definition rcv_blocks (r : msg_receiver) : Z :=
  match r_msg r with inl m => msg_blocks m | inr _ => 0 end.
Definition pend_blocks (p : pending) : Z :=
  match p with PSnd _ m _ _ => msg_blocks m | PRcv _ _ _ _ _ _ _ => 0 end.
Definition q_text (q : msg_queue) : Z := sumZ m_ts (q_messages q).
Definition q_count (q : msg_queue) : Z := Z.of_nat (length (q_messages q)).

Record Inv (sem ary : bool) (d : Z) (s : sys) : Prop := {
  inv_sem : ids_sem (msg_ids s) = sem;
  inv_ary : ids_ary (msg_ids s) = ary;
  inv_ids : ids_wf (msg_ids s);
  inv_table : table_wf (ids_entries (msg_ids s)) (queues s) (next_ptr s);
  inv_queue : forall p q, queues s !! p = Some q -> queue_wf q;
  inv_link : forall p q, queues s !! p = Some q -> link_wf (receivers s) (senders s) p q;
  inv_task : forall t, task_wf (ids_entries (msg_ids s)) (receivers s) (senders s)
                               (sleeping s !! t) t;
  inv_bytes : msg_bytes s ≡₃₂ msum q_text (queues s);
  inv_hdrs : msg_hdrs s ≡₃₂ msum q_count (queues s);
  inv_heap : heap s = tab_blocks (msg_ids s) + msum q_blocks (queues s)
                      + msum pend_blocks (sleeping s) + msum rcv_blocks (receivers s) + d
}.

#[global] Arguments sumZ : simpl never.

(** ** Locks, wake-ups, memory *)

Definition with_locks (sem ary : bool) (s : sys) : sys := set_ids (ids_with_locks sem ary) s.

Lemma ids_wf_locks sem ary i : ids_wf i -> ids_wf (ids_with_locks sem ary i).
Proof. intros [? ? ? ? ? ?]. constructor; cbn; assumption. Qed.

Lemma Inv_locks sem ary sem' ary' d s :
  Inv sem ary d s -> Inv sem' ary' d (with_locks sem' ary' s).
Proof.
  intros [? ? ? ? ? ? ? ? ? ?]. constructor; cbn; try assumption; try reflexivity.
  now apply ids_wf_locks.
Qed.

Lemma Inv_woken sem ary d t s : Inv sem ary d s -> Inv sem ary d (add_woken t s).
Proof. intros []; constructor; assumption. Qed.

Lemma Inv_heap sem ary d k s : Inv sem ary d s -> Inv sem ary (d + k) (add_heap k s).
Proof. intros []; constructor; cbn; try assumption. lia. Qed.

Lemma Inv_heap' sem ary d d' k s :
  Inv sem ary d s -> d' = d + k -> Inv sem ary d' (add_heap k s).
Proof. intros H ->. now apply Inv_heap. Qed.

Lemma qat_queue_at i id : queue_at i id = qat (ids_entries i) id.
Proof. reflexivity. Qed.

(** A slot that is in use points to an allocated queue. *)
Lemma Inv_queue_at sem ary d s id p :
  Inv sem ary d s -> queue_at (msg_ids s) id = Some p -> is_Some (queues s !! p).
Proof. intros H Hq. apply queue_at_slot in Hq. exact (tw_live _ _ _ (inv_table _ _ _ _ H) _ _ Hq). Qed.

(** ** Updates of one queue *)

(** Replacing a queue by one with the same key and the same lists. *)
Lemma table_wf_update es qs next p q q' :
  table_wf es qs next -> qs !! p = Some q -> p_key (q_perm q') = p_key (q_perm q) ->
  table_wf es (<[p := q']> qs) next.
Proof.
  intros [H1 H2 H3 H4 H5] Hp Hk. constructor.
  - intros i p' Hi. rewrite lookup_insert_is_Some'. right. eauto.
  - assumption.
  - intros p' q0 [[<- <-]|[Hne Hq]]%lookup_insert_Some; eauto.
  - intros p' q0 [[<- <-]|[Hne Hq]]%lookup_insert_Some; eauto.
  - intros p1 p2 q1 q2 [[<- <-]|[Hn1 Hq1]]%lookup_insert_Some
      [[<- <-]|[Hn2 Hq2]]%lookup_insert_Some; rewrite ?Hk; eauto.
Qed.

Lemma link_wf_lists rs ss p q q' :
  link_wf rs ss p q -> q_senders q' = q_senders q -> q_receivers q' = q_receivers q ->
  link_wf rs ss p q'.
Proof. intros [? ? ? ?] Es Er. constructor; rewrite ?Es, ?Er; assumption. Qed.

(** Replacing a queue, the counters following its messages. *)
Lemma Inv_update_queue sem ary d d' s p q q' db dh s' :
  Inv sem ary d s -> queues s !! p = Some q ->
  queue_wf q' -> p_key (q_perm q') = p_key (q_perm q) ->
  q_senders q' = q_senders q -> q_receivers q' = q_receivers q ->
  q_text q' = q_text q + db -> q_count q' = q_count q + dh ->
  d' = d + q_blocks q - q_blocks q' ->
  s' = set_atomics db dh (set_queues <[p := q']> s) \/
  (db = 0 /\ dh = 0 /\ s' = set_queues <[p := q']> s) ->
  Inv sem ary d' s'.
Proof.
  intros H Hp Hq Hk Es Er Ht Hc -> Hs'. pose proof H as [? ? ? Htab Hqs Hl Htask Hb Hh Hheap].
  assert (Hbody : msg_ids s' = msg_ids s /\ next_ptr s' = next_ptr s /\
    queues s' = <[p := q']> (queues s) /\ receivers s' = receivers s /\
    senders s' = senders s /\ sleeping s' = sleeping s /\ heap s' = heap s /\
    msg_bytes s' ≡₃₂ msg_bytes s + db /\ msg_hdrs s' ≡₃₂ msg_hdrs s + dh).
  { destruct Hs' as [->|(-> & -> & ->)]; cbn; split_and!; try reflexivity;
      rewrite ?wrap_s32_eq32, ?Z.add_0_r; reflexivity. }
  clear Hs'. destruct Hbody as (Ei & En & Eq & Erc & Esn & Esl & Eh & Eb & Ehd).
  constructor; rewrite ?Ei, ?En, ?Eq, ?Erc, ?Esn, ?Esl, ?Eh; try assumption.
  - eapply table_wf_update; eassumption.
  - intros p' q0 [[<- <-]|[_ Hq0]]%lookup_insert_Some; eauto.
  - intros p' q0 [[<- <-]|[_ Hq0]]%lookup_insert_Some; [|eauto].
    eapply link_wf_lists; [eapply Hl; eassumption | assumption | assumption].
  - rewrite (msum_insert_old q_text _ _ _ _ Hp), Eb, Hb, Ht.
    match goal with |- ?a ≡₃₂ ?b => replace b with a by lia end. reflexivity.
  - rewrite (msum_insert_old q_count _ _ _ _ Hp), Ehd, Hh, Hc.
    match goal with |- ?a ≡₃₂ ?b => replace b with a by lia end. reflexivity.
  - rewrite (msum_insert_old q_blocks _ _ _ _ Hp), Hheap. lia.
Qed.

(** Changing members of a queue that no other data depends on. *)
Lemma Inv_upd_members sem ary d s p q q' :
  Inv sem ary d s -> queues s !! p = Some q ->
  0 <= p_seq (q_perm q') <= 65535 -> 0 <= q_qbytes q' < 2 ^ 32 ->
  p_key (q_perm q') = p_key (q_perm q) ->
  q_cbytes q' = q_cbytes q -> q_qnum q' = q_qnum q -> q_messages q' = q_messages q ->
  q_senders q' = q_senders q -> q_receivers q' = q_receivers q ->
  Inv sem ary d (set_queues <[p := q']> s).
Proof.
  intros H Hp Hsq Hqb Hk Ec En Em Es Er.
  eapply (Inv_update_queue _ _ _ _ _ _ _ _ 0 0); try eassumption.
  - destruct (inv_queue _ _ _ _ H _ _ Hp) as [? ? ? ? ?].
    constructor; rewrite ?Ec, ?En, ?Em; assumption.
  - unfold q_text. rewrite Em. lia.
  - unfold q_count. rewrite Em. lia.
  - unfold q_blocks. rewrite Em. lia.
  - right. auto.
Qed.

(** ** Messages enter and leave a queue *)

Definition enqueued (m : msg_msg) (msgsz : Z) (q : msg_queue) : msg_queue :=
  MSQ (q_perm q) (q_stime q) (q_rtime q) (q_ctime q) (u32 (q_cbytes q + msgsz))
      (u32 (q_qnum q + 1)) (q_qbytes q) (q_lspid q) (q_lrpid q)
      (q_messages q ++ [m]) (q_receivers q) (q_senders q).

Lemma Inv_enqueue sem ary d s p q m :
  Inv sem ary d s -> queues s !! p = Some q -> msg_ok m ->
  Inv sem ary (d - msg_blocks m)
      (set_atomics (m_ts m) 1 (set_queues <[p := enqueued m (m_ts m) q]> s)).
Proof.
  intros H Hp Hm. pose proof (inv_queue _ _ _ _ H _ _ Hp) as [? [? Hc] [? Hn] ? Hms].
  eapply (Inv_update_queue _ _ _ _ _ p q (enqueued m (m_ts m) q) (m_ts m) 1); try eassumption; try reflexivity.
  - constructor; cbn; try assumption.
    + split; [auto with rtai|].
      now rewrite wrap_u32_eq32, sumZ_snoc, Hc.
    + split; [auto with rtai|].
      rewrite wrap_u32_eq32, length_app, Nat2Z.inj_add, Hn. reflexivity.
    + apply Forall_app. auto.
  - unfold q_text. cbn. apply sumZ_snoc.
  - unfold q_count. cbn. rewrite length_app. cbn. lia.
  - unfold q_blocks. cbn. rewrite sumZ_snoc. lia.
  - now left.
Qed.

Definition dequeued (e : env) (i : nat) (m : msg_msg) (q : msg_queue) : msg_queue :=
  MSQ (q_perm q) (q_stime q) (e_get_seconds e) (q_ctime q)
      (u32 (q_cbytes q - m_ts m)) (u32 (q_qnum q - 1)) (q_qbytes q)
      (q_lspid q) (e_pid e) (delete i (q_messages q)) (q_receivers q) (q_senders q).

Lemma Inv_dequeue sem ary d s p q e i m :
  Inv sem ary d s -> queues s !! p = Some q -> q_messages q !! i = Some m ->
  Inv sem ary (d + msg_blocks m)
      (set_atomics (- m_ts m) (-1) (set_queues <[p := dequeued e i m q]> s)).
Proof.
  intros H Hp Hi. pose proof (inv_queue _ _ _ _ H _ _ Hp) as [? [? Hc] [? Hn] ? Hms].
  pose proof (lookup_lt_Some _ _ _ Hi) as Hlt.
  assert (Hlen : Z.of_nat (length (delete i (q_messages q)))
                 = Z.of_nat (length (q_messages q)) - 1)
    by (rewrite length_delete by eauto; lia).
  eapply (Inv_update_queue _ _ _ _ _ p q (dequeued e i m q) (- m_ts m) (-1)); try eassumption; try reflexivity.
  - constructor; cbn [q_perm q_cbytes q_qnum q_qbytes q_messages dequeued]; try assumption.
    + split; [auto with rtai|].
      rewrite wrap_u32_eq32, (sumZ_delete _ _ _ _ Hi). now rewrite Hc.
    + split; [auto with rtai|].
      rewrite wrap_u32_eq32, Hlen. now rewrite Hn.
    + now apply Forall_delete.
  - unfold q_text. cbn [q_messages dequeued]. rewrite (sumZ_delete _ _ _ _ Hi). lia.
  - unfold q_blocks. cbn [q_messages dequeued]. rewrite (sumZ_delete _ _ _ _ Hi). lia.
  - now left.
Qed.

(** ** Lists of sleepers *)

Lemma unlink_elem t x l : NoDup l -> x ∈ unlink t l <-> x ∈ l /\ x <> t.
Proof.
  induction 1 as [|y l Hy Hl IH]; cbn; [now rewrite elem_of_nil|].
  destruct (Z.eqb_spec t y) as [->|Hne]; rewrite ?elem_of_cons, ?IH.
  - split; [intros Hx; split; [now right | intros ->; contradiction] | tauto].
  - split; [intros [-> | []]; [split; [now left | congruence] | tauto] | tauto].
Qed.

Lemma unlink_NoDup t l : NoDup l -> NoDup (unlink t l).
Proof.
  induction 1 as [|y l Hy Hl IH]; cbn; [constructor|].
  destruct (Z.eqb_spec t y); [assumption|]. constructor; [|assumption].
  rewrite unlink_elem by assumption. tauto.
Qed.

Lemma unlink_fresh t l : t ∉ l -> unlink t l = l.
Proof.
  induction l as [|y l IH]; cbn; [reflexivity|]. rewrite not_elem_of_cons. intros [H1 H2].
  destruct (Z.eqb_spec t y); [contradiction|]. now rewrite IH.
Qed.

Lemma NoDup_snoc {A} (l : list A) x : NoDup l -> x ∉ l -> NoDup (l ++ [x]).
Proof.
  intros Hl Hx. apply NoDup_app. split; [assumption|]. split; [|apply NoDup_singleton].
  intros y Hy. rewrite list_elem_of_singleton. now intros ->.
Qed.

(** A receiver is taken off its queue with a result other than [-EAGAIN]. *)
Definition finished (out : msg_msg + Z) (r : msg_receiver) : msg_receiver :=
  RCV None (r_tsk r) (r_mode r) (r_msgtype r) (r_maxsize r) out.

Definition rcv_out_ok (out : msg_msg + Z) : Prop :=
  match out with inl m => msg_ok m | inr err => err <> - EAGAIN end.
Definition out_blocks (out : msg_msg + Z) : Z :=
  match out with inl m => msg_blocks m | inr _ => 0 end.

Lemma table_wf_lists es qs next p q l1 l2 :
  table_wf es qs next -> qs !! p = Some q ->
  table_wf es (<[p := msq_with_receivers l1 q]> qs) next /\
  table_wf es (<[p := msq_with_senders l2 q]> qs) next.
Proof. intros H Hp. split; eapply table_wf_update; try eassumption; reflexivity. Qed.

Lemma queue_wf_lists q l1 l2 :
  queue_wf q -> queue_wf (msq_with_receivers l1 q) /\ queue_wf (msq_with_senders l2 q).
Proof. intros [? ? ? ? ?]. split; constructor; assumption. Qed.

Lemma Inv_finish sem ary d s p q t r out :
  Inv sem ary d s -> queues s !! p = Some q -> t ∈ q_receivers q ->
  receivers s !! t = Some r -> rcv_out_ok out ->
  Inv sem ary (d - out_blocks out)
      (set_receivers <[t := finished out r]>
        (set_queues <[p := msq_with_receivers (unlink t (q_receivers q)) q]> s)).
Proof.
  intros H Hp Ht Hr Hout. pose proof H as [? ? ? Htab Hqs Hl Htask Hb Hh Hheap].
  pose proof (proj1 (lw_rcv _ _ _ _ (Hl _ _ Hp) t) Ht) as (r' & Hr' & Hrl & Hrm).
  rewrite Hr in Hr'. injection Hr' as <-.
  constructor; cbn; try assumption.
  - now apply (table_wf_lists _ _ _ _ _ _ []).
  - intros p' q0 [[<- <-]|[_ Hq0]]%lookup_insert_Some; [|eauto].
    now apply (queue_wf_lists q _ []), (Hqs p).
  - intros p' q0 [[<- <-]|[Hne Hq0]]%lookup_insert_Some.
    + destruct (Hl _ _ Hp) as [N1 N2 L1 L2]. constructor; cbn; try assumption.
      * now apply unlink_NoDup.
      * intros x. rewrite unlink_elem by assumption. rewrite L2. split.
        -- intros [(r0 & Hx & E1 & E2) Hne]. exists r0.
           now rewrite lookup_insert_ne by congruence.
        -- intros (r0 & Hx & E1 & E2).
           apply lookup_insert_Some in Hx as [[<- <-]|[Hne Hx]]; [discriminate|].
           split; [eauto | congruence].
    + destruct (Hl _ _ Hq0) as [N1 N2 L1 L2]. constructor; cbn; try assumption.
      intros x. rewrite L2. split.
      * intros (r0 & Hx & E1 & E2). exists r0. rewrite lookup_insert_ne; [auto|].
        intros <-. congruence.
      * intros (r0 & Hx & E1 & E2).
        apply lookup_insert_Some in Hx as [[<- <-]|[_ Hx]]; [discriminate | eauto].
  - intros x. specialize (Htask x). unfold task_wf in *.
    destruct (sleeping s !! x) as [[msqid m sz fl|msqid msq sz ty mo fl sp]|].
    + rewrite lookup_insert_ne; [assumption|]. intros <-. destruct Htask as (_&_&_&?&_). congruence.
    + destruct Htask as (? & ? & r0 & Hx & Etsk & Hm). split; [assumption|].
      split; [assumption|]. destruct (decide (t = x)) as [<-|Hne].
      * exists (finished out r). rewrite lookup_insert_eq. split; [reflexivity|].
        assert (r0 = r) as -> by congruence. split; [assumption|]. cbn.
        destruct out; [assumption|]. cbn in Hout. congruence.
      * exists r0. now rewrite lookup_insert_ne.
    + rewrite lookup_insert_ne; [assumption|]. intros <-. destruct Htask. congruence.
  - now rewrite (msum_insert_old q_text _ _ _ _ Hp), Z.sub_add.
  - now rewrite (msum_insert_old q_count _ _ _ _ Hp), Z.sub_add.
  - rewrite (msum_insert_old q_blocks _ _ _ _ Hp), (msum_insert_old rcv_blocks _ _ _ _ Hr), Hheap.
    assert (rcv_blocks r = 0) by (unfold rcv_blocks; now rewrite Hrm).
    assert (rcv_blocks (finished out r) = out_blocks out) by reflexivity.
    assert (q_blocks (msq_with_receivers (unlink t (q_receivers q)) q) = q_blocks q)
      by reflexivity. lia.
Qed.

(** ** Tasks go to sleep *)

(** A task that is not sleeping is on no list. *)
Lemma Inv_awake sem ary d s t :
  Inv sem ary d s -> sleeping s !! t = None ->
  senders s !! t = None /\ receivers s !! t = None /\
  (forall p q, queues s !! p = Some q -> (t ∉ q_senders q) /\ (t ∉ q_receivers q)).
Proof.
  intros H Ht. pose proof (inv_task _ _ _ _ H t) as Hw. rewrite Ht in Hw. destruct Hw as [Hs Hr].
  split_and!; try assumption. intros p q Hp.
  destruct (inv_link _ _ _ _ H _ _ Hp) as [_ _ L1 L2].
  rewrite L1, L2. split; intros (x & Hx & _); congruence.
Qed.

Definition slept_snd (t p : Z) (q : msg_queue) (pd : pending) (s : sys) : sys :=
  set_sleeping <[t := pd]>
    (set_queues <[p := msq_with_senders (q_senders q ++ [t]) q]>
      (set_senders <[t := SND (Some p) t]> s)).

Lemma Inv_sleep_snd sem ary d s t p q msqid msg msgflg :
  Inv sem ary d s -> sleeping s !! t = None -> queues s !! p = Some q ->
  0 <= msqid -> queue_at (msg_ids s) msqid = Some p -> msg_ok msg ->
  Inv sem ary (d - msg_blocks msg)
      (slept_snd t p q (PSnd msqid msg (m_ts msg) msgflg) s).
Proof.
  intros H Ht Hp Hid Hat Hm. pose proof H as [? ? ? Htab Hqs Hl Htask Hb Hh Hheap].
  destruct (Inv_awake _ _ _ _ _ H Ht) as (Hs & Hr & Hlists).
  constructor; cbn; try assumption.
  - now apply (table_wf_lists _ _ _ _ _ [] _).
  - intros p' q0 [[<- <-]|[_ Hq0]]%lookup_insert_Some; [|eauto].
    now apply (queue_wf_lists q [] _), (Hqs p).
  - intros p' q0 [[<- <-]|[Hne Hq0]]%lookup_insert_Some.
    + destruct (Hl _ _ Hp) as [N1 N2 L1 L2]. constructor; cbn; try assumption.
      * apply NoDup_snoc; [assumption | now apply (Hlists p q)].
      * intros x. rewrite elem_of_app, list_elem_of_singleton, L1.
        setoid_rewrite lookup_insert_Some. split.
        -- intros [(m & Hx & E)| ->]; [exists m | exists (SND (Some p) t)]; [|auto].
           split; [right; split; [congruence | assumption] | assumption].
        -- intros (m & [[<- <-]|[_ Hx]] & E); [now right | left; eauto].
    + destruct (Hl _ _ Hq0) as [N1 N2 L1 L2]. constructor; cbn; try assumption.
      intros x. rewrite L1. setoid_rewrite lookup_insert_Some. split.
      * intros (m & Hx & E). exists m. split; [right; split; [congruence|assumption]|assumption].
      * intros (m & [[<- <-]|[_ Hx]] & E); [cbn in E; congruence | eauto].
  - intros x. destruct (decide (t = x)) as [<-|Hne].
    + rewrite lookup_insert_eq. cbn. split_and!; try (assumption || reflexivity).
      exists (SND (Some p) t). rewrite lookup_insert_eq. split; [reflexivity|].
      cbn. intros p' [= <-]. exact Hat.
    + rewrite lookup_insert_ne by assumption. specialize (Htask x).
      unfold task_wf in *. now rewrite lookup_insert_ne by assumption.
  - now rewrite (msum_insert_old q_text _ _ _ _ Hp), Z.sub_add.
  - now rewrite (msum_insert_old q_count _ _ _ _ Hp), Z.sub_add.
  - rewrite (msum_insert_old q_blocks _ _ _ _ Hp), msum_insert_new by assumption.
    assert (q_blocks (msq_with_senders (q_senders q ++ [t]) q) = q_blocks q) by reflexivity.
    cbn. lia.
Qed.

Definition slept_rcv (t p : Z) (q : msg_queue) (r : msg_receiver) (pd : pending) (s : sys) : sys :=
  set_sleeping <[t := pd]>
    (set_receivers <[t := r]>
      (set_queues <[p := msq_with_receivers (q_receivers q ++ [t]) q]> s)).

Lemma Inv_sleep_rcv sem ary d s t p q msqid msgsz msgtyp mode msgflg space maxsize :
  Inv sem ary d s -> sleeping s !! t = None -> queues s !! p = Some q ->
  0 <= msqid -> queue_at (msg_ids s) msqid = Some p ->
  Inv sem ary d
      (slept_rcv t p q (RCV (Some p) t mode msgtyp maxsize (inr (- EAGAIN)))
         (PRcv msqid p msgsz msgtyp mode msgflg space) s).
Proof.
  intros H Ht Hp Hid Hat. pose proof H as [? ? ? Htab Hqs Hl Htask Hb Hh Hheap].
  destruct (Inv_awake _ _ _ _ _ H Ht) as (Hs & Hr & Hlists).
  set (r := RCV (Some p) t mode msgtyp maxsize (inr (- EAGAIN))).
  constructor; cbn; try assumption.
  - now apply (table_wf_lists _ _ _ _ _ _ []).
  - intros p' q0 [[<- <-]|[_ Hq0]]%lookup_insert_Some; [|eauto].
    now apply (queue_wf_lists q _ []), (Hqs p).
  - intros p' q0 [[<- <-]|[Hne Hq0]]%lookup_insert_Some.
    + destruct (Hl _ _ Hp) as [N1 N2 L1 L2]. constructor; cbn; try assumption.
      * apply NoDup_snoc; [assumption | now apply (Hlists p q)].
      * intros x. rewrite elem_of_app, list_elem_of_singleton, L2.
        setoid_rewrite lookup_insert_Some. split.
        -- intros [(m & Hx & E)| ->]; [exists m | exists r; auto].
           split; [right; split; [congruence | assumption] | assumption].
        -- intros (m & [[<- <-]|[_ Hx]] & E); [now right | left; eauto].
    + destruct (Hl _ _ Hq0) as [N1 N2 L1 L2]. constructor; cbn; try assumption.
      intros x. rewrite L2. setoid_rewrite lookup_insert_Some. split.
      * intros (m & Hx & E). exists m. split; [right; split; [congruence|assumption]|assumption].
      * intros (m & [[<- <-]|[_ Hx]] & E); [cbn in E; destruct E; congruence | eauto].
  - intros x. destruct (decide (t = x)) as [<-|Hne].
    + rewrite lookup_insert_eq. cbn. split_and!; try (assumption || reflexivity).
      exists r. rewrite lookup_insert_eq. split_and!; try reflexivity.
      cbn. intros _. split; [reflexivity | exact Hat].
    + rewrite lookup_insert_ne by assumption. specialize (Htask x).
      unfold task_wf in *. now rewrite lookup_insert_ne by assumption.
  - now rewrite (msum_insert_old q_text _ _ _ _ Hp), Z.sub_add.
  - now rewrite (msum_insert_old q_count _ _ _ _ Hp), Z.sub_add.
  - rewrite (msum_insert_old q_blocks _ _ _ _ Hp), !msum_insert_new by assumption.
    assert (q_blocks (msq_with_receivers (q_receivers q ++ [t]) q) = q_blocks q) by reflexivity.
    assert (rcv_blocks r = 0) by reflexivity. cbn [pend_blocks]. lia.
Qed.

(** ** Tasks return from their sleep *)

Definition unlink_q (t : Z) (q : msg_queue) : msg_queue :=
  msq_with_senders (unlink t (q_senders q)) (msq_with_receivers (unlink t (q_receivers q)) q).

Lemma unlink_q_fresh t q : t ∉ q_senders q -> t ∉ q_receivers q -> unlink_q t q = q.
Proof.
  intros H1 H2. unfold unlink_q. rewrite !unlink_fresh by assumption. now destruct q.
Qed.

(** Everything the module knows of a sleeping task is gone. *)
Definition forget (t : Z) (s : sys) : sys :=
  set_sleeping (delete t)
    (set_receivers (delete t)
      (set_senders (delete t)
        (set_queues (fmap (unlink_q t)) s))).

Definition task_rcv_blocks (s : sys) (t : Z) : Z :=
  match receivers s !! t with Some r => rcv_blocks r | None => 0 end.

Lemma Inv_forget sem ary d s t pd :
  Inv sem ary d s -> sleeping s !! t = Some pd ->
  Inv sem ary (d + pend_blocks pd + task_rcv_blocks s t) (forget t s).
Proof.
  intros H Ht. pose proof H as [? ? ? Htab Hqs Hl Htask Hb Hh Hheap].
  assert (Hq' : forall p q', (unlink_q t <$> queues s) !! p = Some q' ->
            exists q, queues s !! p = Some q /\ q' = unlink_q t q).
  { intros p q'. rewrite lookup_fmap. destruct (queues s !! p); cbn; [|discriminate].
    intros [= <-]. eauto. }
  constructor; cbn; try assumption.
  - destruct Htab as [T1 T2 T3 T4 T5]. constructor; try assumption.
    + intros i p Hi. rewrite lookup_fmap. destruct (T1 _ _ Hi) as [q ->]. cbn. eauto.
    + intros p q' (q & Hp & ->)%Hq'. eauto.
    + intros p q' (q & Hp & ->)%Hq'. eauto.
    + intros p1 p2 q1 q2 (q1' & Hp1 & ->)%Hq' (q2' & Hp2 & ->)%Hq'. cbn. eauto.
  - intros p q' (q & Hp & ->)%Hq'. destruct (Hqs _ _ Hp). constructor; assumption.
  - intros p q' (q & Hp & ->)%Hq'. destruct (Hl _ _ Hp) as [N1 N2 L1 L2].
    constructor; cbn; try now apply unlink_NoDup.
    + intros x. rewrite unlink_elem, L1 by assumption. setoid_rewrite lookup_delete_Some.
      split; [intros [(m & ? & ?) ?] | intros (m & [? ?] & ?)]; [exists m | split; [exists m|]]; auto.
    + intros x. rewrite unlink_elem, L2 by assumption. setoid_rewrite lookup_delete_Some.
      split; [intros [(m & ? & ?) ?] | intros (m & [? ?] & ?)]; [exists m | split; [exists m|]]; auto.
  - intros x. destruct (decide (t = x)) as [<-|Hne].
    + rewrite lookup_delete_eq. cbn. now rewrite !lookup_delete_eq.
    + rewrite lookup_delete_ne by assumption. specialize (Htask x).
      unfold task_wf in *. now rewrite !lookup_delete_ne by assumption.
  - now rewrite msum_fmap.
  - now rewrite msum_fmap.
  - rewrite msum_fmap by reflexivity. rewrite (msum_delete pend_blocks _ _ _ Ht).
    unfold task_rcv_blocks. destruct (receivers s !! t) as [r|] eqn:Er.
    + rewrite (msum_delete rcv_blocks _ _ _ Er). lia.
    + rewrite (delete_id (receivers s)) by assumption. lia.
Qed.

(** Removing a task that is linked on at most one queue touches only it. *)
Lemma fmap_unlink_q (qs : gmap Z msg_queue) t p q :
  qs !! p = Some q ->
  (forall p' q', p' <> p -> qs !! p' = Some q' -> (t ∉ q_senders q') /\ (t ∉ q_receivers q')) ->
  unlink_q t <$> qs = <[p := unlink_q t q]> qs.
Proof.
  intros Hp Ho. apply map_eq. intros p'. rewrite lookup_fmap.
  destruct (decide (p = p')) as [<-|Hne].
  - now rewrite lookup_insert_eq, Hp.
  - rewrite lookup_insert_ne by assumption. destruct (qs !! p') as [q'|] eqn:E; [|reflexivity].
    cbn. f_equal. destruct (Ho p' q') as [? ?]; [congruence | assumption |].
    now apply unlink_q_fresh.
Qed.

Lemma fmap_unlink_q_none (qs : gmap Z msg_queue) t :
  (forall p q, qs !! p = Some q -> (t ∉ q_senders q) /\ (t ∉ q_receivers q)) ->
  unlink_q t <$> qs = qs.
Proof.
  intros Ho. apply map_eq. intros p. rewrite lookup_fmap.
  destruct (qs !! p) as [q|] eqn:E; [|reflexivity]. cbn. f_equal.
  destruct (Ho p q E). now apply unlink_q_fresh.
Qed.

(** ** Queues are created and removed *)

(** The table may grow, and an address may stay unused. *)
Lemma Inv_grow sem d s i1 dh :
  Inv sem false d s -> ids_wf i1 ->
  (exists k, ids_entries i1 = ids_entries (msg_ids s) ++ replicate k None) ->
  ids_sem i1 = sem -> ids_ary i1 = false ->
  tab_blocks i1 = tab_blocks (msg_ids s) + dh ->
  Inv sem false d
    (set_ids (fun _ => i1) (set_next_ptr (next_ptr s + 1) (add_heap dh s))).
Proof.
  intros H Hwf1 [k Hk] Hsem Hary1 Hblk.
  pose proof H as [? ? Hwf Htab Hqs Hl Htask Hb Hh Hheap].
  assert (Hes : forall i p, ids_entries i1 !! i = Some (Some p) <->
                            ids_entries (msg_ids s) !! i = Some (Some p)).
  { intros i p. rewrite Hk. split; [|apply lookup_app_l_Some].
    intros [Hi|[_ Hi]]%lookup_app_Some; [assumption|].
    apply lookup_replicate in Hi as [Hi _]. discriminate. }
  constructor; cbn; try assumption.
  - destruct Htab as [T1 T2 T3 T4 T5]. constructor; try assumption.
    + intros i p Hi%Hes. eauto.
    + intros i j p Hi%Hes Hj%Hes. eauto.
    + intros p q Hq. destruct (T3 _ _ Hq) as [i Hi]. exists i. now apply Hes.
    + intros p q Hq. specialize (T4 _ _ Hq). lia.
  - intros t. specialize (Htask t). unfold task_wf in *.
    assert (Hq : forall n p, qat (ids_entries (msg_ids s)) n = Some p ->
                             qat (ids_entries i1) n = Some p).
    { intros n p Hn. apply (queue_at_slot (msg_ids s)), Hes in Hn. unfold qat. now rewrite Hn. }
    destruct (sleeping s !! t) as [[msqid m0 sz fl|msqid msq sz ty mo fl sp]|].
    + destruct Htask as (? & ? & ? & ? & m & ? & Hm). split_and!; try assumption. eauto.
    + destruct Htask as (? & ? & r & ? & ? & Hm). split_and!; try assumption.
      exists r. split_and!; try assumption. destruct (r_msg r); [assumption|].
      intros E. destruct (Hm E). auto.
    + assumption.
  - lia.
Qed.

(** The queue [newque] leaves in memory. *)
Definition fresh_queue (e : env) (key msgflg seq : Z) : msg_queue :=
  MSQ (KIP key (e_euid e) (e_egid e) (e_euid e) (e_egid e) (Z.land msgflg S_IRWXUGO) seq)
      0 0 (e_get_seconds e) 0 0 msg_ctlmnb 0 0 [] [] [].

Lemma fresh_queue_wf e key msgflg seq : 0 <= seq <= 65535 -> queue_wf (fresh_queue e key msgflg seq).
Proof. intros. constructor; cbn; try (lia || reflexivity || now split). constructor. Qed.

(** No task refers to an address that was not allocated yet. *)
Lemma Inv_unallocated sem ary d s t :
  Inv sem ary d s ->
  (forall m, senders s !! t = Some m -> s_list m = Some (next_ptr s) -> False) /\
  (forall r, receivers s !! t = Some r -> r_list r = Some (next_ptr s) ->
             r_msg r = inr (- EAGAIN) -> False).
Proof.
  intros [_ _ _ Htab _ _ Htask _ _ _]. specialize (Htask t). unfold task_wf in Htask.
  assert (Hq : forall id, qat (ids_entries (msg_ids s)) id = Some (next_ptr s) -> False).
  { intros id Hid. apply (queue_at_slot (msg_ids s)) in Hid.
    destruct (tw_live _ _ _ Htab _ _ Hid) as [q Hq].
    pose proof (tw_next _ _ _ Htab _ _ Hq). lia. }
  destruct (sleeping s !! t) as [[msqid m0 sz fl|msqid msq sz ty mo fl sp]|].
  - destruct Htask as (_ & _ & _ & Er & m & Em & Hm). split; intros x Hx Hl.
    + rewrite Em in Hx. injection Hx as <-. eauto.
    + congruence.
  - destruct Htask as (_ & Es & r & Er & _ & Hm). split; intros x Hx Hl; [congruence|].
    rewrite Er in Hx. injection Hx as <-. intros E. rewrite E in Hm.
    destruct (Hm eq_refl) as [E1 E2]. apply (Hq msqid). congruence.
  - destruct Htask as [-> ->]. split; congruence.
Qed.

Lemma Inv_next_fresh sem ary d s : Inv sem ary d s -> queues s !! next_ptr s = None.
Proof.
  intros H. destruct (queues s !! next_ptr s) as [q|] eqn:E; [|reflexivity].
  pose proof (tw_next _ _ _ (inv_table _ _ _ _ H) _ _ E). lia.
Qed.

(** A new queue in a free slot. *)
Lemma table_wf_new es es' qs next k fq :
  table_wf es qs next -> qs !! next = None -> es' !! k = Some (Some next) ->
  (forall i p, es' !! i = Some (Some p) -> (i = k /\ p = next) \/ es !! i = Some (Some p)) ->
  (forall i p, es !! i = Some (Some p) -> es' !! i = Some (Some p)) ->
  (forall p q, qs !! p = Some q -> p_key (q_perm q) = p_key (q_perm fq) -> p_key (q_perm fq) = IPC_PRIVATE) ->
  table_wf es' (<[next := fq]> qs) (next + 1).
Proof.
  intros [T1 T2 T3 T4 T5] Hnew Hk Hes Hold Hkey. constructor.
  - intros i p [[_ ->]|Hi]%Hes; [rewrite lookup_insert_eq; eauto|].
    rewrite lookup_insert_is_Some'. right. eauto.
  - intros i j p Hi Hj. apply Hes in Hi as [[-> ->]|Hi]; apply Hes in Hj as [[-> E]|Hj];
      try reflexivity.
    + destruct (T1 _ _ Hj) as [q Hq]. congruence.
    + subst p. destruct (T1 _ _ Hi) as [q Hq]. congruence.
    + eauto.
  - intros p q [[<- <-]|[_ Hq]]%lookup_insert_Some; [eauto|]. destruct (T3 _ _ Hq) as [i Hi]. eauto.
  - intros p q [[<- <-]|[_ Hq]]%lookup_insert_Some; [lia|]. specialize (T4 _ _ Hq). lia.
  - intros p1 p2 q1 q2 [[<- <-]|[_ Hq1]]%lookup_insert_Some
      [[<- <-]|[_ Hq2]]%lookup_insert_Some; try (now auto); intros E Hp.
    + exfalso. apply Hp. exact (Hkey _ _ Hq2 (eq_sym E)).
    + exfalso. apply Hp. rewrite E. exact (Hkey _ _ Hq1 E).
    + eauto.
Qed.

(** A sleeping task does not mind more entries in the table. *)
Lemma task_wf_entries es es' rs ss sl t :
  (forall n p, es !! n = Some (Some p) -> es' !! n = Some (Some p)) ->
  task_wf es rs ss sl t -> task_wf es' rs ss sl t.
Proof.
  intros Hold H. unfold task_wf, qat in *.
  assert (Hq : forall n p, mjoin (es !! n) = Some p -> mjoin (es' !! n) = Some p).
  { intros n p Hn. destruct (es !! n) as [[p'|]|] eqn:E; try discriminate.
    cbn in Hn. injection Hn as ->. now rewrite (Hold _ _ E). }
  destruct sl as [[msqid m0 sz fl|msqid msq sz ty mo fl sp]|]; [| |assumption].
  - destruct H as (? & ? & ? & ? & m & ? & Hm). split_and!; try assumption. exists m. eauto.
  - destruct H as (? & ? & r & ? & ? & Hm). split_and!; try assumption.
    exists r. split_and!; try assumption. destruct (r_msg r); [assumption|].
    intros E. destruct (Hm E). auto.
Qed.

(** The memory after slot [id] of table [i1] (the module's, perhaps grown) was
    given to a new queue. *)
Lemma Inv_new_queue sem d s e key msgflg i1 dh id :
  Inv sem false d s -> ids_wf i1 ->
  (exists k, ids_entries i1 = ids_entries (msg_ids s) ++ replicate k None) ->
  ids_sem i1 = sem -> ids_ary i1 = false ->
  tab_blocks i1 = tab_blocks (msg_ids s) + dh ->
  0 <= id -> ids_entries i1 !! Z.to_nat id = Some None ->
  (forall p q, queues s !! p = Some q -> p_key (q_perm q) = key -> key = IPC_PRIVATE) ->
  Inv sem true d
    (set_ids (fun _ => addid_ids id (next_ptr s) i1)
      (set_queues <[next_ptr s := fresh_queue e key msgflg (ids_seq i1)]>
        (set_next_ptr (next_ptr s + 1) (add_heap (1 + dh) s)))).
Proof.
  intros H Hwf1 [k Hk] Hsem Hary1 Hblk Hid Hfree Hkey.
  pose proof H as [? ? Hwf Htab Hqs Hl Htask Hb Hh Hheap].
  pose proof (Inv_next_fresh _ _ _ _ H) as Hnew.
  assert (Hes : forall i p, <[Z.to_nat id := Some (next_ptr s)]> (ids_entries i1) !! i = Some (Some p) ->
     (i = Z.to_nat id /\ p = next_ptr s) \/ ids_entries (msg_ids s) !! i = Some (Some p)).
  { intros i p Hi. apply list_lookup_insert_Some in Hi as [(<- & [= <-] & _)|[Hne Hi]]; [auto|].
    right. rewrite Hk in Hi. apply lookup_app_Some in Hi as [Hi|[_ Hi]]; [assumption|].
    apply lookup_replicate in Hi as [Hi _]. discriminate. }
  assert (Hold : forall i p, ids_entries (msg_ids s) !! i = Some (Some p) ->
     <[Z.to_nat id := Some (next_ptr s)]> (ids_entries i1) !! i = Some (Some p)).
  { intros i p Hi. rewrite list_lookup_insert_ne, Hk.
    - now apply lookup_app_l_Some.
    - intros <-. rewrite Hk in Hfree. apply (lookup_app_l_Some _ (replicate k None)) in Hi. congruence. }
  pose proof (wf_seq _ Hwf1) as Hseq.
  constructor; cbn; try assumption; try reflexivity.
  - now apply addid_ids_wf.
  - apply (table_wf_new (ids_entries (msg_ids s)) _ _ _ (Z.to_nat id)); try assumption.
    apply list_lookup_insert_eq. exact (lookup_lt_Some _ _ _ Hfree).
  - intros p q [[<- <-]|[_ Hq]]%lookup_insert_Some; [now apply fresh_queue_wf | eauto].
  - intros p q [[<- <-]|[_ Hq]]%lookup_insert_Some; [|eauto].
    constructor; cbn; try constructor; intros Hin; try (now apply elem_of_nil in Hin);
      destruct (Inv_unallocated _ _ _ _ t H) as [Hu1 Hu2].
    + destruct Hin as (m & E1 & E2). destruct (Hu1 _ E1 E2).
    + destruct Hin as (r & E1 & E2 & E3). destruct (Hu2 _ E1 E2 E3).
  - intros t. exact (task_wf_entries _ _ _ _ _ _ Hold (Htask t)).
  - rewrite msum_insert_new by assumption. unfold q_text at 1. cbn. assumption.
  - rewrite msum_insert_new by assumption. unfold q_count at 1. cbn. assumption.
  - rewrite msum_insert_new by assumption. unfold q_blocks at 1. cbn.
    change (tab_blocks (addid_ids id (next_ptr s) i1)) with (tab_blocks i1).
    rewrite Hblk. change (sumZ msg_blocks []) with 0. lia.
Qed.

(** [f] applied to the entries of the tasks in [l]. *)
Definition mark {A} (f : A -> A) (l : list Z) (m : gmap Z A) : gmap Z A :=
  foldl (fun m t => alter f t m) m l.

Lemma mark_lookup {A} (f : A -> A) l (m : gmap Z A) t :
  NoDup l -> mark f l m !! t = if decide (t ∈ l) then f <$> m !! t else m !! t.
Proof.
  intros Hl. revert m. induction Hl as [|x l Hx Hl IH]; intros m.
  - cbn. destruct (decide (t ∈ [])) as [H|]; [now apply elem_of_nil in H | reflexivity].
  - unfold mark in *. cbn [foldl]. rewrite IH.
    destruct (decide (t = x)) as [->|Hne].
    + rewrite decide_False by assumption. rewrite decide_True by constructor.
      apply lookup_alter_eq.
    + rewrite lookup_alter_ne by congruence.
      destruct (decide (t ∈ l)), (decide (t ∈ x :: l)) as [H|H]; try reflexivity.
      * exfalso. apply H. now constructor.
      * apply elem_of_cons in H as [|]; contradiction.
Qed.

Lemma msum_ext {A} (f : A -> Z) (m1 m2 : gmap Z A) :
  (forall t, f <$> m1 !! t = f <$> m2 !! t) -> msum f m1 = msum f m2.
Proof.
  intros H.
  assert (Hv : forall m : gmap Z A, msum f m = msum (fun x => x) (f <$> m)).
  { intros m. induction m as [|k x m Hk IH] using map_ind; [now rewrite fmap_empty|].
    rewrite fmap_insert, !msum_insert_new; [now rewrite IH | | assumption].
    now rewrite lookup_fmap, Hk. }
  rewrite !Hv. f_equal. apply map_eq. intros t. rewrite !lookup_fmap. apply H.
Qed.

Definition killed (m : msg_sender) : msg_sender := SND None (s_tsk m).

(** The memory after [freeque]: the slot is free, the waiting receivers will
    find [-EIDRM], the waiting senders are off the list, the queue is gone. *)
Definition removed (i' : ipc_ids) (b h p : Z) (q : msg_queue) (s : sys) : sys :=
  SYS i' b h
      (delete p (queues s)) (next_ptr s)
      (mark (rcv_with_msg (inr (- EIDRM))) (q_receivers q) (receivers s))
      (mark killed (q_senders q) (senders s)) (sleeping s)
      (heap s - q_blocks q) (rev (q_senders q) ++ rev (q_receivers q) ++ woken s).

Lemma table_wf_remove es qs next p n :
  table_wf es qs next -> es !! n = Some (Some p) ->
  table_wf (<[n := None]> es) (delete p qs) next.
Proof.
  intros [T1 T2 T3 T4 T5] Hn.
  assert (Hes : forall i p', <[n := None]> es !! i = Some (Some p') ->
            es !! i = Some (Some p') /\ i <> n).
  { intros i p' Hi. apply list_lookup_insert_Some in Hi as [(_ & E & _)|[Hne Hi]]; [discriminate|].
    auto. }
  constructor.
  - intros i p' [Hi Hne]%Hes. rewrite lookup_delete_ne; [eauto|].
    intros <-. apply Hne. eauto.
  - intros i j p' [Hi _]%Hes [Hj _]%Hes. eauto.
  - intros p' q [Hne Hq]%lookup_delete_Some. destruct (T3 _ _ Hq) as [i Hi]. exists i.
    rewrite list_lookup_insert_ne; [assumption|]. intros <-. congruence.
  - intros p' q [_ Hq]%lookup_delete_Some. eauto.
  - intros p1 p2 q1 q2 [_ Hq1]%lookup_delete_Some [_ Hq2]%lookup_delete_Some. eauto.
Qed.

(** Telling the sleepers of a removed queue. *)
Lemma task_wf_marked es es' rs ss p q sl t :
  link_wf rs ss p q ->
  (forall id' p', p' <> p -> qat es id' = Some p' -> qat es' id' = Some p') ->
  task_wf es rs ss sl t ->
  task_wf es' (mark (rcv_with_msg (inr (- EIDRM))) (q_receivers q) rs) (mark killed (q_senders q) ss) sl t.
Proof.
  intros [N1 N2 L1 L2] Hqat H. unfold task_wf in *. rewrite !mark_lookup by assumption.
  destruct sl as [[msqid m0 sz fl|msqid msq sz ty mo fl sp]|].
  - destruct H as (? & ? & ? & Er & m & Em & Hm). rewrite Er, Em. cbn.
    split_and!; try assumption; [now case_decide|].
    case_decide as Hd; cbn.
    + exists (killed m). split; [reflexivity | cbn; discriminate].
    + exists m. split; [reflexivity|]. intros p' Hp'. apply Hqat; [|auto].
      intros ->. apply Hd, L1. eauto.
  - destruct H as (? & Es & r & Er & ? & Hm). rewrite Er, Es. cbn.
    split_and!; try assumption; [now case_decide|].
    case_decide as Hd; cbn.
    + eexists. split; [reflexivity|]. split; [assumption|]. cbn. discriminate.
    + exists r. split_and!; try (assumption || reflexivity).
      destruct (r_msg r) as [|err] eqn:Erm; [assumption|].
      intros ->. destruct (Hm eq_refl) as [Hrl Hq']. split; [assumption|].
      apply Hqat; [|assumption]. intros ->. apply Hd, L2. eauto.
  - destruct H as [-> ->]. cbn. now do 2 case_decide.
Qed.

Lemma Inv_remove sem ary d s id p q i' b h :
  Inv sem ary d s -> queues s !! p = Some q -> queue_at (msg_ids s) id = Some p ->
  ids_wf i' -> ids_entries i' = <[slot id := None]> (ids_entries (msg_ids s)) ->
  ids_size i' = ids_size (msg_ids s) ->
  b ≡₃₂ msg_bytes s - q_cbytes q -> h ≡₃₂ msg_hdrs s - q_count q ->
  Inv (ids_sem i') (ids_ary i') d (removed i' b h p q s).
Proof.
  intros H Hp Hat Hwf' He' Hsz Eb Eh. apply queue_at_slot in Hat.
  pose proof H as [? ? Hwf Htab Hqs Hl Htask Hb Hh Hheap].
  destruct (Hl _ _ Hp) as [N1 N2 L1 L2].
  assert (Hrs : forall t r, mark (rcv_with_msg (inr (- EIDRM))) (q_receivers q) (receivers s) !! t = Some r
     -> r_msg r = inr (- EAGAIN) -> (t ∉ q_receivers q) /\ receivers s !! t = Some r).
  { intros t r. rewrite mark_lookup by assumption. case_decide; [|auto].
    destruct (receivers s !! t); cbn; [|discriminate]. intros [= <-]. discriminate. }
  assert (Hss : forall t m, mark killed (q_senders q) (senders s) !! t = Some m
     -> s_list m <> None -> (t ∉ q_senders q) /\ senders s !! t = Some m).
  { intros t m. rewrite mark_lookup by assumption. case_decide; [|auto].
    destruct (senders s !! t); cbn; [|discriminate]. intros [= <-]. now cbn. }
  constructor; cbn; try assumption; try reflexivity.
  - rewrite He'. now apply table_wf_remove.
  - intros p' q' [_ Hq']%lookup_delete_Some. eauto.
  - intros p' q' [Hne Hq']%lookup_delete_Some.
    destruct (Hl _ _ Hq') as [N1' N2' L1' L2']. constructor; try assumption.
    + intros t. rewrite L1'. split; intros (m & E1 & E2).
      * exists m. split; [|assumption]. rewrite mark_lookup by assumption.
        case_decide as Hd; [|assumption]. apply L1 in Hd as (m' & ? & ?). congruence.
      * destruct (Hss _ _ E1) as [_ ?]; [congruence | eauto].
    + intros t. rewrite L2'. split; intros (r & E1 & E2 & E3).
      * exists r. split; [|auto]. rewrite mark_lookup by assumption.
        case_decide as Hd; [|assumption]. apply L2 in Hd as (r' & ? & ? & ?). congruence.
      * destruct (Hrs _ _ E1 E3). eauto.
  - intros t. apply (task_wf_marked (ids_entries (msg_ids s)) _ _ _ p q); [exact (Hl _ _ Hp) | | exact (Htask t)].
    intros id' p' Hne Hq'. rewrite He'. unfold qat. apply (queue_at_slot (msg_ids s)) in Hq'.
    rewrite list_lookup_insert_ne; [now rewrite Hq'|]. intros E. rewrite E in Hat. congruence.
  - rewrite Eb, (msum_delete q_text _ _ _ Hp), Hb.
    destruct (Hqs _ _ Hp) as [_ [_ Hc] _ _ _]. rewrite Hc. reflexivity.
  - rewrite Eh, (msum_delete q_count _ _ _ Hp), Hh. reflexivity.
  - rewrite (msum_delete q_blocks _ _ _ Hp), Hheap.
    rewrite (msum_ext rcv_blocks (mark _ _ _) (receivers s)).
    + unfold tab_blocks. rewrite Hsz. lia.
    + intros t. rewrite mark_lookup by assumption. case_decide as Hd; [|reflexivity].
      apply L2 in Hd as (r & -> & _ & Hm). cbn. unfold rcv_blocks. now rewrite Hm.
Qed.
