(* ===== verification/SysvOps.v ===== *)
(** * Each operation of msg.c preserves the invariant and runs without fault

    For every operation: from a consistent memory it runs to its return (or to
    [schedule()]) without [BUG()], dangling pointer, index out of range or
    misuse of a lock, gives back the locks it took, and leaves a consistent
    memory in which every block of memory is accounted for. *)

From stdpp Require Import base tactics numbers list gmap.
From S2P Require Import Prelude SysvState IpcUtil IpcFacts SysvMsg MsgText SysvInv.

(** ** Loops over sleepers *)

Definition set_woken (w : list Z) (s : sys) : sys :=
  SYS (msg_ids s) (msg_bytes s) (msg_hdrs s) (queues s) (next_ptr s)
      (receivers s) (senders s) (sleeping s) (heap s) w.

Lemma Inv_set_woken sem ary d w s : Inv sem ary d s -> Inv sem ary d (set_woken w s).
Proof. intros []; constructor; assumption. Qed.

Lemma ss_wakeup_eq l s : ss_wakeup l false s = OK tt (set_woken (rev l ++ woken s) s).
Proof.
  revert s. induction l as [|t l IH]; intros s; cbn.
  - now destruct s.
  - unfold bind, ret, wake_up_process, modify. rewrite IH. unfold set_woken; cbn.
    now rewrite <- app_assoc.
Qed.

Lemma is_Some_alter {A} (f : A -> A) (m : gmap Z A) t x :
  is_Some (m !! x) -> is_Some (alter f t m !! x).
Proof.
  intros [y Hy]. destruct (decide (t = x)) as [<-|Hne].
  - rewrite lookup_alter_eq, Hy. cbn. eauto.
  - rewrite lookup_alter_ne by assumption. eauto.
Qed.

Lemma insert_alter {A} (f : A -> A) (m : gmap Z A) t y :
  m !! t = Some y -> <[t := f y]> m = alter f t m.
Proof.
  intros Hy. apply map_eq. intros x. destruct (decide (t = x)) as [<-|Hne].
  - now rewrite lookup_insert_eq, lookup_alter_eq, Hy.
  - now rewrite lookup_insert_ne, lookup_alter_ne.
Qed.

Lemma ss_wakeup_kill_eq l s :
  (forall t, t ∈ l -> is_Some (senders s !! t)) ->
  ss_wakeup l true s =
    OK tt (set_woken (rev l ++ woken s) (set_senders (mark killed l) s)).
Proof.
  revert s. induction l as [|t l IH]; intros s Hl; cbn.
  - now destruct s.
  - unfold bind, upd_s. destruct (Hl t ltac:(constructor)) as [m Hm]. rewrite Hm.
    unfold wake_up_process, modify. rewrite IH.
    + unfold set_woken, set_senders, mark; cbn. rewrite <- app_assoc.
      change (SND None (s_tsk m)) with (killed m). now rewrite insert_alter.
    + cbn. change (SND None (s_tsk m)) with (killed m). rewrite insert_alter by assumption.
      intros x Hx. apply is_Some_alter, Hl. now constructor.
Qed.

Lemma expunge_list_eq l res s :
  (forall t, t ∈ l -> is_Some (receivers s !! t)) ->
  expunge_list l res s =
    OK tt (set_woken (rev l ++ woken s)
            (set_receivers (mark (rcv_with_msg (inr res)) l) s)).
Proof.
  revert s. induction l as [|t l IH]; intros s Hl; cbn.
  - now destruct s.
  - unfold bind, upd_r. destruct (Hl t ltac:(constructor)) as [r Hr]. rewrite Hr.
    unfold wake_up_process, modify. rewrite IH.
    + unfold set_woken, set_receivers, mark; cbn. rewrite <- app_assoc.
      now rewrite insert_alter.
    + cbn. rewrite insert_alter by assumption.
      intros x Hx. apply is_Some_alter, Hl. now constructor.
Qed.

Lemma free_messages_eq l s :
  exists b h, b ≡₃₂ msg_bytes s /\ h ≡₃₂ msg_hdrs s - Z.of_nat (length l) /\
  free_messages l s =
    OK tt (SYS (msg_ids s) b h (queues s) (next_ptr s) (receivers s) (senders s) (sleeping s)
               (heap s - sumZ msg_blocks l) (woken s)).
Proof.
  revert s. induction l as [|m l IH]; intros s.
  - exists (msg_bytes s), (msg_hdrs s). rewrite Z.sub_0_r.
    split_and!; try reflexivity. destruct s; cbn. unfold ret. now rewrite Z.sub_0_r.
  - cbn [free_messages]. unfold bind at 1, modify. unfold bind. rewrite free_msg_eq.
    destruct (IH (add_heap (- msg_blocks m) (set_atomics 0 (-1) s))) as (b & h & Hb & Hh & E).
    exists b, h. cbn in Hb, Hh. rewrite wrap_s32_eq32 in Hb, Hh. rewrite E. split_and!.
    + now rewrite Hb, Z.add_0_r.
    + rewrite Hh. cbn [length].
      replace (msg_hdrs s - Z.of_nat (S (length l))) with (msg_hdrs s + -1 - Z.of_nat (length l)) by lia.
      reflexivity.
    + cbn. rewrite sumZ_cons. do 2 f_equal. lia.
Qed.

(** ** Locks *)

Lemma unlock_spec id sem d s :
  Inv sem true d s -> ipc_unlock id s = OK tt (unlocked s) /\ Inv sem false d (unlocked s).
Proof.
  intros H. split.
  - unfold ipc_unlock, spin_unlock. now rewrite (inv_ary _ _ _ _ H).
  - pose proof (Inv_locks _ _ sem false _ _ H) as H'. unfold with_locks in H'.
    unfold unlocked. pose proof (inv_sem _ _ _ _ H) as E.
    destruct s as [[] ? ? ? ? ? ? ? ? ?]; cbn in *. now rewrite E.
Qed.

Lemma Inv_locked sem d s : Inv sem false d s -> Inv sem true d (locked s).
Proof.
  intros H. pose proof (Inv_locks _ _ sem true _ _ H) as H'. unfold with_locks in H'.
  unfold locked. pose proof (inv_sem _ _ _ _ H) as E.
  destruct s as [[] ? ? ? ? ? ? ? ? ?]; cbn in *. now rewrite E.
Qed.

Definition downed (s : sys) : sys := set_ids (fun i => ids_with_locks true (ids_ary i) i) s.
Definition upped (s : sys) : sys := set_ids (fun i => ids_with_locks false (ids_ary i) i) s.

Lemma down_spec d s : Inv false false d s -> down s = OK tt (downed s) /\ Inv true false d (downed s).
Proof.
  intros H. pose proof (inv_sem _ _ _ _ H) as Es. pose proof (inv_ary _ _ _ _ H) as Ea. split.
  - unfold down. now rewrite Es.
  - pose proof (Inv_locks _ _ true false _ _ H) as H'. unfold with_locks in H'. unfold downed.
    destruct s as [[] ? ? ? ? ? ? ? ? ?]; cbn in *. now rewrite Ea.
Qed.

Lemma up_spec d s : Inv true false d s -> up s = OK tt (upped s) /\ Inv false false d (upped s).
Proof.
  intros H. pose proof (inv_sem _ _ _ _ H) as Es. pose proof (inv_ary _ _ _ _ H) as Ea. split.
  - unfold up. now rewrite Es.
  - pose proof (Inv_locks _ _ false false _ _ H) as H'. unfold with_locks in H'. unfold upped.
    destruct s as [[] ? ? ? ? ? ? ? ? ?]; cbn in *. now rewrite Ea.
Qed.

Lemma lock_spec id sem d s :
  0 <= id -> Inv sem false d s ->
  ipc_lock id s = match queue_at (msg_ids s) id with
                  | Some p => OK (Some p) (locked s)
                  | None => OK None s
                  end.
Proof. intros Hid H. apply ipc_lock_eq; [assumption | apply H | apply H]. Qed.

(** Run the next command of a sequence, given the equation of its outcome. *)
Ltac run E := unfold bind at 1; rewrite E; cbn beta iota.

(** Replace the state the rest of a sequence runs from; the equality of the
    two states is the first goal. *)
Ltac state_is s2 :=
  lazymatch goal with
  | |- context [bind ?m ?k ?x = OK _ _] => replace x with s2; cycle 1
  | |- context [ret ?v ?x = OK _ _] => replace x with s2; cycle 1
  end.

Lemma sys_ext s s' :
  msg_ids s = msg_ids s' -> msg_bytes s = msg_bytes s' -> msg_hdrs s = msg_hdrs s' ->
  queues s = queues s' -> next_ptr s = next_ptr s' -> receivers s = receivers s' ->
  senders s = senders s' -> sleeping s = sleeping s' -> heap s = heap s' ->
  woken s = woken s' -> s = s'.
Proof. destruct s, s'; cbn. congruence. Qed.

(** Compute a field of an updated state. *)
Ltac cbn_sys :=
  cbn [msg_ids msg_bytes msg_hdrs queues next_ptr receivers senders sleeping heap woken
       set_ids set_atomics set_queues set_next_ptr set_receivers set_senders set_sleeping
       add_heap add_woken set_woken locked unlocked downed upped with_locks
       slept_snd slept_rcv forget removed].

(** Two states are equal field by field; what is not immediate is left. *)
Ltac sys_eq := apply sys_ext; try reflexivity; cbn_sys; try reflexivity.

(** ** newque *)

Lemma newque_spec e key msgflg d s :
  Inv true false d s ->
  (forall p q, queues s !! p = Some q -> p_key (q_perm q) = key -> key = IPC_PRIVATE) ->
  exists r s', newque e key msgflg s = OK r s' /\ Inv true false d s' /\
               sleeping s' = sleeping s /\ (r < 0 \/ exists q,
                 queue_at (msg_ids s') r = Some (next_ptr s) /\
                 queues s' !! next_ptr s = Some q /\
                 p_key (q_perm q) = key /\ ipc_checkid (q_perm q) r = false /\
                 q_messages q = []).
Proof.
  intros H Hkey. unfold newque. unfold bind at 1, kmalloc.
  destruct (e_alloc e 0); cbn [negb]; cycle 1.
  { exists (- ENOMEM), s. split_and!; try (assumption || reflexivity). left. reflexivity. }
  unfold bind at 1, get. unfold bind at 1, modify. unfold bind at 1.
  change (next_ptr (add_heap 1 s)) with (next_ptr s).
  set (q0 := MSQ (KIP 0 0 0 0 0 0 0) 0 0 0 0 0 0 0 0 [] [] []).
  set (s1 := set_queues <[next_ptr s:=q0]> (set_next_ptr (next_ptr s + 1) (add_heap 1 s))).
  pose proof (inv_ids _ _ _ _ H) as Hwf. pose proof (inv_ary _ _ _ _ H) as Hary.
  pose proof (inv_sem _ _ _ _ H) as Hsem.
  assert (Hq0 : queues s1 !! next_ptr s = Some q0) by apply lookup_insert_eq.
  destruct (ipc_addid_spec e (next_ptr s) msg_ctlmni s1 q0 ltac:(unfold msg_ctlmni, MSGMNI; lia)
              Hwf Hary Hq0) as (i1 & n & dh & _ & Hwf1 & Hk & Hsem1 & Hary1 & Hseq1 & Hblk & Hid).
  change (msg_ids s1) with (msg_ids s) in *. rewrite Hsem in Hsem1. cbn zeta in Hid.
  set (id := first_slot is_free (take (Z.to_nat n) (ids_entries i1)) 0) in *.
  pose proof (Inv_next_fresh _ _ _ _ H) as Hfresh.
  destruct (Z.eqb_spec id (-1)) as [Eid|Eid].
  - run Hid. rewrite Z.eqb_refl. unfold kfree, modify, bind, ret.
    exists (- ENOSPC). eexists. split; [reflexivity|]. split_and!; try (reflexivity || (left; reflexivity)).
    pose proof (Inv_grow _ _ _ i1 dh H Hwf1 Hk Hsem1 Hary1 Hblk) as HG.
    match goal with |- Inv _ _ _ ?x =>
      replace x with (set_ids (fun _ => i1) (set_next_ptr (next_ptr s + 1) (add_heap dh s))); [exact HG|]
    end.
    unfold s1. sys_eq; [symmetry; now apply delete_insert_id | lia].
  - destruct Hid as (Hfree & [Hid0 Hid1] & Ead). run Ead.
    destruct (Z.eqb_spec id (-1)); [contradiction|].
    unfold bind at 1, upd_q.
    match goal with |- context [queues ?x !! next_ptr s] =>
      replace (queues x !! next_ptr s)
        with (Some (msq_with_perm (addid_perm e (ids_seq i1) (q_perm q0)) q0))
        by (cbn; now rewrite lookup_insert_eq)
    end. cbn beta iota.
    pose proof (Inv_new_queue _ _ _ e key msgflg i1 dh id H Hwf1 Hk Hsem1 Hary1 Hblk
                  Hid0 Hfree Hkey) as HN.
    match type of HN with Inv _ _ _ ?x => set (s2 := x) in * end.
    state_is s2.
    { unfold s2, s1. sys_eq; [now rewrite !insert_insert_eq | lia]. }
    destruct (unlock_spec id _ _ _ HN) as [Eu HU]. run Eu.
    assert (Hs2 : queues (unlocked s2) !! next_ptr s = Some (fresh_queue e key msgflg (ids_seq i1)))
      by (cbn; apply lookup_insert_eq).
    assert (Ed : deref_q (next_ptr s) (unlocked s2)
      = OK (fresh_queue e key msgflg (ids_seq i1)) (unlocked s2))
      by (unfold deref_q; now rewrite Hs2).
    run Ed. eexists _, _. split; [reflexivity|]. split; [assumption|]. split; [reflexivity|].
    right. exists (fresh_queue e key msgflg (ids_seq i1)).
    pose proof (wf_seq _ Hwf1) as Hsq.
    split_and!; try (assumption || reflexivity).
    + unfold queue_at. cbn [p_seq q_perm fresh_queue]. rewrite buildid_slot by lia.
      cbn. rewrite list_lookup_insert_eq; [reflexivity | now apply lookup_lt_Some in Hfree].
    + cbn [p_seq q_perm fresh_queue]. rewrite checkid_buildid by lia.
      cbn. now rewrite Z.eqb_refl.
Qed.

(** ** rt_msgget *)

Lemma deref_q_eq p q s : queues s !! p = Some q -> deref_q p s = OK q s.
Proof. intros H. unfold deref_q. now rewrite H. Qed.

Lemma slot_small id : 0 <= id < IPCMNI -> slot id = Z.to_nat id.
Proof. intros H. unfold slot. now rewrite Z.rem_small. Qed.

(** No slot has the key: no queue has it. *)
Lemma findkey_none sem ary d s key :
  Inv sem ary d s -> first_slot (has_key s key) (ids_entries (msg_ids s)) 0 = -1 ->
  forall p q, queues s !! p = Some q -> p_key (q_perm q) <> key.
Proof.
  intros H Hf p q Hp Hk. destruct (tw_slot _ _ _ (inv_table _ _ _ _ H) _ _ Hp) as [i Hi].
  apply (proj1 (first_slot_none _ _ 0 ltac:(lia))) with (k := i) (o := Some p) in Hf; [|assumption].
  cbn in Hf. rewrite Hp, Hk, Z.eqb_refl in Hf. discriminate.
Qed.

(** A slot was found: its queue has the key. *)
Lemma findkey_some sem ary d s key id :
  Inv sem ary d s -> first_slot (has_key s key) (ids_entries (msg_ids s)) 0 = id -> id <> -1 ->
  0 <= id < IPCMNI /\ exists p q, queue_at (msg_ids s) id = Some p /\
    queues s !! p = Some q /\ p_key (q_perm q) = key.
Proof.
  intros H Hf Hne.
  destruct (first_slot_some _ _ 0 id ltac:(lia) Hf Hne) as (k & o & -> & Hk & Ho & _).
  pose proof (inv_ids _ _ _ _ H) as [Hs Hl _ _ _ _]. pose proof (lookup_lt_Some _ _ _ Hk). assert (msg_ctlmni <= IPCMNI) by easy.
  split; [lia|]. unfold has_key in Ho. destruct o as [p|]; [|discriminate].
  destruct (queues s !! p) as [q|] eqn:Hp; [|discriminate]. apply Z.eqb_eq in Ho.
  exists p, q. split_and!; try auto. unfold queue_at. rewrite slot_small by lia.
  replace (Z.to_nat (0 + Z.of_nat k)) with k by lia. now rewrite Hk.
Qed.

Lemma findkey_spec sem ary d s key :
  Inv sem ary d s ->
  ipc_findkey key s = OK (first_slot (has_key s key) (ids_entries (msg_ids s)) 0) s.
Proof.
  intros H. apply ipc_findkey_eq; [apply H|].
  exact (tw_live _ _ _ (inv_table _ _ _ _ H)).
Qed.

Lemma rt_msgget_safe e key msgflg d s :
  Inv false false d s ->
  exists r s', rt_msgget e key msgflg s = OK r s' /\ Inv false false d s' /\
               sleeping s' = sleeping s.
Proof.
  intros H. unfold rt_msgget. destruct (down_spec _ _ H) as [Ed HD]. run Ed.
  match goal with |- context [bind ?m ?k (downed s)] =>
    assert (exists r s', m (downed s) = OK r s' /\ Inv true false d s' /\ sleeping s' = sleeping s)
      as (r & s' & E & HI & Hsl)
  end.
  { destruct (Z.eqb_spec key IPC_PRIVATE) as [->|Hk].
    { destruct (newque_spec e IPC_PRIVATE msgflg d _ HD) as (r & s' & E & HI & Hs & _); eauto. }
    run (findkey_spec _ _ _ _ key HD).
    destruct (Z.eqb_spec (first_slot (has_key (downed s) key) (ids_entries (msg_ids (downed s))) 0) (-1))
      as [E|E].
    - destruct (_ =? 0); [do 2 eexists; split; [reflexivity | now split]|].
      destruct (newque_spec e key msgflg d _ HD) as (r & s' & E' & HI & Hs & _); eauto.
      intros p q Hp Hq. destruct (findkey_none _ _ _ _ _ HD E _ _ Hp Hq).
    - destruct (_ && _); [do 2 eexists; split; [reflexivity | now split]|].
      destruct (findkey_some _ _ _ _ _ _ HD eq_refl E) as (Hid & p & q & Hat & Hp & _).
      set (id := first_slot _ _ _) in *.
      pose proof (lock_spec id _ _ _ ltac:(lia) HD) as El. rewrite Hat in El. run El.
      pose proof (Inv_locked _ _ _ HD) as HL.
      run (deref_q_eq p q (locked (downed s)) Hp).
      destruct (unlock_spec id _ _ _ HL) as [Eu HU]. run Eu.
      do 2 eexists. split; [reflexivity | now split]. }
  run E. destruct (up_spec _ _ HI) as [Eup HU]. run Eup.
  do 2 eexists. split; [reflexivity|]. split; [assumption | exact Hsl].
Qed.

(** ** freeque and rt_msgctl *)

(** [freeque] gives the memory [removed] describes. *)
Lemma freeque_eq id d s p q :
  0 <= id -> Inv true true d s -> queue_at (msg_ids s) id = Some p -> queues s !! p = Some q ->
  exists i' b h, freeque id s = OK tt (unlocked (removed i' b h p q s)) /\
    ids_wf i' /\ ids_entries i' = <[slot id := None]> (ids_entries (msg_ids s)) /\
    ids_size i' = ids_size (msg_ids s) /\ ids_sem i' = true /\ ids_ary i' = true /\
    b ≡₃₂ msg_bytes s - q_cbytes q /\ h ≡₃₂ msg_hdrs s - q_count q.
Proof.
  intros Hid H Hat Hp. pose proof H as [Hsem Hary Hwf Htab Hqs Hl _ _ _ _].
  destruct (ipc_rmid_spec id s p Hid Hwf Hat) as (i' & Erm & Hwf' & He & Hsz & Hs' & Ha').
  destruct (Hl _ _ Hp) as [N1 N2 L1 L2].
  unfold freeque. run Erm. unfold expunge_all. unfold bind at 1.
  run (deref_q_eq p q (set_ids (fun _ => i') s) Hp).
  rewrite expunge_list_eq by (intros t (x & E & _)%L2; exists x; exact E). cbn beta iota.
  set (s1 := set_woken _ _).
  run (deref_q_eq p q s1 Hp).
  assert (Ew : forall t, t ∈ q_senders q -> is_Some (senders s1 !! t))
    by (intros t (x & E & _)%L1; exists x; exact E).
  run (ss_wakeup_kill_eq (q_senders q) s1 Ew). set (s2 := set_woken (_ ++ woken s1) _).
  assert (Eu : ipc_unlock id s2 = OK tt (unlocked s2)).
  { unfold ipc_unlock, spin_unlock. change (msg_ids s2) with i'. now rewrite Ha', Hary. }
  run Eu. run (deref_q_eq p q (unlocked s2) Hp).
  destruct (free_messages_eq (q_messages q) (unlocked s2)) as (b & h & Hb & Hh & Ef). run Ef.
  set (s3 := SYS _ _ _ _ _ _ _ _ _ _). unfold modify, kfree, bind.
  exists i', (i32 (b + - q_cbytes q)), (i32 (h + 0)). split.
  { unfold modify. f_equal. unfold s3, s2, s1. sys_eq. unfold q_blocks. lia. }
  split_and!; try (assumption || congruence).
  - rewrite wrap_s32_eq32, Hb. reflexivity.
  - rewrite wrap_s32_eq32, Z.add_0_r, Hh. reflexivity.
Qed.

Lemma freeque_safe id d s p q :
  0 <= id -> Inv true true d s -> queue_at (msg_ids s) id = Some p -> queues s !! p = Some q ->
  exists s', freeque id s = OK tt s' /\ Inv true false d s' /\ sleeping s' = sleeping s.
Proof.
  intros Hid H Hat Hp.
  destruct (freeque_eq id d s p q Hid H Hat Hp) as (i' & b & h & E & Hwf & He & Hsz & Hs & Ha & Hb & Hh).
  exists (unlocked (removed i' b h p q s)). split; [assumption|]. split; [|reflexivity].
  pose proof (Inv_remove _ _ _ _ _ _ _ _ _ _ H Hp Hat Hwf He Hsz Hb Hh) as HR.
  rewrite Hs, Ha in HR. now apply (unlock_spec id).
Qed.

Lemma mark_id {A} (f : A -> A) l (m : gmap Z A) :
  NoDup l -> (forall t x, t ∈ l -> m !! t = Some x -> f x = x) -> mark f l m = m.
Proof.
  intros Hl H. apply map_eq. intros t. rewrite mark_lookup by assumption.
  case_decide; [|reflexivity]. destruct (m !! t) as [x|] eqn:E; [|reflexivity].
  cbn. f_equal. eauto.
Qed.

(** Telling the waiting receivers to try again leaves them as they are. *)
Lemma expunge_again sem ary d s p q :
  Inv sem ary d s -> queues s !! p = Some q ->
  expunge_all p (- EAGAIN) s = OK tt (set_woken (rev (q_receivers q) ++ woken s) s).
Proof.
  intros H Hp. destruct (inv_link _ _ _ _ H _ _ Hp) as [_ N2 _ L2].
  unfold expunge_all. run (deref_q_eq p q s Hp).
  rewrite expunge_list_eq by (intros t (x & E & _)%L2; exists x; exact E).
  f_equal. sys_eq. apply mark_id; [assumption|]. intros t r Hr Ht.
  apply L2 in Hr as (r' & E & _ & Em). rewrite Ht in E. injection E as <-.
  destruct r; cbn in *. now subst.
Qed.

Lemma upd_q_eq p f q s :
  queues s !! p = Some q -> upd_q p f s = OK tt (set_queues <[p := f q]> s).
Proof. intros H. unfold upd_q. now rewrite H. Qed.

(** The end of an operation that holds the spin lock and the semaphore. *)
Lemma unlock_up_spec {A} id d s (r : A) :
  Inv true true d s ->
  (ipc_unlock id ;; up ;; ret r) s = OK r (upped (unlocked s)) /\
  Inv false false d (upped (unlocked s)).
Proof.
  intros H. destruct (unlock_spec id _ _ _ H) as [Eu HU]. destruct (up_spec _ _ HU) as [Ep HP].
  split; [|assumption]. run Eu. run Ep. reflexivity.
Qed.

Definition setbuf_ok (b : option msq_setbuf) : Prop :=
  match b with Some b => 0 <= sb_qbytes b < 2 ^ 32 | None => True end.

Lemma msgctl_change_safe e msqid b d s :
  0 <= msqid -> setbuf_ok b -> Inv false false d s ->
  exists r s', msgctl_change e msqid b s = OK r s' /\ Inv false false d s' /\
               sleeping s' = sleeping s.
Proof.
  intros Hid Hb H. unfold msgctl_change. destruct (down_spec _ _ H) as [Ed HD]. run Ed.
  pose proof (lock_spec msqid _ _ _ Hid HD) as El. run El.
  destruct (queue_at (msg_ids (downed s)) msqid) as [p|] eqn:Hat; cycle 1.
  { destruct (up_spec _ _ HD) as [Eup HU]. run Eup.
    do 2 eexists. split; [reflexivity|]. split; [assumption | reflexivity]. }
  destruct (Inv_queue_at _ _ _ _ _ _ HD Hat) as [q Hp].
  pose proof (Inv_locked _ _ _ HD) as HL. run (deref_q_eq p q (locked (downed s)) Hp).
  assert (Hfail : forall r : Z, exists r' s',
    (ipc_unlock msqid ;; up ;; ret r) (locked (downed s)) = OK r' s' /\
    Inv false false d s' /\ sleeping s' = sleeping s).
  { intros r. destruct (unlock_up_spec msqid d _ r HL) as [E HI]. eauto. }
  destruct (ipc_checkid _ _); [apply Hfail|].
  destruct (_ && _ && _); [apply Hfail|].
  destruct b as [b|].
  - destruct ((msg_ctlmnb <? _) && _); [apply Hfail|].
    set (f := fun q0 : msg_queue => _).
    run (upd_q_eq p f q (locked (downed s)) Hp).
    assert (HS : Inv true true d (set_queues <[p := f q]> (locked (downed s)))).
    { apply (Inv_upd_members _ _ _ _ _ q); try (assumption || reflexivity).
      exact (qw_seq _ (inv_queue _ _ _ _ HL _ _ Hp)). }
    assert (Hp' : queues (set_queues <[p := f q]> (locked (downed s))) !! p = Some (f q))
      by apply lookup_insert_eq.
    set (s1 := set_queues _ _) in *.
    run (expunge_again _ _ _ _ _ _ HS Hp').
    match goal with |- context [set_woken ?w s1] => pose proof (Inv_set_woken _ _ _ w _ HS) as HW end.
    set (s2 := set_woken _ s1) in *. run (deref_q_eq p (f q) s2 Hp').
    run (ss_wakeup_eq (q_senders (f q)) s2).
    match goal with |- context [set_woken ?w s2] => pose proof (Inv_set_woken _ _ _ w _ HW) as HV end.
    set (s3 := set_woken _ s2) in *.
    destruct (unlock_up_spec msqid d s3 0 HV) as [E HI]. rewrite E.
    do 2 eexists. split; [reflexivity|]. split; [assumption | reflexivity].
  - destruct (freeque_safe msqid d _ _ _ Hid HL Hat Hp) as (s' & E & HI & Hsl). run E.
    destruct (up_spec _ _ HI) as [Eup HU]. run Eup.
    do 2 eexists. split; [reflexivity|]. split; [assumption | exact Hsl].
Qed.

Lemma msgctl_info_safe e c buf space d s :
  Inv false false d s ->
  exists r s', msgctl_info e c buf space s = OK r s' /\ Inv false false d s' /\
               sleeping s' = sleeping s.
Proof.
  intros H. unfold msgctl_info. destruct buf; [do 2 eexists; split; [reflexivity | now split]|].
  destruct (down_spec _ _ H) as [Ed HD]. run Ed. unfold bind at 1, get.
  destruct (up_spec _ _ HD) as [Eup HU]. run Eup.
  destruct (_ && _); do 2 eexists; (split; [reflexivity|]; split; [assumption | reflexivity]).
Qed.

Lemma msgctl_stat_safe e msqid c v buf space d s :
  0 <= msqid -> Inv false false d s ->
  exists r s', msgctl_stat e msqid c v buf space s = OK r s' /\ Inv false false d s' /\
               sleeping s' = sleeping s.
Proof.
  intros Hid H. unfold msgctl_stat. destruct buf; [do 2 eexists; split; [reflexivity | now split]|].
  unfold bind at 1, get. destruct (_ && _); [do 2 eexists; split; [reflexivity | now split]|].
  pose proof (lock_spec msqid _ _ _ Hid H) as El. run El.
  destruct (queue_at (msg_ids s) msqid) as [p|] eqn:Hat;
    [|do 2 eexists; split; [reflexivity | now split]].
  destruct (Inv_queue_at _ _ _ _ _ _ H Hat) as [q Hp].
  pose proof (Inv_locked _ _ _ H) as HL. run (deref_q_eq p q (locked s) Hp).
  destruct (unlock_spec msqid _ _ _ HL) as [Eu HU].
  destruct (_ && _); [|destruct (negb _)]; run Eu;
    [do 2 eexists; split; [reflexivity | now split] .. |].
  destruct (copy_msqid_to_user _ _ _ _) as [r out].
  destruct (negb _); do 2 eexists; (split; [reflexivity | now split]).
Qed.

Lemma rt_msgctl_safe e msqid c buf space d s :
  Inv false false d s ->
  exists r s', _rt_msgctl e msqid c buf space s = OK r s' /\ Inv false false d s' /\
               sleeping s' = sleeping s.
Proof.
  intros H. unfold _rt_msgctl. destruct ((msqid <? 0) || (c <? 0)) eqn:Eneg.
  { do 2 eexists; split; [reflexivity | now split]. }
  bool_to_prop. destruct (ipc_parse_version c) as [v c'].
  destruct (_ || _); [now apply msgctl_info_safe|].
  destruct (_ || _); [now apply msgctl_stat_safe|].
  destruct (c' =? IPC_SET).
  - destruct buf as [|b64 bold]; [do 2 eexists; split; [reflexivity | now split]|].
    destruct (copy_msqid_from_user e b64 bold v space) as [b|] eqn:Ec;
      [|do 2 eexists; split; [reflexivity | now split]].
    assert (Hb : setbuf_ok (Some b)).
    { unfold copy_msqid_from_user in Ec. cbn.
      pose proof (wrap_u_range 32 (msg_qbytes64 b64) ltac:(lia)).
      pose proof (wrap_u_range 32 (msg_lqbytes bold) ltac:(lia)).
      pose proof (wrap_u_range 16 (msg_qbytes bold) ltac:(lia)).
      repeat split_if_in Ec; simplify_eq; cbn; lia. }
    destruct (msgctl_change_safe e msqid (Some b) d s ltac:(lia) Hb H) as (r & s' & E & HI & Hs).
    run E. do 2 eexists; split; [reflexivity | now split].
  - destruct (c' =? IPC_RMID); [|do 2 eexists; split; [reflexivity | now split]].
    destruct (msgctl_change_safe e msqid None d s ltac:(lia) I H) as (r & s' & E & HI & Hs).
    run E. do 2 eexists; split; [reflexivity | now split].
Qed.
