(* ===== verification/SysvTransfer.v ===== *)
(** * Sending and receiving: the invariant and the absence of faults

    [pipelined_send] against a reference choice of the receiver, and the
    safety of [_rt_msgsnd] and [_rt_msgrcv], from their entry and from the
    point where a sleeping caller resumes. *)

From stdpp Require Import base tactics numbers list gmap.
From S2P Require Import Prelude SysvState IpcUtil IpcFacts SysvMsg MsgText SysvInv SysvOps.

(** ** Handing a message to a waiting receiver *)

(** Reference for [pipelined_send]: scanning the waiting receivers in order,
    those that want the message and cannot hold it, and the first that wants it
    and can. *)
Fixpoint choose (rs : gmap Z msg_receiver) (msg : msg_msg) (l : list Z) : list Z * option Z :=
  match l with
  | [] => ([], None)
  | t :: l' =>
      match rs !! t with
      | None => ([], None)
      | Some r =>
          if testmsg msg (r_msgtype r) (r_mode r) then
            if r_maxsize r <? m_ts msg
            then (t :: fst (choose rs msg l'), snd (choose rs msg l'))
            else ([], Some t)
          else choose rs msg l'
      end
  end.

(** The stacks of the receivers after that choice. *)
Definition handed (msg : msg_msg) (c : list Z * option Z) (rs : gmap Z msg_receiver)
    : gmap Z msg_receiver :=
  let rs' := mark (finished (inr (- E2BIG))) (fst c) rs in
  match snd c with
  | Some t => alter (finished (inl msg)) t rs'
  | None => rs'
  end.

(** What a hand-over leaves unchanged, in the queue and elsewhere. *)
Record kept (p : Z) (s s' : sys) : Prop := {
  kept_ids : msg_ids s' = msg_ids s;
  kept_heap : heap s' = heap s;
  kept_sleeping : sleeping s' = sleeping s;
  kept_senders : senders s' = senders s;
  kept_queue : forall q, queues s !! p = Some q -> exists q', queues s' !! p = Some q' /\
    q_messages q' = q_messages q /\ q_perm q' = q_perm q /\ q_qbytes q' = q_qbytes q /\
    q_senders q' = q_senders q /\ q_cbytes q' = q_cbytes q /\ q_qnum q' = q_qnum q /\
    q_lspid q' = q_lspid q /\ q_stime q' = q_stime q;
  kept_others : forall p', p' <> p -> queues s' !! p' = queues s !! p'
}.

Lemma kept_refl p s : kept p s s.
Proof. constructor; try reflexivity. intros q Hq. exists q. now split_and!. Qed.

Lemma kept_trans p s1 s2 s3 : kept p s1 s2 -> kept p s2 s3 -> kept p s1 s3.
Proof.
  intros [A1 A1' A2 A3 A4 A5] [B1 B1' B2 B3 B4 B5]. constructor; try congruence.
  - intros q Hq. destruct (A4 _ Hq) as (q' & Hq' & ? & ? & ? & ? & ? & ? & ? & ?).
    destruct (B4 _ Hq') as (q'' & Hq'' & ? & ? & ? & ? & ? & ? & ? & ?).
    exists q''. split_and!; congruence.
  - intros p' Hne. rewrite B5, A5 by assumption. reflexivity.
Qed.

(** The memory after a receiver was taken off its queue with [out]. *)
Definition finish (t p : Z) (q : msg_queue) (r : msg_receiver) (out : msg_msg + Z) (s : sys) : sys :=
  set_receivers <[t := finished out r]>
    (set_queues <[p := msq_with_receivers (unlink t (q_receivers q)) q]> s).

Lemma rcv_list_del_eq t r p q s :
  receivers s !! t = Some r -> r_list r = Some p -> queues s !! p = Some q ->
  rcv_list_del t s =
    OK tt (set_receivers <[t := rcv_unlinked r]>
            (set_queues <[p := msq_with_receivers (unlink t (q_receivers q)) q]> s)).
Proof.
  intros Hr Hl Hp. unfold rcv_list_del, deref_r. unfold bind at 1. rewrite Hr, Hl.
  run (upd_q_eq p (fun q => msq_with_receivers (unlink t (q_receivers q)) q) q s Hp).
  unfold upd_r. cbn_sys. now rewrite Hr.
Qed.

Lemma upd_r_finish t r p q out s :
  upd_r t (rcv_with_msg out)
    (set_receivers <[t := rcv_unlinked r]>
      (set_queues <[p := msq_with_receivers (unlink t (q_receivers q)) q]> s))
  = OK tt (finish t p q r out s).
Proof.
  unfold upd_r. cbn_sys. rewrite lookup_insert_eq. f_equal. sys_eq.
  unfold finish. cbn_sys. now rewrite insert_insert_eq.
Qed.

Lemma kept_finish t p q r out s : queues s !! p = Some q -> kept p s (finish t p q r out s).
Proof.
  intros Hp. constructor; try reflexivity.
  - intros q0 Hq0. assert (q0 = q) as -> by congruence.
    eexists. split; [apply lookup_insert_eq|]. now split_and!.
  - intros p' Hne. unfold finish. cbn_sys. now rewrite lookup_insert_ne.
Qed.

Lemma choose_ext rs rs' msg l :
  (forall t, t ∈ l -> rs !! t = rs' !! t) -> choose rs msg l = choose rs' msg l.
Proof.
  induction l as [|t l IH]; intros H; cbn; [reflexivity|].
  rewrite <- (H t) by constructor.
  rewrite IH by (intros x Hx; apply H; now constructor). reflexivity.
Qed.

Lemma pipelined_list_spec e p msg l d s q :
  Inv false true d s -> queues s !! p = Some q -> msg_ok msg ->
  NoDup l -> (forall t, t ∈ l -> t ∈ q_receivers q) ->
  let c := choose (receivers s) msg l in
  let b := bool_decide (is_Some (snd c)) in
  exists s', pipelined_list e p msg l s = OK b s' /\
    Inv false true (if b then d - msg_blocks msg else d) s' /\
    kept p s s' /\ receivers s' = handed msg c (receivers s).
Proof.
  intros H Hp Hm Hl. revert d s q H Hp.
  induction Hl as [|t l Ht Hl IH]; intros d s q H Hp Hin; cbn [choose pipelined_list].
  { exists s. rewrite bool_decide_false by (intros [? [=]]).
    split_and!; try reflexivity; [assumption | apply kept_refl]. }
  assert (Htq : t ∈ q_receivers q) by (apply Hin; constructor).
  destruct (proj1 (lw_rcv _ _ _ _ (inv_link _ _ _ _ H _ _ Hp) t) Htq) as (r & Hr & Hrl & Hrm).
  unfold bind at 1, deref_r. rewrite Hr.
  destruct (testmsg msg (r_msgtype r) (r_mode r)); cycle 1.
  { apply (IH d s q H Hp). intros x Hx. apply Hin. now constructor. }
  run (rcv_list_del_eq t r p q s Hr Hrl Hp).
  destruct (r_maxsize r <? m_ts msg).
  - run (upd_r_finish t r p q (inr (- E2BIG)) s).
    pose proof (Inv_finish _ _ _ _ _ _ _ _ (inr (- E2BIG)) H Hp Htq Hr ltac:(discriminate)) as HF.
    cbn [out_blocks] in HF. rewrite Z.sub_0_r in HF.
    change (Inv false true d (finish t p q r (inr (- E2BIG)) s)) in HF.
    apply (Inv_woken _ _ _ t) in HF. unfold bind at 1, wake_up_process, modify.
    set (s1 := add_woken t (finish t p q r (inr (- E2BIG)) s)) in *.
    assert (Hp1 : queues s1 !! p = Some (msq_with_receivers (unlink t (q_receivers q)) q))
      by apply lookup_insert_eq.
    assert (Hch : choose (receivers s1) msg l = choose (receivers s) msg l).
    { apply choose_ext. intros x Hx. cbn. rewrite lookup_insert_ne; [reflexivity|].
      intros <-. contradiction. }
    destruct (IH _ _ _ HF Hp1) as (s' & E & HI & HK & HR).
    { intros x Hx. cbn. apply unlink_elem; [apply (inv_link _ _ _ _ H _ _ Hp)|].
      split; [apply Hin; now constructor | intros ->; contradiction]. }
    rewrite Hch in E, HI, HR. exists s'. cbn [snd fst]. split_and!; try assumption.
    + eapply kept_trans; [exact (kept_finish t p q r (inr (- E2BIG)) s Hp)|].
      destruct HK; constructor; assumption.
    + rewrite HR. unfold handed, mark. cbn [fst snd foldl].
      now rewrite <- (insert_alter (finished (inr (- E2BIG))) _ _ r).
  - run (upd_r_finish t r p q (inl msg) s).
    pose proof (Inv_finish _ _ _ _ _ _ _ _ (inl msg) H Hp Htq Hr Hm) as HF.
    change (Inv false true (d - msg_blocks msg) (finish t p q r (inl msg) s)) in HF.
    set (s1 := finish t p q r (inl msg) s) in *.
    assert (Hp1 : queues s1 !! p = Some (msq_with_receivers (unlink t (q_receivers q)) q))
      by apply lookup_insert_eq.
    set (f := fun q0 : msg_queue => _). run (upd_q_eq p f _ s1 Hp1).
    unfold bind, wake_up_process, modify, ret. eexists. cbn [snd fst].
    rewrite bool_decide_true by eauto. split; [reflexivity|]. split_and!.
    + apply Inv_woken. apply (Inv_upd_members _ _ _ _ _ _ _ HF Hp1); try reflexivity;
        apply (inv_queue _ _ _ _ H _ _ Hp).
    + eapply kept_trans; [exact (kept_finish t p q r (inl msg) s Hp)|].
      change (finish t p q r (inl msg) s) with s1. constructor; try reflexivity.
      * intros q0 Hq0. assert (q0 = _) as -> by (rewrite Hp1 in Hq0; now injection Hq0 as <-).
        eexists. split; [apply lookup_insert_eq|]. now split_and!.
      * intros p' Hne. cbn_sys. now rewrite lookup_insert_ne.
    + unfold handed, mark. cbn [fst snd foldl].
      now rewrite <- (insert_alter (finished (inl msg)) _ _ r).
Qed.

Lemma pipelined_send_spec e p msg d s q :
  Inv false true d s -> queues s !! p = Some q -> msg_ok msg ->
  let c := choose (receivers s) msg (q_receivers q) in
  let b := bool_decide (is_Some (snd c)) in
  exists s', pipelined_send e p msg s = OK b s' /\
    Inv false true (if b then d - msg_blocks msg else d) s' /\
    kept p s s' /\ receivers s' = handed msg c (receivers s).
Proof.
  intros H Hp Hm. unfold pipelined_send. run (deref_q_eq p q s Hp).
  apply (pipelined_list_spec e p msg (q_receivers q) d s q); auto.
  apply (inv_link _ _ _ _ H _ _ Hp).
Qed.

(** ** Sending *)

(** Giving back the lock and the message. *)
Lemma unlock_free_spec {A} id d s msg (r : A) :
  Inv false true (d + msg_blocks msg) s ->
  (ipc_unlock id ;; free_msg msg ;; ret r) s = OK r (add_heap (- msg_blocks msg) (unlocked s)) /\
  Inv false false d (add_heap (- msg_blocks msg) (unlocked s)).
Proof.
  intros H. destruct (unlock_spec id _ _ _ H) as [Eu HU]. split.
  - run Eu. now run (free_msg_eq msg (unlocked s)).
  - apply (Inv_heap' _ _ _ _ _ _ HU). lia.
Qed.

(** The state of the sleepers after a call that may have gone to sleep. *)
Definition sleeps (e : env) (pd : pending) (awake : bool) (s s' : sys) : Prop :=
  sleeping s' = if awake then sleeping s else <[e_pid e := pd]> (sleeping s).

Definition returned {A} (r : option A) : bool := match r with Some _ => true | None => false end.

Lemma msgsnd_retry_safe e msqid p msg msgflg d s :
  Inv false true (d + msg_blocks msg) s -> queue_at (msg_ids s) msqid = Some p -> 0 <= msqid ->
  msg_ok msg -> sleeping s !! e_pid e = None ->
  exists r s', msgsnd_retry e msqid p msg (m_ts msg) msgflg s = OK r s' /\
    Inv false false d s' /\
    sleeps e (PSnd msqid msg (m_ts msg) msgflg) (returned r) s s'.
Proof.
  intros H Hat Hid Hm Hsl. destruct (Inv_queue_at _ _ _ _ _ _ H Hat) as [q Hp].
  unfold msgsnd_retry. run (deref_q_eq p q s Hp).
  assert (Hfail : forall x : Z, exists r s',
    (ipc_unlock msqid ;; free_msg msg ;; ret (Some x)) s = OK r s' /\
    Inv false false d s' /\
    sleeps e (PSnd msqid msg (m_ts msg) msgflg) (returned r) s s').
  { intros x. destruct (unlock_free_spec msqid d s msg (Some x) H) as [E HI].
    do 2 eexists. split; [exact E|]. now split. }
  destruct (ipc_checkid _ _); [apply Hfail|]. destruct (negb _); [apply Hfail|].
  destruct (_ || _).
  { destruct (negb _); [apply Hfail|].
    unfold ss_add. unfold bind at 1. unfold bind at 1, modify at 1.
    rewrite (upd_q_eq p _ q) by exact Hp. cbn beta iota.
    pose proof (Inv_sleep_snd _ _ _ _ _ _ _ msqid msg msgflg H Hsl Hp Hid Hat Hm) as HS.
    replace (d + msg_blocks msg - msg_blocks msg) with d in HS by lia.
    unfold ipc_unlock, spin_unlock. unfold bind at 1. cbn_sys. rewrite (inv_ary _ _ _ _ H).
    destruct (unlock_spec msqid _ _ _ HS) as [_ HU].
    unfold bind, modify, ret. do 2 eexists. split; [reflexivity|]. split; [exact HU | reflexivity]. }
  set (f := fun q0 : msg_queue => _). run (upd_q_eq p f q s Hp).
  assert (H1 : Inv false true (d + msg_blocks msg) (set_queues <[p := f q]> s)).
  { apply (Inv_upd_members _ _ _ _ _ q); try (assumption || reflexivity);
      apply (inv_queue _ _ _ _ H _ _ Hp). }
  set (s1 := set_queues _ _) in *.
  assert (Hp1 : queues s1 !! p = Some (f q)) by apply lookup_insert_eq.
  destruct (pipelined_send_spec e p msg _ s1 (f q) H1 Hp1 Hm) as (s2 & E & HI & HK & _).
  run E. destruct (bool_decide _).
  - replace (d + msg_blocks msg - msg_blocks msg) with d in HI by lia. unfold bind at 1, ret at 1.
    destruct (unlock_spec msqid _ _ _ HI) as [Eu HU]. run Eu.
    do 2 eexists. split; [reflexivity|]. split; [exact HU | exact (kept_sleeping _ _ _ HK)].
  - destruct (kept_queue _ _ _ HK _ Hp1) as (q' & Hq' & _).
    unfold bind at 1. unfold bind at 1. rewrite (upd_q_eq p _ q') by exact Hq'. cbn beta iota.
    unfold modify.
    pose proof (Inv_enqueue _ _ _ _ _ _ msg HI Hq' Hm) as HE.
    replace (d + msg_blocks msg - msg_blocks msg) with d in HE by lia.
    destruct (unlock_spec msqid _ _ _ HE) as [Eu HU]. unfold enqueued in Eu, HU. run Eu.
    do 2 eexists. split; [reflexivity|]. split; [exact HU | exact (kept_sleeping _ _ _ HK)].
Qed.

Lemma rt_msgsnd_safe e msqid mtype mtext msgsz msgflg space s :
  Inv false false 0 s -> sleeping s !! e_pid e = None ->
  exists r s' pd, _rt_msgsnd e msqid mtype mtext msgsz msgflg space s = OK r s' /\
    Inv false false 0 s' /\ sleeps e pd (returned r) s s'.
Proof.
  intros H Hsl. unfold _rt_msgsnd.
  assert (Hout : forall x : Z, exists r s' pd, ret (Some x) s = OK (F := fault_kind) r s' /\
    Inv false false 0 s' /\ sleeps e pd (returned r) s s').
  { intros x. exists (Some x), s, (PRcv 0 0 0 0 0 0 true). now split_and!. }
  destruct (_ || _ || _) eqn:Eg; [apply Hout|]. bool_to_prop.
  destruct (i32 mtype <? 1) eqn:Et; [apply Hout|]. bool_to_prop.
  destruct (load_msg_spec e mtext (u32 msgsz) space s) as (r & dh & E & Hr);
    [apply (wrap_u_range 32); lia|].
  run E. destruct r as [m0|err]; cycle 1.
  { destruct Hr as (_ & -> & _). rewrite add_heap_0. apply Hout. }
  destruct Hr as [-> ->].
  set (msg := MSG (i32 mtype) (u32 msgsz) _ _).
  assert (Hm : msg_ok msg) by (apply loaded_ok; [apply (wrap_u_range 32)|]; lia).
  change (msg_blocks (loaded mtext (u32 msgsz))) with (msg_blocks msg).
  pose proof (Inv_heap _ _ _ (msg_blocks msg) _ H) as HA. set (s1 := add_heap _ s) in *.
  pose proof (lock_spec msqid _ _ _ ltac:(lia) HA) as El. run El.
  destruct (queue_at (msg_ids s1) msqid) as [p|] eqn:Hat.
  - destruct (msgsnd_retry_safe e msqid p msg msgflg 0 (locked s1)) as (r & s' & E' & HI & HS);
      try (assumption || lia); [now apply Inv_locked|].
    change (m_ts msg) with (u32 msgsz) in E'. rewrite E'. eauto 10.
  - run (free_msg_eq msg s1). unfold s1. rewrite add_heap_add_heap, Z.add_opp_diag_r, add_heap_0.
    apply Hout.
Qed.

(** What the invariant says of a sleeping sender, and the effect of [ss_del]
    followed by the end of its stack frame. *)
Lemma sender_forget sem ary d s t msqid msg msgsz msgflg :
  Inv sem ary d s -> sleeping s !! t = Some (PSnd msqid msg msgsz msgflg) ->
  let s0 := set_sleeping (delete t) s in
  0 <= msqid /\ msg_ok msg /\ msgsz = m_ts msg /\
  (ss_del t ;; modify (set_senders (delete t))) s0 = OK tt (forget t s) /\
  (queue_at (msg_ids s) msqid = None -> set_senders (delete t) s0 = forget t s) /\
  Inv sem ary (d + msg_blocks msg) (forget t s).
Proof.
  intros H Ht s0. pose proof (inv_task _ _ _ _ H t) as Hw. rewrite Ht in Hw. cbn in Hw.
  destruct Hw as (Hid & Hm & Hsz & Hr & m & Hs & Hq).
  pose proof (Inv_forget _ _ _ _ _ _ H Ht) as HF. unfold task_rcv_blocks in HF.
  rewrite Hr in HF. cbn [pend_blocks] in HF. rewrite Z.add_0_r in HF.
  assert (Hrec : forall p q, queues s !! p = Some q -> t ∉ q_receivers q).
  { intros p q Hp. rewrite (lw_rcv _ _ _ _ (inv_link _ _ _ _ H _ _ Hp)).
    intros (x & E & _). congruence. }
  assert (Hsnd : forall p q, queues s !! p = Some q -> s_list m <> Some p -> t ∉ q_senders q).
  { intros p q Hp Hne. rewrite (lw_snd _ _ _ _ (inv_link _ _ _ _ H _ _ Hp)).
    intros (x & E & E'). congruence. }
  assert (Hnone : s_list m = None -> set_senders (delete t) s0 = forget t s).
  { intros E. unfold s0, forget. sys_eq.
    - symmetry. apply fmap_unlink_q_none. intros p q Hp. split; [|eauto]. apply (Hsnd p); congruence.
    - symmetry. now apply delete_id. }
  split_and!; try (assumption || congruence).
  - unfold bind, ss_del. change (senders s0) with (senders s). rewrite Hs.
    destruct (s_list m) as [p|] eqn:El; [|unfold modify; now rewrite Hnone].
    pose proof (Hq p eq_refl) as Hat. destruct (Inv_queue_at _ _ _ _ _ _ H Hat) as [q Hp].
    rewrite (upd_q_eq p _ q) by exact Hp. unfold modify. f_equal. unfold s0, forget. sys_eq.
    + rewrite (fmap_unlink_q _ _ p q Hp).
      * unfold unlink_q. rewrite (unlink_fresh t (q_receivers q)) by eauto. now destruct q.
      * intros p' q' Hne Hp'. split; [|eauto]. apply (Hsnd p'); congruence.
    + symmetry. now apply delete_id.
  - intros Hn. destruct (s_list m) as [p|] eqn:El; [|auto].
    specialize (Hq p eq_refl). rewrite <- qat_queue_at in Hq. congruence.
Qed.

Lemma locked_forget t s : locked (forget t s) = forget t (locked s).
Proof. reflexivity. Qed.

Lemma forget_awake t s : sleeping (forget t s) !! t = None.
Proof. apply lookup_delete_eq. Qed.

Lemma msgsnd_resume_safe e msqid msg msgsz msgflg s :
  Inv false false 0 s -> sleeping s !! e_pid e = Some (PSnd msqid msg msgsz msgflg) ->
  let s0 := set_sleeping (delete (e_pid e)) s in
  exists r s', msgsnd_resume e msqid msg msgsz msgflg s0 = OK r s' /\
    Inv false false 0 s' /\ sleeps e (PSnd msqid msg msgsz msgflg) (returned r) s0 s'.
Proof.
  intros H Ht s0. unfold msgsnd_resume.
  pose proof (sender_forget _ _ _ (locked s) _ _ _ _ _ (Inv_locked _ _ _ H) Ht)
    as (Hid & Hm & -> & Ed & Hn & HF).
  pose proof (sender_forget _ _ _ s _ _ _ _ _ H Ht) as (_ & _ & _ & _ & Hn' & HF').
  assert (El : ipc_lock msqid s0 = match queue_at (msg_ids s) msqid with
                  | Some p => OK (Some p) (locked s0) | None => OK None s0 end).
  { exact (ipc_lock_eq msqid s0 Hid (inv_ids _ _ _ _ H) (inv_ary _ _ _ _ H)). }
  run El. destruct (queue_at (msg_ids s) msqid) as [p|] eqn:Hat.
  - change (set_sleeping (delete (e_pid e)) (locked s)) with (locked s0) in Ed.
    unfold bind at 1 in Ed. unfold bind at 1.
    destruct (ss_del (e_pid e) (locked s0)) as [[] s1|] eqn:E1; [|discriminate].
    run Ed. destruct (e_signal_pending e).
    + destruct (unlock_free_spec msqid 0 (forget (e_pid e) (locked s)) msg (Some (- EINTR)) HF)
        as [E HI].
      do 2 eexists. split; [exact E|]. now split.
    + destruct (msgsnd_retry_safe e msqid p msg msgflg 0 (forget (e_pid e) (locked s)))
        as (r & s' & E & HI & HS); try assumption; [apply forget_awake|].
      eauto.
  - fold s0 in Hn'. unfold bind at 1, modify. rewrite (Hn' eq_refl). run (free_msg_eq msg (forget (e_pid e) s)).
    do 2 eexists. split; [reflexivity|]. split; [|reflexivity].
    apply (Inv_heap' _ _ _ _ _ _ HF'). lia.
Qed.

(** ** Receiving *)

Lemma search_from_bound typ mode i found l k :
  search_from typ mode i found l = Some k ->
  found = Some k \/ (i <= k < i + length l)%nat.
Proof.
  revert typ i found. induction l as [|m l IH]; intros typ i found; cbn; [auto|].
  destruct (testmsg m typ mode).
  - destruct (_ && _).
    + intros [[= ->]|?]%IH; lia.
    + intros [= ->]. lia.
  - intros [?|?]%IH; [auto | lia].
Qed.

Lemma search_msg_bound typ mode l k : search_msg typ mode l = Some k -> exists m, l !! k = Some m.
Proof.
  intros [|]%search_from_bound; [discriminate|]. apply lookup_lt_is_Some. lia.
Qed.

Lemma msgrcv_success_safe e msg msgsz space d s :
  Inv false false (d + msg_blocks msg) s -> msg_ok msg ->
  exists r, msgrcv_success e msg msgsz space s = OK r (add_heap (- msg_blocks msg) s) /\
    Inv false false d (add_heap (- msg_blocks msg) s).
Proof.
  intros H Hm. unfold msgrcv_success. set (n := if _ <? _ then _ else _).
  assert (Hn : n <= m_ts msg) by (unfold n; split_if; lia).
  destruct (store_msg_ok e msg n space s Hm Hn) as (rc & text & E).
  match goal with |- context [bind ?m ?k s] =>
    assert (exists r, m s = OK r s) as [r Er]
  end.
  { destruct space; [destruct (e_copy e 0)|]; cbn [negb]; try (run E); eexists; reflexivity. }
  run Er. run (free_msg_eq msg s). eexists. split; [reflexivity|].
  apply (Inv_heap' _ _ _ _ _ _ H). lia.
Qed.

Lemma msgrcv_retry_safe e msqid p msgsz msgtyp mode msgflg space d s :
  Inv false true d s -> queue_at (msg_ids s) msqid = Some p -> 0 <= msqid ->
  sleeping s !! e_pid e = None ->
  exists r s', msgrcv_retry e msqid p msgsz msgtyp mode msgflg space s = OK r s' /\
    Inv false false d s' /\
    sleeps e (PRcv msqid p msgsz msgtyp mode msgflg space) (returned r) s s'.
Proof.
  intros H Hat Hid Hsl. destruct (Inv_queue_at _ _ _ _ _ _ H Hat) as [q Hp].
  unfold msgrcv_retry. run (deref_q_eq p q s Hp).
  destruct (unlock_spec msqid _ _ _ H) as [Eu HU].
  assert (Hfail : forall x : reply, exists r s',
    (ipc_unlock msqid ;; ret (Some x)) s = OK r s' /\ Inv false false d s' /\
    sleeps e (PRcv msqid p msgsz msgtyp mode msgflg space) (returned r) s s').
  { intros x. exists (Some x), (unlocked s). split; [now run Eu | now split]. }
  destruct (ipc_checkid _ _); [apply Hfail|]. destruct (negb _); [apply Hfail|].
  destruct (search_msg msgtyp mode (q_messages q)) as [i|] eqn:Es.
  - destruct (search_msg_bound _ _ _ _ Es) as [msg Hi]. rewrite Hi.
    destruct (_ && _); [apply Hfail|].
    match goal with |- context [upd_q p ?f] => change f with (dequeued e i msg) end.
    run (upd_q_eq p (dequeued e i msg) q s Hp). unfold bind at 1, modify.
    pose proof (Inv_dequeue _ _ _ _ _ _ e _ _ H Hp Hi) as HD. set (s1 := set_atomics _ _ _) in *.
    run (ss_wakeup_eq (q_senders q) s1).
    apply (Inv_set_woken _ _ _ (rev (q_senders q) ++ woken s1)) in HD. set (s2 := set_woken _ s1) in *.
    destruct (unlock_spec msqid _ _ _ HD) as [Eu2 HU2]. run Eu2.
    assert (Hm : msg_ok msg).
    { eapply Forall_lookup_1; [apply (inv_queue _ _ _ _ H _ _ Hp) | exact Hi]. }
    destruct (msgrcv_success_safe e msg msgsz space _ _ HU2 Hm) as (r & E & HI). run E.
    do 2 eexists. split; [reflexivity|]. now split.
  - destruct (negb _); [apply Hfail|].
    run (upd_q_eq p (fun q => msq_with_receivers (q_receivers q ++ [e_pid e]) q) q s Hp).
    unfold bind at 1, modify at 1.
    set (mx := if negb _ then _ else _).
    pose proof (Inv_sleep_rcv _ _ _ _ _ _ _ msqid msgsz msgtyp mode msgflg space mx H Hsl Hp Hid Hat) as HS.
    unfold ipc_unlock, spin_unlock. unfold bind at 1. cbn_sys. rewrite (inv_ary _ _ _ _ H).
    destruct (unlock_spec msqid _ _ _ HS) as [_ HV].
    unfold bind, modify, ret. do 2 eexists. split; [reflexivity|]. split; [exact HV | reflexivity].
Qed.

Lemma rt_msgrcv_safe e msqid msgsz msgtyp msgflg space s :
  Inv false false 0 s -> sleeping s !! e_pid e = None ->
  exists r s' pd, _rt_msgrcv e msqid msgsz msgtyp msgflg space s = OK r s' /\
    Inv false false 0 s' /\ sleeps e pd (returned r) s s'.
Proof.
  intros H Hsl. unfold _rt_msgrcv.
  assert (Hout : forall x : reply, exists r s' pd, ret (Some x) s = OK (F := fault_kind) r s' /\
    Inv false false 0 s' /\ sleeps e pd (returned r) s s').
  { intros x. exists (Some x), s, (PRcv 0 0 0 0 0 0 true). now split_and!. }
  destruct (_ || _) eqn:Eg; [apply Hout|]. bool_to_prop.
  destruct (convert_mode _ _) as [mode typ].
  pose proof (lock_spec msqid _ _ _ ltac:(lia) H) as El. run El.
  destruct (queue_at (msg_ids s) msqid) as [p|] eqn:Hat; [|apply Hout].
  destruct (msgrcv_retry_safe e msqid p (u32 msgsz) typ mode msgflg space 0 (locked s))
    as (r & s' & E & HI & HS); try (assumption || lia); [now apply Inv_locked|].
  eauto 10.
Qed.

(** What the invariant says of a sleeping receiver, and the memory once its
    stack frame is gone. *)
Lemma receiver_forget sem ary d s t msqid msq sz ty mo fl sp :
  Inv sem ary d s -> sleeping s !! t = Some (PRcv msqid msq sz ty mo fl sp) ->
  let s0 := set_sleeping (delete t) s in
  0 <= msqid /\ exists r, receivers s !! t = Some r /\
  Inv sem ary (d + rcv_blocks r) (forget t s) /\
  match r_msg r with
  | inr err =>
      if err =? - EAGAIN then
        queue_at (msg_ids s) msqid = Some msq /\
        (rcv_list_del t ;; modify (set_receivers (delete t))) s0 = OK tt (forget t s)
      else set_receivers (delete t) s0 = forget t s
  | inl m => msg_ok m /\ set_receivers (delete t) s0 = forget t s
  end.
Proof.
  intros H Ht s0. pose proof (inv_task _ _ _ _ H t) as Hw. rewrite Ht in Hw. cbn in Hw.
  destruct Hw as (Hid & Hs & r & Hr & Htsk & Hmsg). split; [assumption|]. exists r. split; [assumption|].
  pose proof (Inv_forget _ _ _ _ _ _ H Ht) as HF. unfold task_rcv_blocks in HF.
  rewrite Hr in HF. cbn [pend_blocks] in HF. rewrite Z.add_0_r in HF. split; [assumption|].
  assert (Hsnd : forall p q, queues s !! p = Some q -> t ∉ q_senders q).
  { intros p q Hp. rewrite (lw_snd _ _ _ _ (inv_link _ _ _ _ H _ _ Hp)).
    intros (x & E & _). congruence. }
  assert (Hnone : r_msg r <> inr (- EAGAIN) -> set_receivers (delete t) s0 = forget t s).
  { intros E. unfold s0, forget. sys_eq.
    - symmetry. apply fmap_unlink_q_none. intros p q Hp. split; [eauto|].
      rewrite (lw_rcv _ _ _ _ (inv_link _ _ _ _ H _ _ Hp)). intros (x & ? & ? & ?). congruence.
    - symmetry. now apply delete_id. }
  destruct (r_msg r) as [m|err] eqn:Em; [split; [assumption | apply Hnone; discriminate]|].
  destruct (Z.eqb_spec err (- EAGAIN)) as [->|Hne]; [|apply Hnone; congruence].
  destruct (Hmsg eq_refl) as [Hl Hat]. split; [exact Hat|].
  destruct (Inv_queue_at _ _ _ _ _ _ H Hat) as [q Hp].
  run (rcv_list_del_eq t r msq q s0 Hr Hl Hp). unfold modify. f_equal. unfold s0, forget. sys_eq.
  - rewrite (fmap_unlink_q _ _ msq q Hp).
    + unfold unlink_q. rewrite (unlink_fresh t (q_senders _)) by exact (Hsnd _ _ Hp). now destruct q.
    + intros p' q' Hne Hp'. split; [eauto|].
      rewrite (lw_rcv _ _ _ _ (inv_link _ _ _ _ H _ _ Hp')). intros (x & ? & ? & ?). congruence.
  - apply delete_insert_eq.
  - symmetry. now apply delete_id.
Qed.

(** The exits of [_rt_msgrcv] after a sleep: the lock is given back when the
    identifier was still valid, and the stack frame goes. *)
Lemma resume_exit {A} (o : option Z) msqid t (k : cmd A) s :
  0 <= msqid -> ids_ary (msg_ids s) = false ->
  bind (if negb (match o with None => -1 | Some _ => msqid end =? -1)
        then ipc_unlock (match o with None => -1 | Some _ => msqid end) else ret tt)
    (fun _ => bind (modify (set_receivers (delete t))) (fun _ => k))
    (match o with Some _ => locked s | None => s end)
  = k (set_receivers (delete t) s).
Proof.
  intros Hid Ha. destruct o; [|reflexivity].
  rewrite (proj2 (Z.eqb_neq msqid (-1))) by lia. cbn [negb].
  assert (Eu : ipc_unlock msqid (locked s) = OK tt s).
  { unfold ipc_unlock, spin_unlock. cbn_sys. cbn [ids_ary ids_with_locks].
    f_equal. sys_eq. destruct (msg_ids s); cbn in *. now rewrite Ha. }
  now run Eu.
Qed.

Lemma msgrcv_resume_safe e msqid msq sz ty mo fl sp s :
  Inv false false 0 s -> sleeping s !! e_pid e = Some (PRcv msqid msq sz ty mo fl sp) ->
  let s0 := set_sleeping (delete (e_pid e)) s in
  exists r s', msgrcv_resume e msqid msq sz ty mo fl sp s0 = OK r s' /\
    Inv false false 0 s' /\ sleeps e (PRcv msqid msq sz ty mo fl sp) (returned r) s0 s'.
Proof.
  intros H Ht s0. unfold msgrcv_resume.
  destruct (receiver_forget _ _ _ s _ _ _ _ _ _ _ _ H Ht) as (Hid & r & Hr & HF & Hcase).
  destruct (receiver_forget _ _ _ (locked s) _ _ _ _ _ _ _ _ (Inv_locked _ _ _ H) Ht)
    as (_ & r' & Hr' & HF' & Hcase').
  assert (r' = r) as -> by (change (receivers (locked s)) with (receivers s) in Hr'; congruence).
  fold s0 in Hcase. change (set_sleeping (delete (e_pid e)) (locked s)) with (locked s0) in Hcase'.
  assert (El : ipc_lock msqid s0 = OK (queue_at (msg_ids s) msqid)
     (match queue_at (msg_ids s) msqid with Some _ => locked s0 | None => s0 end)).
  { rewrite (ipc_lock_eq msqid s0 Hid (inv_ids _ _ _ _ H) (inv_ary _ _ _ _ H)).
    change (queue_at (msg_ids s0) msqid) with (queue_at (msg_ids s) msqid).
    now destruct (queue_at _ _). }
  run El. unfold bind at 1, deref_r.
  replace (receivers _ !! e_pid e) with (Some r)
    by (destruct (queue_at (msg_ids s) msqid); symmetry; exact Hr).
  pose proof (inv_ary _ _ _ _ H) as Ha. change (ids_ary (msg_ids s0) = false) in Ha.
  unfold rcv_blocks in HF, HF'. destruct (r_msg r) as [msg|err].
  - rewrite resume_exit by assumption. destruct Hcase as [Hm ->].
    destruct (msgrcv_success_safe e msg sz sp 0 _ HF Hm) as (rp & E & HI). run E.
    do 2 eexists. split; [reflexivity|]. now split.
  - rewrite Z.add_0_r in HF, HF'. destruct (err =? - EAGAIN).
    + destruct Hcase' as [Hat Ed]. change (queue_at (msg_ids (locked s)) msqid)
        with (queue_at (msg_ids s) msqid) in Hat. rewrite Hat.
      rewrite (proj2 (Z.eqb_neq msqid (-1))) by lia. unfold bind at 1 in Ed. unfold bind at 1.
      destruct (rcv_list_del (e_pid e) (locked s0)) as [[] s1|] eqn:E1; [|discriminate].
      run Ed. destruct (e_signal_pending e).
      * destruct (unlock_spec msqid _ _ _ HF') as [Eu HU]. run Eu.
        do 2 eexists. split; [reflexivity|]. now split.
      * destruct (msgrcv_retry_safe e msqid msq sz ty mo fl sp 0 (forget (e_pid e) (locked s)))
          as (rp & s' & E & HI & HS); try assumption; [apply forget_awake|]. eauto.
    + rewrite resume_exit by assumption. rewrite Hcase.
      do 2 eexists. split; [reflexivity|]. now split.
Qed.
