(* ===== verification/SysvSearch.v ===== *)
(** * Which message msgrcv takes

    The loop of [_rt_msgrcv] over the messages of a queue, with its early stop
    and the bound it lowers on the way, against the definition of the message
    to take. *)

From stdpp Require Import base tactics numbers list.
From S2P Require Import Prelude SysvState SysvMsg.

(** [k] is the message to take: it passes [testmsg]; no earlier message does,
    or in [SEARCH_LESSEQUAL] mode no message of a lower type and no earlier one
    of the same type does. *)
Definition best (typ mode : Z) (l : list msg_msg) (k : nat) : Prop :=
  exists m, l !! k = Some m /\ testmsg m typ mode = true /\
    forall j m', l !! j = Some m' -> testmsg m' typ mode = true ->
      if mode =? SEARCH_LESSEQUAL
      then m_type m < m_type m' \/ (m_type m = m_type m' /\ (k <= j)%nat)
      else (k <= j)%nat.

Lemma testmsg_lesseq m typ : testmsg m typ SEARCH_LESSEQUAL = (m_type m <=? typ).
Proof. reflexivity. Qed.

Lemma best_unique typ mode l k1 k2 : best typ mode l k1 -> best typ mode l k2 -> k1 = k2.
Proof.
  intros (m1 & E1 & T1 & H1) (m2 & E2 & T2 & H2).
  specialize (H1 _ _ E2 T2). specialize (H2 _ _ E1 T1). destruct (_ =? _); lia.
Qed.

(** A message that does not match can be skipped. *)
Lemma best_skip typ mode m l k :
  testmsg m typ mode = false -> best typ mode l k -> best typ mode (m :: l) (S k).
Proof.
  intros Hm (x & E & T & H). exists x. split_and!; [exact E | exact T|].
  intros [|j] m' Hj Hm'; [cbn in Hj; congruence|].
  specialize (H j m' Hj Hm'). destruct (_ =? _); lia.
Qed.

(** In [SEARCH_LESSEQUAL] mode a match lowers the bound. *)
Lemma best_lower typ m l k :
  m_type m <= typ -> best (m_type m - 1) SEARCH_LESSEQUAL l k ->
  best typ SEARCH_LESSEQUAL (m :: l) (S k).
Proof.
  intros Hm (x & E & T & H). rewrite testmsg_lesseq in T. bool_to_prop.
  exists x. split_and!; [exact E | rewrite testmsg_lesseq; lia |].
  intros [|j] m' Hj Hm'; rewrite testmsg_lesseq in Hm'; change (SEARCH_LESSEQUAL =? SEARCH_LESSEQUAL) with true;
    cbn beta iota in *; bool_to_prop.
  - injection Hj as <-. lia.
  - destruct (Z.leb_spec (m_type m') (m_type m - 1)) as [Hle|Hgt]; [|lia].
    specialize (H j m' Hj). rewrite testmsg_lesseq in H. specialize (H ltac:(lia)).
    cbn in H. lia.
Qed.

Lemma best_here typ mode m l :
  testmsg m typ mode = true -> (mode = SEARCH_LESSEQUAL -> Forall (fun x => m_type m <= m_type x) l) ->
  best typ mode (m :: l) 0.
Proof.
  intros Hm Hl. exists m. split_and!; [reflexivity | exact Hm|]. intros j m' Hj _.
  destruct (Z.eqb_spec mode SEARCH_LESSEQUAL) as [E|_]; [|lia].
  specialize (Hl E). destruct j as [|j]; [injection Hj as <-; lia|].
  pose proof (Forall_lookup_1 _ _ _ _ Hl Hj) as H. cbn in H. lia.
Qed.

Lemma search_from_spec typ mode i found l :
  Forall (fun m => 1 <= m_type m) l ->
  (exists k, search_from typ mode i found l = Some (i + k)%nat /\ best typ mode l k) \/
  (search_from typ mode i found l = found /\ Forall (fun m => testmsg m typ mode = false) l).
Proof.
  intros Hl. revert typ i found. induction Hl as [|m l Hm Hl IH]; intros typ i found; cbn.
  { right. split; [reflexivity | constructor]. }
  destruct (testmsg m typ mode) eqn:Et; cycle 1.
  { destruct (IH typ (S i) found) as [(k & E & Hk)|[E Hk]].
    - left. exists (S k). split; [rewrite E; f_equal; lia | now apply best_skip].
    - right. split; [exact E | now constructor]. }
  left. destruct (Z.eqb_spec mode SEARCH_LESSEQUAL) as [->|Hmode]; cbn [andb].
  - rewrite testmsg_lesseq in Et. bool_to_prop. destruct (Z.eqb_spec (m_type m) 1) as [E1|E1]; cbn [negb].
    + exists 0%nat. split; [f_equal; lia|].
      apply best_here; [rewrite testmsg_lesseq; lia|]. intros _. now rewrite E1.
    + destruct (IH (m_type m - 1) (S i) (Some i)) as [(k & E & Hk)|[E Hk]].
      * exists (S k). split; [rewrite E; f_equal; lia | now apply best_lower].
      * exists 0%nat. split; [rewrite E; f_equal; lia|].
        apply best_here; [rewrite testmsg_lesseq; lia|]. intros _.
        eapply Forall_impl; [exact Hk|]. intros x Hx. cbv beta in Hx. rewrite testmsg_lesseq in Hx. bool_to_prop. lia.
  - exists 0%nat. split; [f_equal; lia|]. apply best_here; [exact Et | congruence].
Qed.

Lemma search_msg_spec typ mode l :
  Forall (fun m => 1 <= m_type m) l ->
  match search_msg typ mode l with
  | Some k => best typ mode l k
  | None => Forall (fun m => testmsg m typ mode = false) l
  end.
Proof.
  intros Hl. unfold search_msg. destruct (search_from_spec typ mode 0 None l Hl) as [(k & -> & Hk)|[-> Hk]];
    assumption.
Qed.

(** ** The contract of msgrcv(2)

    A mailbox is a list of typed texts.  [wanted] and [pick] say which message a
    call with the arguments [msgtyp] and [msgflg] removes. *)

Abbreviation mail := (Z * list Z)%type.

Definition wanted (msgtyp msgflg : Z) (m : mail) : bool :=
  if msgtyp =? 0 then true
  else if msgtyp <? 0 then fst m <=? - msgtyp
  else if negb (Z.land msgflg MSG_EXCEPT =? 0) then negb (fst m =? msgtyp)
  else fst m =? msgtyp.

(** Index of the first mail satisfying [P]. *)
Fixpoint first_index (P : mail -> bool) (l : list mail) : option nat :=
  match l with
  | [] => None
  | m :: l' => if P m then Some 0%nat else S <$> first_index P l'
  end.

(** The lowest type among the mails satisfying [P]. *)
Fixpoint lowest (P : mail -> bool) (l : list mail) : option Z :=
  match l with
  | [] => None
  | m :: l' =>
      let r := lowest P l' in
      if P m then Some (match r with Some t => Z.min (fst m) t | None => fst m end) else r
  end.

Definition pick (msgtyp msgflg : Z) (l : list mail) : option nat :=
  if msgtyp <? 0 then
    match lowest (wanted msgtyp msgflg) l with
    | Some t => first_index (fun m => fst m =? t) l
    | None => None
    end
  else first_index (wanted msgtyp msgflg) l.

(** The same by the comment of [convert_mode], which wants a type below the
    opposite of a negative [msgtyp] where [testmsg] takes that type too. *)
Definition documented (msgtyp msgflg : Z) (m : mail) : bool :=
  if msgtyp <? 0 then fst m <? - msgtyp else wanted msgtyp msgflg m.

Definition pick_documented (msgtyp msgflg : Z) (l : list mail) : option nat :=
  if msgtyp <? 0 then
    match lowest (documented msgtyp msgflg) l with
    | Some t => first_index (fun m => fst m =? t) l
    | None => None
    end
  else first_index (documented msgtyp msgflg) l.

Lemma first_index_ext P Q l : Forall (fun m => P m = Q m) l -> first_index P l = first_index Q l.
Proof. induction 1 as [|m l E _ IH]; cbn; [reflexivity|]. now rewrite E, IH. Qed.

Lemma lowest_ext P Q l : Forall (fun m => P m = Q m) l -> lowest P l = lowest Q l.
Proof. induction 1 as [|m l E _ IH]; cbn; [reflexivity|]. now rewrite E, IH. Qed.

(** They differ on that type only. *)
Lemma pick_documented_eq msgtyp msgflg l :
  (msgtyp < 0 -> Forall (fun m => fst m <> - msgtyp) l) ->
  pick_documented msgtyp msgflg l = pick msgtyp msgflg l.
Proof.
  intros Hl. assert (E : Forall (fun m => documented msgtyp msgflg m = wanted msgtyp msgflg m) l).
  { unfold documented, wanted. destruct (Z.ltb_spec msgtyp 0) as [Hn|_]; [|now apply Forall_forall].
    eapply Forall_impl; [exact (Hl Hn)|]. intros m Hm. cbn in *. rewrite (proj2 (Z.eqb_neq msgtyp 0)) by lia.
    destruct (Z.ltb_spec (fst m) (- msgtyp)), (Z.leb_spec (fst m) (- msgtyp)); (reflexivity || lia). }
  unfold pick_documented, pick. now rewrite (lowest_ext _ _ _ E), (first_index_ext _ _ _ E).
Qed.

Lemma first_index_spec P l :
  match first_index P l with
  | Some k => exists m, l !! k = Some m /\ P m = true /\
                forall j m', l !! j = Some m' -> P m' = true -> (k <= j)%nat
  | None => Forall (fun m => P m = false) l
  end.
Proof.
  induction l as [|m l IH]; cbn; [constructor|]. destruct (P m) eqn:E.
  - exists m. split_and!; [reflexivity | exact E | intros; lia].
  - destruct (first_index P l) as [k|]; cbn.
    + destruct IH as (x & Hk & Hx & Hmin). exists x. split_and!; [exact Hk | exact Hx|].
      intros [|j] m' Hj Hm'; [cbn in Hj; congruence|]. specialize (Hmin j m' Hj Hm'). lia.
    + now constructor.
Qed.

Lemma lowest_spec P l :
  match lowest P l with
  | Some t => (exists m, m ∈ l /\ P m = true /\ fst m = t) /\
              (forall m, m ∈ l -> P m = true -> t <= fst m)
  | None => Forall (fun m => P m = false) l
  end.
Proof.
  induction l as [|m l IH]; cbn; [constructor|]. destruct (P m) eqn:E.
  - destruct (lowest P l) as [t|].
    + destruct IH as [(x & Hx & Px & Ex) Hmin]. split.
      * destruct (Z.min_spec (fst m) t) as [[_ ->]|[_ ->]]; [exists m | exists x];
          split_and!; try assumption; try reflexivity; now constructor.
      * intros y [->|Hy]%elem_of_cons Py; [lia|]. specialize (Hmin y Hy Py). lia.
    + split; [exists m; split_and!; [constructor | exact E | reflexivity]|].
      intros y [->|Hy]%elem_of_cons Py; [lia|]. rewrite Forall_forall in IH.
      rewrite IH in Py by assumption. discriminate.
  - destruct (lowest P l) as [t|]; [|now constructor].
    destruct IH as [(x & Hx & Px & Ex) Hmin]. split.
    + exists x. split_and!; try assumption. now constructor.
    + intros y [->|Hy]%elem_of_cons Py; [congruence | auto].
Qed.

(** What [convert_mode] makes of the arguments, except for the most negative
    [long], whose opposite is itself. *)
Lemma convert_mode_wanted msgtyp msgflg m x :
  - 2 ^ 31 < msgtyp < 2 ^ 31 ->
  let '(mode, typ) := convert_mode msgtyp msgflg in
  testmsg m typ mode = wanted msgtyp msgflg (m_type m, x) /\
  (mode =? SEARCH_LESSEQUAL) = (msgtyp <? 0).
Proof.
  intros Hr. unfold convert_mode, wanted. destruct (Z.eqb_spec msgtyp 0) as [->|H0]; [now split|].
  destruct (Z.ltb_spec msgtyp 0).
  - split; [|reflexivity]. rewrite testmsg_lesseq, wrap_s_id by lia. reflexivity.
  - destruct (negb (Z.land msgflg MSG_EXCEPT =? 0)); now split.
Qed.

Section Mails.

(** How a message of the queue reads as a mail. *)
Variable text : msg_msg -> list Z.
Let mail_of (m : msg_msg) : mail := (m_type m, text m).

Lemma pick_best msgtyp msgflg l :
  - 2 ^ 31 < msgtyp < 2 ^ 31 ->
  let '(mode, typ) := convert_mode msgtyp msgflg in
  match pick msgtyp msgflg (mail_of <$> l) with
  | Some k => best typ mode l k
  | None => Forall (fun m => testmsg m typ mode = false) l
  end.
Proof.
  intros Hr.
  assert (Hw := fun m => convert_mode_wanted msgtyp msgflg m (text m) Hr).
  destruct (convert_mode msgtyp msgflg) as [mode typ].
  assert (Hnone : forall P, Forall (fun m => P m = false) (mail_of <$> l) ->
            (forall m, P (mail_of m) = testmsg m typ mode) ->
            Forall (fun m => testmsg m typ mode = false) l).
  { intros P HF HP. rewrite Forall_fmap in HF. eapply Forall_impl; [exact HF|].
    intros m Hm. cbn in Hm. now rewrite HP in Hm. }
  unfold pick, best. destruct (Z.ltb_spec msgtyp 0) as [Hneg|Hpos].
  - pose proof (lowest_spec (wanted msgtyp msgflg) (mail_of <$> l)) as HL.
    destruct (lowest _ _) as [t|]; cycle 1.
    { apply (Hnone _ HL). intros m. symmetry. apply Hw. }
    destruct HL as [(x & Hx & Px & Ex) Hmin].
    apply list_elem_of_lookup_1 in Hx as [jx Hjx].
    pose proof (first_index_spec (fun m => fst m =? t) (mail_of <$> l)) as HI.
    destruct (first_index _ _) as [k|]; cycle 1.
    { pose proof (Forall_lookup_1 _ _ _ _ HI Hjx) as Hf. cbn in Hf. lia. }
    destruct HI as (y & Hk & Hy & Hfirst).
    rewrite list_lookup_fmap in Hk. destruct (l !! k) as [m|] eqn:Hm; [|discriminate].
    injection Hk as <-. cbn in Hy. bool_to_prop.
    assert (Hwm : wanted msgtyp msgflg (mail_of m) = true).
    { unfold wanted in *. destruct (_ =? 0); [reflexivity|]. destruct (Z.ltb_spec msgtyp 0); [|lia].
      cbn [fst mail_of]. rewrite Hy, <- Ex. exact Px. }
    exists m. split_and!; [reflexivity | destruct (Hw m) as [-> _]; exact Hwm|].
    intros j m' Hj Hm'. destruct (Hw m) as [_ ->]. destruct (Z.ltb_spec msgtyp 0) as [_|]; [|lia].
    assert (Hj' : (mail_of <$> l) !! j = Some (mail_of m')) by (now rewrite list_lookup_fmap, Hj).
    destruct (Hw m') as [Ht _]. rewrite Ht in Hm'.
    specialize (Hmin (mail_of m') (list_elem_of_lookup_2 _ _ _ Hj') Hm'). cbn in Hmin.
    destruct (Z.eq_dec (m_type m) (m_type m')) as [E|E]; [|left; lia].
    right. split; [exact E|]. apply (Hfirst _ _ Hj'). cbn. lia.
  - pose proof (first_index_spec (wanted msgtyp msgflg) (mail_of <$> l)) as HI.
    destruct (first_index _ _) as [k|]; cycle 1.
    { apply (Hnone _ HI). intros m. symmetry. apply Hw. }
    destruct HI as (y & Hk & Hy & Hfirst).
    rewrite list_lookup_fmap in Hk. destruct (l !! k) as [m|] eqn:Hm; [|discriminate].
    injection Hk as <-. exists m. split_and!; [reflexivity | destruct (Hw m) as [-> _]; exact Hy|].
    intros j m' Hj Hm'. destruct (Hw m) as [_ ->]. destruct (Z.ltb_spec msgtyp 0) as [|_]; [lia|].
    apply (Hfirst j (mail_of m')); [now rewrite list_lookup_fmap, Hj|].
    destruct (Hw m') as [Ht _]. now rewrite Ht in Hm'.
Qed.

(** The search of the code takes the message the contract says. *)
Lemma search_pick msgtyp msgflg l :
  - 2 ^ 31 < msgtyp < 2 ^ 31 -> Forall (fun m => 1 <= m_type m) l ->
  search_msg (snd (convert_mode msgtyp msgflg)) (fst (convert_mode msgtyp msgflg)) l
    = pick msgtyp msgflg (mail_of <$> l).
Proof.
  intros Hr Hl. pose proof (pick_best msgtyp msgflg l Hr) as HP.
  destruct (convert_mode msgtyp msgflg) as [mode typ]. cbn [fst snd].
  pose proof (search_msg_spec typ mode l Hl) as HS.
  destruct (search_msg typ mode l) as [k|], (pick msgtyp msgflg (mail_of <$> l)) as [k'|].
  - f_equal. exact (best_unique _ _ _ _ _ HS HP).
  - destruct HS as (m & Hm & Ht & _). pose proof (Forall_lookup_1 _ _ _ _ HP Hm). cbn in *. congruence.
  - destruct HP as (m & Hm & Ht & _). pose proof (Forall_lookup_1 _ _ _ _ HS Hm). cbn in *. congruence.
  - reflexivity.
Qed.

End Mails.
