(* ===== verification/SysvSystem.v ===== *)
(** * The message queue module as a transition system

    Tasks enter the module through the four system calls and, once
    [schedule()] returns, resume a call that sleeps; each step runs up to the
    return of the call or to its next [schedule()].  The theorems hold in every
    state the module reaches, whatever its callers do. *)

From stdpp Require Import base tactics numbers list gmap relations.
From S2P Require Import Prelude.
From S2P Require Import SysvState.
From S2P Require Import IpcUtil.
From S2P Require Import IpcFacts.
From S2P Require Import SysvMsg.
From S2P Require Import MsgText.
From S2P Require Import SysvInv.
From S2P Require Import SysvOps.
From S2P Require Import SysvTransfer.

(** ** Steps *)

(** The calls of [rtai_sysvmsg.h], and the return from [schedule()]. *)
Inductive call :=
| CallGet (key msgflg : Z)
| CallCtl (msqid cmd : Z) (buf : ctl_buf) (space : bool)
| CallSnd (msqid mtype : Z) (mtext : list Z) (msgsz msgflg : Z) (space : bool)
| CallRcv (msqid msgsz msgtyp msgflg : Z) (space : bool)
| Resume.

Inductive answer :=
| AnsGet (r : Z)
| AnsCtl (r : Z) (out : ctl_out)
| AnsSnd (r : option Z)
| AnsRcv (r : option reply).

(** The code after [schedule()], for the task [e_pid e]. *)
Definition resume (e : env) (pd : pending) : cmd answer :=
  modify (set_sleeping (delete (e_pid e))) ;;
  match pd with
  | PSnd msqid msg msgsz msgflg =>
      let! r := msgsnd_resume e msqid msg msgsz msgflg in ret (AnsSnd r)
  | PRcv msqid msq msgsz msgtyp mode msgflg space =>
      let! r := msgrcv_resume e msqid msq msgsz msgtyp mode msgflg space in ret (AnsRcv r)
  end.

Definition run_call (e : env) (c : call) : cmd answer :=
  match c with
  | CallGet key msgflg => let! r := rt_msgget e key msgflg in ret (AnsGet r)
  | CallCtl msqid cmd buf space =>
      let! r := _rt_msgctl e msqid cmd buf space in ret (AnsCtl (fst r) (snd r))
  | CallSnd msqid mtype mtext msgsz msgflg space =>
      let! r := _rt_msgsnd e msqid mtype mtext msgsz msgflg space in ret (AnsSnd r)
  | CallRcv msqid msgsz msgtyp msgflg space =>
      let! r := _rt_msgrcv e msqid msgsz msgtyp msgflg space in ret (AnsRcv r)
  | Resume =>
      let! s := get in
      match sleeping s !! e_pid e with
      | Some pd => resume e pd
      | None => fault F_BUG
      end
  end.

(** A sleeping task can only resume, another can only call. *)
Definition allowed (e : env) (c : call) (s : sys) : Prop :=
  match c with
  | Resume => is_Some (sleeping s !! e_pid e)
  | _ => sleeping s !! e_pid e = None
  end.

#[export] Instance allowed_dec e c s : Decision (allowed e c s).
Proof. destruct c; cbn; apply _. Defined.

Inductive step (s : sys) : sys -> Prop :=
| Step e c a s' : allowed e c s -> run_call e c s = OK a s' -> step s s'.

(** Memory before the module is loaded, and after [msg_init]. *)
Definition unloaded : sys :=
  SYS (IDS 0 0 (-1) 0 0 false false []) 0 0 ∅ 1 ∅ ∅ ∅ 0 [].

Definition booted (e : env) (s : sys) : Prop := msg_init e unloaded = OK tt s.

Definition reachable (s : sys) : Prop := exists e s0, booted e s0 /\ rtc step s0 s.

(** ** The invariant holds in every reachable state *)

Lemma ids_wf_init n : 0 <= n <= msg_ctlmni ->
  ids_wf (IDS n 0 (-1) 0 65535 false false (replicate (Z.to_nat n) None)).
Proof.
  intros Hn. constructor; cbn; try lia.
  - rewrite length_replicate. lia.
  - split_and!; [lia | rewrite length_replicate; lia | lia |].
    intros i p Hi. apply lookup_replicate in Hi as [Hi _]. discriminate.
  - induction (Z.to_nat n) as [|k IH]; [reflexivity|]. cbn [replicate]. unfold used in *.
    rewrite sumZ_cons, <- IH. reflexivity.
Qed.

Lemma booted_Inv e s : booted e s -> Inv false false 0 s.
Proof.
  unfold booted, msg_init, ipc_init_ids. intros E.
  assert (exists n, (n = 0 \/ n = 16) /\
    s = SYS (IDS n 0 (-1) 0 65535 false false (replicate (Z.to_nat n) None)) 0 0 ∅ 1 ∅ ∅ ∅
            (if 0 <? n then 1 else 0) []) as (n & Hn & ->).
  { unfold bind, ipc_alloc, kmalloc in E. destruct (e_alloc e 0); cbn in E; injection E as <-;
      [exists 16 | exists 0]; split; auto. }
  constructor; cbn; try reflexivity.
  - apply ids_wf_init. unfold msg_ctlmni, MSGMNI. lia.
  - constructor; intros *; try (rewrite lookup_empty; discriminate); intros Hi;
      try (apply lookup_replicate in Hi as [Hi _]; discriminate); discriminate.
  - intros p q. rewrite lookup_empty. discriminate.
  - intros p q. rewrite lookup_empty. discriminate.
  - intros t. rewrite lookup_empty. cbn. now rewrite !lookup_empty.
  - rewrite !msum_empty. unfold tab_blocks. cbn. destruct Hn as [-> | ->]; reflexivity.
Qed.

(** The call runs to its end and the invariant is preserved. *)
Lemma run_call_safe e c s :
  Inv false false 0 s -> allowed e c s ->
  exists a s', run_call e c s = OK a s' /\ Inv false false 0 s'.
Proof.
  intros H Ha. destruct c; cbn [allowed run_call] in *.
  - destruct (rt_msgget_safe e key msgflg 0 s H) as (r & s' & E & HI & _). run E. eauto.
  - destruct (rt_msgctl_safe e msqid cmd buf space 0 s H) as (r & s' & E & HI & _). run E. eauto.
  - destruct (rt_msgsnd_safe e msqid mtype mtext msgsz msgflg space s H Ha)
      as (r & s' & pd & E & HI & _). run E. eauto.
  - destruct (rt_msgrcv_safe e msqid msgsz msgtyp msgflg space s H Ha)
      as (r & s' & pd & E & HI & _). run E. eauto.
  - unfold bind at 1, get. destruct Ha as [pd Hpd]. rewrite Hpd. unfold resume.
    unfold bind at 1, modify. destruct pd as [msqid msg sz fl|msqid msq sz ty mo fl sp].
    + destruct (msgsnd_resume_safe e msqid msg sz fl s H Hpd) as (r & s' & E & HI & _). run E. eauto.
    + destruct (msgrcv_resume_safe e msqid msq sz ty mo fl sp s H Hpd) as (r & s' & E & HI & _).
      run E. eauto.
Qed.

Lemma step_Inv s s' : Inv false false 0 s -> step s s' -> Inv false false 0 s'.
Proof.
  intros H [e c a s1 Ha E]. destruct (run_call_safe e c s H Ha) as (a' & s2 & E' & HI).
  rewrite E in E'. now injection E' as <- <-.
Qed.

Lemma reachable_Inv s : reachable s -> Inv false false 0 s.
Proof.
  intros (e & s0 & Hb & Hr). apply (rtc_invariant step _ s0); [|apply step_Inv | exact Hr].
  now apply (booted_Inv e).
Qed.
