(* ===== verification/SysvEffects.v ===== *)
(** * What the calls do: send, receive, create, remove

    The effect of each call on the queue it names, as equations; a queue is
    seen as a mailbox, a list of typed texts. *)

From stdpp Require Import base tactics numbers list gmap.
From S2P Require Import Prelude.
From S2P Require Import SysvState.
From S2P Require Import IpcUtil.
From S2P Require Import IpcFacts.
From S2P Require Import SysvMsg.
From S2P Require Import MsgText.
From S2P Require Import SysvInv.
From S2P Require Import SysvOps.
From S2P Require Import SysvTransfer.
From S2P Require Import SysvSearch.
From S2P Require Import SysvSystem.

(** ** Queues as mailboxes *)

Definition mail_of (m : msg_msg) : mail := (m_type m, payload m).
Definition mailbox (q : msg_queue) : list mail := mail_of <$> q_messages q.

(** The identifier [msqid] names queue [q], at [p], and the caller has the
    access [flag]. *)
Record opens (e : env) (s : sys) (msqid flag p : Z) (q : msg_queue) : Prop := {
  op_id : 0 <= msqid;
  op_at : queue_at (msg_ids s) msqid = Some p;
  op_queue : queues s !! p = Some q;
  op_check : ipc_checkid (q_perm q) msqid = false;
  op_perms : ipcperms e (q_perm q) flag = 0
}.

(** There is room for [msgsz] more bytes, with the arithmetic of the code. *)
Definition room (q : msg_queue) (msgsz : Z) : bool :=
  (u32 (msgsz + q_cbytes q) <=? q_qbytes q) && (u32 (1 + q_qnum q) <=? q_qbytes q).

Definition nowait (flg : Z) : bool := negb (Z.land flg IPC_NOWAIT =? 0).
Definition noerror (flg : Z) : bool := negb (Z.land flg MSG_NOERROR =? 0).

(** The message [_rt_msgsnd] builds. *)
Definition made (mtype : Z) (mtext : list Z) (msgsz : Z) : msg_msg :=
  MSG mtype msgsz (m_text (loaded mtext msgsz)) (m_next (loaded mtext msgsz)).

Lemma Inv_messages_ok sem ary d s p q :
  Inv sem ary d s -> queues s !! p = Some q -> Forall msg_ok (q_messages q).
Proof. intros H Hp. apply (inv_queue _ _ _ _ H _ _ Hp). Qed.

(** ** Sending *)

Lemma room_test q n :
  (q_qbytes q <? u32 (n + q_cbytes q)) || (q_qbytes q <? u32 (1 + q_qnum q)) = negb (room q n).
Proof. unfold room. rewrite negb_andb, <- !Z.ltb_antisym. reflexivity. Qed.

(** A send that finds room: the message goes to the receiver [choose] finds, or
    to the end of the mailbox. *)
Lemma msgsnd_retry_room e msqid p q msg msgflg d s :
  Inv false true d s -> opens e s msqid S_IWUGO p q -> msg_ok msg -> room q (m_ts msg) = true ->
  let c := choose (receivers s) msg (q_receivers q) in
  exists s' q', msgsnd_retry e msqid p msg (m_ts msg) msgflg s = OK (Some 0) s' /\
    queues s' !! p = Some q' /\
    q_messages q' = (if snd c is Some _ then q_messages q else q_messages q ++ [msg]) /\
    q_lspid q' = e_pid e /\ q_stime q' = e_get_seconds e /\ q_perm q' = q_perm q /\
    ids_entries (msg_ids s') = ids_entries (msg_ids s) /\ heap s' = heap s /\
    receivers s' = handed msg c (receivers s) /\ sleeping s' = sleeping s /\
    (forall p', p' <> p -> queues s' !! p' = queues s !! p').
Proof.
  intros H [Hid Hat Hp Hck Hpm] Hm Hroom c. unfold msgsnd_retry. run (deref_q_eq p q s Hp).
  rewrite Hck, Hpm. cbn [negb Z.eqb]. rewrite room_test, Hroom. cbn [negb].
  set (f := fun q0 : msg_queue => _). run (upd_q_eq p f q s Hp).
  assert (HQ : Inv false true d (set_queues <[p := f q]> s)).
  { apply (Inv_upd_members _ _ _ _ _ q); try (assumption || reflexivity);
      apply (inv_queue _ _ _ _ H _ _ Hp). }
  set (s1 := set_queues _ _) in *.
  assert (Hp1 : queues s1 !! p = Some (f q)) by apply lookup_insert_eq.
  destruct (pipelined_send_spec e p msg _ s1 (f q) HQ Hp1 Hm) as (s2 & E & HI & HK & HR).
  change (choose (receivers s1) msg (q_receivers (f q))) with c in *. run E.
  destruct (kept_queue _ _ _ HK _ Hp1) as (q' & Hq' & Em & Epm & _ & _ & _ & _ & El & Est).
  pose proof (kept_sleeping _ _ _ HK) as Esl. pose proof (kept_heap _ _ _ HK) as Eh.
  pose proof (kept_ids _ _ _ HK) as Ei.
  assert (Ho : forall p', p' <> p -> queues s2 !! p' = queues s !! p').
  { intros p' Hne. rewrite (kept_others _ _ _ HK) by assumption. unfold s1. cbn_sys.
    now rewrite lookup_insert_ne. }
  destruct (snd c) as [t|] eqn:Ec.
  - rewrite bool_decide_true in * by eauto. unfold bind at 1, ret at 1.
    destruct (unlock_spec msqid _ _ _ HI) as [Eu _]. run Eu.
    do 2 eexists. split; [reflexivity|]. split; [exact Hq'|]. cbn_sys.
    split_and!; try assumption. cbn. now rewrite Ei.
  - rewrite bool_decide_false in * by (intros [? [=]]).
    unfold bind at 1. unfold bind at 1. rewrite (upd_q_eq p _ q') by exact Hq'. cbn beta iota.
    unfold modify. pose proof (Inv_enqueue _ _ _ _ _ _ msg HI Hq' Hm) as HE.
    destruct (unlock_spec msqid _ _ _ HE) as [Eu _]. unfold enqueued in Eu. run Eu.
    do 2 eexists. split; [reflexivity|]. split; [apply lookup_insert_eq|]. cbn_sys.
    split_and!; try assumption.
    + cbn. now rewrite Em.
    + cbn. now rewrite Ei.
    + intros p' Hne. rewrite lookup_insert_ne by congruence. now apply Ho.
Qed.

(** Allocations and copies all succeed. *)
Definition env_ok (e : env) (space : bool) : Prop :=
  (forall n, e_alloc e n = true) /\ (forall n, e_copy e n = true).

(** [_rt_msgsnd] with valid arguments reaches [retry] with the message made. *)
Lemma rt_msgsnd_enter e msqid mtype mtext msgsz msgflg space p q s :
  Inv false false 0 s -> opens e s msqid S_IWUGO p q -> env_ok e space ->
  1 <= mtype < 2 ^ 31 -> 0 <= msgsz <= msg_ctlmax ->
  let msg := made mtype mtext msgsz in
  let s1 := locked (add_heap (msg_blocks msg) s) in
  msg_ok msg /\ Inv false true (0 + msg_blocks msg) s1 /\ opens e s1 msqid S_IWUGO p q /\
  _rt_msgsnd e msqid mtype mtext msgsz msgflg space s
    = msgsnd_retry e msqid p msg msgsz msgflg s1.
Proof.
  intros H Hop [Ha Hc] Ht Hsz msg s1. unfold msg_ctlmax, MSGMAX in Hsz.
  assert (Hm : msg_ok msg) by (apply loaded_ok; lia).
  pose proof (Inv_locked _ _ _ (Inv_heap _ _ _ (msg_blocks msg) _ H)) as HI.
  split_and!; [exact Hm | exact HI | destruct Hop; constructor; assumption |].
  unfold _rt_msgsnd. rewrite (wrap_u_id 32 msgsz), (wrap_s_id 32 mtype), (wrap_s_id 32 msgsz) by lia.
  replace (_ || _ || _) with false; cycle 1.
  { symmetry. destruct Hop. unfold msg_ctlmax, MSGMAX. rewrite !orb_false_iff. lia. }
  rewrite (proj2 (Z.ltb_ge mtype 1)) by lia.
  destruct (load_msg_spec e mtext msgsz space s) as (r & dh & E & Hr); [lia|]. run E.
  destruct r as [m0|err]; [|destruct Hr as (_ & _ & []); now split].
  destruct Hr as [-> ->]. fold msg. change (MSG mtype msgsz _ _) with msg.
  change (msg_blocks (loaded mtext msgsz)) with (msg_blocks msg).
  run (lock_spec msqid _ _ _ (op_id _ _ _ _ _ _ Hop) (Inv_heap _ _ _ (msg_blocks msg) _ H)).
  change (msg_ids (add_heap _ s)) with (msg_ids s). now rewrite (op_at _ _ _ _ _ _ Hop).
Qed.

Lemma unlocked_heap k s : ids_ary (msg_ids s) = false ->
  add_heap (- k) (unlocked (locked (add_heap k s))) = s.
Proof.
  intros Ha. rewrite unlocked_locked by exact Ha. rewrite add_heap_add_heap.
  now rewrite Z.add_opp_diag_r, add_heap_0.
Qed.

(** A send that finds no room: [-EAGAIN] and nothing changed, or the caller
    goes to sleep at the end of the list of senders. *)
Lemma rt_msgsnd_full e msqid mtype mtext msgsz msgflg space p q s :
  Inv false false 0 s -> opens e s msqid S_IWUGO p q -> env_ok e space ->
  1 <= mtype < 2 ^ 31 -> 0 <= msgsz <= msg_ctlmax -> room q msgsz = false ->
  exists s', _rt_msgsnd e msqid mtype mtext msgsz msgflg space s
      = OK (if nowait msgflg then Some (- EAGAIN) else None) s' /\
    if nowait msgflg then s' = s
    else sleeping s' = <[e_pid e := PSnd msqid (made mtype mtext msgsz) msgsz msgflg]> (sleeping s) /\
         queues s' = <[p := msq_with_senders (q_senders q ++ [e_pid e]) q]> (queues s).
Proof.
  intros H Hop He Ht Hsz Hroom.
  destruct (rt_msgsnd_enter e msqid mtype mtext msgsz msgflg space p q s H Hop He Ht Hsz)
    as (Hm & HI & [Hid Hat Hp Hck Hpm] & ->).
  set (msg := made mtype mtext msgsz) in *. set (s1 := locked _) in *.
  unfold msgsnd_retry. run (deref_q_eq p q s1 Hp).
  rewrite Hck, Hpm, room_test, Hroom. cbn [negb Z.eqb].
  change (negb (Z.land msgflg IPC_NOWAIT =? 0)) with (nowait msgflg). destruct (nowait msgflg).
  - destruct (unlock_free_spec msqid 0 s1 msg (Some (- EAGAIN)) HI) as [E _].
    eexists. split; [exact E|]. unfold s1. apply unlocked_heap, H.
  - unfold ss_add. unfold bind at 1. unfold bind at 1, modify at 1.
    rewrite (upd_q_eq p _ q) by exact Hp. cbn beta iota.
    unfold ipc_unlock, spin_unlock. unfold bind at 1. cbn_sys. rewrite (inv_ary _ _ _ _ HI).
    unfold bind, modify, ret. eexists. split; [reflexivity|]. split; reflexivity.
Qed.

(** ** Receiving *)

Lemma rt_msgrcv_enter e msqid msgsz msgtyp msgflg space p q s :
  Inv false false 0 s -> opens e s msqid S_IRUGO p q ->
  - 2 ^ 31 < msgtyp < 2 ^ 31 -> 0 <= msgsz < 2 ^ 31 ->
  _rt_msgrcv e msqid msgsz msgtyp msgflg space s
    = msgrcv_retry e msqid p msgsz (snd (convert_mode msgtyp msgflg))
        (fst (convert_mode msgtyp msgflg)) msgflg space (locked s).
Proof.
  intros H Hop Ht Hsz. pose proof (op_id _ _ _ _ _ _ Hop). unfold _rt_msgrcv.
  rewrite (wrap_u_id 32 msgsz), (wrap_s_id 32 msgtyp), (wrap_s_id 32 msgsz) by lia.
  rewrite (proj2 (Z.ltb_ge msqid 0)), (proj2 (Z.ltb_ge msgsz 0)) by lia. cbn [orb].
  destruct (convert_mode msgtyp msgflg) as [mode typ]. cbn [fst snd].
  run (lock_spec msqid _ _ _ (op_id _ _ _ _ _ _ Hop) H). now rewrite (op_at _ _ _ _ _ _ Hop).
Qed.

Lemma messages_types q : Forall msg_ok (q_messages q) -> Forall (fun m => 1 <= m_type m) (q_messages q).
Proof. intros H. eapply Forall_impl; [exact H|]. intros m Hm. apply Hm. Qed.

(** The message to take does not fit, or there is none. *)
Lemma rt_msgrcv_none e msqid msgsz msgtyp msgflg space p q s :
  Inv false false 0 s -> opens e s msqid S_IRUGO p q ->
  - 2 ^ 31 < msgtyp < 2 ^ 31 -> 0 <= msgsz < 2 ^ 31 ->
  pick msgtyp msgflg (mailbox q) = None ->
  exists s', _rt_msgrcv e msqid msgsz msgtyp msgflg space s
      = OK (if nowait msgflg then Some (err_reply (- ENOMSG)) else None) s' /\
    if nowait msgflg then s' = s
    else queues s' = <[p := msq_with_receivers (q_receivers q ++ [e_pid e]) q]> (queues s).
Proof.
  intros H Hop Ht Hsz Hpick. rewrite (rt_msgrcv_enter _ _ _ _ _ _ p q) by assumption.
  pose proof (search_pick payload msgtyp msgflg (q_messages q) Ht
    (messages_types _ (Inv_messages_ok _ _ _ _ _ _ H (op_queue _ _ _ _ _ _ Hop)))) as Hs.
  destruct Hop as [Hid Hat Hp Hck Hpm].
  unfold msgrcv_retry. run (deref_q_eq p q (locked s) Hp). rewrite Hck, Hpm. cbn [negb Z.eqb].
  rewrite Hs. change ((fun m => (m_type m, payload m)) <$> q_messages q) with (mailbox q).
  rewrite Hpick. change (negb (Z.land msgflg IPC_NOWAIT =? 0)) with (nowait msgflg).
  destruct (unlock_spec msqid _ _ _ (Inv_locked _ _ _ H)) as [Eu _].
  destruct (nowait msgflg).
  - run Eu. eexists. split; [reflexivity|]. apply unlocked_locked, H.
  - run (upd_q_eq p (fun q => msq_with_receivers (q_receivers q ++ [e_pid e]) q) q (locked s) Hp).
    unfold bind at 1, modify at 1. unfold ipc_unlock, spin_unlock. unfold bind at 1. cbn_sys.
    cbn [ids_ary ids_with_locks].
    unfold bind, modify, ret. eexists. split; reflexivity.
Qed.

Lemma copies_all e space : env_ok e space -> copies_ok e space.
Proof. intros [_ H] _. exact H. Qed.

Lemma msgrcv_success_eq e msg msgsz space s :
  msg_ok msg -> env_ok e space -> 0 <= msgsz ->
  msgrcv_success e msg msgsz space s =
    OK (REPLY (Z.min msgsz (m_ts msg)) (Some (m_type msg))
          (take (Z.to_nat (Z.min msgsz (m_ts msg))) (payload msg)))
       (add_heap (- msg_blocks msg) s).
Proof.
  intros Hm He Hsz. unfold msgrcv_success.
  assert (Hts : 0 <= m_ts msg) by apply Hm.
  replace (if m_ts msg <? msgsz then m_ts msg else msgsz) with (Z.min msgsz (m_ts msg))
    by (destruct (Z.ltb_spec (m_ts msg) msgsz); lia).
  pose proof (store_payload e msg (Z.min msgsz (m_ts msg)) space s Hm (copies_all _ _ He) ltac:(lia)) as Est.
  unfold bind. rewrite (proj2 He 0%nat). cbn [negb].
  destruct space; rewrite Est; cbn beta iota; unfold ret; rewrite Z.eqb_refl, free_msg_eq; reflexivity.
Qed.

(** The message to take is there. *)
Lemma rt_msgrcv_some e msqid msgsz msgtyp msgflg space p q s k :
  Inv false false 0 s -> opens e s msqid S_IRUGO p q -> env_ok e space ->
  - 2 ^ 31 < msgtyp < 2 ^ 31 -> 0 <= msgsz < 2 ^ 31 ->
  pick msgtyp msgflg (mailbox q) = Some k ->
  exists m, q_messages q !! k = Some m /\
    if (msgsz <? m_ts m) && negb (noerror msgflg) then
      _rt_msgrcv e msqid msgsz msgtyp msgflg space s = OK (Some (err_reply (- E2BIG))) s
    else exists s',
      _rt_msgrcv e msqid msgsz msgtyp msgflg space s =
        OK (Some (REPLY (Z.min msgsz (m_ts m)) (Some (m_type m))
                    (take (Z.to_nat (Z.min msgsz (m_ts m))) (payload m)))) s' /\
      queues s' = <[p := dequeued e k m q]> (queues s) /\
      woken s' = rev (q_senders q) ++ woken s /\ heap s' = heap s - msg_blocks m.
Proof.
  intros H Hop He Ht Hsz Hpick. rewrite (rt_msgrcv_enter _ _ _ _ _ _ p q) by assumption.
  pose proof (Inv_messages_ok _ _ _ _ _ _ H (op_queue _ _ _ _ _ _ Hop)) as Hok.
  pose proof (search_pick payload msgtyp msgflg (q_messages q) Ht (messages_types _ Hok)) as Hs.
  destruct Hop as [Hid Hat Hp Hck Hpm].
  change ((fun m => (m_type m, payload m)) <$> q_messages q) with (mailbox q) in Hs.
  rewrite Hpick in Hs. destruct (search_msg_bound _ _ _ _ Hs) as [m Hk].
  exists m. split; [exact Hk|].
  pose proof (Forall_lookup_1 _ _ _ _ Hok Hk) as Hm.
  destruct (unlock_spec msqid _ _ _ (Inv_locked _ _ _ H)) as [Eu _].
  assert (Ene : (Z.land msgflg MSG_NOERROR =? 0) = negb (noerror msgflg))
    by (unfold noerror; now rewrite negb_involutive).
  destruct ((msgsz <? m_ts m) && negb (noerror msgflg)) eqn:Efit;
    unfold msgrcv_retry; run (deref_q_eq p q (locked s) Hp); rewrite Hck, Hpm; cbn [negb Z.eqb];
    rewrite Hs, Hk, Ene, Efit.
  - run Eu. unfold ret. now rewrite unlocked_locked by apply H.
  - match goal with |- context [upd_q p ?f] => change f with (dequeued e k m) end.
    run (upd_q_eq p (dequeued e k m) q (locked s) Hp). unfold bind at 1, modify.
    run (ss_wakeup_eq (q_senders q)
      (set_atomics (- m_ts m) (-1) (set_queues <[p:=dequeued e k m q]> (locked s)))).
    unfold ipc_unlock, spin_unlock. unfold bind at 1. cbn_sys. cbn [ids_ary ids_with_locks].
    unfold bind. rewrite msgrcv_success_eq by (assumption || lia).
    eexists. split; [reflexivity|]. split_and!; reflexivity.
Qed.

(** ** Removing a queue *)

(** The caller may change the queue: the test of [IPC_SET] and [IPC_RMID]. *)
Definition may_change (e : env) (q : msg_queue) : bool :=
  (e_euid e =? p_cuid (q_perm q)) || (e_euid e =? p_uid (q_perm q)) || e_capable e CAP_SYS_ADMIN.

Lemma may_change_test e q :
  negb (e_euid e =? p_cuid (q_perm q)) && negb (e_euid e =? p_uid (q_perm q))
  && negb (e_capable e CAP_SYS_ADMIN) = negb (may_change e q).
Proof. unfold may_change. now rewrite !negb_orb. Qed.

Lemma rmid_effect e msqid p q s :
  Inv false false 0 s -> 0 <= msqid -> queue_at (msg_ids s) msqid = Some p ->
  queues s !! p = Some q -> ipc_checkid (q_perm q) msqid = false -> may_change e q = true ->
  exists s', msgctl_change e msqid None s = OK 0 s' /\
    queues s' = delete p (queues s) /\
    ids_entries (msg_ids s') = <[slot msqid := None]> (ids_entries (msg_ids s)) /\
    receivers s' = mark (rcv_with_msg (inr (- EIDRM))) (q_receivers q) (receivers s) /\
    senders s' = mark killed (q_senders q) (senders s) /\
    sleeping s' = sleeping s /\ heap s' = heap s - q_blocks q /\
    woken s' = rev (q_senders q) ++ rev (q_receivers q) ++ woken s.
Proof.
  intros H Hid Hat Hp Hck Hmay. unfold msgctl_change.
  destruct (down_spec _ _ H) as [Ed HD]. run Ed. run (lock_spec msqid _ _ _ Hid HD).
  change (queue_at (msg_ids (downed s)) msqid) with (queue_at (msg_ids s) msqid). rewrite Hat.
  pose proof (Inv_locked _ _ _ HD) as HL. run (deref_q_eq p q (locked (downed s)) Hp).
  rewrite Hck, may_change_test, Hmay. cbn [negb].
  destruct (freeque_eq msqid 0 _ p q Hid HL Hat Hp) as (i' & b & h & E & _ & He & _ & Hsem & _). run E.
  assert (Eup : up (unlocked (removed i' b h p q (locked (downed s))))
     = OK tt (upped (unlocked (removed i' b h p q (locked (downed s)))))).
  { unfold up. cbn_sys. cbn [ids_sem ids_with_locks]. now rewrite Hsem. }
  run Eup. eexists. split; [reflexivity|]. split_and!; try reflexivity. exact He.
Qed.

(** A sleeper linked on a queue: the call it sleeps in, and its identifier. *)
Lemma Inv_linked_sender sem ary d s p q t :
  Inv sem ary d s -> queues s !! p = Some q -> t ∈ q_senders q ->
  exists msqid msg sz fl, sleeping s !! t = Some (PSnd msqid msg sz fl) /\ 0 <= msqid /\
    queue_at (msg_ids s) msqid = Some p /\ is_Some (senders s !! t).
Proof.
  intros H Hp Ht. apply (lw_snd _ _ _ _ (inv_link _ _ _ _ H _ _ Hp)) in Ht as (m & Hm & Hl).
  pose proof (inv_task _ _ _ _ H t) as Hw. unfold task_wf in Hw.
  destruct (sleeping s !! t) as [[msqid msg sz fl|msqid msq sz ty mo fl sp]|].
  - destruct Hw as (? & _ & _ & _ & m' & Hm' & Hq). assert (m' = m) as -> by congruence.
    exists msqid, msg, sz, fl. split_and!; eauto.
  - destruct Hw as (_ & Hn & _). congruence.
  - destruct Hw. congruence.
Qed.

Lemma Inv_linked_receiver sem ary d s p q t :
  Inv sem ary d s -> queues s !! p = Some q -> t ∈ q_receivers q ->
  exists msqid sz ty mo fl sp r, sleeping s !! t = Some (PRcv msqid p sz ty mo fl sp) /\
    0 <= msqid /\ receivers s !! t = Some r.
Proof.
  intros H Hp Ht. apply (lw_rcv _ _ _ _ (inv_link _ _ _ _ H _ _ Hp)) in Ht as (r & Hr & Hl & Hm).
  pose proof (inv_task _ _ _ _ H t) as Hw. unfold task_wf in Hw.
  destruct (sleeping s !! t) as [[msqid msg sz fl|msqid msq sz ty mo fl sp]|].
  - destruct Hw as (_ & _ & _ & Hn & _). congruence.
  - destruct Hw as (? & _ & r' & Hr' & _ & Hq). assert (r' = r) as -> by congruence.
    rewrite Hm in Hq. destruct (Hq eq_refl) as [Hl' _]. assert (msq = p) as -> by congruence.
    exists msqid, sz, ty, mo, fl, sp, r. split_and!; auto.
  - destruct Hw. congruence.
Qed.

(** Once its queue is gone, a sender that sleeps returns [-EIDRM]. *)
Lemma resume_sender_gone e msqid msg sz fl s :
  Inv false false 0 s -> sleeping s !! e_pid e = Some (PSnd msqid msg sz fl) ->
  queue_at (msg_ids s) msqid = None -> 0 <= msqid ->
  exists s', run_call e Resume s = OK (AnsSnd (Some (- EIDRM))) s'.
Proof.
  intros H Ht Hat Hid. cbn [run_call]. unfold bind at 1, get. rewrite Ht. unfold resume, bind at 1, modify at 1.
  unfold msgsnd_resume. unfold bind at 1. unfold bind at 1.
  rewrite (ipc_lock_eq msqid _ Hid) by apply H.
  change (msg_ids (set_sleeping _ s)) with (msg_ids s). rewrite Hat.
  unfold bind at 1, modify. run (free_msg_eq msg (set_senders (delete (e_pid e)) (set_sleeping (delete (e_pid e)) s))).
  eexists. reflexivity.
Qed.

(** A receiver that was told an error other than [-EAGAIN] returns it. *)
Lemma resume_receiver_error e msqid msq sz ty mo fl sp r err s :
  Inv false false 0 s -> sleeping s !! e_pid e = Some (PRcv msqid msq sz ty mo fl sp) ->
  0 <= msqid -> receivers s !! e_pid e = Some r -> r_msg r = inr err -> err <> - EAGAIN ->
  exists s', run_call e Resume s = OK (AnsRcv (Some (err_reply err))) s'.
Proof.
  intros H Ht Hid Hr Hm Hne. cbn [run_call]. unfold bind at 1, get. rewrite Ht. unfold resume, bind at 1, modify at 1.
  unfold msgrcv_resume. unfold bind at 1. unfold bind at 1.
  set (s0 := set_sleeping _ s).
  rewrite (ipc_lock_eq msqid s0 Hid (inv_ids _ _ _ _ H) (inv_ary _ _ _ _ H)).
  assert (Ha : ids_ary (msg_ids s0) = false) by apply H.
  pose proof (resume_exit (queue_at (msg_ids s0) msqid) msqid (e_pid e)
    (ret (Some (err_reply err))) s0 Hid Ha) as Hex.
  destruct (queue_at (msg_ids s0) msqid); cbn beta iota; unfold bind at 1, deref_r;
    change (receivers (locked s0)) with (receivers s); change (receivers s0) with (receivers s);
    rewrite Hr, Hm, (proj2 (Z.eqb_neq err (- EAGAIN))) by assumption;
    rewrite Hex; eexists; reflexivity.
Qed.

(** ** Creating and finding a queue *)

(** [id] is a valid identifier of queue [q] at [p]. *)
Definition names (s : sys) (id p : Z) (q : msg_queue) : Prop :=
  0 <= id /\ queue_at (msg_ids s) id = Some p /\ queues s !! p = Some q /\
  ipc_checkid (q_perm q) id = false.

(** A queue has one identifier. *)
Lemma names_buildid sem ary d s id p q i :
  Inv sem ary d s -> names s id p q ->
  ids_entries (msg_ids s) !! i = Some (Some p) -> id = ipc_buildid (Z.of_nat i) (p_seq (q_perm q)).
Proof.
  intros H (Hid & Hat & Hp & Hck) Hi. apply queue_at_slot in Hat.
  pose proof (tw_inj _ _ _ (inv_table _ _ _ _ H) _ _ _ Hat Hi) as E.
  pose proof (lookup_lt_Some _ _ _ Hi). pose proof (inv_ids _ _ _ _ H) as [Hs Hl _ _ _ _].
  pose proof (qw_seq _ (inv_queue _ _ _ _ H _ _ Hp)) as Hq. assert (msg_ctlmni <= IPCMNI) by easy.
  destruct (buildid_range (Z.of_nat i) (p_seq (q_perm q)) ltac:(lia) Hq) as [-> _].
  unfold ipc_checkid in Hck. bool_to_prop. rewrite <- Hck, <- E. unfold slot.
  pose proof (rem_bounds id Hid). rewrite Z2Nat.id by lia.
  rewrite (Z.quot_rem' id SEQ_MULTIPLIER) at 1. lia.
Qed.

Lemma buildid_names sem ary d s i p q :
  Inv sem ary d s -> ids_entries (msg_ids s) !! i = Some (Some p) -> queues s !! p = Some q ->
  names s (ipc_buildid (Z.of_nat i) (p_seq (q_perm q))) p q.
Proof.
  intros H Hi Hp. pose proof (lookup_lt_Some _ _ _ Hi).
  pose proof (inv_ids _ _ _ _ H) as [Hs Hl _ _ _ _].
  pose proof (qw_seq _ (inv_queue _ _ _ _ H _ _ Hp)) as Hq. unfold names. assert (msg_ctlmni <= IPCMNI) by easy.
  destruct (buildid_range (Z.of_nat i) (p_seq (q_perm q)) ltac:(lia) Hq) as [_ Hr].
  split_and!; [lia | | exact Hp|].
  - unfold queue_at. rewrite buildid_slot by lia. now rewrite Nat2Z.id, Hi.
  - rewrite checkid_buildid by lia. now rewrite Z.eqb_refl.
Qed.

Lemma locks_undone s :
  ids_sem (msg_ids s) = false -> ids_ary (msg_ids s) = false ->
  upped (unlocked (locked (downed s))) = s /\ upped (downed s) = s.
Proof. intros H1 H2. destruct s as [[] ? ? ? ? ? ? ? ? ?]; cbn in *. now subst. Qed.

Definition creates (flg : Z) : bool := negb (Z.land flg IPC_CREAT =? 0).
Definition excl (flg : Z) : bool := negb (Z.land flg IPC_EXCL =? 0).

(** A key in use: its identifier, unless access is refused or a new queue was
    asked for. *)
Lemma msgget_existing e key flg s id p q :
  Inv false false 0 s -> names s id p q -> p_key (q_perm q) = key -> key <> IPC_PRIVATE ->
  rt_msgget e key flg s =
    OK (if creates flg && excl flg then - EEXIST
        else if ipcperms e (q_perm q) (wrap_s 16 flg) =? 0 then id else - EACCES) s.
Proof.
  intros H Hn Hk Hpriv. unfold rt_msgget. destruct (down_spec _ _ H) as [Ed HD]. run Ed.
  destruct (locks_undone s (inv_sem _ _ _ _ H) (inv_ary _ _ _ _ H)) as [El1 El2].
  rewrite (proj2 (Z.eqb_neq key IPC_PRIVATE)) by assumption.
  unfold bind at 1. run (findkey_spec _ _ _ _ key HD).
  set (i := first_slot _ _ _).
  destruct (Z.eqb_spec i (-1)) as [E|E].
  { destruct (findkey_none _ _ _ _ _ HD E p q); [apply Hn | exact Hk]. }
  destruct (findkey_some _ _ _ _ _ _ HD eq_refl E) as (Hi & p' & q' & Hat & Hp' & Hk').
  fold i in Hi, Hat.
  change (negb (Z.land flg IPC_CREAT =? 0)) with (creates flg).
  change (negb (Z.land flg IPC_EXCL =? 0)) with (excl flg).
  destruct (up_spec _ _ HD) as [Eup HU].
  destruct (creates flg && excl flg).
  { unfold ret at 1. cbn beta iota. run Eup. now rewrite El2. }
  pose proof Hn as (Hid & Hat0 & Hp & Hck).
  assert (p' = p) as ->.
  { apply (tw_key _ _ _ (inv_table _ _ _ _ H) p' p q' q); try assumption; congruence. }
  assert (q' = q) as -> by (change (queues (downed s)) with (queues s) in Hp'; congruence).
  run (lock_spec i _ _ _ ltac:(lia) HD). rewrite Hat. run (deref_q_eq p q (locked (downed s)) Hp).
  destruct (unlock_spec i _ _ _ (Inv_locked _ _ _ HD)) as [Eu HV]. run Eu.
  unfold ret at 1. cbn beta iota. destruct (up_spec _ _ HV) as [Eup2 _]. run Eup2. rewrite El1.
  unfold ret. f_equal. destruct (_ =? 0); cbn [negb]; [|reflexivity].
  apply queue_at_slot in Hat. rewrite slot_small in Hat by lia.
  rewrite (names_buildid _ _ _ _ _ _ _ _ H Hn Hat). now rewrite Z2Nat.id by lia.
Qed.

(** A key that no queue has. *)
Lemma msgget_absent e key flg s :
  Inv false false 0 s -> key <> IPC_PRIVATE ->
  (forall p q, queues s !! p = Some q -> p_key (q_perm q) <> key) ->
  if creates flg then exists r s', rt_msgget e key flg s = OK r s' /\
    (r < 0 \/ exists p q, names s' r p q /\ p_key (q_perm q) = key /\ q_messages q = [] /\
                          queues s !! p = None)
  else rt_msgget e key flg s = OK (- ENOENT) s.
Proof.
  intros H Hpriv Hno. destruct (down_spec _ _ H) as [Ed HD].
  destruct (locks_undone s (inv_sem _ _ _ _ H) (inv_ary _ _ _ _ H)) as [_ El2].
  assert (Hf : first_slot (has_key (downed s) key) (ids_entries (msg_ids (downed s))) 0 = -1).
  { destruct (Z.eq_dec (first_slot (has_key (downed s) key) (ids_entries (msg_ids (downed s))) 0) (-1))
      as [E|E]; [exact E|].
    destruct (findkey_some _ _ _ _ _ _ HD eq_refl E) as (_ & p & q & _ & Hp & Hk).
    destruct (Hno p q Hp Hk). }
  unfold rt_msgget, creates. destruct (Z.land flg IPC_CREAT =? 0) eqn:Ec; cbn [negb];
    run Ed; rewrite (proj2 (Z.eqb_neq key IPC_PRIVATE)) by assumption;
    unfold bind at 1; run (findkey_spec _ _ _ _ key HD); rewrite Hf, Z.eqb_refl.
  - destruct (up_spec _ _ HD) as [Eup _]. unfold ret at 1. cbn beta iota. run Eup. now rewrite El2.
  - destruct (newque_spec e key flg 0 _ HD) as (r & s' & E & HI & _ & Hr).
    { intros p q Hp Hk. destruct (Hno p q Hp Hk). }
    rewrite E. destruct (up_spec _ _ HI) as [Eup _]. run Eup. do 2 eexists. split; [reflexivity|].
    destruct (Z.ltb_spec r 0) as [Hneg|Hpos]; [now left|].
    destruct Hr as [Hr|(q & Hat & Hp & Hk & Hck & Hm)]; [now left|]. right.
    exists (next_ptr (downed s)), q. split_and!; try assumption.
    + now split_and!.
    + destruct (queues s !! next_ptr (downed s)) as [q0|] eqn:E0; [|reflexivity].
      pose proof (tw_next _ _ _ (inv_table _ _ _ _ H) _ _ E0) as Hlt.
      change (next_ptr (downed s)) with (next_ptr s) in Hlt. lia.
Qed.

(** ** Calls that do not wait *)

Lemma bind_OK {S F A B} (m : M S F A) (k : A -> M S F B) s b s' :
  bind m k s = OK b s' -> exists a s1, m s = OK a s1 /\ k a s1 = OK b s'.
Proof. unfold bind. destruct (m s) as [a s1|f]; [eauto | discriminate]. Qed.

(** Follow a computation that ended through its binds and tests. *)
Ltac walk H :=
  repeat match type of H with
  | bind _ _ _ = OK _ _ =>
      let a := fresh "a" in let s1 := fresh "s1" in let E := fresh "E" in
      apply bind_OK in H as (a & s1 & E & H)
  | (if ?b then _ else _) _ = OK _ _ => destruct b eqn:?
  | match ?x with _ => _ end _ = OK _ _ => destruct x eqn:?
  | ret _ _ = OK _ _ => unfold ret in H; injection H as <- <-
  | fault _ _ = OK _ _ => discriminate H
  end.

Lemma msgsnd_retry_nowait e msqid p msg sz flg s r s' :
  nowait flg = true -> msgsnd_retry e msqid p msg sz flg s = OK r s' -> is_Some r.
Proof.
  unfold nowait, msgsnd_retry. intros Hn H. rewrite Hn in H. walk H; eauto.
Qed.

Lemma rt_msgsnd_nowait e msqid mtype mtext sz flg space s r s' :
  nowait flg = true -> _rt_msgsnd e msqid mtype mtext sz flg space s = OK r s' -> is_Some r.
Proof.
  intros Hn H. unfold _rt_msgsnd in H. walk H; eauto using msgsnd_retry_nowait.
Qed.

Lemma msgrcv_retry_nowait e msqid p sz typ mode flg space s r s' :
  nowait flg = true -> msgrcv_retry e msqid p sz typ mode flg space s = OK r s' -> is_Some r.
Proof.
  unfold nowait, msgrcv_retry. intros Hn H. rewrite Hn in H. walk H; eauto.
Qed.

Lemma rt_msgrcv_nowait e msqid sz typ flg space s r s' :
  nowait flg = true -> _rt_msgrcv e msqid sz typ flg space s = OK r s' -> is_Some r.
Proof.
  intros Hn H. unfold _rt_msgrcv in H. walk H; eauto using msgrcv_retry_nowait.
Qed.

(** ** Calls of other tasks

    What a task has on its stack, when no queue links it, is left alone by the
    calls of the others. *)

Create HintDb spare.

Section Spared.
Variables (t : Z) (pd : option pending) (sd : option msg_sender) (rv : option msg_receiver).

(** The task [t] is on no list of the queue. *)
Definition unlisted (q : msg_queue) : Prop := (t ∉ q_receivers q) /\ (t ∉ q_senders q).

Record spared (s : sys) : Prop := {
  sp_sleeping : sleeping s !! t = pd;
  sp_sender : senders s !! t = sd;
  sp_receiver : receivers s !! t = rv;
  sp_lists : map_Forall (fun _ => unlisted) (queues s)
}.

(** A computation that leaves [t] alone and gives a result in [Q]. *)
Definition spares {A} (m : cmd A) (Q : A -> Prop) : Prop :=
  forall s a s', spared s -> m s = OK a s' -> spared s' /\ Q a.

Abbreviation any := (fun _ => True).

Lemma spares_ret {A} (a : A) : spares (ret a) any.
Proof. intros s b s' H E. unfold ret in E. injection E as <- <-. auto. Qed.

Lemma spares_fault {A} f (Q : A -> Prop) : spares (fault f) Q.
Proof. intros s a s' _ E. discriminate E. Qed.

Lemma spares_bind {A B} (m : cmd A) (k : A -> cmd B) (R : A -> Prop) Q :
  spares m R -> (forall a, R a -> spares (k a) Q) -> spares (bind m k) Q.
Proof.
  intros Hm Hk s b s' H E. apply bind_OK in E as (a & s1 & E1 & E2).
  destruct (Hm s a s1 H E1) as [H1 HR]. exact (Hk a HR s1 b s' H1 E2).
Qed.

Lemma spares_weak {A} (m : cmd A) Q : spares m Q -> spares m any.
Proof. intros Hm s a s' H E. split; [exact (proj1 (Hm s a s' H E)) | exact I]. Qed.

Lemma spares_get : spares get any.
Proof. intros s a s' H E. unfold get in E. injection E as <- <-. auto. Qed.

Lemma spares_modify f : (forall s, spared s -> spared (f s)) -> spares (modify f) any.
Proof. intros Hf s a s' H E. unfold modify in E. injection E as <- <-. auto. Qed.

Lemma spares_deref_q p : spares (deref_q p) unlisted.
Proof.
  intros s q s' H E. unfold deref_q in E. destruct (queues s !! p) eqn:Ep; [|discriminate].
  injection E as <- <-. split; [exact H | exact (sp_lists s H p _ Ep)].
Qed.

Lemma spared_insert p q s : spared s -> unlisted q -> spared (set_queues <[p := q]> s).
Proof. intros [? ? ? ?] Hq. constructor; cbn; try assumption. now apply map_Forall_insert_2. Qed.

Lemma spares_upd_q p f : (forall q, unlisted q -> unlisted (f q)) -> spares (upd_q p f) any.
Proof.
  intros Hf s a s' H E. unfold upd_q in E. destruct (queues s !! p) as [q|] eqn:Ep; [|discriminate].
  injection E as <- <-. split; [|exact I]. apply spared_insert; [exact H|]. apply Hf, (sp_lists s H p q Ep).
Qed.

Lemma spares_deref_r u : spares (deref_r u) any.
Proof.
  intros s r s' H E. unfold deref_r in E. destruct (receivers s !! u); [|discriminate]. injection E as <- <-. auto.
Qed.

Lemma spares_upd_r u f : u <> t -> spares (upd_r u f) any.
Proof.
  intros Hu s a s' [? ? ? ?] E. unfold upd_r in E. destruct (receivers s !! u); [|discriminate].
  injection E as <- <-. split; [|exact I]. constructor; cbn; try assumption. now rewrite lookup_insert_ne.
Qed.

Lemma spares_upd_s u f : u <> t -> spares (upd_s u f) any.
Proof.
  intros Hu s a s' [? ? ? ?] E. unfold upd_s in E. destruct (senders s !! u); [|discriminate].
  injection E as <- <-. split; [|exact I]. constructor; cbn; try assumption. now rewrite lookup_insert_ne.
Qed.

(** Only the identifier table, the counters or the memory change. *)
Lemma spared_same s s' :
  spared s -> sleeping s' = sleeping s -> senders s' = senders s -> receivers s' = receivers s ->
  queues s' = queues s -> spared s'.
Proof. intros [? ? ? ?] E1 E2 E3 E4. constructor; rewrite ?E1, ?E2, ?E3, ?E4; assumption. Qed.

Lemma spares_same {A} (m : cmd A) :
  (forall s a s', m s = OK a s' -> sleeping s' = sleeping s /\ senders s' = senders s /\
     receivers s' = receivers s /\ queues s' = queues s) -> spares m any.
Proof. intros Hm s a s' H E. destruct (Hm s a s' E) as (E1 & E2 & E3 & E4). split; [now apply (spared_same s) | exact I]. Qed.

(** Follow a computation through its binds and tests. *)
Ltac spare :=
  match goal with
  | |- spares (bind (deref_q _) _) _ => eapply spares_bind; [apply spares_deref_q | intros ? ?; spare]
  | |- spares (bind _ _) _ => eapply (spares_bind _ _ (fun _ => True)); [spare | intros ? _; spare]
  | |- spares (ret _) _ => apply spares_ret
  | |- spares (fault _) _ => apply spares_fault
  | |- spares get _ => apply spares_get
  | |- spares (deref_r _) _ => apply spares_deref_r
  | |- spares (modify _) _ => apply spares_modify; intros ? [? ? ? ?]; constructor; cbn; rewrite ?lookup_insert_ne, ?lookup_delete_ne by congruence; assumption
  | |- spares (upd_q _ _) _ => apply spares_upd_q; intros ? [? ?]; split; assumption
  | |- spares (if ?b then _ else _) _ => destruct b; spare
  | |- spares (match ?x with _ => _ end) _ => destruct x; spare
  | _ => solve [auto with spare]
  end.

Ltac spare_prim := apply spares_same; intros s a s' E; cbn in E; repeat case_match; simplify_eq; now split_and!.

Lemma spares_spin_lock : spares spin_lock any.
Proof. unfold spin_lock. spare_prim. Qed.
Lemma spares_spin_unlock : spares spin_unlock any.
Proof. unfold spin_unlock. spare_prim. Qed.
Lemma spares_down : spares down any.
Proof. unfold down. spare_prim. Qed.
Lemma spares_up : spares up any.
Proof. unfold up. spare_prim. Qed.
Lemma spares_kmalloc ok : spares (kmalloc ok) any.
Proof. unfold kmalloc. spare_prim. Qed.
Lemma spares_kfree : spares kfree any.
Proof. unfold kfree. spare. Qed.
Lemma spares_wake u : spares (wake_up_process u) any.
Proof. unfold wake_up_process. spare. Qed.
Lemma spares_entry_at i : spares (entry_at i) any.
Proof. unfold entry_at. spare_prim. Qed.
Lemma spares_set_entry i p : spares (set_entry i p) any.
Proof. unfold set_entry. spare_prim. Qed.
Hint Resolve spares_spin_lock spares_spin_unlock spares_down spares_up spares_kmalloc spares_kfree spares_wake
  spares_entry_at spares_set_entry : spare.

Lemma spares_ipc_lock id : spares (ipc_lock id) any.
Proof. unfold ipc_lock. spare. Qed.
Lemma spares_ipc_unlock id : spares (ipc_unlock id) any.
Proof. unfold ipc_unlock. spare. Qed.
Lemma spares_findkey_from key n : forall id, spares (ipc_findkey_from key n id) any.
Proof. induction n; intros id; cbn [ipc_findkey_from]; spare. Qed.
Hint Resolve spares_ipc_lock spares_ipc_unlock spares_findkey_from : spare.
Lemma spares_findkey key : spares (ipc_findkey key) any.
Proof. unfold ipc_findkey. spare. Qed.
Lemma spares_grow e n : spares (grow_ary e n) any.
Proof. unfold grow_ary, ipc_alloc, ipc_free. spare. Qed.
Lemma spares_find_free n : forall id, spares (find_free_from n id) any.
Proof. induction n; intros id; cbn [find_free_from]; spare. Qed.
Lemma spares_rmid_scan n : spares (rmid_scan n) any.
Proof. induction n; cbn [rmid_scan]; spare. Qed.
Hint Resolve spares_findkey spares_grow spares_find_free spares_rmid_scan : spare.
Lemma spares_addid e p n : spares (ipc_addid e p n) any.
Proof. unfold ipc_addid. spare. Qed.
Lemma spares_rmid id : spares (ipc_rmid id) any.
Proof. unfold ipc_rmid. spare. Qed.
Hint Resolve spares_addid spares_rmid : spare.

Lemma spares_new_queue p : spares (modify (set_queues <[p := MSQ (KIP 0 0 0 0 0 0 0) 0 0 0 0 0 0 0 0 [] [] []]>)) any.
Proof. apply spares_modify. intros s H. apply spared_insert; [exact H|]. split; apply not_elem_of_nil. Qed.
Lemma spares_drop_queue p : spares (modify (set_queues (delete p))) any.
Proof. apply spares_modify. intros s [? ? ? ?]. constructor; cbn; try assumption. now apply map_Forall_delete. Qed.
Hint Resolve spares_new_queue spares_drop_queue : spare.

Lemma spares_newque e key flg : spares (newque e key flg) any.
Proof.
  unfold newque. eapply (spares_bind _ _ any); [spare | intros ok _]. destruct (negb ok); [spare|].
  eapply (spares_bind _ _ any); [spare | intros s _]. eapply (spares_bind _ _ any); [spare | intros _ _].
  eapply (spares_bind _ _ any); [spare | intros _ _]. eapply (spares_bind _ _ any); [spare | intros id _].
  destruct (id =? -1).
  - eapply (spares_bind _ _ any); [auto with spare | intros _ _]. spare.
  - eapply (spares_bind _ _ any).
    + apply spares_upd_q. intros q _. split; apply not_elem_of_nil.
    + intros _ _. spare.
Qed.

Lemma spares_free_msg m : spares (free_msg m) any.
Proof. unfold free_msg. spare. Qed.
Hint Resolve spares_newque spares_free_msg : spare.
Lemma spares_load_segs fuel e : forall k src len space segs, spares (load_segs fuel e k src len space segs) any.
Proof. induction fuel; intros; cbn [load_segs]; spare. Qed.
Lemma spares_store_segs fuel e : forall k segs len space dest, spares (store_segs fuel e k segs len space dest) any.
Proof. induction fuel; intros; cbn [store_segs]; destruct (len <=? 0); [spare| |spare|]; destruct segs; spare. Qed.
Hint Resolve spares_load_segs spares_store_segs : spare.
Lemma spares_load_msg e src len space : spares (load_msg e src len space) any.
Proof. unfold load_msg. spare. Qed.
Lemma spares_success e m sz space : spares (msgrcv_success e m sz space) any.
Proof. unfold msgrcv_success, store_msg. spare. Qed.
Hint Resolve spares_load_msg spares_success : spare.

Lemma unlink_incl u x l : x ∈ unlink u l -> x ∈ l.
Proof.
  induction l as [|y l IH]; cbn; [auto|]. destruct (u =? y); [now right|].
  intros [->|Hx]%elem_of_cons; [left | right; auto].
Qed.

Lemma spares_ss_del u : spares (ss_del u) any.
Proof.
  intros s a s' H E. unfold ss_del in E. destruct (senders s !! u) as [m|]; [|discriminate].
  destruct (s_list m) as [p|]; [|injection E as <- <-; auto].
  refine (spares_upd_q p _ _ s a s' H E). intros q [H1 H2]. split; [exact H1|]. cbn. intros Hu. eapply H2, unlink_incl, Hu.
Qed.

Lemma spares_rcv_del u : u <> t -> spares (rcv_list_del u) any.
Proof.
  intros Hu. unfold rcv_list_del. eapply (spares_bind _ _ any); [spare | intros r _]. destruct (r_list r) as [p|]; [|spare].
  eapply (spares_bind _ _ any); [|intros _ _; now apply spares_upd_r].
  apply spares_upd_q. intros q [H1 H2]. split; [|exact H2]. cbn. intros Hx. eapply H1, unlink_incl, Hx.
Qed.

Lemma spares_ss_wakeup l kill : t ∉ l -> spares (ss_wakeup l kill) any.
Proof.
  induction l as [|u l IH]; intros Hl; cbn [ss_wakeup]; [spare|]. apply not_elem_of_cons in Hl as [Hu Hl].
  eapply (spares_bind _ _ any); [|intros _ _; specialize (IH Hl); spare].
  destruct kill; [apply spares_upd_s; congruence | spare].
Qed.

Lemma spares_expunge l res : t ∉ l -> spares (expunge_list l res) any.
Proof.
  induction l as [|u l IH]; intros Hl; cbn [expunge_list]; [spare|]. apply not_elem_of_cons in Hl as [Hu Hl].
  eapply (spares_bind _ _ any); [apply spares_upd_r; congruence | intros _ _; specialize (IH Hl); spare].
Qed.

Lemma spares_expunge_all p res : spares (expunge_all p res) any.
Proof. unfold expunge_all. eapply spares_bind; [apply spares_deref_q | intros q [Hq _]; now apply spares_expunge]. Qed.

Lemma spares_free_messages l : spares (free_messages l) any.
Proof. induction l; cbn [free_messages]; spare. Qed.
Hint Resolve spares_ss_del spares_rcv_del spares_ss_wakeup spares_expunge_all spares_free_messages : spare.

Lemma spares_freeque id : spares (freeque id) any.
Proof.
  unfold freeque. eapply (spares_bind _ _ any); [spare | intros p _]. eapply (spares_bind _ _ any); [spare | intros _ _].
  eapply spares_bind; [apply spares_deref_q | intros q [_ Hq]]. eapply (spares_bind _ _ any); [auto with spare | intros _ _].
  eapply (spares_bind _ _ any); [spare | intros _ _]. eapply spares_bind; [apply spares_deref_q | intros q' _].
  do 2 (eapply (spares_bind _ _ any); [spare | intros _ _]). eapply (spares_bind _ _ any); [auto with spare | intros _ _]. spare.
Qed.
Hint Resolve spares_freeque : spare.

Lemma spares_msgget e key flg : spares (rt_msgget e key flg) any.
Proof. unfold rt_msgget. spare. Qed.

Lemma spares_change e id b : spares (msgctl_change e id b) any.
Proof.
  unfold msgctl_change. eapply (spares_bind _ _ any); [spare | intros _ _]. eapply (spares_bind _ _ any); [spare | intros [p|] _]; [|spare].
  eapply spares_bind; [apply spares_deref_q | intros q Hq]. cbv zeta.
  destruct (ipc_checkid _ _); [spare|]. destruct (_ && _ && _); [spare|]. destruct b as [b|]; [|spare].
  destruct (_ && _); [spare|]. eapply (spares_bind _ _ any); [spare | intros _ _]. eapply (spares_bind _ _ any); [spare | intros _ _].
  eapply spares_bind; [apply spares_deref_q | intros q' [_ Hq']]. eapply (spares_bind _ _ any); [auto with spare | intros _ _]. spare.
Qed.
Hint Resolve spares_msgget spares_change : spare.

Lemma spares_msgctl e id c buf space : spares (_rt_msgctl e id c buf space) any.
Proof. unfold _rt_msgctl, msgctl_info, msgctl_stat. spare. Qed.

Lemma spares_pipelined_list e p m l : t ∉ l -> spares (pipelined_list e p m l) any.
Proof.
  induction l as [|u l IH]; intros Hl; cbn [pipelined_list]; [spare|]. apply not_elem_of_cons in Hl as [Hu Hl].
  specialize (IH Hl). eapply (spares_bind _ _ any); [spare | intros r _]. destruct (testmsg _ _ _); [|auto].
  eapply (spares_bind _ _ any); [apply spares_rcv_del; congruence | intros _ _].
  destruct (_ <? _); (eapply (spares_bind _ _ any); [apply spares_upd_r; congruence | intros _ _]); spare.
Qed.

Lemma spares_pipelined_send e p m : spares (pipelined_send e p m) any.
Proof. unfold pipelined_send. eapply spares_bind; [apply spares_deref_q | intros q [Hq _]; now apply spares_pipelined_list]. Qed.
Hint Resolve spares_msgctl spares_pipelined_send : spare.

Section Call.
Variable e : env.
Hypothesis Hother : e_pid e <> t.

Lemma unlisted_snoc (l : list Z) : t ∉ l -> t ∉ l ++ [e_pid e].
Proof using Hother. intros Hl Hx. apply elem_of_app in Hx as [Hx|Hx%list_elem_of_singleton]; congruence. Qed.

Lemma spares_ss_add p : spares (ss_add e p) any.
Proof using Hother.
  unfold ss_add. eapply (spares_bind _ _ any); [spare | intros _ _]. apply spares_upd_q. intros q [H1 H2].
  split; [exact H1 | now apply unlisted_snoc].
Qed.

Lemma spares_snd_retry id p m sz fl : spares (msgsnd_retry e id p m sz fl) any.
Proof using Hother. unfold msgsnd_retry. pose proof spares_ss_add. spare. Qed.

Lemma spares_rcv_retry id p sz ty mo fl sp : spares (msgrcv_retry e id p sz ty mo fl sp) any.
Proof using Hother.
  unfold msgrcv_retry. eapply spares_bind; [apply spares_deref_q | intros q [Hq1 Hq2]].
  destruct (ipc_checkid _ _); [spare|]. destruct (negb _); [spare|]. destruct (search_msg _ _ _) as [i|].
  - destruct (q_messages q !! i); [|spare]. destruct (_ && _); [spare|]. spare.
  - destruct (negb _); [spare|]. eapply (spares_bind _ _ any).
    + apply spares_upd_q. intros q' [H1 H2]. split; [now apply unlisted_snoc | exact H2].
    + intros _ _. spare.
Qed.

(** A call of another task leaves [t] alone. *)
Lemma run_call_spares c : spares (run_call e c) any.
Proof using Hother.
  pose proof spares_snd_retry. pose proof spares_rcv_retry.
  destruct c; cbn [run_call]; [spare | spare | | |].
  - unfold _rt_msgsnd. spare.
  - unfold _rt_msgrcv. spare.
  - unfold resume, msgsnd_resume, msgrcv_resume. spare.
Qed.
End Call.
End Spared.

(** A step of a task other than [t]. *)
Definition step_of_others (t : Z) (s s' : sys) : Prop :=
  exists e c a, e_pid e <> t /\ allowed e c s /\ run_call e c s = OK a s'.

Lemma others_spare t pd sd rv s s' :
  spared t pd sd rv s -> rtc (step_of_others t) s s' -> spared t pd sd rv s'.
Proof.
  intros Hs. apply (rtc_invariant (step_of_others t) _ s); [exact Hs|].
  intros x y Hx (e & c & a & Hne & _ & E). exact (proj1 (run_call_spares t pd sd rv e Hne c x a y Hx E)).
Qed.

Lemma others_Inv t s s' : Inv false false 0 s -> rtc (step_of_others t) s s' -> Inv false false 0 s'.
Proof.
  intros Hs. apply (rtc_invariant (step_of_others t) _ s); [exact Hs|].
  intros x y Hx (e & c & a & _ & Ha & E). apply (step_Inv x y Hx). now apply (Step x e c a y).
Qed.

(** A task no queue links. *)
Lemma unlinked_spared t s :
  Inv false false 0 s -> (forall m, senders s !! t = Some m -> s_list m = None) ->
  (forall r, receivers s !! t = Some r -> r_msg r <> inr (- EAGAIN)) ->
  spared t (sleeping s !! t) (senders s !! t) (receivers s !! t) s.
Proof.
  intros H Hs Hr. constructor; try reflexivity. intros p q Hp. pose proof (inv_link _ _ _ _ H _ _ Hp) as [_ _ L1 L2]. split.
  - intros (r & Er & _ & Em)%L2. exact (Hr r Er Em).
  - intros (m & Em & El)%L1. rewrite (Hs m Em) in El. discriminate.
Qed.

(** A sender that was unlinked, when its identifier is not one of a queue: its
    slot is free, or another queue has it. *)
Lemma resume_sender_removed e id msg sz fl m s :
  Inv false false 0 s -> sleeping s !! e_pid e = Some (PSnd id msg sz fl) -> 0 <= id ->
  senders s !! e_pid e = Some m -> s_list m = None -> (forall p q, ~ names s id p q) ->
  exists s', run_call e Resume s =
    OK (AnsSnd (Some (if e_signal_pending e && bool_decide (is_Some (queue_at (msg_ids s) id))
                      then - EINTR else - EIDRM))) s'.
Proof.
  intros H Ht Hid Hm Hl Hno. destruct (queue_at (msg_ids s) id) as [p|] eqn:Hat.
  2: { rewrite andb_false_r. now apply (resume_sender_gone e id msg sz fl). }
  rewrite (bool_decide_true (is_Some (Some p))) by eauto. rewrite andb_true_r.
  destruct (tw_live _ _ _ (inv_table _ _ _ _ H) _ p (queue_at_slot _ _ _ Hat)) as [q Hq].
  assert (Hck : ipc_checkid (q_perm q) id = true).
  { destruct (ipc_checkid (q_perm q) id) eqn:E; [reflexivity|]. exfalso. apply (Hno p q). now split_and!. }
  cbn [run_call]. unfold bind at 1, get. rewrite Ht. unfold resume, bind at 1, modify at 1.
  unfold msgsnd_resume. set (s0 := set_sleeping _ s).
  unfold bind at 1. unfold bind at 1. rewrite (ipc_lock_eq id s0 Hid (inv_ids _ _ _ _ H) (inv_ary _ _ _ _ H)).
  change (queue_at (msg_ids s0) id) with (queue_at (msg_ids s) id). rewrite Hat. cbn beta iota.
  assert (Ed : ss_del (e_pid e) (locked s0) = OK tt (locked s0)).
  { unfold ss_del. change (senders (locked s0)) with (senders s). now rewrite Hm, Hl. }
  unfold bind at 1. rewrite Ed. unfold bind at 1, modify at 1.
  set (s1 := set_senders _ (locked s0)). assert (Ha : ids_ary (msg_ids s1) = true) by reflexivity.
  assert (Eu : ipc_unlock id s1 = OK tt (set_ids (fun i => ids_with_locks (ids_sem i) false i) s1)).
  { unfold ipc_unlock, spin_unlock. now rewrite Ha. }
  destruct (e_signal_pending e).
  - unfold bind at 1. rewrite Eu. run (free_msg_eq msg (set_ids (fun i => ids_with_locks (ids_sem i) false i) s1)).
    eexists. reflexivity.
  - unfold msgsnd_retry. unfold bind at 1. rewrite (deref_q_eq p q s1 Hq), Hck.
    unfold bind at 1. rewrite Eu. run (free_msg_eq msg (set_ids (fun i => ids_with_locks (ids_sem i) false i) s1)).
    eexists. reflexivity.
Qed.

(** The tasks that slept on a queue that was removed, whatever the others did
    since. *)
Section Removed.
Variables (s s' : sys) (p : Z) (q : msg_queue) (e : env).
Hypothesis HInv : Inv false false 0 s.
Hypothesis HInv' : Inv false false 0 s'.
Hypothesis Hp : queues s !! p = Some q.
Hypothesis Esn : senders s' = mark killed (q_senders q) (senders s).
Hypothesis Erc : receivers s' = mark (rcv_with_msg (inr (- EIDRM))) (q_receivers q) (receivers s).
Hypothesis Esl : sleeping s' = sleeping s.

Lemma removed_sender :
  e_pid e ∈ q_senders q ->
  exists id msg sz fl, sleeping s !! e_pid e = Some (PSnd id msg sz fl) /\
    forall s1, rtc (step_of_others (e_pid e)) s' s1 -> (forall p' q', ~ names s1 id p' q') ->
    exists s2, run_call e Resume s1 =
      OK (AnsSnd (Some (if e_signal_pending e && bool_decide (is_Some (queue_at (msg_ids s1) id))
                        then - EINTR else - EIDRM))) s2.
Proof using All.
  intros Ht. destruct (Inv_linked_sender _ _ _ _ _ _ _ HInv Hp Ht) as (id & msg & sz & fl & Hs & Hid & _ & m & Hm).
  exists id, msg, sz, fl. split; [exact Hs|]. intros s1 Hr Hno.
  pose proof (inv_link _ _ _ _ HInv _ _ Hp) as Hl.
  assert (Hm' : senders s' !! e_pid e = Some (killed m)).
  { rewrite Esn, mark_lookup by apply Hl. rewrite decide_True by assumption. now rewrite Hm. }
  assert (Hrn : receivers s' !! e_pid e = None).
  { pose proof (inv_task _ _ _ _ HInv' (e_pid e)) as Hw. rewrite Esl, Hs in Hw. apply Hw. }
  assert (Hsp : spared (e_pid e) (sleeping s' !! e_pid e) (senders s' !! e_pid e) (receivers s' !! e_pid e) s').
  { apply unlinked_spared; [exact HInv' | | rewrite Hrn; discriminate]. rewrite Hm'. now intros ? [= <-]. }
  destruct (others_spare _ _ _ _ _ _ Hsp Hr) as [S1 S2 _ _]. rewrite Esl, Hs in S1. rewrite Hm' in S2.
  apply (resume_sender_removed e id msg sz fl (killed m)); try assumption; [|reflexivity].
  exact (others_Inv _ _ _ HInv' Hr).
Qed.

Lemma removed_receiver :
  e_pid e ∈ q_receivers q -> forall s1, rtc (step_of_others (e_pid e)) s' s1 ->
  exists s2, run_call e Resume s1 = OK (AnsRcv (Some (err_reply (- EIDRM)))) s2.
Proof using All.
  intros Ht s1 Hr. destruct (Inv_linked_receiver _ _ _ _ _ _ _ HInv Hp Ht) as (id & sz & ty & mo & fl & sp & r & Hs & Hid & Hrec).
  pose proof (inv_link _ _ _ _ HInv _ _ Hp) as Hl.
  assert (Hr' : receivers s' !! e_pid e = Some (rcv_with_msg (inr (- EIDRM)) r)).
  { rewrite Erc, mark_lookup by apply Hl. rewrite decide_True by assumption. now rewrite Hrec. }
  assert (Hsn : senders s' !! e_pid e = None).
  { pose proof (inv_task _ _ _ _ HInv' (e_pid e)) as Hw. rewrite Esl, Hs in Hw. apply Hw. }
  assert (Hsp : spared (e_pid e) (sleeping s' !! e_pid e) (senders s' !! e_pid e) (receivers s' !! e_pid e) s').
  { apply unlinked_spared; [exact HInv' | rewrite Hsn; discriminate|]. rewrite Hr'. intros ? [= <-]. discriminate. }
  destruct (others_spare _ _ _ _ _ _ Hsp Hr) as [S1 _ S3 _]. rewrite Esl, Hs in S1. rewrite Hr' in S3.
  apply (resume_receiver_error e id p sz ty mo fl sp (rcv_with_msg (inr (- EIDRM)) r)); try assumption;
    [exact (others_Inv _ _ _ HInv' Hr) | reflexivity | discriminate].
Qed.
End Removed.
