(* ===== verification/SysvTheorems.v ===== *)
(** * The message queue module: theorems

    Properties of every state the module can reach, and of the calls made from
    such a state; each with an instance on a concrete run. *)

From stdpp Require Import base tactics numbers list gmap relations.
From S2P Require Import Prelude.
From S2P Require Import SysvState.
From S2P Require Import IpcUtil.
From S2P Require Import IpcFacts.
From S2P Require Import SysvMsg.
From S2P Require Import MsgText.
From S2P Require Import SysvInv.
From S2P Require Import SysvOps.
From S2P Require Import SysvTransfer.
From S2P Require Import SysvSearch.
From S2P Require Import SysvSystem.
From S2P Require Import SysvEffects.

(** ** A concrete run *)

(** A task with all capabilities in an environment where nothing fails. *)
Definition root_env (pid : Z) : env :=
  ENV pid 0 0 (fun _ => true) (fun _ => true) 1000 false (fun _ => true) (fun _ => true).

(** Run a list of calls, [None] when one is not allowed or meets a fault. *)
Fixpoint exec (l : list (env * call)) (s : sys) : option sys :=
  match l with
  | [] => Some s
  | (e, c) :: l' =>
      if decide (allowed e c s)
      then match run_call e c s with OK _ s' => exec l' s' | Fault _ => None end
      else None
  end.

Lemma exec_rtc l s s' : exec l s = Some s' -> rtc step s s'.
Proof.
  revert s. induction l as [|[e c] l IH]; intros s; cbn; [intros [= ->]; apply rtc_refl|].
  case_decide as Ha; [|discriminate]. destruct (run_call e c s) as [a s1|] eqn:E; [|discriminate].
  intros H. eapply rtc_l; [exact (Step s e c a s1 Ha E) | auto].
Qed.

Definition boot (e : env) : sys :=
  match msg_init e unloaded with OK _ s => s | Fault _ => unloaded end.

Definition run_from_boot (l : list (env * call)) : sys :=
  match exec l (boot (root_env 0)) with Some s => s | None => boot (root_env 0) end.

Lemma run_from_boot_reachable l : reachable (run_from_boot l).
Proof.
  exists (root_env 0), (boot (root_env 0)). split; [reflexivity|]. unfold run_from_boot.
  destruct (exec l (boot (root_env 0))) as [s|] eqn:E; [now apply exec_rtc in E | apply rtc_refl].
Qed.

(** A queue with key 42, one message of type 5 in it. *)
Definition demo_calls : list (env * call) :=
  [ (root_env 1, CallGet 42 (IPC_CREAT + 511));
    (root_env 1, CallSnd 0 5 [10; 20; 30] 3 0 true) ].
Definition demo : sys := run_from_boot demo_calls.

(** The queue made and emptied, and task 2 waiting for a message of type 7. *)
Definition demo_wait : sys :=
  run_from_boot
    [ (root_env 1, CallGet 42 (IPC_CREAT + 511));
      (root_env 2, CallRcv 0 100 7 0 true) ].

Definition demo_queue (s : sys) : msg_queue :=
  match queues s !! 1 with Some q => q | None => fresh_queue (root_env 0) 0 0 0 end.

Lemma demo_opens flag : flag = S_IWUGO \/ flag = S_IRUGO ->
  opens (root_env 3) demo 0 flag 1 (demo_queue demo) /\
  opens (root_env 3) demo_wait 0 flag 1 (demo_queue demo_wait).
Proof. intros [-> | ->]; split; constructor; try (vm_compute; reflexivity); lia. Qed.

(** ** Safety *)

(** C1: whatever calls the tasks make, in whatever order and interleaving, and
    whatever fails around them (memory, copies, permissions, signals), every
    call allowed in a reachable state runs to its return or to [schedule()]:
    no [BUG()], no access to a freed queue or to a stack that is gone, no index
    outside the table, no lock taken twice or released when free; both locks
    are free afterwards, and the state is again a reachable one. *)
Theorem sysvmsg_never_faults s e c :
  reachable s -> allowed e c s ->
  exists a s', run_call e c s = OK a s' /\ reachable s' /\
    ids_sem (msg_ids s') = false /\ ids_ary (msg_ids s') = false.
Proof.
  intros Hr Ha. destruct (run_call_safe e c s (reachable_Inv s Hr) Ha) as (a & s' & E & HI).
  exists a, s'. split_and!; [exact E | | apply HI | apply HI].
  destruct Hr as (e0 & s0 & Hb & Hs). exists e0, s0. split; [exact Hb|].
  eapply rtc_r; [exact Hs | exact (Step s e c a s' Ha E)].
Qed.

Lemma sysvmsg_never_faults_witness :
  exists a s', run_call (root_env 2) Resume demo_wait = OK a s' /\ reachable s' /\
    ids_sem (msg_ids s') = false /\ ids_ary (msg_ids s') = false.
Proof.
  apply (sysvmsg_never_faults demo_wait (root_env 2) Resume).
  - apply run_from_boot_reachable.
  - vm_compute. eauto.
Defined.

(** ** Accounting *)

(** C2: in every reachable state the counters agree with the data: the bytes
    and messages of a queue ([q_cbytes], [q_qnum]) and of the module
    ([msg_bytes], [msg_hdrs]) are those of the messages queued, modulo 2^32,
    and exactly as long as a queue holds less than 2^32 bytes and messages. *)
Theorem sysvmsg_accounting s :
  reachable s ->
  (forall p q, queues s !! p = Some q ->
     q_cbytes q ≡₃₂ sumZ m_ts (q_messages q) /\
     q_qnum q ≡₃₂ Z.of_nat (length (q_messages q)) /\
     (sumZ m_ts (q_messages q) < 2 ^ 32 -> q_cbytes q = sumZ m_ts (q_messages q)) /\
     (Z.of_nat (length (q_messages q)) < 2 ^ 32 ->
        q_qnum q = Z.of_nat (length (q_messages q)))) /\
  msg_bytes s ≡₃₂ msum q_text (queues s) /\ msg_hdrs s ≡₃₂ msum q_count (queues s).
Proof.
  intros Hr. pose proof (reachable_Inv s Hr) as H. split_and!; [|apply H | apply H].
  intros p q Hp. destruct (inv_queue _ _ _ _ H _ _ Hp) as [_ [Hcr Hc] [Hnr Hn] _ Hms].
  assert (0 <= sumZ m_ts (q_messages q)).
  { apply sumZ_nonneg. intros m Hm. rewrite Forall_forall in Hms. now apply (Hms m). }
  split_and!; try assumption; intros; apply eq32_small; (assumption || lia).
Qed.

Lemma sysvmsg_accounting_witness :
  (exists q, queues demo !! 1 = Some q /\ q_cbytes q = 3) /\
  msg_bytes demo ≡₃₂ msum q_text (queues demo) /\ msg_hdrs demo ≡₃₂ msum q_count (queues demo).
Proof.
  split; [eexists; split; vm_compute; reflexivity|].
  apply (sysvmsg_accounting demo). apply run_from_boot_reachable.
Defined.

(** C3: no memory is lost.  In every reachable state the blocks allocated and
    not freed are the identifier table, the queues, the segments of the
    messages in them, those of the messages sleeping senders hold and of the
    messages handed to receivers that did not resume yet; so once the queues
    are removed and nobody sleeps only the table is left. *)
Theorem sysvmsg_no_leak s :
  reachable s ->
  heap s = (if 0 <? ids_size (msg_ids s) then 1 else 0) + msum q_blocks (queues s)
           + msum pend_blocks (sleeping s) + msum rcv_blocks (receivers s) /\
  (queues s = ∅ -> sleeping s = ∅ -> heap s = if 0 <? ids_size (msg_ids s) then 1 else 0).
Proof.
  intros Hr. pose proof (reachable_Inv s Hr) as H. pose proof (inv_heap _ _ _ _ H) as Hh.
  unfold tab_blocks in Hh. split; [lia|]. intros Eq Es. rewrite Hh, Eq, Es.
  assert (receivers s = ∅) as ->.
  { apply map_empty. intros t. pose proof (inv_task _ _ _ _ H t) as Hw.
    rewrite Es, lookup_empty in Hw. apply Hw. }
  rewrite !msum_empty. lia.
Qed.

Lemma sysvmsg_no_leak_witness : heap demo = 3.
Proof.
  destruct (sysvmsg_no_leak demo (run_from_boot_reachable _)) as [E _]. rewrite E.
  vm_compute. reflexivity.
Defined.

(** ** Sending and receiving *)

(** C4: [msgsnd] on a queue the caller may write, with room for the message:
    it returns 0; the message goes to the first waiting receiver that wants it
    and can hold it ([choose]), the receivers before it that want it and are
    too small get [-E2BIG] ([handed]); when there is none it becomes the last
    mail of the queue.  The queue remembers the sender and the time, the other
    queues are untouched. *)
Theorem msgsnd_delivers s e msqid mtype mtext msgsz msgflg space p q :
  reachable s -> opens e s msqid S_IWUGO p q -> env_ok e space ->
  1 <= mtype < 2 ^ 31 -> 0 <= msgsz <= msg_ctlmax -> room q msgsz = true ->
  let msg := made mtype mtext msgsz in
  let c := choose (receivers s) msg (q_receivers q) in
  exists s' q', _rt_msgsnd e msqid mtype mtext msgsz msgflg space s = OK (Some 0) s' /\
    queues s' !! p = Some q' /\
    mailbox q' = (if snd c is Some _ then mailbox q
                  else mailbox q ++ [(mtype, take (Z.to_nat msgsz) mtext)]) /\
    q_lspid q' = e_pid e /\ q_stime q' = e_get_seconds e /\
    receivers s' = handed msg c (receivers s) /\ sleeping s' = sleeping s /\
    (forall p', p' <> p -> queues s' !! p' = queues s !! p').
Proof.
  intros Hr Hop He Ht Hsz Hroom msg c. pose proof (reachable_Inv s Hr) as H.
  destruct (rt_msgsnd_enter e msqid mtype mtext msgsz msgflg space p q s H Hop He Ht Hsz)
    as (Hm & HI & Hop' & E). fold msg in Hm, HI, Hop', E.
  destruct (msgsnd_retry_room e msqid p q msg msgflg _ _ HI Hop' Hm Hroom)
    as (s' & q' & E' & Hq' & Hmsgs & Hl & Ht' & _ & _ & _ & Hrc & Hsl & Ho).
  change (m_ts msg) with msgsz in E'. rewrite <- E in E'.
  exists s', q'. split_and!; try assumption.
  unfold mailbox. rewrite Hmsgs. fold c. change (receivers (locked _)) with (receivers s). fold c.
  destruct (snd c); [reflexivity|]. rewrite fmap_app. cbn. unfold mail_of at 2. unfold msg, made.
  rewrite payload_loaded by lia. reflexivity.
Qed.

Lemma msgsnd_delivers_witness :
  exists s' q', _rt_msgsnd (root_env 3) 0 9 [1; 2] 2 0 true demo = OK (Some 0) s' /\
    queues s' !! 1 = Some q' /\ mailbox q' = [(5, [10; 20; 30]); (9, [1; 2])].
Proof.
  destruct (msgsnd_delivers demo (root_env 3) 0 9 [1; 2] 2 0 true 1 (demo_queue demo))
    as (s' & q' & E & Hq & Hm & _).
  - apply run_from_boot_reachable.
  - apply demo_opens. now left.
  - now split.
  - lia.
  - unfold msg_ctlmax, MSGMAX. lia.
  - vm_compute. reflexivity.
  - exists s', q'. split_and!; [exact E | exact Hq|]. rewrite Hm. vm_compute. reflexivity.
Defined.

(** [msgrcv] on a queue the caller may read, for every type asked for: the
    message taken is the one [pick] selects. *)
Lemma msgrcv_effect s e msqid msgsz msgtyp msgflg space p q :
  reachable s -> opens e s msqid S_IRUGO p q -> env_ok e space ->
  - 2 ^ 31 < msgtyp < 2 ^ 31 -> 0 <= msgsz < 2 ^ 31 ->
  match pick msgtyp msgflg (mailbox q) with
  | None => exists s',
      _rt_msgrcv e msqid msgsz msgtyp msgflg space s
        = OK (if nowait msgflg then Some (err_reply (- ENOMSG)) else None) s' /\
      if nowait msgflg then s' = s
      else queues s' = <[p := msq_with_receivers (q_receivers q ++ [e_pid e]) q]> (queues s)
  | Some k => exists m, q_messages q !! k = Some m /\
      if (msgsz <? m_ts m) && negb (noerror msgflg) then
        _rt_msgrcv e msqid msgsz msgtyp msgflg space s = OK (Some (err_reply (- E2BIG))) s
      else exists s' q',
        _rt_msgrcv e msqid msgsz msgtyp msgflg space s =
          OK (Some (REPLY (Z.min msgsz (m_ts m)) (Some (m_type m))
                      (take (Z.to_nat (Z.min msgsz (m_ts m))) (payload m)))) s' /\
        queues s' = <[p := q']> (queues s) /\ mailbox q' = delete k (mailbox q) /\
        woken s' = rev (q_senders q) ++ woken s /\ heap s' = heap s - msg_blocks m
  end.
Proof.
  intros Hr Hop He Ht Hsz. pose proof (reachable_Inv s Hr) as H.
  destruct (pick msgtyp msgflg (mailbox q)) as [k|] eqn:Ep.
  - destruct (rt_msgrcv_some e msqid msgsz msgtyp msgflg space p q s k H Hop He Ht Hsz Ep)
      as (m & Hk & Hm).
    exists m. split; [exact Hk|]. destruct (_ && _); [exact Hm|].
    destruct Hm as (s' & E & Eq & Ew & Eh). exists s', (dequeued e k m q).
    split_and!; try assumption. apply list_fmap_delete.
  - now apply rt_msgrcv_none.
Qed.

(** C5: [msgrcv] on a queue the caller may read, with a [msgtyp] above the least
    [int], takes the message the contract documented above [convert_mode] selects
    from the mailbox: the first of any type, the first of type [msgtyp], the first
    of another type with [MSG_EXCEPT], or for a negative [msgtyp] the first of the
    lowest type below its opposite. A mailbox with a message of exactly that
    opposite type, on which the code and the comment differ, is left out. Without
    a message to take the call fails with [-ENOMSG] under [IPC_NOWAIT] and
    otherwise queues the caller. A message that does not fit is left there, with
    [-E2BIG], unless [MSG_NOERROR] truncates it; otherwise its type, size and text
    are returned, exactly that mail leaves the mailbox, every sleeping sender is
    woken and the memory of the message is freed. *)
Theorem msgrcv_refines_mailbox s e msqid msgsz msgtyp msgflg space p q :
  reachable s -> opens e s msqid S_IRUGO p q -> env_ok e space ->
  - 2 ^ 31 < msgtyp < 2 ^ 31 -> 0 <= msgsz < 2 ^ 31 ->
  (msgtyp < 0 -> Forall (fun m => fst m <> - msgtyp) (mailbox q)) ->
  match pick_documented msgtyp msgflg (mailbox q) with
  | None => exists s',
      _rt_msgrcv e msqid msgsz msgtyp msgflg space s
        = OK (if nowait msgflg then Some (err_reply (- ENOMSG)) else None) s' /\
      if nowait msgflg then s' = s
      else queues s' = <[p := msq_with_receivers (q_receivers q ++ [e_pid e]) q]> (queues s)
  | Some k => exists m, q_messages q !! k = Some m /\
      if (msgsz <? m_ts m) && negb (noerror msgflg) then
        _rt_msgrcv e msqid msgsz msgtyp msgflg space s = OK (Some (err_reply (- E2BIG))) s
      else exists s' q',
        _rt_msgrcv e msqid msgsz msgtyp msgflg space s =
          OK (Some (REPLY (Z.min msgsz (m_ts m)) (Some (m_type m))
                      (take (Z.to_nat (Z.min msgsz (m_ts m))) (payload m)))) s' /\
        queues s' = <[p := q']> (queues s) /\ mailbox q' = delete k (mailbox q) /\
        woken s' = rev (q_senders q) ++ woken s /\ heap s' = heap s - msg_blocks m
  end.
Proof. intros Hr Hop He Ht Hsz Hl. rewrite (pick_documented_eq _ _ _ Hl). now apply msgrcv_effect. Qed.

Lemma msgrcv_refines_mailbox_witness :
  exists s', _rt_msgrcv (root_env 3) 0 2 (-6) MSG_NOERROR true demo
    = OK (Some (REPLY 2 (Some 5) [10; 20])) s' /\ woken s' = [].
Proof.
  pose proof (msgrcv_refines_mailbox demo (root_env 3) 0 2 (-6) MSG_NOERROR true 1 (demo_queue demo)
    (run_from_boot_reachable _) (proj1 (demo_opens S_IRUGO ltac:(now right)))
    ltac:(now split) ltac:(lia) ltac:(lia) ltac:(intros _; vm_compute; repeat constructor; discriminate)) as H.
  change (pick_documented (-6) MSG_NOERROR (mailbox (demo_queue demo))) with (Some 0%nat) in H.
  cbn beta iota in H. destruct H as (m & Hm & H).
  vm_compute in Hm. injection Hm as <-.
  destruct H as (s' & q' & E & _ & _ & Ew & _). exists s'.
  split; [exact E | exact Ew].
Defined.

(** The type the comment leaves out is taken: a request for -5 gets the message
    of type 5. *)
Lemma msgrcv_takes_equal_type :
  pick_documented (-5) MSG_NOERROR (mailbox (demo_queue demo)) = None /\
  exists s', _rt_msgrcv (root_env 3) 0 2 (-5) MSG_NOERROR true demo
    = OK (Some (REPLY 2 (Some 5) [10; 20])) s'.
Proof.
  split; [vm_compute; reflexivity|].
  pose proof (msgrcv_effect demo (root_env 3) 0 2 (-5) MSG_NOERROR true 1 (demo_queue demo)
    (run_from_boot_reachable _) (proj1 (demo_opens S_IRUGO ltac:(now right)))
    ltac:(now split) ltac:(lia) ltac:(lia)) as H.
  change (pick (-5) MSG_NOERROR (mailbox (demo_queue demo))) with (Some 0%nat) in H.
  cbn beta iota in H. destruct H as (m & Hm & H). vm_compute in Hm. injection Hm as <-.
  destruct H as (s' & q' & E & _). exists s'. exact E.
Qed.

(** C6: a message comes back as it was sent.  On an empty queue nobody waits
    on, a send followed by a receive of any type, by any two tasks with access,
    returns the size, the type and the bytes that were sent, whatever the
    number of segments the text was cut into. *)
Theorem msgsnd_msgrcv_roundtrip s e e' msqid mtype mtext msgsz msgflg msgflg' space p q :
  reachable s -> sleeping s !! e_pid e = None ->
  opens e s msqid S_IWUGO p q -> ipcperms e' (q_perm q) S_IRUGO = 0 ->
  env_ok e space -> env_ok e' space -> q_messages q = [] -> q_receivers q = [] ->
  1 <= mtype < 2 ^ 31 -> 0 <= msgsz <= msg_ctlmax -> room q msgsz = true ->
  length mtext = Z.to_nat msgsz ->
  exists s' s'', _rt_msgsnd e msqid mtype mtext msgsz msgflg space s = OK (Some 0) s' /\
    _rt_msgrcv e' msqid msgsz 0 msgflg' space s'
      = OK (Some (REPLY msgsz (Some mtype) mtext)) s'' /\ heap s'' = heap s.
Proof.
  intros Hr Hal Hop Hrd He He' Hnil Hnorcv Ht Hsz Hroom Hlen.
  pose proof (reachable_Inv s Hr) as H.
  destruct (rt_msgsnd_enter e msqid mtype mtext msgsz msgflg space p q s H Hop He Ht Hsz)
    as (Hm & HI & Hop' & E). set (msg := made mtype mtext msgsz) in *.
  destruct (msgsnd_retry_room e msqid p q msg msgflg _ _ HI Hop' Hm Hroom)
    as (s' & q' & E' & Hq' & Hmsgs & _ & _ & Hpm & Hes & Hh & _ & Hsl & _).
  change (m_ts msg) with msgsz in E'. rewrite <- E in E'.
  rewrite Hnorcv, Hnil in Hmsgs. cbn in Hmsgs.
  destruct (run_call_safe e (CallSnd msqid mtype mtext msgsz msgflg space) s H Hal)
    as (a & s2 & Erun & HI'). cbn [run_call] in Erun. unfold bind in Erun. rewrite E' in Erun.
  injection Erun as <- <-. destruct Hop as [Hid Hat Hp Hck Hwr].
  assert (Hop2 : opens e' s' msqid S_IRUGO p q').
  { constructor; rewrite ?Hpm; try assumption. unfold queue_at. rewrite Hes. exact Hat. }
  destruct (rt_msgrcv_some e' msqid msgsz 0 msgflg' space p q' s' 0 HI' Hop2 He' ltac:(lia)
    ltac:(unfold msg_ctlmax, MSGMAX in Hsz; lia)) as (m & Hk & Hrcv).
  { unfold mailbox. rewrite Hmsgs. reflexivity. }
  rewrite Hmsgs in Hk. injection Hk as <-. change (m_ts msg) with msgsz in Hrcv.
  rewrite Z.ltb_irrefl, Z.min_id in Hrcv. cbn [andb] in Hrcv.
  destruct Hrcv as (s'' & Ercv & _ & _ & Hh2).
  exists s', s''. split_and!; [exact E' | |].
  - rewrite Ercv. do 3 f_equal. unfold msg, made.
    rewrite payload_loaded, take_take, Nat.min_id by lia. apply take_ge. lia.
  - rewrite Hh2, Hh. cbn. lia.
Qed.

Lemma msgsnd_msgrcv_roundtrip_witness :
  let s := run_from_boot [ (root_env 1, CallGet 42 (IPC_CREAT + 511)) ] in
  exists s' s'', _rt_msgsnd (root_env 3) 0 9 [1; 2; 3] 3 0 true s = OK (Some 0) s' /\
    _rt_msgrcv (root_env 4) 0 3 0 0 true s' = OK (Some (REPLY 3 (Some 9) [1; 2; 3])) s'' /\
    heap s'' = heap s.
Proof.
  intros s. apply (msgsnd_msgrcv_roundtrip s (root_env 3) (root_env 4) 0 9 [1; 2; 3] 3 0 0 true
                    1 (demo_queue s)); try reflexivity; try lia; try (now split).
  apply run_from_boot_reachable.
Defined.

(** [msgsnd] on a full queue.  Under [IPC_NOWAIT] it fails with [-EAGAIN]
    and leaves the memory exactly as it was; otherwise the caller sleeps at the
    end of the list of senders, keeping its message. *)
Theorem msgsnd_full s e msqid mtype mtext msgsz msgflg space p q :
  reachable s -> opens e s msqid S_IWUGO p q -> env_ok e space ->
  1 <= mtype < 2 ^ 31 -> 0 <= msgsz <= msg_ctlmax -> room q msgsz = false ->
  exists s', _rt_msgsnd e msqid mtype mtext msgsz msgflg space s
      = OK (if nowait msgflg then Some (- EAGAIN) else None) s' /\
    if nowait msgflg then s' = s
    else sleeping s' = <[e_pid e := PSnd msqid (made mtype mtext msgsz) msgsz msgflg]> (sleeping s) /\
         queues s' = <[p := msq_with_senders (q_senders q ++ [e_pid e]) q]> (queues s).
Proof. intros Hr. apply rt_msgsnd_full. now apply reachable_Inv. Qed.

(** The demo queue with its size limited to 4 bytes. *)
Definition demo_small : sys :=
  run_from_boot (demo_calls ++
    [ (root_env 1, CallCtl 0 (IPC_SET + IPC_64)
        (Buf (M64 (I64P 0 0 0 0 0 511 0) 0 0 0 0 0 4 0 0)
             (MDS (IPP 0 0 0 0 0 0 0) 0 0 0 0 0 0 0 0 0 0)) true) ]).

Lemma msgsnd_full_witness :
  _rt_msgsnd (root_env 3) 0 9 [1; 2] 2 IPC_NOWAIT true demo_small = OK (Some (- EAGAIN)) demo_small.
Proof.
  destruct (msgsnd_full demo_small (root_env 3) 0 9 [1; 2] 2 IPC_NOWAIT true 1 (demo_queue demo_small))
    as (s' & E & ->).
  - apply run_from_boot_reachable.
  - constructor; vm_compute; congruence.
  - now split.
  - lia.
  - unfold msg_ctlmax, MSGMAX. lia.
  - vm_compute. reflexivity.
  - exact E.
Defined.

(** ** Removing and creating queues *)

(** C8: [msgctl(IPC_RMID)] by a task that may: it returns 0, the queue and all
    its memory are gone and its slot is free.  Every task that slept in [msgrcv]
    on it returns [-EIDRM] when it resumes, whatever the other tasks did in
    between.  So does every task that slept in [msgsnd] on it, as long as its
    identifier has not come round to a new queue, except that it returns
    [-EINTR] when its slot has been given to another queue and a signal is
    pending. *)
Theorem msgctl_rmid_ends_waits s e msqid p q out space :
  reachable s -> names s msqid p q -> may_change e q = true ->
  exists s', _rt_msgctl e msqid IPC_RMID out space s = OK (0, OutNone) s' /\
    queues s' = delete p (queues s) /\ heap s' = heap s - q_blocks q /\
    queue_at (msg_ids s') msqid = None /\
    (forall e', e_pid e' ∈ q_senders q ->
       exists id msg sz fl, sleeping s !! e_pid e' = Some (PSnd id msg sz fl) /\
       forall s1, rtc (step_of_others (e_pid e')) s' s1 -> (forall p' q', ~ names s1 id p' q') ->
       exists s'', run_call e' Resume s1 =
         OK (AnsSnd (Some (if e_signal_pending e' && bool_decide (is_Some (queue_at (msg_ids s1) id))
                           then - EINTR else - EIDRM))) s'') /\
    (forall e', e_pid e' ∈ q_receivers q -> forall s1, rtc (step_of_others (e_pid e')) s' s1 ->
       exists s'', run_call e' Resume s1 = OK (AnsRcv (Some (err_reply (- EIDRM)))) s'').
Proof.
  intros Hr (Hid & Hat & Hp & Hck) Hmay. pose proof (reachable_Inv s Hr) as H.
  destruct (rmid_effect e msqid p q s H Hid Hat Hp Hck Hmay)
    as (s' & E & Eq & Ees & Erc & Esn & Esl & Eh & _).
  destruct (msgctl_change_safe e msqid None 0 s Hid I H) as (r & s2 & E2 & HI & _).
  rewrite E in E2. injection E2 as <- <-.
  assert (Hslot : queue_at (msg_ids s') msqid = None).
  { unfold queue_at. rewrite Ees, list_lookup_insert_eq; [reflexivity|].
    apply queue_at_slot in Hat. exact (lookup_lt_Some _ _ _ Hat). }
  exists s'. split_and!; try assumption.
  - unfold _rt_msgctl. rewrite (proj2 (Z.ltb_ge msqid 0)) by assumption.
    change (ipc_parse_version IPC_RMID) with (IPC_OLD, IPC_RMID). cbn -[msgctl_change bind].
    now run E.
  - intros e' Ht. now apply (removed_sender s s' p q e').
  - intros e' Ht. now apply (removed_receiver s s' p q e').
Qed.

Lemma msgctl_rmid_ends_waits_witness :
  exists s' s'', _rt_msgctl (root_env 1) 0 IPC_RMID BufNull true demo_wait = OK (0, OutNone) s' /\
    heap s' = 1 /\ run_call (root_env 2) Resume s' = OK (AnsRcv (Some (err_reply (- EIDRM)))) s''.
Proof.
  destruct (msgctl_rmid_ends_waits demo_wait (root_env 1) 0 1 (demo_queue demo_wait) BufNull true)
    as (s' & E & _ & Eh & _ & _ & Hrcv).
  - apply run_from_boot_reachable.
  - split_and!; vm_compute; congruence.
  - reflexivity.
  - destruct (Hrcv (root_env 2) ltac:(vm_compute; constructor) s' (rtc_refl _ _)) as [s'' E'].
    exists s', s''. split_and!; [exact E | rewrite Eh; vm_compute; reflexivity | exact E'].
Defined.

(** C9: [msgget] with a public key.  A key in use gives the identifier of the
    one queue that has it, always the same, or [-EEXIST] for an exclusive
    creation, or [-EACCES]; a key nobody has gives [-ENOENT], or with
    [IPC_CREAT] a new empty queue with that key (or an error).  The memory is
    unchanged in every case but the creation. *)
Theorem msgget_by_key s e key flg :
  reachable s -> key <> IPC_PRIVATE ->
  (forall id p q, names s id p q -> p_key (q_perm q) = key ->
     rt_msgget e key flg s =
       OK (if creates flg && excl flg then - EEXIST
           else if ipcperms e (q_perm q) (wrap_s 16 flg) =? 0 then id else - EACCES) s) /\
  ((forall p q, queues s !! p = Some q -> p_key (q_perm q) <> key) ->
     if creates flg then exists r s', rt_msgget e key flg s = OK r s' /\
       (r < 0 \/ exists p q, names s' r p q /\ p_key (q_perm q) = key /\ q_messages q = [] /\
                             queues s !! p = None)
     else rt_msgget e key flg s = OK (- ENOENT) s).
Proof.
  intros Hr Hk. pose proof (reachable_Inv s Hr) as H. split.
  - intros id p q Hn Hq. now apply (msgget_existing e key flg s id p q).
  - intros Hno. now apply msgget_absent.
Qed.

Lemma msgget_by_key_witness : rt_msgget (root_env 9) 42 0 demo = OK 0 demo.
Proof.
  destruct (msgget_by_key demo (root_env 9) 42 0 (run_from_boot_reachable _) ltac:(discriminate))
    as [H _].
  apply (H 0 1 (demo_queue demo)); [split_and!; vm_compute; congruence | vm_compute; reflexivity].
Defined.

(** C10: identifiers.  Every queue of a reachable state has exactly one valid
    identifier, a non-negative [int] that [ipc_lock] resolves to it and
    [ipc_checkid] accepts; no identifier names two queues. *)
Theorem sysvmsg_identifiers s :
  reachable s ->
  (forall p q, queues s !! p = Some q ->
     exists id, 0 <= id <= INT_MAX /\ names s id p q /\ ipc_lock id s = OK (Some p) (locked s) /\
                forall id', names s id' p q -> id' = id) /\
  (forall id p1 q1 p2 q2, names s id p1 q1 -> names s id p2 q2 -> p1 = p2 /\ q1 = q2).
Proof.
  intros Hr. pose proof (reachable_Inv s Hr) as H. split.
  - intros p q Hp. destruct (tw_slot _ _ _ (inv_table _ _ _ _ H) _ _ Hp) as [i Hi].
    pose proof (buildid_names _ _ _ _ _ _ _ H Hi Hp) as Hn.
    exists (ipc_buildid (Z.of_nat i) (p_seq (q_perm q))). split_and!; try assumption; try apply Hn.
    + pose proof (lookup_lt_Some _ _ _ Hi). pose proof (inv_ids _ _ _ _ H) as [Hs Hl _ _ _ _].
      assert (msg_ctlmni <= IPCMNI) by easy. apply buildid_range; [lia | apply (inv_queue _ _ _ _ H _ _ Hp)].
    + destruct Hn as (Hid & Hat & _). rewrite (lock_spec _ _ _ _ Hid H). now rewrite Hat.
    + intros id' Hn'. exact (names_buildid _ _ _ _ _ _ _ _ H Hn' Hi).
  - intros id p1 q1 p2 q2 (_ & A1 & A2 & _) (_ & B1 & B2 & _).
    assert (p1 = p2) as -> by congruence. split; congruence.
Qed.

Lemma sysvmsg_identifiers_witness :
  exists id, names demo id 1 (demo_queue demo) /\ ipc_lock id demo = OK (Some 1) (locked demo).
Proof.
  destruct (sysvmsg_identifiers demo (run_from_boot_reachable _)) as [H _].
  destruct (H 1 (demo_queue demo)) as (id & _ & Hn & El & _); [vm_compute; reflexivity|].
  now exists id.
Defined.

(** The identifier table.  In every reachable state [in_use] is the number
    of slots in use and [max_id] the greatest of them (-1 for none), so that the
    scan of [ipc_findkey] up to [max_id] misses no queue: it returns the first
    slot whose queue has the key, or -1 exactly when no queue has it. *)
Theorem sysvmsg_table s key :
  reachable s ->
  ids_in_use (msg_ids s) = used (ids_entries (msg_ids s)) /\
  is_max_id (ids_entries (msg_ids s)) (ids_max_id (msg_ids s)) /\
  exists r, ipc_findkey key s = OK r s /\
    (r = -1 <-> forall p q, queues s !! p = Some q -> p_key (q_perm q) <> key) /\
    (r <> -1 -> exists p q, queue_at (msg_ids s) r = Some p /\ queues s !! p = Some q /\
                            p_key (q_perm q) = key).
Proof.
  intros Hr. pose proof (reachable_Inv s Hr) as H. pose proof (inv_ids _ _ _ _ H) as Hwf.
  split_and!; [apply Hwf | apply Hwf|]. eexists. split; [exact (findkey_spec _ _ _ _ key H)|].
  set (r := first_slot _ _ _). split.
  - split; [intros E p q Hp; exact (findkey_none _ _ _ _ _ H E p q Hp)|].
    intros Hno. destruct (Z.eq_dec r (-1)) as [E|E]; [exact E|].
    destruct (findkey_some _ _ _ _ _ _ H eq_refl E) as (_ & p & q & _ & Hp & Hk).
    destruct (Hno p q Hp Hk).
  - intros E. destruct (findkey_some _ _ _ _ _ _ H eq_refl E) as (_ & p & q & ? & ? & ?). eauto.
Qed.

Lemma sysvmsg_table_witness :
  is_max_id (ids_entries (msg_ids demo)) (ids_max_id (msg_ids demo)) /\
  ipc_findkey 42 demo = OK 0 demo.
Proof.
  destruct (sysvmsg_table demo 42 (run_from_boot_reachable _)) as (_ & Hm & r & E & _).
  split; [exact Hm | vm_compute; reflexivity].
Defined.

(** [IPC_NOWAIT].  In any reachable state a [msgsnd] or [msgrcv] with that
    flag returns a result in the same step, it never reaches [schedule()]. *)
Theorem nowait_never_sleeps s e msqid mtype mtext msgsz msgtyp msgflg space :
  reachable s -> sleeping s !! e_pid e = None -> nowait msgflg = true ->
  (exists r s', _rt_msgsnd e msqid mtype mtext msgsz msgflg space s = OK (Some r) s' /\
                sleeping s' = sleeping s) /\
  (exists r s', _rt_msgrcv e msqid msgsz msgtyp msgflg space s = OK (Some r) s' /\
                sleeping s' = sleeping s).
Proof.
  intros Hr Ha Hn. pose proof (reachable_Inv s Hr) as H. split.
  - destruct (rt_msgsnd_safe e msqid mtype mtext msgsz msgflg space s H Ha) as (r & s' & pd & E & _ & Hs).
    destruct (rt_msgsnd_nowait _ _ _ _ _ _ _ _ _ _ Hn E) as [x ->]. eauto.
  - destruct (rt_msgrcv_safe e msqid msgsz msgtyp msgflg space s H Ha) as (r & s' & pd & E & _ & Hs).
    destruct (rt_msgrcv_nowait _ _ _ _ _ _ _ _ _ Hn E) as [x ->]. eauto.
Qed.

Lemma nowait_never_sleeps_witness :
  exists r s', _rt_msgrcv (root_env 3) 0 10 99 IPC_NOWAIT true demo = OK (Some r) s' /\
               sleeping s' = sleeping demo.
Proof.
  apply (nowait_never_sleeps demo (root_env 3) 0 1 [] 10 99 IPC_NOWAIT true);
    [apply run_from_boot_reachable | vm_compute; reflexivity | reflexivity].
Defined.

(** [Ipcperms] grants access exactly to a task with [CAP_IPC_OWNER] and
    to one whose class (owner or creator, their groups, others) has each of the
    read, write and execute bits asked for in any class of [flag]. *)
Theorem ipcperms_grants e ipcp flag :
  let class := if (e_euid e =? p_cuid ipcp) || (e_euid e =? p_uid ipcp) then 6
               else if e_in_group_p e (p_cgid ipcp) || e_in_group_p e (p_gid ipcp) then 3
               else 0 in
  ipcperms e ipcp flag = 0 <->
  e_capable e CAP_IPC_OWNER = true \/
  forall b, 0 <= b < 3 ->
    Z.testbit flag b || Z.testbit flag (b + 3) || Z.testbit flag (b + 6) = true ->
    Z.testbit (p_mode ipcp) (b + class) = true.
Proof.
  intros class. unfold ipcperms.
  replace (if (e_euid e =? p_cuid ipcp) || (e_euid e =? p_uid ipcp) then Z.shiftr (p_mode ipcp) 6
           else if e_in_group_p e (p_cgid ipcp) || e_in_group_p e (p_gid ipcp)
                then Z.shiftr (p_mode ipcp) 3 else p_mode ipcp)
    with (Z.shiftr (p_mode ipcp) class); cycle 1.
  { unfold class. destruct (_ || _); [reflexivity|]. destruct (_ || _); [reflexivity|].
    apply Z.shiftr_0_r. }
  assert (Hclass : 0 <= class) by (unfold class; repeat split_if; lia). clearbody class.
  set (x := Z.land _ 7).
  assert (Hx : x = 0 <-> forall b, 0 <= b < 3 ->
    Z.testbit flag b || Z.testbit flag (b + 3) || Z.testbit flag (b + 6) = true ->
    Z.testbit (p_mode ipcp) (b + class) = true).
  { assert (Hb : forall b, 0 <= b -> Z.testbit x b =
      (Z.testbit flag (b + 6) || Z.testbit flag (b + 3) || Z.testbit flag b)
      && negb (Z.testbit (p_mode ipcp) (b + class)) && (b <? 3)).
    { intros b Hb. unfold x. change 7 with (Z.ones 3).
      rewrite !Z.land_spec, !Z.lor_spec, !Z.shiftr_spec, Z.lnot_spec, Z.shiftr_spec by lia.
      rewrite Z.testbit_ones_nonneg by lia. reflexivity. }
    split.
    - intros E b Hr Hf. specialize (Hb b ltac:(lia)). rewrite E, Z.bits_0 in Hb.
      rewrite (proj2 (Z.ltb_lt b 3)), andb_true_r in Hb by lia.
      destruct (Z.testbit (p_mode ipcp) (b + class)); [reflexivity|].
      rewrite andb_true_r in Hb. rewrite !orb_true_iff in Hf. symmetry in Hb.
      rewrite !orb_false_iff in Hb. destruct Hb as [[H1 H2] H3]. destruct Hf as [[|]|]; congruence.
    - intros Hall. apply Z.bits_inj'. intros b Hr. rewrite Z.bits_0, Hb by assumption.
      destruct (Z.ltb_spec b 3); [|apply andb_false_r]. rewrite andb_true_r.
      destruct (Z.testbit flag (b + 6) || Z.testbit flag (b + 3) || Z.testbit flag b) eqn:Ef; [|reflexivity].
      rewrite Hall; [reflexivity | lia|]. rewrite !orb_true_iff in *. tauto. }
  rewrite <- Hx. destruct (Z.eqb_spec x 0) as [E|E], (e_capable e CAP_IPC_OWNER); cbn; intuition congruence.
Qed.
