(* ===== verification/SysvProc.v ===== *)
(** * The /proc report of the message queues ([sysvmsg_read_proc] of msg.c)

    The report is a heading and a line for each queue.  A read gives the part of it
    from an offset on; what it gives, that it stays in its page, and that reads one
    after the other give the whole of it. *)

From Stdlib Require Import Ascii String.
From stdpp Require Import base tactics numbers list gmap relations.
From S2P Require Import Prelude SysvState IpcUtil IpcFacts SysvMsg SysvInv SysvOps SysvSystem SysvEffects SysvTheorems.
#[local] Open Scope Z_scope.

(** ** [sprintf] *)

Abbreviation text := (list ascii).
Definition chars (s : string) : text := list_ascii_of_string s.

(** The digits of [n], at most [f] of them, before [acc]. *)
Fixpoint print_digits (f : nat) (base n : Z) (acc : text) : text :=
  match f with
  | O => acc
  | S f => let acc := ascii_of_nat (Z.to_nat (48 + n mod base)) :: acc in
           if n <? base then acc else print_digits f base (n / base) acc
  end.

Definition padded (w : nat) (l : text) : text := repeat " "%char (w - length l) ++ l.

(** The conversions [%d], [%u] (and [%lu]), [%o] with a width; eleven octal digits
    hold 32 bits. *)
Definition fmt_u (w : nat) (x : Z) : text := padded w (print_digits 10 10 (u32 x) []).
Definition fmt_o (w : nat) (x : Z) : text := padded w (print_digits 11 8 (u32 x) []).
Definition fmt_d (w : nat) (x : Z) : text :=
  padded w (if i32 x <? 0 then "-"%char :: print_digits 10 10 (- i32 x) [] else print_digits 10 10 (i32 x) []).

Definition newline : text := [ascii_of_nat 10].

(** ** [sysvmsg_read_proc] *)

Definition proc_heading : text :=
  (newline ++ newline ++ chars "RTAI SYSVMSG" ++ newline) ++ (chars "------------" ++ newline ++ newline) ++
  chars "       key      msqid perms      cbytes       qnum lspid lrpid   uid   gid  cuid  cgid      stime      rtime      ctime" ++ newline.

(** The line of the queue in slot [i]. *)
Definition proc_line (i : Z) (q : msg_queue) : text :=
  let p := q_perm q in let sp := chars " " in
  fmt_d 10 (p_key p) ++ sp ++ fmt_d 10 (ipc_buildid i (p_seq p)) ++ sp ++ sp ++ fmt_o 4 (p_mode p) ++ sp ++ sp ++
  fmt_u 10 (q_cbytes q) ++ sp ++ fmt_u 10 (q_qnum q) ++ sp ++ fmt_u 5 (q_lspid q) ++ sp ++ fmt_u 5 (q_lrpid q) ++ sp ++
  fmt_u 5 (p_uid p) ++ sp ++ fmt_u 5 (p_gid p) ++ sp ++ fmt_u 5 (p_cuid p) ++ sp ++ fmt_u 5 (p_cgid p) ++ sp ++
  fmt_u 10 (q_stime q) ++ sp ++ fmt_u 10 (q_rtime q) ++ sp ++ fmt_u 10 (q_ctime q) ++ newline.

Definition len (l : text) : Z := Z.of_nat (length l).

(** [len += sprintf(buffer + len, ..)], in the page of the caller; the string ends
    with a zero. *)
Definition sprintf (buffer : text) (l : text) : cmd text :=
  if PAGE_SIZE <? len (buffer ++ l) + 1 then fault F_BOUNDS else ret (buffer ++ l).

(** The loop, from the slot [i] with [n] slots left: the [len] characters at
    [buffer], [begin], and whether it came to the end. *)
Fixpoint proc_loop (offset length : Z) (n : nat) (i : Z) (buffer : text) (pos begin : Z) : cmd (text * Z * bool) :=
  match n with
  | O => ret (buffer, begin, true)
  | S n =>
      let! msq := ipc_lock i in
      match msq with
      | None => proc_loop offset length n (i + 1) buffer pos begin
      | Some p =>
          let! q := deref_q p in
          let! buffer := sprintf buffer (proc_line i q) in
          ipc_unlock i ;;
          let pos := i32 (pos + len buffer) in
          let '(buffer, begin) := if pos <? offset then ([], pos) else (buffer, begin) in
          if i32 (offset + length) <? pos then ret (buffer, begin, false)
          else proc_loop offset length n (i + 1) buffer pos begin
      end
  end.

(** The characters at [*start], as many as are returned, and [*eof]. *)
Definition sysvmsg_read_proc (offset length : Z) : cmd (text * bool) :=
  let! buffer := sprintf [] proc_heading in
  down ;;
  let! s := get in
  let! r := proc_loop offset length (Z.to_nat (ids_max_id (msg_ids s) + 1)) 0 buffer 0 0 in
  let '(buffer, begin, eof) := r in
  up ;;
  let n := len buffer - (offset - begin) in
  let n := if length <? n then length else n in
  let n := if n <? 0 then 0 else n in
  ret (take (Z.to_nat n) (drop (Z.to_nat (offset - begin)) buffer), eof).

(** ** The whole report *)

Fixpoint proc_rows (s : sys) (i : Z) (l : list (option Z)) : text :=
  match l with
  | [] => []
  | o :: l =>
      match o with
      | Some p => match queues s !! p with Some q => proc_line i q | None => [] end
      | None => []
      end ++ proc_rows s (i + 1) l
  end.

Definition report (s : sys) : text := proc_heading ++ proc_rows s 0 (ids_entries (msg_ids s)).

(** Reads of [length] characters one after the other, to one that gives nothing. *)
Fixpoint read_all (length : Z) (fuel : nat) (offset : Z) : cmd text :=
  match fuel with
  | O => ret []
  | S f => let! r := sysvmsg_read_proc offset length in
           if bool_decide (fst r = []) then ret []
           else let! l := read_all length f (offset + len (fst r)) in ret (fst r ++ l)
  end.

(** ** The length of a line *)

Lemma print_digits_len f base n acc : (length acc < length (print_digits (S f) base n acc) <= S f + length acc)%nat.
Proof.
  revert n acc. induction f as [|f IH]; intros n acc; [cbn; case_match; cbn; lia|].
  change (print_digits (S (S f)) base n acc) with
    (let acc := ascii_of_nat (Z.to_nat (48 + n mod base)) :: acc in if n <? base then acc else print_digits (S f) base (n / base) acc).
  cbv zeta. destruct (n <? base); [cbn [length]; lia|]. specialize (IH (n / base) (ascii_of_nat (Z.to_nat (48 + n mod base)) :: acc)).
  cbn [length] in IH. lia.
Qed.

Lemma padded_len w l m : (0 < length l <= m)%nat -> (0 < length (padded w l) <= max w m)%nat.
Proof. intros H. unfold padded. rewrite length_app, repeat_length. lia. Qed.

Lemma fmt_u_len w x : (0 < length (fmt_u w x) <= max w 10)%nat.
Proof. apply padded_len. pose proof (print_digits_len 9 10 (u32 x) []). cbn [length] in *. lia. Qed.

Lemma fmt_o_len w x : (0 < length (fmt_o w x) <= max w 11)%nat.
Proof. apply padded_len. pose proof (print_digits_len 10 8 (u32 x) []). cbn [length] in *. lia. Qed.

Lemma fmt_d_len w x : (0 < length (fmt_d w x) <= max w 11)%nat.
Proof.
  apply padded_len. pose proof (print_digits_len 9 10 (i32 x) []). pose proof (print_digits_len 9 10 (- i32 x) []). cbn [length] in *.
  destruct (i32 x <? 0); cbn [length]; lia.
Qed.

Lemma proc_line_len i q : 0 < len (proc_line i q) <= 159.
Proof.
  unfold len, proc_line. cbv zeta. rewrite !length_app.
  change (length (chars " ")) with 1%nat. change (length newline) with 1%nat.
  pose proof (fun w x => proj2 (fmt_u_len w x)) as Hu. pose proof (fun w x => proj2 (fmt_o_len w x)) as Ho.
  pose proof (fun w x => proj2 (fmt_d_len w x)) as Hd.
  repeat match goal with
  | |- context [length (fmt_u ?w ?x)] => pose proof (Hu w x); generalize dependent (length (fmt_u w x)); intros
  | |- context [length (fmt_o ?w ?x)] => pose proof (Ho w x); generalize dependent (length (fmt_o w x)); intros
  | |- context [length (fmt_d ?w ?x)] => pose proof (Hd w x); generalize dependent (length (fmt_d w x)); intros
  end. lia.
Qed.

Lemma heading_len : len proc_heading = 149.
Proof. reflexivity. Qed.

Lemma rows_len s i l : 0 <= len (proc_rows s i l) <= 159 * Z.of_nat (length l).
Proof.
  revert i. induction l as [|o l IH]; intros i; [unfold len; cbn [proc_rows length]; lia|]. specialize (IH (i + 1)). cbn [proc_rows].
  unfold len in *. rewrite length_app. cbn [length].
  assert (0 <= Z.of_nat (length match o with Some p => match queues s !! p with Some q => proc_line i q | None => [] end | None => [] end) <= 159);
    [|lia].
  destruct o as [p|]; [|cbn [length]; lia]. destruct (queues s !! p) as [q|]; [|cbn [length]; lia]. pose proof (proc_line_len i q). unfold len in *. lia.
Qed.

(** The report up to the slot [i]. *)
Definition upto (s : sys) (i : nat) : text := proc_heading ++ proc_rows s 0 (take i (ids_entries (msg_ids s))).

Lemma rows_app s i l l' : proc_rows s i (l ++ l') = proc_rows s i l ++ proc_rows s (i + Z.of_nat (length l)) l'.
Proof.
  revert i. induction l as [|a l IH]; intros i; cbn [proc_rows app length].
  - now rewrite Z.add_0_r.
  - rewrite IH. replace (i + 1 + Z.of_nat (length l)) with (i + Z.of_nat (S (length l))) by lia.
    now rewrite <- app_assoc.
Qed.

Lemma upto_S s i o : ids_entries (msg_ids s) !! i = Some o -> upto s (S i) = upto s i ++ proc_rows s (Z.of_nat i) [o].
Proof.
  intros E. unfold upto. rewrite (take_S_r _ _ _ E), rows_app, Z.add_0_l, length_take.
  pose proof (lookup_lt_Some _ _ _ E). rewrite Nat.min_l by lia. now rewrite <- app_assoc.
Qed.

Lemma upto_len s i : 149 <= len (upto s i) <= 149 + 159 * Z.of_nat (length (ids_entries (msg_ids s))).
Proof.
  unfold upto, len. rewrite length_app. pose proof heading_len as Hh. pose proof (rows_len s 0 (take i (ids_entries (msg_ids s)))) as Hr.
  unfold len in *. rewrite length_take in Hr. lia.
Qed.

Lemma upto_report s i : exists r, report s = upto s i ++ r.
Proof.
  unfold report, upto. set (l := ids_entries (msg_ids s)). exists (proc_rows s (0 + Z.of_nat (length (take i l))) (drop i l)).
  now rewrite <- app_assoc, <- rows_app, take_drop.
Qed.

(** ** The loop *)

Section Loop.
Context (s : sys) (offset length : Z).
Context (Hinv : Inv false false 0 s) (Hoff : 0 <= offset) (Hlen : 0 < length) (Hsum : offset + length < 2 ^ 31).

(** Before the slot [i]: the buffer has the report from [begin] on; [pos] is
    [begin], or both [pos] and the report are past [offset]. *)
Definition loop_ok (i : nat) (buffer : text) (pos begin : Z) : Prop :=
  0 <= begin <= offset /\ begin <= len (upto s i) /\ buffer = drop (Z.to_nat begin) (upto s i) /\
  0 <= pos <= 4096 * Z.of_nat i /\ (pos = begin \/ offset <= pos /\ offset <= len (upto s i)).

(** What the loop gives: the report from [begin] to the slot [j], either all the
    slots or past [offset]. *)
Definition loop_gives (n i : nat) (r : text * Z * bool) : Prop :=
  let '(buffer, begin, eof) := r in
  exists j, 0 <= begin <= offset /\ begin <= len (upto s j) /\ buffer = drop (Z.to_nat begin) (upto s j) /\
    (if eof then j = (i + n)%nat else offset < len (upto s j)).

Lemma small_table : (List.length (ids_entries (msg_ids s)) <= 16)%nat.
Proof. destruct (inv_ids _ _ _ _ Hinv) as [Hs Hl _ _ _ _]. unfold msg_ctlmni, MSGMNI in *. lia. Qed.

Lemma loop_none i buffer pos begin : upto s (S i) = upto s i -> loop_ok i buffer pos begin -> loop_ok (S i) buffer pos begin.
Proof. unfold loop_ok. intros ->. intuition lia. Qed.

Lemma len_drop (l : text) n : 0 <= n <= len l -> len (drop (Z.to_nat n) l) = len l - n.
Proof. unfold len. intros. rewrite length_drop. lia. Qed.

Lemma len_app (l l' : text) : len (l ++ l') = len l + len l'.
Proof. unfold len. rewrite length_app. lia. Qed.

(** A line more. *)
Lemma loop_line i buffer pos begin line :
  (i < 16)%nat -> upto s (S i) = upto s i ++ line -> 0 < len line -> loop_ok i buffer pos begin ->
  len (buffer ++ line) + 1 <= PAGE_SIZE /\
  let pos' := i32 (pos + len (buffer ++ line)) in
  let b := if pos' <? offset then ([], pos') else (buffer ++ line, begin) in
  loop_ok (S i) (fst b) pos' (snd b) /\ (offset + length < pos' -> offset < len (upto s (S i))).
Proof.
  intros Hi Eu Hl (Hb & Hbl & -> & Hp & Hc).
  pose proof (upto_len s (S i)) as Hu. pose proof small_table as Ht.
  assert (Eb : drop (Z.to_nat begin) (upto s i) ++ line = drop (Z.to_nat begin) (upto s (S i))).
  { rewrite Eu, drop_app_le; [reflexivity|]. unfold len in *. lia. }
  assert (Elen : len (upto s (S i)) = len (upto s i) + len line) by (rewrite Eu; apply len_app).
  rewrite Eb. rewrite len_drop by lia.
  assert (Hpos : 0 <= pos + (len (upto s (S i)) - begin) <= 4096 * Z.of_nat (S i)) by lia.
  unfold PAGE_SIZE. split; [lia|]. cbv zeta. rewrite wrap_s_id by lia.
  split; [|lia]. unfold loop_ok.
  destruct (Z.ltb_spec (pos + (len (upto s (S i)) - begin)) offset); cbn [fst snd]; split_and!; try lia; [|reflexivity].
  replace (pos + (len (upto s (S i)) - begin)) with (len (upto s (S i))) by lia. unfold len. rewrite Nat2Z.id. now rewrite drop_all.
Qed.

Lemma proc_loop_spec n i buffer pos begin :
  (i + n <= List.length (ids_entries (msg_ids s)))%nat -> loop_ok i buffer pos begin ->
  exists r, proc_loop offset length n (Z.of_nat i) buffer pos begin (downed s) = OK r (downed s) /\ loop_gives n i r.
Proof.
  destruct (down_spec 0 s Hinv) as [_ Hd]. pose proof small_table as Ht. assert (Hmni : msg_ctlmni <= IPCMNI) by easy.
  revert i buffer pos begin. induction n as [|n IH]; intros i buffer pos begin Hn Hok.
  { eexists. split; [reflexivity|]. destruct Hok as (Hb & Hbl & E & _). exists i. split_and!; try assumption; lia. }
  destruct (lookup_lt_is_Some_2 (ids_entries (msg_ids s)) i ltac:(lia)) as [o Eo].
  pose proof (upto_S s i o Eo) as Eu.
  assert (Enext : Z.of_nat i + 1 = Z.of_nat (S i)) by lia.
  assert (El : ipc_lock (Z.of_nat i) (downed s) = match o with Some p => OK (Some p) (locked (downed s)) | None => OK None (downed s) end).
  { rewrite (lock_spec _ _ _ _ (Nat2Z.is_nonneg i) Hd). unfold queue_at. change (ids_entries (msg_ids (downed s))) with (ids_entries (msg_ids s)).
    rewrite slot_small, Nat2Z.id, Eo by (unfold IPCMNI; lia). reflexivity. }
  assert (Hrest : forall b p' g, loop_ok (S i) b p' g -> exists r,
    proc_loop offset length n (Z.of_nat i + 1) b p' g (downed s) = OK r (downed s) /\ loop_gives (S n) i r).
  { intros b p' g Hok'. rewrite Enext. destruct (IH (S i) b p' g ltac:(lia) Hok') as ([[b1 g1] e1] & E & j & H1 & H2 & H3 & H4).
    eexists. split; [exact E|]. exists j. split_and!; try assumption; try lia. destruct e1; [lia | exact H4]. }
  cbn [proc_loop]. run El. destruct o as [p|]; cbn beta iota.
  - destruct (tw_live _ _ _ (inv_table _ _ _ _ Hinv) _ _ Eo) as [q Hq].
    cbn [proc_rows] in Eu. rewrite Hq, app_nil_r in Eu.
    destruct (loop_line i buffer pos begin (proc_line (Z.of_nat i) q) ltac:(lia) Eu (proj1 (proc_line_len _ q)) Hok) as [Hpage [Hok' Hpast]].
    assert (Edr : deref_q p (locked (downed s)) = OK q (locked (downed s))) by (now apply deref_q_eq). run Edr.
    unfold bind at 1, sprintf. destruct (Z.ltb_spec PAGE_SIZE (len (buffer ++ proc_line (Z.of_nat i) q) + 1)); [lia|]. cbn [ret].
    unfold bind at 1, ipc_unlock, spin_unlock. cbn [ids_ary msg_ids locked set_ids ids_with_locks].
    change (set_ids _ (locked (downed s))) with (unlocked (locked (downed s))). rewrite unlocked_locked by apply Hd.
    set (pos' := i32 (pos + len (buffer ++ proc_line (Z.of_nat i) q))) in *.
    destruct (if pos' <? offset then _ else _) as [b g]. cbn [fst snd] in Hok'.
    rewrite (wrap_s_id 32 (offset + length)) by lia.
    destruct (Z.ltb_spec (offset + length) pos'); [|now apply Hrest].
    eexists. split; [reflexivity|]. exists (S i). destruct Hok' as (H1 & H2 & H3 & _). auto.
  - apply Hrest, loop_none; [|exact Hok]. rewrite Eu. apply app_nil_r.
Qed.

(** After the loop: the part of the report from [offset] on. *)
Lemma piece j begin : 0 <= begin <= offset -> begin <= len (upto s j) ->
  let buffer := drop (Z.to_nat begin) (upto s j) in
  let n := len buffer - (offset - begin) in
  let n := if length <? n then length else n in
  let n := if n <? 0 then 0 else n in
  take (Z.to_nat n) (drop (Z.to_nat (offset - begin)) buffer) = take (Z.to_nat n) (drop (Z.to_nat offset) (report s)) /\
  n = Z.max 0 (Z.min length (len (upto s j) - offset)).
Proof.
  intros Hb Hbl buffer. unfold buffer. rewrite len_drop by lia. cbv zeta.
  set (n := if _ <? 0 then _ else _).
  assert (En : n = Z.max 0 (Z.min length (len (upto s j) - offset))) by (unfold n; repeat case_match; bool_to_prop; lia).
  split; [|exact En]. rewrite drop_drop. replace (Z.to_nat begin + Z.to_nat (offset - begin))%nat with (Z.to_nat offset) by lia.
  destruct (upto_report s j) as [r ->]. unfold len in *.
  destruct (Z.leb_spec offset (Z.of_nat (List.length (upto s j)))).
  - rewrite drop_app_le by lia. rewrite take_app_le; [reflexivity|]. rewrite length_drop. lia.
  - replace n with 0 by lia. reflexivity.
Qed.

Lemma rows_none i l : Forall (fun o => o = None) l -> proc_rows s i l = [].
Proof. intros Hl. revert i. induction Hl as [|o l -> _ IH]; intros i; [reflexivity | apply IH]. Qed.

Lemma all_slots : upto s (Z.to_nat (ids_max_id (msg_ids s) + 1)) = report s.
Proof.
  destruct (inv_ids _ _ _ _ Hinv) as [_ _ (Hm & _ & Hmax) _ _ _]. unfold upto, report.
  set (l := ids_entries (msg_ids s)) in *. set (m := Z.to_nat _).
  rewrite <- (take_drop m l) at 2. rewrite rows_app. rewrite (rows_none _ (drop m l)); [now rewrite app_nil_r|].
  apply Forall_lookup_2. intros i o. rewrite lookup_drop. destruct o as [p|]; [|reflexivity].
  intros Hi%Hmax. exfalso. lia.
Qed.

Lemma read_proc_spec : exists n eof,
  sysvmsg_read_proc offset length s = OK (take (Z.to_nat n) (drop (Z.to_nat offset) (report s)), eof) s /\
  0 <= n <= length /\ (offset < len (report s) -> 0 < n) /\ (eof = true -> n < length -> len (report s) <= offset + n).
Proof.
  destruct (down_spec 0 s Hinv) as [Ed Hd]. destruct (up_spec 0 _ Hd) as [Eup _].
  assert (Es : upped (downed s) = s) by (apply (locks_undone s); apply Hinv).
  unfold sysvmsg_read_proc. unfold bind at 1, sprintf. change (PAGE_SIZE <? len ([] ++ proc_heading) + 1) with false.
  cbn [ret]. run Ed. unfold bind at 1, get. change (ids_max_id (msg_ids (downed s))) with (ids_max_id (msg_ids s)).
  set (m := Z.to_nat (ids_max_id (msg_ids s) + 1)).
  assert (Hm : (0 + m <= List.length (ids_entries (msg_ids s)))%nat).
  { destruct (inv_ids _ _ _ _ Hinv) as [_ _ (Hm & _) _ _ _]. unfold m. lia. }
  assert (Hok : loop_ok 0 ([] ++ proc_heading) 0 0).
  { unfold loop_ok. pose proof (upto_len s 0). split_and!; try lia. unfold upto. now rewrite app_nil_r. }
  destruct (proc_loop_spec m 0 _ 0 0 Hm Hok) as ([[b g] eof] & El & j & Hg & Hgl & -> & He).
  change (Z.of_nat 0) with 0 in El. run El. run Eup. rewrite Es.
  destruct (piece j g Hg Hgl) as [-> En]. cbv zeta in En. match type of En with ?x = _ => exists x, eof; revert En; generalize x end.
  intros n En. split; [reflexivity|].
  destruct (upto_report s j) as [r Er]. assert (Hle : len (upto s j) <= len (report s)) by (rewrite Er, len_app; unfold len; lia).
  destruct eof; [|lia]. subst j. rewrite Nat.add_0_l in *. unfold m in *. rewrite all_slots in *. lia.
Qed.

End Loop.

(** ** Theorems *)

(** What is left of the report is read by as many reads as there are characters. *)
Lemma read_all_rest s length fuel offset :
  Inv false false 0 s -> 0 < length -> 0 <= offset <= len (report s) -> len (report s) + length < 2 ^ 31 ->
  len (report s) - offset < Z.of_nat fuel ->
  read_all length fuel offset s = OK (drop (Z.to_nat offset) (report s)) s.
Proof.
  intros Hinv Hl. revert offset. induction fuel as [|f IH]; intros offset Ho Hs Hf; [lia|].
  destruct (read_proc_spec s offset length Hinv ltac:(lia) Hl ltac:(lia)) as (n & eof & E & Hn & Hpos & _).
  cbn [read_all]. run E. cbn [fst]. set (l := take (Z.to_nat n) (drop (Z.to_nat offset) (report s))) in *.
  assert (Hlen : len l = Z.min n (len (report s) - offset)).
  { unfold l, len in *. rewrite length_take, length_drop. lia. }
  case_bool_decide as El.
  - rewrite El in Hlen. unfold len in *. cbn [List.length] in Hlen. rewrite drop_ge by lia. reflexivity.
  - assert (0 < len l) by (unfold len; destruct l; [contradiction | cbn [List.length]; lia]).
    unfold bind at 1. rewrite IH by lia. cbn [ret]. unfold ret. do 2 f_equal.
    rewrite Hlen. unfold l. destruct (Z.leb_spec n (len (report s) - offset)).
    + rewrite Z.min_l by lia. replace (Z.to_nat (offset + n)) with (Z.to_nat offset + Z.to_nat n)%nat by lia.
      rewrite <- drop_drop. apply take_drop.
    + rewrite Z.min_r by lia. unfold len in *. rewrite take_ge by (rewrite length_drop; lia).
      rewrite (drop_ge (report s) (Z.to_nat (offset + (_ - offset)))) by lia. apply app_nil_r.
Qed.

(** C28: the /proc report. In every reachable state a read of [sysvmsg_read_proc]
    at any offset, of any positive length, its end being an [int], comes to its
    end with both locks free and the state as it was, never writes past its page,
    and gives the report from that offset on: at most the length asked for, and
    something as long as the offset is inside the report; reads one after the
    other give the heading and the line of every queue exactly once, whatever
    their length (below 2^30). *)
Theorem proc_report_whole s offset length :
  reachable s -> 0 <= offset -> 0 < length -> offset + length < 2 ^ 31 ->
  (exists n eof,
     sysvmsg_read_proc offset length s = OK (take (Z.to_nat n) (drop (Z.to_nat offset) (report s)), eof) s /\
     0 <= n <= length /\ (offset < len (report s) -> 0 < n)) /\
  len (report s) <= 2693 /\
  (length < 2 ^ 30 -> read_all length 2694 0 s = OK (report s) s).
Proof.
  intros Hr Ho Hl Hs. pose proof (reachable_Inv s Hr) as Hinv.
  assert (Hrep : len (report s) <= 2693).
  { pose proof (small_table s Hinv). pose proof (upto_len s (Z.to_nat (ids_max_id (msg_ids s) + 1))) as Hu.
    rewrite (all_slots s Hinv) in Hu. lia. }
  split_and!; [|exact Hrep|].
  - destruct (read_proc_spec s offset length Hinv Ho Hl Hs) as (n & eof & E & Hn & Hpos & _). eauto 6.
  - intros Hlt. assert (0 <= len (report s)) by (unfold len; lia). rewrite read_all_rest by (try assumption; lia). now rewrite drop_0.
Qed.

Lemma proc_report_whole_witness :
  exists l eof, sysvmsg_read_proc 149 10 demo = OK (l, eof) demo /\ l = chars "        42" /\ read_all 10 2694 0 demo = OK (report demo) demo.
Proof.
  destruct (proc_report_whole demo 149 10 (run_from_boot_reachable _) ltac:(lia) ltac:(lia) ltac:(lia)) as ((n & eof & E & _) & _ & Ha).
  eexists _, _. split_and!; [exact E | | apply Ha; lia].
  assert (E' : exists l e, sysvmsg_read_proc 149 10 demo = OK (l, e) demo /\ l = chars "        42").
  { eexists _, _. split; vm_compute; reflexivity. }
  destruct E' as (l & e & E1 & <-). rewrite E in E1. now injection E1.
Defined.

(** [pos += len] counts the lines before again: with seven queues a read of 3072
    characters stops after the sixth and does not say that it came to the end,
    though the whole report is shorter. *)
Definition seven_queues : sys :=
  run_from_boot ((fun k => (root_env 1, CallGet k (IPC_CREAT + 511))) <$> [1; 2; 3; 4; 5; 6; 7]).

Lemma proc_short_read :
  sysvmsg_read_proc 0 3072 seven_queues = OK (take 869 (report seven_queues), false) seven_queues /\ len (report seven_queues) = 989.
Proof. split; vm_compute; reflexivity. Qed.
