(* ===== verification/Hmsh.v ===== *)
(** * Hours, minutes, seconds and hundredths (user/sem_clock/dispclk.c)

    The operations [MenageHmsh_*] of the wrist clock on a time of day kept as
    four [int] members, against the number of hundredths of a second since
    midnight, and the text [MenageHmsh_Convert] shows for it. *)

From stdpp Require Import base tactics numbers list.
From S2P Require Import Prelude.

(** ** Data *)

(** [MenageHmsh_tHour] *)
Record MenageHmsh_tHour := HMSH { hours : Z; minutes : Z; seconds : Z; hundredthes : Z }.

(** [MenageHmsh_tChain11]: twelve characters, as their codes. *)
Definition MenageHmsh_tChain11 : Type := list Z.

(** [digits] *)
Definition digits : list Z := [48; 49; 50; 51; 52; 53; 54; 55; 56; 57].

(** ** Operations *)

(** [MenageHmsh_Initialise] *)
Definition MenageHmsh_Initialise : MenageHmsh_tHour := HMSH 0 0 0 0.

(** [MenageHmsh_InitialiseHundredthes] *)
Definition MenageHmsh_InitialiseHundredthes (h : MenageHmsh_tHour) : MenageHmsh_tHour :=
  HMSH (hours h) (minutes h) (seconds h) 0.

(** [MenageHmsh_Equal] *)
Definition MenageHmsh_Equal (h1 h2 : MenageHmsh_tHour) : bool :=
  (hours h1 =? hours h2) && (minutes h1 =? minutes h2)
  && (seconds h1 =? seconds h2) && (hundredthes h1 =? hundredthes h2).

(** [MenageHmsh_AdvanceHours] *)
Definition MenageHmsh_AdvanceHours (h : MenageHmsh_tHour) : MenageHmsh_tHour :=
  HMSH (Z.rem (i32 (hours h + 1)) 24) (minutes h) (seconds h) (hundredthes h).

(** [MenageHmsh_AdvanceMinutes] *)
Definition MenageHmsh_AdvanceMinutes (h : MenageHmsh_tHour) : MenageHmsh_tHour :=
  HMSH (hours h) (Z.rem (i32 (minutes h + 1)) 60) (seconds h) (hundredthes h).

(** [MenageHmsh_AdvanceSeconds] *)
Definition MenageHmsh_AdvanceSeconds (h : MenageHmsh_tHour) : MenageHmsh_tHour :=
  HMSH (hours h) (minutes h) (Z.rem (i32 (seconds h + 1)) 60) (hundredthes h).

(** [MenageHmsh_PlusOneSecond] *)
Definition MenageHmsh_PlusOneSecond (h : MenageHmsh_tHour) : MenageHmsh_tHour :=
  let h := MenageHmsh_AdvanceSeconds h in
  if seconds h =? 0 then
    let h := MenageHmsh_AdvanceMinutes h in
    if minutes h =? 0 then MenageHmsh_AdvanceHours h else h
  else h.

(** The [for] of [MenageHmsh_PlusNSeconds], [n] turns left. *)
Fixpoint plus_seconds (n : nat) (h : MenageHmsh_tHour) : MenageHmsh_tHour :=
  match n with O => h | S n' => plus_seconds n' (MenageHmsh_PlusOneSecond h) end.

(** [MenageHmsh_PlusNSeconds] *)
Definition MenageHmsh_PlusNSeconds (n : Z) (h : MenageHmsh_tHour) : MenageHmsh_tHour :=
  plus_seconds (Z.to_nat n) h.

(** [MenageHmsh_PlusOneUnit]: the new time and [reportSeconds]. *)
Definition MenageHmsh_PlusOneUnit (h : MenageHmsh_tHour) : MenageHmsh_tHour * bool :=
  let hu := Z.rem (i32 (hundredthes h + 1)) 100 in
  let h := HMSH (hours h) (minutes h) (seconds h) hu in
  if hu =? 0 then (MenageHmsh_PlusOneSecond h, true) else (h, false).

(** [digits[k]]; [None] when the index is out of the array. *)
Definition digit (k : Z) : option Z := if k <? 0 then None else digits !! Z.to_nat k.

(** [MenageHmsh_Convert]: [chain[0]] is kept. *)
Definition MenageHmsh_Convert (h : MenageHmsh_tHour) (hd : bool) (chain : MenageHmsh_tChain11)
    : option MenageHmsh_tChain11 :=
  c0 ← chain !! 0%nat;
  h1 ← digit (Z.quot (hours h) 10); h2 ← digit (Z.rem (hours h) 10);
  m1 ← digit (Z.quot (minutes h) 10); m2 ← digit (Z.rem (minutes h) 10);
  s1 ← digit (Z.quot (seconds h) 10); s2 ← digit (Z.rem (seconds h) 10);
  if hd : bool then
    c1 ← digit (Z.quot (hundredthes h) 10); c2 ← digit (Z.rem (hundredthes h) 10);
    Some [c0; h1; h2; 58; m1; m2; 58; s1; s2; 46; c1; c2]
  else Some [c0; h1; h2; 58; m1; m2; 58; s1; s2; 32; 32; 32].

(** ** Times of day *)

Record hour_wf (h : MenageHmsh_tHour) : Prop := {
  hw_hours : 0 <= hours h < 24;
  hw_minutes : 0 <= minutes h < 60;
  hw_seconds : 0 <= seconds h < 60;
  hw_hundredthes : 0 <= hundredthes h < 100
}.

Definition DAY : Z := 8640000.

(** Hundredths of a second since midnight. *)
Definition units (h : MenageHmsh_tHour) : Z :=
  ((hours h * 60 + minutes h) * 60 + seconds h) * 100 + hundredthes h.

Lemma units_range h : hour_wf h -> 0 <= units h < DAY.
Proof. intros [? ? ? ?]. unfold units, DAY. lia. Qed.

(** A time of day is determined by its number of units. *)
Lemma units_inj h1 h2 : hour_wf h1 -> hour_wf h2 -> units h1 = units h2 -> h1 = h2.
Proof.
  intros [? ? ? ?] [? ? ? ?] E. unfold units in E. destruct h1, h2; cbn in *. f_equal; lia.
Qed.

Lemma step_rem x n : 0 <= x < n -> 0 < n < 2 ^ 31 ->
  Z.rem (i32 (x + 1)) n = if x + 1 =? n then 0 else x + 1.
Proof.
  intros Hx Hn. rewrite wrap_s_id by lia. destruct (Z.eqb_spec (x + 1) n) as [->|E].
  - apply Z.rem_same. lia.
  - apply Z.rem_small. lia.
Qed.

Lemma mod_next a n : 0 <= a < n -> (a + 1) mod n = if a + 1 =? n then 0 else a + 1.
Proof.
  intros Ha. destruct (Z.eqb_spec (a + 1) n) as [->|E]; [apply Z.mod_same | apply Z.mod_small]; lia.
Qed.

Lemma PlusOneSecond_units h :
  hour_wf h -> hour_wf (MenageHmsh_PlusOneSecond h) /\
  hundredthes (MenageHmsh_PlusOneSecond h) = hundredthes h /\
  units (MenageHmsh_PlusOneSecond h) = (units h + 100) mod DAY.
Proof.
  intros [Hh Hm Hs Hc]. unfold MenageHmsh_PlusOneSecond, MenageHmsh_AdvanceSeconds,
    MenageHmsh_AdvanceMinutes, MenageHmsh_AdvanceHours; cbn [hours minutes seconds hundredthes].
  rewrite !step_rem by lia.
  assert (Hend : forall h', hour_wf h' -> hundredthes h' = hundredthes h ->
    units h' = units h + 100 \/ units h' = units h + 100 - DAY ->
    hour_wf h' /\ hundredthes h' = hundredthes h /\ units h' = (units h + 100) mod DAY).
  { intros h' Hw Eh Eu. split_and!; try assumption. pose proof (units_range h' Hw).
    destruct Eu as [E|E]; [rewrite E in *; now rewrite Z.mod_small|].
    apply (Z.mod_unique _ _ 1); lia. }
  repeat split_if; apply Hend; try reflexivity; try (constructor; cbn; lia);
    unfold units, DAY; cbn [hours minutes seconds hundredthes]; lia.
Qed.

Lemma plus_seconds_units n h :
  hour_wf h -> hour_wf (plus_seconds n h) /\ hundredthes (plus_seconds n h) = hundredthes h /\
  units (plus_seconds n h) = (units h + 100 * Z.of_nat n) mod DAY.
Proof.
  revert h. induction n as [|n IH]; intros h Hw; cbn [plus_seconds].
  - pose proof (units_range h Hw). split_and!; try assumption; try reflexivity.
    rewrite Z.mod_small by lia. lia.
  - destruct (PlusOneSecond_units h Hw) as (Hw' & Eh & Eu).
    destruct (IH _ Hw') as (Hw'' & Eh' & Eu'). split_and!; try assumption; try congruence.
    rewrite Eu', Eu, Z.add_mod_idemp_l by discriminate. f_equal. lia.
Qed.

Lemma PlusNSeconds_units n h :
  0 <= n -> hour_wf h -> hour_wf (MenageHmsh_PlusNSeconds n h) /\
  units (MenageHmsh_PlusNSeconds n h) = (units h + 100 * n) mod DAY.
Proof.
  intros Hn Hw. unfold MenageHmsh_PlusNSeconds.
  destruct (plus_seconds_units (Z.to_nat n) h Hw) as (Hw' & _ & Hu). split; [assumption|].
  now rewrite Z2Nat.id in Hu by assumption.
Qed.

Lemma PlusOneUnit_units h :
  hour_wf h -> let (h', report) := MenageHmsh_PlusOneUnit h in
  hour_wf h' /\ units h' = (units h + 1) mod DAY /\ report = (units h' mod 100 =? 0).
Proof.
  intros Hw. unfold MenageHmsh_PlusOneUnit. pose proof Hw as [Hh Hm Hs Hc].
  rewrite step_rem by lia.
  assert (Hrep : forall h', hour_wf h' -> units h' mod 100 = hundredthes h').
  { intros h' [? ? ? ?]. unfold units. rewrite Z.add_comm, Z_mod_plus_full. now apply Z.mod_small. }
  destruct (Z.eqb_spec (hundredthes h + 1) 100) as [E|E]; cbn [Z.eqb].
  - set (h0 := HMSH _ _ _ 0). assert (Hw0 : hour_wf h0) by (constructor; cbn; lia).
    destruct (PlusOneSecond_units h0 Hw0) as (Hw' & Eh & Eu). split_and!; [assumption| |].
    + rewrite Eu. f_equal. unfold units, h0; cbn [hours minutes seconds hundredthes]. lia.
    + rewrite Hrep, Eh by assumption. reflexivity.
  - assert ((hundredthes h + 1 =? 0) = false) as -> by lia.
    assert (Hw' : hour_wf (HMSH (hours h) (minutes h) (seconds h) (hundredthes h + 1)))
      by (constructor; cbn; lia).
    split_and!; [assumption | | rewrite Hrep by assumption; cbn; lia].
    rewrite Z.mod_small; unfold units, DAY; cbn [hours minutes seconds hundredthes]; lia.
Qed.

Lemma Advance_wf h :
  hour_wf h -> hour_wf (MenageHmsh_AdvanceHours h) /\ hour_wf (MenageHmsh_AdvanceMinutes h) /\
  hour_wf (MenageHmsh_AdvanceSeconds h) /\ hour_wf (MenageHmsh_InitialiseHundredthes h).
Proof.
  intros [Hh Hm Hs Hc]. unfold MenageHmsh_AdvanceHours, MenageHmsh_AdvanceMinutes,
    MenageHmsh_AdvanceSeconds, MenageHmsh_InitialiseHundredthes.
  rewrite !step_rem by lia. split_and!; constructor; cbn; try split_if; lia.
Qed.

Lemma Equal_units h1 h2 :
  hour_wf h1 -> hour_wf h2 -> MenageHmsh_Equal h1 h2 = (units h1 =? units h2).
Proof.
  intros H1 H2. destruct (Z.eqb_spec (units h1) (units h2)) as [E|E].
  - apply units_inj in E as ->; try assumption. unfold MenageHmsh_Equal. now rewrite !Z.eqb_refl.
  - unfold MenageHmsh_Equal. destruct (_ && _) eqn:Eb; [|reflexivity]. bool_to_prop.
    destruct E. destruct h1, h2; cbn in *. unfold units; cbn. congruence.
Qed.

(** ** The text of a time *)

(** The value of two characters, and the time a chain shows. *)
Definition two_digits (a b : Z) : Z := (a - 48) * 10 + (b - 48).

Definition parse_chain (c : MenageHmsh_tChain11) : option MenageHmsh_tHour :=
  match c with
  | [_; h1; h2; _; m1; m2; _; s1; s2; p; c1; c2] =>
      Some (HMSH (two_digits h1 h2) (two_digits m1 m2) (two_digits s1 s2)
                 (if p =? 46 then two_digits c1 c2 else 0))
  | _ => None
  end.

Lemma digit_small k : 0 <= k < 10 -> digit k = Some (48 + k).
Proof.
  intros Hk. unfold digit. rewrite (proj2 (Z.ltb_ge k 0)) by lia.
  assert (k = 0 \/ k = 1 \/ k = 2 \/ k = 3 \/ k = 4 \/ k = 5 \/ k = 6 \/ k = 7 \/ k = 8 \/ k = 9)
    as Hc by lia.
  repeat (destruct Hc as [->|Hc]; [reflexivity|]). subst. reflexivity.
Qed.

Lemma digits_of x : 0 <= x < 100 ->
  digit (Z.quot x 10) = Some (48 + x / 10) /\ digit (Z.rem x 10) = Some (48 + x mod 10) /\
  two_digits (48 + x / 10) (48 + x mod 10) = x.
Proof.
  intros Hx. rewrite Z.quot_div_nonneg, Z.rem_mod_nonneg by lia.
  pose proof (Z.mod_pos_bound x 10). pose proof (Z.div_mod x 10).
  rewrite !digit_small by lia. unfold two_digits. split_and!; (reflexivity || lia).
Qed.

(** Twelve characters, the hour first: what [MenageHmsh_Convert] writes for a
    time of day. *)
Lemma Convert_parse h hd c0 rest :
  hour_wf h -> exists chain, MenageHmsh_Convert h hd (c0 :: rest) = Some chain /\
    length chain = 12%nat /\ chain !! 0%nat = Some c0 /\
    (exists d, chain !! 1%nat = Some d /\ 48 <= d <= 50) /\
    parse_chain chain = Some (if hd then h else MenageHmsh_InitialiseHundredthes h).
Proof.
  intros [Hh Hm Hs Hc]. unfold MenageHmsh_Convert.
  destruct (digits_of (hours h)) as (A1 & A2 & A3); [lia|].
  destruct (digits_of (minutes h)) as (B1 & B2 & B3); [lia|].
  destruct (digits_of (seconds h)) as (C1 & C2 & C3); [lia|].
  destruct (digits_of (hundredthes h)) as (D1 & D2 & D3); [lia|].
  rewrite A1, A2, B1, B2, C1, C2, D1, D2. cbn [mbind option_bind lookup list_lookup].
  assert (Hd : 48 <= 48 + hours h / 10 <= 50).
  { pose proof (Z.div_mod (hours h) 10). pose proof (Z.mod_pos_bound (hours h) 10). lia. }
  destruct hd; eexists; split; try reflexivity; split_and!; try reflexivity; try (eexists; split; [reflexivity | exact Hd]);
    cbn [parse_chain]; rewrite A3, B3, C3, ?D3; destruct h; reflexivity.
Qed.
