(* ===== verification/CmdMonitor.v ===== *)
(** * One-slot command monitors (user/sem_clock/cmdclk.c, cmdcrn.c)

    The clock and the chronometer are driven through the same protocol: a
    [Put] that filters commands by the status of the device and leaves them in
    a one-character buffer, a [Get] that takes them out and moves the status,
    and two semaphores, [notEmpty] and [notFull].  The interface
    [CommandMonitor] is what the two files supply; the protocol, one step per
    semaphore operation or access to the shared variables, is defined once, and
    so are the theorems about all its interleavings. *)

From stdpp Require Import base tactics numbers list relations.
From S2P Require Import Prelude.

(** ** Characters *)

Definition ch_C : Z := 67.
Definition ch_D : Z := 68.
Definition ch_E : Z := 69.
Definition ch_F : Z := 70.
Definition ch_H : Z := 72.
Definition ch_I : Z := 73.
Definition ch_K : Z := 75.
Definition ch_M : Z := 77.
Definition ch_N : Z := 78.
Definition ch_P : Z := 80.
Definition ch_R : Z := 82.
Definition ch_S : Z := 83.
Definition ch_T : Z := 84.

(** ** The interface *)

(** How [Get] waits for [notEmpty] in a given status. *)
Inductive wait_kind :=
| Block     (* rt_sem_wait *)
| Try       (* rt_sem_wait_if *)
| Timed     (* rt_sem_wait_timed *)
| NoWait.   (* no wait: the buffer was left full by the previous Get *)

#[export] Instance wait_kind_eq_dec : EqDecision wait_kind.
Proof. solve_decision. Defined.

(** What a file supplies: the test of [Put]; the way [Get] waits; and, once it
    knows whether it got the semaphore, the new status, the command it returns
    and whether it signals [notFull]. *)
Class CommandMonitor (St : Type) := {
  mon_init : St;
  put_test : St -> Z -> bool;
  get_wait : St -> wait_kind;
  get_done : St -> bool -> Z -> St * Z * bool
}.

(** The buffer is still full after a [Get] that did not empty it. *)
Definition retains {St} `{CommandMonitor St} (st : St) : bool := bool_decide (get_wait st = NoWait).

(** What the protocol relies on, in the statuses [st_ok]. *)
Class MonitorLaws (St : Type) `{CommandMonitor St} := {
  st_ok : St -> Prop;
  law_ok : st_ok mon_init;
  law_ok_done : forall st got b, st_ok st -> st_ok (fst (fst (get_done st got b)));
  (** at the start the buffer is empty *)
  law_init : retains mon_init = false;
  (** a [Get] without the semaphore leaves the buffer alone *)
  law_idle : forall st b, st_ok st -> get_wait st = Try \/ get_wait st = Timed ->
    snd (get_done st false b) = false /\ retains (fst (fst (get_done st false b))) = false;
  (** one with it either takes the command and signals [notFull], or keeps the
      buffer for the next, with a command that is still acceptable *)
  law_take : forall st b, st_ok st -> snd (get_done st true b) = true ->
    snd (fst (get_done st true b)) = b /\ retains (fst (fst (get_done st true b))) = false;
  law_keep : forall st b, st_ok st -> snd (get_done st true b) = false ->
    retains (fst (fst (get_done st true b))) = true /\
    (put_test st b = true -> put_test (fst (fst (get_done st true b))) b = true);
  (** a [Get] without the semaphore refuses no command accepted before *)
  law_idle_test : forall st b c, st_ok st -> get_wait st = Try \/ get_wait st = Timed ->
    put_test st c = true -> put_test (fst (fst (get_done st false b))) c = true
}.

(** ** The protocol *)

(** Where the putting task is: outside; before [rt_sem_wait(notFull)]; after
    it; before its [rt_sem_signal], of [notEmpty] when the test passed. *)
Inductive put_pc := PIdle | PWait (c : Z) | PIn (c : Z) | PSig (full : bool).

(** Where the getting task is: outside; in [rt_sem_wait] or
    [rt_sem_wait_timed] of [notEmpty]; after it, with or without the semaphore;
    before its [rt_sem_signal] of [notFull], if any. *)
Inductive get_pc := GIdle | GWait | GTimed | GIn (got : bool) | GSig (c : Z) (sig : bool).

Section Protocol.

Context {St : Type} `{CommandMonitor St}.

(** The shared variables, the two tasks, and the history: commands accepted by
    [Put], taken from the buffer, and what each [Get] returned, with the status
    it found, oldest first. *)
Record mon := MON {
  m_status : St; m_buffer : Z; notEmpty : Z; notFull : Z;
  m_put : put_pc; m_get : get_pc;
  m_accepted : list Z; m_taken : list Z; m_returned : list (St * Z)
}.

Definition start : mon := MON mon_init 0 0 1 PIdle GIdle [] [] [].

(** One step of the putting task. *)
Inductive put_step : mon -> mon -> Prop :=
| put_call c m : m_put m = PIdle ->
    put_step m (MON (m_status m) (m_buffer m) (notEmpty m) (notFull m) (PWait c) (m_get m)
                    (m_accepted m) (m_taken m) (m_returned m))
| put_acquire c m : m_put m = PWait c -> 0 < notFull m ->
    put_step m (MON (m_status m) (m_buffer m) (notEmpty m) (notFull m - 1) (PIn c) (m_get m)
                    (m_accepted m) (m_taken m) (m_returned m))
| put_accept c m : m_put m = PIn c -> put_test (m_status m) c = true ->
    put_step m (MON (m_status m) c (notEmpty m) (notFull m) (PSig true) (m_get m)
                    (m_accepted m ++ [c]) (m_taken m) (m_returned m))
| put_refuse c m : m_put m = PIn c -> put_test (m_status m) c = false ->
    put_step m (MON (m_status m) (m_buffer m) (notEmpty m) (notFull m) (PSig false) (m_get m)
                    (m_accepted m) (m_taken m) (m_returned m))
| put_signal full m : m_put m = PSig full ->
    put_step m (MON (m_status m) (m_buffer m)
                    (if full then notEmpty m + 1 else notEmpty m)
                    (if full then notFull m else notFull m + 1) PIdle (m_get m)
                    (m_accepted m) (m_taken m) (m_returned m)).

(** One step of the getting task. *)
Inductive get_step : mon -> mon -> Prop :=
| get_call_wait m : m_get m = GIdle -> get_wait (m_status m) = Block ->
    get_step m (MON (m_status m) (m_buffer m) (notEmpty m) (notFull m) (m_put m) GWait
                    (m_accepted m) (m_taken m) (m_returned m))
| get_call_timed m : m_get m = GIdle -> get_wait (m_status m) = Timed ->
    get_step m (MON (m_status m) (m_buffer m) (notEmpty m) (notFull m) (m_put m) GTimed
                    (m_accepted m) (m_taken m) (m_returned m))
| get_call_full m : m_get m = GIdle -> get_wait (m_status m) = NoWait ->
    get_step m (MON (m_status m) (m_buffer m) (notEmpty m) (notFull m) (m_put m) (GIn true)
                    (m_accepted m) (m_taken m) (m_returned m))
| get_try_yes m : m_get m = GIdle -> get_wait (m_status m) = Try -> 0 < notEmpty m ->
    get_step m (MON (m_status m) (m_buffer m) (notEmpty m - 1) (notFull m) (m_put m) (GIn true)
                    (m_accepted m) (m_taken m) (m_returned m))
| get_try_no m : m_get m = GIdle -> get_wait (m_status m) = Try -> notEmpty m <= 0 ->
    get_step m (MON (m_status m) (m_buffer m) (notEmpty m) (notFull m) (m_put m) (GIn false)
                    (m_accepted m) (m_taken m) (m_returned m))
| get_acquire m : m_get m = GWait \/ m_get m = GTimed -> 0 < notEmpty m ->
    get_step m (MON (m_status m) (m_buffer m) (notEmpty m - 1) (notFull m) (m_put m) (GIn true)
                    (m_accepted m) (m_taken m) (m_returned m))
| get_timeout m : m_get m = GTimed ->
    get_step m (MON (m_status m) (m_buffer m) (notEmpty m) (notFull m) (m_put m) (GIn false)
                    (m_accepted m) (m_taken m) (m_returned m))
| get_body got st' c sig m : m_get m = GIn got ->
    get_done (m_status m) got (m_buffer m) = (st', c, sig) ->
    get_step m (MON st' (m_buffer m) (notEmpty m) (notFull m) (m_put m) (GSig c sig)
                    (m_accepted m) (if sig then m_taken m ++ [c] else m_taken m)
                    (m_returned m ++ [(m_status m, c)]))
| get_signal c sig m : m_get m = GSig c sig ->
    get_step m (MON (m_status m) (m_buffer m) (notEmpty m)
                    (if sig : bool then notFull m + 1 else notFull m) (m_put m) GIdle
                    (m_accepted m) (m_taken m) (m_returned m)).

Inductive mon_step (m m' : mon) : Prop :=
| step_put : put_step m m' -> mon_step m m'
| step_get : get_step m m' -> mon_step m m'.

Definition mon_reachable (m : mon) : Prop := rtc mon_step start m.

End Protocol.

(** ** Its invariant *)

Section Invariant.

Context {St : Type} `{Laws : MonitorLaws St}.

Definition put_holds (pc : put_pc) : Z := match pc with PIn _ | PSig _ => 1 | _ => 0 end.

Definition get_holds (st : St) (pc : get_pc) : Z :=
  match pc with
  | GIn true | GSig _ true => 1
  | _ => if retains st then 1 else 0
  end.

(** The buffer holds a command that was not taken. *)
Definition slot_full (m : mon) : bool :=
  (0 <? notEmpty m) || match m_put m with PSig true => true | _ => false end
  || match m_get m with
     | GIn true => true
     | GSig _ true => false
     | _ => retains (m_status m)
     end.

(** A command returned by [Get] from a status: one that was taken from the
    buffer and that the test of [Put] accepts in that status, or the one [Get]
    makes up when it leaves the buffer alone. *)
Definition proper (taken : list Z) (r : St * Z) : Prop :=
  (put_test (fst r) (snd r) = true /\ snd r ∈ taken /\
   snd (get_done (fst r) true (snd r)) = true) \/
  exists got b, snd (fst (get_done (fst r) got b)) = snd r /\ snd (get_done (fst r) got b) = false.

(** The status in which the getting task waits is the one that made it wait. *)
Definition get_pc_ok (st : St) (pc : get_pc) : Prop :=
  match pc with
  | GWait => get_wait st = Block
  | GTimed => get_wait st = Timed
  | GIn false => get_wait st = Try \/ get_wait st = Timed
  | GSig _ true => retains st = false
  | _ => True
  end.

Record mon_inv (m : mon) : Prop := {
  mi_ok : st_ok (m_status m);
  mi_full : 0 <= notFull m;
  mi_empty : 0 <= notEmpty m;
  mi_token : notFull m + notEmpty m + put_holds (m_put m) + get_holds (m_status m) (m_get m) = 1;
  mi_pc : get_pc_ok (m_status m) (m_get m);
  mi_test : slot_full m = true -> put_test (m_status m) (m_buffer m) = true;
  mi_fifo : m_accepted m = m_taken m ++ (if slot_full m then [m_buffer m] else []);
  mi_returned : Forall (proper (m_taken m)) (m_returned m)
}.

Lemma proper_mono l x r : Forall (proper l) r -> Forall (proper (l ++ [x])) r.
Proof.
  intros Hf. eapply Forall_impl; [exact Hf|]. intros y [(? & ? & ?)|?]; [left | now right].
  split_and!; try assumption. apply elem_of_app. now left.
Qed.

Lemma retains_NoWait st : retains st = true <-> get_wait st = NoWait.
Proof. unfold retains. apply bool_decide_eq_true. Qed.

Lemma retains_not st : get_wait st <> NoWait -> retains st = false.
Proof. intros Hn. unfold retains. now apply bool_decide_eq_false. Qed.

Lemma mon_inv_start : mon_inv start.
Proof.
  constructor; cbn; rewrite ?law_init; try apply law_ok; try lia; try easy; unfold slot_full; cbn; now rewrite law_init.
Qed.

Lemma put_step_inv m m' : mon_inv m -> put_step m m' -> mon_inv m'.
Proof.
  intros [Hk Hf He Ht Hpc Hte Hfi Hr] Hs. unfold slot_full in *.
  destruct Hs as [c m E|c m E Hpos|c m E Htest|c m E Htest|b m E]; rewrite E in *; cbn in *.
  - constructor; cbn; unfold slot_full; cbn; assumption.
  - constructor; cbn; unfold slot_full; cbn; try assumption; lia.
  - assert (Hg : get_holds (m_status m) (m_get m) = 0 /\ notEmpty m = 0 /\ notFull m = 0).
    { unfold get_holds in *. destruct (m_get m) as [| | |[]|? []], (retains (m_status m)); lia. }
    destruct Hg as (Hg & He0 & Hf0). rewrite He0 in *. cbn in *.
    assert (Hnf : match m_get m with GIn true => true | GSig _ true => false
                  | _ => retains (m_status m) end = false).
    { unfold get_holds in Hg. destruct (m_get m) as [| | |[]|? []], (retains (m_status m)); (reflexivity || lia). }
    rewrite Hnf in Hfi. rewrite app_nil_r in Hfi.
    constructor; cbn; unfold slot_full; cbn; rewrite ?He0; cbn; try assumption; try lia; congruence.
  - constructor; cbn; unfold slot_full; cbn; assumption.
  - destruct b; constructor; cbn; unfold slot_full; cbn; try assumption; try lia.
    + intros _. apply Hte. now rewrite orb_true_r.
    + rewrite (proj2 (Z.ltb_lt 0 (notEmpty m + 1))) by lia. cbn.
      now rewrite orb_true_r in Hfi.
Qed.

Lemma Forall_snoc {A} (P : A -> Prop) l x : Forall P l -> P x -> Forall P (l ++ [x]).
Proof. intros Hl Hx. apply Forall_app. auto. Qed.

Lemma get_step_inv m m' : mon_inv m -> get_step m m' -> mon_inv m'.
Proof.
  intros [Hk Hf He Ht Hpc Hte Hfi Hr] Hs. unfold slot_full in *.
  destruct Hs as [m E W|m E W|m E W|m E W Hpos|m E W Hno|m E Hpos|m E|got st' c sig m E D|c sig m E].
  - rewrite E in *. cbn in *. constructor; cbn; unfold slot_full; cbn; assumption.
  - rewrite E in *. cbn in *. constructor; cbn; unfold slot_full; cbn; assumption.
  - rewrite E in *. cbn in *. pose proof (proj2 (retains_NoWait _) W) as Hw. rewrite Hw in *.
    constructor; cbn; unfold slot_full; cbn; easy.
  - rewrite E in *. cbn in *. rewrite (retains_not (m_status m)) in * by congruence.
    rewrite (proj2 (Z.ltb_lt 0 (notEmpty m))) in * by assumption. cbn in *.
    constructor; cbn; unfold slot_full; cbn; rewrite ?orb_true_r; (easy || lia).
  - rewrite E in *. cbn in *. constructor; cbn; unfold slot_full; cbn; auto.
  - assert (Hw : retains (m_status m) = false).
    { apply retains_not. destruct E as [E|E]; rewrite E in Hpc; cbn in Hpc; congruence. }
    assert (Hh : get_holds (m_status m) (m_get m) = 0) by (destruct E as [-> | ->]; cbn; now rewrite Hw).
    rewrite Hh in Ht. rewrite (proj2 (Z.ltb_lt 0 (notEmpty m))) in * by assumption. cbn in *.
    constructor; cbn; unfold slot_full; cbn; rewrite ?orb_true_r; (easy || lia).
  - rewrite E in *. cbn in *. constructor; cbn; unfold slot_full; cbn; auto.
  - rewrite E in *. destruct got; cbn in *.
    + pose proof (law_take (m_status m) (m_buffer m) Hk) as HT.
      pose proof (law_ok_done (m_status m) true (m_buffer m) Hk) as HO.
      pose proof (law_keep (m_status m) (m_buffer m) Hk) as HK.
      rewrite D in HT, HK, HO. cbn in HT, HK, HO.
      rewrite orb_true_r in *. specialize (Hte eq_refl).
      assert (Hp : put_holds (m_put m) = 0 /\ notEmpty m = 0 /\ notFull m = 0)
        by (destruct (m_put m); cbn in *; lia).
      destruct Hp as (Hp & He0 & Hf0).
      assert (Hnp : match m_put m with PSig true => true | _ => false end = false)
        by (destruct (m_put m) as [| | |[]]; (reflexivity || discriminate)).
      destruct sig.
      * destruct (HT eq_refl) as [-> Hnr]. constructor; cbn; unfold slot_full; cbn;
          rewrite ?He0, ?Hnp; cbn; try easy; try lia; [now rewrite app_nil_r|].
        apply Forall_snoc; [now apply proper_mono|]. left. cbn. rewrite D. split_and!; [assumption | | reflexivity].
        apply elem_of_app. right. now apply list_elem_of_singleton.
      * destruct (HK eq_refl) as [Hnr Hok]. constructor; cbn; unfold slot_full; cbn;
          rewrite ?He0, ?Hnp, ?Hnr; cbn; try easy; try lia; [now auto|].
        apply Forall_snoc; [assumption|]. right. exists true, (m_buffer m). cbn. now rewrite D.
    + pose proof (law_idle (m_status m) (m_buffer m) Hk Hpc) as HI.
      pose proof (law_ok_done (m_status m) false (m_buffer m) Hk) as HO.
      pose proof (law_idle_test (m_status m) (m_buffer m)) as HJ.
      rewrite D in HI, HJ, HO. cbn in HI, HJ, HO.
      destruct HI as [-> Hnr]. rewrite (retains_not (m_status m)) in * by (intuition congruence).
      constructor; cbn; unfold slot_full; cbn; rewrite ?Hnr; try easy.
      * intros Hfull. auto.
      * apply Forall_snoc; [assumption|]. right. exists false, (m_buffer m). cbn. now rewrite D.
  - rewrite E in *. cbn in *. destruct sig; cbn in *.
    + constructor; cbn; unfold slot_full; cbn; rewrite ?Hpc; try easy; lia.
    + constructor; cbn; unfold slot_full; cbn; easy.
Qed.

Lemma mon_reachable_inv m : mon_reachable m -> mon_inv m.
Proof.
  apply rtc_invariant; [apply mon_inv_start|].
  intros a b Ha [Hp|Hg]; [now apply (put_step_inv a) | now apply (get_step_inv a)].
Qed.

(** The two tasks never wait for each other. *)
Lemma mon_no_deadlock m c :
  mon_reachable m -> m_put m = PWait c -> m_get m = GWait -> 0 < notFull m \/ 0 < notEmpty m.
Proof.
  intros Hr Hp Hg. destruct (mon_reachable_inv m Hr) as [_ ? ? Ht Hpc _ _ _].
  rewrite Hp, Hg in *. cbn in *. rewrite retains_not in Ht by congruence. lia.
Qed.

End Invariant.
