(* ===== verification/ClockMonitors.v ===== *)
(** * The command monitors of the wrist clock

    [CommandClock] (user/sem_clock/cmdclk.c) and [CommandChrono]
    (user/sem_clock/cmdcrn.c) as instances of the protocol of [CmdMonitor], and
    the version with messages (user/msg_clock/cmdclk.c), whose [Put] tests the
    status of a server it does not wait for. *)

From stdpp Require Import base tactics numbers list relations.
From S2P Require Import Prelude CmdMonitor.

(** ** The clock *)

Module CommandClock.

(** [Clockstatus] *)
Inductive status := stopped | running.

Definition is_running (st : status) : bool := match st with running => true | stopped => false end.

(** The test of [CommandClock_Put]. *)
Definition Put_test (st : status) (command : Z) : bool :=
  Bool.eqb (is_running st) (command =? ch_T) || (command =? ch_F).

(** The semaphore operation on [notEmpty] of [CommandClock_Get]. *)
Definition Get_wait (st : status) : wait_kind :=
  match st with stopped => Block | running => Try end.

(** The rest of [CommandClock_Get]: status, command, signal of [notFull]. *)
Definition Get_done (st : status) (got : bool) (buffer : Z) : status * Z * bool :=
  match st with
  | stopped => (if buffer =? ch_R then running else stopped, buffer, true)
  | running =>
      if got then (if buffer =? ch_T then stopped else running, buffer, true)
      else (running, ch_R, false)
  end.

#[global] Instance clock_monitor : CommandMonitor status := {|
  mon_init := stopped;
  put_test := Put_test;
  get_wait := Get_wait;
  get_done := Get_done
|}.

#[global] Instance clock_laws : MonitorLaws status.
Proof.
  refine {| st_ok := fun _ => True |}; cbn; try easy.
  - intros [] b _ [H|H]; try discriminate H; split; reflexivity.
  - intros [] b _ _; cbn; split; try reflexivity; [now destruct (b =? ch_R)|].
    now destruct (b =? ch_T).
  - intros [] b _ H; discriminate H.
  - intros [] b c _ [H|H]; try discriminate H; now cbn.
Defined.

Definition commands : list Z := [ch_T; ch_R; ch_H; ch_M; ch_S; ch_F].

End CommandClock.

(** ** The chronometer *)

Module CommandChrono.

(** [Chronostatus] *)
Inductive chrono_status := stoppedInitial | running | stoppedFinal.

(** [Chronostatus] and [buffered]. *)
Record status := CST { Chronostatus : chrono_status; buffered : bool }.

Definition is_running (st : status) : bool :=
  match Chronostatus st with running => true | _ => false end.

(** The test of [CommandChrono_Put]. *)
Definition Put_test (st : status) (command : Z) : bool :=
  negb (Bool.eqb (is_running st) (command =? ch_C)) || (command =? ch_F).

(** The semaphore operation on [notEmpty] of [CommandChrono_Get]. *)
Definition Get_wait (st : status) : wait_kind :=
  match Chronostatus st with
  | stoppedInitial => if buffered st then NoWait else Block
  | running => Try
  | stoppedFinal => Timed
  end.

(** The rest of [CommandChrono_Get]. *)
Definition Get_done (st : status) (got : bool) (buffer : Z) : status * Z * bool :=
  match Chronostatus st with
  | stoppedInitial => (CST running (if buffered st then false else buffered st), buffer, true)
  | running =>
      if got
      then (CST (if buffer =? ch_E then stoppedFinal else running) (buffered st), buffer, true)
      else (st, ch_C, false)
  | stoppedFinal => (CST stoppedInitial (if got then true else buffered st), ch_R, false)
  end.

#[global] Instance chrono_monitor : CommandMonitor status := {|
  mon_init := CST stoppedInitial false;
  put_test := Put_test;
  get_wait := Get_wait;
  get_done := Get_done
|}.

(** Outside [stoppedInitial] nothing is buffered. *)
Definition status_wf (st : status) : Prop :=
  Chronostatus st <> stoppedInitial -> buffered st = false.

#[global] Instance chrono_laws : MonitorLaws status.
Proof.
  refine {| st_ok := status_wf |}; cbn; unfold status_wf, Get_done.
  - easy.
  - intros [[] b] [] x H; cbn in *; try destruct (x =? ch_E); cbn; try easy; try (now destruct b);
      now rewrite H.
  - reflexivity.
  - intros [[] b] x Hw [H|H]; cbn in *; unfold Get_wait in H; cbn in H; try discriminate H;
      try (now destruct b). rewrite Hw by discriminate. now split.
  - intros [[] b] x Hw H; cbn in *; try discriminate H; split; try reflexivity;
      now destruct (x =? ch_E).
  - intros [[] b] x Hw H; cbn in *; try discriminate H; split; [reflexivity|]. exact (fun h => h).
  - intros [[] b] x c Hw [H|H]; cbn in *; try (now destruct b); try discriminate H; exact (fun h => h).
Defined.

Definition commands : list Z := [ch_C; ch_I; ch_E; ch_F].

End CommandChrono.

(** ** What the two tasks get *)

Lemma taken_accepted {St} `{Laws : MonitorLaws St} (m : mon) P :
  mon_inv m -> Forall P (m_accepted m) -> Forall P (m_taken m).
Proof. intros Hi Hp. rewrite (mi_fifo m Hi) in Hp. now apply Forall_app in Hp as [? _]. Qed.

(** Commands the clock may get in a status, and the chronometer. *)
Definition clock_gets (r : CommandClock.status * Z) : Prop :=
  match fst r with
  | CommandClock.stopped => snd r ∈ [ch_R; ch_H; ch_M; ch_S; ch_F]
  | CommandClock.running => snd r ∈ [ch_R; ch_T; ch_F]
  end.

Definition chrono_gets (r : CommandChrono.status * Z) : Prop :=
  match CommandChrono.Chronostatus (fst r) with
  | CommandChrono.stoppedInitial => snd r ∈ [ch_C; ch_F]
  | CommandChrono.running => snd r ∈ [ch_C; ch_I; ch_E; ch_F]
  | CommandChrono.stoppedFinal => snd r = ch_R
  end.

(** Decide membership of a known character in a list of characters. *)
Ltac in_chars := repeat (apply elem_of_cons; first [left; reflexivity | right]).

Lemma clock_returned (m : @mon CommandClock.status) :
  mon_inv m -> Forall (fun c => c ∈ CommandClock.commands) (m_accepted m) ->
  Forall clock_gets (m_returned m).
Proof.
  intros Hi Ha. pose proof (taken_accepted m _ Hi Ha) as Ht. rewrite Forall_forall in Ht.
  eapply Forall_impl; [apply (mi_returned m Hi)|]. intros [st c] [(Hp & Hc & Hs)|(got & b & Hc & Hs)]; cbn in *.
  - specialize (Ht c Hc). unfold clock_gets, CommandClock.commands in *. cbn in *.
    repeat apply elem_of_cons in Ht as [->|Ht]; try (now apply elem_of_nil in Ht);
      destruct st; cbn in *; try discriminate Hp; in_chars.
  - unfold clock_gets. destruct st; cbn in *; [discriminate Hs|]. destruct got; cbn in *; [discriminate Hs|].
    subst. in_chars.
Qed.

Lemma chrono_returned (m : @mon CommandChrono.status) :
  mon_inv m -> Forall (fun c => c ∈ CommandChrono.commands) (m_accepted m) ->
  Forall chrono_gets (m_returned m).
Proof.
  intros Hi Ha. pose proof (taken_accepted m _ Hi Ha) as Ht. rewrite Forall_forall in Ht.
  eapply Forall_impl; [apply (mi_returned m Hi)|]. intros [st c] [(Hp & Hc & Hs)|(got & b & Hc & Hs)]; cbn in *.
  - specialize (Ht c Hc). unfold chrono_gets, CommandChrono.commands in *. cbn in *.
    repeat apply elem_of_cons in Ht as [->|Ht]; try (now apply elem_of_nil in Ht);
      destruct st as [[] bf]; cbn in *; try discriminate Hp; try discriminate Hs; in_chars.
  - unfold chrono_gets. destruct st as [[] bf]; cbn in *; [discriminate Hs| |now subst].
    destruct got; cbn in *; [discriminate Hs|]. subst. in_chars.
Qed.

(** ** A command put while the final time is shown *)

Import CommandChrono.

(** The buffer is kept for the next [CommandChrono_Get]: the getting task has
    returned [r] and is on its way to the command [b]. *)
Definition kept (b : Z) (r : list (status * Z)) (m : @mon status) : Prop :=
  m_status m = CST stoppedInitial true /\ m_buffer m = b /\ m_returned m = r /\
  match m_get m with GSig _ false | GIdle | GIn true => True | _ => False end.

Lemma returned_grow (m m' : @mon status) :
  mon_step m m' -> m_returned m' = m_returned m \/ exists x, m_returned m' = m_returned m ++ [x].
Proof. intros [[]|[]]; cbn; eauto. Qed.

(** As long as the buffer is kept the semaphore [notFull] is not free and no
    [Put] is past it, so that only the next [Get] changes anything, and it takes
    the command. *)
Lemma kept_step b r (m m' : @mon status) :
  mon_inv m -> kept b r m -> mon_step m m' ->
  kept b r m' \/ m_returned m' = r ++ [(CST stoppedInitial true, b)].
Proof.
  intros Hi (Hst & Hb & Hr & Hg). pose proof (mi_token m Hi) as Ht. pose proof (mi_full m Hi).
  pose proof (mi_empty m Hi).
  assert (Hh : get_holds (m_status m) (m_get m) = 1).
  { rewrite Hst. destruct (m_get m) as [| | |[]|? []]; try (now exfalso); reflexivity. }
  intros [Hp|Hs].
  - destruct Hp as [c m E|c m E Hpos|c m E Htest|c m E Htest|f m E]; rewrite E in Ht; cbn in Ht; try lia.
    left. now repeat split.
  - destruct Hs as [m E W|m E W|m E W|m E W Hpos|m E W Hno|m E Hpos|m E|got st' c sig m E D|c sig m E];
      try (rewrite Hst in W; discriminate W).
    + left. now repeat split.
    + destruct E as [E|E]; now rewrite E in Hg.
    + now rewrite E in Hg.
    + rewrite E in Hg. destruct got; [|now exfalso]. rewrite Hst, Hb in D. cbn in D.
      injection D as <- <- <-. right. cbn. now rewrite Hst, Hr.
    + left. now repeat split.
Qed.

Lemma kept_until b r (m m' : @mon status) :
  mon_inv m -> kept b r m -> rtc mon_step m m' ->
  mon_inv m' /\ (kept b r m' \/ (length r < length (m_returned m'))%nat).
Proof.
  intros Hi Hk Hs. apply (rtc_invariant mon_step
    (fun x => mon_inv x /\ (kept b r x \/ (length r < length (m_returned x))%nat)) m); auto.
  intros x y [Hx Hc] Hst. split.
  { destruct Hst as [Hp|Hg]; [now apply (put_step_inv x) | now apply (get_step_inv x)]. }
  destruct Hc as [Hc|Hl].
  - destruct (kept_step b r x y Hx Hc Hst) as [|E]; [now left | right]. rewrite E, length_app. cbn. lia.
  - right. destruct (returned_grow x y Hst) as [->|[z ->]]; [exact Hl|]. rewrite length_app. lia.
Qed.

(** The [Get] that shows the final time and finds a command leaves it there. *)
Lemma final_keeps (m m1 : @mon status) :
  mon_inv m -> m_get m = GIn true -> Chronostatus (m_status m) = stoppedFinal -> get_step m m1 ->
  m_returned m1 = m_returned m ++ [(CST stoppedFinal false, ch_R)] /\
  m_accepted m1 = m_taken m1 ++ [m_buffer m] /\ kept (m_buffer m) (m_returned m1) m1.
Proof.
  intros Hi Eg Est Hs. assert (Hst : m_status m = CST stoppedFinal false).
  { pose proof (mi_ok m Hi) as Hw. cbn in Hw. unfold status_wf in Hw. destruct (m_status m) as [x y].
    cbn in *. rewrite Hw, Est by congruence. reflexivity. }
  pose proof (mi_fifo m Hi) as Hf. unfold slot_full in Hf. rewrite Eg, orb_true_r in Hf.
  destruct Hs as [m E W|m E W|m E W|m E W Hpos|m E W Hno|m E Hpos|m E|got st' c sig m E D|c sig m E];
    try (rewrite Eg in E); try discriminate E; try (now destruct E).
  injection E as <-. rewrite Hst in *. cbn in D. injection D as <- <- <-. cbn. now repeat split.
Qed.

(** ** The clock with messages *)

(** user/msg_clock/cmdclk.c: [Put] tests the status of the server task and
    sends it the command; a message waits in [outbox] until the server receives
    it, and only then can [Put] send another. *)
Module MsgClock.

(** Where the server is: before a receive; with a command received, its status
    not yet updated; before [rt_send(get, command)]; ended. *)
Inductive server_pc := SReceive | SGot (c : Z) | SSend (c : Z) | SEnd.

Record server := SRV {
  sv_status : CommandClock.status; sv_outbox : option Z; sv_pc : server_pc;
  sv_sent : list (CommandClock.status * Z)
}.

Definition server_start : server := SRV CommandClock.stopped None SReceive [].

(** [CommandClock_Put] once the first exchange is done. *)
Definition CommandClock_Put (c : Z) (s : server) : option server :=
  match sv_outbox s with
  | Some _ => None
  | None =>
      Some (SRV (sv_status s) (if CommandClock.Put_test (sv_status s) c then Some c else None)
                (sv_pc s) (sv_sent s))
  end.

(** One step of the loop of [CommandClock_task]; [None] when it waits. *)
Definition CommandClock_task (s : server) : option server :=
  match sv_pc s with
  | SReceive =>
      match sv_status s, sv_outbox s with
      | _, Some c => Some (SRV (sv_status s) None (SGot c) (sv_sent s))
      | CommandClock.stopped, None => None
      | CommandClock.running, None => Some (SRV (sv_status s) None (SSend ch_R) (sv_sent s))
      end
  | SGot c =>
      let st := match sv_status s with
                | CommandClock.stopped =>
                    if c =? ch_R then CommandClock.running else CommandClock.stopped
                | CommandClock.running =>
                    if c =? ch_T then CommandClock.stopped else CommandClock.running
                end in
      Some (SRV st (sv_outbox s) (SSend c) (sv_sent s))
  | SSend c =>
      Some (SRV (sv_status s) (sv_outbox s) (if c =? ch_F then SEnd else SReceive)
                (sv_sent s ++ [(sv_status s, c)]))
  | SEnd => None
  end.

Inductive server_step (s s' : server) : Prop :=
| server_put c : CommandClock_Put c s = Some s' -> server_step s s'
| server_task : CommandClock_task s = Some s' -> server_step s s'.

End MsgClock.
