(* ===== verification/ClockDisplay.v ===== *)
(** * The display monitor of the wrist clock (user/sem_clock/dispclk.c)

    Two one-place buffers, for the hour and for the chronometer, written by the
    clock and the chronometer tasks and emptied by the task that writes to the
    screen, under the semaphores [mutex] and [notEmpty].  A writer replaces what
    was not shown yet.  Every interleaving of the three tasks is considered,
    one step per semaphore operation. *)

From stdpp Require Import base tactics numbers list relations.
From S2P Require Import Prelude Hmsh.

(** ** Data *)

(** [Display_tDest] *)
Inductive Display_tDest := destClock | destChrono.

#[export] Instance dest_eq_dec : EqDecision Display_tDest.
Proof. solve_decision. Defined.

(** The status of a buffer. *)
Inductive buffer_status := empty | full.

(** The shared variables of dispclk.c. *)
Record display := DSP {
  HourBufferstatus : buffer_status; TimesBufferstatus : buffer_status;
  hour : MenageHmsh_tChain11; times : MenageHmsh_tChain11
}.

(** ** Critical sections *)

(** [Display_PutHour] between the semaphore operations: the new variables, and
    whether [notEmpty] is signalled. *)
Definition Display_PutHour (chain : MenageHmsh_tChain11) (d : display) : display * bool :=
  let hr := <[0%nat := 104]> chain in
  match HourBufferstatus d with
  | empty => (DSP full (TimesBufferstatus d) hr (times d), true)
  | full => (DSP full (TimesBufferstatus d) hr (times d), false)
  end.

(** [Display_PutTimes] *)
Definition Display_PutTimes (chain : MenageHmsh_tChain11) (d : display) : display * bool :=
  let ts := <[0%nat := 116]> chain in
  match TimesBufferstatus d with
  | empty => (DSP (HourBufferstatus d) full (hour d) ts, true)
  | full => (DSP (HourBufferstatus d) full (hour d) ts, false)
  end.

(** [Display_Get]: [None] when both buffers are empty and the caller's variables
    are not written. *)
Definition Display_Get (d : display) : display * option (Display_tDest * MenageHmsh_tChain11) :=
  match TimesBufferstatus d, HourBufferstatus d with
  | full, _ => (DSP (HourBufferstatus d) empty (hour d) (times d), Some (destChrono, times d))
  | empty, full => (DSP empty (TimesBufferstatus d) (hour d) (times d), Some (destClock, hour d))
  | empty, empty => (d, None)
  end.

(** ** The three tasks *)

(** A writer: outside; before [rt_sem_wait(mutex)]; in the critical section;
    before [rt_sem_signal(notEmpty)]; before [rt_sem_signal(mutex)]. *)
Inductive writer_pc := WIdle | WWait (c : MenageHmsh_tChain11) | WIn (c : MenageHmsh_tChain11)
                     | WSig | WOut.

(** The reader: outside; before [rt_sem_wait(notEmpty)]; before
    [rt_sem_wait(mutex)]; in the critical section; before
    [rt_sem_signal(mutex)], with what it read. *)
Inductive reader_pc := RIdle | RWaitE | RWaitM | RIn
                     | ROut (r : option (Display_tDest * MenageHmsh_tChain11)).

(** The monitor and its tasks; [d_last] is the last chain put for each
    destination. *)
Record dmon := DMON {
  d_vars : display; d_notEmpty : Z; d_mutex : Z;
  d_clock : writer_pc; d_chrono : writer_pc; d_reader : reader_pc;
  d_last_hour : MenageHmsh_tChain11; d_last_times : MenageHmsh_tChain11
}.

(** [init_dispclk] *)
Definition init_dispclk : dmon := DMON (DSP empty empty [] []) 0 1 WIdle WIdle RIdle [] [].

Inductive dstep : dmon -> dmon -> Prop :=
| clock_call c m : d_clock m = WIdle ->
    dstep m (DMON (d_vars m) (d_notEmpty m) (d_mutex m) (WWait c) (d_chrono m) (d_reader m)
                  (d_last_hour m) (d_last_times m))
| clock_enter c m : d_clock m = WWait c -> 0 < d_mutex m ->
    dstep m (DMON (d_vars m) (d_notEmpty m) (d_mutex m - 1) (WIn c) (d_chrono m) (d_reader m)
                  (d_last_hour m) (d_last_times m))
| clock_body c v sig m : d_clock m = WIn c -> Display_PutHour c (d_vars m) = (v, sig) ->
    dstep m (DMON v (d_notEmpty m) (d_mutex m) (if sig then WSig else WOut) (d_chrono m)
                  (d_reader m) (<[0%nat := 104]> c) (d_last_times m))
| clock_signal m : d_clock m = WSig ->
    dstep m (DMON (d_vars m) (d_notEmpty m + 1) (d_mutex m) WOut (d_chrono m) (d_reader m)
                  (d_last_hour m) (d_last_times m))
| clock_leave m : d_clock m = WOut ->
    dstep m (DMON (d_vars m) (d_notEmpty m) (d_mutex m + 1) WIdle (d_chrono m) (d_reader m)
                  (d_last_hour m) (d_last_times m))
| chrono_call c m : d_chrono m = WIdle ->
    dstep m (DMON (d_vars m) (d_notEmpty m) (d_mutex m) (d_clock m) (WWait c) (d_reader m)
                  (d_last_hour m) (d_last_times m))
| chrono_enter c m : d_chrono m = WWait c -> 0 < d_mutex m ->
    dstep m (DMON (d_vars m) (d_notEmpty m) (d_mutex m - 1) (d_clock m) (WIn c) (d_reader m)
                  (d_last_hour m) (d_last_times m))
| chrono_body c v sig m : d_chrono m = WIn c -> Display_PutTimes c (d_vars m) = (v, sig) ->
    dstep m (DMON v (d_notEmpty m) (d_mutex m) (d_clock m) (if sig then WSig else WOut)
                  (d_reader m) (d_last_hour m) (<[0%nat := 116]> c))
| chrono_signal m : d_chrono m = WSig ->
    dstep m (DMON (d_vars m) (d_notEmpty m + 1) (d_mutex m) (d_clock m) WOut (d_reader m)
                  (d_last_hour m) (d_last_times m))
| chrono_leave m : d_chrono m = WOut ->
    dstep m (DMON (d_vars m) (d_notEmpty m) (d_mutex m + 1) (d_clock m) WIdle (d_reader m)
                  (d_last_hour m) (d_last_times m))
| reader_call m : d_reader m = RIdle ->
    dstep m (DMON (d_vars m) (d_notEmpty m) (d_mutex m) (d_clock m) (d_chrono m) RWaitE
                  (d_last_hour m) (d_last_times m))
| reader_token m : d_reader m = RWaitE -> 0 < d_notEmpty m ->
    dstep m (DMON (d_vars m) (d_notEmpty m - 1) (d_mutex m) (d_clock m) (d_chrono m) RWaitM
                  (d_last_hour m) (d_last_times m))
| reader_enter m : d_reader m = RWaitM -> 0 < d_mutex m ->
    dstep m (DMON (d_vars m) (d_notEmpty m) (d_mutex m - 1) (d_clock m) (d_chrono m) RIn
                  (d_last_hour m) (d_last_times m))
| reader_body v r m : d_reader m = RIn -> Display_Get (d_vars m) = (v, r) ->
    dstep m (DMON v (d_notEmpty m) (d_mutex m) (d_clock m) (d_chrono m) (ROut r)
                  (d_last_hour m) (d_last_times m))
| reader_leave r m : d_reader m = ROut r ->
    dstep m (DMON (d_vars m) (d_notEmpty m) (d_mutex m + 1) (d_clock m) (d_chrono m) RIdle
                  (d_last_hour m) (d_last_times m)).

(** ** The invariant *)

Definition full_count (b : buffer_status) : Z := match b with full => 1 | empty => 0 end.

Definition w_holds (pc : writer_pc) : Z := match pc with WIn _ | WSig | WOut => 1 | _ => 0 end.
Definition r_holds (pc : reader_pc) : Z := match pc with RIn | ROut _ => 1 | _ => 0 end.
Definition w_owes (pc : writer_pc) : Z := match pc with WSig => 1 | _ => 0 end.
Definition r_token (pc : reader_pc) : Z := match pc with RWaitM | RIn => 1 | _ => 0 end.

(** What the reader got is the last chain put for that destination, at the time
    it read it. *)
Record dinv (m : dmon) : Prop := {
  di_mutex : 0 <= d_mutex m;
  di_notEmpty : 0 <= d_notEmpty m;
  di_excl : d_mutex m + w_holds (d_clock m) + w_holds (d_chrono m) + r_holds (d_reader m) = 1;
  di_count : full_count (HourBufferstatus (d_vars m)) + full_count (TimesBufferstatus (d_vars m))
    = d_notEmpty m + r_token (d_reader m) + w_owes (d_clock m) + w_owes (d_chrono m);
  di_hour : HourBufferstatus (d_vars m) = full -> hour (d_vars m) = d_last_hour m;
  di_times : TimesBufferstatus (d_vars m) = full -> times (d_vars m) = d_last_times m;
  di_got : d_reader m <> ROut None
}.

Lemma dinv_init : dinv init_dispclk.
Proof. constructor; cbn; (lia || easy). Qed.

(** In the critical section the reader finds a full buffer, with the last chain
    put for its destination. *)
Lemma reader_finds m v r :
  dinv m -> d_reader m = RIn -> Display_Get (d_vars m) = (v, r) ->
  match r with
  | Some (destClock, c) => c = d_last_hour m /\ TimesBufferstatus (d_vars m) = empty
  | Some (destChrono, c) => c = d_last_times m
  | None => False
  end.
Proof.
  intros [Hm He Hx Hc Hh Ht _] Er E. rewrite Er in *. cbn in *.
  assert (w_owes (d_clock m) = 0 /\ w_owes (d_chrono m) = 0)
    by (destruct (d_clock m), (d_chrono m); cbn in *; lia).
  unfold Display_Get in E.
  destruct (TimesBufferstatus (d_vars m)), (HourBufferstatus (d_vars m)); cbn in *; injection E as <- <-;
    try (split; auto); try lia; auto.
Qed.

Lemma dstep_inv m m' : dinv m -> dstep m m' -> dinv m'.
Proof.
  intros Hi Hs. pose proof Hi as [Hm He Hx Hc Hh Ht Hg].
  destruct Hs as [c m E|c m E P|c v sig m E D|m E|m E|c m E|c m E P|c v sig m E D|m E|m E
                 |m E|m E P|m E P|v r m E D|r m E];
    rewrite E in *; cbn in *.
  all: try (constructor; cbn; try assumption; try congruence; lia).
  - assert (d_mutex m = 0 /\ w_holds (d_chrono m) = 0 /\ r_holds (d_reader m) = 0)
      by (destruct (d_chrono m), (d_reader m); cbn in *; lia).
    assert (w_owes (d_chrono m) = 0) by (destruct (d_chrono m); cbn in *; lia).
    unfold Display_PutHour in D. destruct (HourBufferstatus (d_vars m)); injection D as <- <-;
      constructor; cbn in *; try assumption; try easy; lia.
  - assert (d_mutex m = 0 /\ w_holds (d_clock m) = 0 /\ r_holds (d_reader m) = 0)
      by (destruct (d_clock m), (d_reader m); cbn in *; lia).
    assert (w_owes (d_clock m) = 0) by (destruct (d_clock m); cbn in *; lia).
    unfold Display_PutTimes in D. destruct (TimesBufferstatus (d_vars m)); injection D as <- <-;
      constructor; cbn in *; try assumption; try easy; lia.
  - pose proof (reader_finds m v r Hi E D) as Hr.
    unfold Display_Get in D.
    destruct (TimesBufferstatus (d_vars m)) eqn:E1, (HourBufferstatus (d_vars m)) eqn:E2; cbn in *;
      injection D as <- <-; try easy; constructor; cbn in *; rewrite ?E1, ?E2 in *; cbn in *;
      try assumption; try easy; lia.
Qed.

Lemma display_reachable_inv m : rtc dstep init_dispclk m -> dinv m.
Proof. apply rtc_invariant; [apply dinv_init | apply dstep_inv]. Qed.
