(* ===== verification/ClockTasks.v ===== *)
(** * The tasks of the wrist clock (user/sem_clock/clock.c, screen.c, keybrd.c)

    One turn of the loop of each task as a function of the command, key or
    chain it received.  Variables the C code does not initialise are [None]
    until they are assigned; reading one, or indexing [digits] out of range, is
    [Undefined]. *)

From stdpp Require Import base tactics numbers list.
From S2P Require Import Prelude Hmsh CmdMonitor ClockMonitors.

(** The outcome of a turn: the loop goes on, perhaps after a
    [Display_PutHour] or [Display_PutTimes]; or it ends. *)
Inductive turn (S : Type) :=
| Next (s : S) (shown : option MenageHmsh_tChain11)
| Ended (shown : option MenageHmsh_tChain11)
| Undefined.
Arguments Next {S} _ _.
Arguments Ended {S} _.
Arguments Undefined {S}.

(** ** ClockChrono_Clock *)

(** Its locals [hour], [display] and [hourChain]. *)
Record clock_vars := CKV {
  ck_hour : MenageHmsh_tHour; ck_display : option bool; ck_chain : MenageHmsh_tChain11
}.

(** The part of the loop after the [switch]. *)
Definition clock_show (h : MenageHmsh_tHour) (d : option bool) (c : MenageHmsh_tChain11)
    : turn clock_vars :=
  match d with
  | None => Undefined
  | Some true =>
      match MenageHmsh_Convert h false c with
      | Some c' => Next (CKV h d c') (Some c')
      | None => Undefined
      end
  | Some false => Next (CKV h d c) None
  end.

(** A turn of the loop of [ClockChrono_Clock], and its end. *)
Definition ClockChrono_Clock (command : Z) (v : clock_vars) : turn clock_vars :=
  if command =? ch_R then
    let (h, d) := MenageHmsh_PlusOneUnit (ck_hour v) in clock_show h (Some d) (ck_chain v)
  else if command =? ch_T then
    clock_show (MenageHmsh_InitialiseHundredthes (ck_hour v)) (Some false) (ck_chain v)
  else if command =? ch_H then
    clock_show (MenageHmsh_AdvanceHours (ck_hour v)) (Some true) (ck_chain v)
  else if command =? ch_M then
    clock_show (MenageHmsh_AdvanceMinutes (ck_hour v)) (Some true) (ck_chain v)
  else if command =? ch_S then
    clock_show (MenageHmsh_AdvanceSeconds (ck_hour v)) (Some true) (ck_chain v)
  else if command =? ch_F then Ended (Some (<[1%nat := 101]> (ck_chain v)))
  else clock_show (ck_hour v) (ck_display v) (ck_chain v).

(** ** ClockChrono_Chrono *)

(** Its locals [times], [Intermediatetimes], [endIntermediateTimes],
    [hundredthes] and [timesChain]; [display] is assigned in every case. *)
Record chrono_vars := CRV {
  cr_times : option MenageHmsh_tHour; cr_inter : bool; cr_end : option MenageHmsh_tHour;
  cr_display : option bool; cr_hundredthes : bool; cr_chain : MenageHmsh_tChain11
}.

Definition chrono_show (v : chrono_vars) : turn chrono_vars :=
  match cr_display v, cr_times v with
  | Some true, Some t =>
      match MenageHmsh_Convert t (cr_hundredthes v) (cr_chain v) with
      | Some c => Next (CRV (cr_times v) (cr_inter v) (cr_end v) (cr_display v)
                            (cr_hundredthes v) c) (Some c)
      | None => Undefined
      end
  | Some false, _ => Next v None
  | _, _ => Undefined
  end.

(** A turn of the loop of [ClockChrono_Chrono], for the command it starts
    with. *)
Definition ClockChrono_Chrono (command : Z) (v : chrono_vars) : turn chrono_vars :=
  if command =? ch_R then
    chrono_show (CRV (Some MenageHmsh_Initialise) false (cr_end v) (Some true) false (cr_chain v))
  else if command =? ch_C then
    match cr_times v with
    | None => Undefined
    | Some t =>
        let (t, d) := MenageHmsh_PlusOneUnit t in
        if cr_inter v then
          match cr_end v with
          | None => Undefined
          | Some e =>
              let inter := negb (MenageHmsh_Equal t e) in
              chrono_show (CRV (Some t) inter (cr_end v) (Some (negb inter)) false (cr_chain v))
          end
        else chrono_show (CRV (Some t) (cr_inter v) (cr_end v) (Some d) (cr_hundredthes v) (cr_chain v))
    end
  else if command =? ch_I then
    match cr_times v with
    | None => Undefined
    | Some t =>
        chrono_show (CRV (cr_times v) true (Some (MenageHmsh_PlusNSeconds 3 t)) (Some true) true
                         (cr_chain v))
    end
  else if command =? ch_E then
    chrono_show (CRV (cr_times v) (cr_inter v) (cr_end v) (Some true) true (cr_chain v))
  else if command =? ch_F then Ended None
  else chrono_show v.

(** ** ClockChrono_Read *)

(** [toupper] in the C locale. *)
Definition toupper (ch : Z) : Z := if (97 <=? ch) && (ch <=? 122) then ch - 32 else ch.

(** Its local [run] and the globals [hide] and [Pause]. *)
Record read_vars := RDV { rd_run : Z; rd_hide : Z; rd_pause : bool }.

(** What a key makes the task do. *)
Inductive read_act :=
| PutClock (c : Z) | PutChrono (c : Z) | SignalSync | SleepPaused.

(** A turn of the loop of [ClockChrono_Read]: the new variables, the calls it
    makes, and whether the loop goes on.  [Pause] is TRUE during the sleep of the
    command P only: [SleepPaused] is the sleep with the two assignments around it. *)
Definition ClockChrono_Read (key : Z) (v : read_vars) : read_vars * list read_act * bool :=
  let ch := toupper key in
  if (ch =? ch_T) || (ch =? ch_R) || (ch =? ch_H) || (ch =? ch_M) || (ch =? ch_S) then
    (v, [PutClock ch], true)
  else if (ch =? ch_C) || (ch =? ch_I) || (ch =? ch_E) then (v, [PutChrono ch], true)
  else if ch =? ch_N then (RDV (rd_run v) (Z.lnot (rd_hide v)) (rd_pause v), [], true)
  else if ch =? ch_P then (RDV (rd_run v) (rd_hide v) false, [SleepPaused], true)
  else if (ch =? ch_K) || (ch =? ch_D) then
    let run := Z.lor (rd_run v) ch in
    (RDV run (rd_hide v) (rd_pause v),
     if run =? Z.lor ch_K ch_D then [SignalSync; SignalSync] else [], true)
  else if ch =? ch_F then (v, [PutClock ch_F; PutChrono ch_F], false)
  else (v, [], true).

(** ** ClockChrono_Write and the screen *)

(** A turn of the loop of [ClockChrono_Write]: [None] when it ends, otherwise
    what it sends to the screen. *)
Definition ClockChrono_Write (chain : MenageHmsh_tChain11) (hide : Z) (pause : bool)
    : option (list MenageHmsh_tChain11) :=
  match chain !! 1%nat with
  | Some c =>
      if c =? 101 then None
      else Some (if (hide =? 0) && negb pause then [take 12 chain] else [])
  | None => None
  end.

(** [displine]: 40 characters, NUL after the text. *)
Definition displine : list Z :=
  [67; 76; 79; 67; 75; 45; 62; 32; 48; 48; 58; 48; 48; 58; 48; 48; 32; 32;
   67; 72; 82; 79; 78; 79; 45; 62; 32; 48; 48; 58; 48; 48; 58; 48; 48; 0; 0; 0; 0; 0].

(** [for (i = 0; i < n; i++) displine[i + off] = chain[i + 1]], from [i] on. *)
Fixpoint copy_chars (n i off : nat) (chain line : list Z) : option (list Z) :=
  match n with
  | O => Some line
  | S n' =>
      c ← chain !! (i + 1)%nat;
      if decide (i + off < length line)%nat
      then copy_chars n' (S i) off chain (<[(i + off)%nat := c]> line)
      else None
  end.

(** A turn of the loop of the screen's [main]: the line it prints. *)
Definition screen_turn (chain line : list Z) : option (list Z) :=
  c0 ← chain !! 0%nat;
  if c0 =? 116 then copy_chars 11 0 27 chain line
  else if c0 =? 104 then copy_chars 8 0 8 chain line
  else Some line.

(** ** Facts *)

Definition clock_ok (v : clock_vars) : Prop := hour_wf (ck_hour v) /\ exists c0 r, ck_chain v = c0 :: r.

(** Showing a time of day: a chain that reads back as that time. *)
Lemma clock_show_ok h d c :
  hour_wf h -> (exists c0 r, c = c0 :: r) ->
  exists v sh, clock_show h (Some d) c = Next v sh /\ ck_hour v = h /\ clock_ok v /\
    match sh with
    | Some ch => d = true /\ parse_chain ch = Some (MenageHmsh_InitialiseHundredthes h) /\
                 exists x, ch !! 1%nat = Some x /\ 48 <= x <= 50
    | None => d = false
    end.
Proof.
  intros Hw (c0 & r & ->). unfold clock_show. destruct d.
  - destruct (Convert_parse h false c0 r Hw) as (ch & -> & Hl & H0 & H1 & Hp).
    do 2 eexists. split; [reflexivity|]. split_and!; try assumption; try reflexivity.
    split; [assumption|]. destruct ch; [discriminate H0|]. eauto.
  - do 2 eexists. split; [reflexivity|]. split_and!; try reflexivity. split; eauto.
Qed.

Lemma clock_cases c : c ∈ CommandClock.commands ->
  c = ch_T \/ c = ch_R \/ c = ch_H \/ c = ch_M \/ c = ch_S \/ c = ch_F.
Proof. unfold CommandClock.commands. rewrite !elem_of_cons, elem_of_nil. tauto. Qed.

(** A turn of the clock for a command of its alphabet. *)
Lemma clock_turn_ok c v :
  c ∈ CommandClock.commands -> clock_ok v ->
  if c =? ch_F then ClockChrono_Clock c v = Ended (Some (<[1%nat := 101]> (ck_chain v)))
  else exists v' sh, ClockChrono_Clock c v = Next v' sh /\ clock_ok v' /\
    (forall ch, sh = Some ch -> parse_chain ch = Some (MenageHmsh_InitialiseHundredthes (ck_hour v')) /\
                                exists x, ch !! 1%nat = Some x /\ 48 <= x <= 50).
Proof.
  intros Hc [Hw Hch]. pose proof (PlusOneUnit_units _ Hw) as Hu.
  pose proof (Advance_wf _ Hw) as (A1 & A2 & A3 & A4).
  assert (Hs : forall h d, hour_wf h -> exists v' sh, clock_show h (Some d) (ck_chain v) = Next v' sh /\
    clock_ok v' /\ (forall ch, sh = Some ch ->
      parse_chain ch = Some (MenageHmsh_InitialiseHundredthes (ck_hour v')) /\
      exists x, ch !! 1%nat = Some x /\ 48 <= x <= 50)).
  { intros h d Hh. destruct (clock_show_ok h d (ck_chain v) Hh Hch) as (v' & sh & E & Eh & Hok & Hsh).
    exists v', sh. split_and!; try assumption. intros ch ->. rewrite Eh. tauto. }
  apply clock_cases in Hc as [->|[->|[->|[->|[->| ->]]]]]; cbn -[MenageHmsh_PlusOneUnit clock_show];
    try (apply Hs; assumption); try reflexivity.
  destruct (MenageHmsh_PlusOneUnit (ck_hour v)) as [h d]. apply Hs. apply Hu.
Qed.

(** ** Runs *)

(** The turns of a task for a list of commands: its variables after them and
    what it showed at each turn; [None] when it read an undefined value; a run
    stops at the turn that ends the task. *)
Fixpoint task_run {S} (f : Z -> S -> turn S) (cmds : list Z) (v : S)
    : option (S * list (option MenageHmsh_tChain11)) :=
  match cmds with
  | [] => Some (v, [])
  | c :: cmds' =>
      match f c v with
      | Next v' sh =>
          match task_run f cmds' v' with
          | Some (v'', shs) => Some (v'', sh :: shs)
          | None => None
          end
      | Ended sh => Some (v, [sh])
      | Undefined => None
      end
  end.

Lemma clock_run_ok cmds v :
  Forall (fun c => c ∈ CommandClock.commands) cmds -> clock_ok v ->
  exists v' shs, task_run ClockChrono_Clock cmds v = Some (v', shs) /\ clock_ok v'.
Proof.
  intros Hc. revert v. induction Hc as [|c cmds Hc Hcs IH]; intros v Hv; cbn [task_run]; [eauto|].
  pose proof (clock_turn_ok c v Hc Hv) as Ht. destruct (c =? ch_F).
  - rewrite Ht. eauto.
  - destruct Ht as (v1 & sh & -> & Hv1 & _). destruct (IH v1 Hv1) as (v2 & shs & -> & Hv2). eauto.
Qed.

(** [n] ticks of the running clock. *)
Lemma clock_ticks n v :
  clock_ok v ->
  exists v' shs, task_run ClockChrono_Clock (replicate n ch_R) v = Some (v', shs) /\ clock_ok v' /\
    units (ck_hour v') = (units (ck_hour v) + Z.of_nat n) mod DAY /\ length shs = n /\
    (forall k sh, shs !! k = Some sh ->
       (is_Some sh <-> (units (ck_hour v) + Z.of_nat k + 1) mod 100 = 0)).
Proof.
  revert v. induction n as [|n IH]; intros v Hv; cbn [replicate task_run].
  - do 2 eexists. split; [reflexivity|]. split_and!; try assumption; try reflexivity.
    + pose proof (units_range _ (proj1 Hv)). rewrite Z.mod_small; lia.
    + intros k sh Hk. rewrite lookup_nil in Hk. discriminate.
  - destruct Hv as [Hw Hch]. pose proof (PlusOneUnit_units _ Hw) as Hu.
    unfold ClockChrono_Clock at 1. cbn [Z.eqb ch_R Pos.eqb].
    destruct (MenageHmsh_PlusOneUnit (ck_hour v)) as [h d]. destruct Hu as (Hwh & Hun & Hd).
    destruct (clock_show_ok h d (ck_chain v) Hwh Hch) as (v1 & sh & -> & Eh & Hok & Hsh).
    destruct (IH v1 Hok) as (v2 & shs & -> & Hok2 & Hu2 & Hl & Hk).
    do 2 eexists. split; [reflexivity|]. split_and!; [assumption | | cbn; lia |].
    + rewrite Hu2, Eh, Hun, Z.add_mod_idemp_l by discriminate. f_equal. lia.
    + assert (H100 : forall a b, (a mod DAY + b) mod 100 = (a + b) mod 100).
      { intros a b. rewrite (Z.div_mod a DAY) at 2 by discriminate.
        replace (DAY * (a / DAY) + a mod DAY + b) with (a mod DAY + b + (a / DAY * 86400) * 100)
          by (unfold DAY; lia).
        now rewrite Z_mod_plus_full. }
      intros [|k] sh' Hs.
      * injection Hs as <-. rewrite Z.add_0_r. rewrite Hun in Hd.
        pose proof (H100 (units (ck_hour v) + 1) 0) as H1. rewrite !Z.add_0_r in H1. rewrite H1 in Hd.
        destruct sh as [ch|]; [destruct Hsh as [Hsh _]|]; rewrite Hsh in Hd; symmetry in Hd;
          bool_to_prop; split; eauto; try contradiction; intros [? [=]].
      * rewrite (Hk k sh' Hs), Eh, Hun.
        replace ((units (ck_hour v) + 1) mod DAY + Z.of_nat k + 1)
          with ((units (ck_hour v) + 1) mod DAY + (Z.of_nat k + 1)) by lia.
        rewrite H100. replace (units (ck_hour v) + 1 + (Z.of_nat k + 1))
          with (units (ck_hour v) + Z.of_nat (S k) + 1) by lia. reflexivity.
Qed.

(** ** The chronometer *)

Record chrono_ok (v : chrono_vars) : Prop := {
  co_times : exists t, cr_times v = Some t /\ hour_wf t;
  co_end : cr_inter v = true -> exists e, cr_end v = Some e /\ hour_wf e;
  co_chain : exists c0 r, cr_chain v = c0 :: r
}.

Lemma chrono_show_ok t inter e d hd c :
  hour_wf t -> (inter = true -> exists e', e = Some e' /\ hour_wf e') -> (exists c0 r, c = c0 :: r) ->
  exists c' sh, chrono_show (CRV (Some t) inter e (Some d) hd c)
      = Next (CRV (Some t) inter e (Some d) hd c') sh /\
    chrono_ok (CRV (Some t) inter e (Some d) hd c') /\
    match sh with
    | Some ch => d = true /\ parse_chain ch = Some (if hd then t else MenageHmsh_InitialiseHundredthes t)
    | None => d = false
    end.
Proof.
  intros Hw He (c0 & r & ->). unfold chrono_show. cbn [cr_display cr_times cr_hundredthes cr_chain].
  destruct d.
  - destruct (Convert_parse t hd c0 r Hw) as (ch & -> & Hl & H0 & H1 & Hp).
    exists ch, (Some ch). split_and!; try reflexivity; try assumption.
    constructor; cbn; eauto. destruct ch; [discriminate H0 | eauto].
  - do 2 eexists. split; [reflexivity|]. split; [|reflexivity]. constructor; cbn; eauto.
Qed.

(** A turn of the chronometer for the commands its monitor returns. *)
Lemma chrono_turn_ok c v :
  c ∈ ch_R :: CommandChrono.commands -> c = ch_R \/ chrono_ok v -> (exists c0 r, cr_chain v = c0 :: r) ->
  if c =? ch_F then ClockChrono_Chrono c v = Ended None
  else exists v' sh, ClockChrono_Chrono c v = Next v' sh /\ chrono_ok v'.
Proof.
  intros Hc Hv Hch. unfold CommandChrono.commands in Hc. rewrite !elem_of_cons, elem_of_nil in Hc.
  assert (Hinit : hour_wf MenageHmsh_Initialise) by (constructor; cbn; lia).
  destruct Hc as [->|[->|[->|[->|[->|[]]]]]]; cbn -[MenageHmsh_PlusOneUnit chrono_show MenageHmsh_PlusNSeconds];
    try reflexivity.
  - destruct (chrono_show_ok MenageHmsh_Initialise false (cr_end v) true false (cr_chain v))
      as (c' & sh & -> & Hok & _); try easy. eauto.
  - destruct Hv as [[=]|[(t & -> & Hw) He _]]. pose proof (PlusOneUnit_units t Hw) as Hu.
    destruct (MenageHmsh_PlusOneUnit t) as [t' d]. destruct Hu as (Hw' & _).
    destruct (cr_inter v).
    + destruct (He eq_refl) as (e & -> & Hwe).
      edestruct (chrono_show_ok t' (negb (MenageHmsh_Equal t' e)) (Some e)) as (c' & sh & -> & Hok & _); eauto.
    + edestruct (chrono_show_ok t' false (cr_end v)) as (c' & sh & -> & Hok & _); eauto.
  - destruct Hv as [[=]|[(t & -> & Hw) He _]].
    destruct (PlusNSeconds_units 3 t ltac:(lia) Hw) as [Hw3 _].
    edestruct (chrono_show_ok t true (Some (MenageHmsh_PlusNSeconds 3 t)))
      as (c' & sh & -> & Hok & _); eauto.
  - destruct Hv as [[=]|[(t & Et & Hw) He _]]. rewrite Et.
    edestruct (chrono_show_ok t (cr_inter v) (cr_end v)) as (c' & sh & -> & Hok & _); eauto.
Qed.

Lemma chrono_run_ok cmds v :
  Forall (fun c => c ∈ ch_R :: CommandChrono.commands) cmds -> chrono_ok v ->
  exists v' shs, task_run ClockChrono_Chrono cmds v = Some (v', shs) /\ chrono_ok v'.
Proof.
  intros Hc. revert v. induction Hc as [|c cmds Hc Hcs IH]; intros v Hv; cbn [task_run]; [eauto|].
  pose proof (chrono_turn_ok c v Hc (or_intror Hv) (co_chain v Hv)) as Ht. destruct (c =? ch_F).
  - rewrite Ht. eauto.
  - destruct Ht as (v1 & sh & -> & Hv1). destruct (IH v1 Hv1) as (v2 & shs & -> & Hv2). eauto.
Qed.

(** A frozen display: [k] units before the end of the intermediate time. *)
Lemma chrono_frozen k v t e :
  cr_times v = Some t -> hour_wf t -> cr_inter v = true -> cr_end v = Some e -> hour_wf e ->
  (exists c0 r, cr_chain v = c0 :: r) ->
  units e = (units t + Z.of_nat (S k)) mod DAY -> Z.of_nat (S k) < DAY ->
  exists v' ch, task_run ClockChrono_Chrono (replicate (S k) ch_C) v
      = Some (v', replicate k None ++ [Some ch]) /\
    parse_chain ch = Some (MenageHmsh_InitialiseHundredthes e) /\ cr_inter v' = false /\
    cr_times v' = Some e.
Proof.
  revert v t. induction k as [|k IH]; intros v t Et Hw Ei Ee Hwe Hch Hu Hk;
    pose proof (PlusOneUnit_units t Hw) as Ht;
    rewrite replicate_S; cbn [task_run]; unfold ClockChrono_Chrono at 1; cbn [Z.eqb ch_R ch_C Pos.eqb];
    rewrite Et, Ei, Ee; destruct (MenageHmsh_PlusOneUnit t) as [t' d]; destruct Ht as (Hw' & Hu' & _);
    rewrite Equal_units by assumption.
  - rewrite (proj2 (Z.eqb_eq (units t') (units e))) by (rewrite Hu, Hu'; f_equal; lia).
    assert (t' = e) as -> by (apply units_inj; try assumption; rewrite Hu, Hu'; f_equal; lia).
    destruct (chrono_show_ok e false (Some e) true false (cr_chain v)) as (c' & sh & E & Hok & Hsh); try easy.
    cbn [negb]. rewrite E. cbn [replicate task_run]. destruct sh as [ch|]; [|discriminate Hsh].
    do 2 eexists. split; [reflexivity|]. split_and!; try reflexivity. apply Hsh.
  - assert (Hne : (units t' =? units e) = false).
    { apply Z.eqb_neq. rewrite Hu, Hu'. pose proof (units_range t Hw). intros E.
      assert (Hz : (Z.of_nat (S (S k)) - 1) mod DAY = 0).
      { replace (Z.of_nat (S (S k)) - 1)
          with ((units t + Z.of_nat (S (S k))) - (units t + 1)) by lia.
        rewrite Zminus_mod, <- E, Z.sub_diag. reflexivity. }
      rewrite Z.mod_small in Hz; lia. }
    rewrite Hne. cbn [negb].
    destruct (chrono_show_ok t' true (Some e) false false (cr_chain v)) as (c' & sh & E & Hok & Hsh);
      eauto.
    rewrite E. destruct sh as [ch|]; [now destruct Hsh|].
    destruct (IH (CRV (Some t') true (Some e) (Some false) false c') t')
      as (v' & ch & E' & Hp & Hi & Ht'); try assumption; try reflexivity.
    + apply (co_chain _ Hok).
    + rewrite Hu, Hu', Z.add_mod_idemp_l by discriminate. f_equal. lia.
    + lia.
    + rewrite E'. do 2 eexists. split; [reflexivity|]. auto.
Qed.

(** ** The screen *)

Lemma copy_chars_ok n i off chain line :
  (i + n < length chain)%nat -> (i + n + off <= length line)%nat ->
  exists line', copy_chars n i off chain line = Some line' /\ length line' = length line /\
    (forall j, (j < i + off \/ i + n + off <= j)%nat -> line' !! j = line !! j) /\
    (forall j, (i <= j < i + n)%nat -> line' !! (j + off)%nat = chain !! (j + 1)%nat).
Proof.
  revert i line. induction n as [|n IH]; intros i line Hc Hl; cbn [copy_chars].
  - exists line. split_and!; try reflexivity. lia.
  - destruct (lookup_lt_is_Some_2 chain (i + 1)) as [c Ec]; [lia|]. rewrite Ec. cbn [mbind option_bind].
    rewrite decide_True by lia.
    destruct (IH (S i) (<[(i + off)%nat := c]> line)) as (l' & E & Hlen & Ho & Hin);
      rewrite ?length_insert; try lia.
    exists l'. rewrite length_insert in Hlen. split_and!; try assumption.
    + intros j Hj. rewrite Ho by lia. apply list_lookup_insert_ne. lia.
    + intros j Hj. destruct (decide (j = i)) as [->|Hne]; [|apply Hin; lia].
      rewrite Ho by lia. rewrite list_lookup_insert_eq by lia. now rewrite Ec.
Qed.
