(* ===== verification/ClockTheorems.v ===== *)
(** * The wrist clock: theorems

    The command protocol under every interleaving, the tasks fed by it, the
    display and the screen. *)

From stdpp Require Import base tactics numbers list relations.
From S2P Require Import Prelude Hmsh CmdMonitor ClockMonitors ClockDisplay ClockTasks.

(** ** The command monitors *)

(** C12: the protocol of [Put] and [Get], for any monitor that meets the
    interface and in every interleaving of the two tasks: commands come out of
    the buffer in the order they were accepted, at most one is in it, the
    semaphores hold one token together with the tasks, and the tasks are never
    both blocked. *)
Theorem command_monitor_fifo {St} `{Laws : MonitorLaws St} (m : mon) :
  mon_reachable m ->
  m_accepted m = m_taken m ++ (if slot_full m then [m_buffer m] else []) /\
  0 <= notFull m /\ 0 <= notEmpty m /\ notFull m + notEmpty m <= 1 /\
  notFull m + notEmpty m + put_holds (m_put m) + get_holds (m_status m) (m_get m) = 1 /\
  (forall c, m_put m = PWait c -> m_get m = GWait -> 0 < notFull m \/ 0 < notEmpty m).
Proof.
  intros Hr. pose proof (mon_reachable_inv m Hr) as Hi. split_and!; try apply Hi.
  - pose proof (mi_token m Hi) as Ht.
    assert (0 <= put_holds (m_put m)) by (destruct (m_put m); cbn; lia).
    assert (0 <= get_holds (m_status m) (m_get m))
      by (unfold get_holds; destruct (m_get m) as [| | |[]|? []], (retains (m_status m)); lia).
    lia.
  - intros c. now apply mon_no_deadlock.
Qed.

(** A run of the clock monitor: R is put and the getter waits for it. *)
Definition demo_monitor : @mon CommandClock.status :=
  MON CommandClock.stopped ch_R 1 0 PIdle GWait [ch_R] [] [].

Lemma demo_monitor_reachable : mon_reachable demo_monitor.
Proof.
  unfold mon_reachable, demo_monitor.
  eapply rtc_l; [apply step_put, (put_call ch_R); reflexivity|]. cbn.
  eapply rtc_l; [apply step_put; eapply put_acquire; [reflexivity | cbn; lia]|]. cbn.
  eapply rtc_l; [apply step_put; eapply put_accept; reflexivity|]. cbn.
  eapply rtc_l; [apply step_put; eapply put_signal; reflexivity|]. cbn.
  eapply rtc_l; [apply step_get, get_call_wait; reflexivity|]. apply rtc_refl.
Qed.

Lemma command_monitor_fifo_witness :
  m_accepted demo_monitor = m_taken demo_monitor ++ [ch_R] /\ notFull demo_monitor + notEmpty demo_monitor <= 1.
Proof.
  destruct (command_monitor_fifo demo_monitor demo_monitor_reachable) as (E & _ & _ & Hle & _ & _).
  split; [exact E | exact Hle].
Defined.

Definition demo_monitor_after : @mon CommandClock.status :=
  MON CommandClock.running ch_R 0 0 PIdle (GSig ch_R true) [ch_R] [ch_R] [(CommandClock.stopped, ch_R)].

Lemma demo_monitor_after_reachable : mon_reachable demo_monitor_after.
Proof.
  unfold mon_reachable. eapply rtc_r; [eapply rtc_r; [exact demo_monitor_reachable|]|].
  - apply step_get, get_acquire; [now left | cbn; lia].
  - apply step_get. eapply (get_body true CommandClock.running ch_R true); reflexivity.
Qed.

(** E ends the run, C is put during the five seconds the final time is shown:
    the chronometer gets R, then C. *)
Definition demo_chrono : @mon CommandChrono.status :=
  MON (CommandChrono.CST CommandChrono.running false) ch_C 0 0 PIdle (GSig ch_C true)
    [ch_C; ch_E; ch_C] [ch_C; ch_E; ch_C]
    [ (CommandChrono.CST CommandChrono.stoppedInitial false, ch_C);
      (CommandChrono.CST CommandChrono.running false, ch_E);
      (CommandChrono.CST CommandChrono.stoppedFinal false, ch_R);
      (CommandChrono.CST CommandChrono.stoppedInitial true, ch_C) ].

Ltac put_one c :=
  eapply rtc_l; [apply step_put, (put_call c); reflexivity|]; cbn;
  eapply rtc_l; [apply step_put; eapply put_acquire; [reflexivity | cbn; lia]|]; cbn;
  eapply rtc_l; [apply step_put; eapply put_accept; reflexivity|]; cbn;
  eapply rtc_l; [apply step_put; eapply put_signal; reflexivity|]; cbn.

(** The chronometer about to find, after E, the command C put while the final
    time is shown; and once it has shown it. *)
Definition demo_final : @mon CommandChrono.status :=
  MON (CommandChrono.CST CommandChrono.stoppedFinal false) ch_C 0 0 PIdle (GIn true)
    [ch_C; ch_E; ch_C] [ch_C; ch_E]
    [ (CommandChrono.CST CommandChrono.stoppedInitial false, ch_C);
      (CommandChrono.CST CommandChrono.running false, ch_E) ].

Definition demo_shown (pc : get_pc) : @mon CommandChrono.status :=
  MON (CommandChrono.CST CommandChrono.stoppedInitial true) ch_C 0 0 PIdle pc
    [ch_C; ch_E; ch_C] [ch_C; ch_E]
    (m_returned demo_final ++ [(CommandChrono.CST CommandChrono.stoppedFinal false, ch_R)]).

Lemma demo_final_reachable : mon_reachable demo_final.
Proof.
  unfold mon_reachable, demo_final. put_one ch_C.
  eapply rtc_l; [apply step_get, get_call_wait; reflexivity|]; cbn.
  eapply rtc_l; [apply step_get, get_acquire; [now left | cbn; lia]|]; cbn.
  eapply rtc_l; [apply step_get; eapply get_body; reflexivity|]; cbn.
  eapply rtc_l; [apply step_get; eapply get_signal; reflexivity|]; cbn.
  put_one ch_E.
  eapply rtc_l; [apply step_get, get_try_yes; [reflexivity .. | cbn; lia]|]; cbn.
  eapply rtc_l; [apply step_get; eapply get_body; reflexivity|]; cbn.
  eapply rtc_l; [apply step_get; eapply get_signal; reflexivity|]; cbn.
  put_one ch_C.
  eapply rtc_l; [apply step_get, get_call_timed; reflexivity|]; cbn.
  eapply rtc_l; [apply step_get, get_acquire; [now right | cbn; lia]|]; cbn. apply rtc_refl.
Qed.

Lemma demo_shows : get_step demo_final (demo_shown (GSig ch_R false)).
Proof.
  exact (get_body true (CommandChrono.CST CommandChrono.stoppedInitial true) ch_R false demo_final eq_refl eq_refl).
Qed.

Lemma demo_kept : rtc mon_step (demo_shown (GSig ch_R false)) (demo_shown (GIn true)).
Proof.
  eapply rtc_l; [apply step_get; eapply get_signal; reflexivity|]; cbn.
  eapply rtc_l; [apply step_get, get_call_full; reflexivity|]; cbn. apply rtc_refl.
Qed.

Lemma demo_taken : mon_step (demo_shown (GIn true)) demo_chrono.
Proof.
  exact (step_get _ _ (get_body true (CommandChrono.CST CommandChrono.running false) ch_C true
    (demo_shown (GIn true)) eq_refl eq_refl)).
Qed.

Lemma demo_chrono_reachable : mon_reachable demo_chrono.
Proof.
  eapply rtc_trans; [exact demo_final_reachable|].
  eapply rtc_l; [apply step_get, demo_shows|].
  eapply rtc_r; [exact demo_kept | exact demo_taken].
Qed.

(** C13: the tasks never get a command their status excludes.  In every
    interleaving of the [Put]s and [Get]s, when only the commands of each are put:
    stopped, the clock gets R, H, M, S or F; running, R (one more unit), T or F.
    Stopped at zero, the chronometer gets C or F; running, C (one more unit), I, E
    or F; stopped with a final time, R.  When the [CommandChrono_Get] that shows
    the final time finds that a command was put meanwhile, it returns R and the
    command, the last one accepted, stays untaken; whatever the two tasks do
    next, the first [CommandChrono_Get] that returns after it returns that
    command. *)
Theorem commands_respect_status (mc : @mon CommandClock.status) (mr : @mon CommandChrono.status) :
  mon_reachable mc -> Forall (fun c => c ∈ CommandClock.commands) (m_accepted mc) ->
  mon_reachable mr -> Forall (fun c => c ∈ CommandChrono.commands) (m_accepted mr) ->
  Forall clock_gets (m_returned mc) /\ Forall chrono_gets (m_returned mr) /\
  (forall m1, m_get mr = GIn true -> CommandChrono.Chronostatus (m_status mr) = CommandChrono.stoppedFinal ->
     get_step mr m1 ->
     m_returned m1
       = m_returned mr ++ [(CommandChrono.CST CommandChrono.stoppedFinal false, ch_R)] /\
     m_accepted m1 = m_taken m1 ++ [m_buffer mr] /\
     (forall m2 m3, rtc mon_step m1 m2 -> m_returned m2 = m_returned m1 -> mon_step m2 m3 ->
        m_returned m3 = m_returned m1 \/
        m_returned m3
          = m_returned m1 ++ [(CommandChrono.CST CommandChrono.stoppedInitial true, m_buffer mr)])).
Proof.
  intros Hc Hac Hr Har. pose proof (mon_reachable_inv mr Hr) as Hi. split_and!.
  - apply clock_returned; [now apply mon_reachable_inv | exact Hac].
  - now apply chrono_returned.
  - intros m1 Hg Hst Hs. destruct (final_keeps mr m1 Hi Hg Hst Hs) as (E1 & E2 & Hk).
    split_and!; [exact E1 | exact E2 |]. intros m2 m3 H12 E12 H23.
    destruct (kept_until _ _ m1 m2 (get_step_inv mr m1 Hi Hs) Hk H12) as [Hi2 [Hk2|Hl]];
      [|rewrite E12 in Hl; lia].
    destruct (kept_step _ _ m2 m3 Hi2 Hk2 H23) as [(_ & _ & E3 & _)|E3]; auto.
Qed.

Lemma commands_respect_status_witness :
  Forall clock_gets [(CommandClock.stopped, ch_R)] /\ Forall chrono_gets (m_returned demo_final) /\
  m_returned demo_chrono = m_returned demo_final ++
    [(CommandChrono.CST CommandChrono.stoppedFinal false, ch_R);
     (CommandChrono.CST CommandChrono.stoppedInitial true, ch_C)].
Proof.
  destruct (commands_respect_status demo_monitor_after demo_final) as (H1 & H2 & H3);
    [exact demo_monitor_after_reachable | repeat constructor | exact demo_final_reachable
    | repeat constructor; in_chars |].
  split_and!; [exact H1 | exact H2 |].
  destruct (H3 _ eq_refl eq_refl demo_shows) as (_ & _ & H4).
  destruct (H4 _ demo_chrono demo_kept eq_refl demo_taken) as [E|E]; [discriminate E | exact E].
Defined.

(** ** The tasks *)

(** The variables of the tasks when their loops start. *)
Definition clock_start : clock_vars := CKV MenageHmsh_Initialise None (replicate 12 0).
Definition chrono_start : chrono_vars := CRV None false None None false (replicate 12 0).

Lemma clock_start_ok : clock_ok clock_start.
Proof. split; [constructor; cbn; lia | cbn; eauto]. Qed.

(** The clock and chronometer tasks run on any commands their monitors can
    return: they never test [display], compare with [endIntermediateTimes] or
    advance [times] before these were assigned, never index [digits] out of
    range, and their times stay times of day. *)
Theorem tasks_never_undefined (mc : @mon CommandClock.status) (mr : @mon CommandChrono.status) :
  mon_reachable mc -> Forall (fun c => c ∈ CommandClock.commands) (m_accepted mc) ->
  mon_reachable mr -> Forall (fun c => c ∈ CommandChrono.commands) (m_accepted mr) ->
  (exists v shs, task_run ClockChrono_Clock (snd <$> m_returned mc) clock_start = Some (v, shs) /\
                 hour_wf (ck_hour v)) /\
  (exists v shs, task_run ClockChrono_Chrono (ch_R :: (snd <$> m_returned mr)) chrono_start
                 = Some (v, shs) /\ exists t, cr_times v = Some t /\ hour_wf t).
Proof.
  intros Hc Hca Hr Hra. split.
  - destruct (clock_run_ok (snd <$> m_returned mc) clock_start) as (v & shs & E & Hok & _);
      [|apply clock_start_ok | eauto].
    apply Forall_fmap. eapply Forall_impl; [exact (clock_returned mc (mon_reachable_inv mc Hc) Hca)|].
    intros [[] c]; unfold clock_gets; cbn; unfold CommandClock.commands;
      rewrite !elem_of_cons, !elem_of_nil; tauto.
  - assert (Hcmds : Forall (fun c => c ∈ ch_R :: CommandChrono.commands) (snd <$> m_returned mr)).
    { apply Forall_fmap. eapply Forall_impl; [exact (chrono_returned mr (mon_reachable_inv mr Hr) Hra)|].
      intros [[[] b] c]; unfold chrono_gets; cbn; unfold CommandChrono.commands;
        rewrite !elem_of_cons, !elem_of_nil; tauto. }
    cbn [task_run].
    destruct (chrono_turn_ok ch_R chrono_start) as (v1 & sh & -> & Hok); cbn; eauto; [constructor|].
    destruct (chrono_run_ok (snd <$> m_returned mr) v1 Hcmds Hok) as (v2 & shs & -> & [Ht _ _]).
    eauto.
Qed.

Lemma tasks_never_undefined_witness :
  exists v shs, task_run ClockChrono_Chrono [ch_R; ch_C; ch_E; ch_R; ch_C] chrono_start = Some (v, shs) /\
    exists t, cr_times v = Some t /\ hour_wf t.
Proof.
  apply (tasks_never_undefined demo_monitor_after demo_chrono);
    [apply demo_monitor_after_reachable | repeat constructor
    | apply demo_chrono_reachable | repeat constructor; in_chars].
Defined.

(** C15: the clock keeps time.  [n] turns of the running clock advance the hour
    by [n] hundredths of a second, around midnight too, and put it on the
    display exactly at the turns that complete a second. *)
Theorem clock_keeps_time (n : nat) v :
  clock_ok v ->
  exists v' shs, task_run ClockChrono_Clock (replicate n ch_R) v = Some (v', shs) /\
    units (ck_hour v') = (units (ck_hour v) + Z.of_nat n) mod DAY /\ length shs = n /\
    (forall k sh, shs !! k = Some sh ->
       (is_Some sh <-> (units (ck_hour v) + Z.of_nat k + 1) mod 100 = 0)).
Proof. intros Hv. destruct (clock_ticks n v Hv) as (v' & shs & E & _ & H). eauto. Qed.

Lemma clock_keeps_time_witness :
  exists v' shs, task_run ClockChrono_Clock (replicate 100 ch_R)
      (CKV (HMSH 23 59 59 50) None (replicate 12 0)) = Some (v', shs) /\ units (ck_hour v') = 50.
Proof.
  destruct (clock_keeps_time 100 (CKV (HMSH 23 59 59 50) None (replicate 12 0))) as (v' & shs & E & Hu & _).
  - split; [constructor; cbn; lia | cbn; eauto].
  - exists v', shs. split; [exact E | rewrite Hu; reflexivity].
Defined.

(** The intermediate time.  Command I shows the time with its hundredths
    and freezes the display for three seconds: the next 299 units show nothing,
    the 300th shows the time then reached and unfreezes it. *)
Theorem chrono_intermediate_time v t :
  chrono_ok v -> cr_times v = Some t ->
  exists v' c1 c2,
    task_run ClockChrono_Chrono (ch_I :: replicate 300 ch_C) v
      = Some (v', Some c1 :: replicate 299 None ++ [Some c2]) /\
    parse_chain c1 = Some t /\
    parse_chain c2 = Some (MenageHmsh_InitialiseHundredthes (MenageHmsh_PlusNSeconds 3 t)) /\
    cr_times v' = Some (MenageHmsh_PlusNSeconds 3 t) /\ cr_inter v' = false /\
    units (MenageHmsh_PlusNSeconds 3 t) = (units t + 300) mod DAY.
Proof.
  intros [(t0 & Et0 & Hw) _ Hch] Et. assert (t0 = t) as -> by congruence.
  destruct (PlusNSeconds_units 3 t ltac:(lia) Hw) as [Hw3 Hu3].
  set (e := MenageHmsh_PlusNSeconds 3 t) in *. cbn [task_run].
  assert (EI : ClockChrono_Chrono ch_I v = chrono_show (CRV (Some t) true (Some e) (Some true) true (cr_chain v))).
  { unfold ClockChrono_Chrono. cbn [Z.eqb ch_R ch_C ch_I Pos.eqb]. now rewrite Et. }
  destruct (chrono_show_ok t true (Some e) true true (cr_chain v)) as (c' & sh & E & Hok & Hsh); eauto.
  rewrite EI, E. destruct sh as [c1|]; [|discriminate Hsh]. destruct Hsh as [_ Hp1].
  destruct (chrono_frozen 299 (CRV (Some t) true (Some e) (Some true) true c') t e)
    as (v' & c2 & E2 & Hp2 & Hi & Ht); try reflexivity; try assumption.
  - exact (co_chain _ Hok).
  - change (replicate (S 299) ch_C) with (replicate 300 ch_C) in E2. rewrite E2.
    exists v', c1, c2. split_and!; try assumption; reflexivity.
Qed.

Lemma chrono_intermediate_time_witness :
  exists v' c1 c2, task_run ClockChrono_Chrono (ch_I :: replicate 300 ch_C)
      (CRV (Some (HMSH 0 1 2 3)) false None None false (replicate 12 0))
      = Some (v', Some c1 :: replicate 299 None ++ [Some c2]) /\
    parse_chain c1 = Some (HMSH 0 1 2 3) /\ cr_times v' = Some (HMSH 0 1 5 3).
Proof.
  destruct (chrono_intermediate_time (CRV (Some (HMSH 0 1 2 3)) false None None false (replicate 12 0))
    (HMSH 0 1 2 3)) as (v' & c1 & c2 & E & Hp & _ & Ht & _).
  - constructor; cbn; eauto; [eexists; split; [reflexivity | constructor; cbn; lia] | discriminate].
  - reflexivity.
  - exists v', c1, c2. split_and!; [exact E | exact Hp | exact Ht].
Defined.

(** What the clock shows can be read back: [MenageHmsh_Convert] writes
    twelve characters that parse to the time of day it was given (without its
    hundredths unless asked for), keeps the first one, and never writes the
    mark 101 that ends [ClockChrono_Write] where the hour starts. *)
Theorem Convert_roundtrip h hd c0 rest hide pause :
  hour_wf h ->
  exists chain, MenageHmsh_Convert h hd (c0 :: rest) = Some chain /\
    length chain = 12%nat /\ chain !! 0%nat = Some c0 /\
    parse_chain chain = Some (if hd then h else MenageHmsh_InitialiseHundredthes h) /\
    ClockChrono_Write chain hide pause = Some (if (hide =? 0) && negb pause then [chain] else []).
Proof.
  intros Hw. destruct (Convert_parse h hd c0 rest Hw) as (ch & E & Hl & H0 & (x & Hx & Hr) & Hp).
  exists ch. split_and!; try assumption. unfold ClockChrono_Write. rewrite Hx.
  rewrite (proj2 (Z.eqb_neq x 101)) by lia. destruct (_ && _); [|reflexivity].
  now rewrite take_ge by lia.
Qed.

Lemma Convert_roundtrip_witness :
  exists chain, MenageHmsh_Convert (HMSH 12 34 56 78) true [104; 0] = Some chain /\
    parse_chain chain = Some (HMSH 12 34 56 78).
Proof.
  destruct (Convert_roundtrip (HMSH 12 34 56 78) true 104 [0] 0 false) as (ch & E & _ & _ & Hp & _);
    [constructor; cbn; lia | eauto].
Defined.

(** ** Display and screen *)

(** C18: in every interleaving of the clock, the chronometer and the writing
    task, the three critical sections of the display exclude each other: at most
    one of the three tasks is in its own.  A [Display_Get] that got its semaphores
    finds a full buffer, so its results are always assigned; it returns the last
    chain put for that destination, and shows the hour only when no chronometer
    time waits. *)
Theorem display_get_latest m :
  rtc dstep init_dispclk m ->
  w_holds (d_clock m) + w_holds (d_chrono m) + r_holds (d_reader m) <= 1 /\
  (forall v r, d_reader m = RIn -> Display_Get (d_vars m) = (v, r) ->
     match r with
     | Some (destClock, c) => c = d_last_hour m /\ TimesBufferstatus (d_vars m) = empty
     | Some (destChrono, c) => c = d_last_times m
     | None => False
     end).
Proof.
  intros Hr. pose proof (display_reachable_inv m Hr) as Hi. split.
  - pose proof (di_excl m Hi). pose proof (di_mutex m Hi). lia.
  - intros v r. exact (reader_finds m v r Hi).
Qed.

Lemma display_get_latest_witness :
  exists m, rtc dstep init_dispclk m /\ d_reader m = RIn /\
    snd (Display_Get (d_vars m)) = Some (destClock, d_last_hour m).
Proof.
  set (m := DMON (DSP full empty [104; 49] []) 0 0 WIdle WIdle RIn [104; 49] []).
  assert (Hr : rtc dstep init_dispclk m).
  { unfold init_dispclk, m.
    eapply rtc_l; [apply (clock_call [0; 49]); reflexivity|]; cbn.
    eapply rtc_l; [eapply clock_enter; [reflexivity | cbn; lia]|]; cbn.
    eapply rtc_l; [eapply clock_body; reflexivity|]; cbn.
    eapply rtc_l; [eapply clock_signal; reflexivity|]; cbn.
    eapply rtc_l; [eapply clock_leave; reflexivity|]; cbn.
    eapply rtc_l; [eapply reader_call; reflexivity|]; cbn.
    eapply rtc_l; [eapply reader_token; [reflexivity | cbn; lia]|]; cbn.
    eapply rtc_l; [eapply reader_enter; [reflexivity | cbn; lia]|]; cbn. apply rtc_refl. }
  destruct (proj2 (display_get_latest m Hr) _ _ eq_refl eq_refl) as [Hc _].
  exists m. split_and!; [exact Hr | reflexivity | exact (f_equal (fun c => Some (destClock, c)) Hc)].
Defined.

(** The screen's line.  A chain of twelve characters is copied inside the
    40 characters of [displine], the hour at 8 and the chronometer at 27; the
    rest, the terminating NUL at 38 included, is left as it was. *)
Theorem screen_line_bounds chain line c0 :
  length chain = 12%nat -> length line = 40%nat -> line !! 38%nat = Some 0 ->
  chain !! 0%nat = Some c0 ->
  exists line', screen_turn chain line = Some line' /\ length line' = 40%nat /\
    line' !! 38%nat = Some 0 /\
    (c0 = 116 -> forall j, (j < 11)%nat -> line' !! (j + 27)%nat = chain !! (j + 1)%nat) /\
    (c0 = 104 -> forall j, (j < 8)%nat -> line' !! (j + 8)%nat = chain !! (j + 1)%nat).
Proof.
  intros Hc Hl Hn H0. unfold screen_turn. rewrite H0. cbn [mbind option_bind].
  destruct (Z.eqb_spec c0 116) as [->|Ht].
  - destruct (copy_chars_ok 11 0 27 chain line) as (l' & E & Hlen & Ho & Hin); [lia | lia|].
    exists l'. split_and!; [exact E | congruence | rewrite Ho by lia; exact Hn | | discriminate].
    intros _ j Hj. apply Hin. lia.
  - destruct (Z.eqb_spec c0 104) as [->|Hh].
    + destruct (copy_chars_ok 8 0 8 chain line) as (l' & E & Hlen & Ho & Hin); [lia | lia|].
      exists l'. split_and!; [exact E | congruence | rewrite Ho by lia; exact Hn | discriminate|].
      intros _ j Hj. apply Hin. lia.
    + exists line. split_and!; try (assumption || reflexivity); intros; congruence.
Qed.

Lemma screen_line_bounds_witness :
  exists line', screen_turn [104; 49; 50; 58; 51; 52; 58; 53; 54; 32; 32; 32] displine = Some line' /\
    line' !! 38%nat = Some 0.
Proof.
  destruct (screen_line_bounds [104; 49; 50; 58; 51; 52; 58; 53; 54; 32; 32; 32] displine 104)
    as (l' & E & _ & Hn & _); try reflexivity. eauto.
Defined.
