(* ===== verification/Wrist.v ===== *)
(** * The whole wrist clock (user/sem_clock: clock.c, keybrd.c)

    The four tasks of clock.c with the two command monitors, the display monitor
    and the semaphore that starts them, as one transition system: a step is a
    semaphore operation or an access to shared variables of one task, in any
    order.  The keys are those the keyboard program and the screen program put in
    the mailbox. *)

From stdpp Require Import base tactics numbers list relations.
From S2P Require Import Prelude Hmsh CmdMonitor ClockMonitors ClockDisplay ClockTasks.

(** ** keybrd.c *)

(** What [main] of keybrd.c sends after the first k, for the keys that are typed:
    until f they are sent as they are, then r, c and f are. *)
Fixpoint keyboard (typed : list Z) : list Z :=
  match typed with
  | [] => []
  | ch :: typed => if ch =? 102 then [114; 99; 102] else ch :: keyboard typed
  end.

(** ** The tasks *)

(** Where the clock and the chronometer are: at [rt_sem_wait(sync_sem)]; in [Get];
    in [Display_PutHour] or [Display_PutTimes], for the last time or not; ended;
    after the use of a variable that was not assigned. *)
Inductive task_pc := T_sync | T_get | T_show (ends : bool) | T_done | T_undef.

Record wrist := WR {
  keys : list Z; rdv : read_vars; acts : list read_act; reading : bool;
  sync_sem : Z;
  mc : @mon CommandClock.status; ck : task_pc; ckv : clock_vars;
  mr : @mon CommandChrono.status; cr : task_pc; crv : chrono_vars;
  dm : dmon; writing : bool
}.

(** Where a turn of the loop leaves a task, its variables, and what it puts on the
    display. *)
Definition after_turn {S} (t : turn S) (v : S) : task_pc * S * option MenageHmsh_tChain11 :=
  match t with
  | Next v' None => (T_get, v', None)
  | Next v' (Some c) => (T_show false, v', Some c)
  | Ended None => (T_done, v, None)
  | Ended (Some c) => (T_show true, v, Some c)
  | Undefined => (T_undef, v, None)
  end.

(** The calls of the display monitor. *)
Definition clock_calls (o : option MenageHmsh_tChain11) (d : dmon) : dmon :=
  match o with
  | Some c => DMON (d_vars d) (d_notEmpty d) (d_mutex d) (WWait c) (d_chrono d) (d_reader d)
                   (d_last_hour d) (d_last_times d)
  | None => d
  end.

Definition chrono_calls (o : option MenageHmsh_tChain11) (d : dmon) : dmon :=
  match o with
  | Some c => DMON (d_vars d) (d_notEmpty d) (d_mutex d) (d_clock d) (WWait c) (d_reader d)
                   (d_last_hour d) (d_last_times d)
  | None => d
  end.

(** The call of [Put], and the end of [Get]. *)
Definition put_called {St} (c : Z) (m : @mon St) : mon :=
  MON (m_status m) (m_buffer m) (notEmpty m) (notFull m) (PWait c) (m_get m)
      (m_accepted m) (m_taken m) (m_returned m).

Definition get_returned {St} (sig : bool) (m : @mon St) : mon :=
  MON (m_status m) (m_buffer m) (notEmpty m) (if sig then notFull m + 1 else notFull m) (m_put m) GIdle
      (m_accepted m) (m_taken m) (m_returned m).

(** A [Get] that found nothing, or whose time ran out. *)
Definition found_nothing {St} (m : @mon St) : bool :=
  match m_get m with GIn false => true | _ => false end.

Definition is_idle (pc : writer_pc) : bool := match pc with WIdle => true | _ => false end.

(** After a step of a task in the display monitor. *)
Definition shown (ends : bool) (pc : writer_pc) : task_pc :=
  if is_idle pc then (if ends then T_done else T_get) else T_show ends.

Definition set_read ks v a g (w : wrist) : wrist :=
  WR ks v a g (sync_sem w) (mc w) (ck w) (ckv w) (mr w) (cr w) (crv w) (dm w) (writing w).
Definition set_acts a s (w : wrist) : wrist :=
  WR (keys w) (rdv w) a (reading w) s (mc w) (ck w) (ckv w) (mr w) (cr w) (crv w) (dm w) (writing w).
Definition set_mc m (w : wrist) : wrist :=
  WR (keys w) (rdv w) (acts w) (reading w) (sync_sem w) m (ck w) (ckv w) (mr w) (cr w) (crv w) (dm w) (writing w).
Definition set_mr m (w : wrist) : wrist :=
  WR (keys w) (rdv w) (acts w) (reading w) (sync_sem w) (mc w) (ck w) (ckv w) m (cr w) (crv w) (dm w) (writing w).
Definition set_ck s m pc v d (w : wrist) : wrist :=
  WR (keys w) (rdv w) (acts w) (reading w) s m pc v (mr w) (cr w) (crv w) d (writing w).
Definition set_cr s m pc v d (w : wrist) : wrist :=
  WR (keys w) (rdv w) (acts w) (reading w) s (mc w) (ck w) (ckv w) m pc v d (writing w).
Definition set_dm d b (w : wrist) : wrist :=
  WR (keys w) (rdv w) (acts w) (reading w) (sync_sem w) (mc w) (ck w) (ckv w) (mr w) (cr w) (crv w) d b.

(** The reading task is in no [Put]. *)
Definition put_idle (w : wrist) : Prop := m_put (mc w) = PIdle /\ m_put (mr w) = PIdle.

(** ** Steps *)

(** One step of [ClockChrono_Read]. *)
Inductive read_step (w : wrist) : wrist -> Prop :=
| rd_key k ks v a g :
    reading w = true -> acts w = [] -> put_idle w -> keys w = k :: ks ->
    ClockChrono_Read k (rdv w) = (v, a, g) -> read_step w (set_read ks v a g w)
| rd_signal a : put_idle w -> acts w = SignalSync :: a -> read_step w (set_acts a (sync_sem w + 1) w)
| rd_sleep a : put_idle w -> acts w = SleepPaused :: a -> read_step w (set_acts a (sync_sem w) w)
| rd_call_clock c a : put_idle w -> acts w = PutClock c :: a ->
    read_step w (set_acts a (sync_sem w) (set_mc (put_called c (mc w)) w))
| rd_call_chrono c a : put_idle w -> acts w = PutChrono c :: a ->
    read_step w (set_acts a (sync_sem w) (set_mr (put_called c (mr w)) w))
| rd_put_clock m : m_put (mc w) <> PIdle -> put_step (mc w) m -> read_step w (set_mc m w)
| rd_put_chrono m : m_put (mr w) <> PIdle -> put_step (mr w) m -> read_step w (set_mr m w).

(** One step of [ClockChrono_Clock]; [true] when its [Get] found nothing. *)
Inductive clock_step (w : wrist) : bool -> wrist -> Prop :=
| ck_sync : ck w = T_sync -> 0 < sync_sem w ->
    clock_step w false (set_ck (sync_sem w - 1) (mc w) T_get (ckv w) (dm w) w)
| ck_get m : ck w = T_get -> (forall c sig, m_get (mc w) <> GSig c sig) -> get_step (mc w) m ->
    clock_step w (found_nothing m) (set_ck (sync_sem w) m T_get (ckv w) (dm w) w)
| ck_return c sig pc v o : ck w = T_get -> m_get (mc w) = GSig c sig ->
    after_turn (ClockChrono_Clock c (ckv w)) (ckv w) = (pc, v, o) ->
    clock_step w false (set_ck (sync_sem w) (get_returned sig (mc w)) pc v (clock_calls o (dm w)) w)
| ck_show ends d : ck w = T_show ends -> d_clock (dm w) <> WIdle -> dstep (dm w) d ->
    d_clock d <> d_clock (dm w) ->
    clock_step w false (set_ck (sync_sem w) (mc w) (shown ends (d_clock d)) (ckv w) d w).

(** One step of [ClockChrono_Chrono], which starts with a turn for R. *)
Inductive chrono_step (w : wrist) : bool -> wrist -> Prop :=
| cr_sync pc v o : cr w = T_sync -> 0 < sync_sem w ->
    after_turn (ClockChrono_Chrono ch_R (crv w)) (crv w) = (pc, v, o) ->
    chrono_step w false (set_cr (sync_sem w - 1) (mr w) pc v (chrono_calls o (dm w)) w)
| cr_get m : cr w = T_get -> (forall c sig, m_get (mr w) <> GSig c sig) -> get_step (mr w) m ->
    chrono_step w (found_nothing m) (set_cr (sync_sem w) m T_get (crv w) (dm w) w)
| cr_return c sig pc v o : cr w = T_get -> m_get (mr w) = GSig c sig ->
    after_turn (ClockChrono_Chrono c (crv w)) (crv w) = (pc, v, o) ->
    chrono_step w false (set_cr (sync_sem w) (get_returned sig (mr w)) pc v (chrono_calls o (dm w)) w)
| cr_show ends d : cr w = T_show ends -> d_chrono (dm w) <> WIdle -> dstep (dm w) d ->
    d_chrono d <> d_chrono (dm w) ->
    chrono_step w false (set_cr (sync_sem w) (mr w) (shown ends (d_chrono d)) (crv w) d w).

(** Whether [ClockChrono_Write] goes on after what [Display_Get] returned. *)
Definition goes_on (v : read_vars) (d : dmon) : bool :=
  match d_reader d with
  | ROut (Some (_, chain)) =>
      match ClockChrono_Write chain (rd_hide v) (rd_pause v) with Some _ => true | None => false end
  | _ => true
  end.

(** One step of [ClockChrono_Write]. *)
Inductive write_step (w : wrist) : wrist -> Prop :=
| wr_get d : writing w = true -> dstep (dm w) d -> d_reader d <> d_reader (dm w) ->
    write_step w (set_dm d (goes_on (rdv w) (dm w)) w).

(** A step of the program; [true] when a [Get] found nothing. *)
Inductive wstep (w : wrist) : bool -> wrist -> Prop :=
| w_read w' : read_step w w' -> wstep w false w'
| w_clock b w' : clock_step w b w' -> wstep w b w'
| w_chrono b w' : chrono_step w b w' -> wstep w b w'
| w_write w' : write_step w w' -> wstep w false w'.

Definition any_step (w w' : wrist) : Prop := exists b, wstep w b w'.

(** [main] before the tasks run. *)
Definition wrist_start (ks : list Z) : wrist :=
  WR ks (RDV 0 0 false) [] true 0
     start T_sync (CKV MenageHmsh_Initialise None (replicate 12 0))
     start T_sync (CRV None false None None false (replicate 12 0))
     init_dispclk true.

(** All tasks have ended: [main] goes on to delete the semaphores. *)
Definition all_ended (w : wrist) : Prop :=
  reading w = false /\ acts w = [] /\ put_idle w /\ ck w = T_done /\ cr w = T_done /\ writing w = false.
