(* ===== verification/WristFacts.v ===== *)
(** * The wrist clock: the work that is left

    Every step of the program that is not a [Get] which found nothing uses up some
    of the work left, which is a number: [work]. *)

From stdpp Require Import base tactics numbers list relations.
From S2P Require Import Prelude Hmsh CmdMonitor ClockMonitors ClockDisplay ClockTasks Wrist.

(** ** The display monitor *)

Definition writer_work (pc : writer_pc) : Z :=
  match pc with WIdle => 0 | WOut => 1 | WSig => 7 | WIn _ => 8 | WWait _ => 9 end.

Definition reader_work (pc : reader_pc) : Z :=
  match pc with RWaitE => 0 | RIdle => 1 | ROut _ => 2 | RIn => 3 | RWaitM => 4 end.

Definition display_work (d : dmon) : Z :=
  writer_work (d_clock d) + writer_work (d_chrono d) + reader_work (d_reader d) + 5 * d_notEmpty d.

(** A step that is not a new call of a writer. *)
Lemma dstep_work d d' :
  dstep d d' -> (d_clock d = WIdle -> d_clock d' = WIdle) -> (d_chrono d = WIdle -> d_chrono d' = WIdle) ->
  display_work d' < display_work d.
Proof.
  unfold display_work. intros Hs Hc Hr.
  destruct Hs as [c m E|c m E P|c v sig m E D|m E|m E|c m E|c m E P|c v sig m E D|m E|m E
                 |m E|m E P|m E P|v r m E D|r m E]; cbn in *; rewrite ?E in *; cbn in *;
    try lia; try (specialize (Hc eq_refl); discriminate); try (specialize (Hr eq_refl); discriminate).
  all: destruct sig; cbn; lia.
Qed.

Lemma display_work_pos d : dinv d -> 0 <= display_work d.
Proof.
  intros Hi. pose proof (di_notEmpty d Hi). unfold display_work.
  assert (forall pc, 0 <= writer_work pc) as Hw by (intros []; cbn; lia).
  assert (0 <= reader_work (d_reader d)) by (destruct (d_reader d); cbn; lia).
  pose proof (Hw (d_clock d)). pose proof (Hw (d_chrono d)). lia.
Qed.

(** A step changes the place of one task. *)
Lemma dstep_clock_only d d' :
  dstep d d' -> d_clock d' <> d_clock d -> d_chrono d' = d_chrono d /\ d_reader d' = d_reader d.
Proof. intros [] Hc; cbn in *; try (split; reflexivity); contradiction. Qed.

Lemma dstep_chrono_only d d' :
  dstep d d' -> d_chrono d' <> d_chrono d -> d_clock d' = d_clock d /\ d_reader d' = d_reader d.
Proof. intros [] Hc; cbn in *; try (split; reflexivity); contradiction. Qed.

Lemma dstep_reader_only d d' :
  dstep d d' -> d_reader d' <> d_reader d -> d_clock d' = d_clock d /\ d_chrono d' = d_chrono d.
Proof. intros [] Hc; cbn in *; try (split; reflexivity); contradiction. Qed.

(** ** The command monitors *)

(** What the two files have besides the laws of the protocol. *)
Class MonitorMore (St : Type) `{MonitorLaws St} := {
  more_nowait : forall st b, get_wait st = NoWait -> retains (fst (fst (get_done st true b))) = false;
  more_made : forall st got b st' c, get_done st got b = (st', c, false) -> c <> ch_F;
  more_F : forall st, put_test st ch_F = true
}.

#[export] Instance clock_more : MonitorMore CommandClock.status.
Proof.
  split; cbn.
  - intros [] b E; discriminate E.
  - intros [] [] b st' c E; cbn in E; try discriminate E. injection E as <- <-. discriminate.
  - intros st. unfold CommandClock.Put_test. now rewrite orb_true_r.
Qed.

#[export] Instance chrono_more : MonitorMore CommandChrono.status.
Proof.
  split; cbn.
  - intros [[] []] b E; cbn in *; try discriminate E; reflexivity.
  - intros [[] bf] [] b st' c E; cbn in E; try discriminate E; injection E as <- <-; discriminate.
  - intros st. unfold CommandChrono.Put_test. now rewrite orb_true_r.
Qed.

Section Monitor.
Context {St : Type} `{More : MonitorMore St}.

Definition put_work (pc : put_pc) : Z :=
  match pc with PIdle => 0 | PSig true => 27 | PSig false => 1 | PIn _ => 28 | PWait _ => 29 end.

Definition get_work (st : St) (pc : get_pc) : Z :=
  match pc with
  | GIdle => 1 + (if retains st then 13 else 0)
  | GWait | GTimed => 0
  | GIn true => if retains st then 12 else 25
  | GIn false => 12
  | GSig _ _ => 11 + (if retains st then 13 else 0)
  end.

Definition mon_work (m : @mon St) : Z :=
  put_work (m_put m) + get_work (m_status m) (m_get m) + 26 * notEmpty m.

Lemma put_step_work m m' : put_step m m' -> m_put m <> PIdle -> mon_work m' < mon_work m.
Proof.
  unfold mon_work. intros [c m1 E|c m1 E P|c m1 E P|c m1 E P|[] m1 E] Hp; cbn; rewrite ?E in *; cbn; try lia; contradiction.
Qed.

Lemma get_step_work m m' :
  mon_inv m -> get_step m m' -> (forall c sig, m_get m <> GSig c sig) -> found_nothing m' = false ->
  mon_work m' < mon_work m.
Proof using More.
  unfold mon_work, found_nothing. intros Hi Hs Hsig Hn. pose proof (mi_pc m Hi) as Hpc. pose proof (mi_ok m Hi) as Hk.
  destruct Hs as [m E W|m E W|m E W|m E W Hpos|m E W Hno|m E Hpos|m E|got st' c sig m E D|c sig m E];
    cbn in *; try discriminate Hn.
  - rewrite E. cbn. rewrite (retains_not (m_status m)) by congruence. lia.
  - rewrite E. cbn. rewrite (retains_not (m_status m)) by congruence. lia.
  - rewrite E. cbn. rewrite (proj2 (retains_NoWait _) W). lia.
  - rewrite E. cbn. rewrite (retains_not (m_status m)) by congruence. lia.
  - rewrite (retains_not (m_status m)) by (destruct E as [E|E]; rewrite E in Hpc; cbn in Hpc; congruence).
    destruct E as [-> | ->]; cbn; lia.
  - rewrite E in *. destruct got; cbn in *.
    + destruct (retains (m_status m)) eqn:Er.
      * apply retains_NoWait in Er. pose proof (more_nowait (m_status m) (m_buffer m) Er) as Hr.
        rewrite D in Hr. cbn in Hr. rewrite Hr. lia.
      * destruct (retains st'); lia.
    + destruct (law_idle (m_status m) (m_buffer m) Hk Hpc) as [_ Hr]. rewrite D in Hr. cbn in Hr. rewrite Hr. lia.
  - exfalso. exact (Hsig c sig E).
Qed.

Lemma mon_work_pos m : mon_inv m -> 0 <= mon_work m.
Proof.
  intros Hi. pose proof (mi_empty m Hi). unfold mon_work.
  assert (0 <= put_work (m_put m)) by (destruct (m_put m) as [| | |[]]; cbn; lia).
  assert (0 <= get_work (m_status m) (m_get m))
    by (destruct (m_get m) as [| | |[]|]; cbn; destruct (retains (m_status m)); lia).
  lia.
Qed.

Lemma get_returned_work c sig m :
  m_get m = GSig c sig -> mon_work (get_returned sig m) = mon_work m - 10.
Proof. intros E. unfold mon_work. cbn. rewrite E. cbn. lia. Qed.

Lemma put_called_work c m : m_put m = PIdle -> mon_work (put_called c m) = mon_work m + 29.
Proof. intros E. unfold mon_work. cbn. rewrite E. cbn. lia. Qed.
End Monitor.

(** ** The program *)

Definition task_work (pc : task_pc) : Z := match pc with T_sync => 12 | _ => 0 end.

Definition work (w : wrist) : Z :=
  61 * Z.of_nat (length (keys w)) + 30 * Z.of_nat (length (acts w)) +
  mon_work (mc w) + mon_work (mr w) + task_work (ck w) + task_work (cr w) + display_work (dm w).

Lemma read_acts k v v' a g : ClockChrono_Read k v = (v', a, g) -> (length a <= 2)%nat.
Proof.
  unfold ClockChrono_Read. intros E.
  repeat match type of E with (if ?b then _ else _) = _ => destruct b end;
    try (injection E as <- <- <-; cbn; lia).
  injection E as <- <- <-. destruct (_ =? _); cbn; lia.
Qed.

Ltac by_work := unfold work, set_read, set_acts, set_mc, set_mr, set_ck, set_cr, set_dm; cbn -[Z.mul Z.of_nat].

Lemma read_step_work w w' : read_step w w' -> work w' < work w.
Proof.
  intros [k ks v a g _ Ea _ Ek E|a Hp Ea|a Hp Ea|c a Hp Ea|c a Hp Ea|m Hp Hs|m Hp Hs]; by_work.
  - apply read_acts in E. rewrite Ea, Ek. cbn [length]. lia.
  - rewrite Ea. cbn [length]. lia.
  - rewrite Ea. cbn [length]. lia.
  - rewrite Ea, put_called_work by apply Hp. cbn [length]. lia.
  - rewrite Ea, put_called_work by apply Hp. cbn [length]. lia.
  - pose proof (put_step_work _ _ Hs Hp). lia.
  - pose proof (put_step_work _ _ Hs Hp). lia.
Qed.

(** What a turn puts on the display is paid for by the command. *)
Lemma clock_calls_work o d : d_clock d = WIdle -> display_work (clock_calls o d) <= display_work d + 9.
Proof. intros E. unfold display_work. destruct o; cbn; rewrite ?E; cbn; lia. Qed.

Lemma chrono_calls_work o d : d_chrono d = WIdle -> display_work (chrono_calls o d) <= display_work d + 9.
Proof. intros E. unfold display_work. destruct o; cbn; rewrite ?E; cbn; lia. Qed.

Lemma task_work_le pc : 0 <= task_work pc.
Proof. destruct pc; cbn; lia. Qed.

Lemma after_turn_work {S} (t : turn S) v pc v' o : after_turn t v = (pc, v', o) -> task_work pc = 0.
Proof. destruct t as [? []|[]|]; cbn; intros E; injection E as <- <- <-; reflexivity. Qed.

Lemma shown_work ends pc : task_work (shown ends pc) = 0.
Proof. unfold shown. now destruct (is_idle pc), ends. Qed.

Lemma clock_step_work w w' :
  mon_inv (mc w) -> (ck w = T_get -> d_clock (dm w) = WIdle) -> clock_step w false w' -> work w' < work w.
Proof.
  intros Hi Hd Hs. remember false as b eqn:Hb.
  destruct Hs as [E P|m E Hg Hs|c sig pc v o E Eg Et|ends d E Hn Hs Hc]; by_work; rewrite ?E; cbn [task_work].
  - lia.
  - pose proof (get_step_work _ _ Hi Hs Hg Hb). lia.
  - rewrite (get_returned_work c), (after_turn_work _ _ _ _ _ Et) by assumption.
    pose proof (clock_calls_work o (dm w) (Hd E)). lia.
  - rewrite shown_work. destruct (dstep_clock_only _ _ Hs Hc) as [Er _].
    assert (display_work d < display_work (dm w)) by (apply dstep_work; [assumption | congruence | congruence]). lia.
Qed.

Lemma chrono_step_work w w' :
  mon_inv (mr w) -> (cr w = T_get \/ cr w = T_sync -> d_chrono (dm w) = WIdle) -> chrono_step w false w' ->
  work w' < work w.
Proof.
  intros Hi Hd Hs. remember false as b eqn:Hb.
  destruct Hs as [pc v o E P Et|m E Hg Hs|c sig pc v o E Eg Et|ends d E Hn Hs Hc]; by_work;
    rewrite ?E; cbn [task_work].
  - rewrite (after_turn_work _ _ _ _ _ Et). pose proof (chrono_calls_work o (dm w) (Hd (or_intror E))). lia.
  - pose proof (get_step_work _ _ Hi Hs Hg Hb). lia.
  - rewrite (get_returned_work c), (after_turn_work _ _ _ _ _ Et) by assumption.
    pose proof (chrono_calls_work o (dm w) (Hd (or_introl E))). lia.
  - rewrite shown_work. destruct (dstep_chrono_only _ _ Hs Hc) as [Er _].
    assert (display_work d < display_work (dm w)) by (apply dstep_work; [assumption | congruence | congruence]). lia.
Qed.

Lemma write_step_work w w' : write_step w w' -> work w' < work w.
Proof.
  intros [d _ Hs Hc]. by_work. destruct (dstep_reader_only _ _ Hs Hc) as [E1 E2].
  assert (display_work d < display_work (dm w)) by (apply dstep_work; [assumption | congruence | congruence]). lia.
Qed.
