(* ===== verification/WristInv.v ===== *)
(** * The wrist clock: what holds in every state

    The invariant of the whole program: the monitors, the commands on their way to
    a task and the one that ends it, the places of the tasks, the mark that ends
    the writing task, the semaphore that starts the others. *)

From stdpp Require Import base tactics numbers list relations.
From S2P Require Import Prelude Hmsh CmdMonitor ClockMonitors ClockDisplay ClockTasks Wrist WristFacts.

(** ** A monitor and its tasks *)

(** The commands the reading task is about to put. *)
Definition put_future (pc : put_pc) : list Z := match pc with PWait c | PIn c => [c] | _ => [] end.

Fixpoint clock_acts (a : list read_act) : list Z :=
  match a with [] => [] | PutClock c :: a => c :: clock_acts a | _ :: a => clock_acts a end.
Fixpoint chrono_acts (a : list read_act) : list Z :=
  match a with [] => [] | PutChrono c :: a => c :: chrono_acts a | _ :: a => chrono_acts a end.

(** [fut] are the commands to come: after the end of the reading task F is the last
    of them, or was accepted and is the last one ever.  F was taken exactly when the
    getting task returns it or is at its end. *)
Record task_inv {St} `{MonitorMore St} (cmds : list Z) (m : @mon St) (pc : task_pc) (fut : list Z) (going : bool)
    : Prop := {
  ti_mon : mon_inv m;
  ti_cmds : Forall (fun c => c ∈ cmds) (m_accepted m ++ fut);
  ti_fut : if going then ch_F ∉ m_accepted m ++ fut
           else (fut = [] /\ (ch_F ∈ m_accepted m)) \/ (fut = [ch_F] /\ ch_F ∉ m_accepted m);
  ti_pc : pc = T_get \/ m_get m = GIdle;
  ti_fin : (ch_F ∈ m_taken m) <-> pc = T_show true \/ pc = T_done \/ exists sig, m_get m = GSig ch_F sig;
  ti_sig : forall c sig, m_get m = GSig c sig -> exists st, (st, c) ∈ m_returned m;
  ti_undef : pc <> T_undef
}.

Section Task.
Context {St : Type} `{More : MonitorMore St} (cmds : list Z).

Lemma task_inv_start pc : (pc = T_sync) -> task_inv cmds start pc [] true.
Proof.
  intros ->. constructor; try discriminate; cbn; auto.
  - apply mon_inv_start.
  - apply not_elem_of_nil.
  - split; [intros Hin; now apply elem_of_nil in Hin|]. intros [|[|[? ]]]; discriminate.
Qed.

(** A step of [Put]. *)
Lemma task_put m m' pc l going :
  task_inv cmds m pc (put_future (m_put m) ++ l) going -> m_put m <> PIdle -> put_step m m' ->
  task_inv cmds m' pc (put_future (m_put m') ++ l) going.
Proof using Type.
  intros [Hm Hc Hf Hp Hfin Hs Hu] Hn Hst. pose proof (put_step_inv _ _ Hm Hst) as Hm'.
  destruct Hst as [c m E|c m E P|c m E P|c m E P|b m E]; rewrite E in *; cbn in *; try contradiction;
    constructor; cbn; auto.
  - now rewrite <- app_assoc.
  - destruct going; [now rewrite <- app_assoc|]. left.
    destruct Hf as [[[=] _]|[Hf _]]. injection Hf as -> ->. split; [reflexivity|].
    apply elem_of_app. right. now apply list_elem_of_singleton.
  - apply Forall_app in Hc as [H1 H2]. inversion H2. now apply Forall_app.
  - destruct going; [|destruct Hf as [[[=] _]|[Hf _]]; injection Hf as -> ->; rewrite more_F in P; discriminate].
    rewrite elem_of_app in *. rewrite elem_of_cons in Hf. tauto.
Qed.

(** A step of [Get] before its last. *)
Lemma task_get m m' fut going :
  task_inv cmds m T_get fut going -> (forall c sig, m_get m <> GSig c sig) -> get_step m m' ->
  task_inv cmds m' T_get fut going /\ m_put m' = m_put m.
Proof using Type.
  intros [Hm Hc Hf Hp Hfin Hs Hu] Hn Hst. pose proof (get_step_inv _ _ Hm Hst) as Hm'.
  assert (Hno : ch_F ∉ m_taken m).
  { intros Hin. apply Hfin in Hin as [|[|[sig Hsig]]]; [discriminate | discriminate | exact (Hn _ _ Hsig)]. }
  pose proof (mi_ok m Hm) as Hk.
  destruct Hst as [m E W|m E W|m E W|m E W Hpos|m E W Hz|m E Hpos|m E|got st' c sig m E D|c sig m E]; cbn in *;
    (split; [|reflexivity]); try (exfalso; exact (Hn _ _ E)).
  all: try (constructor; cbn; auto; try discriminate;
            split; [intros Hin; contradiction | intros [|[|[? ?]]]; discriminate]).
  constructor; cbn; auto.
  - split.
    + intros Hin. right. right. destruct sig; [|contradiction].
      apply elem_of_app in Hin as [|Hin]; [contradiction|]. apply list_elem_of_singleton in Hin as ->. eauto.
    + intros [|[|[x Hx]]]; try discriminate. injection Hx as -> ->. destruct x; [|exfalso; exact (more_made _ _ _ _ _ D eq_refl)].
      apply elem_of_app. right. now apply list_elem_of_singleton.
  - intros c' sig' Hg. injection Hg as <- <-. exists (m_status m). apply elem_of_app. right. now apply list_elem_of_singleton.
Qed.

(** The end of [Get], with the turn of the loop that follows. *)
Lemma task_return m c sig pc fut going :
  task_inv cmds m T_get fut going -> m_get m = GSig c sig ->
  (if c =? ch_F then pc = T_show true \/ pc = T_done else pc = T_get \/ pc = T_show false) ->
  task_inv cmds (get_returned sig m) pc fut going.
Proof using Type.
  intros [Hm Hc Hf Hp Hfin Hs Hu] E Hpc.
  assert (Hm' : mon_inv (get_returned sig m)) by (eapply get_step_inv; [exact Hm|]; now apply (get_signal c)).
  constructor; cbn; auto; try discriminate.
  - rewrite Hfin, E. destruct (Z.eqb_spec c ch_F) as [->|Hne].
    + split; [tauto|]. intros _. right. right. eauto.
    + split; [intros [|[|[x Hx]]]; congruence | intros [|[|[x Hx]]]; [..|discriminate Hx]; destruct Hpc; congruence].
  - destruct (c =? ch_F); destruct Hpc; subst; discriminate.
Qed.

(** A change of place that is not the end of [Get]. *)
Lemma task_moves m pc pc' fut going :
  task_inv cmds m pc fut going -> m_get m = GIdle -> pc' <> T_undef ->
  (pc = T_show true \/ pc = T_done <-> pc' = T_show true \/ pc' = T_done) ->
  task_inv cmds m pc' fut going.
Proof using Type.
  intros [Hm Hc Hf Hp Hfin Hs Hu] E Hu' Hiff. constructor; auto.
  rewrite Hfin. tauto.
Qed.

(** The next command. *)
Lemma task_call c m pc l going :
  task_inv cmds m pc (c :: l) going -> m_put m = PIdle -> task_inv cmds (put_called c m) pc (c :: l) going.
Proof using Type.
  intros [Hm Hc Hf Hp Hfin Hs Hu] E. constructor; cbn; auto.
  eapply put_step_inv; [exact Hm|]. now apply put_call.
Qed.

(** A key was read. *)
Lemma task_key m pc l (going : bool) :
  task_inv cmds m pc [] true -> Forall (fun c => c ∈ cmds) l ->
  (if going then ch_F ∉ l else l = [ch_F]) -> task_inv cmds m pc l going.
Proof using Type.
  intros [Hm Hc Hf Hp Hfin Hs Hu] Hl Hg. rewrite app_nil_r in *. constructor; cbn; auto.
  - now apply Forall_app.
  - destruct going; [rewrite elem_of_app; tauto | right; auto].
Qed.
End Task.

(** ** Chains *)

Definition marked (c : MenageHmsh_tChain11) : Prop := c !! 1%nat = Some 101.
Definition clean (c : MenageHmsh_tChain11) : Prop := exists x, c !! 1%nat = Some x /\ x <> 101.

Lemma digit_is_char k x : digit k = Some x -> 48 <= x <= 57.
Proof.
  unfold digit. destruct (k <? 0); [discriminate|]. intros E.
  assert (Hd : Forall (fun d => 48 <= d <= 57) digits) by (unfold digits; repeat constructor; lia).
  exact (Forall_lookup_1 _ _ _ _ Hd E).
Qed.

Lemma convert_clean h hd c c' : MenageHmsh_Convert h hd c = Some c' -> clean c' /\ length c' = 12%nat.
Proof.
  unfold MenageHmsh_Convert. intros E.
  destruct (c !! 0%nat); [|discriminate E]. cbn in E.
  destruct (digit (Z.quot (hours h) 10)) as [d|] eqn:Ed; [|discriminate E]. cbn in E.
  apply digit_is_char in Ed.
  assert (Hd : forall l, length l = 10%nat -> clean (z :: d :: l) /\ length (z :: d :: l) = 12%nat).
  { intros l Hl. split; [exists d; split; [reflexivity | lia] | cbn; lia]. }
  repeat match type of E with context [digit ?k] => destruct (digit k); [|discriminate E]; cbn in E end.
  destruct hd; cbn in E;
    repeat match type of E with context [digit ?k] => destruct (digit k); [|discriminate E]; cbn in E end;
    injection E as <-; now apply Hd.
Qed.

(** What a turn of the clock shows, unless it is its last. *)
Lemma clock_turn_chains c v pc v' o :
  after_turn (ClockChrono_Clock c v) v = (pc, v', o) -> length (ck_chain v) = 12%nat ->
  length (ck_chain v') = 12%nat /\
  match o with Some ch => if c =? ch_F then marked ch else clean ch | None => True end.
Proof.
  intros E Hl.
  assert (Hs : forall h d, after_turn (clock_show h d (ck_chain v)) v = (pc, v', o) ->
    length (ck_chain v') = 12%nat /\ match o with Some ch => clean ch | None => True end).
  { intros h d Es. unfold clock_show in Es. destruct d as [[]|]; [|injection Es as <- <- <-; auto..].
    destruct (MenageHmsh_Convert h false (ck_chain v)) as [c'|] eqn:Ec; [|injection Es as <- <- <-; auto].
    injection Es as <- <- <-. apply convert_clean in Ec as [? ?]. auto. }
  unfold ClockChrono_Clock in E.
  repeat match type of E with after_turn (if ?b =? ?k then _ else _) _ = _ =>
    destruct (Z.eqb_spec b k) as [->|]; cbn [Z.eqb ch_R ch_T ch_H ch_M ch_S ch_F Pos.eqb];
      [try (now apply Hs in E) |] end.
  - destruct (MenageHmsh_PlusOneUnit (ck_hour v)). now apply Hs in E.
  - assert (Hm : marked (<[1%nat := 101]> (ck_chain v))) by (apply list_lookup_insert_eq; lia).
    injection E as <- <- <-. split; [exact Hl | exact Hm].
  - apply Hs in E. destruct (Z.eqb_spec c ch_F); [contradiction | exact E].
Qed.

(** What a turn of the chronometer shows. *)
Lemma chrono_turn_chains c v pc v' ch :
  after_turn (ClockChrono_Chrono c v) v = (pc, v', Some ch) -> clean ch.
Proof.
  intros E.
  assert (Hs : forall u, after_turn (chrono_show u) v = (pc, v', Some ch) -> clean ch).
  { intros u Es. unfold chrono_show in Es.
    destruct (cr_display u) as [[]|], (cr_times u) as [t|]; try discriminate Es.
    destruct (MenageHmsh_Convert t _ _) as [c'|] eqn:Ec; [|discriminate Es].
    injection Es as <- <- <-. now apply convert_clean in Ec. }
  unfold ClockChrono_Chrono in E.
  repeat match type of E with after_turn (if ?b then _ else _) _ = _ => destruct b end;
    try (now apply Hs in E); try discriminate E.
  - destruct (cr_times v) as [t|]; [|discriminate E]. destruct (MenageHmsh_PlusOneUnit t).
    destruct (cr_inter v); [destruct (cr_end v); [|discriminate E]|]; now apply Hs in E.
  - destruct (cr_times v) as [t|]; [|discriminate E]. now apply Hs in E.
Qed.

Lemma write_clean c hide pause : clean c -> exists l, ClockChrono_Write c hide pause = Some l.
Proof.
  intros (x & Hx & Hne). unfold ClockChrono_Write. rewrite Hx.
  destruct (Z.eqb_spec x 101); [contradiction | eauto].
Qed.

Lemma write_marked c hide pause : marked c -> ClockChrono_Write c hide pause = None.
Proof. intros E. unfold ClockChrono_Write. now rewrite E. Qed.
