(* ===== verification/WristDisplay.v ===== *)
(** * The wrist clock: the display and the mark that ends it

    The chains on their way to the writing task: those of times of day do not have
    the mark at which it ends, and the mark is put once, last. *)

From stdpp Require Import base tactics numbers list relations.
From S2P Require Import Prelude Hmsh CmdMonitor ClockMonitors ClockDisplay ClockTasks Wrist WristFacts WristInv.

(** The clock has put the mark. *)
Definition over (pc : task_pc) (d : dmon) : bool :=
  match pc with
  | T_done => true
  | T_show true => match d_clock d with WSig | WOut => true | _ => false end
  | _ => false
  end.

Definition in_display (pc : task_pc) (wpc : writer_pc) : Prop :=
  match pc with T_show _ => wpc <> WIdle | _ => wpc = WIdle end.

Record disp_inv (pc rc : task_pc) (d : dmon) (wr : bool) : Prop := {
  dp_inv : dinv d;
  dp_ck : in_display pc (d_clock d);
  dp_cr : in_display rc (d_chrono d);
  dp_put : forall c, d_clock d = WWait c \/ d_clock d = WIn c ->
    match pc with T_show true => marked c | _ => clean c end;
  dp_putr : forall c, d_chrono d = WWait c \/ d_chrono d = WIn c -> clean c;
  dp_hour : HourBufferstatus (d_vars d) = full ->
    if over pc d then marked (hour (d_vars d)) else clean (hour (d_vars d));
  dp_times : TimesBufferstatus (d_vars d) = full -> clean (times (d_vars d));
  dp_read : forall dst c, d_reader d = ROut (Some (dst, c)) -> clean c \/ (marked c /\ over pc d = true);
  dp_over : over pc d = true -> wr = false \/ HourBufferstatus (d_vars d) = full \/
    exists dst c, d_reader d = ROut (Some (dst, c)) /\ marked c;
  dp_writing : wr = false -> over pc d = true;
  dp_ended : wr = false -> d_reader d = RIdle
}.

Lemma disp_start : disp_inv T_sync T_sync init_dispclk true.
Proof. constructor; try exact dinv_init; cbn; try easy; intros ? [E|E]; discriminate E. Qed.

(** The first character does not matter. *)
Lemma second_char x (c : MenageHmsh_tChain11) : (<[0%nat := x]> c) !! 1%nat = c !! 1%nat.
Proof. exact (list_lookup_insert_ne c 0 1 x ltac:(discriminate)). Qed.

Lemma marked_first x c : marked c -> marked (<[0%nat := x]> c).
Proof. intros E. exact (eq_trans (second_char x c) E). Qed.

Lemma clean_first x c : clean c -> clean (<[0%nat := x]> c).
Proof. intros (y & E & Hy). exists y. split; [exact (eq_trans (second_char x c) E) | exact Hy]. Qed.

(** A step of the clock in the monitor. *)
Lemma disp_clock ends rc d d' wr :
  disp_inv (T_show ends) rc d wr -> d_clock d <> WIdle -> dstep d d' -> d_clock d' <> d_clock d ->
  disp_inv (shown ends (d_clock d')) rc d' wr.
Proof.
  intros [Hi Hck Hcr Hput Hputr Hh Ht Hrd Hov Hwr Hend] Hn Hs Hc. pose proof (dstep_inv _ _ Hi Hs) as Hi'.
  destruct Hs as [c m E|c m E P|c v sig m E D|m E|m E| | | | | | | | | | ]; cbn in *; try contradiction;
    rewrite E in *; cbn in *.
  - constructor; cbn; auto; try discriminate.
    intros c' [Ec|Ec]; [discriminate Ec|]. injection Ec as <-. apply Hput. auto.
  - assert (Hch : if ends then marked (<[0%nat := 104]> c) else clean (<[0%nat := 104]> c)).
    { specialize (Hput c (or_intror eq_refl)). destruct ends; [now apply marked_first | now apply clean_first]. }
    assert (Hv : HourBufferstatus v = full /\ hour v = <[0%nat := 104]> c /\
                 TimesBufferstatus v = TimesBufferstatus (d_vars m) /\ times v = times (d_vars m)).
    { unfold Display_PutHour in D. destruct (HourBufferstatus (d_vars m)); injection D as <- <-; auto. }
    destruct Hv as (Hv1 & Hv2 & Hv3 & Hv4).
    destruct sig; (constructor; cbn; auto; try discriminate;
      [intros c' [Ec|Ec]; discriminate Ec | rewrite Hv2; intros _; destruct ends; exact Hch
      | rewrite Hv3, Hv4; exact Ht
      | intros dst c' Er; destruct (Hrd dst c' Er) as [|[_ Hf]]; [auto | destruct ends; discriminate Hf]
      | intros Hw; specialize (Hwr Hw); destruct ends; discriminate Hwr]).
  - destruct ends; constructor; cbn in *; auto; try discriminate; intros c' [Ec|Ec]; discriminate Ec.
  - destruct ends; constructor; cbn in *; auto; try discriminate; intros c' [Ec|Ec]; discriminate Ec.
Qed.

(** A step of the chronometer in the monitor. *)
Lemma disp_chrono pc ends d d' wr :
  disp_inv pc (T_show ends) d wr -> d_chrono d <> WIdle -> dstep d d' -> d_chrono d' <> d_chrono d ->
  disp_inv pc (shown ends (d_chrono d')) d' wr.
Proof.
  intros [Hi Hck Hcr Hput Hputr Hh Ht Hrd Hov Hwr Hend] Hn Hs Hc. pose proof (dstep_inv _ _ Hi Hs) as Hi'.
  destruct (dstep_chrono_only _ _ Hs Hc) as [Ek _].
  assert (Ho : over pc d' = over pc d) by (unfold over; now rewrite Ek).
  destruct Hs as [| | | | |c m E|c m E P|c v sig m E D|m E|m E| | | | | ]; cbn in *; try contradiction;
    rewrite E in *; cbn in *.
  - constructor; cbn; auto; try discriminate; rewrite ?Ho; auto.
    intros c' [Ec|Ec]; [discriminate Ec|]. injection Ec as <-. apply Hputr. auto.
  - assert (Hch : clean (<[0%nat := 116]> c)) by (apply clean_first, Hputr; auto).
    assert (Hv : TimesBufferstatus v = full /\ times v = <[0%nat := 116]> c /\
                 HourBufferstatus v = HourBufferstatus (d_vars m) /\ hour v = hour (d_vars m)).
    { unfold Display_PutTimes in D. destruct (TimesBufferstatus (d_vars m)); injection D as <- <-; auto. }
    destruct Hv as (Hv1 & Hv2 & Hv3 & Hv4).
    destruct sig; (constructor; cbn in *; rewrite ?Ho, ?Hv3, ?Hv4; auto; try discriminate;
      [intros c' [Ec|Ec]; discriminate Ec | rewrite Hv2; auto]).
  - destruct ends; constructor; cbn in *; rewrite ?Ho; auto; try discriminate; intros c' [Ec|Ec]; discriminate Ec.
  - destruct ends; constructor; cbn in *; rewrite ?Ho; auto; try discriminate; intros c' [Ec|Ec]; discriminate Ec.
Qed.

(** What a turn asks of the display, and where it leaves the task. *)
Definition turn_shows (pc : task_pc) (o : option MenageHmsh_tChain11) : Prop :=
  match o with
  | None => pc = T_get
  | Some c => (pc = T_show false /\ clean c) \/ (pc = T_show true /\ marked c)
  end.

Lemma disp_clock_calls pc rc d wr pc' o :
  disp_inv pc rc d wr -> pc = T_get \/ pc = T_sync -> turn_shows pc' o ->
  disp_inv pc' rc (clock_calls o d) wr.
Proof.
  intros [Hi Hck Hcr Hput Hputr Hh Ht Hrd Hov Hwr Hend] Hpc Ho.
  assert (Hw : d_clock d = WIdle /\ over pc d = false) by (destruct Hpc; subst; auto).
  destruct Hw as [Hw Hov0]. rewrite Hov0 in *. destruct o as [c|]; cbn in *.
  - assert (Hs : dstep d (clock_calls (Some c) d)) by now apply clock_call.
    pose proof (dstep_inv _ _ Hi Hs) as Hi'. cbn in Hi'.
    assert (Hov1 : over pc' (clock_calls (Some c) d) = false) by (destruct Ho as [[-> _]|[-> _]]; reflexivity).
    cbn in Hov1.
    constructor; cbn; rewrite ?Hov1; auto.
    + destruct Ho as [[-> _]|[-> _]]; discriminate.
    + intros c' [Ec|Ec]; [|discriminate Ec]. injection Ec as <-. destruct Ho as [[-> ?]|[-> ?]]; assumption.
  - subst pc'. constructor; auto. intros c [E|E]; rewrite Hw in E; discriminate E.
Qed.

Definition chrono_turn_shows (pc : task_pc) (o : option MenageHmsh_tChain11) : Prop :=
  match o with
  | None => pc = T_get \/ pc = T_done
  | Some c => pc = T_show false /\ clean c
  end.

Lemma disp_chrono_calls pc rc d wr rc' o :
  disp_inv pc rc d wr -> rc = T_get \/ rc = T_sync -> chrono_turn_shows rc' o ->
  disp_inv pc rc' (chrono_calls o d) wr.
Proof.
  intros [Hi Hck Hcr Hput Hputr Hh Ht Hrd Hov Hwr Hend] Hpc Ho.
  assert (Hw : d_chrono d = WIdle) by (destruct Hpc; subst; auto).
  destruct o as [c|]; cbn in *.
  - destruct Ho as [-> Hc].
    assert (Hs : dstep d (chrono_calls (Some c) d)) by now apply chrono_call.
    pose proof (dstep_inv _ _ Hi Hs) as Hi'. cbn in Hi'.
    constructor; cbn; auto; try discriminate.
    intros c' [Ec|Ec]; [|discriminate Ec]. now injection Ec as <-.
  - constructor; auto. destruct Ho as [-> | ->]; exact Hw.
Qed.

(** A step of the writing task. *)
Lemma disp_reader pc rc d d' v :
  disp_inv pc rc d true -> dstep d d' -> d_reader d' <> d_reader d -> disp_inv pc rc d' (goes_on v d).
Proof.
  intros [Hi Hck Hcr Hput Hputr Hh Ht Hrd Hov Hwr Hend] Hs Hc. pose proof (dstep_inv _ _ Hi Hs) as Hi'.
  destruct (dstep_reader_only _ _ Hs Hc) as [Ek Er].
  assert (Ho : over pc d' = over pc d) by (unfold over; now rewrite Ek).
  unfold goes_on. rewrite <- Ek in Hck, Hput. rewrite <- Er in Hcr, Hputr. rewrite <- Ho in Hh, Hrd, Hov, Hwr. clear Ho.
  destruct Hs as [| | | | | | | | | |m E|m E P|m E P|w r m E D|r m E]; cbn in *; try contradiction;
    rewrite E in *; cbn in *.
  1, 2, 3: constructor; cbn; auto; try discriminate;
    intros Hv; destruct (Hov Hv) as [Hx|[Hx|(dst & c & [=] & _)]]; auto.
  - pose proof (reader_finds m w r Hi E D) as Hf.
    assert (Hcases : (TimesBufferstatus (d_vars m) = full /\ r = Some (destChrono, times (d_vars m)) /\
                      HourBufferstatus w = HourBufferstatus (d_vars m) /\ TimesBufferstatus w = empty) \/
                     (HourBufferstatus (d_vars m) = full /\ r = Some (destClock, hour (d_vars m)) /\
                      HourBufferstatus w = empty /\ TimesBufferstatus w = empty)).
    { unfold Display_Get in D. destruct (TimesBufferstatus (d_vars m)) eqn:Et, (HourBufferstatus (d_vars m)) eqn:Eh;
        injection D as <- <-; cbn; auto 6; contradiction. }
    assert (Hvals : hour w = hour (d_vars m) /\ times w = times (d_vars m)).
    { unfold Display_Get in D. destruct (TimesBufferstatus (d_vars m)), (HourBufferstatus (d_vars m));
        injection D as <- <-; auto. }
    destruct Hvals as [Hv1 Hv2].
    destruct Hcases as [(Hfull & -> & Hh1 & Ht1)|(Hfull & -> & Hh1 & Ht1)]; constructor; cbn;
      rewrite ?Hv1, ?Hv2, ?Hh1, ?Ht1; auto; try discriminate.
    + intros dst c [= <- <-]. auto.
    + intros Hv. destruct (Hov Hv) as [Hx|[Hx|(dst & c & [=] & _)]]; auto.
    + intros dst c [= <- <-]. specialize (Hh Hfull). destruct (over pc _) eqn:Eo; cbn in Eo; rewrite ?Eo in *; auto.
    + intros Hv. right. right. specialize (Hh Hfull). cbn in Hv. rewrite Hv in Hh. eauto.
  - constructor; cbn; auto; try discriminate.
    + intros Hv. destruct (Hov Hv) as [[=]|[Hx|(dst & c & [= ->] & Hm)]]; [auto|].
      left. now rewrite write_marked.
    + intros Hg. destruct r as [[dst c]|]; [|discriminate Hg].
      destruct (Hrd dst c eq_refl) as [Hcl|[_ Hm]]; [|exact Hm].
      destruct (write_clean c (rd_hide v) (rd_pause v) Hcl) as [l El]. rewrite El in Hg. discriminate Hg.
Qed.
