(* ===== verification/WristRun.v ===== *)
(** * The wrist clock: the invariant of the program

    The parts of the invariant together, and that every step of the program keeps
    it. *)

From stdpp Require Import base tactics numbers list relations.
From S2P Require Import Prelude Hmsh CmdMonitor ClockMonitors ClockDisplay ClockTasks Wrist WristFacts WristInv WristDisplay.

(** ** The start of the tasks *)

Definition waits (pc : task_pc) : Z := match pc with T_sync => 1 | _ => 0 end.

Fixpoint signals (a : list read_act) : Z :=
  match a with [] => 0 | SignalSync :: a => 1 + signals a | _ :: a => signals a end.

(** K and D were read: there is a signal for each task that still waits for one. *)
Definition started (w : wrist) : Prop :=
  rd_run (rdv w) = Z.lor ch_K ch_D /\ waits (ck w) + waits (cr w) <= sync_sem w + signals (acts w).

(** The keys that start the tasks are the next ones. *)
Definition start_keys_next (run : Z) (ks : list Z) : Prop :=
  (exists k1 k2 r, ks = k1 :: k2 :: r /\ run = 0 /\
     ((toupper k1 = ch_K /\ toupper k2 = ch_D) \/ (toupper k1 = ch_D /\ toupper k2 = ch_K))) \/
  (exists k2 r, ks = k2 :: r /\ ((run = ch_K /\ toupper k2 = ch_D) \/ (run = ch_D /\ toupper k2 = ch_K))).

Definition starting (w : wrist) : Prop :=
  reading w = true /\ acts w = [] /\ put_idle w /\ start_keys_next (rd_run (rdv w)) (keys w).

Record winv (w : wrist) : Prop := {
  wi_ck : task_inv CommandClock.commands (mc w) (ck w)
            (put_future (m_put (mc w)) ++ clock_acts (acts w)) (reading w);
  wi_cr : task_inv CommandChrono.commands (mr w) (cr w)
            (put_future (m_put (mr w)) ++ chrono_acts (acts w)) (reading w);
  wi_disp : disp_inv (ck w) (cr w) (dm w) (writing w);
  wi_ckv : clock_ok (ckv w) /\ length (ck_chain (ckv w)) = 12%nat;
  wi_crv : (cr w = T_sync \/ chrono_ok (crv w)) /\ exists c0 r, cr_chain (crv w) = c0 :: r;
  wi_sync : started w \/ starting w;
  wi_sem : 0 <= sync_sem w;
  wi_sig : 0 < signals (acts w) -> put_idle w /\ clock_acts (acts w) = [] /\ chrono_acts (acts w) = [];
  wi_F : reading w = true -> Exists (fun k => toupper k = ch_F) (keys w)
}.

Lemma winv_start k1 k2 ks :
  (toupper k1 = ch_K /\ toupper k2 = ch_D) \/ (toupper k1 = ch_D /\ toupper k2 = ch_K) ->
  Exists (fun k => toupper k = ch_F) ks -> winv (wrist_start (k1 :: k2 :: ks)).
Proof.
  intros Hk HF. constructor; cbn.
  - now apply task_inv_start.
  - now apply task_inv_start.
  - exact disp_start.
  - split; [split; [constructor; cbn; lia | cbn; eauto] | reflexivity].
  - split; [auto | eauto].
  - right. split; [reflexivity|]. split; [reflexivity|]. split; [split; reflexivity|]. left. eauto 8.
  - reflexivity.
  - discriminate.
  - intros _. right. right. exact HF.
Qed.

(** ** The commands of a key *)

Lemma read_key_acts k v v' a g :
  ClockChrono_Read k v = (v', a, g) ->
  Forall (fun c => c ∈ CommandClock.commands) (clock_acts a) /\
  Forall (fun c => c ∈ CommandChrono.commands) (chrono_acts a) /\
  (if g then (ch_F ∉ clock_acts a) /\ (ch_F ∉ chrono_acts a) /\ toupper k <> ch_F
   else clock_acts a = [ch_F] /\ chrono_acts a = [ch_F]).
Proof.
  unfold ClockChrono_Read, CommandClock.commands, CommandChrono.commands. intros E.
  set (ch := toupper k) in *. clearbody ch.
  repeat match type of E with (if ?b then _ else _) = _ => destruct b eqn:?Hb end;
    injection E as <- <- <-.
  all: repeat (bool_to_prop; match goal with H : _ \/ _ |- _ => destruct H end); bool_to_prop;
    try subst ch; try (destruct (_ =? _)); cbn;
    (split; [repeat constructor; in_chars | split; [repeat constructor; in_chars|]]).
  all: rewrite ?elem_of_cons, ?elem_of_nil; try (split; reflexivity); intuition (discriminate || congruence).
Qed.

Lemma read_key_start k v v' a g :
  ClockChrono_Read k v = (v', a, g) -> toupper k = ch_K \/ toupper k = ch_D ->
  g = true /\ rd_run v' = Z.lor (rd_run v) (toupper k) /\
  a = if rd_run v' =? Z.lor ch_K ch_D then [SignalSync; SignalSync] else [].
Proof. unfold ClockChrono_Read. intros E [Hk|Hk]; rewrite Hk in *; injection E as <- <- <-; auto. Qed.

Lemma signals_pos a : 0 <= signals a.
Proof. induction a as [|[] a IH]; cbn; lia. Qed.

Lemma read_key_run k v v' a g :
  ClockChrono_Read k v = (v', a, g) -> rd_run v = Z.lor ch_K ch_D -> rd_run v' = Z.lor ch_K ch_D.
Proof.
  intros E Hr. destruct (decide (toupper k = ch_K \/ toupper k = ch_D)) as [Hk|Hk].
  - destruct (read_key_start _ _ _ _ _ E Hk) as (_ & -> & _). rewrite Hr. destruct Hk as [-> | ->]; reflexivity.
  - unfold ClockChrono_Read in E. set (ch := toupper k) in *. clearbody ch.
    repeat match type of E with (if ?b then _ else _) = _ => destruct b eqn:?Hb end; injection E as <- <- <-; auto.
    exfalso. apply Hk. match goal with H : (ch =? ch_K) || _ = true |- _ => apply orb_true_iff in H as [H|H]; apply Z.eqb_eq in H end; auto.
Qed.

Lemma read_key_signals k v v' a g :
  ClockChrono_Read k v = (v', a, g) -> 0 < signals a -> clock_acts a = [] /\ chrono_acts a = [].
Proof.
  unfold ClockChrono_Read. intros E.
  repeat match type of E with (if ?b then _ else _) = _ => destruct b end; injection E as <- <- <-;
    try destruct (_ =? _); cbn; intros; (lia || auto).
Qed.

(** ** Steps of the reading task *)

Lemma put_idle_future w a :
  put_idle w -> put_future (m_put (mc w)) ++ clock_acts a = clock_acts a /\
                put_future (m_put (mr w)) ++ chrono_acts a = chrono_acts a.
Proof. intros [-> ->]. split; reflexivity. Qed.

Lemma winv_key w k ks v a g :
  winv w -> reading w = true -> acts w = [] -> put_idle w -> keys w = k :: ks ->
  ClockChrono_Read k (rdv w) = (v, a, g) -> winv (set_read ks v a g w).
Proof.
  intros [Hck Hcr Hd Hv1 Hv2 Hs Hsem Hsig HF] Hr Ha Hp Hk E.
  destruct (put_idle_future w (acts w) Hp) as [F1 F2]. rewrite Ha in F1, F2.
  rewrite Ha, F1, Hr in Hck. rewrite Ha, F2, Hr in Hcr.
  destruct (put_idle_future w a Hp) as [G1 G2].
  destruct (read_key_acts _ _ _ _ _ E) as (C1 & C2 & C3).
  constructor; cbn; rewrite ?G1, ?G2; auto.
  - apply task_key; [exact Hck | exact C1 | destruct g; apply C3].
  - apply task_key; [exact Hcr | exact C2 | destruct g; apply C3].
  - destruct Hs as [[Hrun Hw]|(_ & _ & _ & Hn)].
    + left. split; [exact (read_key_run _ _ _ _ _ E Hrun)|]. cbn. rewrite Ha in Hw. cbn in Hw.
      pose proof (signals_pos a). lia.
    + rewrite Hk in Hn. destruct Hn as [(k1 & k2 & r & [= <- ->] & Hrun & Hkd)|(k2 & r & [= <- ->] & Hkd)].
      * destruct (read_key_start _ _ _ _ _ E) as (Hg & Hrun' & Hacts); [tauto|]. right.
        rewrite Hrun, Z.lor_0_l in Hrun'. split; [exact Hg|].
        split; [cbn; rewrite Hacts, Hrun'; destruct Hkd as [[-> _]|[-> _]]; reflexivity|].
        split; [exact Hp|]. right. cbn. exists k2, r. split; [reflexivity|]. rewrite Hrun'. tauto.
      * destruct (read_key_start _ _ _ _ _ E) as (Hg & Hrun' & Hacts); [tauto|]. left.
        assert (Hkd' : rd_run v = Z.lor ch_K ch_D) by (rewrite Hrun'; destruct Hkd as [[-> ->]|[-> ->]]; reflexivity).
        split; [exact Hkd'|]. cbn [ck cr sync_sem acts set_read].
        rewrite Hacts, Hkd', Z.eqb_refl. cbn [signals]. destruct (ck w), (cr w); cbn [waits]; lia.
  - intros Hpos. split; [exact Hp | exact (read_key_signals _ _ _ _ _ E Hpos)].
  - intros ->. destruct C3 as (_ & _ & Hne). specialize (HF Hr). rewrite Hk in HF.
    apply Exists_cons in HF as [HF|HF]; [contradiction | exact HF].
Qed.

(** A step that is not a key leaves the start of the tasks alone. *)
Lemma sync_kept w w' :
  started w \/ starting w -> reading w' = reading w -> rdv w' = rdv w -> keys w' = keys w ->
  (acts w = [] -> put_idle w -> acts w' = [] /\ put_idle w') ->
  waits (ck w') + waits (cr w') - (sync_sem w' + signals (acts w'))
    <= waits (ck w) + waits (cr w) - (sync_sem w + signals (acts w)) ->
  started w' \/ starting w'.
Proof.
  intros [[Hr Hw]|(Hg & Ha & Hp & Hk)] E1 E2 E3 Hi Hle.
  - left. split; [now rewrite E2 | lia].
  - right. destruct (Hi Ha Hp) as [Ha' Hp']. unfold starting. rewrite E1, E2, E3. auto.
Qed.

Lemma winv_read w w' : winv w -> read_step w w' -> winv w'.
Proof.
  intros Hi Hs. destruct Hs as [k ks v a g Hr Ha Hp Hk E|a Hp Ha|a Hp Ha|c a Hp Ha|c a Hp Ha|m Hp Hs|m Hp Hs].
  { now apply (winv_key w k). }
  all: destruct Hi as [Hck Hcr Hd Hv1 Hv2 Hs' Hsem Hsig HF].
  1, 2, 3, 4: rewrite Ha in Hck, Hcr, Hsig; cbn [clock_acts chrono_acts signals] in Hck, Hcr, Hsig;
    pose proof (signals_pos a) as Hpos.
  - constructor; cbn; auto; [|lia|].
    + eapply sync_kept; [exact Hs'| reflexivity..| |]; cbn; rewrite Ha; [discriminate | cbn; lia].
    + intros _. apply Hsig. lia.
  - constructor; cbn; auto. eapply sync_kept; [exact Hs'| reflexivity..| |]; cbn; rewrite Ha; [discriminate | cbn; lia].
  - pose proof Hp as [Hp1 Hp2]. rewrite Hp1 in Hck. cbn in Hck. constructor; cbn; auto.
    + now apply task_call.
    + eapply sync_kept; [exact Hs'| reflexivity..| |]; cbn; rewrite Ha; [discriminate | cbn; lia].
    + intros Hlt. destruct (Hsig Hlt) as (_ & [=] & _).
  - pose proof Hp as [Hp1 Hp2]. rewrite Hp2 in Hcr. cbn in Hcr. constructor; cbn; auto.
    + now apply task_call.
    + eapply sync_kept; [exact Hs'| reflexivity..| |]; cbn; rewrite Ha; [discriminate | cbn; lia].
    + intros Hlt. destruct (Hsig Hlt) as (_ & _ & [=]).
  - constructor; cbn; auto; [now apply (task_put _ (mc w)) | |].
    + eapply sync_kept; [exact Hs'| reflexivity..| |]; cbn; [|lia]. intros _ [Hq _]. contradiction.
    + intros Hlt. destruct (Hsig Hlt) as ([Hq _] & _). contradiction.
  - constructor; cbn; auto; [now apply (task_put _ (mr w)) | |].
    + eapply sync_kept; [exact Hs'| reflexivity..| |]; cbn; [|lia]. intros _ [_ Hq]. contradiction.
    + intros Hlt. destruct (Hsig Hlt) as ([_ Hq] & _). contradiction.
Qed.

(** ** Steps of the clock *)

(** The commands a task can be given. *)
Lemma clock_command w c sig :
  winv w -> m_get (mc w) = GSig c sig -> c ∈ CommandClock.commands.
Proof.
  intros Hi E. destruct (wi_ck w Hi) as [Hm Hc _ _ _ Hs _]. apply Forall_app in Hc as [Hc _].
  destruct (Hs c sig E) as [st Hin].
  pose proof (clock_returned _ Hm Hc) as Hr. rewrite Forall_forall in Hr. specialize (Hr _ Hin).
  destruct st; cbn in Hr; unfold CommandClock.commands; rewrite !elem_of_cons, elem_of_nil in *; tauto.
Qed.

Lemma chrono_command w c sig :
  winv w -> m_get (mr w) = GSig c sig -> c ∈ ch_R :: CommandChrono.commands.
Proof.
  intros Hi E. destruct (wi_cr w Hi) as [Hm Hc _ _ _ Hs _]. apply Forall_app in Hc as [Hc _].
  destruct (Hs c sig E) as [st Hin].
  pose proof (chrono_returned _ Hm Hc) as Hr. rewrite Forall_forall in Hr. specialize (Hr _ Hin).
  destruct st as [[] b]; cbn in Hr; unfold CommandChrono.commands; rewrite !elem_of_cons, ?elem_of_nil in *; tauto.
Qed.

Lemma shown_cases ends pc : shown ends pc = T_show ends \/ shown ends pc = (if ends then T_done else T_get).
Proof. unfold shown. destruct (is_idle pc); auto. Qed.

(** The turn of the clock for a command. *)
Lemma clock_turn_result c v pc v' o :
  c ∈ CommandClock.commands -> clock_ok v -> length (ck_chain v) = 12%nat ->
  after_turn (ClockChrono_Clock c v) v = (pc, v', o) ->
  clock_ok v' /\ length (ck_chain v') = 12%nat /\ turn_shows pc o /\
  (if c =? ch_F then pc = T_show true \/ pc = T_done else pc = T_get \/ pc = T_show false).
Proof.
  intros Hc Hv Hl E. pose proof (clock_turn_ok c v Hc Hv) as Ht.
  destruct (clock_turn_chains _ _ _ _ _ E Hl) as [Hl' Ho].
  destruct (c =? ch_F).
  - rewrite Ht in E. injection E as <- <- <-. split; [exact Hv|]. split; [exact Hl|].
    split; [right; split; [reflexivity | exact Ho] | auto].
  - destruct Ht as (v1 & sh & Ht & Hv1 & _). rewrite Ht in E.
    destruct sh; injection E as <- <- <-; cbn; auto 8.
Qed.

Lemma winv_clock w b w' : winv w -> clock_step w b w' -> winv w'.
Proof.
  intros Hi Hs. pose proof Hi as [Hck Hcr Hd [Hv Hl] Hv2 Hs' Hsem Hsig HF].
  destruct Hs as [E P|m E Hg Hs|c sig pc v o E Eg Et|ends d E Hn Hs Hc]; rewrite E in *.
  - assert (Hidle : m_get (mc w) = GIdle) by (destruct (ti_pc _ _ _ _ _ Hck); [discriminate | assumption]).
    constructor; cbn; auto; try lia.
    + apply (task_moves _ _ T_sync); auto; intuition discriminate.
    + apply (disp_clock_calls T_sync _ _ _ T_get None); cbn; auto.
    + eapply sync_kept; [exact Hs'| reflexivity..| |]; cbn; [auto | rewrite E; cbn; lia].
  - destruct (task_get _ _ _ _ _ Hck Hg Hs) as [Hck' Hput].
    constructor; cbn; auto; [now rewrite Hput | |].
    + eapply sync_kept; [exact Hs'| reflexivity..| |]; cbn; [|rewrite E; cbn; lia].
      intros Ha Hp. split; [exact Ha|]. unfold put_idle in *. cbn. now rewrite Hput.
    + intros Hlt. unfold put_idle in *. cbn. rewrite Hput. exact (Hsig Hlt).
  - pose proof (clock_command w c sig Hi Eg) as Hcmd.
    destruct (clock_turn_result c _ _ _ _ Hcmd Hv Hl Et) as (Hv' & Hl' & Hsh & Hpc).
    constructor; cbn; auto.
    + now apply (task_return _ _ c).
    + apply (disp_clock_calls T_get); auto.
    + eapply sync_kept; [exact Hs'| reflexivity..| |]; cbn; [auto | rewrite E].
      assert (waits pc = 0) as -> by (destruct (c =? ch_F); destruct Hpc; subst; reflexivity). cbn. lia.
  - assert (Hidle : m_get (mc w) = GIdle) by (destruct (ti_pc _ _ _ _ _ Hck); [discriminate | assumption]).
    constructor; cbn; auto.
    + apply (task_moves _ _ (T_show ends)); auto; destruct (shown_cases ends (d_clock d)) as [-> | ->], ends;
        (discriminate || intuition discriminate).
    + now apply (disp_clock _ _ (dm w)).
    + eapply sync_kept; [exact Hs'| reflexivity..| |]; cbn; [auto | rewrite E].
      assert (waits (shown ends (d_clock d)) = 0) as -> by (destruct (shown_cases ends (d_clock d)) as [-> | ->], ends; reflexivity).
      cbn. lia.
Qed.

(** ** Steps of the chronometer *)

Lemma chrono_turn_result c v pc v' o :
  c ∈ ch_R :: CommandChrono.commands -> c = ch_R \/ chrono_ok v -> (exists c0 r, cr_chain v = c0 :: r) ->
  after_turn (ClockChrono_Chrono c v) v = (pc, v', o) ->
  ((pc = T_done /\ v' = v) \/ chrono_ok v') /\ (exists c0 r, cr_chain v' = c0 :: r) /\ chrono_turn_shows pc o /\
  (if c =? ch_F then pc = T_show true \/ pc = T_done else pc = T_get \/ pc = T_show false).
Proof.
  intros Hc Hv Hch E. pose proof (chrono_turn_ok c v Hc Hv Hch) as Ht.
  destruct (c =? ch_F).
  - rewrite Ht in E. injection E as <- <- <-. cbn. auto 8.
  - destruct Ht as (v1 & sh & Ht & Hv1).
    assert (Hcl : forall ch, o = Some ch -> clean ch) by (intros ch ->; exact (chrono_turn_chains _ _ _ _ _ E)).
    rewrite Ht in E. destruct sh; injection E as <- <- <-; cbn; pose proof (co_chain _ Hv1); auto 9.
Qed.

Lemma winv_chrono w b w' : winv w -> chrono_step w b w' -> winv w'.
Proof.
  intros Hi Hs. pose proof Hi as [Hck Hcr Hd Hv1 [Hv Hch] Hs' Hsem Hsig HF].
  destruct Hs as [pc v o E P Et|m E Hg Hs|c sig pc v o E Eg Et|ends d E Hn Hs Hc]; rewrite E in *.
  - assert (Hidle : m_get (mr w) = GIdle) by (destruct (ti_pc _ _ _ _ _ Hcr); [discriminate | assumption]).
    destruct (chrono_turn_result ch_R _ _ _ _ ltac:(in_chars) (or_introl eq_refl) Hch Et) as (Hv' & Hch' & Hsh & Hpc).
    cbn in Hpc. constructor; cbn; auto; try lia.
    + apply (task_moves _ _ T_sync); auto; destruct Hpc; subst pc; intuition discriminate.
    + apply (disp_chrono_calls _ T_sync); auto.
    + split; [|exact Hch']. destruct Hv' as [[-> _]|]; [destruct Hpc; discriminate | auto].
    + eapply sync_kept; [exact Hs'| reflexivity..| |]; cbn; [auto | rewrite E].
      assert (waits pc = 0) as -> by (destruct Hpc; subst; reflexivity). cbn. lia.
  - destruct (task_get _ _ _ _ _ Hcr Hg Hs) as [Hcr' Hput].
    constructor; cbn; auto; [now rewrite Hput | |].
    + eapply sync_kept; [exact Hs'| reflexivity..| |]; cbn; [|rewrite E; cbn; lia].
      intros Ha Hp. split; [exact Ha|]. unfold put_idle in *. cbn. now rewrite Hput.
    + intros Hlt. unfold put_idle in *. cbn. rewrite Hput. exact (Hsig Hlt).
  - destruct Hv as [[=]|Hv]. pose proof (chrono_command w c sig Hi Eg) as Hcmd.
    destruct (chrono_turn_result c _ _ _ _ Hcmd (or_intror Hv) Hch Et) as (Hv' & Hch' & Hsh & Hpc).
    constructor; cbn; auto.
    + now apply (task_return _ _ c).
    + apply (disp_chrono_calls _ T_get); auto.
    + split; [|exact Hch']. destruct Hv' as [[_ ->]|]; auto.
    + eapply sync_kept; [exact Hs'| reflexivity..| |]; cbn; [auto | rewrite E].
      assert (waits pc = 0) as -> by (destruct (c =? ch_F); destruct Hpc; subst; reflexivity). cbn. lia.
  - assert (Hidle : m_get (mr w) = GIdle) by (destruct (ti_pc _ _ _ _ _ Hcr); [discriminate | assumption]).
    constructor; cbn; auto.
    + apply (task_moves _ _ (T_show ends)); auto; destruct (shown_cases ends (d_chrono d)) as [-> | ->], ends;
        (discriminate || intuition discriminate).
    + now apply (disp_chrono _ _ (dm w)).
    + split; [|exact Hch]. destruct Hv as [[=]|Hv]. auto.
    + eapply sync_kept; [exact Hs'| reflexivity..| |]; cbn; [auto | rewrite E].
      assert (waits (shown ends (d_chrono d)) = 0) as -> by (destruct (shown_cases ends (d_chrono d)) as [-> | ->], ends; reflexivity).
      cbn. lia.
Qed.

(** ** Every state *)

Lemma winv_write w w' : winv w -> write_step w w' -> winv w'.
Proof.
  intros [Hck Hcr Hd Hv1 Hv2 Hs' Hsem Hsig HF] [d Hw Hs Hc]. rewrite Hw in Hd.
  constructor; cbn; auto. now apply (disp_reader _ _ (dm w)).
Qed.

Lemma winv_step w b w' : winv w -> wstep w b w' -> winv w'.
Proof.
  intros Hi Hs. destruct Hs as [w' Hs|b w' Hs|b w' Hs|w' Hs];
    [eapply winv_read | eapply winv_clock | eapply winv_chrono | eapply winv_write]; eassumption.
Qed.

Lemma winv_reachable w w' : winv w -> rtc any_step w w' -> winv w'.
Proof.
  intros Hi Hr. apply (rtc_invariant any_step winv w w' Hi); [|exact Hr].
  intros a b Ha [x Hs]. eapply winv_step; eauto.
Qed.
