(* ===== verification/WristTheorems.v ===== *)
(** * The wrist clock: theorems of the whole program

    The tasks end when they are told to, in every interleaving; and the hang of a
    start in which keys are typed too early. *)

From stdpp Require Import base tactics numbers list relations.
From S2P Require Import Prelude Hmsh CmdMonitor ClockMonitors ClockDisplay ClockTasks Wrist WristFacts WristInv WristDisplay WristRun.

(** A step other than a [Get] that found nothing. *)
Definition progress (w w' : wrist) : Prop := wstep w false w'.

(** ** Work *)

Lemma progress_work w w' : winv w -> progress w w' -> work w' < work w.
Proof.
  intros Hi Hs. pose proof (wi_disp w Hi) as Hd. unfold progress in Hs. remember false as b eqn:Hb.
  destruct Hs as [w' Hs|b w' Hs|b w' Hs|w' Hs]; subst; [now apply read_step_work | | |now apply write_step_work].
  - apply clock_step_work; [apply (wi_ck w Hi) | | exact Hs].
    intros E. pose proof (dp_ck _ _ _ _ Hd) as H. now rewrite E in H.
  - apply chrono_step_work; [apply (wi_cr w Hi) | | exact Hs].
    intros E. pose proof (dp_cr _ _ _ _ Hd) as H. destruct E as [E|E]; now rewrite E in H.
Qed.

Lemma work_pos w : winv w -> 0 <= work w.
Proof.
  intros Hi. unfold work. pose proof (mon_work_pos _ (ti_mon _ _ _ _ _ (wi_ck w Hi))).
  pose proof (mon_work_pos _ (ti_mon _ _ _ _ _ (wi_cr w Hi))).
  pose proof (display_work_pos _ (dp_inv _ _ _ _ (wi_disp w Hi))).
  pose proof (task_work_le (ck w)). pose proof (task_work_le (cr w)). lia.
Qed.

Lemma progress_bounded n w w' : winv w -> nsteps progress n w w' -> Z.of_nat n <= work w.
Proof.
  intros Hi Hs. revert Hi. induction Hs as [w|n w w1 w2 Hs Hr IH]; intros Hi; [now apply work_pos|].
  pose proof (progress_work _ _ Hi Hs). specialize (IH (winv_step _ _ _ Hi Hs)). lia.
Qed.

(** ** No task waits for ever *)

Definition stuck (w : wrist) : Prop := forall w', ~ progress w w'.

(** The steps in the display monitor. *)
Lemma clock_display_step w d :
  winv w -> d_clock (dm w) <> WIdle -> dstep (dm w) d -> d_clock d <> d_clock (dm w) -> exists w', progress w w'.
Proof.
  intros Hi Hn Hs Hc. pose proof (dp_ck _ _ _ _ (wi_disp w Hi)) as Hd.
  destruct (ck w) as [| |ends| |] eqn:E; cbn in Hd; try contradiction.
  eexists. apply w_clock. now apply (ck_show w ends d).
Qed.

Lemma chrono_display_step w d :
  winv w -> d_chrono (dm w) <> WIdle -> dstep (dm w) d -> d_chrono d <> d_chrono (dm w) -> exists w', progress w w'.
Proof.
  intros Hi Hn Hs Hc. pose proof (dp_cr _ _ _ _ (wi_disp w Hi)) as Hd.
  destruct (cr w) as [| |ends| |] eqn:E; cbn in Hd; try contradiction.
  eexists. apply w_chrono. now apply (cr_show w ends d).
Qed.

Lemma reader_display_step w d :
  writing w = true -> dstep (dm w) d -> d_reader d <> d_reader (dm w) -> exists w', progress w w'.
Proof. intros Hw Hs Hc. eexists. apply w_write. now apply (wr_get w d). Qed.

(** A task in the critical section can take a step. *)
Lemma display_mutex_free w : winv w -> stuck w -> d_mutex (dm w) = 1.
Proof.
  intros Hi Hstuck. pose proof (wi_disp w Hi) as Hd. pose proof (dp_inv _ _ _ _ Hd) as Hm.
  assert (Hc : w_holds (d_clock (dm w)) = 0).
  { destruct (d_clock (dm w)) as [|c|c| |] eqn:E; try reflexivity; exfalso.
    - destruct (Display_PutHour c (d_vars (dm w))) as [v sig] eqn:D.
      edestruct (clock_display_step w) as [w' Hw']; [exact Hi | congruence | eapply clock_body; eassumption | |exact (Hstuck w' Hw')].
      cbn. rewrite E. now destruct sig.
    - edestruct (clock_display_step w) as [w' Hw']; [exact Hi | congruence | eapply clock_signal; eassumption | |exact (Hstuck w' Hw')].
      cbn. now rewrite E.
    - edestruct (clock_display_step w) as [w' Hw']; [exact Hi | congruence | eapply clock_leave; eassumption | |exact (Hstuck w' Hw')].
      cbn. now rewrite E. }
  assert (Hr : w_holds (d_chrono (dm w)) = 0).
  { destruct (d_chrono (dm w)) as [|c|c| |] eqn:E; try reflexivity; exfalso.
    - destruct (Display_PutTimes c (d_vars (dm w))) as [v sig] eqn:D.
      edestruct (chrono_display_step w) as [w' Hw']; [exact Hi | congruence | eapply chrono_body; eassumption | |exact (Hstuck w' Hw')].
      cbn. rewrite E. now destruct sig.
    - edestruct (chrono_display_step w) as [w' Hw']; [exact Hi | congruence | eapply chrono_signal; eassumption | |exact (Hstuck w' Hw')].
      cbn. now rewrite E.
    - edestruct (chrono_display_step w) as [w' Hw']; [exact Hi | congruence | eapply chrono_leave; eassumption | |exact (Hstuck w' Hw')].
      cbn. now rewrite E. }
  assert (Hw : r_holds (d_reader (dm w)) = 0).
  { destruct (writing w) eqn:Ew; [|now rewrite (dp_ended _ _ _ _ Hd eq_refl)].
    destruct (d_reader (dm w)) as [| | | |r] eqn:E; try reflexivity; exfalso.
    - destruct (Display_Get (d_vars (dm w))) as [v r] eqn:D.
      edestruct (reader_display_step w) as [w' Hw']; [exact Ew | eapply reader_body; eassumption | |exact (Hstuck w' Hw')].
      cbn. now rewrite E.
    - edestruct (reader_display_step w) as [w' Hw']; [exact Ew | eapply reader_leave; eassumption | |exact (Hstuck w' Hw')].
      cbn. now rewrite E. }
  pose proof (di_excl _ Hm). lia.
Qed.

(** So that no task is in the monitor, but for the reader that waits for a chain. *)
Lemma display_moves w :
  winv w -> stuck w -> d_clock (dm w) = WIdle /\ d_chrono (dm w) = WIdle /\
    (writing w = true -> d_reader (dm w) = RWaitE /\ d_notEmpty (dm w) = 0).
Proof.
  intros Hi Hstuck. pose proof (display_mutex_free w Hi Hstuck) as Hmx. pose proof (wi_disp w Hi) as Hd.
  pose proof (dp_inv _ _ _ _ Hd) as Hm. pose proof (di_excl _ Hm) as Hx. rewrite Hmx in Hx.
  assert (forall pc, 0 <= w_holds pc) as Hwp by (intros []; cbn; lia).
  pose proof (Hwp (d_clock (dm w))). pose proof (Hwp (d_chrono (dm w))).
  assert (0 <= r_holds (d_reader (dm w))) by (destruct (d_reader (dm w)); cbn; lia).
  split; [|split].
  - destruct (d_clock (dm w)) as [|c|c| |] eqn:E; cbn in *; try lia; [reflexivity|]. exfalso.
    edestruct (clock_display_step w) as [w' Hw']; [exact Hi | congruence | eapply clock_enter; [exact E | lia] | |exact (Hstuck w' Hw')].
    cbn. now rewrite E.
  - destruct (d_chrono (dm w)) as [|c|c| |] eqn:E; cbn in *; try lia; [reflexivity|]. exfalso.
    edestruct (chrono_display_step w) as [w' Hw']; [exact Hi | congruence | eapply chrono_enter; [exact E | lia] | |exact (Hstuck w' Hw')].
    cbn. now rewrite E.
  - intros Ew. destruct (d_reader (dm w)) as [| | | |r] eqn:E; cbn in *; try lia.
    + exfalso. edestruct (reader_display_step w) as [w' Hw']; [exact Ew | eapply reader_call; eassumption | |exact (Hstuck w' Hw')].
      cbn. now rewrite E.
    + split; [reflexivity|]. pose proof (di_notEmpty _ Hm).
      destruct (Z.eq_dec (d_notEmpty (dm w)) 0); [assumption|]. exfalso.
      edestruct (reader_display_step w) as [w' Hw']; [exact Ew | eapply reader_token; [exact E | lia] | |exact (Hstuck w' Hw')].
      cbn. now rewrite E.
    + exfalso. edestruct (reader_display_step w) as [w' Hw']; [exact Ew | eapply reader_enter; [exact E | lia] | |exact (Hstuck w' Hw')].
      cbn. now rewrite E.
Qed.

(** ** The command monitors *)

Section Getting.
Context {St : Type} `{More : MonitorMore St}.

(** A task in [Get] that can take no step but to find nothing: no command waits for
    it, and [Put] is not held up. *)
Lemma get_stuck (m : @mon St) :
  mon_inv m ->
  (forall m', (forall c sig, m_get m <> GSig c sig) -> get_step m m' -> found_nothing m' = true) ->
  (forall c sig, m_get m <> GSig c sig) ->
  notEmpty m = 0 /\ get_holds (m_status m) (m_get m) = 0.
Proof using Type.
  intros Hi Hs Hn. pose proof (mi_empty m Hi). pose proof (mi_pc m Hi) as Hpc.
  assert (Hz : (m_get m = GIdle /\ get_wait (m_status m) = Try) \/ m_get m = GWait \/ m_get m = GTimed -> notEmpty m = 0).
  { intros Hg. destruct (Z.eq_dec (notEmpty m) 0) as [|Hne]; [assumption|]. exfalso.
    assert (exists m', get_step m m' /\ found_nothing m' = false) as (m' & Hst & Hf).
    { destruct Hg as [[E W]|E]; eexists; split; [apply (get_try_yes m E W); lia | reflexivity
                                               | apply (get_acquire m E); lia | reflexivity]. }
    rewrite (Hs m' Hn Hst) in Hf. discriminate. }
  destruct (m_get m) as [| | |got|c sig] eqn:E.
  - destruct (get_wait (m_status m)) eqn:W.
    + exfalso. specialize (Hs _ Hn (get_call_wait m E W)). discriminate Hs.
    + split; [apply Hz; auto|]. cbn. now rewrite retains_not by congruence.
    + exfalso. specialize (Hs _ Hn (get_call_timed m E W)). discriminate Hs.
    + exfalso. specialize (Hs _ Hn (get_call_full m E W)). discriminate Hs.
  - split; [apply Hz; auto|]. cbn in *. now rewrite retains_not by congruence.
  - split; [apply Hz; auto|]. cbn in *. now rewrite retains_not by congruence.
  - exfalso. destruct (get_done (m_status m) got (m_buffer m)) as [[st' c] sig] eqn:D.
    specialize (Hs _ Hn (get_body got st' c sig m E D)). discriminate Hs.
  - exfalso. exact (Hn c sig eq_refl).
Qed.

(** Then the slot is empty, but for a command that [Put] is about to signal. *)
Lemma slot_empty (m : @mon St) :
  mon_inv m -> m_put m = PIdle -> notEmpty m = 0 -> get_holds (m_status m) (m_get m) = 0 -> slot_full m = false.
Proof.
  intros Hi Hp He Hg. unfold slot_full. rewrite He, Hp. cbn. unfold get_holds in Hg.
  destruct (m_get m) as [| | |[]|? []], (retains (m_status m)); (reflexivity || lia).
Qed.
End Getting.

(** ** A state without progress *)

Section Stuck.
Context (w : wrist) (Hi : winv w) (Hstuck : stuck w).

(** Outside [Put] the reading task has nothing left to do. *)
Lemma stuck_acts : put_idle w -> acts w = [].
Proof using Hstuck.
  intros Hp. destruct (acts w) as [|[c|c| |] a] eqn:E; [reflexivity|..]; exfalso.
  - exact (Hstuck _ (w_read _ _ (rd_call_clock w c a Hp E))).
  - exact (Hstuck _ (w_read _ _ (rd_call_chrono w c a Hp E))).
  - exact (Hstuck _ (w_read _ _ (rd_signal w a Hp E))).
  - exact (Hstuck _ (w_read _ _ (rd_sleep w a Hp E))).
Qed.

Lemma stuck_key : put_idle w -> reading w = false.
Proof using Hi Hstuck.
  intros Hp. destruct (reading w) eqn:Er; [|reflexivity]. exfalso. pose proof (wi_F w Hi Er) as HF.
  destruct (keys w) as [|k ks] eqn:Ek; [inversion HF|].
  destruct (ClockChrono_Read k (rdv w)) as [[v a] g] eqn:E.
  exact (Hstuck _ (w_read _ _ (rd_key w k ks v a g Er (stuck_acts Hp) Hp Ek E))).
Qed.

(** The tasks have started. *)
Lemma stuck_sync : waits (ck w) + waits (cr w) <= sync_sem w.
Proof using Hi Hstuck.
  destruct (wi_sync w Hi) as [[_ Hw]|(Hr & _ & Hp & _)]; [|pose proof (stuck_key Hp); congruence].
  pose proof (signals_pos (acts w)). destruct (Z.eq_dec (signals (acts w)) 0) as [|Hne]; [lia|].
  destruct (wi_sig w Hi ltac:(lia)) as [Hp _]. rewrite (stuck_acts Hp) in Hne. contradiction.
Qed.

Lemma stuck_ck : ck w = T_get \/ ck w = T_done.
Proof using Hi Hstuck.
  pose proof stuck_sync as Hs. destruct (display_moves w Hi Hstuck) as (Hc & _ & _).
  pose proof (dp_ck _ _ _ _ (wi_disp w Hi)) as Hd. pose proof (ti_undef _ _ _ _ _ (wi_ck w Hi)) as Hu.
  assert (0 <= waits (cr w)) by (destruct (cr w); cbn; lia).
  destruct (ck w) as [| |ends| |] eqn:E; auto; cbn in *; exfalso.
  - exact (Hstuck _ (w_clock _ _ _ (ck_sync w E ltac:(lia)))).
  - contradiction.
  - contradiction.
Qed.

Lemma stuck_cr : cr w = T_get \/ cr w = T_done.
Proof using Hi Hstuck.
  pose proof stuck_sync as Hs. destruct (display_moves w Hi Hstuck) as (_ & Hc & _).
  pose proof (dp_cr _ _ _ _ (wi_disp w Hi)) as Hd. pose proof (ti_undef _ _ _ _ _ (wi_cr w Hi)) as Hu.
  assert (0 <= waits (ck w)) by (destruct (ck w); cbn; lia).
  destruct (cr w) as [| |ends| |] eqn:E; auto; cbn in *; exfalso.
  - destruct (after_turn (ClockChrono_Chrono ch_R (crv w)) (crv w)) as [[pc v] o] eqn:Et.
    exact (Hstuck _ (w_chrono _ _ _ (cr_sync w pc v o E ltac:(lia) Et))).
  - contradiction.
  - contradiction.
Qed.

(** The getting tasks find nothing in their monitors. *)
Lemma stuck_clock_get : ck w = T_get ->
  (forall c sig, m_get (mc w) <> GSig c sig) /\ notEmpty (mc w) = 0 /\ get_holds (m_status (mc w)) (m_get (mc w)) = 0.
Proof using Hi Hstuck.
  intros E. assert (Hn : forall c sig, m_get (mc w) <> GSig c sig).
  { intros c sig Eg. destruct (after_turn (ClockChrono_Clock c (ckv w)) (ckv w)) as [[pc v] o] eqn:Et.
    exact (Hstuck _ (w_clock _ _ _ (ck_return w c sig pc v o E Eg Et))). }
  split; [exact Hn|]. apply get_stuck; [apply (wi_ck w Hi) | | exact Hn].
  intros m _ Hs. destruct (found_nothing m) eqn:Ef; [reflexivity|]. exfalso.
  pose proof (ck_get w m E Hn Hs) as Hst. rewrite Ef in Hst. exact (Hstuck _ (w_clock _ _ _ Hst)).
Qed.

Lemma stuck_chrono_get : cr w = T_get ->
  (forall c sig, m_get (mr w) <> GSig c sig) /\ notEmpty (mr w) = 0 /\ get_holds (m_status (mr w)) (m_get (mr w)) = 0.
Proof using Hi Hstuck.
  intros E. assert (Hn : forall c sig, m_get (mr w) <> GSig c sig).
  { intros c sig Eg. destruct (after_turn (ClockChrono_Chrono c (crv w)) (crv w)) as [[pc v] o] eqn:Et.
    exact (Hstuck _ (w_chrono _ _ _ (cr_return w c sig pc v o E Eg Et))). }
  split; [exact Hn|]. apply get_stuck; [apply (wi_cr w Hi) | | exact Hn].
  intros m _ Hs. destruct (found_nothing m) eqn:Ef; [reflexivity|]. exfalso.
  pose proof (cr_get w m E Hn Hs) as Hst. rewrite Ef in Hst. exact (Hstuck _ (w_chrono _ _ _ Hst)).
Qed.
End Stuck.

(** [Put] is not held up: by a task that gets, for there is no command in the
    buffer; nor by one that has ended, for nothing is put after F. *)
Lemma put_not_blocked {St} `{MonitorMore St} cmds (m : @mon St) pc l going :
  task_inv cmds m pc (put_future (m_put m) ++ l) going -> pc = T_get \/ pc = T_done ->
  (pc = T_get -> notEmpty m = 0 /\ get_holds (m_status m) (m_get m) = 0) ->
  m_put m = PIdle \/ exists m', m_put m <> PIdle /\ put_step m m'.
Proof.
  intros [Hm _ Hf _ Hfin _ _] Hpc Hg. destruct (m_put m) as [|c|c|full] eqn:E; [auto|..]; right.
  - eexists. split; [discriminate|]. eapply put_acquire; [exact E|].
    pose proof (mi_full m Hm). destruct (Z.eq_dec (notFull m) 0) as [Hz|]; [exfalso|lia].
    destruct Hpc as [->| ->].
    + destruct (Hg eq_refl) as [He Hh]. pose proof (mi_token m Hm) as Ht. rewrite E in Ht. cbn in Ht. lia.
    + assert (Hin : ch_F ∈ m_taken m) by (apply Hfin; auto).
      assert (Ha : ch_F ∈ m_accepted m) by (rewrite (mi_fifo m Hm); apply elem_of_app; auto).
      destruct going; [apply Hf, elem_of_app; auto|]. destruct Hf as [[[=] _]|[_ Hn]]. contradiction.
  - destruct (put_test (m_status m) c) eqn:Et; eexists; (split; [discriminate|]);
      [eapply put_accept | eapply put_refuse]; eassumption.
  - eexists. split; [discriminate|]. eapply put_signal; exact E.
Qed.

(** F reaches a task that gets. *)
Lemma F_reaches {St} `{MonitorMore St} cmds (m : @mon St) :
  task_inv cmds m T_get [] false -> m_put m = PIdle -> notEmpty m = 0 ->
  get_holds (m_status m) (m_get m) = 0 -> (forall c sig, m_get m <> GSig c sig) -> False.
Proof.
  intros [Hm _ Hf _ Hfin _ _] Hp He Hg Hn. destruct Hf as [[_ Ha]|[[=] _]].
  pose proof (mi_fifo m Hm) as Hfi. rewrite (slot_empty m Hm Hp He Hg), app_nil_r in Hfi.
  rewrite Hfi in Ha. apply Hfin in Ha as [|[|[sig Hs]]]; [discriminate | discriminate | exact (Hn _ _ Hs)].
Qed.

Lemma stuck_ended w : winv w -> stuck w -> all_ended w.
Proof.
  intros Hi Hstuck. pose proof (stuck_ck w Hi Hstuck) as Hc. pose proof (stuck_cr w Hi Hstuck) as Hr.
  assert (Hp : put_idle w).
  { split.
    - edestruct (put_not_blocked _ _ _ _ _ (wi_ck w Hi) Hc) as [|(m' & Hn & Hs)]; [|assumption|].
      + intros E. apply (stuck_clock_get w Hi Hstuck E).
      + exfalso. exact (Hstuck _ (w_read _ _ (rd_put_clock w m' Hn Hs))).
    - edestruct (put_not_blocked _ _ _ _ _ (wi_cr w Hi) Hr) as [|(m' & Hn & Hs)]; [|assumption|].
      + intros E. apply (stuck_chrono_get w Hi Hstuck E).
      + exfalso. exact (Hstuck _ (w_read _ _ (rd_put_chrono w m' Hn Hs))). }
  pose proof (stuck_acts w Hstuck Hp) as Ha. pose proof (stuck_key w Hi Hstuck Hp) as Hk.
  pose proof (wi_ck w Hi) as Tc. pose proof (wi_cr w Hi) as Tr. pose proof Hp as [Hp1 Hp2].
  rewrite Ha, Hk, Hp1 in Tc. rewrite Ha, Hk, Hp2 in Tr. cbn in Tc, Tr.
  assert (Ec : ck w = T_done).
  { destruct Hc as [E|E]; [exfalso|exact E]. rewrite E in Tc. destruct (stuck_clock_get w Hi Hstuck E) as (Hn & He & Hg).
    exact (F_reaches _ _ Tc Hp1 He Hg Hn). }
  assert (Er : cr w = T_done).
  { destruct Hr as [E|E]; [exfalso|exact E]. rewrite E in Tr. destruct (stuck_chrono_get w Hi Hstuck E) as (Hn & He & Hg).
    exact (F_reaches _ _ Tr Hp2 He Hg Hn). }
  assert (Ew : writing w = false).
  { destruct (writing w) eqn:Ew; [exfalso|reflexivity].
    destruct (display_moves w Hi Hstuck) as (Hdc & Hdr & Hrd). destruct (Hrd Ew) as [Hrd1 Hrd2].
    pose proof (wi_disp w Hi) as Hd. rewrite Ec, Ew in Hd.
    pose proof (di_count _ (dp_inv _ _ _ _ Hd)) as Hcount. rewrite Hdc, Hdr, Hrd1, Hrd2 in Hcount. cbn in Hcount.
    destruct (dp_over _ _ _ _ Hd eq_refl) as [[=]|[Hfull|(dst & c & Hro & _)]]; [|congruence].
    rewrite Hfull in Hcount. destruct (TimesBufferstatus (d_vars (dm w))); cbn in Hcount; lia. }
  repeat split; assumption.
Qed.

(** ** The whole program *)

Lemma keyboard_ends typed : 102 ∈ typed -> Exists (fun k => toupper k = ch_F) (keyboard typed).
Proof.
  induction typed as [|k typed IH]; [now rewrite elem_of_nil|]. rewrite elem_of_cons. intros Hin. cbn.
  destruct (Z.eqb_spec k 102) as [->|Hne].
  - right. right. left. reflexivity.
  - right. apply IH. destruct Hin; [congruence | assumption].
Qed.

(** C14: the wrist clock ends when it is told to.  The keyboard sends k and the screen
    d, then the keys that are typed up to f, and r, c and f.  In every state of every
    interleaving of the reading task, the clock, the chronometer and the writing task:
    no task used a variable that was not assigned, and the writing task has not ended
    before the clock put the mark that ends it.  From any of these states, as long as
    [Get]s that find nothing are left aside, only so many steps are possible as there
    is work left, and when no more are possible all four tasks have ended: none of them
    waits for ever. *)
Theorem wrist_clock_shuts_down first typed w :
  first = [107; 100] \/ first = [100; 107] -> 102 ∈ typed ->
  rtc any_step (wrist_start (first ++ keyboard typed)) w ->
  ck w <> T_undef /\ cr w <> T_undef /\ (writing w = false -> over (ck w) (dm w) = true) /\
  (forall n w', nsteps progress n w w' -> Z.of_nat n <= work w) /\
  (forall w', rtc progress w w' -> stuck w' -> all_ended w').
Proof.
  intros Hf Ht Hr.
  assert (Hi : winv w).
  { eapply winv_reachable; [|exact Hr]. apply keyboard_ends in Ht.
    destruct Hf as [-> | ->]; apply winv_start; auto. }
  split; [apply (wi_ck w Hi)|]. split; [apply (wi_cr w Hi)|]. split; [apply (wi_disp w Hi)|]. split.
  - intros n w'. now apply progress_bounded.
  - intros w' Hp. apply stuck_ended. eapply winv_reachable; [exact Hi|].
    eapply rtc_subrel; [|exact Hp]. intros a b Hab. exists false. exact Hab.
Qed.

Lemma wrist_clock_shuts_down_witness :
  exists w', nsteps progress 1 (wrist_start [107; 100; 114; 99; 102]) w' /\
    1 <= work (wrist_start [107; 100; 114; 99; 102]) /\ work (wrist_start [107; 100; 114; 99; 102]) = 332.
Proof.
  destruct (wrist_clock_shuts_down [107; 100] [102] (wrist_start [107; 100; 114; 99; 102]))
    as (_ & _ & _ & Hn & _); [now left | now left | apply rtc_refl |].
  eexists.
  assert (Hs : nsteps progress 1 (wrist_start [107; 100; 114; 99; 102])
    (set_read [100; 114; 99; 102] (RDV 75 0 false) [] true (wrist_start [107; 100; 114; 99; 102]))).
  { eapply nsteps_l; [|apply nsteps_O]. apply w_read. eapply rd_key; try reflexivity. split; reflexivity. }
  split; [exact Hs|]. split; [exact (Hn _ _ Hs) | reflexivity].
Defined.

(** ** Keys typed too early *)

(** The state in which the reading task waits for the buffer of the clock, which
    waits for the key d. *)
Definition hung (ks : list Z) : wrist :=
  WR (100 :: ks) (RDV ch_K 0 false) [] true 0
     (MON CommandClock.stopped ch_R 1 0 (PWait ch_H) GIdle [ch_R] [] []) T_sync
     (CKV MenageHmsh_Initialise None (replicate 12 0))
     start T_sync (CRV None false None None false (replicate 12 0))
     (DMON (DSP empty empty [] []) 0 1 WIdle WIdle RWaitE [] []) true.

Ltac key_step :=
  eapply rtc_l; [exists false; apply w_read; eapply rd_key; [reflexivity | reflexivity | split; reflexivity | reflexivity | reflexivity]|]; cbn.
Ltac put_call_step :=
  eapply rtc_l; [exists false; apply w_read; eapply rd_call_clock; [split; reflexivity | reflexivity]|]; cbn.
Ltac put_steps :=
  eapply rtc_l; [exists false; apply w_read; eapply rd_put_clock; [discriminate | eapply put_acquire; [reflexivity | cbn; lia]]|]; cbn;
  eapply rtc_l; [exists false; apply w_read; eapply rd_put_clock; [discriminate | eapply put_accept; reflexivity]|]; cbn.

(** r and h typed after the k of the keyboard and before the d of the screen: the
    reading task waits in [CommandClock_Put], so that it never reads d and the clock
    never starts. *)
Lemma early_keys_hang ks :
  rtc any_step (wrist_start (107 :: 114 :: 104 :: 100 :: ks)) (hung ks) /\ forall b w', ~ wstep (hung ks) b w'.
Proof.
  split.
  - key_step; key_step. put_call_step. put_steps.
    eapply rtc_l; [exists false; apply w_read; eapply rd_put_clock; [discriminate | eapply put_signal; reflexivity]|].
    cbn. key_step. put_call_step.
    eapply rtc_l; [exists false; apply w_write; eapply wr_get; [reflexivity | eapply reader_call; reflexivity | discriminate]|].
    apply rtc_refl.
  - intros b w' Hs. destruct Hs as [w' Hs|b w' Hs|b w' Hs|w' Hs].
    + destruct Hs as [k ks' v a g _ _ [Hp _]| a [Hp _]|a [Hp _]|c a [Hp _]|c a [Hp _]|m _ Hs|m Hp _]; try discriminate Hp.
      * inversion Hs; subst; cbn in *; try discriminate; lia.
      * apply Hp. reflexivity.
    + destruct Hs as [_ P|m E|c sig pc v o E|ends d E]; try discriminate E. cbn in P. lia.
    + destruct Hs as [pc v o _ P|m E|c sig pc v o E|ends d E]; try discriminate E. cbn in P. lia.
    + destruct Hs as [d _ Hs Hc]. inversion Hs; subst; cbn in *; try contradiction; try discriminate; lia.
Qed.
