(* ===== verification/Timerbench.v ===== *)
(** * The timer latency benchmark driver (user/benchrtdm/timerbench.c)

    A context measures the latency of a periodic task or timer handler:
    [eval_inner_loop] accounts one sample and computes the next release date,
    [eval_outer_loop] closes a measuring period, and the open/close/ioctl
    handlers manage the resources.  [long] has 32 bits; the build is without
    [CONFIG_IPIPE_TRACE].  The RTDM services are modelled by what the driver
    holds of them: live tasks, timers and events. *)

From stdpp Require Import base tactics numbers list.
From S2P Require Import Prelude.
#[local] Open Scope cmonad_scope.

(** ** Data *)

Definition RTTST_TMBENCH_INVALID : Z := -1.
Definition RTTST_TMBENCH_TASK : Z := 0.
Definition RTTST_TMBENCH_HANDLER : Z := 1.
Definition TM_EFAULT : Z := 14.
Definition TM_ENOMEM : Z := 12.
Definition TM_EINVAL : Z := 22.
Definition TM_ENOTTY : Z := 25.
Definition TM_ENOSYS : Z := 38.

(** [struct rttst_bench_res] *)
Record rttst_bench_res := BR {
  br_avg : Z; br_min : Z; br_max : Z; br_overruns : Z; br_test_loops : Z
}.

(** The block that holds the three histograms. *)
Record histograms := HIST { h_min : list Z; h_max : list Z; h_avg : list Z }.

(** [struct rttst_tmbench_config] *)
Record rttst_tmbench_config := TCFG {
  c_mode : Z; c_priority : Z; c_period : Z; c_warmup_loops : Z;
  c_histogram_size : Z; c_histogram_bucketsize : Z; c_freeze_max : Z
}.

(** [struct rt_tmbench_context]; [t_histogram] is the block the histogram
    pointers point to, [None] when they are not valid. *)
Record context := CTX {
  t_mode : Z; t_period : Z; t_freeze_max : Z; t_warmup_loops : Z; t_samples_per_sec : Z;
  t_histogram : option histograms; t_histogram_size : Z; t_bucketsize : Z;
  t_warmup : bool; t_start_time : Z; t_date : Z;
  t_curr : rttst_bench_res; t_last : rttst_bench_res; t_overall : rttst_bench_res;
  t_mutex : bool
}.

(** The context and what exists outside it: blocks of memory, tasks, timers and
    events created and not destroyed, and pulses of [result_event]. *)
Record bench := BENCH {
  b_ctx : context; k_blocks : Z; k_tasks : Z; k_timers : Z; k_events : Z; k_pulses : Z
}.

Inductive tm_fault :=
| F_DIVIDE     (* division by zero *)
| F_HISTOGRAM  (* access outside a histogram *)
| F_FREE       (* kfree of a block that is not live *)
| F_MUTEX      (* misuse of nrt_mutex *)
| F_LOOP.      (* a loop that does not end *)

Abbreviation tm := (M bench tm_fault).

(** ** Field updates *)

Definition with_ctx (f : context -> context) (b : bench) : bench :=
  BENCH (f (b_ctx b)) (k_blocks b) (k_tasks b) (k_timers b) (k_events b) (k_pulses b).
Definition with_res (blocks tasks timers events pulses : Z) (b : bench) : bench :=
  BENCH (b_ctx b) (k_blocks b + blocks) (k_tasks b + tasks) (k_timers b + timers)
        (k_events b + events) (k_pulses b + pulses).

Definition set_stats (curr last overall : rttst_bench_res) (c : context) : context :=
  CTX (t_mode c) (t_period c) (t_freeze_max c) (t_warmup_loops c) (t_samples_per_sec c)
      (t_histogram c) (t_histogram_size c) (t_bucketsize c) (t_warmup c) (t_start_time c)
      (t_date c) curr last overall (t_mutex c).
Definition set_date (d : Z) (c : context) : context :=
  CTX (t_mode c) (t_period c) (t_freeze_max c) (t_warmup_loops c) (t_samples_per_sec c)
      (t_histogram c) (t_histogram_size c) (t_bucketsize c) (t_warmup c) (t_start_time c)
      d (t_curr c) (t_last c) (t_overall c) (t_mutex c).
Definition set_histogram (h : option histograms) (c : context) : context :=
  CTX (t_mode c) (t_period c) (t_freeze_max c) (t_warmup_loops c) (t_samples_per_sec c)
      h (t_histogram_size c) (t_bucketsize c) (t_warmup c) (t_start_time c)
      (t_date c) (t_curr c) (t_last c) (t_overall c) (t_mutex c).
Definition set_warmup (w : bool) (c : context) : context :=
  CTX (t_mode c) (t_period c) (t_freeze_max c) (t_warmup_loops c) (t_samples_per_sec c)
      (t_histogram c) (t_histogram_size c) (t_bucketsize c) w (t_start_time c)
      (t_date c) (t_curr c) (t_last c) (t_overall c) (t_mutex c).
Definition set_mode (m : Z) (c : context) : context :=
  CTX m (t_period c) (t_freeze_max c) (t_warmup_loops c) (t_samples_per_sec c)
      (t_histogram c) (t_histogram_size c) (t_bucketsize c) (t_warmup c) (t_start_time c)
      (t_date c) (t_curr c) (t_last c) (t_overall c) (t_mutex c).
Definition set_mutex (held : bool) (c : context) : context :=
  CTX (t_mode c) (t_period c) (t_freeze_max c) (t_warmup_loops c) (t_samples_per_sec c)
      (t_histogram c) (t_histogram_size c) (t_bucketsize c) (t_warmup c) (t_start_time c)
      (t_date c) (t_curr c) (t_last c) (t_overall c) held.

(** ** Samples *)

(** The index of [add_histogram]: [long] arithmetic. *)
Definition histogram_index (addval bucketsize histogram_size : Z) : Z :=
  let inabs := Z.quot (if 0 <=? addval then addval else i32 (- addval)) bucketsize in
  if inabs <? histogram_size then inabs else histogram_size - 1.

(** [add_histogram] on one of the histograms. *)
Definition add_histogram (bucketsize histogram_size : Z) (histogram : list Z) (addval : Z)
    : list Z + tm_fault :=
  if bucketsize =? 0 then inr F_DIVIDE
  else
    let k := histogram_index addval bucketsize histogram_size in
    if k <? 0 then inr F_HISTOGRAM
    else match histogram !! Z.to_nat k with
         | Some n => inl (<[Z.to_nat k := i32 (n + 1)]> histogram)
         | None => inr F_HISTOGRAM
         end.

(** The call of [add_histogram] on the histogram [get] selects. *)
Definition record_sample (sel : histograms -> list Z) (upd : list Z -> histograms -> histograms)
    (addval : Z) : tm unit :=
  let! b := get in
  let c := b_ctx b in
  match t_histogram c with
  | None => fault F_HISTOGRAM
  | Some h =>
      match add_histogram (t_bucketsize c) (t_histogram_size c) (sel h) addval with
      | inl l => modify (with_ctx (set_histogram (Some (upd l h))))
      | inr f => fault f
      end
  end.

Definition upd_min (l : list Z) (h : histograms) : histograms := HIST l (h_max h) (h_avg h).
Definition upd_max (l : list Z) (h : histograms) : histograms := HIST (h_min h) l (h_avg h).
Definition upd_avg (l : list Z) (h : histograms) : histograms := HIST (h_min h) (h_max h) l.

(** [slldiv]: [d] is an [unsigned]. *)
Definition slldiv (s d : Z) : Z + tm_fault :=
  if u32 d =? 0 then inr F_DIVIDE
  else inl (if 0 <=? s then s / u32 d else - ((- s) / u32 d)).

(** The [while] of [eval_inner_loop]: overruns and next date. *)
Fixpoint overrun_loop (fuel : nat) (dt period overruns date : Z) : option (Z * Z) :=
  if (0 <? dt) && (period <? u32 dt) then
    match fuel with
    | O => None
    | S fuel' =>
        overrun_loop fuel' (i32 (dt - period)) period (i32 (overruns + 1)) (u64 (date + period))
    end
  else Some (overruns, date).

(** [eval_inner_loop] *)
Definition eval_inner_loop (dt : Z) : tm unit :=
  modify (with_ctx (fun c =>
    let cu := t_curr c in
    set_stats (BR (i64 (br_avg cu + dt))
                  (if dt <? br_min cu then dt else br_min cu)
                  (if br_max cu <? dt then dt else br_max cu)
                  (br_overruns cu) (br_test_loops cu)) (t_last c) (t_overall c) c)) ;;
  modify (with_ctx (fun c => set_date (u64 (t_date c + t_period c)) c)) ;;
  let! b := get in
  (if negb (t_warmup (b_ctx b)) && negb (t_histogram_size (b_ctx b) =? 0)
   then record_sample h_avg upd_avg dt else ret tt) ;;
  let! b := get in
  let c := b_ctx b in
  match overrun_loop (Z.to_nat dt) dt (t_period c) (br_overruns (t_curr c)) (t_date c) with
  | None => fault F_LOOP
  | Some (ov, date) =>
      modify (with_ctx (fun c =>
        let cu := t_curr c in
        set_date date
          (set_stats (BR (br_avg cu) (br_min cu) (br_max cu) ov (br_test_loops cu))
                     (t_last c) (t_overall c) c)))
  end.

(** The members of [result] [eval_outer_loop] computes from [curr], once the
    average [avg] is known. *)
Definition close_period (avg : Z) (c : context) : context :=
  let cu := t_curr c in let la := t_last c in let ov := t_overall c in
  set_stats cu
    (BR avg (br_min cu) (br_max cu) (br_overruns la) (br_test_loops la))
    (BR (i64 (br_avg ov + avg))
        (if br_min cu <? br_min ov then br_min cu else br_min ov)
        (if br_max ov <? br_max cu then br_max cu else br_max ov)
        (i32 (br_overruns ov + br_overruns cu)) (br_test_loops ov)) c.

(** The end of [eval_outer_loop]: warm-up, reset of [curr], loop counter. *)
Definition next_period (c : context) : context :=
  let ov := t_overall c in
  let ended := t_warmup c && (br_test_loops ov =? t_warmup_loops c) in
  let loops := if ended then 0 else br_test_loops ov in
  set_stats (BR 0 10000000 (-10000000) 0 (br_test_loops (t_curr c))) (t_last c)
    (BR (br_avg ov) (br_min ov) (br_max ov) (br_overruns ov) (i32 (loops + 1)))
    (set_warmup (if ended then false else t_warmup c) c).

(** [eval_outer_loop] *)
Definition eval_outer_loop : tm unit :=
  let! b := get in
  (if negb (t_warmup (b_ctx b)) then
     (if negb (t_histogram_size (b_ctx b) =? 0) then
        record_sample h_max upd_max (br_max (t_curr (b_ctx b))) ;;
        record_sample h_min upd_min (br_min (t_curr (b_ctx b)))
      else ret tt) ;;
     match slldiv (br_avg (t_curr (b_ctx b))) (t_samples_per_sec (b_ctx b)) with
     | inr f => fault f
     | inl avg => modify (with_ctx (close_period (i64 avg))) ;; modify (with_res 0 0 0 0 1)
     end
   else ret tt) ;;
  modify (with_ctx next_period).

(** ** The two ways to run *)

(** [timer_task_proc]: the [for] over the samples of a period, for the latencies
    [dts] the task observes; it ends early when a sleep fails. *)
Fixpoint inner_loops (dts : list Z) : tm unit :=
  match dts with
  | [] => ret tt
  | dt :: dts' => eval_inner_loop dt ;; inner_loops dts'
  end.

(** One turn of the [while] of [timer_task_proc]. *)
Definition timer_task_turn (dts : list Z) : tm unit := inner_loops dts ;; eval_outer_loop.

(** One turn of the [do .. while] of [timer_proc]: [now] and [later] are the two
    readings of the clock. *)
Definition timer_proc_turn (now later : Z) : tm unit :=
  let! b := get in
  eval_inner_loop (i32 (now - t_date (b_ctx b))) ;;
  modify (with_ctx (fun c =>
    CTX (t_mode c) (t_period c) (t_freeze_max c) (t_warmup_loops c) (t_samples_per_sec c)
        (t_histogram c) (t_histogram_size c) (t_bucketsize c) (t_warmup c) later
        (t_date c)
        (BR (br_avg (t_curr c)) (br_min (t_curr c)) (br_max (t_curr c)) (br_overruns (t_curr c))
            (i32 (br_test_loops (t_curr c) + 1)))
        (t_last c) (t_overall c) (t_mutex c))) ;;
  let! b := get in
  if t_samples_per_sec (b_ctx b) <=? br_test_loops (t_curr (b_ctx b)) then
    modify (with_ctx (fun c =>
      set_stats (BR (br_avg (t_curr c)) (br_min (t_curr c)) (br_max (t_curr c))
                    (br_overruns (t_curr c)) 0) (t_last c) (t_overall c) c)) ;;
    eval_outer_loop
  else ret tt.

(** ** Handlers *)

Definition mutex_down : tm unit := fun b =>
  if t_mutex (b_ctx b) then Fault F_MUTEX else OK tt (with_ctx (set_mutex true) b).
Definition mutex_up : tm unit := fun b =>
  if t_mutex (b_ctx b) then OK tt (with_ctx (set_mutex false) b) else Fault F_MUTEX.

(** [kfree(ctx->histogram_min)] *)
Definition kfree_histogram : tm unit := fun b =>
  match t_histogram (b_ctx b) with
  | Some _ => OK tt (with_res (-1) 0 0 0 0 (with_ctx (set_histogram None) b))
  | None => Fault F_FREE
  end.

(** [rtdm_task_destroy] or [rtdm_timer_destroy], then [rtdm_event_destroy]. *)
Definition destroy_runner : tm unit :=
  let! b := get in
  (if t_mode (b_ctx b) =? RTTST_TMBENCH_TASK then modify (with_res 0 (-1) 0 0 0)
   else if t_mode (b_ctx b) =? RTTST_TMBENCH_HANDLER then modify (with_res 0 0 (-1) 0 0)
   else ret tt) ;;
  modify (with_res 0 0 0 (-1) 0).

(** [rt_tmbench_open]: the rest of the context is as the allocator left it. *)
Definition rt_tmbench_open : tm Z :=
  modify (with_ctx (fun c => set_mutex false (set_mode RTTST_TMBENCH_INVALID c))) ;;
  ret 0.

(** [rt_tmbench_close] *)
Definition rt_tmbench_close : tm Z :=
  mutex_down ;;
  let! b := get in
  (if 0 <=? t_mode (b_ctx b) then
     destroy_runner ;;
     let! b := get in
     (if negb (t_histogram_size (b_ctx b) =? 0) then kfree_histogram else ret tt) ;;
     modify (with_ctx (fun c =>
       CTX RTTST_TMBENCH_INVALID (t_period c) (t_freeze_max c) (t_warmup_loops c)
           (t_samples_per_sec c) (t_histogram c) 0 (t_bucketsize c) (t_warmup c)
           (t_start_time c) (t_date c) (t_curr c) (t_last c) (t_overall c) (t_mutex c)))
   else ret tt) ;;
  mutex_up ;;
  ret 0.

(** What [rt_tmbench_start] finds around it: the copy of the configuration
    succeeds; the allocation succeeds; the context is closing; the results of
    [rtdm_task_init] and [rtdm_timer_start]; the clock. *)
Record start_env := SENV {
  se_copy : bool; se_alloc : bool; se_closing : bool;
  se_task_err : Z; se_timer_err : Z; se_now : Z
}.

(** The assignments of [rt_tmbench_start] from the configuration:
    [1000000000 / ctx->period] in [unsigned long]. *)
Definition configure (config : rttst_tmbench_config) (c : context) : context :=
  let period := u32 (c_period config) in
  CTX (t_mode c) period (c_freeze_max config) (c_warmup_loops config) (1000000000 / period)
      (t_histogram c) (c_histogram_size config) (t_bucketsize c) (t_warmup c)
      (t_start_time c) (t_date c) (t_curr c) (t_last c) (t_overall c) (t_mutex c).

(** The block just allocated, cleared, and the size of its buckets. *)
Definition new_histograms (config : rttst_tmbench_config) (c : context) : context :=
  let z := replicate (Z.to_nat (c_histogram_size config)) 0 in
  CTX (t_mode c) (t_period c) (t_freeze_max c) (t_warmup_loops c)
      (t_samples_per_sec c) (Some (HIST z z z)) (t_histogram_size c)
      (c_histogram_bucketsize config) (t_warmup c) (t_start_time c) (t_date c)
      (t_curr c) (t_last c) (t_overall c) (t_mutex c).

(** The results and the mode before a benchmark starts. *)
Definition reset_results (c : context) : context :=
  set_mode RTTST_TMBENCH_INVALID
    (set_warmup true
      (set_stats (BR 0 10000000 (-10000000) 0 (br_test_loops (t_curr c))) (t_last c)
                 (BR 0 10000000 (-10000000) 0 1) c)).

(** [ctx->curr.test_loops = 0] *)
Definition reset_loops (c : context) : context :=
  set_stats (BR (br_avg (t_curr c)) (br_min (t_curr c)) (br_max (t_curr c))
                (br_overruns (t_curr c)) 0) (t_last c) (t_overall c) c.

(** Handler mode: the first event is one millisecond from [now]. *)
Definition arm_timer (now : Z) (c : context) : context :=
  CTX RTTST_TMBENCH_HANDLER (t_period c) (t_freeze_max c) (t_warmup_loops c)
      (t_samples_per_sec c) (t_histogram c) (t_histogram_size c) (t_bucketsize c)
      (t_warmup c) now (u64 (now + 1000000)) (t_curr c) (t_last c)
      (t_overall c) (t_mutex c).

(** The end of [rt_tmbench_start]: a task or a timer. *)
Definition start_runner (e : start_env) (config : rttst_tmbench_config) : tm Z :=
  if c_mode config =? RTTST_TMBENCH_TASK then
    if se_closing e then ret 0
    else if se_task_err e =? 0 then
      modify (with_res 0 1 0 0 0) ;;
      modify (with_ctx (set_mode RTTST_TMBENCH_TASK)) ;;
      ret 0
    else ret (se_task_err e)
  else
    modify (with_res 0 0 1 0 0) ;;
    modify (with_ctx reset_loops) ;;
    if se_closing e then ret 0
    else
      modify (with_ctx (arm_timer (se_now e))) ;;
      ret (se_timer_err e).

(** [rt_tmbench_start] *)
Definition rt_tmbench_start (e : start_env) (config : rttst_tmbench_config) : tm Z :=
  if negb (se_copy e) then ret (- TM_EFAULT)
  else
    mutex_down ;;
    if u32 (c_period config) =? 0 then fault F_DIVIDE
    else
      modify (with_ctx (configure config)) ;;
      if (0 <? c_histogram_size config) && negb (se_alloc e) then
        modify (with_ctx (set_histogram None)) ;; mutex_up ;; ret (- TM_ENOMEM)
      else
        (if 0 <? c_histogram_size config then
           modify (with_res 1 0 0 0 0) ;;
           modify (with_ctx (new_histograms config))
         else ret tt) ;;
        modify (with_ctx reset_results) ;;
        modify (with_res 0 0 0 1 0) ;;
        let! err := start_runner e config in
        mutex_up ;;
        ret err.

(** The results [rt_tmbench_stop] hands back. *)
Record stop_out := SOUT { so_overall : rttst_bench_res; so_histograms : option histograms }.

(** [rt_tmbench_stop]: [copy_res] is the result of the first copy,
    [copy_hist] says whether the copies of the histograms succeed (both 0 and
    [true] for a kernel caller). *)
Definition rt_tmbench_stop (copy_res : Z) (copy_hist : bool) : tm (Z * option stop_out) :=
  mutex_down ;;
  let! b := get in
  if t_mode (b_ctx b) <? 0 then mutex_up ;; ret (- TM_EINVAL, None)
  else
    destroy_runner ;;
    modify (with_ctx (set_mode RTTST_TMBENCH_INVALID)) ;;
    let! b := get in
    let c := b_ctx b in
    let ov := t_overall c in
    match slldiv (br_avg ov) ((if 1 <? br_test_loops ov then br_test_loops ov else 2) - 1) with
    | inr f => fault f
    | inl avg =>
        let ov' := BR (i64 avg) (br_min ov) (br_max ov) (br_overruns ov) (br_test_loops ov) in
        modify (with_ctx (set_stats (t_curr c) (t_last c) ov')) ;;
        let! err :=
          (if 0 <? t_histogram_size c then
             kfree_histogram ;; ret (if copy_hist then copy_res else - TM_EFAULT)
           else ret copy_res) in
        mutex_up ;;
        ret (err, Some (SOUT ov' (if 0 <? t_histogram_size c then t_histogram c else None)))
    end.

(** [rt_tmbench_ioctl_nrt] and [rt_tmbench_ioctl_rt]. *)
Inductive request := TMBENCH_START (e : start_env) (c : rttst_tmbench_config)
                   | TMBENCH_STOP (copy_res : Z) (copy_hist : bool)
                   | INTERM_BENCH_RES | OTHER_REQUEST.

Definition rt_tmbench_ioctl_nrt (r : request) : tm (Z * option stop_out) :=
  match r with
  | TMBENCH_START e c => let! err := rt_tmbench_start e c in ret (err, None)
  | TMBENCH_STOP cr ch => rt_tmbench_stop cr ch
  | INTERM_BENCH_RES => ret (- TM_ENOSYS, None)
  | OTHER_REQUEST => ret (- TM_ENOTTY, None)
  end.

(** [rt_tmbench_ioctl_rt]: [wait_err] is the result of [rtdm_event_wait],
    [copy_err] that of the copy; the results are [last] and [overall]. *)
Definition rt_tmbench_ioctl_rt (r : request) (wait_err copy_err : Z)
    : tm (Z * option (rttst_bench_res * rttst_bench_res)) :=
  match r with
  | INTERM_BENCH_RES =>
      if negb (wait_err =? 0) then ret (wait_err, None)
      else let! b := get in ret (copy_err, Some (t_last (b_ctx b), t_overall (b_ctx b)))
  | TMBENCH_START _ _ | TMBENCH_STOP _ _ => ret (- TM_ENOSYS, None)
  | OTHER_REQUEST => ret (- TM_ENOTTY, None)
  end.
