(* ===== verification/TimerbenchFacts.v ===== *)
(** * The timer benchmark: theorems

    Next release date and overruns, histograms, statistics of a measuring
    period, and the resources of a context over its life. *)

From stdpp Require Import base tactics numbers list relations.
From S2P Require Import Prelude Timerbench.
#[local] Open Scope cmonad_scope.

(** ** Overruns *)

(** Number of whole periods the latency exceeds. *)
Definition overruns_of (dt period : Z) : Z := if 0 <? dt then (dt - 1) / period else 0.

Lemma overruns_of_nonneg dt p : 0 < p -> 0 <= overruns_of dt p.
Proof. intros Hp. unfold overruns_of. split_if; [apply Z.div_pos|]; lia. Qed.

Lemma overruns_of_step dt p : 0 < p < dt -> overruns_of dt p = 1 + overruns_of (dt - p) p.
Proof.
  intros Hp. unfold overruns_of. rewrite !(proj2 (Z.ltb_lt _ _)) by lia.
  replace (dt - 1) with (dt - p - 1 + 1 * p) by lia. rewrite Z.div_add by lia. lia.
Qed.

Lemma overruns_of_small dt p : 0 < p -> dt <= p -> overruns_of dt p = 0.
Proof. intros Hp Hd. unfold overruns_of. split_if; [apply Z.div_small|]; lia. Qed.

(** The loop ends, with the closed form of its results. *)
Lemma overrun_loop_eq fuel dt p ov date :
  0 < p < 2 ^ 32 -> - 2 ^ 31 <= dt < 2 ^ 31 -> (Z.to_nat dt <= fuel)%nat ->
  overrun_loop fuel dt p (i32 ov) (u64 date)
    = Some (i32 (ov + overruns_of dt p), u64 (date + p * overruns_of dt p)).
Proof.
  intros Hp. revert dt ov date. induction fuel as [|fuel IH]; intros dt ov date Hd Hf; cbn [overrun_loop].
  - rewrite (proj2 (Z.ltb_ge 0 dt)) by lia. cbn [andb].
    rewrite overruns_of_small by lia. now rewrite Z.mul_0_r, !Z.add_0_r.
  - destruct (Z.ltb_spec 0 dt) as [Hpos|Hneg]; cbn [andb].
    + rewrite (wrap_u_id 32 dt) by lia. destruct (Z.ltb_spec p dt) as [Hlt|Hge].
      * rewrite (wrap_s_id 32 (dt - p)), wrap_s_add_l, wrap_u_add_l by lia.
        rewrite IH by lia. rewrite (overruns_of_step dt p) by lia.
        now rewrite Z.mul_add_distr_l, Z.mul_1_r, !Z.add_assoc.
      * rewrite (overruns_of_small dt p) by lia. now rewrite Z.mul_0_r, !Z.add_0_r.
    + rewrite overruns_of_small by lia. now rewrite Z.mul_0_r, !Z.add_0_r.
Qed.

(** ** Histograms *)

Lemma histogram_index_range v bs n :
  - 2 ^ 31 < v < 2 ^ 31 -> 0 < bs -> 0 < n -> 0 <= histogram_index v bs n < n.
Proof.
  intros Hv Hb Hn. unfold histogram_index.
  set (a := if 0 <=? v then v else i32 (- v)).
  assert (Ha : 0 <= a) by (unfold a; split_if; [lia|]; rewrite wrap_s_id by lia; lia).
  pose proof (Z.quot_pos a bs Ha Hb). destruct (Z.ltb_spec (Z.quot a bs) n); lia.
Qed.

Lemma add_histogram_eq bs n h v :
  - 2 ^ 31 < v < 2 ^ 31 -> 0 < bs -> 0 < n -> Z.of_nat (length h) = n ->
  exists k x, k = Z.to_nat (histogram_index v bs n) /\ h !! k = Some x /\
    add_histogram bs n h v = inl (<[k := i32 (x + 1)]> h).
Proof.
  intros Hv Hb Hn Hl. pose proof (histogram_index_range v bs n Hv Hb Hn) as Hr.
  destruct (lookup_lt_is_Some_2 h (Z.to_nat (histogram_index v bs n))) as [x Hx]; [lia|].
  exists (Z.to_nat (histogram_index v bs n)), x. split_and!; try reflexivity; [exact Hx|].
  unfold add_histogram. rewrite (proj2 (Z.eqb_neq bs 0)) by lia.
  rewrite (proj2 (Z.ltb_ge _ 0)) by lia. now rewrite Hx.
Qed.

(** ** Contexts *)

(** The histograms are there when [histogram_size] says so. *)
Definition hist_ok (c : context) : Prop :=
  t_histogram_size c = 0 \/
  0 < t_histogram_size c /\ 0 < t_bucketsize c /\
  exists h, t_histogram c = Some h /\ Z.of_nat (length (h_min h)) = t_histogram_size c /\
    Z.of_nat (length (h_max h)) = t_histogram_size c /\
    Z.of_nat (length (h_avg h)) = t_histogram_size c.

(** What the measuring code relies on. *)
Record running_ok (c : context) : Prop := {
  ro_period : 0 < t_period c < 2 ^ 32;
  ro_samples : 0 < t_samples_per_sec c < 2 ^ 31;
  ro_hist : hist_ok c;
  ro_overruns : i32 (br_overruns (t_curr c)) = br_overruns (t_curr c);
  ro_min : - 2 ^ 31 < br_min (t_curr c) < 2 ^ 31;
  ro_max : - 2 ^ 31 < br_max (t_curr c) < 2 ^ 31
}.

(** A histogram may be updated: nothing else the measuring code needs changes. *)
Lemma record_sample_ok sel upd v b :
  (sel = h_avg /\ upd = upd_avg \/ sel = h_min /\ upd = upd_min \/ sel = h_max /\ upd = upd_max) ->
  hist_ok (b_ctx b) -> t_histogram_size (b_ctx b) <> 0 -> - 2 ^ 31 < v < 2 ^ 31 ->
  exists h, record_sample sel upd v b = OK tt (with_ctx (set_histogram (Some h)) b) /\
    hist_ok (set_histogram (Some h) (b_ctx b)).
Proof.
  intros Hs [?|(Hn & Hb & h & Eh & L1 & L2 & L3)] Hne Hv; [contradiction|].
  unfold record_sample, bind, get. rewrite Eh.
  assert (Hlen : Z.of_nat (length (sel h)) = t_histogram_size (b_ctx b))
    by (destruct Hs as [[-> _]|[[-> _]|[-> _]]]; assumption).
  destruct (add_histogram_eq _ _ _ _ Hv Hb Hn Hlen) as (k & x & _ & _ & ->).
  eexists. split; [reflexivity|]. right. cbn. split_and!; try assumption.
  eexists. split; [reflexivity|].
  destruct Hs as [[-> ->]|[[-> ->]|[-> ->]]]; cbn; rewrite ?length_insert; auto.
Qed.

(** The statistics after a sample. *)
Definition sampled (dt : Z) (cu : rttst_bench_res) (p : Z) : rttst_bench_res :=
  BR (i64 (br_avg cu + dt)) (Z.min dt (br_min cu)) (Z.max (br_max cu) dt)
     (i32 (br_overruns cu + overruns_of dt p)) (br_test_loops cu).

(** What a sample does not change. *)
Record same_setup (c c' : context) : Prop := {
  ss_period : t_period c' = t_period c;
  ss_samples : t_samples_per_sec c' = t_samples_per_sec c;
  ss_size : t_histogram_size c' = t_histogram_size c;
  ss_warmup : t_warmup c' = t_warmup c;
  ss_last : t_last c' = t_last c;
  ss_overall : t_overall c' = t_overall c;
  ss_mode : t_mode c' = t_mode c;
  ss_mutex : t_mutex c' = t_mutex c
}.

(** What exists outside the context, pulses apart. *)
Definition resources (b : bench) : Z * Z * Z * Z := (k_blocks b, k_tasks b, k_timers b, k_events b).

(** The same with the pulses of the event. *)
Definition outside (b : bench) : Z * Z * Z * Z * Z := (resources b, k_pulses b).

Lemma eval_inner_loop_eq dt b :
  running_ok (b_ctx b) -> - 2 ^ 31 < dt < 2 ^ 31 ->
  exists b', eval_inner_loop dt b = OK tt b' /\ running_ok (b_ctx b') /\
    same_setup (b_ctx b) (b_ctx b') /\ outside b' = outside b /\
    t_curr (b_ctx b') = sampled dt (t_curr (b_ctx b)) (t_period (b_ctx b)) /\
    t_date (b_ctx b') =
      u64 (t_date (b_ctx b) + t_period (b_ctx b) * (1 + overruns_of dt (t_period (b_ctx b)))).
Proof.
  intros [Hp Hsa Hh Hov Hmin Hmax] Hdt. unfold eval_inner_loop.
  unfold bind at 1, modify at 1. unfold bind at 1, modify at 1. unfold bind at 1, get at 1.
  set (b1 := with_ctx _ (with_ctx _ b)).
  assert (Hh1 : hist_ok (b_ctx b1)) by exact Hh.
  assert (exists b2, (if negb (t_warmup (b_ctx b1)) && negb (t_histogram_size (b_ctx b1) =? 0)
     then record_sample h_avg upd_avg dt else ret tt) b1 = OK tt b2 /\ hist_ok (b_ctx b2) /\
     t_curr (b_ctx b2) = t_curr (b_ctx b1) /\ t_date (b_ctx b2) = t_date (b_ctx b1) /\
     t_period (b_ctx b2) = t_period (b_ctx b1) /\ same_setup (b_ctx b1) (b_ctx b2) /\
     outside b2 = outside b)
    as (b2 & E & Hh2 & Ec & Ed & Ep & Hsame & Hres).
  { destruct (negb (t_warmup (b_ctx b1)) && negb (t_histogram_size (b_ctx b1) =? 0)) eqn:Eb.
    - bool_to_prop. destruct (record_sample_ok h_avg upd_avg dt b1) as (h & E & Hk);
        [now left | exact Hh1 | congruence | lia |].
      eexists. split; [exact E|]. split_and!; try reflexivity; [exact Hk | constructor; reflexivity].
    - exists b1. split_and!; try reflexivity; [exact Hh1 | constructor; reflexivity]. }
  unfold bind at 1. rewrite E. unfold bind at 1, get. rewrite Ec, Ed, Ep.
  assert (Eov : overrun_loop (Z.to_nat dt) dt (t_period (b_ctx b1)) (br_overruns (t_curr (b_ctx b1)))
      (t_date (b_ctx b1))
    = Some (i32 (br_overruns (t_curr (b_ctx b)) + overruns_of dt (t_period (b_ctx b))),
            u64 (t_date (b_ctx b) + t_period (b_ctx b) + t_period (b_ctx b) * overruns_of dt (t_period (b_ctx b))))).
  { pose proof (overrun_loop_eq (Z.to_nat dt) dt (t_period (b_ctx b)) (br_overruns (t_curr (b_ctx b)))
      (t_date (b_ctx b) + t_period (b_ctx b)) Hp ltac:(lia) ltac:(lia)) as H.
    rewrite Hov in H. exact H. }
  rewrite Eov. unfold modify. eexists. split; [reflexivity|].
  pose proof (wrap_s_range 32 (br_overruns (t_curr (b_ctx b)) + overruns_of dt (t_period (b_ctx b))) ltac:(lia)).
  assert (Ecu : t_curr (b_ctx b1) = BR (i64 (br_avg (t_curr (b_ctx b)) + dt))
    (Z.min dt (br_min (t_curr (b_ctx b)))) (Z.max (br_max (t_curr (b_ctx b))) dt)
    (br_overruns (t_curr (b_ctx b))) (br_test_loops (t_curr (b_ctx b)))).
  { unfold b1. cbn. f_equal; split_if; lia. }
  destruct Hsame as [S1 S2 S3 S4 S5 S6 S7 S8].
  split_and!.
  - constructor; cbn; rewrite ?S1, ?S2, ?Ec, ?Ecu; cbn; try assumption; try lia.
    apply (wrap_s_id 32); lia.
  - constructor; cbn; assumption.
  - exact Hres.
  - cbn. rewrite Ec, Ecu. reflexivity.
  - cbn. f_equal. lia.
Qed.

(** ** Measuring periods *)

Lemma same_setup_trans c1 c2 c3 : same_setup c1 c2 -> same_setup c2 c3 -> same_setup c1 c3.
Proof. intros [] []. constructor; congruence. Qed.

Lemma inner_loops_eq dts b :
  running_ok (b_ctx b) -> Forall (fun dt => - 2 ^ 31 < dt < 2 ^ 31) dts ->
  exists b', inner_loops dts b = OK tt b' /\ running_ok (b_ctx b') /\
    same_setup (b_ctx b) (b_ctx b') /\ outside b' = outside b /\
    t_curr (b_ctx b') = foldl (fun cu dt => sampled dt cu (t_period (b_ctx b))) (t_curr (b_ctx b)) dts.
Proof.
  intros Hr Hd. revert b Hr. induction Hd as [|dt dts Hdt Hd IH]; intros b Hr; cbn [inner_loops].
  - exists b. split_and!; try reflexivity; [exact Hr | constructor; reflexivity].
  - destruct (eval_inner_loop_eq dt b Hr Hdt) as (b1 & E & Hr1 & Hs & Hk & Hc & _).
    unfold bind. rewrite E. destruct (IH b1 Hr1) as (b2 & E2 & Hr2 & Hs2 & Hk2 & Hc2).
    exists b2. split_and!; try assumption; [eapply same_setup_trans; eassumption | congruence|].
    rewrite Hc2, Hc, (ss_period _ _ Hs). reflexivity.
Qed.

Definition lowest_of (l : list Z) (m : Z) : Z := foldl (fun a d => Z.min d a) m l.
Definition highest_of (l : list Z) (m : Z) : Z := foldl (fun a d => Z.max a d) m l.

(** The members of [curr] after the samples [dts]. *)
Lemma sampled_fold p dts cu :
  i64 (br_avg cu) = br_avg cu -> i32 (br_overruns cu) = br_overruns cu ->
  let f := foldl (fun cu dt => sampled dt cu p) cu dts in
  br_avg f = i64 (br_avg cu + sumZ id dts) /\ br_min f = lowest_of dts (br_min cu) /\
  br_max f = highest_of dts (br_max cu) /\
  br_overruns f = i32 (br_overruns cu + sumZ (fun dt => overruns_of dt p) dts) /\
  br_test_loops f = br_test_loops cu.
Proof.
  revert cu. induction dts as [|dt dts IH]; intros cu Ha Ho; cbn [foldl].
  - cbv zeta. change (sumZ id []) with 0. change (sumZ (fun dt => overruns_of dt p) []) with 0.
    rewrite !Z.add_0_r, Ha, Ho. split_and!; reflexivity.
  - destruct (IH (sampled dt cu p)) as (H1 & H2 & H3 & H4 & H5); cbn.
    + apply (wrap_s_id 64); [lia | apply (wrap_s_range 64); lia].
    + apply (wrap_s_id 32); [lia | apply (wrap_s_range 32); lia].
    + cbv zeta. rewrite H1, H2, H3, H4, H5. cbn. rewrite !sumZ_cons, !wrap_s_add_l by lia.
      rewrite !Z.add_assoc. split_and!; reflexivity.
Qed.

Lemma slldiv_quot s d : 0 < d < 2 ^ 32 -> slldiv s d = inl (Z.quot s d).
Proof.
  intros Hd. unfold slldiv. rewrite (wrap_u_id 32 d) by lia.
  rewrite (proj2 (Z.eqb_neq d 0)) by lia. f_equal. destruct (Z.leb_spec 0 s).
  - symmetry. apply Z.quot_div_nonneg; lia.
  - rewrite <- (Z.quot_div_nonneg (- s) d), Z.quot_opp_l by lia. lia.
Qed.

(** [eval_outer_loop] of a context that measures. *)
Lemma eval_outer_loop_eq b :
  running_ok (b_ctx b) -> t_warmup (b_ctx b) = false ->
  exists b', eval_outer_loop b = OK tt b' /\ running_ok (b_ctx b') /\
    t_period (b_ctx b') = t_period (b_ctx b) /\
    t_samples_per_sec (b_ctx b') = t_samples_per_sec (b_ctx b) /\
    t_warmup (b_ctx b') = false /\ t_mode (b_ctx b') = t_mode (b_ctx b) /\
    t_mutex (b_ctx b') = t_mutex (b_ctx b) /\
    t_histogram_size (b_ctx b') = t_histogram_size (b_ctx b) /\
    resources b' = resources b /\ k_pulses b' = k_pulses b + 1 /\
    t_curr (b_ctx b') = BR 0 10000000 (-10000000) 0 (br_test_loops (t_curr (b_ctx b))) /\
    let cu := t_curr (b_ctx b) in let ov := t_overall (b_ctx b) in
    let avg := i64 (Z.quot (br_avg cu) (t_samples_per_sec (b_ctx b))) in
    t_last (b_ctx b') = BR avg (br_min cu) (br_max cu) (br_overruns (t_last (b_ctx b)))
                           (br_test_loops (t_last (b_ctx b))) /\
    t_overall (b_ctx b') =
      BR (i64 (br_avg ov + avg)) (Z.min (br_min cu) (br_min ov)) (Z.max (br_max ov) (br_max cu))
         (i32 (br_overruns ov + br_overruns cu)) (i32 (br_test_loops ov + 1)).
Proof.
  intros [Hp Hsa Hh Hov Hmin Hmax] Hw. unfold eval_outer_loop. unfold bind at 1, get. rewrite Hw. cbn [negb].
  assert (exists b2, (if negb (t_histogram_size (b_ctx b) =? 0) then
        record_sample h_max upd_max (br_max (t_curr (b_ctx b))) ;;
        record_sample h_min upd_min (br_min (t_curr (b_ctx b))) else ret tt) b = OK tt b2 /\
     exists h, b2 = with_ctx (set_histogram h) b /\ hist_ok (b_ctx b2))
    as (b2 & E & h & -> & Hh2).
  { destruct (Z.eqb_spec (t_histogram_size (b_ctx b)) 0) as [E0|E0]; cbn [negb].
    - exists b. split; [reflexivity|]. exists (t_histogram (b_ctx b)). split; [|exact Hh].
      destruct b as [[] ? ? ? ? ?]; reflexivity.
    - destruct (record_sample_ok h_max upd_max (br_max (t_curr (b_ctx b))) b) as (h1 & E1 & Hk1);
        [auto | exact Hh | exact E0 | exact Hmax|].
      unfold bind. rewrite E1.
      destruct (record_sample_ok h_min upd_min (br_min (t_curr (b_ctx b)))
        (with_ctx (set_histogram (Some h1)) b)) as (h2 & E2 & Hk2);
        [auto | exact Hk1 | exact E0 | exact Hmin|].
      rewrite E2. eexists. split; [reflexivity|]. exists (Some h2). split; [reflexivity | exact Hk2]. }
  unfold bind at 1. unfold bind at 1. rewrite E. rewrite slldiv_quot by lia. unfold bind, modify.
  eexists. split; [reflexivity|]. cbn [with_ctx with_res b_ctx k_pulses].
  unfold resources. cbn [with_ctx with_res k_blocks k_tasks k_timers k_events]. rewrite !Z.add_0_r.
  unfold next_period, close_period. cbn [t_warmup set_stats set_histogram]. rewrite Hw. cbn [andb].
  cbn [set_warmup set_stats set_histogram t_period t_samples_per_sec t_warmup t_curr t_last t_overall
       t_mode t_mutex t_histogram_size
       br_test_loops br_avg br_min br_max br_overruns].
  split_and!; try reflexivity.
  - constructor; cbn; try assumption; try lia; reflexivity.
  - f_equal; [destruct (Z.ltb_spec (br_min (t_curr (b_ctx b))) (br_min (t_overall (b_ctx b)))); lia
             | destruct (Z.ltb_spec (br_max (t_overall (b_ctx b))) (br_max (t_curr (b_ctx b)))); lia].
Qed.

(** During the warm-up nothing is recorded. *)
Lemma eval_outer_loop_warm b :
  running_ok (b_ctx b) -> t_warmup (b_ctx b) = true ->
  exists b', eval_outer_loop b = OK tt b' /\ b' = with_ctx next_period b /\ running_ok (b_ctx b').
Proof.
  intros [Hp Hsa Hh Hov Hmin Hmax] Hw. unfold eval_outer_loop. unfold bind at 1, get. rewrite Hw. cbn [negb].
  eexists. split; [reflexivity|]. split; [reflexivity|].
  constructor; cbn; try assumption; try lia; reflexivity.
Qed.

(** ** The life of a context *)

Definition count_if (b : bool) : Z := if b then 1 else 0.

(** No benchmark: nothing is held. *)
Record idle (b : bench) : Prop := {
  id_mutex : t_mutex (b_ctx b) = false;
  id_mode : t_mode (b_ctx b) = RTTST_TMBENCH_INVALID;
  id_res : resources b = (0, 0, 0, 0)
}.

(** A benchmark runs: the driver holds exactly its event, its task or timer, and
    its histograms when there are any. *)
Record started (b : bench) : Prop := {
  st_mutex : t_mutex (b_ctx b) = false;
  st_mode : t_mode (b_ctx b) = RTTST_TMBENCH_TASK \/ t_mode (b_ctx b) = RTTST_TMBENCH_HANDLER;
  st_res : resources b = (count_if (0 <? t_histogram_size (b_ctx b)),
                          count_if (t_mode (b_ctx b) =? RTTST_TMBENCH_TASK),
                          count_if (t_mode (b_ctx b) =? RTTST_TMBENCH_HANDLER), 1);
  st_run : running_ok (b_ctx b);
  st_loops : - 2 ^ 31 <= br_test_loops (t_overall (b_ctx b)) < 2 ^ 31
}.

(** A configuration the code can work with: it does not check any of this. *)
Record config_ok (c : rttst_tmbench_config) : Prop := {
  cf_mode : c_mode c = RTTST_TMBENCH_TASK \/ c_mode c = RTTST_TMBENCH_HANDLER;
  cf_period : 1 <= c_period c <= 1000000000;
  cf_size : 0 <= c_histogram_size c < 2 ^ 31;
  cf_bucket : 0 < c_histogram_size c -> 0 < c_histogram_bucketsize c
}.

Record start_env_ok (e : start_env) : Prop := {
  so_copy : se_copy e = true; so_alloc : se_alloc e = true;
  so_closing : se_closing e = false; so_task : se_task_err e = 0
}.

Lemma samples_range p : 1 <= p <= 1000000000 -> 0 < 1000000000 / p < 2 ^ 31.
Proof.
  intros Hp. split.
  - apply Z.div_str_pos. lia.
  - apply (Z.le_lt_trans _ 1000000000); [apply Z.div_le_upper_bound; lia | lia].
Qed.

(** A context on its way to [started]: configured, mutex held, [blocks],
    [tasks], [timers] and [events] counted so far. *)
Record starting (c : rttst_tmbench_config) (res : Z * Z * Z * Z) (b : bench) : Prop := {
  sg_mutex : t_mutex (b_ctx b) = true;
  sg_period : t_period (b_ctx b) = c_period c;
  sg_samples : t_samples_per_sec (b_ctx b) = 1000000000 / c_period c;
  sg_size : t_histogram_size (b_ctx b) = c_histogram_size c;
  sg_res : resources b = res
}.

Lemma start_allocate c b :
  config_ok c -> starting c (0, 0, 0, 0) b ->
  exists b', (if 0 <? c_histogram_size c then
     modify (with_res 1 0 0 0 0) ;; modify (with_ctx (new_histograms c)) else ret tt : tm unit) b
      = OK tt b' /\
    starting c (count_if (0 <? c_histogram_size c), 0, 0, 0) b' /\ hist_ok (b_ctx b').
Proof.
  intros [_ _ Hcs Hcb] [Hm Hp Hs Hz Hr]. destruct (Z.ltb_spec 0 (c_histogram_size c)) as [Hpos|Hzero].
  - eexists. split; [reflexivity|]. unfold resources in Hr. injection Hr as K1 K2 K3 K4. split.
    + constructor; try assumption. unfold resources. cbn. now rewrite K1, K2, K3, K4.
    + right. cbn. rewrite Hz. split_and!; try lia; try (now auto). eexists. split; [reflexivity|]. cbn.
      rewrite length_replicate. lia.
  - exists b. split; [reflexivity|]. split; [constructor; assumption|]. left. lia.
Qed.

Lemma start_reset c res b :
  starting c res b -> hist_ok (b_ctx b) -> config_ok c ->
  let b' := with_ctx reset_results b in
  starting c res b' /\ running_ok (b_ctx b') /\ t_warmup (b_ctx b') = true /\
  br_test_loops (t_overall (b_ctx b')) = 1 /\ t_mode (b_ctx b') = RTTST_TMBENCH_INVALID.
Proof.
  intros [Hm Hp Hs Hz Hr] Hh Hc. pose proof (samples_range _ (cf_period _ Hc)). pose proof (cf_period _ Hc).
  cbv zeta. split_and!; try reflexivity; constructor; cbn; rewrite ?Hp, ?Hs; (assumption || reflexivity || lia).
Qed.

(** The task is created, or the timer armed. *)
Definition creates (e : start_env) (c : rttst_tmbench_config) : bool :=
  negb (se_closing e) && (negb (c_mode c =? RTTST_TMBENCH_TASK) || (se_task_err e =? 0)).

Lemma start_env_creates e c : start_env_ok e -> creates e c = true.
Proof. intros [_ _ E3 E4]. unfold creates. rewrite E3, E4. apply orb_true_r. Qed.

Lemma start_runner_ok e c blocks b :
  config_ok c -> creates e c = true -> starting c (blocks, 0, 0, 1) b ->
  blocks = count_if (0 <? c_histogram_size c) ->
  running_ok (b_ctx b) -> t_warmup (b_ctx b) = true -> br_test_loops (t_overall (b_ctx b)) = 1 ->
  exists err b', (let! err := start_runner e c in mutex_up ;; ret err) b = OK err b' /\
    started b' /\ t_mode (b_ctx b') = c_mode c /\ t_warmup (b_ctx b') = true.
Proof.
  intros [Hcm _ _ _] He [Hm Hp Hs Hz Hr] -> Hrun Hw Hl.
  unfold creates in He. apply andb_true_iff in He as [E3%negb_true_iff E4].
  unfold resources in Hr. injection Hr as K1 K2 K3 K4. unfold start_runner.
  destruct Hrun as [R1 R2 R3 R4 R5 R6].
  destruct Hcm as [Hmo|Hmo]; rewrite Hmo, E3.
  - rewrite Hmo in E4. cbn in E4. rewrite E4. cbn [Z.eqb RTTST_TMBENCH_TASK]. unfold bind, modify, mutex_up, ret. cbn [b_ctx with_ctx with_res t_mutex set_mode].
    rewrite Hm. eexists _, _. split; [reflexivity|]. split; [|split; [reflexivity | exact Hw]].
    constructor; cbn; try reflexivity; [now left | | constructor; assumption | lia].
    unfold resources; cbn. rewrite Hz, K1, K2, K3, K4, Z.add_0_r. reflexivity.
  - cbn [Z.eqb RTTST_TMBENCH_TASK RTTST_TMBENCH_HANDLER]. unfold bind, modify, mutex_up, ret.
    cbn [b_ctx with_ctx with_res t_mutex arm_timer reset_loops set_stats].
    rewrite Hm. eexists _, _. split; [reflexivity|]. split; [|split; [reflexivity | exact Hw]].
    constructor; cbn; try reflexivity; [now right | | constructor; assumption | lia].
    unfold resources; cbn. rewrite Hz, K1, K2, K3, K4, Z.add_0_r. reflexivity.
Qed.

(** The histograms asked for are there, or none are. *)
Definition allocates (e : start_env) (c : rttst_tmbench_config) : bool :=
  negb (0 <? c_histogram_size c) || se_alloc e.

(** [rt_tmbench_start] up to the creation of the task or timer. *)
Lemma start_prepares e c b :
  idle b -> config_ok c -> se_copy e = true -> allocates e c = true ->
  exists b4, rt_tmbench_start e c b = (let! err := start_runner e c in mutex_up ;; ret err) b4 /\
    starting c (count_if (0 <? c_histogram_size c), 0, 0, 1) b4 /\ running_ok (b_ctx b4) /\
    t_warmup (b_ctx b4) = true /\ br_test_loops (t_overall (b_ctx b4)) = 1 /\
    t_mode (b_ctx b4) = RTTST_TMBENCH_INVALID.
Proof.
  intros [Hmu Hmo Hres] Hc E1 E2. pose proof Hc as [_ Hcp _ _].
  unfold rt_tmbench_start. rewrite E1. cbn [negb]. unfold bind at 1, mutex_down. rewrite Hmu.
  assert (Hu : u32 (c_period c) = c_period c) by (apply wrap_u_id; lia).
  rewrite Hu, (proj2 (Z.eqb_neq (c_period c) 0)) by lia.
  unfold bind at 1, modify at 1. unfold allocates in E2.
  replace ((0 <? c_histogram_size c) && negb (se_alloc e)) with false
    by (destruct (0 <? c_histogram_size c), (se_alloc e); (reflexivity || discriminate)).
  set (b1 := with_ctx (configure c) _).
  assert (S1 : starting c (0, 0, 0, 0) b1).
  { constructor; try reflexivity; try exact Hres; cbn; now rewrite Hu. }
  clearbody b1. destruct (start_allocate c b1 Hc S1) as (b2 & E & S2 & Hh). unfold bind at 1. rewrite E.
  unfold bind at 1, modify at 1. destruct (start_reset c _ b2 S2 Hh Hc) as (S3 & R3 & W3 & L3 & M3).
  set (b3 := with_ctx reset_results b2) in *. clearbody b3.
  unfold bind at 1, modify at 1. exists (with_res 0 0 0 1 0 b3). split_and!; try assumption; [reflexivity|].
  destruct S3 as [? ? ? ? Hr]. constructor; try assumption. unfold resources in *. cbn.
  injection Hr as -> -> -> ->. now rewrite Z.add_0_r.
Qed.

Lemma start_idle e c b :
  idle b -> config_ok c -> start_env_ok e ->
  exists err b', rt_tmbench_start e c b = OK err b' /\ started b' /\ t_mode (b_ctx b') = c_mode c /\
    t_warmup (b_ctx b') = true.
Proof.
  intros Hi Hc He. pose proof He as [E1 E2 _ _].
  destruct (start_prepares e c b Hi Hc E1) as (b4 & -> & S4 & R4 & W4 & L4 & _);
    [unfold allocates; rewrite E2; apply orb_true_r|].
  apply (start_runner_ok e c _ b4 Hc (start_env_creates e c He) S4 eq_refl R4 W4 L4).
Qed.

(** The task or timer, and the event, are destroyed. *)
Lemma destroy_runner_ok b x :
  t_mode (b_ctx b) = RTTST_TMBENCH_TASK \/ t_mode (b_ctx b) = RTTST_TMBENCH_HANDLER ->
  resources b = (x, count_if (t_mode (b_ctx b) =? RTTST_TMBENCH_TASK),
                 count_if (t_mode (b_ctx b) =? RTTST_TMBENCH_HANDLER), 1) ->
  exists b', destroy_runner b = OK tt b' /\ b_ctx b' = b_ctx b /\ resources b' = (x, 0, 0, 0).
Proof.
  intros Hm Hr. unfold resources in *. injection Hr as K1 K2 K3 K4. unfold destroy_runner, bind, get.
  destruct Hm as [Hm|Hm]; rewrite Hm in *; cbn [Z.eqb RTTST_TMBENCH_TASK RTTST_TMBENCH_HANDLER] in *;
    unfold modify; eexists; (split; [reflexivity|]); (split; [reflexivity|]); cbn;
    rewrite K1, K2, K3, K4; cbn; now rewrite !Z.add_0_r.
Qed.

(** The histograms are freed when there are any. *)
Lemma kfree_hist_ok b x :
  hist_ok (b_ctx b) -> t_histogram_size (b_ctx b) <> 0 -> resources b = (x, 0, 0, 0) ->
  exists b', kfree_histogram b = OK tt b' /\ resources b' = (x - 1, 0, 0, 0) /\
    t_mutex (b_ctx b') = t_mutex (b_ctx b) /\ t_mode (b_ctx b') = t_mode (b_ctx b).
Proof.
  intros [?|(_ & _ & h & Eh & _)] Hs Hr; [contradiction|]. unfold resources in *.
  injection Hr as K1 K2 K3 K4. unfold kfree_histogram. rewrite Eh.
  eexists. split; [reflexivity|]. split_and!; try reflexivity. cbn. now rewrite K1, K2, K3, K4.
Qed.

Lemma mode_nonneg c :
  t_mode c = RTTST_TMBENCH_TASK \/ t_mode c = RTTST_TMBENCH_HANDLER -> 0 <= t_mode c.
Proof. unfold RTTST_TMBENCH_TASK, RTTST_TMBENCH_HANDLER. lia. Qed.

Lemma hist_ok_sign c : hist_ok c -> (0 <? t_histogram_size c) = negb (t_histogram_size c =? 0).
Proof. intros [E|(Hp & _)]; destruct (Z.ltb_spec 0 (t_histogram_size c)), (Z.eqb_spec (t_histogram_size c) 0); (reflexivity || lia). Qed.

(** The mutex is given back. *)
Lemma mutex_up_idle b :
  t_mutex (b_ctx b) = true -> t_mode (b_ctx b) = RTTST_TMBENCH_INVALID -> resources b = (0, 0, 0, 0) ->
  exists b', idle b' /\ forall A (r : A), (mutex_up ;; ret r) b = OK r b'.
Proof.
  intros Hm Hmo Hr. exists (with_ctx (set_mutex false) b). split; [now constructor|].
  intros A r. unfold bind, mutex_up. now rewrite Hm.
Qed.

Lemma stop_started cr ch b :
  started b -> exists r b', rt_tmbench_stop cr ch b = OK r b' /\ idle b'.
Proof.
  intros [Hmu Hmo Hres Hr Hl]. unfold rt_tmbench_stop. unfold bind at 1, mutex_down. rewrite Hmu.
  set (b1 := with_ctx (set_mutex true) b). unfold bind at 1, get at 1.
  rewrite (proj2 (Z.ltb_ge (t_mode (b_ctx b1)) 0)) by exact (mode_nonneg _ Hmo).
  destruct (destroy_runner_ok b1 (count_if (0 <? t_histogram_size (b_ctx b))) Hmo Hres) as (b2 & E2 & C2 & R2).
  unfold bind at 1. rewrite E2. unfold bind at 1, modify at 1. unfold bind at 1, get.
  set (b3 := with_ctx (set_mode RTTST_TMBENCH_INVALID) b2).
  assert (H3 : b_ctx b3 = set_mode RTTST_TMBENCH_INVALID (set_mutex true (b_ctx b)))
    by (unfold b3; cbn; now rewrite C2).
  assert (R3 : resources b3 = (count_if (0 <? t_histogram_size (b_ctx b)), 0, 0, 0)) by exact R2.
  clearbody b3. rewrite H3. cbn [t_overall t_histogram_size t_histogram t_curr t_last set_mode set_mutex].
  rewrite slldiv_quot by (split_if; lia).
  unfold bind at 1, modify at 1. set (ov' := BR _ _ _ _ _). set (b4 := with_ctx _ b3).
  assert (H4 : hist_ok (b_ctx b4) /\ t_mutex (b_ctx b4) = true /\
    t_mode (b_ctx b4) = RTTST_TMBENCH_INVALID /\
    t_histogram_size (b_ctx b4) = t_histogram_size (b_ctx b)).
  { unfold b4; cbn; rewrite H3; cbn. split_and!; try reflexivity. exact (ro_hist _ Hr). }
  assert (R4 : resources b4 = (count_if (0 <? t_histogram_size (b_ctx b)), 0, 0, 0)) by exact R3.
  clearbody b4. destruct H4 as (Hh4 & Hm4 & Hmo4 & Hs4). rewrite <- Hs4 in R4 |- *.
  pose proof (hist_ok_sign _ Hh4) as Hsg.
  destruct (0 <? t_histogram_size (b_ctx b4)) eqn:Esz.
  - assert (Hnz : t_histogram_size (b_ctx b4) <> 0) by (intros E; rewrite E in Esz; discriminate).
    destruct (kfree_hist_ok b4 _ Hh4 Hnz R4) as (b5 & E5 & R5 & M5 & O5).
    unfold bind at 1. unfold bind at 1. rewrite E5. unfold ret at 1. cbn beta iota.
    destruct (mutex_up_idle b5) as (b6 & I6 & E6); [congruence | congruence | exact R5 |].
    rewrite E6. eauto.
  - unfold bind at 1, ret at 1. destruct (mutex_up_idle b4) as (b6 & I6 & E6); try assumption.
    rewrite E6. eauto.
Qed.

Lemma close_life b :
  idle b \/ started b -> exists b', rt_tmbench_close b = OK 0 b' /\ idle b'.
Proof.
  intros Hb. unfold rt_tmbench_close, bind at 1, mutex_down.
  assert (Hmu : t_mutex (b_ctx b) = false) by (destruct Hb as [[] | []]; assumption). rewrite Hmu.
  set (b1 := with_ctx (set_mutex true) b). unfold bind at 1, get at 1.
  destruct Hb as [[_ Hmo Hres]|[_ Hmo Hres Hr _]].
  - rewrite (proj2 (Z.leb_gt 0 (t_mode (b_ctx b1)))) by (cbn; rewrite Hmo; reflexivity).
    unfold bind at 1, ret at 1.
    destruct (mutex_up_idle b1) as (b2 & I2 & E2); [reflexivity | exact Hmo | exact Hres|].
    rewrite E2. eauto.
  - rewrite (proj2 (Z.leb_le 0 (t_mode (b_ctx b1)))) by exact (mode_nonneg _ Hmo).
    destruct (destroy_runner_ok b1 (count_if (0 <? t_histogram_size (b_ctx b))) Hmo Hres) as (b2 & E2 & C2 & R2).
    unfold bind at 1. unfold bind at 1. rewrite E2. unfold bind at 1, get. rewrite C2.
    change (t_histogram_size (b_ctx b1)) with (t_histogram_size (b_ctx b)).
    pose proof (ro_hist _ Hr) as Hh. rewrite (hist_ok_sign _ Hh) in R2.
    assert (Hh2 : hist_ok (b_ctx b2)) by (rewrite C2; exact Hh).
    assert (M2 : t_mutex (b_ctx b2) = true) by (rewrite C2; reflexivity).
    destruct (Z.eqb_spec (t_histogram_size (b_ctx b)) 0) as [Hz|Hnz]; cbn [negb] in *.
    + unfold bind at 1, ret at 1, modify. set (b3 := with_ctx _ b2).
      destruct (mutex_up_idle b3) as (b4 & I4 & E4); [exact M2 | reflexivity | exact R2|].
      rewrite E4. eauto.
    + assert (Hnz2 : t_histogram_size (b_ctx b2) <> 0) by (rewrite C2; exact Hnz).
      destruct (kfree_hist_ok b2 _ Hh2 Hnz2 R2) as (b3 & E3 & R3 & M3 & _).
      unfold bind at 1. rewrite E3. unfold modify. set (b4 := with_ctx _ b3).
      destruct (mutex_up_idle b4) as (b5 & I5 & E5); [cbn; congruence | reflexivity | exact R3|].
      rewrite E5. eauto.
Qed.

Lemma turn_started dts b :
  started b -> Forall (fun dt => - 2 ^ 31 < dt < 2 ^ 31) dts ->
  exists b', timer_task_turn dts b = OK tt b' /\ started b' /\
    t_histogram_size (b_ctx b') = t_histogram_size (b_ctx b).
Proof.
  intros [Hmu Hmo Hres Hr Hl] Hd. unfold timer_task_turn, bind.
  destruct (inner_loops_eq dts b Hr Hd) as (b1 & -> & Hr1 & [S1 S2 S3 S4 S5 S6 S7 S8] & Hk & _).
  assert (Hk' : resources b1 = resources b) by (unfold outside in Hk; congruence).
  clear Hk. rename Hk' into Hk.
  destruct (t_warmup (b_ctx b1)) eqn:Ew.
  - destruct (eval_outer_loop_warm b1 Hr1 Ew) as (b2 & -> & -> & Hr2). eexists. split; [reflexivity|].
    split; [|exact S3]. constructor; cbn; rewrite ?S3, ?S7, ?S8; try assumption.
    + unfold resources in *. cbn. congruence.
    + pose proof (wrap_s_range 32). apply (wrap_s_range 32). lia.
  - destruct (eval_outer_loop_eq b1 Hr1 Ew)
      as (b2 & -> & Hr2 & _ & _ & _ & Em & Ex & Es & Ek & _ & _ & _ & Eo).
    eexists. split; [reflexivity|]. split; [|congruence]. constructor; rewrite ?Em, ?Ex, ?Es, ?S3, ?S7, ?S8; try assumption.
    + congruence.
    + rewrite Eo. cbn. apply (wrap_s_range 32). lia.
Qed.

(** ** Theorems *)

(** A context as the allocator may leave it. *)
Definition blank : bench :=
  BENCH (CTX 0 0 0 0 0 None 0 0 false 0 0 (BR 0 0 0 0 0) (BR 0 0 0 0 0) (BR 0 0 0 0 0) true) 0 0 0 0 0.
Definition opened : bench := match rt_tmbench_open blank with OK _ b => b | Fault _ => blank end.
Definition good_env : start_env := SENV true true false 0 0 5000.
Definition demo_config : rttst_tmbench_config := TCFG 0 50 100000 1 10 1000 0.
Definition demo_bench : bench :=
  match rt_tmbench_start good_env demo_config opened with OK _ b => b | Fault _ => blank end.

Lemma demo_config_ok : config_ok demo_config.
Proof. constructor; cbn; (lia || now left). Qed.

Lemma opened_idle : idle opened.
Proof. constructor; reflexivity. Qed.

Lemma demo_bench_started : started demo_bench.
Proof.
  destruct (start_idle good_env demo_config opened opened_idle demo_config_ok) as (err & b & E & Hs & _).
  { constructor; reflexivity. }
  unfold demo_bench. rewrite E. exact Hs.
Qed.

(** One sample.  [eval_inner_loop] ends and sets the next release date to
    the first date of the period's grid that is not before the time of the
    sample (its latency [dt] after the date it was due), skipping and counting
    one overrun for each whole period missed; the sample is taken into the
    minimum, the maximum and the sum. *)
Theorem eval_inner_next_release b dt :
  running_ok (b_ctx b) -> - 2 ^ 31 < dt < 2 ^ 31 ->
  let c := b_ctx b in
  exists b' k, eval_inner_loop dt b = OK tt b' /\
    0 <= k /\ t_date (b_ctx b') = u64 (t_date c + t_period c * (1 + k)) /\
    dt <= t_period c * (1 + k) /\ (0 < k -> t_period c * k < dt) /\
    br_overruns (t_curr (b_ctx b')) = i32 (br_overruns (t_curr c) + k) /\
    br_min (t_curr (b_ctx b')) = Z.min dt (br_min (t_curr c)) /\
    br_max (t_curr (b_ctx b')) = Z.max (br_max (t_curr c)) dt /\
    br_avg (t_curr (b_ctx b')) = i64 (br_avg (t_curr c) + dt).
Proof.
  intros Hr Hdt c. destruct (eval_inner_loop_eq dt b Hr Hdt) as (b' & E & _ & _ & _ & Hc & Hd).
  pose proof (ro_period _ Hr) as Hp. fold c in Hp. exists b', (overruns_of dt (t_period c)). rewrite Hc, Hd.
  split_and!; try reflexivity; [exact E | now apply overruns_of_nonneg | |]; unfold overruns_of.
  - split_if; [|lia]. pose proof (Z.mul_succ_div_gt (dt - 1) (t_period c)). lia.
  - split_if; [|lia]. intros _. pose proof (Z.mul_div_le (dt - 1) (t_period c)). lia.
Qed.

Lemma eval_inner_next_release_witness :
  exists b' k, eval_inner_loop 250000 demo_bench = OK tt b' /\ 0 <= k /\ 250000 <= 100000 * (1 + k) /\
    br_overruns (t_curr (b_ctx b')) = i32 (0 + k).
Proof.
  destruct (eval_inner_next_release demo_bench 250000) as (b' & k & E & Hk & _ & Hle & _ & Ho & _).
  - apply demo_bench_started.
  - lia.
  - exists b', k. split_and!; [exact E | exact Hk | exact Hle | exact Ho].
Defined.

(** A measuring period.  After a turn of the benchmark task over the
    samples of one period, the results reported are the smallest, the largest
    and the mean (truncated) latency of those samples, the overall results take
    them in, the waiting reader is pulsed once, and the next period starts from
    empty statistics. *)
Theorem tmbench_period_statistics b dts :
  running_ok (b_ctx b) -> t_warmup (b_ctx b) = false ->
  Forall (fun dt => - 2 ^ 31 < dt < 2 ^ 31) dts ->
  t_curr (b_ctx b) = BR 0 10000000 (-10000000) 0 (br_test_loops (t_curr (b_ctx b))) ->
  Z.of_nat (length dts) = t_samples_per_sec (b_ctx b) ->
  let ov := t_overall (b_ctx b) in
  exists b', timer_task_turn dts b = OK tt b' /\ k_pulses b' = k_pulses b + 1 /\
    br_min (t_last (b_ctx b')) = lowest_of dts 10000000 /\
    br_max (t_last (b_ctx b')) = highest_of dts (-10000000) /\
    br_avg (t_last (b_ctx b')) = Z.quot (sumZ id dts) (Z.of_nat (length dts)) /\
    br_min (t_overall (b_ctx b')) = Z.min (lowest_of dts 10000000) (br_min ov) /\
    br_max (t_overall (b_ctx b')) = Z.max (br_max ov) (highest_of dts (-10000000)) /\
    t_curr (b_ctx b') = BR 0 10000000 (-10000000) 0 (br_test_loops (t_curr (b_ctx b))).
Proof.
  intros Hr Hw Hd Hc Hn ov. destruct (inner_loops_eq dts b Hr Hd) as (b1 & E1 & Hr1 & [S1 S2 S3 S4 S5 S6 S7 S8] & Hk & Hc1).
  destruct (eval_outer_loop_eq b1 Hr1) as (b2 & E2 & _ & _ & _ & _ & _ & _ & _ & _ & Hp & Hcu & Hla & Hov);
    [congruence|].
  destruct (sampled_fold (t_period (b_ctx b)) dts (t_curr (b_ctx b))) as (F1 & F2 & F3 & F4 & F5);
    [now rewrite Hc | now rewrite Hc |].
  rewrite <- Hc1 in F1, F2, F3, F4, F5. rewrite Hc in F1, F2, F3, F4. cbn in F1, F2, F3, F4.
  assert (Hsum : forall l, Forall (fun dt => - 2 ^ 31 < dt < 2 ^ 31) l ->
            Z.abs (sumZ id l) <= 2 ^ 31 * Z.of_nat (length l)).
  { induction 1 as [|x l Hx _ IH]; [reflexivity|]. rewrite sumZ_cons. cbn [length]. unfold id at 1. lia. }
  specialize (Hsum dts Hd). pose proof (ro_samples _ Hr) as Hsa.
  assert (Hi : i64 (0 + sumZ id dts) = sumZ id dts) by (rewrite wrap_s_id; lia).
  assert (Hq : Z.abs (Z.quot (sumZ id dts) (Z.of_nat (length dts))) <= 2 ^ 31).
  { pose proof (Z.quot_abs (sumZ id dts) (Z.of_nat (length dts)) ltac:(lia)) as Ha.
    rewrite <- Ha, (Z.abs_eq (Z.of_nat _)), Z.quot_div_nonneg by lia.
    apply Z.div_le_upper_bound; lia. }
  exists b2. unfold timer_task_turn, bind. rewrite E1. split; [exact E2|].
  rewrite Hp, Hcu, Hla, Hov, F5. cbn. rewrite F1, F2, F3, Hi, S2, S6, <- Hn.
  split_and!; try reflexivity; [unfold outside in Hk; congruence|]. apply (wrap_s_id 64); lia.
Qed.

(** The demo benchmark after its warm-up. *)
Definition demo_warm : bench :=
  match timer_task_turn [] demo_bench with OK _ b => b | Fault _ => blank end.

Lemma tmbench_period_statistics_witness :
  exists b', timer_task_turn [3000; 100; 200] (with_ctx (fun c =>
      CTX (t_mode c) (t_period c) (t_freeze_max c) (t_warmup_loops c) 3 (t_histogram c)
          (t_histogram_size c) (t_bucketsize c) (t_warmup c) (t_start_time c) (t_date c)
          (t_curr c) (t_last c) (t_overall c) (t_mutex c)) demo_warm) = OK tt b' /\
    br_min (t_last (b_ctx b')) = 100 /\ br_max (t_last (b_ctx b')) = 3000 /\
    br_avg (t_last (b_ctx b')) = 1100.
Proof.
  set (b := with_ctx _ demo_warm).
  destruct (tmbench_period_statistics b [3000; 100; 200]) as (b' & E & _ & H1 & H2 & H3 & _).
  - constructor; try (vm_compute; split; reflexivity); try reflexivity.
    right. split_and!; try reflexivity. eexists. split_and!; vm_compute; reflexivity.
  - reflexivity.
  - repeat constructor; lia.
  - reflexivity.
  - reflexivity.
  - exists b'. split_and!; [exact E | exact H1 | exact H2 | exact H3].
Defined.

Lemma stop_idle cr ch b :
  idle b -> exists b', rt_tmbench_stop cr ch b = OK (- TM_EINVAL, None) b' /\ idle b'.
Proof.
  intros [Hmu Hmo Hr]. unfold rt_tmbench_stop. unfold bind at 1, mutex_down. rewrite Hmu.
  set (b1 := with_ctx (set_mutex true) b). unfold bind at 1, get at 1.
  rewrite (proj2 (Z.ltb_lt (t_mode (b_ctx b1)) 0)) by (cbn; rewrite Hmo; reflexivity).
  destruct (mutex_up_idle b1) as (b2 & I2 & E2); [reflexivity | exact Hmo | exact Hr|].
  rewrite E2. eauto.
Qed.

(** *** What is lost *)

(** Resources the driver holds besides those of [b]. *)
Definition shift (l : Z * Z * Z * Z) (b : bench) : bench :=
  let '(blocks, tasks, timers, events) := l in with_res blocks tasks timers events 0 b.

(** An operation that neither looks at what is outside the context nor does
    anything to what it did not create. *)
Definition shifts {A} (m : tm A) : Prop := forall l b,
  m (shift l b) = match m b with OK a b' => OK a (shift l b') | Fault f => Fault f end.

Lemma shift_ctx l b : b_ctx (shift l b) = b_ctx b.
Proof. now destruct l as [[[? ?] ?] ?]. Qed.

Lemma shifts_ret {A} (a : A) : shifts (ret a).
Proof. now intros l b. Qed.

Lemma shifts_fault {A} f : shifts (fault f : tm A).
Proof. now intros l b. Qed.

Lemma shifts_bind {A B} (m : tm A) (k : A -> tm B) :
  shifts m -> (forall a, shifts (k a)) -> shifts (bind m k).
Proof. intros Hm Hk l b. unfold bind. rewrite Hm. destruct (m b); [apply Hk | reflexivity]. Qed.

Lemma shifts_get {A} (k : context -> tm A) : (forall c, shifts (k c)) -> shifts (bind get (fun b => k (b_ctx b))).
Proof. intros Hk l b. unfold bind, get. rewrite shift_ctx. apply Hk. Qed.

Lemma shifts_with_ctx f : shifts (modify (with_ctx f)).
Proof. intros [[[? ?] ?] ?] [c ? ? ? ? ?]. reflexivity. Qed.

Lemma shifts_with_res a b c d e : shifts (modify (with_res a b c d e)).
Proof.
  intros [[[? ?] ?] ?] [x ? ? ? ? ?]. unfold modify, shift, with_res. cbn. do 2 f_equal; lia.
Qed.

Lemma shifts_mutex_down : shifts mutex_down.
Proof. intros l b. unfold mutex_down. rewrite shift_ctx. destruct (t_mutex (b_ctx b)); [reflexivity|]. apply (shifts_with_ctx (set_mutex true)). Qed.

Lemma shifts_mutex_up : shifts mutex_up.
Proof. intros l b. unfold mutex_up. rewrite shift_ctx. destruct (t_mutex (b_ctx b)); [|reflexivity]. apply (shifts_with_ctx (set_mutex false)). Qed.

Lemma shifts_kfree : shifts kfree_histogram.
Proof.
  intros l b. unfold kfree_histogram. rewrite shift_ctx. destruct (t_histogram (b_ctx b)); [|reflexivity].
  apply (shifts_bind (modify (with_ctx (set_histogram None))) (fun _ => modify (with_res (-1) 0 0 0 0)));
    [apply shifts_with_ctx | intros; apply shifts_with_res].
Qed.

Create HintDb shifts discriminated.
#[local] Hint Resolve shifts_ret shifts_fault shifts_with_ctx shifts_with_res shifts_mutex_down
  shifts_mutex_up shifts_kfree : shifts.

(** Through the structure of an operation. *)
Ltac through_shifts :=
  repeat first
    [ solve [auto with shifts]
    | match goal with
      | |- shifts (bind get ?k) => apply (shifts_get (fun c => k (BENCH c 0 0 0 0 0))); intros ?
      | |- shifts (bind _ _) => apply shifts_bind; [|intros ?]
      | |- shifts (if ?x then _ else _) => destruct x
      | |- shifts (match ?x with _ => _ end) => destruct x
      end ];
  cbn.

Lemma shifts_start e c : shifts (rt_tmbench_start e c).
Proof. unfold rt_tmbench_start, start_runner. through_shifts. Qed.

Lemma shifts_destroy : shifts destroy_runner.
Proof. unfold destroy_runner. through_shifts. Qed.

Lemma shifts_record sel upd v : shifts (record_sample sel upd v).
Proof. unfold record_sample. through_shifts. Qed.

#[local] Hint Resolve shifts_destroy shifts_record : shifts.

Lemma shifts_stop cr ch : shifts (rt_tmbench_stop cr ch).
Proof. unfold rt_tmbench_stop. through_shifts. Qed.

Lemma shifts_close : shifts rt_tmbench_close.
Proof. unfold rt_tmbench_close. through_shifts. Qed.

Lemma shifts_inner dt : shifts (eval_inner_loop dt).
Proof. unfold eval_inner_loop. through_shifts. Qed.

Lemma shifts_outer : shifts eval_outer_loop.
Proof. unfold eval_outer_loop. through_shifts. Qed.

#[local] Hint Resolve shifts_inner shifts_outer : shifts.

Lemma shifts_turn dts : shifts (timer_task_turn dts).
Proof.
  unfold timer_task_turn. apply shifts_bind; [|auto with shifts].
  induction dts; cbn [inner_loops]; through_shifts.
Qed.

Lemma shifts_proc now later : shifts (timer_proc_turn now later).
Proof. unfold timer_proc_turn. through_shifts. Qed.

(** A shifted operation that has a result has it without the shift. *)
Lemma shifts_inv {A} (m : tm A) l b a b' :
  shifts m -> m (shift l b) = OK a b' -> exists b0, m b = OK a b0 /\ b' = shift l b0.
Proof. intros Hm E. rewrite Hm in E. destruct (m b) as [x y|f]; [|discriminate E]. injection E as <- <-. eauto. Qed.

(** Equality of tuples of counts. *)
Ltac counts_lia := repeat match goal with |- (_, _) = (_, _) => f_equal end; lia.

Definition add_res (l l' : Z * Z * Z * Z) : Z * Z * Z * Z :=
  let '(a, b, c, d) := l in let '(a', b', c', d') := l' in (a + a', b + b', c + c', d + d').

Lemma shift_shift l l' b : shift l (shift l' b) = shift (add_res l l') b.
Proof.
  destruct l as [[[? ?] ?] ?], l' as [[[? ?] ?] ?], b. unfold shift, with_res, add_res. cbn. f_equal; lia.
Qed.

Lemma shift_none b : shift (0, 0, 0, 0) b = b.
Proof. destruct b. unfold shift, with_res. cbn. f_equal; lia. Qed.

Lemma shift_resources l b : resources (shift l b) = add_res l (resources b).
Proof. destruct l as [[[? ?] ?] ?], b. unfold resources, shift, with_res, add_res. cbn. counts_lia. Qed.

(** What a start on an idle context loses: the event, the histograms and the
    timer it made, when it does not get as far as running the benchmark. *)
Definition lost_by_start (e : start_env) (c : rttst_tmbench_config) : Z * Z * Z * Z :=
  if se_copy e && allocates e c && negb (creates e c)
  then (count_if (0 <? c_histogram_size c), 0, count_if (c_mode c =? RTTST_TMBENCH_HANDLER), 1)
  else (0, 0, 0, 0).

(** A start that fails in [start_runner]. *)
Lemma start_runner_lost e c b :
  config_ok c -> creates e c = false -> starting c (count_if (0 <? c_histogram_size c), 0, 0, 1) b ->
  t_mode (b_ctx b) = RTTST_TMBENCH_INVALID ->
  exists err b0, (let! err := start_runner e c in mutex_up ;; ret err) b
    = OK err (shift (count_if (0 <? c_histogram_size c), 0, count_if (c_mode c =? RTTST_TMBENCH_HANDLER), 1) b0)
    /\ idle b0.
Proof.
  intros Hc He [Hm _ _ _ Hr] Hmo. set (n := count_if _) in *. destruct b as [x k1 k2 k3 k4 k5].
  unfold resources in Hr. cbn [k_blocks k_tasks k_timers k_events b_ctx] in *. injection Hr as -> -> -> ->.
  unfold creates in He. destruct (cf_mode c Hc) as [Ec|Ec]; rewrite Ec in *; cbn in He |- *.
  - exists (if se_closing e then 0 else se_task_err e), (BENCH (set_mutex false x) 0 0 0 0 k5).
    split; [|now constructor]. unfold start_runner, bind, ret, mutex_up. rewrite Ec. cbn.
    destruct (se_closing e); [|destruct (se_task_err e =? 0); [discriminate He|]];
      cbn; rewrite Hm; unfold shift, with_res, with_ctx; cbn; do 2 f_equal; lia.
  - exists 0, (BENCH (set_mutex false (reset_loops x)) 0 0 0 0 k5). split; [|now constructor].
    unfold start_runner, bind, ret, mutex_up, modify. rewrite Ec. cbn.
    destruct (se_closing e); [|discriminate He].
    cbn. rewrite Hm. unfold shift, with_res, with_ctx. cbn. do 2 f_equal; lia.
Qed.

(** A start on an idle context, whatever it finds around it. *)
Lemma start_life e c b :
  idle b -> config_ok c ->
  exists err b0, rt_tmbench_start e c b = OK err (shift (lost_by_start e c) b0) /\ (idle b0 \/ started b0).
Proof.
  intros Hi Hc. unfold lost_by_start. destruct (se_copy e) eqn:E1; cbn [andb].
  2:{ exists (- TM_EFAULT), b. rewrite shift_none. unfold rt_tmbench_start. rewrite E1. auto. }
  destruct (allocates e c) eqn:E2; cbn [andb].
  - destruct (start_prepares e c b Hi Hc E1 E2) as (b4 & -> & S4 & R4 & W4 & L4 & M4).
    destruct (creates e c) eqn:E3; cbn [negb].
    + destruct (start_runner_ok e c _ b4 Hc E3 S4 eq_refl R4 W4 L4) as (err & b' & E & Hs & _).
      exists err, b'. rewrite shift_none. auto.
    + destruct (start_runner_lost e c b4 Hc E3 S4 M4) as (err & b0 & E & Hi0). eauto.
  - unfold allocates in E2. apply orb_false_iff in E2 as [E2%negb_false_iff E3].
    destruct Hi as [Hmu Hmo Hr]. pose proof (cf_period c Hc).
    exists (- TM_ENOMEM), (with_ctx (fun x => set_mutex false (set_histogram None (configure c (set_mutex true x)))) b).
    rewrite shift_none. split; [|left; now constructor].
    unfold rt_tmbench_start, bind, mutex_down, mutex_up, modify, ret. rewrite E1, E2, E3. cbn [negb andb].
    rewrite Hmu, (wrap_u_id 32 (c_period c)) by lia. rewrite (proj2 (Z.eqb_neq (c_period c) 0)) by lia. reflexivity.
Qed.

(** A firing of the timer. *)
Lemma proc_started now later b :
  started b -> i32 (now - t_date (b_ctx b)) <> - 2 ^ 31 ->
  exists b', timer_proc_turn now later b = OK tt b' /\ started b' /\
    t_histogram_size (b_ctx b') = t_histogram_size (b_ctx b).
Proof.
  intros [Hmu Hmo Hres Hr Hl] Hd. pose proof (wrap_s_range 32 (now - t_date (b_ctx b)) ltac:(lia)).
  unfold timer_proc_turn. unfold bind at 1, get at 1.
  destruct (eval_inner_loop_eq (i32 (now - t_date (b_ctx b))) b Hr ltac:(lia))
    as (b1 & E1 & Hr1 & S & Hk & _).
  unfold bind at 1. rewrite E1. unfold bind at 1, modify at 1, bind at 1, get at 1.
  set (b2 := with_ctx _ b1).
  assert (Hz : t_histogram_size (b_ctx b2) = t_histogram_size (b_ctx b)) by exact (ss_size _ _ S).
  assert (H2 : started b2).
  { destruct S as [S1 S2 S3 S4 S5 S6 S7 S8], Hr1 as [R1 R2 R3 R4 R5 R6]. unfold b2.
    constructor; cbn; rewrite ?S3, ?S6, ?S7, ?S8; try assumption.
    - unfold outside in Hk. change (resources (with_ctx _ b1)) with (resources b1). congruence.
    - rewrite <- S3 at 1. constructor; [exact R1 | exact R2 | exact R3 | exact R4 | exact R5 | exact R6]. }
  clearbody b2. destruct (_ <=? _); [|eexists; split_and!; [reflexivity | exact H2 | exact Hz]].
  unfold bind, modify. set (b3 := with_ctx _ b2). rewrite <- Hz.
  change (t_histogram_size (b_ctx b2)) with (t_histogram_size (b_ctx b3)).
  apply (turn_started [] b3); [|constructor].
  destruct H2 as [? ? ? [R1 R2 R3 R4 R5 R6] ?]. constructor; cbn; try assumption.
  constructor; [exact R1 | exact R2 | exact R3 | exact R4 | exact R5 | exact R6].
Qed.

(** *** Uses of the device *)

(** One use of the device by an application that runs one benchmark at a time:
    a start, of a context on which none runs, with whatever it finds around it;
    a turn of the measuring task or a firing of the timer, with latencies that
    fit a [long]; a stop; a close.  The first component of a state is what
    was lost so far. *)
Inductive life_step : (Z * Z * Z * Z) * bench -> (Z * Z * Z * Z) * bench -> Prop :=
| life_start l e c err b b' : t_mode (b_ctx b) = RTTST_TMBENCH_INVALID -> config_ok c ->
    rt_tmbench_start e c b = OK err b' -> life_step (l, b) (add_res l (lost_by_start e c), b')
| life_turn l dts b b' : t_mode (b_ctx b) = RTTST_TMBENCH_TASK ->
    Forall (fun dt => - 2 ^ 31 < dt < 2 ^ 31) dts ->
    timer_task_turn dts b = OK tt b' -> life_step (l, b) (l, b')
| life_fire l now later b b' : t_mode (b_ctx b) = RTTST_TMBENCH_HANDLER ->
    i32 (now - t_date (b_ctx b)) <> - 2 ^ 31 ->
    timer_proc_turn now later b = OK tt b' -> life_step (l, b) (l, b')
| life_stop l cr ch r b b' : rt_tmbench_stop cr ch b = OK r b' -> life_step (l, b) (l, b')
| life_close l r b b' : rt_tmbench_close b = OK r b' -> life_step (l, b) (l, b').

(** What was lost, and an idle or running context besides. *)
Definition life_inv (x : (Z * Z * Z * Z) * bench) : Prop :=
  exists b0, snd x = shift (fst x) b0 /\ (idle b0 \/ started b0).

Lemma stop_life cr ch b : idle b \/ started b -> exists r b', rt_tmbench_stop cr ch b = OK r b' /\ idle b'.
Proof.
  intros [Hb|Hb]; [|now apply stop_started].
  destruct (stop_idle cr ch b Hb) as (z & E & Hz). eauto.
Qed.

Lemma started_mode b : started b -> t_mode (b_ctx b) <> RTTST_TMBENCH_INVALID.
Proof. intros Hs E. destruct (st_mode b Hs) as [Em|Em]; rewrite Em in E; discriminate E. Qed.

Lemma running_started b m : idle b \/ started b -> t_mode (b_ctx b) = m -> m <> RTTST_TMBENCH_INVALID -> started b.
Proof. intros [Hi|Hs] Em Hm; [|exact Hs]. destruct Hm. rewrite <- Em. apply Hi. Qed.

Lemma life_step_inv x y : life_inv x -> life_step x y -> life_inv y.
Proof.
  intros (b0 & E & Hb) Hs. destruct Hs as [l e c err b b' Hm Hc E'|l dts b b' Hm Hd E'|l now later b b' Hm Hd E'
    |l cr ch r b b' E'|l r b b' E']; cbn [fst snd] in *; subst b; try rewrite shift_ctx in Hm.
  - apply shifts_inv in E' as (b1 & E1 & ->); [|apply shifts_start].
    destruct Hb as [Hb|Hb]; [|now destruct (started_mode b0 Hb)].
    destruct (start_life e c b0 Hb Hc) as (err' & b2 & E2 & H2). rewrite E1 in E2. injection E2 as _ ->.
    exists b2. split; [apply shift_shift | exact H2].
  - apply shifts_inv in E' as (b1 & E1 & ->); [|apply shifts_turn].
    destruct (turn_started dts b0 (running_started b0 _ Hb Hm ltac:(discriminate)) Hd) as (b2 & E2 & H2 & _).
    rewrite E1 in E2. injection E2 as ->. exists b2. auto.
  - rewrite shift_ctx in Hd. apply shifts_inv in E' as (b1 & E1 & ->); [|apply shifts_proc].
    destruct (proc_started now later b0 (running_started b0 _ Hb Hm ltac:(discriminate)) Hd) as (b2 & E2 & H2 & _).
    rewrite E1 in E2. injection E2 as ->. exists b2. auto.
  - apply shifts_inv in E' as (b1 & E1 & ->); [|apply shifts_stop].
    destruct (stop_life cr ch b0 Hb) as (r' & b2 & E2 & H2). rewrite E1 in E2. injection E2 as _ ->. exists b2. auto.
  - apply shifts_inv in E' as (b1 & E1 & ->); [|apply shifts_close].
    destruct (close_life b0 Hb) as (b2 & E2 & H2). rewrite E1 in E2. injection E2 as _ ->. exists b2. auto.
Qed.

(** What the benchmark in progress needs. *)
Definition needed (c : context) : Z * Z * Z * Z :=
  if t_mode c <? 0 then (0, 0, 0, 0)
  else (count_if (0 <? t_histogram_size c), count_if (t_mode c =? RTTST_TMBENCH_TASK),
        count_if (t_mode c =? RTTST_TMBENCH_HANDLER), 1).

Lemma life_needed b : idle b \/ started b -> resources b = needed (b_ctx b).
Proof.
  unfold needed. intros [[_ -> Hr]|[_ Hm Hr _ _]]; [exact Hr|].
  rewrite Hr. destruct Hm as [-> | ->]; reflexivity.
Qed.

(** C23: resources. A context is used for one benchmark at a time: starts, with
    workable configurations, are issued only while none runs. From a fresh
    context, whatever the sequence of such starts, of turns of the measuring task
    and firings of the timer with latencies that fit a [long], of stops and of
    closes, stop and close never fault, and the driver holds exactly what the
    benchmark in progress needs (nothing when none runs; one event, one task or
    timer, and one block of histograms if asked for, when one runs) and what
    failed starts lost; a stop, and a close, give everything else back. A start
    loses nothing when the copy of its configuration or the allocation fails, and
    when the task is created or the timer armed; it loses its event, histograms
    and timer when the creation of the task fails or the context is closing. *)
Theorem tmbench_resources l b cr ch :
  rtc life_step ((0, 0, 0, 0), opened) (l, b) ->
  resources b = add_res l (needed (b_ctx b)) /\
  (exists r b', rt_tmbench_stop cr ch b = OK r b' /\ resources b' = l) /\
  (exists r b', rt_tmbench_close b = OK r b' /\ resources b' = l) /\
  (forall e c, config_ok c ->
     se_copy e = false \/ allocates e c = false \/ creates e c = true ->
     lost_by_start e c = (0, 0, 0, 0)).
Proof.
  intros Hr. assert (Hl : life_inv (l, b)).
  { revert Hr. apply (rtc_invariant life_step life_inv); [|exact life_step_inv].
    exists opened. rewrite shift_none. split; [reflexivity | left; exact opened_idle]. }
  destruct Hl as (b0 & E & Hb). cbn in E. subst b. rewrite shift_ctx, shift_resources, (life_needed b0 Hb).
  assert (Hz : forall x, idle x -> resources (shift l x) = l).
  { intros x Hx. rewrite shift_resources, (id_res x Hx). destruct l as [[[? ?] ?] ?]. cbn. counts_lia. }
  split_and!; [reflexivity | | |].
  - destruct (stop_life cr ch b0 Hb) as (r & b' & E & Hi). exists r, (shift l b'). rewrite shifts_stop, E. auto.
  - destruct (close_life b0 Hb) as (b' & E & Hi). exists 0, (shift l b'). rewrite shifts_close, E. auto.
  - intros e c _ H. unfold lost_by_start.
    destruct (se_copy e), (allocates e c), (creates e c); try reflexivity; intuition discriminate.
Qed.

(** The state an operation leaves. *)
Definition final {A} (m : tm A) (b : bench) : bench :=
  match m b with OK _ b' => b' | Fault _ => b end.

(** A start that fails for want of memory for the task, then one that runs. *)
Lemma tmbench_resources_witness :
  let failing := SENV true true false (-12) 0 5000 in
  exists b1 b2, rt_tmbench_start failing demo_config opened = OK (-12) b1 /\
    rt_tmbench_start good_env demo_config b1 = OK 0 b2 /\ resources b2 = (2, 1, 0, 2) /\
    exists r b', rt_tmbench_close b2 = OK r b' /\ resources b' = (1, 0, 0, 1).
Proof.
  intros failing. set (b1 := final (rt_tmbench_start failing demo_config) opened).
  set (b2 := final (rt_tmbench_start good_env demo_config) b1). exists b1, b2.
  split_and!; try (vm_compute; reflexivity).
  apply (tmbench_resources (add_res (add_res (0, 0, 0, 0) (lost_by_start failing demo_config))
    (lost_by_start good_env demo_config)) b2 0 true).
  eapply rtc_l; [apply (life_start (0, 0, 0, 0) failing demo_config (-12) opened b1);
    [reflexivity | exact demo_config_ok | vm_compute; reflexivity]|].
  apply rtc_once. apply (life_start _ good_env demo_config 0 b1 b2);
    [reflexivity | exact demo_config_ok | vm_compute; reflexivity].
Defined.

(** The configuration is not checked.  A period of 0 divides by zero in
    [rt_tmbench_start]; one above a second leaves no sample per period and the
    first period measured divides by zero; a bucket size of 0 divides by zero
    at the first sample; a negative [histogram_size] allocates nothing but
    passes the test [if (ctx->histogram_size)], and the first sample writes
    through histogram pointers that were never set. *)
Theorem tmbench_config_unchecked :
  rt_tmbench_start good_env (TCFG 0 50 0 1 0 0 0) opened = Fault F_DIVIDE /\
  (exists b1 b2, rt_tmbench_start good_env (TCFG 0 50 2000000000 1 0 0 0) opened = OK 0 b1 /\
     timer_task_turn [] b1 = OK tt b2 /\ timer_task_turn [] b2 = Fault F_DIVIDE) /\
  (exists b1 b2, rt_tmbench_start good_env (TCFG 0 50 100000 1 10 0 0) opened = OK 0 b1 /\
     timer_task_turn [] b1 = OK tt b2 /\ eval_inner_loop 10 b2 = Fault F_DIVIDE) /\
  (exists b1 b2, rt_tmbench_start good_env (TCFG 0 50 100000 1 (-1) 1000 0) opened = OK 0 b1 /\
     timer_task_turn [] b1 = OK tt b2 /\ eval_inner_loop 10 b2 = Fault F_HISTOGRAM).
Proof.
  split; [reflexivity|]. split_and!.
  - set (b1 := final (rt_tmbench_start good_env (TCFG 0 50 2000000000 1 0 0 0)) opened).
    exists b1, (final (timer_task_turn []) b1). split_and!; vm_compute; reflexivity.
  - set (b1 := final (rt_tmbench_start good_env (TCFG 0 50 100000 1 10 0 0)) opened).
    exists b1, (final (timer_task_turn []) b1). split_and!; vm_compute; reflexivity.
  - set (b1 := final (rt_tmbench_start good_env (TCFG 0 50 100000 1 (-1) 1000 0)) opened).
    exists b1, (final (timer_task_turn []) b1). split_and!; vm_compute; reflexivity.
Qed.

(** [Rt_tmbench_start] does not look at the mode.  Started twice without a
    stop, the driver forgets the first task, event and histograms: after a stop
    and a close they are still there.  A failure of [rtdm_task_init] leaves the
    event and the histograms behind in the same way. *)
Theorem tmbench_start_leaks :
  (exists b1 b2 out b3 b4, rt_tmbench_start good_env demo_config opened = OK 0 b1 /\
     rt_tmbench_start good_env demo_config b1 = OK 0 b2 /\
     rt_tmbench_stop 0 true b2 = OK (0, out) b3 /\
     rt_tmbench_close b3 = OK 0 b4 /\ resources b4 = (1, 1, 0, 1)) /\
  (exists b1 b2, rt_tmbench_start (SENV true true false (-12) 0 5000) demo_config opened = OK (-12) b1 /\
     rt_tmbench_close b1 = OK 0 b2 /\ resources b2 = (1, 0, 0, 1)).
Proof.
  split.
  - set (b1 := final (rt_tmbench_start good_env demo_config) opened).
    set (b2 := final (rt_tmbench_start good_env demo_config) b1).
    set (b3 := final (rt_tmbench_stop 0 true) b2).
    exists b1, b2, (match rt_tmbench_stop 0 true b2 with OK (_, o) _ => o | Fault _ => None end),
      b3, (final rt_tmbench_close b3). split_and!; vm_compute; reflexivity.
  - set (b1 := final (rt_tmbench_start (SENV true true false (-12) 0 5000) demo_config) opened).
    exists b1, (final rt_tmbench_close b1). split_and!; vm_compute; reflexivity.
Qed.
