(* ===== verification/Scrambler.v ===== *)
(** * Scrambled remote calls (share/scrambler/scrambler.c)

    The encode and decode hooks of net_rpc: a checksum word is added to a
    message and all of it is xor-ed with a key.  A message is a list of 32-bit
    words.  The macros of rtai_netrpc.h that pack a port word ([EXT], [FUN],
    [PORT], [TIMED], [PACKPORT]) and the table of functions are parameters. *)

From stdpp Require Import base tactics numbers list.
From S2P Require Import Prelude.

(** ** Data *)

(** The default of the module parameter [Key]. *)
Definition Key_default : Z := 3199917037.

(** The points of net_rpc the hooks are called from. *)
Inductive where_t := PRT_REQ | PRT_SRV | PRT_RTR | PRT_RCV | RPC_REQ | RPC_SRV | RPC_RTR | RPC_RCV.

#[export] Instance where_eq_dec : EqDecision where_t.
Proof. solve_decision. Defined.

(** [XTOLONGSIZE(size)], in [unsigned] arithmetic; [sizeof(long)] is 4. *)
Definition XTOLONGSIZE (size : Z) : Z := u32 (size + 4 - 1) / 4.

(** ** memfrob and chksum *)

(** The loop of [memfrob] over the first [n] words; [None] outside the
    message. *)
Fixpoint memfrob_loop (key : Z) (n i : nat) (msg : list Z) : option (list Z) :=
  match n with
  | O => Some msg
  | S n' => w ← msg !! i; memfrob_loop key n' (S i) (<[i := Z.lxor w key]> msg)
  end.

(** [memfrob] *)
Definition memfrob (key : Z) (msg : list Z) (size : Z) : option (list Z) :=
  memfrob_loop key (Z.to_nat (XTOLONGSIZE size)) 0 msg.

(** The loop of [chksum]: the sum of the first [n] words from [i]. *)
Fixpoint chksum_loop (n i : nat) (s : Z) (msg : list Z) : option Z :=
  match n with
  | O => Some s
  | S n' => w ← msg !! i; chksum_loop n' (S i) (u32 (s + w)) msg
  end.

(** [chksum]: the message with the sum in the word after the text, the sum, and
    the word that was there ([*previous]). *)
Definition chksum (msg : list Z) (size : Z) : option (list Z * Z * Z) :=
  let k := Z.to_nat (XTOLONGSIZE size) in
  previous ← msg !! k;
  s ← chksum_loop k 0 0 msg;
  Some (<[k := s]> msg, s, previous).

Section Hooks.

(** rtai_netrpc.h, the key, and the table of remote functions. *)
Context (EXT FUN PORT TIMED : Z -> Z) (PACKPORT : Z -> Z -> Z -> Z -> Z) (key : Z)
        (net_rpc_fun : Z -> Z).

(** [encode]: the scrambled message, its size and [funindx] (the first argument
    is [portslotp->indx]). *)
Definition encode (indx : nat) (msg : list Z) (size : Z) (where_ : where_t) (funindx : list Z)
    : option (list Z * Z * list Z) :=
  if decide (where_ = PRT_REQ \/ where_ = PRT_RTR) then
    '(msg, _, _) ← chksum msg (size - 4);
    msg ← memfrob key msg size;
    Some (msg, size, <[0%nat := -1]> funindx)
  else
    let k := Z.to_nat (XTOLONGSIZE size) in
    _ ← msg !! k;
    let msg := <[k := u32 size]> msg in
    let size := i32 (XTOLONGSIZE size * 4 + 4) in
    '(msg, _, _) ← chksum msg size;
    let size := i32 (size + 4) in
    w4 ← msg !! 4%nat;
    let funindx := if EXT w4 =? 0 then <[indx := FUN w4 + 1]> funindx else funindx in
    msg ← memfrob key msg size;
    Some (msg, size, funindx).

(** [decode]: the message, its size, whether the checksum was wrong, and the
    function stored in [fun_args[9]] for a service request. *)
Definition decode (msg : list Z) (size : Z) (where_ : where_t)
    : option (list Z * Z * bool * option Z) :=
  msg ← memfrob key msg size;
  '(msg, new, old) ← chksum msg (size - 4);
  size' ← (if decide (where_ = RPC_SRV \/ where_ = RPC_RCV)
           then i32 <$> msg !! Z.to_nat (u32 (u32 size / 4 - 2)) else Some size);
  let there_is_an_error := negb (new =? old) in
  match where_ with
  | RPC_SRV =>
      w4 ← msg !! 4%nat;
      let f := Some (net_rpc_fun (FUN w4)) in
      let msg := if EXT w4 =? 0 then <[4%nat := PACKPORT (PORT w4) 1 0 (TIMED w4)]> msg else msg in
      Some (msg, size', there_is_an_error, f)
  | _ => Some (msg, size', there_is_an_error, None)
  end.

End Hooks.

(** ** Facts *)

Definition word (w : Z) : Prop := 0 <= w < 2 ^ 32.

Lemma memfrob_loop_eq key n i msg :
  (i + n <= length msg)%nat ->
  memfrob_loop key n i msg
    = Some (take i msg ++ ((fun w => Z.lxor w key) <$> take n (drop i msg)) ++ drop (i + n) msg).
Proof.
  revert i msg. induction n as [|n IH]; intros i msg Hl; cbn [memfrob_loop].
  - rewrite take_0, Nat.add_0_r. cbn. now rewrite take_drop.
  - destruct (lookup_lt_is_Some_2 msg i) as [w Hw]; [lia|]. rewrite Hw. cbn [mbind option_bind].
    rewrite IH by (len_lia). f_equal.
    rewrite (take_S_r _ _ (Z.lxor w key)) by (apply list_lookup_insert_eq; lia).
    rewrite take_insert_ge, <- app_assoc by lia. f_equal.
    rewrite (drop_S msg w i Hw). cbn [take fmap list_fmap app]. f_equal.
    rewrite !drop_insert_lt by lia. f_equal. f_equal. lia.
Qed.

(** Scrambling a whole message of [n] words. *)
Lemma memfrob_eq key msg n :
  XTOLONGSIZE n = Z.of_nat (length msg) ->
  memfrob key msg n = Some ((fun w => Z.lxor w key) <$> msg).
Proof.
  intros Hn. unfold memfrob. rewrite Hn, Nat2Z.id, memfrob_loop_eq by lia.
  rewrite take_0, drop_0, firstn_all. cbn. now rewrite drop_all, app_nil_r.
Qed.

Lemma chksum_loop_eq n i s msg :
  (i + n <= length msg)%nat -> chksum_loop n i (u32 s) msg = Some (u32 (s + sumZ id (take n (drop i msg)))).
Proof.
  revert i s. induction n as [|n IH]; intros i s Hl; cbn [chksum_loop].
  - rewrite take_0. change (sumZ id []) with 0. now rewrite Z.add_0_r.
  - destruct (lookup_lt_is_Some_2 msg i) as [w Hw]; [lia|]. rewrite Hw. cbn [mbind option_bind].
    rewrite wrap_u_add_l, IH by lia. rewrite (drop_S msg w i Hw). cbn [take]. rewrite sumZ_cons.
    unfold id at 2. now rewrite Z.add_assoc.
Qed.

(** Checksum of a text of [n] words followed by one more. *)
Lemma chksum_eq text x n :
  XTOLONGSIZE n = Z.of_nat (length text) ->
  chksum (text ++ [x]) n = Some (text ++ [u32 (sumZ id text)], u32 (sumZ id text), x).
Proof.
  intros Hn. unfold chksum. rewrite Hn, Nat2Z.id.
  rewrite lookup_app_r, Nat.sub_diag by lia. cbn [lookup list_lookup mbind option_bind].
  pose proof (chksum_loop_eq (length text) 0 0 (text ++ [x])) as E. change (u32 0) with 0 in E.
  rewrite E by (len_lia).
  rewrite drop_0, take_app_length. cbn [mbind option_bind]. rewrite Z.add_0_l.
  rewrite insert_app_r_alt, Nat.sub_diag by lia. reflexivity.
Qed.

Lemma XTOLONGSIZE_mul n : 0 <= n < 2 ^ 29 -> XTOLONGSIZE (n * 4) = n.
Proof.
  intros Hn. unfold XTOLONGSIZE. rewrite wrap_u_id by lia.
  replace (n * 4 + 4 - 1) with (3 + n * 4) by lia. rewrite Z.div_add, Z.div_small by lia. lia.
Qed.

Lemma lxor_involutive key (l : list Z) :
  (fun w => Z.lxor w key) <$> ((fun w => Z.lxor w key) <$> l) = l.
Proof.
  induction l as [|w l IH]; [reflexivity|]. rewrite !fmap_cons, IH.
  now rewrite Z.lxor_assoc, Z.lxor_nilpotent, Z.lxor_0_r.
Qed.

Section Theorems.

Context (EXT FUN PORT TIMED : Z -> Z) (PACKPORT : Z -> Z -> Z -> Z -> Z) (key : Z)
        (net_rpc_fun : Z -> Z).

Local Abbreviation enc := (encode EXT FUN key).
Local Abbreviation dec := (decode EXT FUN PORT TIMED PACKPORT key net_rpc_fun).

(** A remote call of [size] bytes, the words of its text, as sent: text, size,
    checksum, each xor-ed with the key. *)
Definition sealed (text : list Z) (size : Z) : list Z :=
  let t := text ++ [u32 size] in t ++ [u32 (sumZ id t)].

Lemma encode_rpc indx text a b size where_ funindx :
  where_ = RPC_REQ \/ where_ = RPC_RTR ->
  0 <= size -> XTOLONGSIZE size = Z.of_nat (length text) ->
  (5 <= length text)%nat -> Z.of_nat (length text) < 2 ^ 28 ->
  exists funindx', enc indx (text ++ [a; b]) size where_ funindx
    = Some ((fun w => Z.lxor w key) <$> sealed text size, Z.of_nat (length text) * 4 + 8, funindx').
Proof.
  intros Hw Hs HX H5 Hlen. unfold encode.
  rewrite decide_False by (destruct Hw as [-> | ->]; intros [?|?]; discriminate).
  rewrite HX, Nat2Z.id, lookup_app_r, Nat.sub_diag by lia. cbn [lookup list_lookup mbind option_bind].
  rewrite (wrap_s_id 32 (Z.of_nat (length text) * 4 + 4)) by lia.
  rewrite (wrap_s_id 32 (Z.of_nat (length text) * 4 + 4 + 4)) by lia.
  rewrite insert_app_r_alt, Nat.sub_diag by lia. cbn [insert list_insert].
  replace (text ++ [u32 size; b]) with ((text ++ [u32 size]) ++ [b]) by now rewrite <- app_assoc.
  rewrite (chksum_eq (text ++ [u32 size]) b).
  - cbn [mbind option_bind].
    destruct (lookup_lt_is_Some_2 ((text ++ [u32 size]) ++ [u32 (sumZ id (text ++ [u32 size]))]) 4) as [w4 ->];
      [len_lia|].
    cbn [mbind option_bind]. rewrite memfrob_eq.
    + cbn [mbind option_bind]. eexists. do 3 f_equal. lia.
    + rewrite !length_app. cbn [length].
      replace (Z.of_nat (length text) * 4 + 4 + 4) with ((Z.of_nat (length text) + 2) * 4) by lia.
      rewrite XTOLONGSIZE_mul by lia. lia.
  - rewrite length_app. cbn [length].
    replace (Z.of_nat (length text) * 4 + 4) with ((Z.of_nat (length text) + 1) * 4) by lia.
    rewrite XTOLONGSIZE_mul by lia. lia.
Qed.

(** Decoding any message of [n + 2] words: text, size word and checksum [c]. *)
Lemma decode_rpc_rcv text sz c :
  Z.of_nat (length text) < 2 ^ 28 ->
  dec ((fun w => Z.lxor w key) <$> (text ++ [sz]) ++ [c]) (Z.of_nat (length text) * 4 + 8) RPC_RCV
    = Some ((text ++ [sz]) ++ [u32 (sumZ id (text ++ [sz]))], i32 sz,
            negb (u32 (sumZ id (text ++ [sz])) =? c), None).
Proof.
  intros Hlen. unfold decode.
  replace (Z.of_nat (length text) * 4 + 8) with ((Z.of_nat (length text) + 2) * 4) by lia.
  rewrite memfrob_eq by (rewrite length_fmap, !length_app, XTOLONGSIZE_mul by lia; cbn; lia).
  cbn [mbind option_bind]. rewrite lxor_involutive.
  rewrite (chksum_eq (text ++ [sz]) c).
  - cbn [mbind option_bind]. rewrite decide_True by now right.
    rewrite (wrap_u_id 32 ((Z.of_nat (length text) + 2) * 4)), Z.div_mul by lia.
    rewrite (wrap_u_id 32 (Z.of_nat (length text) + 2 - 2)) by lia.
    replace (Z.to_nat (Z.of_nat (length text) + 2 - 2)) with (length text) by lia.
    rewrite lookup_app_l by (len_lia).
    rewrite lookup_app_r, Nat.sub_diag by lia. reflexivity.
  - rewrite length_app. cbn [length].
    replace ((Z.of_nat (length text) + 2) * 4 - 4) with ((Z.of_nat (length text) + 1) * 4) by lia.
    rewrite XTOLONGSIZE_mul by lia. lia.
Qed.

(** C30: an answer comes back as it was sent: decoding what [encode] made of a
    reply gives its words and its size, and no error, whatever the key. *)
Theorem scrambler_roundtrip indx text a b size funindx :
  0 <= size < 2 ^ 28 -> XTOLONGSIZE size = Z.of_nat (length text) -> (5 <= length text)%nat ->
  exists msg n funindx' msg', enc indx (text ++ [a; b]) size RPC_RTR funindx = Some (msg, n, funindx') /\
    dec msg n RPC_RCV = Some (msg', size, false, None) /\ take (length text) msg' = text.
Proof.
  intros Hs HX H5.
  assert (Hlen : Z.of_nat (length text) < 2 ^ 28).
  { rewrite <- HX. unfold XTOLONGSIZE. rewrite wrap_u_id by lia.
    apply Z.div_lt_upper_bound; lia. }
  destruct (encode_rpc indx text a b size RPC_RTR funindx) as [f' E]; try assumption; [now right | lia|].
  exists ((fun w => Z.lxor w key) <$> sealed text size), (Z.of_nat (length text) * 4 + 8), f'.
  eexists. split; [exact E|]. unfold sealed.
  rewrite decode_rpc_rcv by assumption. rewrite Z.eqb_refl. cbn [negb].
  split.
  - rewrite (wrap_u_id 32 size), (wrap_s_id 32 size) by lia. reflexivity.
  - rewrite <- !app_assoc, take_app_length. reflexivity.
Qed.

(** One word damaged on the way, wherever it is, is noticed: the receiver
    finds a checksum that does not match. *)
Theorem scrambler_detects_damage text size i w w' :
  0 <= size < 2 ^ 28 -> Z.of_nat (length text) < 2 ^ 28 ->
  sealed text size !! i = Some w -> word w -> word w' -> w' <> w ->
  exists r, dec ((fun w => Z.lxor w key) <$> <[i := w']> (sealed text size))
              (Z.of_nat (length text) * 4 + 8) RPC_RCV = Some r /\ snd (fst r) = true.
Proof.
  intros Hs Hlen Hi Hw Hw' Hne. unfold word in *.
  assert (Hneq : forall a b : Z, a - w + w' = b -> u32 a <> u32 b).
  { intros a b <- E. unfold wrap_u in E.
    assert (Hz : (w' - w) mod 2 ^ 32 = 0).
    { replace (w' - w) with ((a - w + w') - a) by lia. rewrite Zminus_mod, <- E, Z.sub_diag. reflexivity. }
    apply Z.mod_divide in Hz; [|lia]. destruct Hz as [k Hk]. assert (k = 0) by lia. lia. }
  assert (Hsplit : forall t sz c, length t = length text ->
    negb (u32 (sumZ id (t ++ [sz])) =? c) = true ->
    exists r, dec ((fun w => Z.lxor w key) <$> (t ++ [sz]) ++ [c])
              (Z.of_nat (length text) * 4 + 8) RPC_RCV = Some r /\ snd (fst r) = true).
  { intros t sz c Ht Hb. rewrite <- Ht, decode_rpc_rcv by (rewrite Ht; assumption).
    eexists. split; [reflexivity | exact Hb]. }
  unfold sealed in *. set (t := text ++ [u32 size]) in *.
  assert (Lt : length t = S (length text)) by (unfold t; len_lia).
  apply lookup_app_Some in Hi as [Hi|[Hge Hi]].
  - pose proof (lookup_lt_Some _ _ _ Hi) as Hlt. rewrite insert_app_l by assumption.
    assert (Hchk : negb (u32 (sumZ id (<[i := w']> t)) =? u32 (sumZ id t)) = true).
    { apply negb_true_iff, Z.eqb_neq. intros E. symmetry in E. revert E. apply Hneq.
      now rewrite (sumZ_insert id t i w w'). }
    destruct (decide (i = length text)) as [->|Hni].
    + unfold t in *. rewrite insert_app_r_alt, Nat.sub_diag in * by lia. cbn [insert list_insert] in *.
      now apply Hsplit.
    + unfold t in *. rewrite insert_app_l in * by lia. apply Hsplit; [apply length_insert | exact Hchk].
  - apply list_lookup_singleton_Some in Hi as [Hi0 <-]. rewrite insert_app_r_alt by lia. rewrite Hi0.
    cbn [insert list_insert]. unfold t at 1. apply Hsplit; [reflexivity|].
    fold t. apply negb_true_iff, Z.eqb_neq. congruence.
Qed.

End Theorems.

(** Port macros of a concrete packing: port in the high half, flags below. *)
Definition demo_ext (w : Z) : Z := Z.land w 1.

Lemma scrambler_roundtrip_witness :
  exists msg n funindx' msg',
    encode demo_ext id Key_default 3 ([1; 2; 3; 4; 5; 6] ++ [0; 0]) 22 RPC_RTR [0; 0; 0; 0]
      = Some (msg, n, funindx') /\
    decode demo_ext id id id (fun _ _ _ _ => 0) Key_default id msg n RPC_RCV
      = Some (msg', 22, false, None) /\ take 6 msg' = [1; 2; 3; 4; 5; 6].
Proof.
  apply (scrambler_roundtrip demo_ext id id id (fun _ _ _ _ => 0) Key_default id 3
           [1; 2; 3; 4; 5; 6] 0 0 22 [0; 0; 0; 0]); [lia | reflexivity | cbn; lia].
Defined.

Lemma scrambler_detects_damage_witness :
  exists r, decode demo_ext id id id (fun _ _ _ _ => 0) Key_default id
     ((fun w => Z.lxor w Key_default) <$> <[2%nat := 99]> (sealed [1; 2; 3; 4; 5; 6] 22)) 32 RPC_RCV
     = Some r /\ snd (fst r) = true.
Proof.
  apply (scrambler_detects_damage demo_ext id id id (fun _ _ _ _ => 0) Key_default id
           [1; 2; 3; 4; 5; 6] 22 2 3 99); unfold word; try (lia || reflexivity).
Defined.
