(* ===== verification/CycTime.v ===== *)
(** * cyclictest: time stamps and numbers (posix/user/cyclictest.c)

    [struct timespec] and the arithmetic on it ([tsnorm], [calcdiff],
    [calcdiff_ns]), and the numbers of the command line ([strtol], [atoi],
    [parse_time_string]).  [int], [long] and [time_t] have 32 bits. *)

From stdpp Require Import base tactics numbers list strings.
From Stdlib Require Import Ascii.
From Stdlib Require String.
From S2P Require Import Prelude.

Definition USEC_PER_SEC : Z := 1000000.
Definition NSEC_PER_SEC : Z := 1000000000.

(** ** Time stamps *)

Record timespec := TS { tv_sec : Z; tv_nsec : Z }.

(** The loop of [tsnorm]; [None] when [fuel] is not enough. *)
Fixpoint tsnorm_loop (fuel : nat) (ts : timespec) : option timespec :=
  if tv_nsec ts >=? NSEC_PER_SEC then
    match fuel with
    | O => None
    | S n => tsnorm_loop n (TS (i32 (tv_sec ts + 1)) (i32 (tv_nsec ts - NSEC_PER_SEC)))
    end
  else Some ts.

(** [tsnorm]: a [long] holds at most two seconds of nanoseconds, so the loop runs
    at most twice ([tsnorm_total]). *)
Definition tsnorm (ts : timespec) : timespec := default ts (tsnorm_loop 2 ts).

Definition calcdiff (t1 t2 : timespec) : Z :=
  i64 (USEC_PER_SEC * i32 (tv_sec t1 - tv_sec t2) + Z.quot (i32 (tv_nsec t1 - tv_nsec t2)) 1000).

Definition calcdiff_ns (t1 t2 : timespec) : Z :=
  i64 (NSEC_PER_SEC * i32 (tv_sec t1 - tv_sec t2) + i32 (tv_nsec t1 - tv_nsec t2)).

(** [next.tv_sec += interval.tv_sec; next.tv_nsec += interval.tv_nsec] *)
Definition ts_add (a b : timespec) : timespec :=
  TS (i32 (tv_sec a + tv_sec b)) (i32 (tv_nsec a + tv_nsec b)).

(** The [interval] of a thread, from its [par->interval] in microseconds. *)
Definition interval_ts (interval : Z) : timespec :=
  TS (i32 (u32 interval / USEC_PER_SEC)) (i32 (u32 interval mod USEC_PER_SEC * 1000)).

(** ** Numbers in strings *)

Definition LONG_MAX : Z := 2147483647.
Definition LONG_MIN : Z := -2147483648.

Definition is_space (c : Ascii.ascii) : bool :=
  let n := Z.of_nat (Ascii.nat_of_ascii c) in (n =? 32) || (9 <=? n) && (n <=? 13).

Fixpoint skip_spaces (s : string) : string :=
  match s with
  | String c s' => if is_space c then skip_spaces s' else s
  | EmptyString => s
  end.

Definition digit_of (c : Ascii.ascii) : option Z :=
  let n := Z.of_nat (Ascii.nat_of_ascii c) in
  if (48 <=? n) && (n <=? 57) then Some (n - 48) else None.

(** The digits at the head of a string: their value and what follows. *)
Fixpoint scan_digits (acc : Z) (s : string) : Z * string :=
  match s with
  | String c s' =>
      match digit_of c with
      | Some d => scan_digits (acc * 10 + d) s'
      | None => (acc, s)
      end
  | EmptyString => (acc, s)
  end.

Definition clamp_long (x : Z) : Z :=
  if LONG_MAX <? x then LONG_MAX else if x <? LONG_MIN then LONG_MIN else x.

(** [strtol(val, &end, 10)]: the value and the string at [end]. *)
Definition strtol (val : string) : Z * string :=
  let s := skip_spaces val in
  let '(neg, s1) := match s with
                    | String "-"%char r => (true, r)
                    | String "+"%char r => (false, r)
                    | _ => (false, s)
                    end in
  match s1 with
  | String c _ =>
      match digit_of c with
      | Some _ => let '(v, rest) := scan_digits 0 s1 in (clamp_long (if neg then - v else v), rest)
      | None => (0, val)
      end
  | EmptyString => (0, val)
  end.

Definition atoi (s : string) : Z := i32 (fst (strtol s)).

(** [parse_time_string] *)
Definition parse_time_string (val : string) : Z :=
  let '(n, e) := strtol val in
  let t := i32 n in
  match e with
  | String "m"%char _ | String "M"%char _ => i32 (t * 60)
  | String "h"%char _ | String "H"%char _ => i32 (t * (60 * 60))
  | String "d"%char _ | String "D"%char _ => i32 (t * (24 * 60 * 60))
  | _ => t
  end.

(** ** Facts *)

(** A time stamp of the clock. *)
Definition ts_wf (t : timespec) : Prop :=
  0 <= tv_sec t < 2 ^ 31 - 2 /\ 0 <= tv_nsec t < NSEC_PER_SEC.

(** Its nanoseconds. *)
Definition ns (t : timespec) : Z := tv_sec t * NSEC_PER_SEC + tv_nsec t.

Lemma i32_id x : - 2 ^ 31 <= x < 2 ^ 31 -> i32 x = x.
Proof. intros H. apply wrap_s_id; lia. Qed.

Lemma ns_inj a b : 0 <= tv_nsec a < NSEC_PER_SEC -> 0 <= tv_nsec b < NSEC_PER_SEC ->
  ns a = ns b -> a = b.
Proof. destruct a, b. unfold ns, NSEC_PER_SEC. cbn. intros. f_equal; lia. Qed.

Lemma tsnorm_total s n : exists t, tsnorm_loop 2 (TS s (i32 n)) = Some t /\ tv_nsec t < NSEC_PER_SEC.
Proof.
  pose proof (wrap_s_range 32 n ltac:(lia)) as Hn. set (m := i32 n) in *. clearbody m.
  cbn [tsnorm_loop tv_sec tv_nsec]. unfold NSEC_PER_SEC.
  destruct (m >=? 1000000000) eqn:E; [|eexists; split; [reflexivity|]; cbn; lia].
  rewrite (i32_id (m - 1000000000)) by lia.
  destruct (m - 1000000000 >=? 1000000000) eqn:E2; [|eexists; split; [reflexivity|]; cbn; lia].
  rewrite (i32_id (m - 1000000000 - 1000000000)) by lia.
  replace (m - 1000000000 - 1000000000 >=? 1000000000) with false by lia.
  eexists. split; [reflexivity|]. cbn. lia.
Qed.

(** Adding a normalised interval and normalising: the sum of the nanoseconds. *)
Lemma tsnorm_add a d :
  ts_wf a -> 0 <= tv_sec d -> 0 <= tv_nsec d < NSEC_PER_SEC -> tv_sec a + tv_sec d < 2 ^ 31 - 3 ->
  ts_wf (tsnorm (ts_add a d)) /\ ns (tsnorm (ts_add a d)) = ns a + ns d.
Proof.
  destruct a as [s n], d as [s' n']. unfold ts_wf, ns, ts_add, tsnorm, NSEC_PER_SEC. cbn [tv_sec tv_nsec].
  intros [Hs Hn] Hs' Hn' Hb. rewrite (i32_id (s + s')), (i32_id (n + n')) by lia.
  cbn [tsnorm_loop tv_sec tv_nsec]. unfold NSEC_PER_SEC.
  destruct (n + n' >=? 1000000000) eqn:E.
  - rewrite (i32_id (s + s' + 1)), (i32_id (n + n' - _)) by lia. cbn [tv_sec tv_nsec].
    replace (n + n' - 1000000000 >=? 1000000000) with false by lia.
    cbn. lia.
  - cbn. lia.
Qed.

(** The difference of two time stamps, when it fits. *)
Lemma calcdiff_ns_eq a b : ts_wf a -> ts_wf b -> calcdiff_ns a b = ns a - ns b.
Proof.
  destruct a as [s n], b as [s' n']. unfold ts_wf, ns, calcdiff_ns, NSEC_PER_SEC. cbn [tv_sec tv_nsec].
  intros [Hs Hn] [Hs' Hn']. rewrite !i32_id by lia. rewrite wrap_s_id by lia. lia.
Qed.

(** In microseconds, the nanoseconds of each stamp's second are subtracted first:
    the result is within a microsecond of the exact difference. *)
Lemma calcdiff_near a b : ts_wf a -> ts_wf b ->
  Z.abs (calcdiff a b * 1000 - (ns a - ns b)) < 1000.
Proof.
  destruct a as [s n], b as [s' n']. unfold ts_wf, ns, calcdiff, NSEC_PER_SEC, USEC_PER_SEC.
  cbn [tv_sec tv_nsec]. intros [Hs Hn] [Hs' Hn']. rewrite !i32_id by lia.
  pose proof (Z.quot_rem' (n - n') 1000) as E.
  pose proof (Z.rem_bound_abs (n - n') 1000 ltac:(lia)).
  rewrite wrap_s_id; [lia | lia |]. lia.
Qed.

Lemma calcdiff_nonneg a b : ts_wf a -> ts_wf b -> ns b <= ns a -> 0 <= calcdiff a b.
Proof. intros Ha Hb H. pose proof (calcdiff_near a b Ha Hb). lia. Qed.

Lemma calcdiff_bound a b : ts_wf a -> ts_wf b -> Z.abs (calcdiff a b) <= Z.abs (ns a - ns b) / 1000 + 1.
Proof.
  intros Ha Hb. pose proof (calcdiff_near a b Ha Hb).
  Z.to_euclidean_division_equations. lia.
Qed.
