(* ===== verification/CycOptions.v ===== *)
(** * cyclictest: command line (posix/user/cyclictest.c)

    The global variables the options set, [handlepolicy], [policyname] and
    [process_options].  The options come as [getopt_long] returns them; the
    messages on stdout and stderr are left out.  The program is built without
    NUMA and without EXTRA_SUPPORT, as its Makefile does, so [numa] is 0. *)

From stdpp Require Import base tactics numbers list strings.
From Stdlib Require Import Ascii.
From Stdlib Require String.
From S2P Require Import Prelude CycTime.

(** ** Constants *)

Definition DEFAULT_INTERVAL : Z := 1000.
Definition DEFAULT_DISTANCE : Z := 500.
Definition HIST_MAX : Z := 1000000.
Definition VALBUF_SIZE : Z := 16384.
Definition MAX_PATH : nat := 256.

Definition MODE_CYCLIC : Z := 0.
Definition MODE_CLOCK_NANOSLEEP : Z := 1.
Definition MODE_SYS_ITIMER : Z := 2.
Definition MODE_SYS_NANOSLEEP : Z := 3.
Definition MODE_SYS_OFFSET : Z := 2.
Definition TIMER_RELTIME : Z := 0.
Definition TIMER_ABSTIME : Z := 1.

Definition SCHED_OTHER : Z := 0.
Definition SCHED_FIFO : Z := 1.
Definition SCHED_RR : Z := 2.
Definition SCHED_BATCH : Z := 3.
Definition SCHED_IDLE : Z := 5.

Definition CLOCK_REALTIME : Z := 0.
Definition CLOCK_MONOTONIC : Z := 1.
Definition clocksources : list Z := [CLOCK_MONOTONIC; CLOCK_REALTIME].

(** The tracers of [tracetype]. *)
Definition NOTRACE : Z := 0.
Definition CTXTSWITCH : Z := 1.
Definition IRQSOFF : Z := 2.
Definition PREEMPTOFF : Z := 3.
Definition PREEMPTIRQSOFF : Z := 4.
Definition WAKEUP : Z := 5.
Definition WAKEUPRT : Z := 6.
Definition LATENCY : Z := 7.
Definition FUNCTION : Z := 8.
Definition CUSTOM : Z := 9.

Definition AFFINITY_UNSPECIFIED : Z := 0.
Definition AFFINITY_SPECIFIED : Z := 1.
Definition AFFINITY_USEALL : Z := 2.

(** ** The global variables *)

(** The [int] globals of the program. *)
Inductive gvar :=
| tracelimit | ftrace | verbose | oscope_reduction | lockall | tracetype | histogram | histofall
| duration | use_nsecs | refresh_on_max | force_sched_other | priospread | check_clock_resolution
| ct_debug | latency_target_value | enable_events | use_nanosleep | timermode | use_system
| priority | policy | num_threads | max_cycles | clocksel | quiet | interval | distance
| affinity | smp | setaffinity.

#[export] Instance gvar_eq_dec : EqDecision gvar.
Proof. solve_decision. Defined.

(** Their values, the name of the tracer ([tracer]), the trace options
    ([traceptr]) and [fileprefix]. *)
Record globals := GLOBALS {
  gi : gvar -> Z;
  tracer : string;
  traceptr : list string;
  fileprefix : option string }.

Definition procfileprefix : string := "/proc/sys/kernel/".

(** The values at the start of the program. *)
Definition globals0 : globals :=
  GLOBALS (fun v => match v with
                    | oscope_reduction | num_threads => 1
                    | timermode => TIMER_ABSTIME
                    | interval => DEFAULT_INTERVAL
                    | distance => -1
                    | _ => 0
                    end) "" [] None.

(** [v = x] *)
Definition set (v : gvar) (x : Z) (g : globals) : globals :=
  GLOBALS (fun w => if decide (w = v) then x else gi g w) (tracer g) (traceptr g) (fileprefix g).

(** [strncpy(tracer, s, sizeof(tracer))] *)
Definition set_tracer (s : string) (g : globals) : globals :=
  GLOBALS (gi g) (String.substring 0 MAX_PATH s) (traceptr g) (fileprefix g).

(** [traceopt]: the table grows as needed; an allocation that fails is fatal. *)
Definition traceopt (option_ : string) (g : globals) : globals :=
  GLOBALS (gi g) (tracer g) (traceptr g ++ [option_]) (fileprefix g).

Definition set_fileprefix (p : option string) (g : globals) : globals :=
  GLOBALS (gi g) (tracer g) (traceptr g) p.

(** ** Scheduling policies *)

Definition to_lower (c : Ascii.ascii) : Ascii.ascii :=
  let n := Ascii.nat_of_ascii c in
  if (65 <=? n)%nat && (n <=? 90)%nat then Ascii.ascii_of_nat (n + 32) else c.

Fixpoint lower (s : string) : string :=
  match s with EmptyString => EmptyString | String c s' => String (to_lower c) (lower s') end.

(** [strncasecmp(a, b, n) == 0] , on the first [n] characters. *)
Definition strncasecmp_eq (a b : string) (n : nat) : bool :=
  bool_decide (lower (String.substring 0 n a) = lower (String.substring 0 n b)).

Definition handlepolicy (polname : string) : Z :=
  if strncasecmp_eq polname "other" 5 then SCHED_OTHER
  else if strncasecmp_eq polname "batch" 5 then SCHED_BATCH
  else if strncasecmp_eq polname "idle" 4 then SCHED_IDLE
  else if strncasecmp_eq polname "fifo" 4 then SCHED_FIFO
  else if strncasecmp_eq polname "rr" 2 then SCHED_RR
  else SCHED_OTHER.

Definition policyname (policy : Z) : string :=
  if policy =? SCHED_OTHER then "other"
  else if policy =? SCHED_FIFO then "fifo"
  else if policy =? SCHED_RR then "rr"
  else if policy =? SCHED_BATCH then "batch"
  else if policy =? SCHED_IDLE then "idle"
  else "".

(** ** process_options *)

(** What [getopt_long] returns: the letter, [optarg], and [argv[optind]] when
    [optind < argc]. *)
Record getopt := GETOPT { o_c : Ascii.ascii; optarg : option string; argnext : option string }.

(** How the program goes on: with these globals, or it ends ([display_help] and
    [fatal] do not return), or it reads [optarg] when it is NULL. *)
Inductive outcome := Go (g : globals) | Exit (code : Z) | NullArg.

(** A case that reads [optarg]. *)
Definition with_arg (o : getopt) (k : string -> globals) : outcome :=
  match optarg o with Some s => Go (k s) | None => NullArg end.

(** An [int] option whose argument may be missing or the next word of [argv]. *)
Definition optional_number (o : getopt) : option Z :=
  match optarg o with
  | Some s => Some (atoi s)
  | None => match argnext o with
            | Some s => if atoi s =? 0 then None else Some (atoi s)
            | None => None
            end
  end.

(** The [switch] of [process_options]. *)
Definition option_case (max_cpus : Z) (o : getopt) (g : globals) : outcome :=
  let v := gi g in
  match o_c o with
  | "a"%char =>
      if v smp =? 0 then
        match optional_number o with
        | Some n => Go (set setaffinity AFFINITY_SPECIFIED (set affinity n g))
        | None => Go (set setaffinity AFFINITY_USEALL g)
        end
      else Go g
  | "b"%char => with_arg o (fun s => set tracelimit (atoi s) g)
  | "B"%char => Go (set tracetype PREEMPTIRQSOFF g)
  | "c"%char => with_arg o (fun s => set clocksel (atoi s) g)
  | "C"%char => Go (set tracetype CTXTSWITCH g)
  | "d"%char => with_arg o (fun s => set distance (atoi s) g)
  | "D"%char => with_arg o (fun s => set duration (parse_time_string s) g)
  | "e"%char => with_arg o (fun s => set latency_target_value (Z.max 0 (atoi s)) g)
  | "E"%char => Go (set enable_events 1 g)
  | "f"%char => Go (set ftrace 1 (set tracetype FUNCTION g))
  | "H"%char => with_arg o (fun s => set histogram (atoi s) (set histofall 1 g))
  | "h"%char => with_arg o (fun s => set histogram (atoi s) g)
  | "i"%char => with_arg o (fun s => set interval (atoi s) g)
  | "I"%char =>
      if v tracetype =? PREEMPTOFF then Go (set_tracer "preemptirqsoff" (set tracetype PREEMPTIRQSOFF g))
      else Go (set_tracer "irqsoff" (set tracetype IRQSOFF g))
  | "l"%char => with_arg o (fun s => set max_cycles (atoi s) g)
  | "m"%char => Go (set lockall 1 g)
  | "M"%char => Go (set refresh_on_max 1 g)
  | "n"%char => Go (set use_nanosleep MODE_CLOCK_NANOSLEEP g)
  | "N"%char => Go (set use_nsecs 1 g)
  | "o"%char => with_arg o (fun s => set oscope_reduction (atoi s) g)
  | "O"%char => with_arg o (fun s => traceopt s g)
  | "p"%char =>
      with_arg o (fun s =>
        let g := set priority (atoi s) g in
        if negb (v policy =? SCHED_FIFO) && negb (v policy =? SCHED_RR) then set policy SCHED_FIFO g else g)
  | "P"%char =>
      if v tracetype =? IRQSOFF then Go (set_tracer "preemptirqsoff" (set tracetype PREEMPTIRQSOFF g))
      else Go (set_tracer "preemptoff" (set tracetype PREEMPTOFF g))
  | "q"%char => Go (set quiet 1 g)
  | "Q"%char => Go (set priospread 1 g)
  | "r"%char => Go (set timermode TIMER_RELTIME g)
  | "R"%char => Go (set check_clock_resolution 1 g)
  | "s"%char => Go (set use_system MODE_SYS_OFFSET g)
  | "S"%char =>
      Go (set use_nanosleep MODE_CLOCK_NANOSLEEP
           (set setaffinity AFFINITY_USEALL (set num_threads max_cpus (set smp 1 g))))
  | "t"%char =>
      if v smp =? 0 then
        match optional_number o with
        | Some n => Go (set num_threads n g)
        | None => Go (set num_threads max_cpus g)
        end
      else Go g
  | "T"%char => with_arg o (fun s => set_tracer s (set tracetype CUSTOM g))
  | "U"%char => if v smp =? 0 then Go g else Exit 1
  | "v"%char => Go (set verbose 1 g)
  | "w"%char => Go (set tracetype WAKEUP g)
  | "W"%char => Go (set tracetype WAKEUPRT g)
  | "X"%char => Go (set ct_debug 1 g)
  | "y"%char => with_arg o (fun s => set policy (handlepolicy s) g)
  | "?"%char => Exit 0
  | _ => Go g
  end.

Fixpoint option_loop (max_cpus : Z) (l : list getopt) (g : globals) : outcome :=
  match l with
  | [] => Go g
  | o :: l' =>
      match option_case max_cpus o g with
      | Go g' => option_loop max_cpus l' g'
      | r => r
      end
  end.

(** The conditions after the loop that set [error]. *)
Definition options_error (max_cpus : Z) (g : globals) : bool :=
  let v := gi g in
  (v setaffinity =? AFFINITY_SPECIFIED) && ((v affinity <? 0) || (v affinity >=? max_cpus))
  || (v clocksel <? 0) || (v clocksel >? Z.of_nat (length clocksources))
  || (v oscope_reduction <? 1)
  || (v oscope_reduction >? 1) && (v verbose =? 0)
  || (v histogram <? 0)
  || (v priority <? 0) || (v priority >? 99)
  || (v num_threads <? 1).

(** The defaults set after the loop: the file prefix, the histogram and the
    distance, and then the priority and the policy. *)
Definition default_ranges (g : globals) : globals :=
  let g := if negb (gi g setaffinity =? AFFINITY_SPECIFIED) && negb (gi g tracelimit =? 0)
           then set_fileprefix (Some procfileprefix) g else g in
  let g := if gi g histogram >? HIST_MAX then set histogram HIST_MAX g else g in
  if gi g distance =? -1 then set distance DEFAULT_DISTANCE g else g.

Definition default_priority (g : globals) : globals :=
  let g := if negb (gi g priospread =? 0) && (gi g priority =? 0)
           then set priority (i32 (gi g num_threads + 1)) g else g in
  let g := if negb (gi g priority =? 0) && negb (gi g policy =? SCHED_FIFO) && negb (gi g policy =? SCHED_RR)
           then set policy SCHED_FIFO g else g in
  if ((gi g policy =? SCHED_FIFO) || (gi g policy =? SCHED_RR)) && (gi g priority =? 0)
  then set priority (i32 (gi g num_threads + 1)) g else g.

(** [process_options] *)
Definition process_options (max_cpus : Z) (l : list getopt) (g : globals) : outcome :=
  match option_loop max_cpus l g with
  | Go g => if options_error max_cpus g then Exit 1 else Go (default_priority (default_ranges g))
  | r => r
  end.

(** ** Facts *)

Lemma gi_set v x g w : gi (set v x g) w = if decide (w = v) then x else gi g w.
Proof. reflexivity. Qed.

(** Evaluate reads of assigned variables. *)
Ltac globals_simpl :=
  repeat (rewrite gi_set || (progress cbn [gi set_fileprefix set_tracer]));
  repeat match goal with
  | |- context [decide (?a = ?a)] => rewrite (decide_True (P := a = a)) by reflexivity
  | |- context [decide (?a = ?b)] => rewrite (decide_False (P := a = b)) by discriminate
  end.

(** The letters of the option string that take an argument. *)
Definition required : list Ascii.ascii :=
  ["b"; "c"; "d"; "D"; "e"; "h"; "H"; "i"; "l"; "o"; "O"; "p"; "T"; "y"]%char.

(** What [getopt_long] promises: an option declared with an argument has one. *)
Definition getopt_ok (o : getopt) : Prop := o_c o ∈ required -> is_Some (optarg o).

Lemma option_case_arg max_cpus o g : getopt_ok o -> option_case max_cpus o g <> NullArg.
Proof.
  intros Ho. unfold getopt_ok in Ho. destruct o as [c arg next]. cbn in Ho.
  destruct arg as [s|].
  - clear Ho. unfold option_case. cbn [o_c optarg with_arg].
    destruct c as [[] [] [] [] [] [] [] []]; cbn beta iota; try discriminate; repeat split_if; discriminate.
  - assert (Hn : c ∉ required) by (intros Hc; destruct (Ho Hc); discriminate).
    unfold option_case. cbn [o_c].
    destruct c as [[] [] [] [] [] [] [] []];
      try (exfalso; apply Hn; apply (bool_decide_unpack _); vm_compute; exact I);
      cbn beta iota; try discriminate; repeat split_if; try discriminate;
      destruct (optional_number _); discriminate.
Qed.

Lemma option_loop_arg max_cpus l g : Forall getopt_ok l -> option_loop max_cpus l g <> NullArg.
Proof.
  intros Hl. revert g. induction Hl as [|o l Ho _ IH]; intros g; cbn [option_loop]; [discriminate|].
  pose proof (option_case_arg max_cpus o g Ho). destruct (option_case max_cpus o g); auto; discriminate.
Qed.

(** A real-time policy. *)
Definition realtime (p : Z) : Prop := p = SCHED_FIFO \/ p = SCHED_RR.

(** The options the threads are started with. *)
Record options_ok (max_cpus : Z) (g : globals) : Prop := {
  oo_threads : 1 <= gi g num_threads;
  oo_histogram : 0 <= gi g histogram <= HIST_MAX;
  oo_oscope : 1 <= gi g oscope_reduction;
  oo_verbose : 1 < gi g oscope_reduction -> gi g verbose <> 0;
  oo_clock : 0 <= gi g clocksel <= 2;
  oo_affinity : gi g setaffinity = AFFINITY_SPECIFIED -> 0 <= gi g affinity < max_cpus;
  oo_priority : 0 <= gi g priority <= 99 \/
    98 < gi g num_threads /\ gi g priority = i32 (gi g num_threads + 1);
  oo_policy : gi g num_threads < INT_MAX -> (0 < gi g priority <-> realtime (gi g policy));
  oo_spread : gi g num_threads < INT_MAX -> gi g priospread <> 0 -> 0 < gi g priority }.

(** The defaults write nothing else. *)
Lemma default_ranges_eq g :
  (forall v, v <> histogram -> v <> distance -> gi (default_ranges g) v = gi g v) /\
  gi (default_ranges g) histogram = Z.min (gi g histogram) HIST_MAX.
Proof.
  unfold default_ranges.
  set (g1 := if _ && _ then _ else g). assert (E1 : gi g1 = gi g) by (unfold g1; split_if; reflexivity).
  clearbody g1.
  set (g2 := if _ >? _ then _ else g1).
  assert (E2 : gi g2 histogram = Z.min (gi g histogram) HIST_MAX /\ forall v, v <> histogram -> gi g2 v = gi g v).
  { unfold g2. rewrite <- E1. split_if; split; intros; globals_simpl; rewrite ?decide_False by assumption; lia. }
  clearbody g2. destruct E2 as [E2 E3]. split.
  - intros v H1 H2. split_if; globals_simpl; rewrite ?decide_False by assumption; now apply E3.
  - split_if; globals_simpl; exact E2.
Qed.

Lemma default_priority_eq g v : v <> priority -> v <> policy -> gi (default_priority g) v = gi g v.
Proof.
  intros H1 H2. unfold default_priority. cbv zeta.
  repeat split_if; globals_simpl; rewrite ?decide_False by assumption; reflexivity.
Qed.

(** The priority is the one asked for, or the default. *)
Lemma default_priority_range g :
  1 <= gi g num_threads -> 0 <= gi g priority <= 99 ->
  let g' := default_priority g in
  0 <= gi g' priority <= 99 \/ 98 < gi g num_threads /\ gi g' priority = i32 (gi g num_threads + 1).
Proof.
  intros Hn Hp. unfold default_priority. cbv zeta.
  assert (Hx : forall x, x = i32 (gi g num_threads + 1) ->
    0 <= x <= 99 \/ 98 < gi g num_threads /\ x = i32 (gi g num_threads + 1)).
  { intros x ->. destruct (Z.le_gt_cases (gi g num_threads) 98); [|auto]. left. rewrite i32_id; lia. }
  repeat split_if; globals_simpl; auto.
Qed.

Lemma default_priority_ok g :
  1 <= gi g num_threads < INT_MAX -> 0 <= gi g priority <= 99 ->
  let g' := default_priority g in
  (0 < gi g' priority <-> realtime (gi g' policy)) /\ (gi g priospread <> 0 -> 0 < gi g' priority).
Proof.
  intros Hn Hp. unfold default_priority, realtime, SCHED_FIFO, SCHED_RR, INT_MAX in *.
  rewrite (i32_id (gi g num_threads + 1)) by lia. cbv zeta.
  set (g1 := if _ && _ then _ else g).
  assert (E1 : gi g1 policy = gi g policy /\ gi g1 num_threads = gi g num_threads /\
               0 <= gi g1 priority /\ (gi g priospread <> 0 -> 0 < gi g1 priority)).
  { unfold g1. split_if; globals_simpl; repeat split; lia. }
  clearbody g1. destruct E1 as (E1 & E2 & E3 & E4).
  set (g2 := if negb _ && _ && _ then _ else g1).
  assert (E5 : gi g2 priority = gi g1 priority /\ gi g2 num_threads = gi g num_threads /\
               (0 < gi g1 priority -> gi g2 policy = 1 \/ gi g2 policy = 2)).
  { unfold g2. split_if; globals_simpl; repeat split; lia. }
  clearbody g2. destruct E5 as (E5 & E6 & E7). rewrite E6, i32_id by lia.
  split_if; globals_simpl; repeat split; lia.
Qed.

Lemma options_defaults_ok max_cpus g :
  options_error max_cpus g = false -> options_ok max_cpus (default_priority (default_ranges g)).
Proof.
  intros He. unfold options_error in He. bool_to_prop.
  change (Z.of_nat (length clocksources)) with 2 in *.
  destruct (default_ranges_eq g) as [Hr Hh].
  assert (Ha : gi g setaffinity = AFFINITY_SPECIFIED -> 0 <= gi g affinity < max_cpus).
  { intros E. repeat match goal with H : _ \/ _ |- _ => destruct H end; bool_to_prop; lia. }
  assert (Ho : 1 < gi g oscope_reduction -> gi g verbose <> 0).
  { intros E. repeat match goal with H : _ \/ _ |- _ => destruct H end; bool_to_prop; lia. }
  pose proof (default_priority_ok (default_ranges g)) as Hd.
  pose proof (default_priority_range (default_ranges g)) as Hd'. cbv zeta in Hd, Hd'.
  rewrite !Hr in Hd, Hd' by discriminate.
  split; rewrite ?(default_priority_eq (default_ranges g)) by discriminate;
    rewrite ?Hh, ?Hr by discriminate; unfold HIST_MAX; try assumption; try lia;
    rewrite ?(default_priority_eq (default_ranges g) num_threads), ?(Hr num_threads) by discriminate;
    [apply Hd'; lia | | ]; intros; apply Hd; auto; rewrite ?(Hr priospread) by discriminate; auto; lia.
Qed.

(** C31: the command line: when every option that needs an argument has one, the
    program never reads a missing argument; and when it goes on to start the
    threads, the number of threads, the histogram, the reduction and the processor
    are in range; the priority is in 0..99, or there are more than 98 threads and
    it is the default, the number of threads plus one, which is not checked
    ([options_priority_unchecked]); and with less than [INT_MAX] threads the policy
    is a real-time one exactly when the priority is positive, as it is when
    priorities are to be spread. *)
Theorem process_options_ok max_cpus l g :
  Forall getopt_ok l ->
  process_options max_cpus l g <> NullArg /\
  forall g', process_options max_cpus l g = Go g' -> options_ok max_cpus g'.
Proof.
  intros Hl. unfold process_options. pose proof (option_loop_arg max_cpus l g Hl).
  destruct (option_loop max_cpus l g) as [g1| |]; try easy.
  destruct (options_error max_cpus g1) eqn:He; split; try discriminate.
  intros g' [= <-]. now apply options_defaults_ok.
Qed.

Definition demo_options : list getopt :=
  [GETOPT "t"%char (Some "3") None; GETOPT "Q"%char None None; GETOPT "h"%char (Some "400") None].

Lemma process_options_ok_witness :
  process_options 4 demo_options globals0 <> NullArg /\
  forall g', process_options 4 demo_options globals0 = Go g' -> options_ok 4 g'.
Proof.
  apply process_options_ok. repeat constructor; intros H; try (eexists; reflexivity).
  exfalso. revert H. apply (bool_decide_unpack _). vm_compute. exact I.
Defined.

(** The bound on the clock is one too large: option [-c 2] is accepted, and there is
    no such entry in [clocksources]. *)
Lemma options_clocksel_out_of_bounds :
  exists g, process_options 4 [GETOPT "c"%char (Some "2") None] globals0 = Go g /\
    clocksources !! Z.to_nat (gi g clocksel) = None.
Proof. eexists. split; [reflexivity|]. vm_compute. reflexivity. Qed.

(** The range of the priority is checked before the default is set: 200 threads
    whose priorities are to be spread start at priority 201. *)
Lemma options_priority_unchecked :
  exists g, process_options 4 [GETOPT "t"%char (Some "200") None; GETOPT "Q"%char None None] globals0 = Go g /\
    gi g priority = 201.
Proof. eexists. split; [reflexivity|]. vm_compute. reflexivity. Qed.
