(* ===== verification/CycThread.v ===== *)
(** * cyclictest: the timer threads (posix/user/cyclictest.c)

    [struct thread_param], [struct thread_stat], [raise_soft_prio],
    [setscheduler], the thread function [timerthread], and the reports
    [print_stat] and [print_hist].  The sleeps and the readings of the clock are
    the inputs of a turn of the thread's loop; the output on stdout is the list
    of the printed numbers. *)

From stdpp Require Import base tactics numbers list strings.
From S2P Require Import Prelude CycTime CycOptions.

(** ** Data *)

Record thread_param := PAR {
  prio : Z; p_policy : Z; mode : Z; p_timermode : Z; clock : Z;
  p_max_cycles : Z; bufmsk : Z; p_interval : Z; cpu : Z; node : Z }.

Record thread_stat := STAT {
  cycles : Z; min : Z; max : Z; act : Z; avg : Z;
  values : list Z; hist_array : list Z; outliers : list Z;
  hist_overflow : Z; num_outliers : Z; tid : Z; threadstarted : Z;
  cyclesread : Z; reduce : Z; redmax : Z; cycleofmax : Z }.

(** An integer as a [double] holds it: 53 significant bits, ties to even. *)
Definition to_double (x : Z) : Z :=
  let k := Z.log2 (Z.abs x) - 52 in
  if k <=? 0 then x
  else let p := 2 ^ k in
       let q := x / p in
       let r := x mod p in
       (if (2 * r <? p) || (2 * r =? p) && Z.even q then q else q + 1) * p.

(** ** Priorities *)

Section Scheduler.

(** The system: the errno of [sched_setscheduler] for a priority under given
    limits (0 for success), the result of [sched_get_priority_max], the errno of
    [getrlimit], and that of [setrlimit] for a new soft limit. *)
Context (sys_setscheduler : Z -> Z -> Z * Z -> Z) (sys_priority_max : Z -> Z + Z)
        (sys_getrlimit : Z) (sys_setrlimit : Z -> Z * Z -> Z).

Definition RLIM_INFINITY : Z := 4294967295.
Definition errno_EPERM : Z := 1.

(** [raise_soft_prio]: its result and the limits (soft, hard) it leaves. *)
Definition raise_soft_prio (pol prio : Z) (rlim : Z * Z) : Z * (Z * Z) :=
  match sys_priority_max pol with
  | inr err => (err, rlim)
  | inl policy_max =>
      if sys_getrlimit =? 0 then
        let soft_max := if fst rlim =? RLIM_INFINITY then policy_max else i32 (fst rlim) in
        let hard_max := if snd rlim =? RLIM_INFINITY then policy_max else i32 (snd rlim) in
        if (prio >? soft_max) && (prio <=? hard_max) then
          let err := sys_setrlimit (u32 prio) rlim in
          (err, if err =? 0 then (u32 prio, snd rlim) else rlim)
        else (-1, rlim)
      else (sys_getrlimit, rlim)
  end.

(** [setscheduler], trying again at most [fuel] times; [None] when that is not
    enough. *)
Fixpoint setscheduler (fuel : nat) (pol prio : Z) (rlim : Z * Z) : option (Z * (Z * Z)) :=
  let err := sys_setscheduler pol prio rlim in
  if err =? errno_EPERM then
    let '(err1, rlim') := raise_soft_prio pol prio rlim in
    if err1 =? 0 then
      match fuel with O => None | S n => setscheduler n pol prio rlim' end
    else Some (err, rlim')
  else Some (err, rlim).

(** A failing call sets errno. *)
Context (errno_set : forall pol err, sys_priority_max pol = inr err -> err <> 0).

Lemma raise_fails pol prio rlim e rlim' :
  raise_soft_prio pol prio rlim = (e, rlim') -> e <> 0 -> rlim' = rlim.
Proof.
  unfold raise_soft_prio. intros H He. destruct (sys_priority_max pol); [|congruence].
  destruct (sys_getrlimit =? 0); [|congruence]. destruct (_ && _); [|congruence].
  injection H as <- <-. destruct (_ =? 0) eqn:E; [lia | reflexivity].
Qed.

(** The limit is raised to the priority, and then it is not raised again. *)
Lemma raise_soft_prio_once pol prio rlim rlim' :
  0 <= prio < 2 ^ 31 -> raise_soft_prio pol prio rlim = (0, rlim') ->
  rlim' = (prio, snd rlim) /\ fst (raise_soft_prio pol prio rlim') <> 0.
Proof.
  intros Hp. unfold raise_soft_prio. destruct (sys_priority_max pol) as [pm|err] eqn:Em.
  - destruct (sys_getrlimit =? 0) eqn:Eg; [|intros [= E _]; lia].
    destruct ((prio >? _) && _) eqn:Er; [|discriminate].
    rewrite (wrap_u_id 32 prio) by lia. intros [= E <-]. rewrite E. cbn [Z.eqb fst snd]. split; [reflexivity|].
    replace (prio =? RLIM_INFINITY) with false by (unfold RLIM_INFINITY; lia).
    rewrite (i32_id prio) by lia. rewrite Z.gtb_ltb, Z.ltb_irrefl. discriminate.
  - intros [= E _]. exfalso. now apply (errno_set pol err Em).
Qed.

(** C32: [setscheduler] ends: the soft limit is raised at most once, so that two
    tries are enough; and what it returns is the result of its last try, under
    the limits it leaves. *)
Theorem setscheduler_terminates pol prio rlim :
  0 <= prio < 2 ^ 31 ->
  exists err rlim', setscheduler 1 pol prio rlim = Some (err, rlim') /\
    err = sys_setscheduler pol prio rlim' /\
    (rlim' = rlim \/ rlim' = (prio, snd rlim) /\ sys_setscheduler pol prio rlim = errno_EPERM).
Proof.
  intros Hp. cbn [setscheduler].
  destruct (sys_setscheduler pol prio rlim =? errno_EPERM) eqn:E1; [|eauto 6].
  apply Z.eqb_eq in E1. destruct (raise_soft_prio pol prio rlim) as [e1 r1] eqn:Er.
  destruct (e1 =? 0) eqn:E0.
  - apply Z.eqb_eq in E0 as ->. apply raise_soft_prio_once in Er as [-> Hr]; [|exact Hp].
    destruct (sys_setscheduler pol prio (prio, snd rlim) =? errno_EPERM) eqn:E2; [|eauto 8].
    destruct (raise_soft_prio pol prio (prio, snd rlim)) as [e2 r2] eqn:Er2. cbn [fst] in Hr.
    replace (e2 =? 0) with false by lia.
    assert (r2 = (prio, snd rlim)) as -> by now apply raise_fails in Er2.
    eauto 8.
  - assert (r1 = rlim) as -> by (apply raise_fails in Er; [exact Er | lia]). eauto 6.
Qed.

End Scheduler.

(** An unprivileged system with a hard limit of 60: a priority needs a soft limit
    as high. *)
Definition demo_setscheduler (pol prio : Z) (rlim : Z * Z) : Z :=
  if prio <=? fst rlim then 0 else errno_EPERM.

Lemma setscheduler_terminates_witness :
  exists err rlim',
    setscheduler demo_setscheduler (fun _ => inl 99) 0 (fun new rlim => if new <=? snd rlim then 0 else 22)
      1 SCHED_FIFO 50 (0, 60) = Some (err, rlim') /\
    err = demo_setscheduler SCHED_FIFO 50 rlim' /\
    (rlim' = (0, 60) \/ rlim' = (50, 60) /\ demo_setscheduler SCHED_FIFO 50 (0, 60) = errno_EPERM).
Proof.
  apply (setscheduler_terminates demo_setscheduler (fun _ => inl 99) 0
           (fun new rlim => if new <=? snd rlim then 0 else 22)); [discriminate | lia].
Defined.

(** ** timerthread *)

(** The variables of the loop: the statistics, [next], [stopped], and the globals
    [shutdown], [break_thread_id] and [break_thread_value].  [lg] is a ghost: the
    latencies of the turns so far. *)
Record loop := LOOP {
  st : thread_stat; next : timespec; stopped : Z;
  shutdown : Z; break_thread_id : Z; break_thread_value : Z;
  lg : list Z }.

(** What a turn gets from the system: whether another thread or a signal has set
    [shutdown] when the loop tests it, the results of [clock_gettime] before a
    relative sleep, of the sleep, and of [clock_gettime] after it (0, or an error). *)
Record wake := WAKE {
  w_shutdown : bool; w_before : Z * timespec; w_sleep : Z; w_now : Z * timespec }.

(** How a turn ends. *)
Inductive turn_end :=
| Again (l : loop)        (* the next turn *)
| Out (l : loop)          (* out of the loop *)
| Wild.                   (* a write outside an array of the statistics *)

Definition set_next (t : timespec) (l : loop) : loop :=
  LOOP (st l) t (stopped l) (shutdown l) (break_thread_id l) (break_thread_value l) (lg l).

Definition set_stat (s : thread_stat) (l : loop) : loop :=
  LOOP s (next l) (stopped l) (shutdown l) (break_thread_id l) (break_thread_value l) (lg l).

(** Waiting for the next period; [None] is [goto out]. *)
Definition wait_period (par : thread_param) (w : wake) (l : loop) : option loop :=
  let relative :=
    if negb (fst (w_before w) =? 0) then None
    else if negb (w_sleep w =? 0) then None
    else Some (set_next (tsnorm (ts_add (snd (w_before w)) (interval_ts (p_interval par)))) l) in
  if mode par =? MODE_CLOCK_NANOSLEEP then
    if p_timermode par =? TIMER_ABSTIME then
      if negb (w_sleep w =? 0) then None else Some l
    else relative
  else if mode par =? MODE_SYS_NANOSLEEP then relative
  else Some l.

(** The part of a turn that updates [min], [max] and [avg]. *)
Definition note_extremes (diff : Z) (s : thread_stat) : thread_stat :=
  STAT (cycles s) (if diff <? min s then i32 diff else min s) (if diff >? max s then i32 diff else max s)
    (act s) (to_double (avg s + to_double diff)) (values s) (hist_array s) (outliers s)
    (hist_overflow s) (num_outliers s) (tid s) (threadstarted s)
    (cyclesread s) (reduce s) (redmax s) (cycleofmax s).

(** The end of the run: its duration, and the latency threshold. *)
Definition check_limits (g : globals) (diff : Z) (now stop : timespec) (l : loop) : loop :=
  let sd := if negb (gi g duration =? 0) && (calcdiff now stop >=? 0) then shutdown l + 1 else shutdown l in
  if (stopped l =? 0) && negb (gi g tracelimit =? 0) && (diff >? gi g tracelimit) then
    LOOP (st l) (next l) (stopped l + 1) (sd + 1)
      (if break_thread_id l =? 0 then tid (st l) else break_thread_id l) (u64 diff) (lg l)
  else LOOP (st l) (next l) (stopped l) sd (break_thread_id l) (break_thread_value l) (lg l).

(** [stat->act = diff] and the value buffer. *)
Definition store_value (par : thread_param) (diff : Z) (s : thread_stat) : option thread_stat :=
  let upd v := STAT (cycles s) (min s) (max s) (i32 diff) (avg s) v (hist_array s) (outliers s)
    (hist_overflow s) (num_outliers s) (tid s) (threadstarted s)
    (cyclesread s) (reduce s) (redmax s) (cycleofmax s) in
  if bufmsk par =? 0 then Some (upd (values s))
  else let k := Z.to_nat (Z.land (cycles s) (bufmsk par)) in
       _ ← values s !! k; Some (upd (<[k := i32 diff]> (values s))).

(** The histogram. *)
Definition count_latency (g : globals) (diff : Z) (s : thread_stat) : option thread_stat :=
  let upd h o ov n := STAT (cycles s) (min s) (max s) (act s) (avg s) (values s) h o
    ov n (tid s) (threadstarted s) (cyclesread s) (reduce s) (redmax s) (cycleofmax s) in
  if gi g histogram =? 0 then Some s
  else if diff >=? gi g histogram then
    if num_outliers s <? gi g histogram then
      let k := Z.to_nat (num_outliers s) in
      _ ← outliers s !! k;
      Some (upd (hist_array s) (<[k := i32 (cycles s)]> (outliers s))
                (i32 (hist_overflow s + 1)) (i32 (num_outliers s + 1)))
    else Some (upd (hist_array s) (outliers s) (i32 (hist_overflow s + 1)) (num_outliers s))
  else if diff <? 0 then None
  else let k := Z.to_nat diff in
       c ← hist_array s !! k;
       Some (upd (<[k := i32 (c + 1)]> (hist_array s)) (outliers s) (hist_overflow s) (num_outliers s)).

Definition bump_cycles (s : thread_stat) : thread_stat :=
  STAT (u32 (cycles s + 1)) (min s) (max s) (act s) (avg s) (values s) (hist_array s) (outliers s)
    (hist_overflow s) (num_outliers s) (tid s) (threadstarted s)
    (cyclesread s) (reduce s) (redmax s) (cycleofmax s).

(** The latency of a wake-up. *)
Definition latency (g : globals) (now next : timespec) : Z :=
  if negb (gi g use_nsecs =? 0) then calcdiff_ns now next else calcdiff now next.

(** One turn of the loop, its test of [shutdown] included. *)
Definition timer_turn (g : globals) (par : thread_param) (stop : timespec) (w : wake) (l : loop) : turn_end :=
  if negb (shutdown l =? 0) || w_shutdown w then Out l
  else
    match wait_period par w l with
    | None => Out l
    | Some l =>
        let '(ret, now) := w_now w in
        if negb (ret =? 0) then Out l
        else
          let diff := latency g now (next l) in
          let l := set_stat (note_extremes diff (st l)) l in
          let l := check_limits g diff now stop l in
          match s ← store_value par diff (st l); count_latency g diff s with
          | None => Wild
          | Some s =>
              let s := bump_cycles s in
              let l := LOOP s (tsnorm (ts_add (next l) (interval_ts (p_interval par)))) (stopped l)
                         (shutdown l) (break_thread_id l) (break_thread_value l) (lg l ++ [diff]) in
              if negb (p_max_cycles par =? 0) && (p_max_cycles par =? cycles s) then Out l else Again l
          end
    end.

(** The loop, for as many turns as there are wake-ups. *)
Fixpoint timer_loop (g : globals) (par : thread_param) (stop : timespec) (ws : list wake) (l : loop) : turn_end :=
  match ws with
  | [] => Again l
  | w :: ws' =>
      match timer_turn g par stop w l with
      | Again l' => timer_loop g par stop ws' l'
      | r => r
      end
  end.

(** [threadstarted] *)
Definition set_started (x : Z) (s : thread_stat) : thread_stat :=
  STAT (cycles s) (min s) (max s) (act s) (avg s) (values s) (hist_array s) (outliers s)
    (hist_overflow s) (num_outliers s) (tid s) x
    (cyclesread s) (reduce s) (redmax s) (cycleofmax s).

(** [stat->tid = gettid()] *)
Definition set_tid (x : Z) (s : thread_stat) : thread_stat :=
  STAT (cycles s) (min s) (max s) (act s) (avg s) (values s) (hist_array s) (outliers s)
    (hist_overflow s) (num_outliers s) x (threadstarted s)
    (cyclesread s) (reduce s) (redmax s) (cycleofmax s).

(** The thread up to its loop, once it has its priority; [start] is the first
    reading of the clock. *)
Definition thread_start (par : thread_param) (id : Z) (start : timespec) (s : thread_stat) : loop :=
  let s := set_tid id s in
  LOOP (set_started (i32 (threadstarted s + 1)) s)
    (tsnorm (ts_add start (interval_ts (p_interval par)))) 0 0 0 0 [].

Definition stop_date (g : globals) (start : timespec) : timespec :=
  tsnorm (TS (i32 (tv_sec start + gi g duration)) (tv_nsec start)).

(** The result of [timerthread]: what it leaves, or how it fails. *)
Inductive thread_end := Finished (l : loop) | Running (l : loop) | Fatal | Overwrite.

(** [timerthread]: [err] is the result of [setscheduler], which is fatal when it
    is not 0. *)
Definition timerthread (g : globals) (par : thread_param) (id err : Z) (start : timespec)
    (ws : list wake) (s : thread_stat) : thread_end :=
  if negb (err =? 0) then Fatal
  else match timer_loop g par (stop_date g start) ws (thread_start par id start s) with
       | Out l => Finished (set_stat (set_started (-1) (st l)) l)
       | Again l => Running l
       | Wild => Overwrite
       end.

(** The statistics of a thread as [main] sets them up before it starts it: the
    block cleared, the arrays allocated and cleared as the options ask. *)
Definition new_stat (g : globals) : thread_stat :=
  let hist := if gi g histogram =? 0 then [] else replicate (Z.to_nat (gi g histogram)) 0 in
  STAT 0 1000000 0 0 0
    (if gi g verbose =? 0 then [] else replicate (Z.to_nat VALBUF_SIZE) 0) hist hist
    0 0 0 1 0 0 0 0.
