(* ===== verification/CycStats.v ===== *)
(** * cyclictest: what the statistics of a thread mean

    The statistics a timer thread keeps are functions of the latencies of its
    turns, and its wake-up dates do not drift. *)

From stdpp Require Import base tactics numbers list strings.
From S2P Require Import Prelude CycTime CycOptions CycThread.

(** ** The reference *)

Definition largest (ds : list Z) : Z := foldr Z.max 0 ds.
Definition smallest (ds : list Z) : Z := foldr Z.min 1000000 ds.

(** How many latencies are [k]; how many are at least [h]. *)
Definition count (k : Z) (ds : list Z) : Z := sumZ (fun d => if d =? k then 1 else 0) ds.
Definition late (h : Z) (ds : list Z) : Z := sumZ (fun d => if d >=? h then 1 else 0) ds.

(** The numbers of the cycles with a latency of at least [h], from cycle [i]. *)
Fixpoint late_cycles (h : Z) (i : Z) (ds : list Z) : list Z :=
  match ds with
  | [] => []
  | d :: ds' => if d >=? h then i :: late_cycles h (i + 1) ds' else late_cycles h (i + 1) ds'
  end.

Lemma foldr_snoc_max ds d : largest (ds ++ [d]) = Z.max (largest ds) (Z.max d 0).
Proof. unfold largest. induction ds as [|x ds IH]; cbn in *; lia. Qed.

Lemma foldr_snoc_min ds d : smallest (ds ++ [d]) = Z.min (smallest ds) d.
Proof. unfold smallest. induction ds as [|x ds IH]; cbn in *; lia. Qed.

Lemma late_cycles_snoc h i ds d :
  late_cycles h i (ds ++ [d])
    = late_cycles h i ds ++ (if d >=? h then [i + Z.of_nat (length ds)] else []).
Proof.
  revert i. induction ds as [|x ds IH]; intros i; cbn [late_cycles app length].
  - rewrite Z.add_0_r. now destruct (d >=? h).
  - rewrite IH. replace (i + 1 + Z.of_nat (length ds)) with (i + Z.of_nat (S (length ds))) by lia.
    now destruct (x >=? h).
Qed.

Lemma late_cycles_length h i ds : Z.of_nat (length (late_cycles h i ds)) = late h ds.
Proof.
  revert i. induction ds as [|x ds IH]; intros i; [reflexivity|]. unfold late in *.
  cbn [late_cycles]. rewrite sumZ_cons, <- (IH (i + 1)). destruct (x >=? h); cbn [length]; lia.
Qed.

Lemma indicator_bound {A} (f : A -> bool) ds :
  0 <= sumZ (fun d => if f d then 1 else 0) ds <= Z.of_nat (length ds).
Proof.
  induction ds as [|x ds IH]; [change (0 <= 0 <= 0); lia|]. rewrite sumZ_cons. cbn [length].
  destruct (f x); lia.
Qed.

Lemma to_double_exact x : Z.abs x < 2 ^ 53 -> to_double x = x.
Proof.
  intros H. unfold to_double. destruct (decide (x = 0)) as [->|Hx]; [reflexivity|].
  assert (Z.log2 (Z.abs x) < 53) by (apply Z.log2_lt_pow2; lia).
  replace (Z.log2 (Z.abs x) - 52 <=? 0) with true by lia. reflexivity.
Qed.

(** ** The invariant *)

(** The statistics of a thread after turns with latencies [ds]. *)
Record stat_ok (g : globals) (par : thread_param) (ds : list Z) (s : thread_stat) : Prop := {
  so_cycles : cycles s = Z.of_nat (length ds);
  so_min : min s = smallest ds;
  so_max : max s = largest ds;
  so_act : act s = default 0 (last ds);
  so_avg : sumZ id ds < 2 ^ 53 -> avg s = sumZ id ds;
  so_hist : gi g histogram <> 0 -> length (hist_array s) = Z.to_nat (gi g histogram) /\
    forall k, 0 <= k < gi g histogram -> hist_array s !! Z.to_nat k = Some (count k ds);
  so_overflow : gi g histogram <> 0 -> hist_overflow s = late (gi g histogram) ds;
  so_outliers : gi g histogram <> 0 -> length (outliers s) = Z.to_nat (gi g histogram) /\
    num_outliers s = Z.min (late (gi g histogram) ds) (gi g histogram) /\
    take (Z.to_nat (num_outliers s)) (outliers s)
      = take (Z.to_nat (gi g histogram)) (late_cycles (gi g histogram) 0 ds);
  so_values : bufmsk par <> 0 -> bufmsk par = VALBUF_SIZE - 1 /\
    length (values s) = Z.to_nat VALBUF_SIZE /\
    forall i, Z.of_nat (length ds) - VALBUF_SIZE <= i < Z.of_nat (length ds) -> 0 <= i ->
      values s !! Z.to_nat (i mod VALBUF_SIZE) = ds !! Z.to_nat i }.

(** The value buffer: latency [d] is stored after [ds]. *)
Lemma store_value_spec g par ds d s :
  stat_ok g par ds s -> Z.of_nat (length ds) < 2 ^ 31 -> 0 <= d < 2 ^ 31 ->
  exists v, store_value par d (note_extremes d s)
      = Some (STAT (cycles s) (smallest (ds ++ [d])) (largest (ds ++ [d])) d (avg (note_extremes d s)) v
           (hist_array s) (outliers s) (hist_overflow s) (num_outliers s) (tid s) (threadstarted s)
           (cyclesread s) (reduce s) (redmax s) (cycleofmax s)) /\
    (bufmsk par <> 0 -> length v = Z.to_nat VALBUF_SIZE /\
      forall i, Z.of_nat (length (ds ++ [d])) - VALBUF_SIZE <= i < Z.of_nat (length (ds ++ [d])) -> 0 <= i ->
        v !! Z.to_nat (i mod VALBUF_SIZE) = (ds ++ [d]) !! Z.to_nat i).
Proof.
  intros Hs Hlen Hd. unfold store_value, note_extremes.
  cbn [cycles min max act avg values hist_array outliers hist_overflow num_outliers tid threadstarted
       cyclesread reduce redmax cycleofmax].
  rewrite (i32_id d) by lia.
  assert (Emin : (if d <? min s then d else min s) = smallest (ds ++ [d])).
  { rewrite (so_min _ _ _ _ Hs), foldr_snoc_min. destruct (d <? smallest ds) eqn:E; lia. }
  assert (Emax : (if d >? max s then d else max s) = largest (ds ++ [d])).
  { rewrite (so_max _ _ _ _ Hs), foldr_snoc_max. destruct (d >? largest ds) eqn:E; lia. }
  rewrite Emin, Emax. destruct (bufmsk par =? 0) eqn:Eb; [eexists; split; [reflexivity | lia]|].
  destruct (so_values _ _ _ _ Hs) as (Em & Hl & Hv); [lia|].
  rewrite Em. change (VALBUF_SIZE - 1) with (Z.ones 14). rewrite Z.land_ones by lia.
  change (2 ^ 14) with VALBUF_SIZE. rewrite (so_cycles _ _ _ _ Hs).
  set (n := Z.of_nat (length ds)) in *.
  pose proof (Z.mod_pos_bound n VALBUF_SIZE ltac:(reflexivity)) as Hm.
  destruct (lookup_lt_is_Some_2 (values s) (Z.to_nat (n mod VALBUF_SIZE))) as [x Hx]; [lia|].
  rewrite Hx. cbn [mbind option_bind]. eexists. split; [reflexivity|]. intros _.
  rewrite length_insert. split; [exact Hl|]. rewrite length_app. cbn [length]. intros i Hi Hi0.
  destruct (decide (i = n)) as [->|Hin].
  - rewrite list_lookup_insert_eq by lia. rewrite lookup_app_r by lia.
    now replace (Z.to_nat n - length ds)%nat with 0%nat by lia.
  - rewrite list_lookup_insert_ne.
    + rewrite lookup_app_l by lia. apply Hv; lia.
    + intros E. apply Z2Nat.inj in E; [|lia | apply Z.mod_pos_bound; reflexivity].
      unfold VALBUF_SIZE in *. Z.to_euclidean_division_equations. lia.
Qed.

(** The histogram counts latency [d]. *)
Lemma count_latency_spec g par ds d s s0 :
  stat_ok g par ds s0 -> hist_array s = hist_array s0 -> outliers s = outliers s0 ->
  hist_overflow s = hist_overflow s0 -> num_outliers s = num_outliers s0 -> cycles s = cycles s0 ->
  gi g histogram <> 0 -> 0 <= gi g histogram < 2 ^ 31 -> Z.of_nat (length ds) < 2 ^ 31 - 1 -> 0 <= d < 2 ^ 31 ->
  exists h o ov n, count_latency g d s
      = Some (STAT (cycles s) (min s) (max s) (act s) (avg s) (values s) h o ov n (tid s) (threadstarted s)
           (cyclesread s) (reduce s) (redmax s) (cycleofmax s)) /\
    length h = Z.to_nat (gi g histogram) /\
    (forall k, 0 <= k < gi g histogram -> h !! Z.to_nat k = Some (count k (ds ++ [d]))) /\
    ov = late (gi g histogram) (ds ++ [d]) /\
    length o = Z.to_nat (gi g histogram) /\
    n = Z.min (late (gi g histogram) (ds ++ [d])) (gi g histogram) /\
    take (Z.to_nat n) o = take (Z.to_nat (gi g histogram)) (late_cycles (gi g histogram) 0 (ds ++ [d])).
Proof.
  intros Hs Eh Eo Eov En Ec H0 Hh Hlen Hd. unfold count_latency.
  replace (gi g histogram =? 0) with false by lia.
  destruct (so_hist _ _ _ _ Hs H0) as [Lh Hk]. pose proof (so_overflow _ _ _ _ Hs H0) as Hov.
  destruct (so_outliers _ _ _ _ Hs H0) as (Lo & Hn & Ht).
  set (H := gi g histogram) in *.
  assert (Bl : 0 <= late H ds <= Z.of_nat (length ds)) by apply (indicator_bound (fun d => d >=? H)).
  assert (Ll : late H (ds ++ [d]) = late H ds + if d >=? H then 1 else 0) by apply sumZ_snoc.
  rewrite late_cycles_snoc, Ll, Z.add_0_l.
  pose proof (late_cycles_length H 0 ds) as Lc.
  rewrite Eh, Eov, En, Eo, Ec, Hov, Hn, (so_cycles _ _ _ _ Hs) in *.
  destruct (d >=? H) eqn:Ed.
  - assert (Hc : forall k, 0 <= k < H -> hist_array s0 !! Z.to_nat k = Some (count k (ds ++ [d]))).
    { intros k Hkr. rewrite Hk by assumption. unfold count. rewrite sumZ_snoc.
      replace (d =? k) with false by lia. now rewrite Z.add_0_r. }
    rewrite (i32_id (late H ds + 1)) by lia.
    destruct (Z.min (late H ds) H <? H) eqn:El.
    + replace (Z.min (late H ds) H) with (late H ds) in * by lia.
      destruct (lookup_lt_is_Some_2 (outliers s0) (Z.to_nat (late H ds))) as [x Hx]; [lia|].
      rewrite Hx. cbn [mbind option_bind]. rewrite (i32_id (Z.of_nat (length ds))) by lia.
      rewrite (i32_id (late H ds + 1)) by lia.
      eexists _, _, _, _. split; [reflexivity|]. rewrite length_insert. repeat split; try assumption; try lia.
      replace (Z.to_nat (late H ds + 1)) with (S (Z.to_nat (late H ds))) by lia.
      rewrite (take_S_r _ _ (Z.of_nat (length ds))) by (apply list_lookup_insert_eq; lia).
      rewrite take_insert_ge by lia. rewrite Ht.
      rewrite !take_ge by (len_lia). reflexivity.
    + eexists _, _, _, _. split; [reflexivity|]. repeat split; try assumption; try lia.
      rewrite Ht. rewrite take_app_le by lia. reflexivity.
  - replace (d <? 0) with false by lia.
    rewrite (Hk d) by lia. cbn [mbind option_bind].
    assert (Bc : 0 <= count d ds <= Z.of_nat (length ds)) by apply (indicator_bound (fun x => x =? d)).
    rewrite (i32_id (count d ds + 1)) by lia.
    eexists _, _, _, _. split; [reflexivity|]. rewrite length_insert, app_nil_r.
    repeat split; try assumption; try lia.
    intros k Hkr. unfold count at 2. rewrite sumZ_snoc. fold (count k ds).
    destruct (decide (k = d)) as [->|Hne].
    + rewrite list_lookup_insert_eq by lia. now rewrite Z.eqb_refl.
    + rewrite list_lookup_insert_ne by lia. rewrite Hk by assumption.
      replace (d =? k) with false by lia. now rewrite Z.add_0_r.
Qed.

Lemma avg_spec g par ds d s :
  stat_ok g par ds s -> 0 <= d < 2 ^ 31 -> Forall (fun x => 0 <= x) ds ->
  sumZ id (ds ++ [d]) < 2 ^ 53 -> avg (note_extremes d s) = sumZ id (ds ++ [d]).
Proof.
  intros Hs Hd Hds. rewrite sumZ_snoc. unfold id at 2 4. intros Hb.
  assert (0 <= sumZ id ds) by (apply sumZ_nonneg; intros x Hx; now apply (proj1 (Forall_forall _ _) Hds)).
  cbn [note_extremes avg]. rewrite (so_avg _ _ _ _ Hs) by lia.
  rewrite (to_double_exact d), to_double_exact by lia. reflexivity.
Qed.

(** The statistics of one more latency. *)
Definition record_latency (g : globals) (par : thread_param) (d : Z) (s : thread_stat) : option thread_stat :=
  s ← store_value par d (note_extremes d s); count_latency g d s.

Lemma record_latency_ok g par ds d s :
  stat_ok g par ds s -> 0 <= gi g histogram < 2 ^ 31 -> Z.of_nat (length ds) < 2 ^ 31 - 1 ->
  0 <= d < 2 ^ 31 -> Forall (fun x => 0 <= x) ds ->
  exists s', record_latency g par d s = Some s' /\ stat_ok g par (ds ++ [d]) (bump_cycles s').
Proof.
  intros Hs Hh Hlen Hd Hds. pose proof (avg_spec g par ds d s Hs Hd Hds) as Ha.
  destruct (store_value_spec g par ds d s Hs ltac:(lia) Hd) as (v & E & Hv).
  unfold record_latency. rewrite E. cbn [mbind option_bind].
  assert (Hc : u32 (cycles s + 1) = Z.of_nat (length (ds ++ [d]))).
  { rewrite (so_cycles _ _ _ _ Hs), length_app, wrap_u_id; cbn [length]; lia. }
  assert (Hm : bufmsk par <> 0 -> bufmsk par = VALBUF_SIZE - 1) by (intros; now apply (so_values _ _ _ _ Hs)).
  set (s1 := STAT _ _ _ _ _ _ _ _ _ _ _ _ _ _ _ _).
  destruct (decide (gi g histogram = 0)) as [H0|H0].
  - unfold count_latency. replace (gi g histogram =? 0) with true by lia.
    exists s1. split; [reflexivity|].
    split; cbn [bump_cycles cycles min max act avg values hist_array outliers hist_overflow num_outliers];
      try (intros; contradiction); try assumption; try reflexivity.
    + now rewrite last_snoc.
    + intros Hb. destruct (Hv Hb). auto.
  - destruct (count_latency_spec g par ds d s1 s Hs) as (h & o & ov & n & E1 & H1 & H2 & H3 & H4 & H5 & H6);
      try reflexivity; try assumption; try lia.
    rewrite E1. eexists. split; [reflexivity|].
    split; cbn [bump_cycles cycles min max act avg values hist_array outliers hist_overflow num_outliers s1];
      try (intros; contradiction); try assumption; try reflexivity; auto.
    now rewrite last_snoc.
Qed.

(** ** The loop *)

(** The thread sleeps until its date or later, by less than two seconds, and the
    clock gives proper dates. *)
Fixpoint punctual (g : globals) (par : thread_param) (stop : timespec) (ws : list wake) (l : loop) : Prop :=
  match ws with
  | [] => True
  | w :: ws' =>
      (forall l1, wait_period par w l = Some l1 -> fst (w_now w) = 0 ->
         ts_wf (next l1) /\ ts_wf (snd (w_now w)) /\
         ns (next l1) <= ns (snd (w_now w)) < ns (next l1) + 2 ^ 31) /\
      (forall l', timer_turn g par stop w l = Again l' -> punctual g par stop ws' l')
  end.

Lemma latency_range g now nxt :
  ts_wf now -> ts_wf nxt -> ns nxt <= ns now < ns nxt + 2 ^ 31 -> 0 <= latency g now nxt < 2 ^ 31.
Proof.
  intros Hn Hx H. unfold latency. destruct (negb _).
  - rewrite calcdiff_ns_eq by assumption. lia.
  - pose proof (calcdiff_nonneg now nxt Hn Hx). pose proof (calcdiff_near now nxt Hn Hx). lia.
Qed.

Lemma wait_period_same par w l l1 :
  wait_period par w l = Some l1 -> st l1 = st l /\ lg l1 = lg l /\ shutdown l1 = shutdown l /\ stopped l1 = stopped l.
Proof. unfold wait_period, set_next. intros H. repeat split_if_in H; try discriminate; injection H as <-; auto. Qed.

Lemma check_limits_same g d now stop l :
  st (check_limits g d now stop l) = st l /\ next (check_limits g d now stop l) = next l /\
  lg (check_limits g d now stop l) = lg l.
Proof. unfold check_limits. cbv zeta. destruct (_ && _ && _); auto. Qed.

(** A turn that measures a latency. *)
Lemma timer_turn_eq g par stop w l :
  negb (shutdown l =? 0) || w_shutdown w = false ->
  forall l1, wait_period par w l = Some l1 -> fst (w_now w) = 0 ->
  let d := latency g (snd (w_now w)) (next l1) in
  match record_latency g par d (st l) with
  | None => timer_turn g par stop w l = Wild
  | Some s => exists l', (timer_turn g par stop w l = Again l' \/ timer_turn g par stop w l = Out l') /\
      st l' = bump_cycles s /\ lg l' = lg l ++ [d] /\
      next l' = tsnorm (ts_add (next l1) (interval_ts (p_interval par)))
  end.
Proof.
  intros Hc l1 Hw Hn d. unfold timer_turn. rewrite Hc, Hw.
  destruct (w_now w) as [r now]. cbn [fst snd] in *. subst r. cbn [Z.eqb negb].
  fold d. destruct (wait_period_same par w l l1 Hw) as (Es & El & _).
  destruct (check_limits_same g d now stop (set_stat (note_extremes d (st l1)) l1)) as (C1 & C2 & C3).
  cbv zeta. rewrite C1, C2, C3. cbn [set_stat st next lg]. rewrite Es, El.
  unfold record_latency. destruct (s ← store_value par d (note_extremes d (st l)); count_latency g d s) as [s|];
    [|reflexivity].
  destruct (negb (p_max_cycles par =? 0) && _); (eexists; split; [eauto|]; repeat split).
Qed.

(** The invariant of the loop. *)
Definition loop_ok (g : globals) (par : thread_param) (l : loop) : Prop :=
  stat_ok g par (lg l) (st l) /\ Forall (fun x => 0 <= x) (lg l).

Lemma timer_turn_ok g par stop w l :
  0 <= gi g histogram < 2 ^ 31 -> Z.of_nat (length (lg l)) < 2 ^ 31 - 1 -> loop_ok g par l ->
  punctual g par stop [w] l ->
  exists l', (timer_turn g par stop w l = Again l' \/ timer_turn g par stop w l = Out l') /\
    loop_ok g par l' /\ (length (lg l') <= S (length (lg l)))%nat.
Proof.
  intros Hh Hlen [Hs Hds] [Hp _].
  destruct (negb (shutdown l =? 0) || w_shutdown w) eqn:Hc.
  { exists l. unfold timer_turn. rewrite Hc. split; [auto|]. split; [split; assumption | lia]. }
  destruct (wait_period par w l) as [l1|] eqn:Hw.
  2: { exists l. unfold timer_turn. rewrite Hc, Hw. split; [auto|]. split; [split; assumption | lia]. }
  destruct (wait_period_same par w l l1 Hw) as (Es & El & _).
  destruct (decide (fst (w_now w) = 0)) as [Hn|Hn].
  2: { exists l1. unfold timer_turn. rewrite Hc, Hw. destruct (w_now w) as [r now]. cbn in Hn.
       replace (r =? 0) with false by lia. unfold loop_ok. rewrite Es, El.
       split; [auto|]. split; [split; assumption | lia]. }
  destruct (Hp l1 eq_refl Hn) as (H1 & H2 & H3).
  pose proof (latency_range g _ _ H2 H1 H3) as Hd.
  pose proof (timer_turn_eq g par stop w l Hc l1 Hw Hn) as Ht. cbv zeta in Ht.
  destruct (record_latency_ok g par (lg l) _ (st l) Hs Hh Hlen Hd Hds) as (s' & Er & Hs').
  rewrite Er in Ht. destruct Ht as (l' & Hor & E1 & E2 & _).
  exists l'. split; [exact Hor|]. unfold loop_ok. rewrite E1, E2, length_app. cbn [length]. split; [split|lia].
  - exact Hs'.
  - apply Forall_app. split; [exact Hds | repeat constructor; lia].
Qed.

Lemma timer_loop_ok g par stop ws l :
  0 <= gi g histogram < 2 ^ 31 -> Z.of_nat (length (lg l) + length ws) < 2 ^ 31 - 1 -> loop_ok g par l ->
  punctual g par stop ws l ->
  exists l', (timer_loop g par stop ws l = Again l' \/ timer_loop g par stop ws l = Out l') /\ loop_ok g par l'.
Proof.
  intros Hh. revert l. induction ws as [|w ws IH]; intros l Hlen Hl Hp; cbn [timer_loop length] in *; [eauto|].
  destruct Hp as [Hp1 Hp2].
  destruct (timer_turn_ok g par stop w l Hh) as (l' & [E|E] & Hl' & Hlen'); [lia | assumption | |rewrite E in *..].
  - split; [exact Hp1 | intros; exact I].
  - apply IH; [lia | exact Hl' | now apply Hp2].
  - eauto.
Qed.

Lemma stat_ok_started g par ds s x : stat_ok g par ds s -> stat_ok g par ds (set_started x s).
Proof. intros [H1 H2 H3 H4 H5 H6 H7 H8 H9]. split; assumption. Qed.

Lemma stat_ok_tid g par ds s x : stat_ok g par ds s -> stat_ok g par ds (set_tid x s).
Proof. intros [H1 H2 H3 H4 H5 H6 H7 H8 H9]. split; assumption. Qed.

(** C33: a timer thread whose sleeps never end early, nor 2^31 ns late, keeps its
    statistics right for less than 2^31 - 1 turns, on every way out of its loop:
    nothing is written outside the arrays, and [cycles], [min], [max], [act],
    [avg] (as long as the sum is below 2^53, where a double is exact), the
    histogram, its overflows, the list of the late cycles and the buffer of values
    are those of the latencies it measured. *)
Theorem timerthread_statistics g par id start ws s :
  0 <= gi g histogram <= HIST_MAX -> Z.of_nat (length ws) < 2 ^ 31 - 1 ->
  stat_ok g par [] s -> punctual g par (stop_date g start) ws (thread_start par id start s) ->
  match timerthread g par id 0 start ws s with
  | Finished l | Running l => stat_ok g par (lg l) (st l)
  | Fatal | Overwrite => False
  end.
Proof.
  intros Hh Hlen Hs Hp. unfold timerthread. cbn [Z.eqb negb].
  destruct (timer_loop_ok g par (stop_date g start) ws (thread_start par id start s)) as (l' & [->| ->] & Hl' & _);
    auto using stat_ok_started.
  - unfold HIST_MAX in Hh. lia.
  - split; [|constructor]. cbn [thread_start st lg]. now apply stat_ok_started, stat_ok_tid.
  - cbn [set_stat st lg]. now apply stat_ok_started.
Qed.

(** ** No drift *)

Lemma interval_ts_ns i : 0 <= i < 2 ^ 32 ->
  ns (interval_ts i) = i * 1000 /\ 0 <= tv_sec (interval_ts i) < 4295 /\ 0 <= tv_nsec (interval_ts i) < NSEC_PER_SEC.
Proof.
  intros Hi. unfold interval_ts, ns, NSEC_PER_SEC, USEC_PER_SEC. cbn [tv_sec tv_nsec].
  rewrite (wrap_u_id 32 i) by lia.
  pose proof (Z.div_mod i 1000000). pose proof (Z.mod_pos_bound i 1000000).
  rewrite !i32_id by lia. lia.
Qed.

(** The absolute mode of [-n]. *)
Definition absolute (par : thread_param) : Prop :=
  mode par = MODE_CLOCK_NANOSLEEP /\ p_timermode par = TIMER_ABSTIME.

Lemma absolute_wait par w l l1 : absolute par -> wait_period par w l = Some l1 -> l1 = l.
Proof.
  intros [Hm Ht]. unfold wait_period. rewrite Hm, Ht. cbn. destruct (negb _); [discriminate | now intros [= <-]].
Qed.

(** The latencies of wake-ups [ws] for dates [D], [D + iv], ... *)
Definition lateness (D iv : Z) (ws : list wake) : list Z :=
  imap (fun i w => ns (snd (w_now w)) - (D + Z.of_nat i * iv)) ws.

Lemma lateness_cons D iv w ws :
  lateness D iv (w :: ws) = (ns (snd (w_now w)) - D) :: lateness (D + iv) iv ws.
Proof.
  unfold lateness. cbn [imap]. f_equal; [lia|]. apply imap_ext. intros i x _. cbn. lia.
Qed.

(** A latency [d] noted for a wake-up that is [x] ns late: the same in nanoseconds
    ([-N]), less than a microsecond off in microseconds. *)
Definition noted (g : globals) (d x : Z) : Prop :=
  if gi g use_nsecs =? 0 then Z.abs (1000 * d - x) < 1000 else d = x.

Lemma latency_noted g now nxt : ts_wf now -> ts_wf nxt -> noted g (latency g now nxt) (ns now - ns nxt).
Proof.
  intros Hn Hx. unfold noted, latency. destruct (gi g use_nsecs =? 0); cbn [negb].
  - pose proof (calcdiff_near now nxt Hn Hx). lia.
  - now apply calcdiff_ns_eq.
Qed.

(** The sum of a date and of the interval fits when its nanoseconds do. *)
Lemma date_fits t i :
  ts_wf t -> 0 <= i < 2 ^ 32 -> ns t + i * 1000 < (2 ^ 31 - 3) * NSEC_PER_SEC ->
  ts_wf (tsnorm (ts_add t (interval_ts i))) /\ ns (tsnorm (ts_add t (interval_ts i))) = ns t + i * 1000.
Proof.
  intros Ht Hi Hb. destruct (interval_ts_ns i Hi) as (I1 & I2 & I3). rewrite <- I1 in *.
  apply tsnorm_add; try assumption; [lia|]. unfold ns, ts_wf, NSEC_PER_SEC in *. lia.
Qed.

Lemma timer_loop_dates g par stop ws l l' :
  absolute par -> 0 <= p_interval par < 2 ^ 32 ->
  Forall (fun w => ts_wf (snd (w_now w))) ws -> ts_wf (next l) ->
  ns (next l) + Z.of_nat (length ws) * (p_interval par * 1000) < (2 ^ 31 - 3) * NSEC_PER_SEC ->
  timer_loop g par stop ws l = Again l' \/ timer_loop g par stop ws l = Out l' ->
  exists k ds, (k <= length ws)%nat /\ ns (next l') = ns (next l) + Z.of_nat k * (p_interval par * 1000) /\
    lg l' = lg l ++ ds /\ Forall2 (noted g) ds (lateness (ns (next l)) (p_interval par * 1000) (take k ws)).
Proof.
  intros Ha Hi. revert l. induction ws as [|w ws IH]; intros l Hws Hn Hb H.
  { exists 0%nat, []. cbn in *. rewrite app_nil_r.
    destruct H as [[= <-]|]; [split_and!; [lia | lia | reflexivity | constructor] | discriminate]. }
  apply Forall_cons in Hws as [Hw Hws]. cbn [timer_loop length] in *.
  assert (Hout : timer_turn g par stop w l = Out l -> exists k ds, (k <= S (length ws))%nat /\
      ns (next l') = ns (next l) + Z.of_nat k * (p_interval par * 1000) /\ lg l' = lg l ++ ds /\
      Forall2 (noted g) ds (lateness (ns (next l)) (p_interval par * 1000) (take k (w :: ws)))).
  { intros E. rewrite E in H. destruct H as [|[= <-]]; [discriminate|].
    exists 0%nat, []. rewrite app_nil_r. split_and!; [lia | lia | reflexivity | constructor]. }
  destruct (negb (shutdown l =? 0) || w_shutdown w) eqn:Hc.
  { apply Hout. unfold timer_turn. now rewrite Hc. }
  destruct (wait_period par w l) as [l1|] eqn:Hwp.
  2: { apply Hout. unfold timer_turn. now rewrite Hc, Hwp. }
  pose proof (absolute_wait par w l l1 Ha Hwp) as ->.
  destruct (decide (fst (w_now w) = 0)) as [H0|H0].
  2: { apply Hout. unfold timer_turn. rewrite Hc, Hwp. destruct (w_now w) as [r now]. cbn in H0.
       now replace (r =? 0) with false by lia. }
  pose proof (timer_turn_eq g par stop w l Hc l Hwp H0) as Ht. cbv zeta in Ht.
  destruct (record_latency _ _ _ _) as [s|]; [|rewrite Ht in H; destruct H; discriminate].
  destruct Ht as (l2 & Hor & _ & El & En).
  destruct (date_fits (next l) (p_interval par) Hn Hi ltac:(lia)) as [Hn2 Ens].
  rewrite <- En in Hn2, Ens. pose proof (latency_noted g _ _ Hw Hn) as Elat.
  destruct Hor as [E|E]; rewrite E in H.
  - destruct (IH l2 Hws Hn2 ltac:(lia) H) as (k & ds & Hk & K1 & K2 & K3).
    exists (S k), (latency g (snd (w_now w)) (next l) :: ds). split; [lia|]. split; [lia|].
    rewrite K2, El, firstn_cons, lateness_cons, <- app_assoc. split; [reflexivity|].
    rewrite Ens in K3. now constructor.
  - destruct H as [|[= <-]]; [discriminate|]. exists 1%nat, [latency g (snd (w_now w)) (next l)].
    split; [lia|]. split; [lia|]. split; [exact El|]. cbn [take]. rewrite lateness_cons.
    now repeat constructor.
Qed.

(** C34: in the absolute mode a thread does not drift: as long as its dates and
    the readings of the clock fit a [time_t] of 32 bits, whatever the lateness of
    its wake-ups, after [k] turns its next date is [k + 1] intervals after its
    start, and each latency it noted is that of the clock to the date of that
    turn: exactly in the mode that counts nanoseconds ([-N]), less than a
    microsecond off in the default one. *)
Theorem timerthread_no_drift g par id start ws s l :
  absolute par -> 0 <= p_interval par < 2 ^ 32 -> ts_wf start ->
  Forall (fun w => ts_wf (snd (w_now w))) ws ->
  ns start + (Z.of_nat (length ws) + 1) * (p_interval par * 1000) < (2 ^ 31 - 3) * NSEC_PER_SEC ->
  timerthread g par id 0 start ws s = Finished l \/ timerthread g par id 0 start ws s = Running l ->
  let iv := p_interval par * 1000 in
  let k := length (lg l) in
  (k <= length ws)%nat /\ ns (next l) = ns start + (Z.of_nat k + 1) * iv /\
  Forall2 (noted g) (lg l) (lateness (ns start + iv) iv (take k ws)).
Proof.
  intros Ha Hi Hst Hws Hb H iv k.
  destruct (date_fits start (p_interval par) Hst Hi ltac:(lia)) as [Hn2 Ens].
  set (l0 := thread_start par id start s).
  change (tsnorm (ts_add start (interval_ts (p_interval par)))) with (next l0) in *.
  assert (Hl : exists l', next l = next l' /\ lg l = lg l' /\
    (timer_loop g par (stop_date g start) ws l0 = Again l' \/ timer_loop g par (stop_date g start) ws l0 = Out l')).
  { revert H. unfold timerthread. cbn [Z.eqb negb]. fold l0.
    destruct (timer_loop g par (stop_date g start) ws l0) as [l'|l'|]; intros [H|H]; try discriminate;
      injection H as <-; exists l'; auto. }
  destruct Hl as (l' & En & El & Hl').
  destruct (timer_loop_dates g par (stop_date g start) ws l0 l') as (n & ds & Hn' & K1 & K2 & K3);
    try assumption; [lia|].
  change (lg l0) with (@nil Z) in K2. cbn [app] in K2.
  assert (Hk : k = n).
  { unfold k. rewrite El, K2. rewrite (Forall2_length _ _ _ K3). unfold lateness. rewrite length_imap, length_take. lia. }
  rewrite Hk, En, El, K2, K1, Ens. rewrite Ens in K3. fold iv in K3 |- *. split; [lia|]. split; [lia|exact K3].
Qed.

(** A thread starts with the statistics of no latency. *)
Lemma new_stat_ok g par :
  0 <= gi g histogram -> bufmsk par = (if gi g verbose =? 0 then 0 else VALBUF_SIZE - 1) ->
  stat_ok g par [] (new_stat g).
Proof.
  intros Hh Hb. unfold new_stat.
  split; cbn [cycles min max act avg values hist_array outliers hist_overflow num_outliers]; try reflexivity.
  - intros H0. replace (gi g histogram =? 0) with false by lia. rewrite length_replicate. split; [reflexivity|].
    intros k Hk. rewrite lookup_replicate_2 by lia. reflexivity.
  - intros H0. replace (gi g histogram =? 0) with false by lia. rewrite length_replicate. split; [reflexivity|].
    change (late _ []) with 0. split; [lia|]. cbn. now rewrite take_nil.
  - intros H0. destruct (gi g verbose =? 0); [contradiction|]. rewrite length_replicate.
    repeat split; [exact Hb|]. cbn. lia.
Qed.

(** ** Witnesses *)

(** [-n -N -v -h 50]: a thread of 1000 us in absolute mode. *)
Definition demo_globals : globals :=
  set verbose 1 (set use_nsecs 1 (set histogram 50 globals0)).
Definition demo_par : thread_param :=
  PAR 80 SCHED_FIFO MODE_CLOCK_NANOSLEEP TIMER_ABSTIME CLOCK_MONOTONIC 0 (VALBUF_SIZE - 1) 1000 (-1) (-1).

(** Three wake-ups for a thread started at 10 s: 7 ns, 120 ns and 3 ns late. *)
Definition demo_wakes : list wake :=
  [WAKE false (0, TS 0 0) 0 (0, TS 10 1000007); WAKE false (0, TS 0 0) 0 (0, TS 10 2000120);
   WAKE false (0, TS 0 0) 0 (0, TS 10 3000003)].

(** The same without the value buffer. *)
Definition quiet_globals : globals := set use_nsecs 1 (set histogram 50 globals0).
Definition quiet_par : thread_param :=
  PAR 80 SCHED_FIFO MODE_CLOCK_NANOSLEEP TIMER_ABSTIME CLOCK_MONOTONIC 0 0 1000 (-1) (-1).

Lemma punctual_demo :
  punctual quiet_globals quiet_par (stop_date quiet_globals (TS 10 0)) demo_wakes
    (thread_start quiet_par 77 (TS 10 0) (new_stat quiet_globals)).
Proof.
  set (l := thread_start _ _ _ _). assert (E : l = ltac:(let t := eval vm_compute in l in exact t)) by reflexivity.
  rewrite E. clear.
  repeat (split; [intros l1 [= <-] _; unfold ts_wf, ns, NSEC_PER_SEC; cbn; lia | intros l' H; vm_compute in H; injection H as <-]).
  exact I.
Qed.

Lemma timerthread_statistics_witness :
  match timerthread quiet_globals quiet_par 77 0 (TS 10 0) demo_wakes (new_stat quiet_globals) with
  | Finished l | Running l => stat_ok quiet_globals quiet_par (lg l) (st l)
  | Fatal | Overwrite => False
  end.
Proof.
  apply timerthread_statistics; [vm_compute; split; discriminate | cbn; lia | | apply punctual_demo].
  apply new_stat_ok; [vm_compute; discriminate | reflexivity].
Defined.

(** The same in microseconds, the default. *)
Lemma timerthread_no_drift_witness :
  (exists l, timerthread quiet_globals quiet_par 77 0 (TS 10 0) demo_wakes (new_stat quiet_globals) = Running l /\
     Forall2 eq (lg l) [7; 120; 3] /\ ns (next l) = ns (TS 10 0) + 4 * 1000000) /\
  (exists l, timerthread globals0 quiet_par 77 0 (TS 10 0) demo_wakes (new_stat globals0) = Running l /\
     Forall2 (noted globals0) (lg l) [7; 120; 3] /\ ns (next l) = ns (TS 10 0) + 4 * 1000000).
Proof.
  split; (eexists; split; [vm_compute; reflexivity|]);
    match goal with |- Forall2 eq ?x _ /\ ns (next ?l) = _ =>
      destruct (timerthread_no_drift quiet_globals quiet_par 77 (TS 10 0) demo_wakes (new_stat quiet_globals) l)
        as (H1 & H2 & H3)
    | |- Forall2 _ ?x _ /\ ns (next ?l) = _ =>
      destruct (timerthread_no_drift globals0 quiet_par 77 (TS 10 0) demo_wakes (new_stat globals0) l)
        as (H1 & H2 & H3) end;
    try (split; reflexivity); try (unfold ts_wf, NSEC_PER_SEC; repeat constructor; cbn; lia);
    try (vm_compute; split; congruence); try (right; vm_compute; reflexivity); try (split; [exact H3 | exact H2]).
  all: vm_compute; reflexivity.
Defined.

(** A wake-up before its date, as after a step back of CLOCK_REALTIME, makes the
    thread count outside its histogram: only the upper bound is tested. *)
Lemma timerthread_early_wake :
  timerthread quiet_globals quiet_par 77 0 (TS 10 0) [WAKE false (0, TS 0 0) 0 (0, TS 10 999000)]
    (new_stat quiet_globals) = Overwrite.
Proof. vm_compute. reflexivity. Qed.
