(* ===== verification/CycReport.v ===== *)
(** * cyclictest: the reports (posix/user/cyclictest.c)

    [print_stat] and [print_hist] over the statistics of the timer threads; what
    is printed is a list of numbers. *)

From stdpp Require Import base tactics numbers list strings.
From S2P Require Import Prelude CycTime CycOptions CycThread CycStats.

(** ** print_stat *)

(** A printed line: the summary of a thread, or a value in verbose mode (thread,
    cycle, latency). *)
Inductive line :=
| Summary (index l_tid l_prio l_interval kcycles l_min l_act l_avg l_max : Z)
| Value (index cycle v : Z).

(** [(long)(stat->avg/stat->cycles)], for a sum a [double] holds exactly. *)
Definition mean (s : thread_stat) : Z := if cycles s =? 0 then 0 else Z.quot (avg s) (cycles s).

Definition set_reader (read red rmax cmax : Z) (s : thread_stat) : thread_stat :=
  STAT (cycles s) (min s) (max s) (act s) (avg s) (values s) (hist_array s) (outliers s)
    (hist_overflow s) (num_outliers s) (tid s) (threadstarted s) read red rmax cmax.

(** The body of the loop of [print_stat]: the new statistics and what it prints;
    [None] for a read outside the buffer. *)
Definition read_value (par : thread_param) (index oscope : Z) (s : thread_stat)
    : option (thread_stat * list line) :=
  diff ← values s !! Z.to_nat (Z.land (cyclesread s) (bufmsk par));
  let rmax := if diff >? redmax s then diff else redmax s in
  let cmax := if diff >? redmax s then i32 (cyclesread s) else cycleofmax s in
  let red := i32 (reduce s + 1) in
  let read := u32 (cyclesread s + 1) in
  if red =? oscope then Some (set_reader read 0 0 cmax s, [Value index (u32 cmax) rmax])
  else Some (set_reader read red rmax cmax s, []).

(** Its loop, for at most [fuel] turns. *)
Fixpoint read_values (fuel : nat) (par : thread_param) (index oscope : Z) (s : thread_stat)
    : option (thread_stat * list line) :=
  if cycles s =? cyclesread s then Some (s, [])
  else match fuel with
       | O => None
       | S n =>
           '(s, out) ← read_value par index oscope s;
           '(s, out') ← read_values n par index oscope s;
           Some (s, out ++ out')
       end.

(** [print_stat]: in verbose mode it reads all that was written since the last
    time. *)
Definition print_stat (g : globals) (par : thread_param) (index verb : Z) (s : thread_stat)
    : option (thread_stat * list line) :=
  if verb =? 0 then
    if gi g quiet =? 1 then Some (s, [])
    else Some (s, [Summary index (tid s) (prio par) (p_interval par) (cycles s / 1000) (min s) (act s)
                     (mean s) (max s)])
  else read_values (Z.to_nat (u32 (cycles s - cyclesread s))) par index (gi g oscope_reduction) s.

(** ** print_hist *)

Record hist_report := HR {
  hr_rows : list (list Z); hr_all : list Z;
  hr_totals : list Z; hr_total : Z;
  hr_mins : list Z; hr_avgs : list Z;
  hr_maxs : list Z; hr_maxmax : Z;
  hr_overflows : list Z; hr_alloverflows : Z;
  hr_outliers : list (list Z * option Z) }.

(** The row of latency [i]: a count per thread. *)
Definition hist_row (stats : list thread_stat) (i : Z) : option (list Z) :=
  mapM (fun s => u32 <$> hist_array s !! Z.to_nat i) stats.

Definition add64 (a b : Z) : Z := u64 (a + b).

(** The last part of the report for a thread: the cycles of its first overflows,
    and how many others there were. *)
Definition outlier_line (s : thread_stat) : list Z * option Z :=
  (take (Z.to_nat (num_outliers s)) (outliers s),
   if num_outliers s <? hist_overflow s then Some (hist_overflow s - num_outliers s) else None).

(** [print_hist]; the columns for all threads ([hr_all], [hr_total], [hr_maxmax],
    [hr_alloverflows]) are printed when [histofall] is set and there are several. *)
Definition print_hist (g : globals) (stats : list thread_stat) : option hist_report :=
  rows ← mapM (hist_row stats) (seqZ 0 (gi g histogram));
  let alls := foldl add64 0 <$> rows in
  Some (HR rows alls
    (foldl (zip_with add64) (replicate (length stats) 0) rows) (foldl add64 0 alls)
    (min <$> stats) (mean <$> stats)
    (max <$> stats) (foldl (fun m s => if u32 (max s) >? m then u32 (max s) else m) 0 stats)
    (hist_overflow <$> stats) (foldl (fun a s => u32 (a + hist_overflow s)) 0 stats)
    (outlier_line <$> stats)).

(** ** The reader follows the writer *)

(** After reading latencies [rd] with reduction [red], having printed [out]. *)
Record reader_ok (red : nat) (rd : list Z) (out : list line) (s : thread_stat) : Prop := {
  ro_read : cyclesread s = Z.of_nat (length rd);
  ro_reduce : length rd = (length out * red + Z.to_nat (reduce s))%nat /\ 0 <= reduce s < Z.of_nat red;
  ro_redmax : redmax s = largest (drop (length out * red) rd);
  ro_cycle : 0 < redmax s -> rd !! Z.to_nat (cycleofmax s) = Some (redmax s) /\
    Z.of_nat (length out * red) <= cycleofmax s < Z.of_nat (length rd);
  ro_out : forall k ln, out !! k = Some ln -> exists i c v, ln = Value i c v /\
    v = largest (take red (drop (k * red) rd)) /\
    (0 < v -> rd !! Z.to_nat c = Some v /\ Z.of_nat (k * red) <= c < Z.of_nat (k * red + red)) }.

Lemma largest_nonneg ds : 0 <= largest ds.
Proof. unfold largest. induction ds; cbn; lia. Qed.

(** What was printed stays what it was when more is read. *)
Lemma ro_out_snoc red rd out d :
  (length out * red <= length rd)%nat ->
  (forall k ln, out !! k = Some ln -> exists i c v, ln = Value i c v /\
    v = largest (take red (drop (k * red) rd)) /\
    (0 < v -> rd !! Z.to_nat c = Some v /\ Z.of_nat (k * red) <= c < Z.of_nat (k * red + red))) ->
  forall k ln, out !! k = Some ln -> exists i c v, ln = Value i c v /\
    v = largest (take red (drop (k * red) (rd ++ [d]))) /\
    (0 < v -> (rd ++ [d]) !! Z.to_nat c = Some v /\ Z.of_nat (k * red) <= c < Z.of_nat (k * red + red)).
Proof.
  intros Hlen H k ln Hk. destruct (H k ln Hk) as (i & c & v & -> & -> & Hv).
  assert (Hb : (k * red + red <= length rd)%nat).
  { apply lookup_lt_Some in Hk. nia. }
  exists i, c, (largest (take red (drop (k * red) rd))). split; [reflexivity|]. split.
  - rewrite drop_app_le by lia. rewrite take_app_le; [reflexivity | len_lia].
  - intros Hp. destruct (Hv Hp) as [Hc Hr]. split; [|exact Hr]. now apply lookup_app_l_Some.
Qed.

(** Reading one more value. *)
Lemma read_value_ok par index red rd out d s :
  (0 < red)%nat -> Z.of_nat red < 2 ^ 31 -> Z.of_nat (length rd) < 2 ^ 31 - 1 -> reader_ok red rd out s ->
  values s !! Z.to_nat (Z.land (cyclesread s) (bufmsk par)) = Some d ->
  exists a b c e lns, read_value par index (Z.of_nat red) s = Some (set_reader a b c e s, lns) /\
    reader_ok red (rd ++ [d]) (out ++ lns) (set_reader a b c e s).
Proof.
  intros Hr0 Hr Hlen [R1 [R2 R3] R4 R5 R6] Hv. unfold read_value. rewrite Hv. cbn [mbind option_bind].
  set (rmax := if d >? redmax s then d else redmax s).
  set (cmax := if d >? redmax s then i32 (cyclesread s) else cycleofmax s).
  assert (Hq : (length out * red <= length rd)%nat) by lia.
  assert (Erm : rmax = largest (drop (length out * red) (rd ++ [d]))).
  { rewrite drop_app_le by lia. rewrite foldr_snoc_max, <- R4.
    pose proof (largest_nonneg (drop (length out * red) rd)) as Hnn. rewrite <- R4 in Hnn.
    unfold rmax. destruct (d >? redmax s) eqn:E; lia. }
  assert (Ecm : 0 < rmax -> (rd ++ [d]) !! Z.to_nat cmax = Some rmax /\
    Z.of_nat (length out * red) <= cmax < Z.of_nat (length (rd ++ [d]))).
  { unfold rmax, cmax. rewrite length_app. cbn [length]. destruct (d >? redmax s) eqn:E.
    - intros _. rewrite R1, i32_id by lia. rewrite Nat2Z.id, lookup_app_r, Nat.sub_diag by lia.
      split; [reflexivity | lia].
    - intros Hp. destruct (R5 Hp) as [E1 E2]. split; [now apply lookup_app_l_Some | lia]. }
  rewrite (i32_id (reduce s + 1)) by lia. rewrite (wrap_u_id 32 (cyclesread s + 1)) by lia.
  pose proof (ro_out_snoc red rd out d Hq R6) as Ho.
  assert (Hn : length (rd ++ [d]) = S (length rd)) by (len_lia).
  destruct (reduce s + 1 =? Z.of_nat red) eqn:Ered; apply Z.eqb_eq in Ered || apply Z.eqb_neq in Ered;
    (eexists _, _, _, _, _; split; [reflexivity|]).
  - assert (Hlo : (length (out ++ [Value index (u32 cmax) rmax]) * red = length rd + 1)%nat)
      by (len_lia).
    split; cbn [set_reader cyclesread reduce redmax cycleofmax].
    + lia.
    + lia.
    + rewrite Hlo, drop_ge by lia. reflexivity.
    + lia.
    + intros k ln Hk. apply lookup_app_Some in Hk as [Hk|[Hk1 Hk2]]; [now apply Ho|].
      apply list_lookup_singleton_Some in Hk2 as [Hk2 <-]. assert (k = length out) as -> by lia.
      eexists _, _, _. split; [reflexivity|]. split.
      * rewrite Erm, take_ge; [reflexivity|]. rewrite length_drop. lia.
      * intros Hp. destruct (Ecm Hp) as [E1 E2]. rewrite wrap_u_id by lia. split; [exact E1 | lia].
  - rewrite app_nil_r. split; cbn [set_reader cyclesread reduce redmax cycleofmax]; auto; lia.
Qed.

Lemma stat_ok_reader g par ds s a b c e : stat_ok g par ds s -> stat_ok g par ds (set_reader a b c e s).
Proof. intros [H1 H2 H3 H4 H5 H6 H7 H8 H9]. split; assumption. Qed.

(** A turn of the thread does not touch the reader's fields. *)
Lemma record_latency_reader g par d s s' red rd out :
  record_latency g par d s = Some s' -> reader_ok red rd out s -> reader_ok red rd out (bump_cycles s').
Proof.
  intros H [R1 R2 R3 R4 R5].
  assert (E : cyclesread s' = cyclesread s /\ reduce s' = reduce s /\ redmax s' = redmax s /\
              cycleofmax s' = cycleofmax s).
  { unfold record_latency, store_value, count_latency in H. apply bind_Some in H as (s1 & H1 & H2).
    assert (E1 : cyclesread s1 = cyclesread s /\ reduce s1 = reduce s /\ redmax s1 = redmax s /\
                 cycleofmax s1 = cycleofmax s).
    { destruct (bufmsk par =? 0); [injection H1 as <-; auto|].
      apply bind_Some in H1 as (x & _ & H1). injection H1 as <-. auto. }
    destruct E1 as (<- & <- & <- & <-).
    repeat split_if_in H2; try discriminate;
      try (apply bind_Some in H2 as (x & _ & H2)); injection H2 as <-; auto. }
  destruct E as (E1 & E2 & E3 & E4).
  split; cbn [bump_cycles cyclesread reduce redmax cycleofmax]; rewrite ?E1, ?E2, ?E3, ?E4; assumption.
Qed.

Lemma read_values_ok g par index red rest : forall rd out s,
  (0 < red)%nat -> Z.of_nat red < 2 ^ 31 -> Z.of_nat (length (rd ++ rest)) < 2 ^ 31 ->
  bufmsk par <> 0 -> Z.of_nat (length rest) <= VALBUF_SIZE ->
  stat_ok g par (rd ++ rest) s -> reader_ok red rd out s ->
  exists s' lns, read_values (length rest) par index (Z.of_nat red) s = Some (s', lns) /\
    stat_ok g par (rd ++ rest) s' /\ reader_ok red (rd ++ rest) (out ++ lns) s'.
Proof.
  induction rest as [|d rest IH]; intros rd out s H0 Hr Hlen Hb Hlag Hs Ho.
  - exists s, []. cbn [length read_values]. rewrite (so_cycles _ _ _ _ Hs), (ro_read _ _ _ _ Ho).
    rewrite !app_nil_r in *. rewrite Z.eqb_refl. auto.
  - rewrite length_app in Hlen. cbn [length] in *. cbn [read_values].
    destruct (so_values _ _ _ _ Hs Hb) as (Em & _ & Hv).
    rewrite (so_cycles _ _ _ _ Hs), (ro_read _ _ _ _ Ho), length_app. cbn [length].
    rewrite (proj2 (Z.eqb_neq (Z.of_nat (length rd + S (length rest))) (Z.of_nat (length rd)))) by lia.
    assert (Hd : values s !! Z.to_nat (Z.land (cyclesread s) (bufmsk par)) = Some d).
    { rewrite Em, (ro_read _ _ _ _ Ho). change (VALBUF_SIZE - 1) with (Z.ones 14).
      rewrite Z.land_ones by lia. change (2 ^ 14) with VALBUF_SIZE.
      rewrite Hv by (len_lia).
      rewrite Nat2Z.id, lookup_app_r, Nat.sub_diag by lia. reflexivity. }
    destruct (read_value_ok par index red rd out d s) as (a & b & c & e & lns & E & Ho'); try assumption; [lia|].
    rewrite E. cbn [mbind option_bind].
    rewrite (cons_middle d rd rest), app_assoc in *.
    destruct (IH (rd ++ [d]) (out ++ lns) (set_reader a b c e s)) as (s' & lns' & E' & Hs' & Ho'');
      try assumption; [len_lia | lia | now apply stat_ok_reader |].
    rewrite E'. cbn [mbind option_bind]. exists s', (lns ++ lns'). rewrite <- (app_assoc out) in Ho''. auto.
Qed.

(** Verbose output loses nothing: as long as the printer is at most a buffer
    behind the thread, [print_stat] prints, for each full group of
    [oscope_reduction] latencies, the largest of them with the number of its
    cycle, in order, and reads the buffer up to the thread's last turn. *)
Theorem print_stat_reports g par index verb ds r out s :
  let red := Z.to_nat (gi g oscope_reduction) in
  verb <> 0 -> bufmsk par <> 0 -> 1 <= gi g oscope_reduction < 2 ^ 31 -> Z.of_nat (length ds) < 2 ^ 31 ->
  (r <= length ds)%nat -> Z.of_nat (length ds - r) <= VALBUF_SIZE ->
  stat_ok g par ds s -> reader_ok red (take r ds) out s ->
  exists s' lns, print_stat g par index verb s = Some (s', lns) /\
    stat_ok g par ds s' /\ reader_ok red ds (out ++ lns) s'.
Proof.
  intros red Hv Hb Hred Hlen Hr Hlag Hs Ho. unfold print_stat. replace (verb =? 0) with false by lia.
  rewrite (so_cycles _ _ _ _ Hs), (ro_read _ _ _ _ Ho), length_take, wrap_u_id by lia.
  replace (Z.to_nat (Z.of_nat (length ds) - Z.of_nat (r `min` length ds))) with (length (drop r ds))
    by (len_lia).
  replace (gi g oscope_reduction) with (Z.of_nat red) by (unfold red; lia).
  pose proof (read_values_ok g par index red (drop r ds) (take r ds) out s) as H.
  rewrite take_drop, length_drop in H. rewrite length_drop.
  apply H; try assumption; unfold red; lia.
Qed.

(** ** The histogram report *)

Lemma sumZ_swap {A B} (f : A -> B -> Z) (la : list A) (lb : list B) :
  sumZ (fun a => sumZ (f a) lb) la = sumZ (fun b => sumZ (fun a => f a b) la) lb.
Proof.
  induction la as [|a la IH].
  - induction lb as [|b lb IHb]; [reflexivity|]. rewrite sumZ_cons, <- IHb. reflexivity.
  - rewrite sumZ_cons, IH. clear IH. induction lb as [|b lb IHb]; [reflexivity|].
    rewrite !sumZ_cons, <- IHb. lia.
Qed.

(** Every latency is in one bucket, or over the last. *)
Lemma indicator_seqZ d a n :
  sumZ (fun k => if d =? k then 1 else 0) (seqZ a n) = if (a <=? d) && (d <? a + n) then 1 else 0.
Proof.
  destruct (decide (0 <= n)) as [Hn|Hn].
  2: { rewrite seqZ_nil by lia. change (sumZ _ []) with 0.
       destruct (a <=? d) eqn:E1, (d <? a + n) eqn:E2; cbn [andb]; bool_to_prop; lia. }
  revert a. pattern n. apply natlike_ind; [|clear n Hn|exact Hn].
  - intros a. rewrite seqZ_nil by lia. change (sumZ _ []) with 0.
    destruct (a <=? d) eqn:E1, (d <? a + 0) eqn:E2; cbn [andb]; bool_to_prop; lia.
  - intros n Hn IH a. rewrite seqZ_cons by lia. rewrite sumZ_cons, Z.pred_succ, IH.
    destruct (d =? a) eqn:E, (Z.succ a <=? d) eqn:E1, (d <? Z.succ a + n) eqn:E2,
      (a <=? d) eqn:E3, (d <? a + Z.succ n) eqn:E4; cbn [andb]; bool_to_prop; lia.
Qed.

Lemma count_total h ds :
  Forall (fun d => 0 <= d) ds ->
  sumZ (fun k => count k ds) (seqZ 0 h) = Z.of_nat (length ds) - late h ds.
Proof.
  intros Hds. unfold count, late. rewrite sumZ_swap.
  induction Hds as [|d ds Hd Hds IH]; [reflexivity|].
  rewrite !sumZ_cons, IH, indicator_seqZ. cbn [length].
  destruct (d >=? h) eqn:E; destruct (0 <=? d) eqn:E1, (d <? 0 + h) eqn:E2; cbn [andb]; bool_to_prop; lia.
Qed.

Lemma foldl_add64 l a : 0 <= a < 2 ^ 64 -> foldl add64 a l = u64 (a + sumZ id l).
Proof.
  revert a. induction l as [|x l IH]; intros a Ha; cbn [foldl].
  - change (sumZ id []) with 0. rewrite Z.add_0_r, wrap_u_id by lia. reflexivity.
  - rewrite IH by apply wrap_u_range, Z.leb_le, eq_refl. unfold add64. rewrite wrap_u_add_l, sumZ_cons by lia.
    unfold id at 3. now rewrite Z.add_assoc.
Qed.

(** Column sums of a table given by rows. *)
Lemma foldl_rows {A} (f : Z -> A -> Z) (cols : list A) ks (acc : A -> Z) :
  (forall c, 0 <= acc c < 2 ^ 64) ->
  foldl (zip_with add64) (acc <$> cols) ((fun k => f k <$> cols) <$> ks)
    = (fun c => u64 (acc c + sumZ (fun k => f k c) ks)) <$> cols.
Proof.
  revert acc. induction ks as [|k ks IH]; intros acc Hacc; cbn [foldl fmap list_fmap].
  - apply list_fmap_ext. intros _ c _. change (sumZ _ []) with 0. rewrite Z.add_0_r. now rewrite wrap_u_id.
  - assert (E : zip_with add64 (acc <$> cols) (f k <$> cols) = (fun c => add64 (acc c) (f k c)) <$> cols).
    { clear. induction cols as [|c cols IH]; [reflexivity|]. cbn [fmap list_fmap zip_with]. now rewrite <- IH. }
    rewrite E, IH by (intros c; apply wrap_u_range; lia). apply list_fmap_ext. intros _ c _.
    unfold add64. rewrite wrap_u_add_l, sumZ_cons by lia. now rewrite Z.add_assoc.
Qed.

(** A thread that measured latencies [ds], as [timerthread_statistics] describes it. *)
Definition thread_ok (g : globals) (ds : list Z) (s : thread_stat) : Prop :=
  (exists par, stat_ok g par ds s) /\ Forall (fun d => 0 <= d < 2 ^ 31) ds /\ Z.of_nat (length ds) < 2 ^ 31.

Lemma largest_bound ds b : 0 < b -> Forall (fun d => 0 <= d < b) ds -> 0 <= largest ds < b.
Proof. intros Hb H. induction H as [|d ds Hd H IH]; unfold largest in *; cbn [foldr]; lia. Qed.

Lemma hist_row_ok g dss stats k :
  Forall2 (thread_ok g) dss stats -> 0 <= k < gi g histogram -> hist_row stats k = Some (count k <$> dss).
Proof.
  intros H Hk. unfold hist_row. induction H as [|ds s dss stats ([par Hs] & Hds & Hl) H IH]; [reflexivity|].
  cbn [mapM]. destruct (so_hist _ _ _ _ Hs ltac:(lia)) as [_ E]. rewrite (E k Hk). cbn [fmap option_fmap option_map].
  cbn [mbind option_bind]. rewrite IH. cbn [mbind option_bind]. rewrite wrap_u_id; [reflexivity|].
  pose proof (indicator_bound (fun x => x =? k) ds). unfold count. lia.
Qed.

Lemma rows_ok g dss stats ks :
  Forall2 (thread_ok g) dss stats -> Forall (fun k => 0 <= k < gi g histogram) ks ->
  mapM (hist_row stats) ks = Some ((fun k => count k <$> dss) <$> ks).
Proof.
  intros H Hks. induction Hks as [|k ks Hk Hks IH]; [reflexivity|].
  cbn [mapM]. rewrite (hist_row_ok g dss stats k H Hk), IH. reflexivity.
Qed.

Lemma Forall2_fmap_eq {A B} (P : A -> B -> Prop) (f : B -> Z) (h : A -> Z) la lb :
  Forall2 P la lb -> (forall a b, P a b -> f b = h a) -> f <$> lb = h <$> la.
Proof. intros H E. induction H as [|a b la lb Hab H IH]; [reflexivity|]. cbn. now rewrite IH, (E a b Hab). Qed.

(** The buckets of one thread, all threads, and the overflows. *)
Definition in_range (h : Z) (ds : list Z) : Z := Z.of_nat (length ds) - late h ds.

Lemma in_range_bound h ds : 0 <= in_range h ds <= Z.of_nat (length ds).
Proof. unfold in_range. pose proof (indicator_bound (fun d => d >=? h) ds). unfold late. lia. Qed.

Lemma maxmax_ok g dss stats m :
  Forall2 (thread_ok g) dss stats -> 0 <= m ->
  foldl (fun m s => if u32 (max s) >? m then u32 (max s) else m) m stats = Z.max m (largest (largest <$> dss)).
Proof.
  intros H. revert m. induction H as [|ds s dss stats ([par Hs] & Hds & Hl) H IH]; intros m Hm.
  - cbn. lia.
  - pose proof (largest_bound ds (2 ^ 31) ltac:(lia) Hds).
    cbn [foldl fmap list_fmap]. rewrite (so_max _ _ _ _ Hs), (wrap_u_id 32 (largest ds)) by lia.
    rewrite IH by (destruct (largest ds >? m); lia). unfold largest at 5. cbn [foldr]. fold (largest (largest <$> dss)).
    destruct (largest ds >? m) eqn:E; lia.
Qed.

Lemma totals_bound g (f : list Z -> Z) dss stats :
  (forall ds, 0 <= f ds <= Z.of_nat (length ds)) ->
  Forall2 (thread_ok g) dss stats -> 0 <= sumZ f dss <= Z.of_nat (length dss) * 2 ^ 31.
Proof.
  intros Hf H. induction H as [|ds s dss stats (_ & _ & Hl) H IH]; [unfold sumZ; cbn; lia|].
  rewrite sumZ_cons. pose proof (Hf ds). cbn [length]. lia.
Qed.

(** The final histogram accounts for every cycle: each row has the number of
    times each thread had that latency, a thread's total and its overflows add up
    to its cycles, and the columns for all threads are the sums and the maximum
    over the threads. *)
Theorem print_hist_accounts g dss stats :
  0 < gi g histogram <= HIST_MAX -> Forall2 (thread_ok g) dss stats -> Z.of_nat (length stats) < 2 ^ 31 ->
  exists rep, print_hist g stats = Some rep /\
    hr_rows rep = (fun k => count k <$> dss) <$> seqZ 0 (gi g histogram) /\
    hr_totals rep = in_range (gi g histogram) <$> dss /\
    hr_overflows rep = late (gi g histogram) <$> dss /\
    zip_with Z.add (hr_totals rep) (hr_overflows rep) = cycles <$> stats /\
    hr_total rep = sumZ id (hr_totals rep) /\
    hr_maxs rep = largest <$> dss /\ hr_maxmax rep = largest (hr_maxs rep).
Proof.
  intros Hh H Hn. pose proof (Forall2_length _ _ _ H) as Hlen. set (h := gi g histogram) in *.
  pose proof (totals_bound g (in_range h) dss stats (in_range_bound h) H) as Hb.
  assert (Hnn : Forall (fun ds => Forall (fun d => 0 <= d) ds /\ Z.of_nat (length ds) < 2 ^ 31) dss).
  { apply Forall_lookup. intros i ds Hi. destruct (Forall2_lookup_l _ _ _ _ _ H Hi) as (s & _ & _ & Hd & Hl).
    split; [|exact Hl]. eapply Forall_impl; [exact Hd | cbn; lia]. }
  assert (Eov : hist_overflow <$> stats = late h <$> dss).
  { apply (Forall2_fmap_eq _ _ _ _ _ H). intros ds s ([par Hs] & _). apply (so_overflow _ _ _ _ Hs). lia. }
  assert (Emx : max <$> stats = largest <$> dss).
  { apply (Forall2_fmap_eq _ _ _ _ _ H). intros ds s ([par Hs] & _). apply (so_max _ _ _ _ Hs). }
  assert (Ecy : cycles <$> stats = (fun ds => Z.of_nat (length ds)) <$> dss).
  { apply (Forall2_fmap_eq _ _ _ _ _ H). intros ds s ([par Hs] & _). apply (so_cycles _ _ _ _ Hs). }
  assert (Etot : forall ds, ds ∈ dss -> u64 (0 + sumZ (fun k => count k ds) (seqZ 0 h)) = in_range h ds).
  { intros ds Hds. apply (proj1 (Forall_forall _ _) Hnn) in Hds as [Hd Hl].
    rewrite count_total by exact Hd. apply wrap_u_id. pose proof (in_range_bound h ds). unfold in_range in *. lia. }
  unfold print_hist. fold h. rewrite (rows_ok g dss stats) by
    (try exact H; apply Forall_forall; intros k Hk; apply elem_of_seqZ in Hk; unfold h in *; lia).
  cbn [mbind option_bind]. eexists. split; [reflexivity|].
  cbn [hr_rows hr_totals hr_overflows hr_total hr_maxs hr_maxmax].
  assert (E2 : foldl (zip_with add64) (replicate (length stats) 0) ((fun k => count k <$> dss) <$> seqZ 0 h)
               = in_range h <$> dss).
  { rewrite <- Hlen. replace (replicate (length dss) 0) with ((fun _ : list Z => 0) <$> dss)
      by (clear; induction dss as [|d dss IH]; [reflexivity | cbn; now rewrite IH]).
    rewrite (foldl_rows count) by lia. apply list_fmap_ext. intros i ds Hi. apply Etot.
    now apply (list_elem_of_lookup_2 _ i). }
  rewrite E2, Eov, Emx, Ecy. repeat split; try reflexivity.
  - clear. induction dss as [|ds dss IH]; [reflexivity|]. cbn [fmap list_fmap zip_with]. f_equal; [|exact IH].
    unfold in_range. lia.
  - rewrite foldl_add64, sumZ_fmap, sumZ_fmap by lia.
    rewrite (sumZ_ext _ (fun k => sumZ (fun ds => count k ds) dss)).
    2: { intros k _. rewrite foldl_add64 by lia. rewrite sumZ_fmap, Z.add_0_l. unfold id. apply wrap_u_id.
         pose proof (totals_bound g (count k) dss stats (fun ds => indicator_bound (fun x => x =? k) ds) H).
         change (0 <= sumZ (count k) dss < 2 ^ 64). lia. }
    rewrite sumZ_swap, (sumZ_ext _ (in_range h)).
    + rewrite sumZ_fmap, wrap_u_id by lia. reflexivity.
    + intros ds Hds. apply count_total. now apply (proj1 (Forall_forall _ _) Hnn).
  - rewrite (maxmax_ok g dss stats 0 H) by lia. pose proof (largest_nonneg (largest <$> dss)). lia.
Qed.

(** ** Witnesses *)

(** A thread that has just started has read and printed nothing. *)
Lemma new_reader_ok red g : (0 < red)%nat -> reader_ok red [] [] (new_stat g).
Proof.
  intros H. unfold new_stat. split; cbn [cyclesread reduce redmax cycleofmax length]; try reflexivity; try lia.
  intros k ln Hk. now rewrite lookup_nil in Hk.
Qed.

Lemma print_stat_reports_witness :
  exists s s' lns, record_latency demo_globals demo_par 7 (new_stat demo_globals) = Some s /\
    print_stat demo_globals demo_par 0 1 (bump_cycles s) = Some (s', lns) /\ reader_ok 1 [7] lns s'.
Proof.
  destruct (record_latency_ok demo_globals demo_par [] 7 (new_stat demo_globals)) as (s & E & Hs);
    [apply new_stat_ok; [vm_compute; discriminate | reflexivity] | split; reflexivity || discriminate | cbn; lia | lia
    | constructor |].
  destruct (print_stat_reports demo_globals demo_par 0 1 [7] 0 [] (bump_cycles s)) as (s' & lns & H1 & H2 & H3).
  - discriminate.
  - discriminate.
  - split; vm_compute; [discriminate | reflexivity].
  - cbn. lia.
  - cbn. lia.
  - vm_compute. discriminate.
  - exact Hs.
  - eapply record_latency_reader; [exact E|]. apply new_reader_ok. vm_compute. lia.
  - exists s, s', lns. auto.
Defined.

Lemma print_hist_accounts_witness :
  exists s rep, record_latency quiet_globals quiet_par 7 (new_stat quiet_globals) = Some s /\
    print_hist quiet_globals [new_stat quiet_globals; bump_cycles s] = Some rep /\
    hr_totals rep = [0; 1] /\ hr_total rep = 1.
Proof.
  assert (H0 : stat_ok quiet_globals quiet_par [] (new_stat quiet_globals))
    by (apply new_stat_ok; [vm_compute; discriminate | reflexivity]).
  destruct (record_latency_ok quiet_globals quiet_par [] 7 (new_stat quiet_globals) H0) as (s & E & Hs);
    [split; reflexivity || discriminate | cbn; lia | lia | constructor |].
  destruct (print_hist_accounts quiet_globals [[]; [7]] [new_stat quiet_globals; bump_cycles s])
    as (rep & H1 & _ & H2 & _ & _ & H3 & _).
  - split; vm_compute; [reflexivity | discriminate].
  - repeat constructor; try (eexists; eassumption); cbn; lia.
  - cbn. lia.
  - exists s, rep. rewrite H2 in H3. rewrite H2, H3. auto.
Defined.
