(* ===== verification/CycTrace.v ===== *)
(** * cyclictest: kernel variables and tracers

    posix/user/rt-utils.c and the tracing part of posix/user/cyclictest.c: the
    files of /proc and debugfs the program reads and writes ([kernvar],
    [setkernvar], [restorekernvars], [setevent]), the search for the tracers
    ([get_debugfileprefix], [get_tracers], [valid_tracer]), [check_kernel],
    [setup_tracer] and the end of [main].  The file system is an interface. *)

From stdpp Require Import base tactics numbers list strings gmap.
From Stdlib Require Import Ascii.
From Stdlib Require String.
From S2P Require Import Prelude CycTime CycOptions.

Local Open Scope cmonad_scope.

(** ** The file system *)

Inductive open_mode := O_RDONLY | O_WRONLY.

(** What the program asks of the system: whether a file opens, what a read of at
    most so many bytes gives, all the bytes [fread] gives to the end, a write (the new system and the number of bytes
    written), whether a path exists, whether it is a directory, the mount points
    and types of /proc/mounts, and the result of the [mount] command. *)
Class FileSystem (FS : Type) := {
  fs_open : open_mode -> string -> FS -> bool;
  fs_read : string -> nat -> FS -> string;
  fs_contents : string -> FS -> string;
  fs_write : string -> string -> FS -> FS * Z;
  fs_stat : string -> FS -> bool;
  fs_isdir : string -> FS -> bool;
  fs_mounts : FS -> option (list (string * string));
  fs_mount : string -> FS -> FS * Z }.

(** ** Data *)

Definition KVARS : nat := 32.
Definition KVARNAMELEN : nat := 32.
Definition KVALUELEN : nat := 32.

(** An entry of [kv]: the characters of [name] and of [value]. *)
Record kvar := KV { k_name : string; k_value : string }.

(** [kv[i].name] as a string: a name that fills its array has no terminator and
    goes on into [value], which always has one. *)
Definition name_string (k : kvar) : string :=
  if (String.length (k_name k) <? KVARNAMELEN)%nat then k_name k else k_name k +:+ k_value k.

Definition KV_NOT_SUPPORTED : Z := 0.
Definition KV_26_LT18 : Z := 1.
Definition KV_26_LT24 : Z := 2.
Definition KV_26_33 : Z := 3.
Definition KV_30 : Z := 4.

(** What [check_kernel] finds: [kernelversion], [functiontracer], [traceroptions]. *)
Record kernel := KERNEL { kernelversion : Z; functiontracer : string; traceroptions : string }.

(** The variables of the tracing code: the files, [kv], [fileprefix],
    [debugfileprefix], [tracer_list] when it has been read, [trace_fd] and
    [tracemark_fd] (the path they are open on), [enable_events], and the switch of
    the kernels without debugfs. *)
Record tstate (FS : Type) := TST {
  fs : FS; kv : list kvar; t_fileprefix : string; debugfileprefix : string;
  tracer_list : option (list string); trace_fd : option string; tracemark_fd : option string;
  t_enable_events : Z; t_switch : option bool }.
Arguments TST {FS} _ _ _ _ _ _ _ _ _.
Arguments fs {FS} _.
Arguments kv {FS} _.
Arguments t_fileprefix {FS} _.
Arguments debugfileprefix {FS} _.
Arguments tracer_list {FS} _.
Arguments trace_fd {FS} _.
Arguments tracemark_fd {FS} _.
Arguments t_enable_events {FS} _.
Arguments t_switch {FS} _.

(** [fatal] ends the program; [strlen(NULL)] is what an empty list of tracers
    leads to. *)
Inductive trace_fault := FatalExit | NullString.

Section Trace.

Context {FS : Type} `{FileSystem FS}.

(** The heap after the text of available_tracers, up to the first zero: the
    buffer is not terminated. *)
Context (heap_rest : string).

Definition tm (A : Type) : Type := M (tstate FS) trace_fault A.

Definition set_fs (x : FS) (s : tstate FS) : tstate FS :=
  TST x (kv s) (t_fileprefix s) (debugfileprefix s) (tracer_list s) (trace_fd s) (tracemark_fd s)
    (t_enable_events s) (t_switch s).
Definition set_kv (x : list kvar) (s : tstate FS) : tstate FS :=
  TST (fs s) x (t_fileprefix s) (debugfileprefix s) (tracer_list s) (trace_fd s) (tracemark_fd s)
    (t_enable_events s) (t_switch s).
Definition set_prefix (x : string) (s : tstate FS) : tstate FS :=
  TST (fs s) (kv s) x (debugfileprefix s) (tracer_list s) (trace_fd s) (tracemark_fd s)
    (t_enable_events s) (t_switch s).
Definition set_debugprefix (x : string) (s : tstate FS) : tstate FS :=
  TST (fs s) (kv s) (t_fileprefix s) x (tracer_list s) (trace_fd s) (tracemark_fd s)
    (t_enable_events s) (t_switch s).
Definition set_tracer_list (x : list string) (s : tstate FS) : tstate FS :=
  TST (fs s) (kv s) (t_fileprefix s) (debugfileprefix s) (Some x) (trace_fd s) (tracemark_fd s)
    (t_enable_events s) (t_switch s).
Definition set_fds (a b : option string) (s : tstate FS) : tstate FS :=
  TST (fs s) (kv s) (t_fileprefix s) (debugfileprefix s) (tracer_list s) a b (t_enable_events s) (t_switch s).
Definition set_events (x : Z) (s : tstate FS) : tstate FS :=
  TST (fs s) (kv s) (t_fileprefix s) (debugfileprefix s) (tracer_list s) (trace_fd s) (tracemark_fd s)
    x (t_switch s).
Definition set_switch (x : bool) (s : tstate FS) : tstate FS :=
  TST (fs s) (kv s) (t_fileprefix s) (debugfileprefix s) (tracer_list s) (trace_fd s) (tracemark_fd s)
    (t_enable_events s) (Some x).

(** ** Kernel variables *)

(** The characters before the first zero. *)
Fixpoint c_string (s : string) : string :=
  match s with
  | EmptyString => EmptyString
  | String c s' => if Ascii.eqb c Ascii.zero then EmptyString else String c (c_string s')
  end.

(** The file name [kernvar] builds; [None] when it does not fit. *)
Definition kernvar_path (name : string) (s : tstate FS) : option string :=
  if (128 <? String.length (t_fileprefix s) + String.length name + 1)%nat then None
  else Some (t_fileprefix s +:+ name).

(** [kernvar(O_RDONLY, name, value, sizeofvalue)]: the value read, or [None] when it
    returns 1; the last character read is replaced by the terminator. *)
Definition kernvar_read (name : string) (sizeofvalue : nat) : tm (option string) := fun s =>
  match kernvar_path name s with
  | Some p =>
      if fs_open O_RDONLY p (fs s) then
        let got := fs_read p sizeofvalue (fs s) in
        if (0 <? String.length got)%nat
        then OK (Some (c_string (String.substring 0 (String.length got - 1) got))) s
        else OK None s
      else OK None s
  | None => OK None s
  end.

(** [kernvar(O_WRONLY, name, value, strlen(value))] *)
Definition kernvar_write (name value : string) : tm Z := fun s =>
  match kernvar_path name s with
  | Some p =>
      if fs_open O_WRONLY p (fs s) then
        let '(fs', n) := fs_write p value (fs s) in
        OK (if n =? Z.of_nat (String.length value) then 0 else 1) (set_fs fs' s)
      else OK 1 s
  | None => OK 1 s
  end.

(** The loop of [setkernvar] that keeps the old value, once. *)
Fixpoint backup (name oldvalue : string) (l : list kvar) : list kvar :=
  match l with
  | [] => []
  | k :: l' =>
      if bool_decide (name_string k = name) then l
      else if bool_decide (k_name k = "") then
        KV (String.substring 0 KVARNAMELEN name) (String.substring 0 KVALUELEN oldvalue) :: l'
      else k :: backup name oldvalue l'
  end.

Definition setkernvar (kver : Z) (name value : string) : tm unit :=
  (if kver <? KV_26_33 then
     let! old := kernvar_read name KVALUELEN in
     match old with
     | Some oldvalue => modify (fun s => set_kv (backup name oldvalue (kv s)) s)
     | None => ret tt
     end
   else ret tt) ;;
  let! _ := kernvar_write name value in ret tt.

Fixpoint restore_list (l : list kvar) : tm unit :=
  match l with
  | [] => ret tt
  | k :: l' =>
      (if bool_decide (k_name k = "") then ret tt
       else let! _ := kernvar_write (name_string k) (k_value k) in ret tt) ;;
      restore_list l'
  end.

Definition restorekernvars : tm unit := let! s := get in restore_list (kv s).

(** ** debugfs *)

(** The loop over /proc/mounts. *)
Fixpoint find_debugfs (l : list (string * string)) : option string :=
  match l with
  | [] => None
  | (dir, type) :: l' =>
      if bool_decide (type = "debugfs") then Some dir
      else if bool_decide (dir = "/sys/kernel/debug") && bool_decide (type = "systemd") then Some dir
      else find_debugfs l'
  end.

Definition get_debugfileprefix : tm string := fun s =>
  let found p := OK p (set_debugprefix p s) in
  if negb (bool_decide (debugfileprefix s = "")) then OK (debugfileprefix s) s
  else if fs_isdir "/sys/kernel/debug/tracing" (fs s) then found "/sys/kernel/debug/tracing/"
  else if fs_isdir "/debug/tracing" (fs s) then found "/debug/tracing/"
  else match fs_mounts (fs s) with
       | None => OK "" s
       | Some l =>
           match find_debugfs l with
           | None => OK "" s
           | Some dir => found (dir +:+ String.substring 0 (MAX_PATH - String.length dir) "/tracing/")
           end
       end.

(** [mount_debugfs(NULL)] *)
Definition mount_debugfs : tm Z :=
  let! prefix := get_debugfileprefix in
  if negb (bool_decide (prefix = "")) then ret 0
  else fun s => let '(fs', r) := fs_mount "/sys/kernel/debug" (fs s) in
                OK (if r =? 0 then 0 else -1) (set_fs fs' s).

Definition trace_file_exists (name : string) : tm bool :=
  let! prefix := get_debugfileprefix in
  let! s := get in ret (fs_stat (prefix +:+ name) (fs s)).

(** The delimiters of [strtok]. *)
Definition is_delim (c : Ascii.ascii) : bool :=
  let n := Ascii.nat_of_ascii c in (n =? 32)%nat || (n =? 9)%nat || (n =? 10)%nat || (n =? 13)%nat.

(** All the tokens; [tok] is the one being read. *)
Fixpoint tokens_from (tok : string) (s : string) : list string :=
  match s with
  | EmptyString => if bool_decide (tok = "") then [] else [tok]
  | String c s' =>
      if is_delim c then
        if bool_decide (tok = "") then tokens_from "" s' else tok :: tokens_from "" s'
      else tokens_from (tok +:+ String c EmptyString) s'
  end.

Definition tokens (s : string) : list string := tokens_from "" s.

(** [get_tracers]: the list of the tokens of available_tracers, read once.  With no
    token at all the list is one NULL pointer, here the empty list. *)
Definition get_tracers : tm (list string) :=
  let! prefix := get_debugfileprefix in
  let! s := get in
  match tracer_list s with
  | Some l => ret l
  | None =>
      let path := prefix +:+ "available_tracers" in
      if negb (fs_open O_RDONLY path (fs s)) then fault FatalExit
      else
        let text := fs_contents path (fs s) in
        if bool_decide (text = "") then fault FatalExit
        else
          let l := tokens (c_string (text +:+ heap_rest)) in
          modify (set_tracer_list l) ;; ret l
  end.

(** [strncmp(t, name, strlen(t)) == 0] *)
Definition strncmp_eq (t name : string) : bool :=
  bool_decide (String.substring 0 (String.length t) name = t).

Definition valid_tracer (tracername : string) : tm bool :=
  let! l := get_tracers in
  match l with
  | [] => fault NullString
  | _ => ret (existsb (fun t => strncmp_eq t tracername) l)
  end.

Definition setevent (event val : string) : tm Z :=
  let! prefix := get_debugfileprefix in
  fun s =>
    let path := prefix +:+ event in
    if negb (fs_open O_WRONLY path (fs s)) then OK (-1) s
    else let '(fs', n) := fs_write path val (fs s) in OK (if n <? 0 then -1 else 0) (set_fs fs' s).

Definition event_enable_all : tm Z := setevent "events/enable" "1".
Definition event_disable_all : tm Z := setevent "events/enable" "0".
Definition event_enable (event : string) : tm Z := setevent ("events/" +:+ event +:+ "/enable") "1".
Definition event_disable (event : string) : tm Z := setevent ("events/" +:+ event +:+ "/enable") "0".

(** ** Tracing *)

(** [write(trace_fd, ...)] *)
Definition write_fd (fd : option string) (text : string) : tm unit := fun s =>
  match fd with
  | Some p => OK tt (set_fs (fst (fs_write p text (fs s))) s)
  | None => OK tt s
  end.

Definition tracing (kver : Z) (on : bool) : tm unit :=
  if (kver =? KV_26_LT18) || (kver =? KV_26_LT24) then modify (set_switch on)
  else if (kver =? KV_26_33) || (kver =? KV_30) then
    let! s := get in write_fd (trace_fd s) (if on then "1" else "0")
  else ret tt.

Definition settracer (kver : Z) (name : string) : tm Z :=
  let! v := valid_tracer name in
  if v then setkernvar kver "current_tracer" name ;; ret 0 else ret (-1).

(** The [switch] of [setup_tracer]: whether the tracer was not available. *)
Definition select_tracer (g : globals) (k : kernel) (ret0 : Z) : tm Z :=
  let set := settracer (kernelversion k) in
  let t := gi g tracetype in
  if t =? NOTRACE then modify (set_events 1) ;; ret ret0
  else if t =? FUNCTION then set "function"
  else if t =? IRQSOFF then set "irqsoff"
  else if t =? PREEMPTOFF then set "preemptoff"
  else if t =? PREEMPTIRQSOFF then set "preemptirqsoff"
  else if t =? CTXTSWITCH then
    let! v := valid_tracer "sched_switch" in
    if v then set "sched_switch"
    else let! r := event_enable "sched/sched_wakeup" in
         if negb (r =? 0) then ret r else event_enable "sched/sched_switch"
  else if t =? WAKEUP then set "wakeup"
  else if t =? WAKEUPRT then set "wakeup_rt"
  else if negb (bool_decide (tracer g = "")) then
    let! r := set (tracer g) in
    if bool_decide (tracer g = "events") && negb (gi g ftrace =? 0) then set (functiontracer k) else ret r
  else ret 0.

(** [setkernvar] of several variables. *)
Fixpoint setkernvars (kver : Z) (l : list (string * string)) : tm unit :=
  match l with
  | [] => ret tt
  | (n, v) :: l' => setkernvar kver n v ;; setkernvars kver l'
  end.

(** The options of the tracer. *)
Definition trace_options (g : globals) (k : kernel) : list (string * string) :=
  let o := traceroptions k in
  [(o, "print-parent"); (o, "latency-format")] ++
  (if gi g verbose =? 0 then [(o, "nosym-offset"); (o, "nosym-addr"); (o, "noverbose")]
   else [(o, "sym-offset"); (o, "sym-addr"); (o, "verbose")]) ++
  ((fun opt => (o, opt)) <$> traceptr g) ++
  [("tracing_max_latency", "0")].

(** Opening [trace_fd] (fatal when it fails) and [tracemark_fd]. *)
Definition open_trace_fds : tm unit :=
  let! s := get in
  (if bool_decide (trace_fd s = None) then
     let! on := trace_file_exists "tracing_on" in
     let! s := get in
     let path := t_fileprefix s +:+ (if on then "tracing_on" else "tracing_enabled") in
     if fs_open O_WRONLY path (fs s) then modify (set_fds (Some path) (tracemark_fd s))
     else fault FatalExit
   else ret tt) ;;
  let! s := get in
  if bool_decide (tracemark_fd s = None) then
    let path := t_fileprefix s +:+ "trace_marker" in
    if fs_open O_WRONLY path (fs s) then modify (set_fds (trace_fd s) (Some path)) else ret tt
  else ret tt.

(** The kernels with debugfs. *)
Definition setup_debugfs (g : globals) (k : kernel) : tm unit :=
  let kver := kernelversion k in
  let! prefix := get_debugfileprefix in
  modify (set_prefix prefix) ;;
  let! enabled := trace_file_exists "tracing_enabled" in
  let! on := (if enabled then trace_file_exists "tracing_on" else ret true) in
  (if enabled && negb on then setkernvar kver "tracing_enabled" "1" else ret tt) ;;
  modify (set_prefix procfileprefix) ;;
  setkernvar kver "ftrace_enabled" (if gi g tracetype =? 0 then "0" else "1") ;;
  let! prefix := get_debugfileprefix in
  modify (set_prefix prefix) ;;
  let! r := settracer kver "nop" in
  let! _ := select_tracer g k r in
  let! s := get in
  (if negb (t_enable_events s =? 0) then let! _ := event_enable_all in ret tt else ret tt) ;;
  setkernvars kver (trace_options g k) ;;
  let! h := trace_file_exists "latency_hist" in
  (if h then setkernvar kver "latency_hist/wakeup/reset" "1" else ret tt) ;;
  open_trace_fds.

(** The variables set on the kernels before 2.6.24 and on those it does not know. *)
Definition old_kernel_vars (g : globals) : list (string * string) :=
  [("trace_all_cpus", "1"); ("trace_freerunning", "1"); ("trace_print_on_crash", "0");
   ("trace_user_triggered", "1"); ("trace_user_trigger_irq", "-1"); ("trace_verbose", "0");
   ("preempt_thresh", "0"); ("wakeup_timing", "0"); ("preempt_max_latency", "0")] ++
  (if gi g ftrace =? 0 then [] else [("mcount_enabled", "1")]) ++
  [("trace_enabled", "1"); ("latency_hist/wakeup_latency/reset", "1")].

Definition setup_tracer (g : globals) (k : kernel) : tm unit :=
  if gi g tracelimit =? 0 then ret tt
  else
    let! r := mount_debugfs in
    if negb (r =? 0) then fault FatalExit
    else
      (if kernelversion k >=? KV_26_33 then setup_debugfs g k
       else modify (set_prefix procfileprefix) ;; setkernvars (kernelversion k) (old_kernel_vars g)) ;;
      tracing (kernelversion k) true.

(** The end of [main], from its label [out]. *)
Definition main_out (g : globals) (k : kernel) : tm unit :=
  let kver := kernelversion k in
  (if gi g tracelimit =? 0 then ret tt else tracing kver false) ;;
  modify (set_fds None None) ;;
  let! s := get in
  (if t_enable_events s =? 0 then ret tt else let! _ := event_disable_all in ret tt) ;;
  modify (set_prefix procfileprefix) ;;
  (if gi g tracetype =? 0 then ret tt else setkernvar kver "ftrace_enabled" "0") ;;
  let! prefix := get_debugfileprefix in
  modify (set_prefix prefix) ;;
  if kver <? KV_26_33 then restorekernvars else ret tt.

End Trace.

(** ** check_kernel *)

(** [sscanf(release, "%d.%d.%d", ...)]: the numbers matched. *)
Definition scan_int (s : string) : option (Z * string) :=
  let '(v, rest) := strtol s in
  if bool_decide (rest = s) then None else Some (i32 v, rest).

Definition scan_dot (s : string) : option string :=
  match s with String "."%char r => Some r | _ => None end.

Definition scan_release (s : string) : list Z :=
  match scan_int s with
  | None => []
  | Some (a, r) =>
      match scan_dot r ≫= scan_int with
      | None => [a]
      | Some (b, r) =>
          match scan_dot r ≫= scan_int with
          | None => [a; b]
          | Some (c, _) => [a; b; c]
          end
      end
  end.

(** [check_kernel]; [release] is [None] when [uname] fails, and [stack] gives the
    numbers that [sscanf] leaves unset. *)
Definition check_kernel (release : option string) (stack : nat -> Z) : kernel :=
  match release with
  | None => KERNEL KV_NOT_SUPPORTED "" ""
  | Some r =>
      let n := scan_release r in
      let num i := default (stack i) (n !! i) in
      let maj := num 0%nat in let min := num 1%nat in let sub := num 2%nat in
      if (maj =? 2) && (min =? 6) then
        if sub <? 18 then KERNEL KV_26_LT18 "" ""
        else if sub <? 24 then KERNEL KV_26_LT24 "" ""
        else if sub <? 28 then KERNEL KV_26_33 "ftrace" "iter_ctrl"
        else KERNEL KV_26_33 "function" "trace_options"
      else if maj =? 3 then KERNEL KV_30 "function" "trace_options"
      else KERNEL KV_NOT_SUPPORTED "" ""
  end.
