(* ===== verification/CycTraceFacts.v ===== *)
(** * cyclictest: facts about kernel variables and tracers

    What [restorekernvars] restores, which names [valid_tracer] accepts. *)

From stdpp Require Import base tactics numbers list strings gmap.
From Stdlib Require Import Ascii.
From Stdlib Require String.
From S2P Require Import Prelude CycTime CycOptions CycTrace.

Local Open Scope cmonad_scope.

(** ** Strings *)

Lemma append_nil_r s : s +:+ "" = s.
Proof. induction s as [|c s IH]; [reflexivity|]. exact (f_equal (String c) IH). Qed.

Lemma append_assoc a b c : (a +:+ b) +:+ c = a +:+ (b +:+ c).
Proof. induction a as [|x a IH]; [reflexivity|]. exact (f_equal (String x) IH). Qed.

Lemma append_length a b : String.length (a +:+ b) = (String.length a + String.length b)%nat.
Proof. induction a as [|x a IH]; [reflexivity|]. exact (f_equal S IH). Qed.

Lemma append_inj p a b : p +:+ a = p +:+ b -> a = b.
Proof. induction p as [|c p IH]; cbn; intros E; [exact E|]. injection E as E. now apply IH. Qed.

Lemma substring_all s n : (String.length s <= n)%nat -> String.substring 0 n s = s.
Proof.
  revert n. induction s as [|c s IH]; intros [|n] Hn; cbn in *; try lia; try reflexivity. now rewrite IH by lia.
Qed.

Lemma substring_append a b : String.substring 0 (String.length a) (a +:+ b) = a.
Proof. induction a as [|c a IH]; [now destruct b|]. exact (f_equal (String c) IH). Qed.

(** ** Kernel variables *)

(** The line that ends a variable when it is read. *)
Definition newline : string := String "010" EmptyString.

(** A file system with kernel variables: a variable opens, reading it gives its
    value and a newline, and writing it changes it and no other. *)
Class ProcVars (FS : Type) `{FileSystem FS} := {
  var : string -> FS -> option string;
  var_open : forall p f v m, var p f = Some v -> fs_open m p f = true;
  var_read : forall p f v n, var p f = Some v -> fs_read p n f = String.substring 0 n (v +:+ newline);
  var_text : forall p f v, var p f = Some v -> c_string v = v;
  var_write : forall p f v w, var p f = Some v -> c_string w = w ->
    exists f', fs_write p w f = (f', Z.of_nat (String.length w)) /\ var p f' = Some w /\
      forall q, q <> p -> var q f' = var q f }.

Section Restore.

Context {FS : Type} `{ProcVars FS}.

(** A name that fits: a variable of a short enough value. *)
Definition name_ok (prefix name : string) (f : FS) : Prop :=
  (0 < String.length name < KVARNAMELEN)%nat /\
  (String.length prefix + String.length name + 1 <= 128)%nat /\
  exists v, var (prefix +:+ name) f = Some v /\ (String.length v < KVALUELEN)%nat.

Lemma kernvar_path_ok prefix name (s : tstate FS) :
  t_fileprefix s = prefix -> (String.length prefix + String.length name + 1 <= 128)%nat ->
  kernvar_path name s = Some (prefix +:+ name).
Proof.
  intros <- Hl. unfold kernvar_path. destruct (_ <? _)%nat eqn:E; [|reflexivity].
  apply Nat.ltb_lt in E. lia.
Qed.

Lemma kernvar_read_ok prefix name (s : tstate FS) v :
  t_fileprefix s = prefix -> (String.length prefix + String.length name + 1 <= 128)%nat ->
  var (prefix +:+ name) (fs s) = Some v -> (String.length v < KVALUELEN)%nat ->
  kernvar_read name KVALUELEN s = OK (Some v) s.
Proof.
  intros Hp Hl Hv Hlen. unfold kernvar_read. rewrite (kernvar_path_ok prefix) by assumption.
  rewrite (var_open _ _ _ _ Hv), (var_read _ _ _ _ Hv).
  rewrite (substring_all (v +:+ newline)) by (rewrite append_length; cbn; unfold KVALUELEN in *; lia).
  rewrite append_length. cbn [String.length newline].
  replace (0 <? String.length v + 1)%nat with true by (symmetry; apply Nat.ltb_lt; lia).
  rewrite Nat.add_sub, substring_append. now rewrite (var_text _ _ _ Hv).
Qed.

Lemma kernvar_write_ok prefix name w (s : tstate FS) v :
  t_fileprefix s = prefix -> (String.length prefix + String.length name + 1 <= 128)%nat ->
  var (prefix +:+ name) (fs s) = Some v -> c_string w = w ->
  exists f', kernvar_write name w s = OK 0 (set_fs f' s) /\ var (prefix +:+ name) f' = Some w /\
    forall q, q <> prefix +:+ name -> var q f' = var q (fs s).
Proof.
  intros Hp Hl Hv Hw. unfold kernvar_write. rewrite (kernvar_path_ok prefix) by assumption.
  rewrite (var_open _ _ _ _ Hv). destruct (var_write _ _ _ w Hv Hw) as (f' & E & H1 & H2).
  rewrite E, Z.eqb_refl. eauto.
Qed.

Definition free : kvar := KV "" "".

(** The table: entries in use, then free ones. *)
Definition table (us : list kvar) : list kvar := us ++ replicate (KVARS - length us) free.

(** An entry with the value its variable had in [f0]. *)
Definition entry_ok (prefix : string) (f0 : FS) (k : kvar) : Prop :=
  (0 < String.length (k_name k) < KVARNAMELEN)%nat /\
  (String.length prefix + String.length (k_name k) + 1 <= 128)%nat /\
  var (prefix +:+ k_name k) f0 = Some (k_value k).

Lemma entry_name prefix f0 k : entry_ok prefix f0 k -> name_string k = k_name k /\ k_name k <> "".
Proof.
  intros [Hl _]. unfold name_string.
  replace (String.length (k_name k) <? KVARNAMELEN)%nat with true by (symmetry; apply Nat.ltb_lt; lia).
  split; [reflexivity|]. intros E. rewrite E in Hl. cbn in Hl. lia.
Qed.

Lemma backup_ok prefix f0 us name old :
  Forall (entry_ok prefix f0) us -> name <> "" -> (length us < KVARS)%nat ->
  (exists k, k ∈ us /\ k_name k = name) /\ backup name old (table us) = table us \/
  (forall k, k ∈ us -> k_name k <> name) /\
  backup name old (table us)
    = table (us ++ [KV (String.substring 0 KVARNAMELEN name) (String.substring 0 KVALUELEN old)]).
Proof.
  intros Hus Hn Hlen. unfold table. rewrite length_app. cbn [length].
  assert (Hr : replicate (KVARS - length us) free = free :: replicate (KVARS - (length us + 1)) free).
  { replace (KVARS - length us)%nat with (S (KVARS - (length us + 1))) by lia. reflexivity. }
  rewrite Hr. generalize (replicate (KVARS - (length us + 1)) free) as tl. clear Hr Hlen. intros tl.
  induction Hus as [|k us Hk Hus IH]; cbn [app backup].
  - right. split; [intros k Hk; now apply elem_of_nil in Hk|].
    rewrite bool_decide_false by (intros E; apply Hn; symmetry; exact E). reflexivity.
  - destruct (entry_name _ _ _ Hk) as [Ek Ne]. rewrite Ek.
    destruct (decide (k_name k = name)) as [E|E].
    + left. rewrite bool_decide_true by exact E. split; [|reflexivity].
      exists k. split; [constructor | exact E].
    + rewrite (bool_decide_false (k_name k = name)) by exact E. rewrite (bool_decide_false (k_name k = "")) by exact Ne.
      destruct IH as [[[k' [Hk' E']] ->]|[Hall ->]].
      * left. split; [|reflexivity]. exists k'. split; [now constructor | exact E'].
      * right. split; [|reflexivity]. intros k' Hk'. apply elem_of_cons in Hk' as [->|Hk']; auto.
Qed.

(** While variables are set: those in the table have their old value there, the
    others have it still. *)
Record saved (prefix : string) (f0 : FS) (us : list kvar) (s : tstate FS) : Prop := {
  sv_prefix : t_fileprefix s = prefix;
  sv_kv : kv s = table us;
  sv_entries : Forall (entry_ok prefix f0) us;
  sv_vars : forall q, (exists k, k ∈ us /\ q = prefix +:+ k_name k) \/ var q (fs s) = var q f0;
  sv_some : forall q, is_Some (var q f0) -> is_Some (var q (fs s)) }.

Lemma var_write_some (f f' : FS) p w : var p f' = Some w -> (forall q, q <> p -> var q f' = var q f) ->
  forall q, is_Some (var q f) -> is_Some (var q f').
Proof.
  intros E1 E2 q Hq. destruct (decide (q = p)) as [->|Hne]; [rewrite E1; eauto | now rewrite (E2 q Hne)].
Qed.

(** [kernvar_read] changes nothing. *)
Lemma kernvar_read_state name n (s : tstate FS) : exists r, kernvar_read name n s = OK r s.
Proof. unfold kernvar_read. destruct (kernvar_path name s); repeat split_if; eauto. Qed.

(** The first half of [setkernvar]. *)
Lemma backup_saved prefix f0 us name (s : tstate FS) :
  saved prefix f0 us s -> name_ok prefix name f0 -> (length us < KVARS)%nat ->
  exists old us', kernvar_read name KVALUELEN s = OK old s /\
    saved prefix f0 us' (match old with Some o => set_kv (backup name o (kv s)) s | None => s end) /\
    (exists k, k ∈ us' /\ k_name k = name) /\ (length us' <= S (length us))%nat.
Proof.
  intros [S1 S2 S3 S4 S5] (Hl & Hp & v0 & Hv0 & Hs0) Hlen.
  assert (Hne : name <> "") by (intros ->; cbn in Hl; lia).
  destruct (kernvar_read_state name KVALUELEN s) as [old Eold].
  destruct (backup_ok prefix f0 us name (default "" old) S3 Hne Hlen) as [[Hin Eb]|[Hnin Eb]].
  - exists old, us. split; [exact Eold|]. split; [|split; [exact Hin | lia]].
    destruct old as [o|]; cbn [default id] in Eb; [|split; assumption].
    rewrite S2, Eb. split; cbn [set_kv t_fileprefix kv fs]; auto.
  - assert (Hcur : var (prefix +:+ name) (fs s) = Some v0).
    { destruct (S4 (prefix +:+ name)) as [(k & Hk & E)|E]; [|now rewrite E].
      apply append_inj in E. exfalso. apply (Hnin k Hk). now symmetry. }
    rewrite (kernvar_read_ok prefix name s v0 S1 Hp Hcur Hs0) in Eold. injection Eold as <-.
    cbn [default id] in Eb. rewrite (substring_all name), (substring_all v0) in Eb by lia.
    exists (Some v0), (us ++ [KV name v0]). split; [now apply (kernvar_read_ok prefix)|].
    assert (Hin : KV name v0 ∈ us ++ [KV name v0]) by (apply elem_of_app; right; constructor).
    split; [|split; [now exists (KV name v0) | len_lia]].
    rewrite S2, Eb. split; cbn [set_kv t_fileprefix kv fs]; auto.
    + apply Forall_app. split; [exact S3|]. constructor; [|constructor].
      split; [exact Hl|]. split; [exact Hp | exact Hv0].
    + intros q. destruct (S4 q) as [(k & Hk & E)|E]; [|now right].
      left. exists k. split; [apply elem_of_app; now left | exact E].
Qed.

Lemma setkernvar_saved kver prefix f0 us name value (s : tstate FS) :
  kver < KV_26_33 -> saved prefix f0 us s -> name_ok prefix name f0 -> c_string value = value ->
  (length us < KVARS)%nat ->
  exists s' us', setkernvar kver name value s = OK tt s' /\ saved prefix f0 us' s' /\
    (length us' <= S (length us))%nat.
Proof.
  intros Hk Hs Hname Hval Hlen. unfold setkernvar, bind. replace (kver <? KV_26_33) with true by lia.
  destruct (backup_saved prefix f0 us name s Hs Hname Hlen) as (old & us' & -> & Hs' & (k & Hin & Ek) & Hl').
  assert (E : (match old with Some o => modify (fun s => set_kv (backup name o (kv s)) s) | None => ret tt end) s
            = OK (F := trace_fault) tt (match old with Some o => set_kv (backup name o (kv s)) s | None => s end))
    by now destruct old.
  rewrite E. clear E. set (s1 := match old with Some _ => _ | None => s end) in *. clearbody s1.
  destruct Hs' as [S1 S2 S3 S4 S5]. destruct Hname as (Hl & Hp & v0 & Hv0 & Hs0).
  destruct (S5 (prefix +:+ name) ltac:(rewrite Hv0; eauto)) as [vc Hvc].
  destruct (kernvar_write_ok prefix name value s1 vc S1 Hp Hvc Hval) as (f' & -> & W1 & W2).
  exists (set_fs f' s1), us'. split; [reflexivity|]. split; [|exact Hl'].
  split; cbn [set_fs t_fileprefix kv fs]; auto.
  - intros q. destruct (decide (q = prefix +:+ name)) as [->|Hne].
    + left. exists k. rewrite Ek. auto.
    + rewrite (W2 q Hne). apply S4.
  - intros q Hq. eapply var_write_some; eauto.
Qed.

Lemma setkernvars_saved kver prefix f0 l : forall us (s : tstate FS),
  kver < KV_26_33 -> saved prefix f0 us s -> Forall (fun nv => name_ok prefix (fst nv) f0 /\ c_string (snd nv) = snd nv) l ->
  (length us + length l <= KVARS)%nat ->
  exists s' us', setkernvars kver l s = OK tt s' /\ saved prefix f0 us' s'.
Proof.
  induction l as [|[n v] l IH]; intros us s Hk Hs Hl Hlen; [exists s, us; auto|].
  apply Forall_cons in Hl as [[Hn Hv] Hl]. cbn [length fst snd] in *.
  destruct (setkernvar_saved kver prefix f0 us n v s Hk Hs Hn Hv ltac:(lia)) as (s1 & us1 & E & Hs1 & Hl1).
  destruct (IH us1 s1 Hk Hs1 Hl ltac:(lia)) as (s2 & us2 & E2 & Hs2).
  exists s2, us2. split; [|exact Hs2]. cbn [setkernvars]. unfold bind at 1. now rewrite E, E2.
Qed.

(** Writing back the entries of the table. *)
Lemma restore_list_ok prefix f0 us n : forall (s : tstate FS),
  t_fileprefix s = prefix -> Forall (entry_ok prefix f0) us ->
  (forall q, is_Some (var q f0) -> is_Some (var q (fs s))) ->
  exists s', restore_list (us ++ replicate n free) s = OK tt s' /\
    forall q, var q (fs s') = (if decide (Exists (fun k => q = prefix +:+ k_name k) us)
                               then var q f0 else var q (fs s)).
Proof.
  induction us as [|k us IH]; intros s Hp Hus Hsome.
  - cbn [app]. exists s. split.
    + induction n as [|n IHn]; [reflexivity|]. cbn [replicate restore_list]. unfold bind at 1. exact IHn.
    + intros q. rewrite decide_False; [reflexivity|]. intros E. now apply Exists_nil in E.
  - apply Forall_cons in Hus as [Hk Hus]. destruct (entry_name _ _ _ Hk) as [Ek Ne].
    destruct Hk as (Hl & Hlp & Hv). cbn [app restore_list]. rewrite bool_decide_false by exact Ne. rewrite Ek.
    destruct (Hsome (prefix +:+ k_name k) ltac:(rewrite Hv; eauto)) as [vc Hvc].
    destruct (kernvar_write_ok prefix (k_name k) (k_value k) s vc Hp Hlp Hvc (var_text _ _ _ Hv)) as (f' & E & W1 & W2).
    unfold bind at 1 2. rewrite E. cbn [ret].
    destruct (IH (set_fs f' s) Hp Hus) as (s' & E' & Hq).
    { intros q Hq. apply (var_write_some (fs s) f' _ _ W1 W2 q (Hsome q Hq)). }
    exists s'. split; [exact E'|]. intros q. rewrite Hq. cbn [set_fs fs].
    destruct (decide (Exists _ us)) as [Hex|Hex].
    + rewrite decide_True by now apply Exists_cons_tl. reflexivity.
    + destruct (decide (q = prefix +:+ k_name k)) as [->|Hne].
      * rewrite decide_True by now apply Exists_cons_hd. now rewrite W1, Hv.
      * rewrite decide_False; [now apply W2|]. intros Hc. apply Exists_cons in Hc as [|]; contradiction.
Qed.

(** C37: [restorekernvars] undoes [setkernvar] where it keeps the old values, on
    kernels the program numbers below [KV_26_33], which are those before 2.6.24:
    after any sequence of at most 32 changes to variables whose names and old
    values both fit in the 32 characters of an entry of the table and whose paths
    fit in 128, restored with the same prefix, every kernel variable has the value
    it had before, however often and to whatever it was set. *)
Theorem kernvars_restored kver prefix l (s : tstate FS) :
  kver < KV_26_33 -> t_fileprefix s = prefix -> kv s = replicate KVARS free ->
  (length l <= KVARS)%nat -> Forall (fun nv => name_ok prefix (fst nv) (fs s) /\ c_string (snd nv) = snd nv) l ->
  exists s', (setkernvars kver l ;; restorekernvars) s = OK tt s' /\
    forall q, var q (fs s') = var q (fs s).
Proof.
  intros Hk Hp Hkv Hlen Hl.
  assert (Hs : saved prefix (fs s) [] s) by (split; auto).
  destruct (setkernvars_saved kver prefix (fs s) l [] s Hk Hs Hl Hlen) as (s1 & us & E & [S1 S2 S3 S4 S5]).
  unfold bind. rewrite E. unfold restorekernvars, bind, get. rewrite S2. unfold table.
  destruct (restore_list_ok prefix (fs s) us (KVARS - length us) s1 S1 S3 S5) as (s' & E' & Hq).
  exists s'. split; [exact E'|]. intros q. rewrite Hq. destruct (decide _) as [|Hn]; [reflexivity|].
  destruct (S4 q) as [(k & Hin & Eq)|Eq]; [|exact Eq]. exfalso. apply Hn. apply Exists_exists. eauto.
Qed.

End Restore.

(** ** A file system in memory *)

Abbreviation memfs := (gmap string string).

#[export] Instance mem_filesystem : FileSystem memfs := {|
  fs_open := fun _ p f => bool_decide (is_Some (f !! p));
  fs_read := fun p n f => String.substring 0 n (default "" (f !! p) +:+ newline);
  fs_contents := fun p f => default "" (f !! p) +:+ newline;
  fs_write := fun p w f => (if decide (is_Some (f !! p)) then <[p := w]> f else f, Z.of_nat (String.length w));
  fs_stat := fun p f => bool_decide (is_Some (f !! p));
  fs_isdir := fun p f => bool_decide (is_Some (f !! p));
  fs_mounts := fun _ => None;
  fs_mount := fun _ f => (f, 0) |}.

(** Its files are variables when they are text. *)
#[export] Instance mem_vars : ProcVars memfs.
Proof.
  refine {| var := fun p (f : memfs) => v ← f !! p; if decide (c_string v = v) then Some v else None |}.
  - intros p f v m Hv. apply bind_Some in Hv as (x & Hx & _). cbn. apply bool_decide_eq_true. eauto.
  - intros p f v n Hv. apply bind_Some in Hv as (x & Hx & E). cbn. rewrite Hx.
    destruct (decide _); [injection E as <-; reflexivity | discriminate].
  - intros p f v Hv. apply bind_Some in Hv as (x & Hx & E).
    destruct (decide _); [injection E as <-; assumption | discriminate].
  - intros p f v w Hv Hw. apply bind_Some in Hv as (x & Hx & E). cbn.
    rewrite decide_True by eauto. exists (<[p := w]> f). split; [reflexivity|]. split.
    + rewrite lookup_insert_eq. cbn. now rewrite decide_True.
    + intros q Hq. now rewrite lookup_insert_ne by congruence.
Defined.

(** A kernel before debugfs: its tracing variables, and a debugfs that is mounted. *)
Definition demo_fs : memfs :=
  list_to_map (((fun n => (procfileprefix +:+ n, "0")) <$>
    ["trace_all_cpus"; "trace_freerunning"; "trace_print_on_crash"; "trace_user_triggered";
     "trace_user_trigger_irq"; "trace_verbose"; "preempt_thresh"; "wakeup_timing"; "preempt_max_latency";
     "trace_enabled"; "latency_hist/wakeup_latency/reset"]) ++
    [("/sys/kernel/debug/tracing", "")]).

Definition demo_state : tstate memfs :=
  TST demo_fs (replicate KVARS free) procfileprefix "" None None None 0 None.

Definition demo_vars : list (string * string) :=
  [("trace_all_cpus", "1"); ("trace_enabled", "1"); ("trace_user_trigger_irq", "-1"); ("trace_enabled", "7")].

Lemma kernvars_restored_witness :
  exists s', (setkernvars KV_26_LT18 demo_vars ;; restorekernvars)%cmonad demo_state = OK tt s' /\
    forall q, var q (fs s') = var q (fs demo_state).
Proof.
  apply (kernvars_restored KV_26_LT18 procfileprefix demo_vars demo_state).
  - reflexivity.
  - reflexivity.
  - reflexivity.
  - vm_compute. lia.
  - repeat constructor; try reflexivity; try (vm_compute; lia); exists "0"; split; vm_compute; (reflexivity || lia).
Defined.

(** ** The end of the program on an old kernel *)

Definition demo_trace_globals : globals := set tracelimit 100 globals0.
Definition demo_kernel : kernel := KERNEL KV_26_LT18 "" "".

(** The value of a file after a piece of code. *)
Definition var_after (m : tm (FS := memfs) unit) (s : tstate memfs) (q : string) : option string :=
  match m s with OK _ s' => fs s' !! q | Fault _ => None end.

(** On a kernel without debugfs the variables are not restored at the end:
    they were set under /proc/sys/kernel, and [main] changes the prefix to that of
    debugfs before [restorekernvars]; and even with the right prefix a name of 32
    characters or more, such as the last one [setup_tracer] sets, is restored
    under another name, because [strncpy] leaves it without terminator. *)
Theorem old_kernel_not_restored :
  let enabled := procfileprefix +:+ "trace_enabled" in
  let reset := "latency_hist/wakeup_latency/reset" in
  fs demo_state !! enabled = Some "0" /\
  var_after (setup_tracer "" demo_trace_globals demo_kernel ;; main_out demo_trace_globals demo_kernel)
    demo_state enabled = Some "1" /\
  fs demo_state !! (procfileprefix +:+ reset) = Some "0" /\
  var_after (setkernvars KV_26_LT18 [(reset, "1")] ;; restorekernvars) demo_state (procfileprefix +:+ reset) = Some "1".
Proof. vm_compute. auto. Qed.

(** ** Tracers *)

(** A name of a tracer: not empty, no delimiter and no zero. *)
Fixpoint plain (s : string) : bool :=
  match s with
  | EmptyString => true
  | String c s' => negb (is_delim c) && negb (Ascii.eqb c Ascii.zero) && plain s'
  end.

(** The text of available_tracers: each name and a blank, and a newline. *)
Definition available (l : list string) : string :=
  foldr (fun t acc => t +:+ " " +:+ acc) newline l.

Lemma tokens_from_append tok t s : plain t = true -> tokens_from tok (t +:+ s) = tokens_from (tok +:+ t) s.
Proof.
  revert tok. induction t as [|c t IH]; intros tok Ht; [now rewrite append_nil_r|].
  cbn [plain] in Ht. apply andb_true_iff in Ht as [Hc Ht]. apply andb_true_iff in Hc as [Hc _].
  change (String c t +:+ s) with (String c (t +:+ s)). cbn [tokens_from]. apply negb_true_iff in Hc. rewrite Hc.
  rewrite IH by exact Ht. rewrite append_assoc. reflexivity.
Qed.

(** Reading the list gives the names. *)
Lemma tokens_available l :
  Forall (fun t => plain t = true /\ t <> "") l -> tokens (available l) = l.
Proof.
  intros Hl. unfold tokens. induction Hl as [|t l [Ht Hne] Hl IH]; [reflexivity|].
  cbn [available foldr]. rewrite tokens_from_append by exact Ht.
  change ("" +:+ t) with t.
  change (" " +:+ foldr (fun t acc => t +:+ " " +:+ acc) newline l) with (String " "%char (available l)).
  cbn [tokens_from]. change (is_delim " "%char) with true. cbn [tokens_from].
  rewrite bool_decide_false by exact Hne. now rewrite IH.
Qed.

Lemma c_string_append t s : plain t = true -> c_string (t +:+ s) = t +:+ c_string s.
Proof.
  induction t as [|c t IH]; intros Ht; [reflexivity|].
  cbn [plain] in Ht. apply andb_true_iff in Ht as [Hc Ht]. apply andb_true_iff in Hc as [_ Hc].
  change (String c t +:+ s) with (String c (t +:+ s)). cbn [c_string]. apply negb_true_iff in Hc. rewrite Hc.
  exact (f_equal (String c) (IH Ht)).
Qed.

Lemma c_string_available l :
  Forall (fun t => plain t = true /\ t <> "") l -> c_string (available l) = available l.
Proof.
  intros Hl. induction Hl as [|t l [Ht Hne] Hl IH]; [reflexivity|].
  cbn [available foldr]. rewrite c_string_append by exact Ht.
  change (" " +:+ foldr (fun t acc => t +:+ " " +:+ acc) newline l) with (String " "%char (available l)).
  cbn [c_string]. change (Ascii.eqb " "%char Ascii.zero) with false. cbn iota. now rewrite IH.
Qed.

Lemma strncmp_eq_prefix t name : strncmp_eq t name = true <-> exists rest, name = t +:+ rest.
Proof.
  unfold strncmp_eq. rewrite bool_decide_eq_true. split.
  - revert name. induction t as [|c t IH]; intros name E; [now exists name|].
    destruct name as [|c' name]; [discriminate|]. cbn in E. injection E as -> E.
    destruct (IH name E) as [rest ->]. now exists rest.
  - intros [rest ->]. apply substring_append.
Qed.

(** Which tracers are taken for valid: with debugfs mounted and the list of the
    configured tracers in available_tracers, the list is read token by token, and
    [valid_tracer] accepts a name exactly when one of the configured names is a
    prefix of it; a second call uses the list already read. *)
Theorem valid_tracer_spec {FS} `{FileSystem FS} name l (s : tstate FS) :
  let path := debugfileprefix s +:+ "available_tracers" in
  debugfileprefix s <> "" -> tracer_list s = None -> fs_open O_RDONLY path (fs s) = true ->
  fs_contents path (fs s) = available l -> l <> [] -> Forall (fun t => plain t = true /\ t <> "") l ->
  exists b s', valid_tracer "" name s = OK b s' /\
    (b = true <-> exists t rest, t ∈ l /\ name = t +:+ rest) /\
    forall name', valid_tracer "" name' s' = OK (existsb (fun t => strncmp_eq t name') l) s'.
Proof.
  intros path Hp Hn Ho Hc Hl Hplain. exists (existsb (fun t => strncmp_eq t name) l), (set_tracer_list l s).
  assert (Hpre : forall s1 : tstate FS, debugfileprefix s1 <> "" -> get_debugfileprefix s1 = OK (debugfileprefix s1) s1).
  { intros s1 H1. unfold get_debugfileprefix. now rewrite bool_decide_false. }
  split; [|split].
  - unfold valid_tracer, get_tracers, bind, get. rewrite Hpre by exact Hp. rewrite Hn. fold path. rewrite Ho. cbn [negb].
    rewrite Hc, append_nil_r, c_string_available, tokens_available by exact Hplain.
    rewrite bool_decide_false; [|destruct l as [|[|c t] l]; [contradiction | discriminate | discriminate]].
    unfold modify, ret. now destruct l.
  - rewrite existsb_exists. split.
    + intros (t & Hin & E). apply strncmp_eq_prefix in E as [rest E]. exists t, rest.
      split; [now apply list_elem_of_In | exact E].
    + intros (t & rest & Hin & E). exists t. split; [now apply list_elem_of_In|]. apply strncmp_eq_prefix. eauto.
  - intros name'. unfold valid_tracer, get_tracers, bind, get. rewrite (Hpre (set_tracer_list l s)) by exact Hp.
    cbn [set_tracer_list tracer_list]. unfold ret. now destruct l.
Qed.

Definition demo_tracers : tstate memfs :=
  TST {["/t/available_tracers" := "nop function "]} [] "" "/t/" None None None 0 None.

Lemma valid_tracer_spec_witness :
  exists b s', valid_tracer "" "nop" demo_tracers = OK b s' /\
    (b = true <-> exists t rest, t ∈ ["nop"; "function"] /\ "nop" = t +:+ rest) /\
    forall name', valid_tracer "" name' s' = OK (existsb (fun t => strncmp_eq t name') ["nop"; "function"]) s'.
Proof.
  apply (valid_tracer_spec "nop" ["nop"; "function"] demo_tracers); try reflexivity; try discriminate.
  repeat constructor; discriminate.
Defined.

(** A name that only begins with a configured tracer is accepted too. *)
Lemma valid_tracer_accepts_longer :
  match valid_tracer "" "nopqrs" demo_tracers with OK b _ => b | Fault _ => false end = true.
Proof. vm_compute. reflexivity. Qed.
