(* ===== verification/CycMain.v ===== *)
(** * cyclictest: main (posix/user/cyclictest.c)

    The threads [main] sets up and how it ends, with the blocks it allocates; the
    check of the clock's resolution; [check_timer], and [check_privs] of rt-utils.c. *)

From stdpp Require Import base tactics numbers list strings.
From S2P Require Import Prelude CycTime CycOptions CycThread.

Local Open Scope cmonad_scope.

(** ** The state *)

(** The tables of the threads (an entry is NULL until its block is allocated), the
    blocks allocated and not freed, and the globals. *)
Record mstate := MST {
  parameters : list (option thread_param);
  statistics : list (option thread_stat);
  blocks : Z;
  mg : globals }.

(** [fatal]; a NULL pointer followed; an entry outside [clocksources]. *)
Inductive main_fault := MFatal | MNull | MClock.

Definition mm (A : Type) : Type := M mstate main_fault A.

Definition add_blocks (d : Z) : mm unit :=
  modify (fun m => MST (parameters m) (statistics m) (blocks m + d) (mg m)).

(** [threadalloc]: without NUMA, [malloc]; its result is given. *)
Definition threadalloc (ok : bool) : mm bool := (if ok then add_blocks 1 else ret tt) ;; ret ok.
Definition threadfree : mm unit := add_blocks (-1).

(** The allocations of one thread. *)
Record allocs := ALLOCS { a_par : bool; a_stat : bool; a_hist : bool; a_outliers : bool; a_values : bool }.

Definition put_par (i : nat) (p : thread_param) : mm unit :=
  modify (fun m => MST (<[i := Some p]> (parameters m)) (statistics m) (blocks m) (mg m)).
Definition put_stat (i : nat) (s : thread_stat) : mm unit :=
  modify (fun m => MST (parameters m) (<[i := Some s]> (statistics m)) (blocks m) (mg m)).
Definition put_globals (g : globals) : mm unit :=
  modify (fun m => MST (parameters m) (statistics m) (blocks m) g).

(** ** Setting up the threads *)

(** A cleared parameter block. *)
Definition no_par : thread_param := PAR 0 0 0 0 0 0 0 0 0 0.

(** A statistics block cleared by [memset], with its arrays: [threadstarted] is 0
    until the thread is about to be created. *)
Definition cleared_stat (hist vals : list Z) : thread_stat := STAT 0 0 0 0 0 vals hist hist 0 0 0 0 0 0 0 0.

(** The policy of a thread. *)
Definition thread_policy (g : globals) : Z :=
  if negb (gi g priority =? 0) && ((gi g policy =? SCHED_FIFO) || (gi g policy =? SCHED_RR))
  then gi g policy else SCHED_OTHER.

(** Its processor. *)
Definition thread_cpu (g : globals) (max_cpus : Z) (i : nat) : Z :=
  if gi g setaffinity =? AFFINITY_SPECIFIED then gi g affinity
  else if gi g setaffinity =? AFFINITY_USEALL then Z.rem (Z.of_nat i) max_cpus
  else -1.

(** The parameters of thread [i]. *)
Definition thread_params (g : globals) (max_cpus clk : Z) (i : nat) : thread_param :=
  PAR (gi g priority) (thread_policy g) (gi g use_nanosleep + gi g use_system) (gi g timermode) clk
    (u32 (gi g max_cycles)) (if gi g verbose =? 0 then 0 else VALBUF_SIZE - 1) (u32 (gi g interval))
    (thread_cpu g max_cpus i) (-1).

(** What the set-up of a thread changes in the globals. *)
Definition next_globals (g : globals) : globals :=
  let g := if thread_policy g =? SCHED_OTHER then set force_sched_other 1 g else g in
  let g := if gi g priospread =? 0 then g else set priority (i32 (gi g priority - 1)) g in
  if gi g histogram =? 0 then set interval (i32 (gi g interval + gi g distance)) g else g.

(** One turn of the loop of [main]; [false] is [goto outall]. *)
Definition setup_thread (max_cpus : Z) (i : nat) (a : allocs) : mm bool :=
  let! m := get in
  let g := mg m in
  let! ok := threadalloc (a_par a) in
  if negb ok then fault MFatal
  else
    put_par i no_par ;;
    let! ok := threadalloc (a_stat a) in
    if negb ok then fault MFatal
    else
      put_stat i (cleared_stat [] []) ;;
      let! okh := (if gi g histogram =? 0 then ret true
                   else let! h := threadalloc (a_hist a) in
                        let! o := threadalloc (a_outliers a) in ret (h && o)) in
      if negb okh then fault MFatal
      else
        let hist := if gi g histogram =? 0 then [] else replicate (Z.to_nat (gi g histogram)) 0 in
        put_stat i (cleared_stat hist []) ;;
        let! okv := (if gi g verbose =? 0 then ret true else threadalloc (a_values a)) in
        if negb okv then ret false
        else
          match clocksources !! Z.to_nat (gi g clocksel) with
          | None => fault MClock
          | Some clk =>
              put_par i (thread_params g max_cpus clk i) ;;
              put_stat i (new_stat g) ;;
              put_globals (next_globals g) ;;
              ret true
          end.

Fixpoint setup_threads (max_cpus : Z) (i : nat) (l : list allocs) : mm bool :=
  match l with
  | [] => ret true
  | a :: l' =>
      let! ok := setup_thread max_cpus i a in
      if ok then setup_threads max_cpus (S i) l' else ret false
  end.

(** The tables of [num_threads] pointers. *)
Definition main_start (n : nat) (g : globals) : mstate :=
  MST (replicate n None) (replicate n None) 2 g.

(** ** The end *)

(** The loop of [outall] that stops the threads and frees their values: it follows
    every entry of [statistics]. *)
Fixpoint stop_threads (l : list (option thread_stat)) : mm unit :=
  match l with
  | [] => ret tt
  | None :: _ => fault MNull
  | Some s :: l' => (match values s with [] => ret tt | _ => threadfree end) ;; stop_threads l'
  end.

(** Freeing the histograms. *)
Fixpoint free_hists (l : list (option thread_stat)) : mm unit :=
  match l with
  | [] => ret tt
  | None :: _ => fault MNull
  | Some s :: l' => threadfree ;; threadfree ;; free_hists l'
  end.

(** Freeing the blocks of a table; NULL entries are skipped. *)
Fixpoint free_table {A} (l : list (option A)) : mm unit :=
  match l with
  | [] => ret tt
  | None :: l' => free_table l'
  | Some _ :: l' => threadfree ;; free_table l'
  end.

(** From [outall] to [out]. *)
Definition main_outall : mm unit :=
  let! m := get in
  stop_threads (statistics m) ;;
  (if gi (mg m) histogram =? 0 then ret tt else free_hists (statistics m)) ;;
  free_table (statistics m) ;;
  free_table (parameters m).

(** ** The resolution of the clock *)

(** How many times to read the clock, from the time [diff] (ns) of 1000 readings;
    [None] is a division by zero. *)
Definition resolution_times (diff : Z) : option Z :=
  let check times := if (times <=? 0) || (times >? 100000) then 100000 else times in
  if diff =? 0 then Some (check (-1))
  else
    let call_time := i32 (Z.quot diff 1000) in
    if call_time =? 0 then None
    else
      let times := Z.quot (Z.quot NSEC_PER_SEC call_time) 1000 in
      Some (check (if times <? 1000 then 1000 else times)).

(** The smallest difference between two readings that is not zero, an unsigned
    number; [UINT64_MAX] when there is none. *)
Fixpoint min_non_zero_diff (prev : timespec) (m : Z) (time : list timespec) : Z :=
  match time with
  | [] => m
  | t :: time' =>
      let diff := calcdiff_ns t prev in
      min_non_zero_diff t (if negb (diff =? 0) && (u64 diff <? m) then u64 diff else m) time'
  end.

Definition UINT64_MAX : Z := 18446744073709551615.

(** Whether the measured resolution is reported. *)
Definition resolution_warning (g : globals) (measured reported : Z) : bool :=
  negb (gi g verbose =? 0) || negb (measured =? 0) && (measured >? reported).

(** ** Small checks *)

(** [check_timer]: [clock_getres] gives an error, or a resolution. *)
Definition check_timer (res : option timespec) : bool :=
  match res with
  | None => true
  | Some ts => negb (tv_sec ts =? 0) || negb (tv_nsec ts =? 1)
  end.

(** [check_privs]: the policy of the process, and the results of
    [sched_getparam], of trying SCHED_FIFO and of changing back. *)
Definition check_privs (pol getparam tryfifo back : Z) : Z :=
  if (pol =? SCHED_FIFO) || (pol =? SCHED_RR) then 0
  else if negb (getparam =? 0) then 1
  else if negb (tryfifo =? 0) then 1
  else back.

(** ** Facts *)

Definition all_ok : allocs := ALLOCS true true true true true.

(** The blocks of one thread. *)
Definition thread_blocks (g : globals) : Z :=
  2 + (if gi g histogram =? 0 then 0 else 2) + (if gi g verbose =? 0 then 0 else 1).

Lemma setup_thread_ok max_cpus i clk m :
  clocksources !! Z.to_nat (gi (mg m) clocksel) = Some clk ->
  setup_thread max_cpus i all_ok m
    = OK true (MST (<[i := Some (thread_params (mg m) max_cpus clk i)]> (parameters m))
                   (<[i := Some (new_stat (mg m))]> (statistics m))
                   (blocks m + thread_blocks (mg m)) (next_globals (mg m))).
Proof.
  intros Hclk. destruct m as [ps ss b g]. cbn [mg parameters statistics blocks] in *.
  unfold setup_thread, threadalloc, add_blocks, put_par, put_stat, put_globals, thread_blocks, bind, get, modify, ret.
  cbn [mg parameters statistics blocks all_ok a_par a_stat a_hist a_outliers a_values negb].
  destruct (gi g histogram =? 0), (gi g verbose =? 0); rewrite Hclk;
    cbn [mg parameters statistics blocks negb andb]; rewrite !list_insert_insert_eq; do 2 f_equal; lia.
Qed.

Lemma next_globals_same g v :
  v <> force_sched_other -> v <> priority -> v <> interval -> gi (next_globals g) v = gi g v.
Proof.
  intros H1 H2 H3. unfold next_globals. cbv zeta.
  repeat split_if; globals_simpl; rewrite ?decide_False by assumption; reflexivity.
Qed.

(** The variables the set-up changes, in the range of [int]. *)
Lemma next_globals_changes g :
  - 2 ^ 31 < gi g priority < 2 ^ 31 -> - 2 ^ 31 <= gi g interval + gi g distance < 2 ^ 31 ->
  gi (next_globals g) priority = gi g priority - (if gi g priospread =? 0 then 0 else 1) /\
  gi (next_globals g) interval = gi g interval + (if gi g histogram =? 0 then gi g distance else 0).
Proof.
  intros Hp Hi. unfold next_globals. cbv zeta.
  set (g1 := if thread_policy g =? SCHED_OTHER then _ else g).
  assert (E : forall v, v <> force_sched_other -> gi g1 v = gi g v).
  { intros v Hv. unfold g1. split_if; globals_simpl; now rewrite ?decide_False by assumption. }
  clearbody g1. rewrite <- !E in * by discriminate.
  destruct (gi g1 priospread =? 0) eqn:E1; globals_simpl; destruct (gi g1 histogram =? 0) eqn:E2; globals_simpl;
    rewrite ?i32_id by lia; lia.
Qed.

(** The globals after the set-up of [k] threads. *)
Fixpoint after_threads (k : nat) (g : globals) : globals :=
  match k with O => g | S k' => after_threads k' (next_globals g) end.

Lemma after_threads_eq k : forall g,
  - 2 ^ 31 + Z.of_nat k < gi g priority < 2 ^ 31 ->
  0 <= gi g distance -> 0 <= gi g interval -> gi g interval + Z.of_nat k * gi g distance < 2 ^ 31 ->
  let g' := after_threads k g in
  gi g' priority = gi g priority - (if gi g priospread =? 0 then 0 else Z.of_nat k) /\
  gi g' interval = gi g interval + (if gi g histogram =? 0 then Z.of_nat k * gi g distance else 0) /\
  forall v, v <> force_sched_other -> v <> priority -> v <> interval -> gi g' v = gi g v.
Proof.
  induction k as [|k IH]; intros g Hp Hd Hi Hb; cbn [after_threads].
  - cbn zeta. repeat split; [destruct (_ =? 0) | destruct (_ =? 0)]; lia.
  - destruct (next_globals_changes g) as [E1 E2]; [lia | nia |].
    pose proof (next_globals_same g) as Es.
    destruct (IH (next_globals g)) as (I1 & I2 & I3).
    + rewrite E1. destruct (gi g priospread =? 0) eqn:E0; lia.
    + now rewrite Es by discriminate.
    + rewrite E2. destruct (gi g histogram =? 0); lia.
    + rewrite E2, Es by discriminate. destruct (gi g histogram =? 0); nia.
    + cbv zeta in *. rewrite I1, I2, E1, E2, !Es by discriminate.
      repeat split; [destruct (gi g priospread =? 0); lia | destruct (gi g histogram =? 0); lia|].
      intros v H1 H2 H3. rewrite I3 by assumption. now apply Es.
Qed.

(** The tables after the set-up of all threads. *)
Fixpoint par_list (max_cpus clk : Z) (i n : nat) (g : globals) : list (option thread_param) :=
  match n with
  | O => []
  | S n' => Some (thread_params g max_cpus clk i) :: par_list max_cpus clk (S i) n' (next_globals g)
  end.

Lemma par_list_lookup max_cpus clk n : forall i g k, (k < n)%nat ->
  par_list max_cpus clk i n g !! k = Some (Some (thread_params (after_threads k g) max_cpus clk (i + k))).
Proof.
  induction n as [|n IH]; intros i g [|k] Hk; try lia; cbn [par_list after_threads].
  - now rewrite Nat.add_0_r.
  - cbn. rewrite IH by lia. now rewrite Nat.add_succ_r.
Qed.

Lemma new_stat_next g : new_stat (next_globals g) = new_stat g.
Proof. unfold new_stat. now rewrite !next_globals_same by discriminate. Qed.

Lemma insert_middle {A} i (x : A) p y r : i = length p -> <[i := x]> (p ++ y :: r) = p ++ x :: r.
Proof. intros ->. rewrite insert_app_r_alt, Nat.sub_diag by lia. reflexivity. Qed.

Lemma setup_threads_ok max_cpus clk n : forall pre pre' b g,
  length pre = length pre' -> clocksources !! Z.to_nat (gi g clocksel) = Some clk ->
  exists g', setup_threads max_cpus (length pre) (replicate n all_ok)
    (MST (pre ++ replicate n None) (pre' ++ replicate n None) b g)
  = OK true (MST (pre ++ par_list max_cpus clk (length pre) n g) (pre' ++ replicate n (Some (new_stat g)))
       (b + Z.of_nat n * thread_blocks g) g') /\
  gi g' histogram = gi g histogram.
Proof.
  induction n as [|n IH]; intros pre pre' b g Hl Hclk; cbn [replicate setup_threads par_list].
  - exists g. rewrite Z.add_0_r. auto.
  - unfold bind at 1. rewrite (setup_thread_ok _ _ clk) by exact Hclk. cbn [parameters statistics blocks mg].
    rewrite (insert_middle _ _ pre _ _ eq_refl), (insert_middle _ _ pre' _ _ Hl).
    rewrite (cons_middle _ pre), (cons_middle _ pre'), !app_assoc.
    destruct (IH (pre ++ [Some (thread_params g max_cpus clk (length pre))]) (pre' ++ [Some (new_stat g)])
                (b + thread_blocks g) (next_globals g)) as (g' & E & Eh).
    + rewrite !length_app. cbn [length]. lia.
    + now rewrite next_globals_same by discriminate.
    + exists g'. rewrite length_app in E. cbn [length] in E. rewrite Nat.add_1_r in E. rewrite E.
      rewrite new_stat_next. rewrite next_globals_same in Eh by discriminate. split; [|exact Eh].
      do 2 f_equal; try (now rewrite <- !app_assoc).
      unfold thread_blocks. rewrite !next_globals_same by discriminate. lia.
Qed.

(** Freeing a table. *)
Lemma free_table_ok {A} (l : list A) : forall m,
  free_table (Some <$> l) m = OK tt (MST (parameters m) (statistics m) (blocks m - Z.of_nat (length l)) (mg m)).
Proof.
  induction l as [|x l IH]; intros [ps ss b g]; cbn [fmap list_fmap free_table length].
  - cbn. now rewrite Z.sub_0_r.
  - unfold bind, threadfree, add_blocks, modify. rewrite IH. cbn [parameters statistics blocks mg]. do 2 f_equal. lia.
Qed.

Lemma free_hists_ok l : forall m,
  free_hists (Some <$> l) m = OK tt (MST (parameters m) (statistics m) (blocks m - 2 * Z.of_nat (length l)) (mg m)).
Proof.
  induction l as [|x l IH]; intros [ps ss b g]; cbn [fmap list_fmap free_hists length].
  - cbn. now rewrite Z.sub_0_r.
  - unfold bind, threadfree, add_blocks, modify. rewrite IH. cbn [parameters statistics blocks mg]. do 2 f_equal. lia.
Qed.

Lemma stop_threads_ok v l : Forall (fun s => values s = [] <-> v = true) l -> forall m,
  stop_threads (Some <$> l) m
    = OK tt (MST (parameters m) (statistics m) (blocks m - (if v then 0 else Z.of_nat (length l))) (mg m)).
Proof.
  intros Hl. induction Hl as [|s l Hs Hl IH]; intros [ps ss b g]; cbn [fmap list_fmap stop_threads length].
  - cbn. destruct v; now rewrite Z.sub_0_r.
  - unfold bind, threadfree, add_blocks, modify, ret. destruct v; destruct (values s) eqn:E.
    + now rewrite IH.
    + destruct Hs as [_ Hs]. now discriminate Hs.
    + destruct Hs as [Hs _]. now discriminate Hs.
    + rewrite IH. cbn [parameters statistics blocks mg]. do 2 f_equal. lia.
Qed.

(** Freeing everything: only the two tables are left. *)
Lemma main_outall_ok ps ss g b :
  length ps = length ss ->
  Forall (fun s => values s = [] <-> (gi g verbose =? 0) = true) ss ->
  exists m', main_outall (MST (Some <$> ps) (Some <$> ss) (b + Z.of_nat (length ss) * thread_blocks g) g)
             = OK tt m' /\ blocks m' = b.
Proof.
  intros Hl Hv. unfold main_outall, bind, get. cbn [statistics parameters mg].
  rewrite (stop_threads_ok _ _ Hv). cbn [statistics parameters mg blocks]. unfold thread_blocks.
  destruct (gi g histogram =? 0); [|rewrite free_hists_ok]; cbn [ret statistics parameters mg blocks];
    rewrite !free_table_ok; cbn [statistics parameters mg blocks];
    (eexists; split; [reflexivity|]); cbn [blocks]; rewrite Hl; destruct (gi g verbose =? 0); lia.
Qed.

Lemma par_list_some max_cpus clk n : forall i g, exists l, par_list max_cpus clk i n g = Some <$> l /\ length l = n.
Proof.
  induction n as [|n IH]; intros i g; [now exists []|].
  destruct (IH (S i) (next_globals g)) as (l & E & El).
  exists (thread_params g max_cpus clk i :: l). cbn. rewrite E. split; [reflexivity | now f_equal].
Qed.

(** [main] starts its threads as the options say and gives back what it took:
    when the allocations succeed, thread [i] gets the priority less [i] when the
    priorities are spread, the interval and [i] distances when there is no
    histogram, and the buffers the options ask for; and from whatever the threads
    make of their statistics, the end of [main] follows no NULL pointer and frees
    every block but the two tables. *)
Theorem main_threads n max_cpus g :
  0 <= gi g clocksel <= 1 -> Z.of_nat n < 2 ^ 31 -> 0 <= gi g priority < 2 ^ 31 ->
  0 <= gi g distance -> 0 <= gi g interval -> gi g interval + Z.of_nat n * gi g distance < 2 ^ 31 ->
  exists m, setup_threads max_cpus 0 (replicate n all_ok) (main_start n g) = OK true m /\
    statistics m = replicate n (Some (new_stat g)) /\
    (forall i, (i < n)%nat -> exists p, parameters m !! i = Some (Some p) /\
       prio p = gi g priority - (if gi g priospread =? 0 then 0 else Z.of_nat i) /\
       p_interval p = gi g interval + (if gi g histogram =? 0 then Z.of_nat i * gi g distance else 0) /\
       p_policy p = (if (prio p =? 0) || negb (bool_decide (realtime (gi g policy)))
                     then SCHED_OTHER else gi g policy) /\
       bufmsk p = (if gi g verbose =? 0 then 0 else VALBUF_SIZE - 1) /\
       clock p ∈ clocksources /\ cpu p = thread_cpu g max_cpus i) /\
    (forall ss, length ss = n -> Forall (fun s => values s = [] <-> (gi g verbose =? 0) = true) ss ->
       exists m', main_outall (MST (parameters m) (Some <$> ss) (blocks m) g) = OK tt m' /\ blocks m' = 2).
Proof.
  intros Hc Hn Hp Hd Hi Hb.
  destruct (lookup_lt_is_Some_2 clocksources (Z.to_nat (gi g clocksel))) as [clk Hclk]; [cbn; lia|].
  destruct (setup_threads_ok max_cpus clk n [] [] 2 g eq_refl Hclk) as (g' & E & _). cbn [app length] in E.
  eexists. split; [exact E|]. split; [reflexivity|]. cbn [parameters statistics blocks]. split.
  - intros i Hin. rewrite par_list_lookup by exact Hin. eexists. split; [reflexivity|].
    destruct (after_threads_eq i g) as (A1 & A2 & A3); [lia | lia | lia | nia |]. cbv zeta in *.
    cbn [thread_params prio p_interval p_policy bufmsk clock cpu Nat.add].
    unfold thread_policy, thread_cpu. rewrite A1, A2, !A3 by discriminate.
    split; [reflexivity|]. split; [apply wrap_u_id; destruct (gi g histogram =? 0); nia|].
    split; [|repeat split; now apply (list_elem_of_lookup_2 _ (Z.to_nat (gi g clocksel)))].
    destruct (gi g priority - _ =? 0); cbn [negb andb orb]; [reflexivity|].
    case_bool_decide as Hr; cbn [negb]; unfold realtime in Hr.
    + destruct Hr as [-> | ->]; reflexivity.
    + replace (gi g policy =? SCHED_FIFO) with false by lia. now replace (gi g policy =? SCHED_RR) with false by lia.
  - intros ss Hl Hv. destruct (par_list_some max_cpus clk n 0 g) as (l & -> & El).
    rewrite <- Hl. apply main_outall_ok; [congruence | exact Hv].
Qed.

(** Three threads at priorities 80, 79 and 78. *)
Definition spread_globals : globals :=
  set priospread 1 (set priority 80 (set policy SCHED_FIFO (set distance 500 globals0))).

Lemma main_threads_witness :
  exists m, setup_threads 4 0 (replicate 3 all_ok) (main_start 3 spread_globals) = OK true m /\
    exists p, parameters m !! 2%nat = Some (Some p) /\ prio p = 78 /\ p_interval p = 2000.
Proof.
  destruct (main_threads 3 4 spread_globals) as (m & E & _ & Hp & _);
    try (split; vm_compute; congruence); try (vm_compute; congruence).
  exists m. split; [exact E|]. destruct (Hp 2%nat ltac:(lia)) as (p & H1 & H2 & H3 & _).
  exists p. auto.
Defined.

(** When the buffer of values of one thread cannot be allocated, [main] goes to its
    end and follows the NULL entries of the threads it has not reached. *)
Lemma main_values_failure :
  let g := set verbose 1 (set num_threads 2 globals0) in
  match setup_threads 4 0 [ALLOCS true true true true false; all_ok] (main_start 2 g) with
  | OK false m => main_outall m = Fault MNull
  | _ => False
  end.
Proof. vm_compute. reflexivity. Qed.

(** Clocks that give the same date for less than a microsecond per 1000 readings
    make the check of the resolution divide by zero. *)
Lemma resolution_division_by_zero d : 0 < d < 1000 -> resolution_times d = None.
Proof.
  intros Hd. unfold resolution_times. replace (d =? 0) with false by lia.
  rewrite Z.quot_small by lia. reflexivity.
Qed.

(** Otherwise the number of readings is in range. *)
Lemma resolution_times_range d t : resolution_times d = Some t -> 1000 <= t <= 100000.
Proof.
  unfold resolution_times. intros H. repeat split_if_in H; try discriminate; injection H as <-;
    repeat (destruct (_ || _) eqn:?); bool_to_prop; lia.
Qed.
