(* ===== verification/Latency.v ===== *)
(** * The latency monitor (user/benchrtdm/latency.c)

    The program measures the latency of a periodic task of its own, or starts the
    benchmark driver of [Timerbench] and displays what the driver measures.  This
    file has the globals, the command line, the measuring task [latency], the
    task [display], the reports on the histograms and [cleanup].  The conversions
    between time stamps and nanoseconds are services of RTAI: the interface
    [TscClock].  What the calls of the system return is an argument.  The text of
    the messages is left out; what the report lines show is kept. *)

From stdpp Require Import base tactics numbers list strings.
From Stdlib Require Import Ascii.
From Stdlib Require String.
From S2P Require Import Prelude CycTime Timerbench.
#[local] Open Scope cmonad_scope.

(** ** Services *)

(** [rt_timer_tsc2ns] and [rt_timer_ns2tsc] *)
Class TscClock := { rt_timer_tsc2ns : Z -> Z; rt_timer_ns2tsc : Z -> Z }.

(** What the program relies on: longer stays longer, and the sign is kept. *)
Class TscLaws `{TscClock} : Prop := {
  tsc2ns_mono : forall a b, a <= b -> rt_timer_tsc2ns a <= rt_timer_tsc2ns b;
  tsc2ns_odd : forall a, rt_timer_tsc2ns (- a) = - rt_timer_tsc2ns a
}.

(** ** Constants *)

Definition CONFIG_XENO_DEFAULT_PERIOD : Z := 100000.
Definition ONE_BILLION : Z := 1000000000.
Definition TEN_MILLION : Z := 10000000.
Definition WARMUP_TIME : Z := 1.
Definition HISTOGRAM_CELLS : Z := 300.
Definition USER_TASK : Z := 0.
Definition KERNEL_TASK : Z := 1.
Definition TIMER_HANDLER : Z := 2.
Definition T_LOPRIO : Z := 1.
Definition T_HIPRIO : Z := 99.
Definition ETIMEDOUT : Z := 110.
Definition EIDRM : Z := 43.

(** ** Globals *)

(** What the command line sets. *)
Record lopts := LOPTS {
  period_ns : Z; test_duration : Z; data_lines : Z; quiet : bool; benchdev_no : Z;
  freeze_max : bool; priority : Z; stop_upon_switch : bool; test_mode : Z;
  histogram_size : Z; bucketsize : Z;
  do_gnuplot : option string; do_histogram : bool; do_stats : bool; cpu : Z;
  alarmed : option Z  (* the argument of [alarm] *)
}.

Definition lopts0 : lopts :=
  LOPTS 0 0 21 false 0 false T_HIPRIO false USER_TASK HISTOGRAM_CELLS 1000 None false false 0 None.

Definition need_histo (o : lopts) : bool :=
  do_histogram o || do_stats o || match do_gnuplot o with Some _ => true | None => false end.

(** What the measuring task publishes. *)
Record results := RES {
  minjitter : Z; maxjitter : Z; avgjitter : Z;
  gminjitter : Z; gmaxjitter : Z; goverrun : Z; gavgjitter : Z;
  max_relaxed : Z; test_loops : Z
}.

(** The other globals, and the variables of [latency] that live from one
    measuring period to the next.  A histogram is [None] while its pointer is
    NULL; [l_sem] counts the units of [display_sem]. *)
Record lat := LAT {
  l_res : results;
  histogram_min : option (list Z); histogram_max : option (list Z); histogram_avg : option (list Z);
  l_sem : Z; finished : bool;
  expected_tsc : Z; old_relaxed : Z; warmup : bool
}.

Definition results0 : results := RES 0 0 0 TEN_MILLION (- TEN_MILLION) 0 0 0 0.

Inductive lat_fault :=
| L_DIVIDE     (* division by zero *)
| L_HISTOGRAM  (* access outside a histogram, or through NULL *)
| L_EXIT.      (* exit(EXIT_FAILURE) *)

Abbreviation lm := (M lat lat_fault).

Definition with_results (f : results -> results) (s : lat) : lat :=
  LAT (f (l_res s)) (histogram_min s) (histogram_max s) (histogram_avg s)
      (l_sem s) (finished s) (expected_tsc s) (old_relaxed s) (warmup s).
Definition with_hists (hmin hmax havg : option (list Z)) (s : lat) : lat :=
  LAT (l_res s) hmin hmax havg (l_sem s) (finished s) (expected_tsc s) (old_relaxed s) (warmup s).
Definition with_locals (e r : Z) (w : bool) (s : lat) : lat :=
  LAT (l_res s) (histogram_min s) (histogram_max s) (histogram_avg s) (l_sem s) (finished s) e r w.
Definition with_sem (n : Z) (s : lat) : lat :=
  LAT (l_res s) (histogram_min s) (histogram_max s) (histogram_avg s)
      n (finished s) (expected_tsc s) (old_relaxed s) (warmup s).
Definition set_gmax (x : Z) (r : results) : results :=
  RES (minjitter r) (maxjitter r) (avgjitter r) (gminjitter r) x (goverrun r) (gavgjitter r)
      (max_relaxed r) (test_loops r).
Definition set_relaxed (x : Z) (r : results) : results :=
  RES (minjitter r) (maxjitter r) (avgjitter r) (gminjitter r) (gmaxjitter r) (goverrun r)
      (gavgjitter r) x (test_loops r).
Definition set_loops (x : Z) (r : results) : results :=
  RES (minjitter r) (maxjitter r) (avgjitter r) (gminjitter r) (gmaxjitter r) (goverrun r)
      (gavgjitter r) (max_relaxed r) x.

Section Monitor.
Context `{TscClock}.

(** ** Histograms *)

(** The index [add_histogram] computes. *)
Definition cell_of (o : lopts) (addval : Z) : Z :=
  let inabs :=
    i32 (Z.quot (rt_timer_tsc2ns (if 0 <=? addval then addval else i32 (- addval))) (bucketsize o)) in
  if inabs <? histogram_size o then inabs else histogram_size o - 1.

(** [add_histogram] *)
Definition lat_add_histogram (o : lopts) (histogram : option (list Z)) (addval : Z)
    : list Z + lat_fault :=
  if bucketsize o =? 0 then inr L_DIVIDE
  else
    let k := cell_of o addval in
    match histogram with
    | None => inr L_HISTOGRAM
    | Some h =>
        if k <? 0 then inr L_HISTOGRAM
        else match h !! Z.to_nat k with
             | Some n => inl (<[Z.to_nat k := i32 (n + 1)]> h)
             | None => inr L_HISTOGRAM
             end
    end.

Definition add_avg (o : lopts) (dt : Z) : lm unit := fun s =>
  match lat_add_histogram o (histogram_avg s) dt with
  | inl h => OK tt (with_hists (histogram_min s) (histogram_max s) (Some h) s)
  | inr f => Fault f
  end.
Definition add_max (o : lopts) (dt : Z) : lm unit := fun s =>
  match lat_add_histogram o (histogram_max s) dt with
  | inl h => OK tt (with_hists (histogram_min s) (Some h) (histogram_avg s) s)
  | inr f => Fault f
  end.
Definition add_min (o : lopts) (dt : Z) : lm unit := fun s =>
  match lat_add_histogram o (histogram_min s) dt with
  | inl h => OK tt (with_hists (Some h) (histogram_max s) (histogram_avg s) s)
  | inr f => Fault f
  end.

(** ** The measuring task *)

(** One wake-up of the task: the result of [rt_task_wait_period] and the
    overruns it reports, the time stamp read after it, and [sampling_relaxed]. *)
Record sample := SAMPLE { s_err : Z; s_ov : Z; s_tsc : Z; s_relaxed : Z }.

(** The variables of one measuring period. *)
Record inner := INNER { minj : Z; maxj : Z; sumj : Z; overrun : Z }.

Definition inner0 : inner := INNER TEN_MILLION (- TEN_MILLION) 0 0.

Definition nsamples (o : lopts) : Z := i32 (Z.quot (Z.quot ONE_BILLION (period_ns o)) 1000).
Definition period_tsc (o : lopts) : Z := rt_timer_ns2tsc (period_ns o).
Definition fault_threshold : Z := rt_timer_ns2tsc CONFIG_XENO_DEFAULT_PERIOD.

(** The latency of a wake-up that was expected at [e]. *)
Definition latency_of (e : Z) (w : sample) : Z := i32 (s_tsc w - e).

(** The statistics of the period: largest, smallest, sum. *)
Definition account (dt : Z) (i : inner) : inner :=
  INNER (if dt <? minj i then dt else minj i) (if maxj i <? dt then dt else maxj i)
        (i64 (sumj i + dt)) (overrun i).

(** [max_relaxed] at a new maximum. *)
Definition note_relaxed (w : sample) (dt : Z) (i : inner) : lm unit :=
  modify (fun s =>
    if (maxj i <? dt) && negb (s_relaxed w =? old_relaxed s) && (fault_threshold <? dt)
    then with_results (fun r => set_relaxed (u32 (max_relaxed r + (s_relaxed w - old_relaxed s))) r) s
    else s).

(** One turn of the loop over the samples. *)
Definition sample_turn (o : lopts) (w : sample) (i : inner) : lm inner :=
  modify (fun s => with_locals (i64 (expected_tsc s + period_tsc o)) (old_relaxed s) (warmup s) s) ;;
  let! s := get in
  let dt := latency_of (expected_tsc s) w in
  note_relaxed w dt i ;;
  modify (fun s => with_locals (expected_tsc s) (s_relaxed w) (warmup s) s) ;;
  let i1 := account dt i in
  let! i2 :=
    (if s_err w =? 0 then ret i1
     else if negb (s_err w =? - ETIMEDOUT) then fault L_EXIT
     else
       modify (fun s => with_locals (i64 (expected_tsc s + period_tsc o * s_ov w))
                                    (old_relaxed s) (warmup s) s) ;;
       ret (INNER (minj i1) (maxj i1) (sumj i1) (i32 (overrun i1 + s_ov w)))) in
  let! s := get in
  (if freeze_max o && (gmaxjitter (l_res s) <? dt) && negb (finished s || warmup s)
   then modify (with_results (set_gmax dt)) else ret tt) ;;
  (if negb (finished s || warmup s) && need_histo o then add_avg o dt else ret tt) ;;
  ret i2.

Fixpoint sample_loop (o : lopts) (ws : list sample) (i : inner) : lm inner :=
  match ws with
  | [] => ret i
  | w :: ws' => let! i' := sample_turn o w i in sample_loop o ws' i'
  end.

(** The results of a measuring period that is not a warm-up. *)
Definition publish (i : inner) (avg : Z) (r : results) : results :=
  RES (minj i) (maxj i) avg
      (if minj i <? gminjitter r then minj i else gminjitter r)
      (if gmaxjitter r <? maxj i then maxj i else gmaxjitter r)
      (i32 (goverrun r + overrun i)) (i64 (gavgjitter r + avg))
      (max_relaxed r) (test_loops r).

Definition close_measure (o : lopts) (i : inner) : lm unit :=
  let! s := get in
  (if negb (finished s) && need_histo o then add_max o (maxj i) ;; add_min o (minj i) else ret tt) ;;
  if nsamples o =? 0 then fault L_DIVIDE
  else
    modify (with_results (publish i (i32 (Z.quot (sumj i) (nsamples o))))) ;;
    modify (fun s => with_sem (l_sem s + 1) s).

(** One turn of the [for(;;)] of [latency]; the [k]-th wake-up of the period is
    [wakes k]. *)
Definition latency_turn (o : lopts) (wakes : nat -> sample) : lm unit :=
  modify (with_results (fun r => set_loops (i32 (test_loops r + 1)) r)) ;;
  let! i := sample_loop o (map wakes (seq 0 (Z.to_nat (nsamples o)))) inner0 in
  let! s := get in
  (if negb (warmup s) then close_measure o i else ret tt) ;;
  modify (fun s =>
    if warmup s && (test_loops (l_res s) =? WARMUP_TIME)
    then with_locals (expected_tsc s) (old_relaxed s) false (with_results (set_loops 0) s)
    else s).

(** The turns of [latency], one measuring period each. *)
Fixpoint latency_turns (o : lopts) (periods : list (nat -> sample)) : lm unit :=
  match periods with
  | [] => ret tt
  | p :: ps => latency_turn o p ;; latency_turns o ps
  end.

(** The start of [latency]: the results of [rt_timer_inquire] and of
    [rt_task_set_periodic], and the time stamp of the former.  It returns false
    when the task ends. *)
Definition latency_start (o : lopts) (inquire_err tsc periodic_err : Z) : lm bool :=
  if negb (inquire_err =? 0) then ret false
  else if period_ns o =? 0 then fault L_DIVIDE
  else
    modify (fun s => with_locals (i64 (tsc + rt_timer_ns2tsc 1000000)) 0 true s) ;;
    ret (periodic_err =? 0).

(** ** The display task *)

(** The line "RTD". *)
Record rtd := RTD {
  d_min : Z; d_avg : Z; d_max : Z; d_overrun : Z; d_relaxed : Z; d_gmin : Z; d_gmax : Z
}.

(** What one turn does: the task waits, it returns, or it prints a line,
    after a header or not ([None] when quiet), and [n] has a new value. *)
Inductive display_out := D_wait | D_return | D_line (n : Z) (out : option (bool * rtd)).

(** [data_lines && (n++ % data_lines) == 0] *)
Definition header_due (o : lopts) (n : Z) : Z * bool :=
  if data_lines o =? 0 then (n, false) else (i32 (n + 1), Z.rem n (data_lines o) =? 0).

Definition display_line (o : lopts) (n : Z) (r : rtd) : display_out :=
  if quiet o then D_line n None
  else let '(n', h) := header_due o n in D_line n' (Some (h, r)).

(** The line of the results in nanoseconds. *)
Definition user_line (r : results) : rtd :=
  RTD (i32 (rt_timer_tsc2ns (minjitter r))) (i32 (rt_timer_tsc2ns (avgjitter r)))
      (i32 (rt_timer_tsc2ns (maxjitter r))) (goverrun r) (max_relaxed r)
      (i32 (rt_timer_tsc2ns (gminjitter r))) (i32 (rt_timer_tsc2ns (gmaxjitter r))).

(** The start of [display], in mode [USER_TASK] and in the others: the result of
    [rt_sem_create], or of RTTST_RTIOC_TMBENCH_START with [bench_config].  It
    returns false when the task ends. *)
Definition display_start (o : lopts) (sem_err start_err : Z) : lm bool :=
  if test_mode o =? USER_TASK then
    if sem_err =? 0 then modify (with_sem 0) ;; ret true else ret false
  else ret (start_err =? 0).

(** One turn of [display] in mode [USER_TASK]; [sem_err] is the result of
    [rt_sem_p] once it does not wait. *)
Definition display_user_turn (o : lopts) (n sem_err : Z) : lm display_out :=
  let! s := get in
  if negb (sem_err =? 0) then ret D_return
  else if l_sem s <=? 0 then ret D_wait
  else
    modify (fun s => with_sem (l_sem s - 1) s) ;;
    ret (display_line o n (user_line (l_res s))).

(** The configuration [display] starts the driver with. *)
Definition bench_config (o : lopts) : rttst_tmbench_config :=
  TCFG (if test_mode o =? KERNEL_TASK then RTTST_TMBENCH_TASK else RTTST_TMBENCH_HANDLER)
       (priority o) (period_ns o) WARMUP_TIME
       (if need_histo o then histogram_size o else 0) (bucketsize o)
       (if freeze_max o then 1 else 0).

(** The line of the driver's results. *)
Definition bench_line (relaxed : Z) (last overall : rttst_bench_res) : rtd :=
  RTD (br_min last) (i32 (br_avg last)) (br_max last) (br_overruns overall) relaxed
      (br_min overall) (br_max overall).

Definition set_goverrun (x : Z) (r : results) : results :=
  RES (minjitter r) (maxjitter r) (avgjitter r) (gminjitter r) (gmaxjitter r) x
      (gavgjitter r) (max_relaxed r) (test_loops r).

(** One turn of [display] in the other modes: [answer] is what the request
    RTTST_RTIOC_INTERM_BENCH_RES gives. *)
Definition display_bench_turn (o : lopts) (n : Z)
    (answer : Z * option (rttst_bench_res * rttst_bench_res)) : lm display_out :=
  match answer with
  | (0, Some (last, overall)) =>
      modify (with_results (set_goverrun (br_overruns overall))) ;;
      let! s := get in
      ret (display_line o n (bench_line (max_relaxed (l_res s)) last overall))
  | _ => ret D_return
  end.

(** ** Reports on the histograms *)

(** [dump_histogram]: the lines "HSD" (cell and hits) when [do_histogram]; the
    average it returns is the quotient of the last two numbers: [n * hits] is
    computed in [long], the sum and the quotient in [double]. *)
Fixpoint dump_cells (n : Z) (cells : list Z) : list (Z * Z) * Z * Z :=
  match cells with
  | [] => ([], 0, 0)
  | hits :: cells' =>
      let '(lines, total, sum) := dump_cells (n + 1) cells' in
      if hits =? 0 then (lines, total, sum)
      else ((n, hits) :: lines, total + hits, i32 (n * hits) + sum)
  end.

Record histogram_dump := DUMP { hd_lines : list (Z * Z); hd_total : Z; hd_sum : Z }.

Definition dump_histogram (o : lopts) (histogram : list Z) : histogram_dump :=
  let '(lines, total, sum) := dump_cells 0 (take (Z.to_nat (histogram_size o)) histogram) in
  DUMP (if do_histogram o then lines else []) (i32 total) sum.

(** The two searches of [dump_histo_gnuplot]. *)
Fixpoint first_hit (n : Z) (cells : list Z) : Z :=
  match cells with
  | [] => n
  | hits :: cells' => if hits =? 0 then first_hit (n + 1) cells' else n
  end.

Fixpoint last_hit (n : nat) (histogram : list Z) : Z :=
  match n with
  | O => -1
  | S n' =>
      match histogram !! n' with
      | Some hits => if hits =? 0 then last_hit n' histogram else Z.of_nat n'
      | None => -1
      end
  end.

(** The lines between the borders: [n <= stop] is a comparison of [unsigned]. *)
Fixpoint gnuplot_lines (fuel : nat) (histogram : list Z) (n stop : Z) : option (list (Z * Z)) :=
  if u32 n <=? stop then
    match histogram !! Z.to_nat n with
    | None => None
    | Some hits =>
        match fuel with
        | O => None
        | S fuel' =>
            match gnuplot_lines fuel' histogram (n + 1) stop with
            | Some l => Some ((n, i32 (hits + 1)) :: l)
            | None => None
            end
        end
    end
  else Some [].

(** [dump_histo_gnuplot] once the file is open: the left border, the cells, the
    right border; [None] when it reads outside the histogram.  A cell is read on
    every turn, so the turns are at most the cells. *)
Definition dump_histo_gnuplot (o : lopts) (histogram : list Z) : option (Z * list (Z * Z) * Z) :=
  let start := first_hit 0 (take (Z.to_nat (histogram_size o)) histogram) in
  let stop := u32 (last_hit (Z.to_nat (histogram_size o)) histogram) in
  match gnuplot_lines (length histogram) histogram start stop with
  | Some l => Some (u32 start, l, u32 (stop + 1))
  | None => None
  end.

(** [dump_stats]: the number of hits it prints, and the hits and cells its
    variance is computed from. *)
Definition dump_stats (o : lopts) (histogram : list Z) : Z * list (Z * Z) :=
  let '(lines, total, _) := dump_cells 0 (take (Z.to_nat (histogram_size o)) histogram) in (i32 total, lines).

(** [dump_hist_stats]: the three dumps, their statistics, and the file of
    gnuplot when it can be opened. *)
Record hist_stats := HSTATS {
  hs_min : histogram_dump; hs_avg : histogram_dump; hs_max : histogram_dump;
  hs_totals : list Z; hs_plot : option (Z * list (Z * Z) * Z)
}.

Definition dump_hist_stats (o : lopts) (fopen_ok : bool) : lm hist_stats := fun s =>
  match histogram_min s, histogram_avg s, histogram_max s with
  | Some hmin, Some havg, Some hmax =>
      let totals := [fst (dump_stats o hmin); fst (dump_stats o havg); fst (dump_stats o hmax)] in
      let stats := HSTATS (dump_histogram o hmin) (dump_histogram o havg) (dump_histogram o hmax) totals in
      match do_gnuplot o, fopen_ok with
      | Some _, true =>
          match dump_histo_gnuplot o havg with
          | Some p => OK (stats (Some p)) s
          | None => Fault L_HISTOGRAM
          end
      | _, _ => OK (stats None) s
      end
  | _, _, _ => Fault L_HISTOGRAM
  end.

(** ** The end *)

(** The numbers of the line "RTS". *)
Record rts := RTS { t_gmin : Z; t_gavg : Z; t_gmax : Z; t_gover : Z; t_relaxed : Z }.

(** [cleanup] in mode [USER_TASK], up to the dump of the histograms. *)
Definition cleanup_user (r : results) : rts :=
  let loops := (if 1 <? test_loops r then test_loops r else 2) - 1 in
  RTS (i32 (rt_timer_tsc2ns (gminjitter r))) (i32 (rt_timer_tsc2ns (Z.quot (gavgjitter r) loops)))
      (i32 (rt_timer_tsc2ns (gmaxjitter r))) (goverrun r) (max_relaxed r).

(** In the other modes: [overall] is the block on the stack after the request
    RTTST_RTIOC_TMBENCH_STOP, whatever it returned. *)
Definition cleanup_bench (relaxed : Z) (overall : rttst_bench_res) : rts :=
  RTS (br_min overall) (i32 (br_avg overall)) (br_max overall) (br_overruns overall) relaxed.

(** The duration "RTS" shows, and [test_duration] after it. *)
Definition actual_duration (o : lopts) (test_start test_end : Z) : Z * Z :=
  let d := i32 (test_end - test_start - WARMUP_TIME) in
  (d, if test_duration o =? 0 then d else test_duration o).

(** [cleanup]: the line "RTS" and the reports, then the histograms are freed and
    the program ends.  [overall] and [bench_hists] are what the request
    RTTST_RTIOC_TMBENCH_STOP left on the stack and in the buffers. *)
Definition cleanup (o : lopts) (overall : rttst_bench_res) (bench_hists : option histograms)
    (fopen_ok : bool) : lm (rts * option hist_stats) :=
  let! s := get in
  (if test_mode o =? USER_TASK then ret tt
   else match bench_hists with
        | Some h => modify (with_hists (Some (h_min h)) (Some (h_max h)) (Some (h_avg h)))
        | None => ret tt
        end) ;;
  let line := if test_mode o =? USER_TASK then cleanup_user (l_res s)
              else cleanup_bench (max_relaxed (l_res s)) overall in
  let! stats := (if need_histo o then let! h := dump_hist_stats o fopen_ok in ret (Some h) else ret None) in
  modify (with_hists None None None) ;;
  ret (line, stats).

End Monitor.

(** ** Signals *)

Definition SIGDEBUG_UNDEFINED : Z := 0.
Definition SIGDEBUG_NOMLOCK : Z := 5.
Definition SIGDEBUG_WATCHDOG : Z := 6.

(** What [sigdebug] does: it ends the program with a message, it counts the
    switch, or it ends the program after a backtrace.  The message has the text
    of index [reason] of [reason_str]. *)
Inductive sigdebug_out := SD_exit (reason : Z) | SD_relaxed | SD_kill (reason : Z).

Definition reason_str_size : Z := 7.

Definition sigdebug (o : lopts) (sival_int : Z) : sigdebug_out :=
  let reason := if SIGDEBUG_WATCHDOG <? u32 sival_int then SIGDEBUG_UNDEFINED else u32 sival_int in
  if (reason =? SIGDEBUG_UNDEFINED) || (reason =? SIGDEBUG_NOMLOCK) || (reason =? SIGDEBUG_WATCHDOG)
  then SD_exit reason
  else if negb (stop_upon_switch o) then SD_relaxed
  else SD_kill reason.

(** ** main *)

(** [o] with other values of some fields. *)
Definition set_histo (g : option string) (h s : bool) (o : lopts) : lopts :=
  LOPTS (period_ns o) (test_duration o) (data_lines o) (quiet o) (benchdev_no o) (freeze_max o)
        (priority o) (stop_upon_switch o) (test_mode o) (histogram_size o) (bucketsize o) g h s
        (cpu o) (alarmed o).
Definition set_cells (size bucket : Z) (o : lopts) : lopts :=
  LOPTS (period_ns o) (test_duration o) (data_lines o) (quiet o) (benchdev_no o) (freeze_max o)
        (priority o) (stop_upon_switch o) (test_mode o) size bucket (do_gnuplot o) (do_histogram o)
        (do_stats o) (cpu o) (alarmed o).
Definition set_period (p : Z) (o : lopts) : lopts :=
  LOPTS p (test_duration o) (data_lines o) (quiet o) (benchdev_no o) (freeze_max o)
        (priority o) (stop_upon_switch o) (test_mode o) (histogram_size o) (bucketsize o)
        (do_gnuplot o) (do_histogram o) (do_stats o) (cpu o) (alarmed o).
Definition set_duration (d : Z) (a : option Z) (o : lopts) : lopts :=
  LOPTS (period_ns o) d (data_lines o) (quiet o) (benchdev_no o) (freeze_max o)
        (priority o) (stop_upon_switch o) (test_mode o) (histogram_size o) (bucketsize o)
        (do_gnuplot o) (do_histogram o) (do_stats o) (cpu o) a.
Definition set_display (lines : Z) (q : bool) (o : lopts) : lopts :=
  LOPTS (period_ns o) (test_duration o) lines q (benchdev_no o) (freeze_max o)
        (priority o) (stop_upon_switch o) (test_mode o) (histogram_size o) (bucketsize o)
        (do_gnuplot o) (do_histogram o) (do_stats o) (cpu o) (alarmed o).
Definition set_device (no mode : Z) (o : lopts) : lopts :=
  LOPTS (period_ns o) (test_duration o) (data_lines o) (quiet o) no (freeze_max o)
        (priority o) (stop_upon_switch o) mode (histogram_size o) (bucketsize o)
        (do_gnuplot o) (do_histogram o) (do_stats o) (cpu o) (alarmed o).
Definition set_task (f : bool) (p : Z) (b : bool) (c : Z) (o : lopts) : lopts :=
  LOPTS (period_ns o) (test_duration o) (data_lines o) (quiet o) (benchdev_no o) f
        p b (test_mode o) (histogram_size o) (bucketsize o)
        (do_gnuplot o) (do_histogram o) (do_stats o) c (alarmed o).

(** One option, as [getopt] returns it ([optarg] is empty for an option without
    argument); [None] is the usage message and [exit(2)].  [cpu] is the argument
    of [T_CPU]. *)
Definition lat_option (c : ascii) (optarg : string) (o : lopts) : option lopts :=
  match c with
  | "g" => Some (set_histo (Some optarg) (do_histogram o) (do_stats o) o)
  | "h" => Some (set_histo (do_gnuplot o) true (do_stats o) o)
  | "s" => Some (set_histo (do_gnuplot o) (do_histogram o) true o)
  | "H" => Some (set_cells (atoi optarg) (bucketsize o) o)
  | "B" => Some (set_cells (histogram_size o) (atoi optarg) o)
  | "p" => Some (set_period (atoi optarg * 1000) o)
  | "l" => Some (set_display (atoi optarg) (quiet o) o)
  | "T" => Some (set_duration (atoi optarg) (Some (u32 (atoi optarg + WARMUP_TIME))) o)
  | "q" => Some (set_display (data_lines o) true o)
  | "D" => Some (set_device (atoi optarg) (test_mode o) o)
  | "t" => Some (set_device (benchdev_no o) (atoi optarg) o)
  | "f" => Some (set_task true (priority o) (stop_upon_switch o) (cpu o) o)
  | "c" => Some (set_task (freeze_max o) (priority o) (stop_upon_switch o) (atoi optarg) o)
  | "P" => Some (set_task (freeze_max o) (atoi optarg) (stop_upon_switch o) (cpu o) o)
  | "b" => Some (set_task (freeze_max o) (priority o) true (cpu o) o)
  | _ => None
  end%char.

Fixpoint lat_options (l : list (ascii * string)) (o : lopts) : option lopts :=
  match l with
  | [] => Some o
  | (c, a) :: l' => match lat_option c a o with Some o' => lat_options l' o' | None => None end
  end.

(** The checks after the options; [None] is [exit(2)]. *)
Definition lat_checks (o : lopts) : option lopts :=
  let o1 := if (test_duration o =? 0) && quiet o then set_display (data_lines o) false o else o in
  if (test_mode o1 <? USER_TASK) || (TIMER_HANDLER <? test_mode o1) then None else Some o1.

(** The defaults set once the histograms are there. *)
Definition lat_defaults (o : lopts) : lopts :=
  let o1 := if period_ns o =? 0 then set_period CONFIG_XENO_DEFAULT_PERIOD o else o in
  let p := if priority o1 <=? T_LOPRIO then T_LOPRIO + 1
           else if T_HIPRIO <? priority o1 then T_HIPRIO else priority o1 in
  set_task (freeze_max o1) p (stop_upon_switch o1) (cpu o1) o1.

(** What [main] finds: which of the three [calloc] succeed, in the order of the
    calls, and the results of the calls that open the device and make the tasks. *)
Record main_env := MENV {
  me_avg : bool; me_max : bool; me_min : bool; me_open : Z;
  me_display_create : Z; me_display_start : Z; me_sampling_create : Z; me_sampling_start : Z
}.

(** [calloc(histogram_size, sizeof(long))]: a size that is negative as an [int]
    is too large as a [size_t]. *)
Definition calloc_cells (o : lopts) (ok : bool) : option (list Z) :=
  if ok && (0 <=? histogram_size o) then Some (replicate (Z.to_nat (histogram_size o)) 0) else None.

(** How [main] goes on: it exits with a code, it goes to [cleanup] at once, it
    returns 0 early, or it waits for a signal while the tasks run. *)
Inductive main_out :=
| MO_exit (code : Z)
| MO_cleanup (s : lat)
| MO_return
| MO_running (o : lopts) (benchdev : Z) (sampling : bool) (s : lat).

Definition lat_main (e : main_env) (l : list (ascii * string)) : main_out :=
  match lat_options l lopts0 with
  | None => MO_exit 2
  | Some o =>
      match lat_checks o with
      | None => MO_exit 2
      | Some o1 =>
          let havg := calloc_cells o1 (me_avg e) in
          let hmax := calloc_cells o1 (me_max e) in
          let hmin := calloc_cells o1 (me_min e) in
          let s := LAT results0 hmin hmax havg 0 false 0 0 true in
          match havg, hmax, hmin with
          | Some _, Some _, Some _ =>
              let o2 := lat_defaults o1 in
              let user := test_mode o2 =? USER_TASK in
              let benchdev := if user then -1 else me_open e in
              if negb user && (benchdev <? 0) then MO_return
              else if negb (me_display_create e =? 0) then MO_return
              else if negb (me_display_start e =? 0) then MO_return
              else if user && negb (me_sampling_create e =? 0) then MO_return
              else if user && negb (me_sampling_start e =? 0) then MO_return
              else MO_running o2 benchdev user s
          | _, _, _ => MO_cleanup s
          end
      end
  end.
