(* ===== verification/LatencyFacts.v ===== *)
(** * The latency monitor: a measuring run

    What the measuring task computes, against folds over the latencies of the
    wake-ups; the reports on the histograms; the command line. *)

From stdpp Require Import base tactics numbers list strings.
From S2P Require Import Prelude CycTime Timerbench TimerbenchFacts Latency.
#[local] Open Scope cmonad_scope.

(** ** Extremes of a list *)

Lemma lowest_of_min l a b : lowest_of l (Z.min a b) = Z.min a (lowest_of l b).
Proof.
  revert a b. induction l as [|d l IH]; intros a b; cbn; [reflexivity|].
  replace (Z.min d (Z.min a b)) with (Z.min a (Z.min d b)) by lia. apply IH.
Qed.

Lemma highest_of_max l a b : highest_of l (Z.max a b) = Z.max a (highest_of l b).
Proof.
  revert a b. induction l as [|d l IH]; intros a b; cbn; [reflexivity|].
  replace (Z.max (Z.max a b) d) with (Z.max a (Z.max b d)) by lia. apply IH.
Qed.

(** Starting from a sentinel or from a bound closer than it. *)
Lemma lowest_of_sentinel l a m : a <= m -> lowest_of l a = Z.min a (lowest_of l m).
Proof. intros. rewrite <- lowest_of_min. f_equal. lia. Qed.

Lemma highest_of_sentinel l a m : m <= a -> highest_of l a = Z.max a (highest_of l m).
Proof. intros. rewrite <- highest_of_max. f_equal. lia. Qed.

Lemma lowest_of_app l1 l2 a : lowest_of (l1 ++ l2) a = lowest_of l2 (lowest_of l1 a).
Proof. apply foldl_app. Qed.

Lemma highest_of_app l1 l2 a : highest_of (l1 ++ l2) a = highest_of l2 (highest_of l1 a).
Proof. apply foldl_app. Qed.

Lemma lowest_of_in l m : lowest_of l m = m \/ In (lowest_of l m) l.
Proof.
  revert m. induction l as [|d l IH]; intros m; [now left|]. cbn.
  destruct (IH (Z.min d m)) as [E|E]; [|auto]. fold (lowest_of l (Z.min d m)). rewrite E. lia.
Qed.

Lemma highest_of_in l m : highest_of l m = m \/ In (highest_of l m) l.
Proof.
  revert m. induction l as [|d l IH]; intros m; [now left|]. cbn.
  destruct (IH (Z.max m d)) as [E|E]; [|auto]. fold (highest_of l (Z.max m d)). rewrite E. lia.
Qed.

(** ** Counting in histograms *)

(** The histogram with one more hit in the cell of [v]. *)
Definition tally (bs size : Z) (h : list Z) (v : Z) : list Z :=
  alter (fun n => i32 (n + 1)) (Z.to_nat (histogram_index v bs size)) h.

Lemma tally_length bs size h v : length (tally bs size h v) = length h.
Proof. apply length_alter. Qed.

Lemma tally_fold_length bs size h l : length (foldl (tally bs size) h l) = length h.
Proof. revert h. induction l as [|v l IH]; intros h; cbn; [reflexivity|]. now rewrite IH, tally_length. Qed.

Lemma list_insert_alter {A} (f : A -> A) k x (l : list A) : l !! k = Some x -> <[k := f x]> l = alter f k l.
Proof.
  revert k. induction l as [|y l IH]; intros [|k] H; try discriminate.
  - now injection H as ->.
  - cbn. f_equal. now apply IH.
Qed.

(** The driver counts a sample with [tally]. *)
Lemma driver_add_histogram bs size h v :
  - 2 ^ 31 < v < 2 ^ 31 -> 0 < bs -> 0 < size -> Z.of_nat (length h) = size ->
  add_histogram bs size h v = inl (tally bs size h v).
Proof.
  intros Hv Hb Hs Hl. destruct (add_histogram_eq bs size h v Hv Hb Hs Hl) as (k & x & -> & Hx & ->).
  f_equal. unfold tally. now apply (list_insert_alter (fun n => i32 (n + 1))).
Qed.

(** ** Configurations and wake-ups *)

(** Options the measuring task can work with. *)
Record lopts_ok (o : lopts) : Prop := {
  lo_period : 1000 <= period_ns o <= 1000000;
  lo_size : need_histo o = true -> 0 < histogram_size o < 2 ^ 31;
  lo_bucket : need_histo o = true -> 0 < bucketsize o
}.

Lemma nsamples_range o : 1000 <= period_ns o <= 1000000 -> 1 <= nsamples o <= 1000.
Proof.
  intros Hp. unfold nsamples, ONE_BILLION. rewrite !Z.quot_div_nonneg by (try apply Z.quot_pos; lia).
  assert (1000 <= 1000000000 / period_ns o <= 1000000).
  { split; [apply Z.div_le_lower_bound; lia | apply Z.div_le_upper_bound; lia]. }
  assert (1 <= 1000000000 / period_ns o / 1000 <= 1000).
  { split; [apply Z.div_le_lower_bound; lia | apply Z.div_le_upper_bound; lia]. }
  rewrite (wrap_s_id 32) by lia. lia.
Qed.

(** A wake-up that does not end the program, and the overruns it reports. *)
Definition wake_ok (w : sample) : Prop := s_err w = 0 \/ s_err w = - ETIMEDOUT.
Definition reported (w : sample) : Z := if s_err w =? 0 then 0 else s_ov w.

Section Run.
Context `{TL : TscLaws}.

(** When the next wake-up is expected, after [w] expected at [e]. *)
Definition next_expected (p e : Z) (w : sample) : Z :=
  if s_err w =? 0 then e else i64 (e + p * s_ov w).

(** The latencies of the wake-ups [ws]; the last one before them was expected at [e]. *)
Fixpoint latencies (p e : Z) (ws : list sample) : list Z :=
  match ws with
  | [] => []
  | w :: ws' => let e1 := i64 (e + p) in latency_of e1 w :: latencies p (next_expected p e1 w) ws'
  end.

Fixpoint expected_after (p e : Z) (ws : list sample) : Z :=
  match ws with [] => e | w :: ws' => expected_after p (next_expected p (i64 (e + p)) w) ws' end.

Lemma latencies_app p e ws1 ws2 :
  latencies p e (ws1 ++ ws2) = latencies p e ws1 ++ latencies p (expected_after p e ws1) ws2.
Proof. revert e. induction ws1 as [|w ws1 IH]; intros e; cbn; [reflexivity|]. now rewrite IH. Qed.

(** A latency whose value in nanoseconds fits a [long]. *)
Definition dt_ok (d : Z) : Prop :=
  - 2 ^ 31 < d < 2 ^ 31 /\ - 2 ^ 31 < rt_timer_tsc2ns d < 2 ^ 31.

Lemma tsc2ns_nonneg d : 0 <= d -> 0 <= rt_timer_tsc2ns d.
Proof.
  intros Hd. pose proof (tsc2ns_odd 0) as H0. pose proof (tsc2ns_mono 0 d Hd).
  change (- 0) with 0 in H0. lia.
Qed.

(** The cell of the monitor is the cell of the driver, for the latency in
    nanoseconds. *)
Lemma cell_of_index o d :
  dt_ok d -> 0 < bucketsize o ->
  cell_of o d = histogram_index (rt_timer_tsc2ns d) (bucketsize o) (histogram_size o).
Proof.
  intros [Hd Hn] Hb. unfold cell_of, histogram_index.
  assert (Ha : rt_timer_tsc2ns (if 0 <=? d then d else i32 (- d))
    = if 0 <=? rt_timer_tsc2ns d then rt_timer_tsc2ns d else i32 (- rt_timer_tsc2ns d)).
  { destruct (Z.leb_spec 0 d) as [H0|H0].
    - rewrite (proj2 (Z.leb_le _ _)); [reflexivity | now apply tsc2ns_nonneg].
    - rewrite (wrap_s_id 32 (- d)), tsc2ns_odd by lia.
      pose proof (tsc2ns_nonneg (- d) ltac:(lia)) as Hp. rewrite tsc2ns_odd in Hp.
      destruct (Z.leb_spec 0 (rt_timer_tsc2ns d)); [lia|].
      now rewrite (wrap_s_id 32 (- rt_timer_tsc2ns d)) by lia. }
  rewrite Ha. set (a := if 0 <=? rt_timer_tsc2ns d then _ else _).
  assert (0 <= a < 2 ^ 31).
  { unfold a. destruct (Z.leb_spec 0 (rt_timer_tsc2ns d)); [lia|]. rewrite (wrap_s_id 32) by lia. lia. }
  assert (0 <= Z.quot a (bucketsize o) <= a).
  { rewrite Z.quot_div_nonneg by lia. split; [apply Z.div_pos; lia | apply Z.div_le_upper_bound; nia]. }
  rewrite (wrap_s_id 32) by lia. reflexivity.
Qed.

(** The monitor counts a sample with [tally] as well. *)
Lemma lat_add_histogram_eq o h d :
  dt_ok d -> 0 < bucketsize o -> 0 < histogram_size o -> Z.of_nat (length h) = histogram_size o ->
  lat_add_histogram o (Some h) d = inl (tally (bucketsize o) (histogram_size o) h (rt_timer_tsc2ns d)).
Proof.
  intros Hd Hb Hs Hl. unfold lat_add_histogram, tally. rewrite (proj2 (Z.eqb_neq _ 0)) by lia.
  rewrite cell_of_index by assumption.
  pose proof (histogram_index_range (rt_timer_tsc2ns d) (bucketsize o) (histogram_size o)
    (proj2 Hd) Hb Hs) as Hr.
  rewrite (proj2 (Z.ltb_ge _ 0)) by lia.
  destruct (lookup_lt_is_Some_2 h (Z.to_nat (histogram_index (rt_timer_tsc2ns d) (bucketsize o)
    (histogram_size o)))) as [x Hx]; [lia|].
  rewrite Hx. f_equal. now apply (list_insert_alter (fun n => i32 (n + 1))).
Qed.

(** The three histograms are there when they are needed. *)
Definition hists_ok (o : lopts) (s : lat) : Prop :=
  need_histo o = true -> exists hmin hmax havg,
    histogram_min s = Some hmin /\ histogram_max s = Some hmax /\ histogram_avg s = Some havg /\
    Z.of_nat (length hmin) = histogram_size o /\ Z.of_nat (length hmax) = histogram_size o /\
    Z.of_nat (length havg) = histogram_size o.

(** Samples count: no warm-up, and the end was not asked for. *)
Definition live (s : lat) : bool := negb (finished s || warmup s).

Definition tally_of (o : lopts) (h : list Z) (d : Z) : list Z :=
  tally (bucketsize o) (histogram_size o) h (rt_timer_tsc2ns d).

Lemma tally_of_fold_length o h ds : length (foldl (tally_of o) h ds) = length h.
Proof.
  revert h. induction ds as [|d ds IH]; intros h; cbn; [reflexivity|]. rewrite IH. apply tally_length.
Qed.

(** The period's variables after a wake-up. *)
Definition inner_after (d : Z) (w : sample) (i : inner) : inner :=
  INNER (Z.min d (minj i)) (Z.max (maxj i) d) (i64 (sumj i + d)) (i32 (overrun i + reported w)).

(** The state after the wake-ups of latencies [ds]. *)
Definition state_after (o : lopts) (e relaxed old : Z) (ds : list Z) (s : lat) : lat :=
  LAT (set_relaxed relaxed
        (set_gmax (if live s && freeze_max o then highest_of ds (gmaxjitter (l_res s))
                   else gmaxjitter (l_res s)) (l_res s)))
      (histogram_min s) (histogram_max s)
      (if live s && need_histo o then (fun h => foldl (tally_of o) h ds) <$> histogram_avg s
       else histogram_avg s)
      (l_sem s) (finished s) e old (warmup s).

Lemma state_after_cons o e1 r1 old1 d e2 r2 old2 ds s :
  state_after o e2 r2 old2 ds (state_after o e1 r1 old1 [d] s) = state_after o e2 r2 old2 (d :: ds) s.
Proof.
  unfold state_after. change (live (LAT _ _ _ _ _ (finished s) _ _ (warmup s))) with (live s).
  cbn. destruct (live s), (freeze_max o), (need_histo o); cbn; try reflexivity;
    destruct (histogram_avg s); reflexivity.
Qed.

Lemma hists_ok_after o e r old ds s : hists_ok o s -> hists_ok o (state_after o e r old ds s).
Proof.
  intros Hh Hn. destruct (Hh Hn) as (hmin & hmax & havg & E1 & E2 & E3 & L1 & L2 & L3).
  exists hmin, hmax. cbn. rewrite E3, Hn.
  destruct (live s); cbn; eexists; (split_and!; [assumption | assumption | reflexivity | assumption | assumption |]).
  - now rewrite tally_of_fold_length.
  - assumption.
Qed.

Lemma live_freeze o d s :
  (if freeze_max o && (gmaxjitter (l_res s) <? d) && live s
   then modify (with_results (set_gmax d)) else ret tt) s
  = OK (F := lat_fault) tt (with_results (set_gmax
      (if live s && freeze_max o then Z.max (gmaxjitter (l_res s)) d else gmaxjitter (l_res s))) s).
Proof.
  destruct (freeze_max o), (live s); cbn [andb]; rewrite ?andb_false_r, ?andb_true_r; cbn [andb];
    try (destruct s as [[r1 r2 r3 r4 r5 r6 r7 r8 r9] ? ? ? ? ? ? ? ?]; reflexivity).
  destruct (Z.ltb_spec (gmaxjitter (l_res s)) d).
  - now rewrite Z.max_r by lia.
  - rewrite Z.max_l by lia. destruct s as [[r1 r2 r3 r4 r5 r6 r7 r8 r9] ? ? ? ? ? ? ? ?]; reflexivity.
Qed.

Lemma add_avg_eq o d s :
  lopts_ok o -> hists_ok o s -> dt_ok d ->
  (if live s && need_histo o then add_avg o d else ret tt) s
  = OK tt (with_hists (histogram_min s) (histogram_max s)
      (if live s && need_histo o then (fun h => tally_of o h d) <$> histogram_avg s
       else histogram_avg s) s).
Proof.
  intros Ho Hh Hd. destruct (live s && need_histo o) eqn:E; bool_to_prop.
  - destruct (Hh ltac:(assumption)) as (hmin & hmax & havg & E1 & E2 & E3 & _ & _ & L).
    unfold add_avg. rewrite E3. pose proof (lo_size o Ho ltac:(assumption)).
    rewrite lat_add_histogram_eq by (eauto using lo_bucket; lia). reflexivity.
  - now destruct s.
Qed.

Lemma sample_turn_eq o w i s :
  lopts_ok o -> hists_ok o s -> wake_ok w -> i32 (overrun i) = overrun i ->
  let e1 := i64 (expected_tsc s + period_tsc o) in
  let d := latency_of e1 w in
  dt_ok d ->
  exists mr, sample_turn o w i s =
    OK (inner_after d w i) (state_after o (next_expected (period_tsc o) e1 w) mr (s_relaxed w) [d] s).
Proof.
  intros Ho Hh Hw Hov e1 d Hd. unfold sample_turn.
  unfold bind at 1, modify at 1. unfold bind at 1, get at 1. cbn [expected_tsc with_locals].
  fold e1. fold d. unfold bind at 1.
  set (s1 := with_locals e1 (old_relaxed s) (warmup s) s).
  assert (exists mr, note_relaxed w d i s1 = OK (F := lat_fault) tt (with_results (set_relaxed mr) s1)) as [mr ->].
  { unfold note_relaxed, modify. split_if; [eexists; reflexivity|].
    exists (max_relaxed (l_res s1)). destruct s1 as [[] ? ? ? ? ? ? ? ?]; reflexivity. }
  exists mr. unfold bind at 1, modify at 1. unfold bind at 1. cbv zeta.
  set (e2 := next_expected (period_tsc o) e1 w).
  set (s2 := with_locals e2 (s_relaxed w) (warmup s) (with_results (set_relaxed mr) s)).
  assert (Ei : account d i = INNER (Z.min d (minj i)) (Z.max (maxj i) d) (i64 (sumj i + d)) (overrun i))
    by (unfold account; f_equal; split_if; lia).
  match goal with |- match ?m ?x with _ => _ end = _ => assert (E2 : m x = OK (inner_after d w i) s2) end.
  { rewrite Ei. unfold s2, e2, next_expected, inner_after, reported. destruct Hw as [-> | ->]; cbn.
    - now rewrite Z.add_0_r, Hov.
    - reflexivity. }
  rewrite E2. unfold bind at 1, get. unfold bind at 1.
  change (finished s2 || warmup s2) with (finished s || warmup s). fold (live s).
  pose proof (live_freeze o d s2) as Hf. change (live s2) with (live s) in Hf. rewrite Hf. clear Hf.
  unfold bind at 1. set (s3 := with_results _ s2).
  pose proof (add_avg_eq o d s3 Ho Hh Hd) as Ha. change (live s3) with (live s) in Ha. rewrite Ha.
  reflexivity.
Qed.

Lemma sample_loop_eq o ws i s :
  lopts_ok o -> hists_ok o s -> Forall wake_ok ws ->
  i32 (overrun i) = overrun i -> i64 (sumj i) = sumj i ->
  let ds := latencies (period_tsc o) (expected_tsc s) ws in
  Forall dt_ok ds ->
  exists mr old, sample_loop o ws i s =
    OK (INNER (lowest_of ds (minj i)) (highest_of ds (maxj i)) (i64 (sumj i + sumZ id ds))
              (i32 (overrun i + sumZ reported ws)))
       (state_after o (expected_after (period_tsc o) (expected_tsc s) ws) mr old ds s).
Proof.
  intros Ho. revert i s. induction ws as [|w ws IH]; intros i s Hh Hw Hov Hsum ds Hd.
  - exists (max_relaxed (l_res s)), (old_relaxed s). unfold ds, state_after. cbn.
    change (sumZ id []) with 0. change (sumZ reported []) with 0. rewrite !Z.add_0_r, Hov, Hsum.
    unfold ret. destruct i as [i1 i2 i3 i4], s as [[r1 r2 r3 r4 r5 r6 r7 r8 r9] h1 h2 h3 n f e old wu].
    cbn. f_equal. destruct (_ && freeze_max o), (_ && need_histo o), h3; reflexivity.
  - apply Forall_cons in Hw as [Hw1 Hw]. apply Forall_cons in Hd as [Hd1 Hd].
    destruct (sample_turn_eq o w i s Ho Hh Hw1 Hov Hd1) as [mr E].
    cbn [sample_loop]. unfold bind. rewrite E. clear E.
    set (e1 := i64 (expected_tsc s + period_tsc o)) in *. set (d := latency_of e1 w) in *.
    destruct (IH (inner_after d w i) (state_after o (next_expected (period_tsc o) e1 w) mr (s_relaxed w) [d] s))
      as (mr2 & old2 & E2); try assumption.
    + now apply hists_ok_after.
    + now apply wrap_s_idem.
    + now apply wrap_s_idem.
    + exists mr2, old2. rewrite E2, state_after_cons. cbn [inner_after minj maxj sumj overrun].
      rewrite !wrap_s_add_l, <- !Z.add_assoc by lia. reflexivity.
Qed.

(** ** A measuring period *)

Definition wakes_of (o : lopts) (wakes : nat -> sample) : list sample :=
  map wakes (seq 0 (Z.to_nat (nsamples o))).

Lemma latencies_length p e ws : length (latencies p e ws) = length ws.
Proof. revert e. induction ws; intros e; cbn; auto. Qed.

(** The average of as many [long]s as were added is exact. *)
Lemma average_exact n ds :
  0 < n < 2 ^ 31 -> Z.of_nat (length ds) = n -> Forall (fun d => - 2 ^ 31 < d < 2 ^ 31) ds ->
  i32 (Z.quot (i64 (sumZ id ds)) n) = Z.quot (sumZ id ds) n.
Proof.
  intros Hn Hl Hd.
  assert (Hs : - (2 ^ 31 - 1) * n <= sumZ id ds <= (2 ^ 31 - 1) * n).
  { subst n. clear Hn. induction Hd as [|d ds Hd1 Hd IH]; [change (sumZ id []) with 0; cbn; lia|].
    rewrite sumZ_cons. unfold id at 1 3. cbn [length]. lia. }
  rewrite (wrap_s_id 64) by lia. apply (wrap_s_id 32); [lia|].
  pose proof (Z.quot_le_mono _ _ n ltac:(lia) (proj1 Hs)) as H1.
  pose proof (Z.quot_le_mono _ _ n ltac:(lia) (proj2 Hs)) as H2.
  rewrite Z.quot_mul in H1, H2 by lia. lia.
Qed.

(** The results after a period of latencies [ds] with [ov] overruns. *)
Definition results_after (o : lopts) (mr : Z) (ds : list Z) (ov : Z) (r : results) : results :=
  let avg := Z.quot (sumZ id ds) (nsamples o) in
  RES (lowest_of ds TEN_MILLION) (highest_of ds (- TEN_MILLION)) avg
      (Z.min (lowest_of ds TEN_MILLION) (gminjitter r))
      (Z.max (gmaxjitter r) (highest_of ds (- TEN_MILLION)))
      (i32 (goverrun r + ov)) (i64 (gavgjitter r + avg)) mr (i32 (test_loops r + 1)).

Definition upd_hist (o : lopts) (ds : list Z) (h : option (list Z)) : option (list Z) :=
  if need_histo o then (fun h => foldl (tally_of o) h ds) <$> h else h.

(** What one measuring period does. *)
Record measured (o : lopts) (ds : list Z) (ov e : Z) (s s' : lat) : Prop := {
  ms_live : live s' = live s;
  ms_res : exists mr, l_res s' = results_after o mr ds ov (l_res s);
  ms_avg : histogram_avg s' = upd_hist o ds (histogram_avg s);
  ms_max : histogram_max s' = upd_hist o [highest_of ds (- TEN_MILLION)] (histogram_max s);
  ms_min : histogram_min s' = upd_hist o [lowest_of ds TEN_MILLION] (histogram_min s);
  ms_sem : l_sem s' = l_sem s + 1;
  ms_expected : expected_tsc s' = e
}.

Lemma dt_ok_opp d : dt_ok d -> dt_ok (- d).
Proof. intros [? ?]. split; [lia|]. rewrite tsc2ns_odd. lia. Qed.

Lemma extremes_ok ds :
  dt_ok TEN_MILLION -> Forall dt_ok ds ->
  dt_ok (lowest_of ds TEN_MILLION) /\ dt_ok (highest_of ds (- TEN_MILLION)).
Proof.
  intros Hm Hd. rewrite List.Forall_forall in Hd. split.
  - destruct (lowest_of_in ds TEN_MILLION) as [-> | Hi]; auto.
  - destruct (highest_of_in ds (- TEN_MILLION)) as [-> | Hi]; auto using dt_ok_opp.
Qed.

(** The two calls of [add_histogram] at the end of a period. *)
Lemma add_extremes_eq o i s :
  lopts_ok o -> hists_ok o s -> dt_ok (minj i) -> dt_ok (maxj i) ->
  (if need_histo o then add_max o (maxj i) ;; add_min o (minj i) else ret tt) s
  = OK tt (with_hists (upd_hist o [minj i] (histogram_min s)) (upd_hist o [maxj i] (histogram_max s))
             (histogram_avg s) s).
Proof.
  intros Ho Hh H1 H2. unfold upd_hist. destruct (need_histo o) eqn:E; [|now destruct s].
  destruct (Hh E) as (hmin & hmax & havg & E1 & E2 & E3 & L1 & L2 & L3).
  pose proof (lo_size o Ho E). pose proof (lo_bucket o Ho E).
  unfold bind, add_max, add_min. rewrite E2, lat_add_histogram_eq by (assumption || lia).
  cbn [histogram_min with_hists]. rewrite E1, lat_add_histogram_eq by (assumption || lia). reflexivity.
Qed.

Lemma freeze_merges (b : bool) ds g :
  Z.max (if b then highest_of ds g else g) (highest_of ds (- TEN_MILLION))
  = Z.max g (highest_of ds (- TEN_MILLION)).
Proof.
  destruct b; [|reflexivity]. destruct (Z.le_ge_cases g (- TEN_MILLION)) as [Hg|Hg].
  - rewrite (highest_of_sentinel ds (- TEN_MILLION) g) by lia. lia.
  - rewrite (highest_of_sentinel ds g (- TEN_MILLION)) by lia. lia.
Qed.

Lemma close_measure_eq o ds ov r s :
  lopts_ok o -> hists_ok o s -> finished s = false -> dt_ok TEN_MILLION -> Forall dt_ok ds ->
  Z.of_nat (length ds) = nsamples o ->
  let i := INNER (lowest_of ds TEN_MILLION) (highest_of ds (- TEN_MILLION)) (i64 (sumZ id ds)) ov in
  let avg := Z.quot (sumZ id ds) (nsamples o) in
  r = publish i avg (l_res s) ->
  close_measure o i s =
    OK tt (LAT r (upd_hist o [minj i] (histogram_min s)) (upd_hist o [maxj i] (histogram_max s))
               (histogram_avg s) (l_sem s + 1) false (expected_tsc s) (old_relaxed s) (warmup s)).
Proof.
  intros Ho Hh Hf Hm Hd Hl i avg ->. unfold close_measure. unfold bind at 1, get. rewrite Hf. cbn [negb andb].
  destruct (extremes_ok ds Hm Hd) as [H1 H2].
  unfold bind at 1. rewrite (add_extremes_eq o i s Ho Hh H1 H2).
  pose proof (nsamples_range o (lo_period o Ho)) as Hn.
  rewrite (proj2 (Z.eqb_neq _ 0)) by lia. unfold bind, modify. cbn [i sumj].
  rewrite average_exact; [ | lia | assumption | eapply Forall_impl; [exact Hd | now intros ? []]].
  unfold with_results, with_sem, with_hists. cbn. now rewrite Hf.
Qed.

Lemma latency_turn_eq o wakes s :
  lopts_ok o -> hists_ok o s -> live s = true -> dt_ok TEN_MILLION ->
  let ws := wakes_of o wakes in
  let ds := latencies (period_tsc o) (expected_tsc s) ws in
  Forall wake_ok ws -> Forall dt_ok ds ->
  exists s', latency_turn o wakes s = OK tt s' /\
    measured o ds (sumZ reported ws) (expected_after (period_tsc o) (expected_tsc s) ws) s s' /\
    hists_ok o s'.
Proof.
  intros Ho Hh Hl Hm ws ds Hw Hd. unfold latency_turn. unfold bind at 1, modify at 1.
  set (s1 := with_results _ s). unfold bind at 1. fold (wakes_of o wakes). fold ws.
  destruct (sample_loop_eq o ws inner0 s1 Ho Hh Hw eq_refl eq_refl Hd) as (mr & old & ->).
  change (latencies (period_tsc o) (expected_tsc s1) ws) with ds.
  cbn [inner0 minj maxj sumj overrun]. rewrite !Z.add_0_l.
  set (e := expected_after _ _ ws). set (s2 := state_after o e mr old ds s1).
  assert (Hf : finished s = false /\ warmup s = false)
    by (unfold live in Hl; destruct (finished s), (warmup s); auto).
  destruct Hf as [Hf Hwu]. unfold bind at 1, get. change (warmup s2) with (warmup s). rewrite Hwu. cbn [negb].
  assert (Hlen : Z.of_nat (length ds) = nsamples o).
  { unfold ds, ws, wakes_of. rewrite latencies_length, length_map, length_seq.
    pose proof (nsamples_range o (lo_period o Ho)). lia. }
  unfold bind at 1.
  rewrite (close_measure_eq o ds (i32 (sumZ reported ws)) _ s2 Ho
    (hists_ok_after o e mr old ds s1 Hh) Hf Hm Hd Hlen eq_refl).
  unfold modify. cbn [warmup]. change (warmup s2) with (warmup s). rewrite Hwu.
  set (s3 := LAT _ _ _ _ _ _ _ _ _). change (false && _) with false. cbv iota.
  exists s3. split; [reflexivity|].
  assert (Hms : measured o ds (sumZ reported ws) e s s3).
  { constructor; try reflexivity.
    - unfold live. cbn. now rewrite Hf, Hwu.
    - exists mr. unfold s3, results_after, publish. cbn. f_equal.
      + apply if_ltb_min.
      + rewrite <- (freeze_merges (live s && freeze_max o)). apply if_ltb_max.
      + rewrite !(Z.add_comm (goverrun _)). apply wrap_s_add_l. lia.
    - unfold s3, upd_hist. cbn. change (live s1) with (live s). now rewrite Hl. }
  split; [exact Hms|].
  intros Hn. destruct (Hh Hn) as (hmin & hmax & havg & E1 & E2 & E3 & L1 & L2 & L3).
  rewrite (ms_avg _ _ _ _ _ _ Hms), (ms_max _ _ _ _ _ _ Hms), (ms_min _ _ _ _ _ _ Hms).
  unfold upd_hist. rewrite Hn, E1, E2, E3. cbn [fmap option_fmap option_map].
  eexists _, _, _. split_and!; [reflexivity | reflexivity | reflexivity | ..]; now rewrite tally_of_fold_length.
Qed.

(** ** A run of periods *)

(** The latencies of the periods of a run, the first one after [e]. *)
Fixpoint period_latencies (o : lopts) (e : Z) (periods : list (nat -> sample)) : list (list Z) :=
  match periods with
  | [] => []
  | p :: ps =>
      latencies (period_tsc o) e (wakes_of o p)
        :: period_latencies o (expected_after (period_tsc o) e (wakes_of o p)) ps
  end.

Definition mean_of (o : lopts) (ds : list Z) : Z := Z.quot (sumZ id ds) (nsamples o).
Definition reported_in (o : lopts) (p : nat -> sample) : Z := sumZ reported (wakes_of o p).

(** The task measures, with results within the initial bounds. *)
Record measuring (o : lopts) (s : lat) : Prop := {
  mg_live : live s = true;
  mg_hists : hists_ok o s;
  mg_min : gminjitter (l_res s) <= TEN_MILLION;
  mg_max : - TEN_MILLION <= gmaxjitter (l_res s);
  mg_overrun : i32 (goverrun (l_res s)) = goverrun (l_res s);
  mg_avg : i64 (gavgjitter (l_res s)) = gavgjitter (l_res s);
  mg_loops : i32 (test_loops (l_res s)) = test_loops (l_res s)
}.

(** What a run of [periods] does. *)
Record run_done (o : lopts) (periods : list (nat -> sample)) (s s' : lat) : Prop := {
  rd_min : gminjitter (l_res s') =
    lowest_of (concat (period_latencies o (expected_tsc s) periods)) (gminjitter (l_res s));
  rd_max : gmaxjitter (l_res s') =
    highest_of (concat (period_latencies o (expected_tsc s) periods)) (gmaxjitter (l_res s));
  rd_overrun : goverrun (l_res s') = i32 (goverrun (l_res s) + sumZ (reported_in o) periods);
  rd_avg : gavgjitter (l_res s') =
    i64 (gavgjitter (l_res s) + sumZ (mean_of o) (period_latencies o (expected_tsc s) periods));
  rd_loops : test_loops (l_res s') = i32 (test_loops (l_res s) + Z.of_nat (length periods));
  rd_hist : histogram_avg s' =
    upd_hist o (concat (period_latencies o (expected_tsc s) periods)) (histogram_avg s);
  rd_sem : l_sem s' = l_sem s + Z.of_nat (length periods)
}.

Lemma upd_hist_app o ds1 ds2 h : upd_hist o ds2 (upd_hist o ds1 h) = upd_hist o (ds1 ++ ds2) h.
Proof. unfold upd_hist. destruct (need_histo o), h; cbn; [|reflexivity..]. now rewrite foldl_app. Qed.

Lemma measured_measuring o ds ov e s s' :
  measuring o s -> measured o ds ov e s s' -> hists_ok o s' -> measuring o s'.
Proof.
  intros [H1 H2 H3 H4 H5 H6 H7] [L [mr E] _ _ _ _ _] Hh.
  constructor; rewrite ?E; try exact Hh; cbn; try congruence; try lia; apply wrap_s_idem; lia.
Qed.

(** The first period of a run, and the rest. *)
Lemma run_done_cons o p ps s s1 s' :
  measuring o s ->
  measured o (latencies (period_tsc o) (expected_tsc s) (wakes_of o p)) (reported_in o p)
    (expected_after (period_tsc o) (expected_tsc s) (wakes_of o p)) s s1 ->
  run_done o ps s1 s' -> run_done o (p :: ps) s s'.
Proof.
  intros [H1 H2 H3 H4 H5 H6 H7] [L [mr E] A _ _ S X] [R1 R2 R3 R4 R5 R6 R7].
  rewrite X, E in *. cbn [results_after gminjitter gmaxjitter goverrun gavgjitter test_loops] in *.
  constructor; cbn [period_latencies concat length]; rewrite ?sumZ_cons.
  - rewrite R1, lowest_of_app. f_equal. rewrite (lowest_of_sentinel _ (gminjitter (l_res s)) TEN_MILLION) by lia. lia.
  - rewrite R2, highest_of_app. f_equal. rewrite (highest_of_sentinel _ (gmaxjitter (l_res s)) (- TEN_MILLION)) by lia. lia.
  - rewrite R3, wrap_s_add_l by lia. f_equal. lia.
  - rewrite R4, wrap_s_add_l by lia. unfold mean_of at 2. f_equal. lia.
  - rewrite R5, wrap_s_add_l by lia. f_equal. lia.
  - now rewrite R6, A, upd_hist_app.
  - rewrite R7, S. lia.
Qed.

Lemma latency_turns_eq o periods s :
  lopts_ok o -> dt_ok TEN_MILLION -> measuring o s ->
  Forall (fun p => Forall wake_ok (wakes_of o p)) periods ->
  Forall (Forall dt_ok) (period_latencies o (expected_tsc s) periods) ->
  exists s', latency_turns o periods s = OK tt s' /\ measuring o s' /\ run_done o periods s s'.
Proof.
  intros Ho Hm. revert s. induction periods as [|p ps IH]; intros s Hs Hw Hd.
  - exists s. split; [reflexivity|]. split; [exact Hs|]. destruct Hs as [H1 H2 H3 H4 H5 H6 H7].
    constructor; cbn; change (sumZ (reported_in o) []) with 0; change (sumZ (mean_of o) []) with 0;
      rewrite ?Z.add_0_r; try congruence.
    unfold upd_hist. destruct (need_histo o), (histogram_avg s); reflexivity.
  - apply Forall_cons in Hw as [Hw1 Hw]. apply Forall_cons in Hd as [Hd1 Hd].
    destruct (latency_turn_eq o p s Ho (mg_hists o s Hs) (mg_live o s Hs) Hm Hw1 Hd1) as (s1 & E & Hms & Hh1).
    pose proof (measured_measuring o _ _ _ s s1 Hs Hms Hh1) as Hs1.
    cbn [latency_turns]. unfold bind. rewrite E.
    destruct (IH s1 Hs1 Hw) as (s' & E' & Hs' & Hrd).
    { now rewrite (ms_expected _ _ _ _ _ _ Hms). }
    exists s'. split; [exact E'|]. split; [exact Hs'|]. now apply (run_done_cons o p ps s s1 s').
Qed.

End Run.
