(* ===== verification/LatencyDriver.v ===== *)
(** * The benchmark driver over a run

    What the driver of [Timerbench] has accounted after any number of measuring
    periods, in the terms [LatencyFacts] uses for the monitor's own task, so that
    the two can be compared. *)

From stdpp Require Import base tactics numbers list strings.
From S2P Require Import Prelude CycTime Timerbench TimerbenchFacts Latency LatencyFacts.
#[local] Open Scope cmonad_scope.

(** The [while] of [timer_task_proc], turn by turn. *)
Fixpoint timer_task_turns (turns : list (list Z)) : tm unit :=
  match turns with
  | [] => ret tt
  | dts :: turns' => timer_task_turn dts ;; timer_task_turns turns'
  end.

(** ** The histogram of the samples *)

Definition avg_hist (b : bench) : option (list Z) := h_avg <$> t_histogram (b_ctx b).

(** The histogram after the samples [dts], when the driver keeps one. *)
Definition counted (b : bench) (dts : list Z) : option (list Z) :=
  if t_histogram_size (b_ctx b) =? 0 then avg_hist b
  else (fun h => foldl (tally (t_bucketsize (b_ctx b)) (t_histogram_size (b_ctx b))) h dts) <$> avg_hist b.

Lemma record_avg_eq v b :
  hist_ok (b_ctx b) -> t_histogram_size (b_ctx b) <> 0 -> - 2 ^ 31 < v < 2 ^ 31 ->
  exists h, record_sample h_avg upd_avg v b = OK tt (with_ctx (set_histogram (Some h)) b) /\
    Some (h_avg h) = counted b [v].
Proof.
  intros [?|(Hn & Hb & h & Eh & L1 & L2 & L3)] Hne Hv; [contradiction|].
  unfold record_sample, bind, get, counted, avg_hist. rewrite Eh, (proj2 (Z.eqb_neq _ 0)) by lia.
  rewrite driver_add_histogram by (assumption || lia). eexists. split; reflexivity.
Qed.

Lemma eval_inner_hist dt b b' :
  hist_ok (b_ctx b) -> t_warmup (b_ctx b) = false -> - 2 ^ 31 < dt < 2 ^ 31 ->
  eval_inner_loop dt b = OK tt b' ->
  t_bucketsize (b_ctx b') = t_bucketsize (b_ctx b) /\ avg_hist b' = counted b [dt].
Proof.
  intros Hh Hw Hd E. unfold eval_inner_loop in E.
  unfold bind at 1, modify at 1 in E. unfold bind at 1, modify at 1 in E. unfold bind at 1, get at 1 in E.
  set (b1 := with_ctx _ (with_ctx _ b)) in E.
  change (t_warmup (b_ctx b1)) with (t_warmup (b_ctx b)) in E. rewrite Hw in E.
  change (t_histogram_size (b_ctx b1)) with (t_histogram_size (b_ctx b)) in E. cbn [negb andb] in E.
  assert (exists b2, (if negb (t_histogram_size (b_ctx b) =? 0) then record_sample h_avg upd_avg dt else ret tt) b1
    = OK tt b2 /\ t_bucketsize (b_ctx b2) = t_bucketsize (b_ctx b) /\ avg_hist b2 = counted b [dt])
    as (b2 & E2 & Hb2 & Ha2).
  { destruct (Z.eqb_spec (t_histogram_size (b_ctx b)) 0) as [E0|E0]; cbn [negb].
    - exists b1. split; [reflexivity|]. split; [reflexivity|]. unfold counted. now rewrite E0.
    - destruct (record_avg_eq dt b1 Hh E0 Hd) as (h & -> & Eh). eexists. split; [reflexivity|].
      split; [reflexivity | exact Eh]. }
  unfold bind at 1 in E. rewrite E2 in E. unfold bind, get, modify in E.
  destruct (overrun_loop _ _ _ _ _) as [[ov date]|]; [|discriminate]. injection E as <-.
  split; [exact Hb2 | exact Ha2].
Qed.

Lemma counted_cons b b1 d ds :
  t_histogram_size (b_ctx b1) = t_histogram_size (b_ctx b) ->
  t_bucketsize (b_ctx b1) = t_bucketsize (b_ctx b) -> avg_hist b1 = counted b [d] ->
  counted b1 ds = counted b (d :: ds).
Proof.
  intros Hs Hb Ha. unfold counted in *. rewrite Hs, Hb, Ha.
  destruct (_ =? 0); [reflexivity|]. now destruct (avg_hist b).
Qed.

Lemma inner_loops_hist dts b b' :
  running_ok (b_ctx b) -> t_warmup (b_ctx b) = false ->
  Forall (fun dt => - 2 ^ 31 < dt < 2 ^ 31) dts -> inner_loops dts b = OK tt b' ->
  t_bucketsize (b_ctx b') = t_bucketsize (b_ctx b) /\ avg_hist b' = counted b dts.
Proof.
  intros Hr Hw Hd. revert b Hr Hw. induction Hd as [|d ds Hd1 Hd IH]; intros b Hr Hw E.
  - injection E as <-. split; [reflexivity|]. unfold counted.
    destruct (_ =? 0); [reflexivity|]. now destruct (avg_hist b).
  - cbn [inner_loops] in E. unfold bind in E.
    destruct (eval_inner_loop_eq d b Hr Hd1) as (b1 & E1 & Hr1 & Hs & _).
    destruct (eval_inner_hist d b b1 (ro_hist _ Hr) Hw Hd1 E1) as [Hb1 Ha1].
    rewrite E1 in E. destruct (IH b1 Hr1) as [Hb2 Ha2]; [now rewrite (ss_warmup _ _ Hs) | exact E |].
    split; [congruence|]. rewrite Ha2. apply counted_cons; [apply (ss_size _ _ Hs) | exact Hb1 | exact Ha1].
Qed.

(** The end of a period leaves the histogram of the samples alone. *)
Lemma record_extreme_hist sel upd v b b' :
  (sel = h_max /\ upd = upd_max \/ sel = h_min /\ upd = upd_min) ->
  record_sample sel upd v b = OK tt b' ->
  avg_hist b' = avg_hist b /\ t_bucketsize (b_ctx b') = t_bucketsize (b_ctx b).
Proof.
  intros Hs E. unfold record_sample, bind, get in E.
  destruct (t_histogram (b_ctx b)) as [h|] eqn:Eh; [|discriminate].
  destruct (add_histogram _ _ _ _); [|discriminate]. injection E as <-.
  unfold avg_hist. rewrite Eh. destruct Hs as [[-> ->]|[-> ->]]; split; reflexivity.
Qed.

Lemma eval_outer_hist b b' :
  t_warmup (b_ctx b) = false -> eval_outer_loop b = OK tt b' ->
  avg_hist b' = avg_hist b /\ t_bucketsize (b_ctx b') = t_bucketsize (b_ctx b).
Proof.
  intros Hw E. unfold eval_outer_loop in E. unfold bind at 1, get at 1 in E. rewrite Hw in E. cbn [negb] in E.
  unfold bind at 1 in E. unfold bind at 1 in E.
  match type of E with context [match ?m b with _ => _ end] => destruct (m b) as [u b1|] eqn:E1 end;
    [|discriminate].
  assert (H1 : avg_hist b1 = avg_hist b /\ t_bucketsize (b_ctx b1) = t_bucketsize (b_ctx b)).
  { destruct (negb _) eqn:En; [|injection E1 as <- <-; auto]. unfold bind in E1.
    destruct (record_sample h_max _ _ b) as [[] b0|] eqn:E0; [|discriminate]. destruct u.
    destruct (record_extreme_hist _ _ _ _ _ (or_introl (conj eq_refl eq_refl)) E0) as [A0 B0].
    destruct (record_extreme_hist _ _ _ _ _ (or_intror (conj eq_refl eq_refl)) E1) as [A1 B1].
    split; congruence. }
  destruct (slldiv _ _); [|discriminate]. injection E as <-. exact H1.
Qed.

(** ** A run *)

(** A context that measures: at the start of a period, with results within the
    initial bounds. *)
Record bench_measuring (b : bench) : Prop := {
  bm_run : running_ok (b_ctx b);
  bm_warm : t_warmup (b_ctx b) = false;
  bm_curr : t_curr (b_ctx b) = BR 0 10000000 (-10000000) 0 (br_test_loops (t_curr (b_ctx b)));
  bm_min : br_min (t_overall (b_ctx b)) <= 10000000;
  bm_max : -10000000 <= br_max (t_overall (b_ctx b));
  bm_overruns : i32 (br_overruns (t_overall (b_ctx b))) = br_overruns (t_overall (b_ctx b))
}.

Definition overruns_in (p : Z) (dts : list Z) : Z := sumZ (fun dt => overruns_of dt p) dts.

Record bench_done (turns : list (list Z)) (b b' : bench) : Prop := {
  bd_min : br_min (t_overall (b_ctx b')) = lowest_of (concat turns) (br_min (t_overall (b_ctx b)));
  bd_max : br_max (t_overall (b_ctx b')) = highest_of (concat turns) (br_max (t_overall (b_ctx b)));
  bd_overruns : br_overruns (t_overall (b_ctx b')) =
    i32 (br_overruns (t_overall (b_ctx b)) + overruns_in (t_period (b_ctx b)) (concat turns));
  bd_hist : avg_hist b' = counted b (concat turns);
  bd_period : t_period (b_ctx b') = t_period (b_ctx b);
  bd_size : t_histogram_size (b_ctx b') = t_histogram_size (b_ctx b);
  bd_bucket : t_bucketsize (b_ctx b') = t_bucketsize (b_ctx b)
}.

Lemma turn_measures dts b :
  bench_measuring b -> Forall (fun dt => - 2 ^ 31 < dt < 2 ^ 31) dts ->
  exists b', timer_task_turn dts b = OK tt b' /\ bench_measuring b' /\ bench_done [dts] b b'.
Proof.
  intros [Hr Hw Hc Hmin Hmax Hov] Hd.
  destruct (inner_loops_eq dts b Hr Hd) as (b1 & E1 & Hr1 & [S1 S2 S3 S4 S5 S6 S7 S8] & _ & Hc1).
  destruct (inner_loops_hist dts b b1 Hr Hw Hd E1) as [Hb1 Ha1].
  destruct (eval_outer_loop_eq b1 Hr1) as (b2 & E2 & Hr2 & Hp2 & _ & Hw2 & _ & _ & Hs2 & _ & _ & Hcu & _ & Hov2);
    [congruence|].
  destruct (eval_outer_hist b1 b2 ltac:(congruence) E2) as [Ha2 Hb2].
  destruct (sampled_fold (t_period (b_ctx b)) dts (t_curr (b_ctx b))) as (_ & F2 & F3 & F4 & _);
    [now rewrite Hc | now rewrite Hc |].
  rewrite <- Hc1 in F2, F3, F4. rewrite Hc in F2, F3, F4. cbn in F2, F3, F4.
  rewrite F2, F3, F4, S6 in Hov2.
  exists b2. unfold timer_task_turn, bind. rewrite E1. split; [exact E2|]. split.
  - constructor; try assumption; rewrite ?Hov2, ?Hcu; cbn; [reflexivity | lia | lia | now apply wrap_s_idem].
  - constructor; cbn [concat]; rewrite ?app_nil_r, ?Hov2; cbn; try congruence.
    + rewrite (lowest_of_sentinel dts (br_min _) 10000000) by lia. lia.
    + rewrite (highest_of_sentinel dts (br_max _) (-10000000)) by lia. lia.
    + rewrite Z.add_0_l, Z.add_comm, wrap_s_add_l by lia. f_equal. unfold overruns_in. lia.
Qed.

Lemma counted_app b b1 ds1 ds2 :
  t_histogram_size (b_ctx b1) = t_histogram_size (b_ctx b) ->
  t_bucketsize (b_ctx b1) = t_bucketsize (b_ctx b) -> avg_hist b1 = counted b ds1 ->
  counted b1 ds2 = counted b (ds1 ++ ds2).
Proof.
  intros Hs Hb Ha. unfold counted in *. rewrite Hs, Hb, Ha.
  destruct (_ =? 0); [reflexivity|]. destruct (avg_hist b); cbn; [|reflexivity]. now rewrite foldl_app.
Qed.

Lemma turns_measure turns b :
  bench_measuring b -> Forall (Forall (fun dt => - 2 ^ 31 < dt < 2 ^ 31)) turns ->
  exists b', timer_task_turns turns b = OK tt b' /\ bench_measuring b' /\ bench_done turns b b'.
Proof.
  intros Hb Hd. revert b Hb. induction Hd as [|dts turns Hd1 Hd IH]; intros b Hb.
  - exists b. split; [reflexivity|]. split; [exact Hb|]. constructor; try reflexivity; cbn.
    + unfold overruns_in. change (sumZ _ []) with 0. rewrite Z.add_0_r. now destruct Hb.
    + unfold counted. destruct (_ =? 0); [reflexivity|]. now destruct (avg_hist b).
  - destruct (turn_measures dts b Hb Hd1) as (b1 & E1 & Hb1 & [M1 M2 M3 M4 M5 M6 M7]).
    destruct (IH b1 Hb1) as (b2 & E2 & Hb2 & [N1 N2 N3 N4 N5 N6 N7]).
    exists b2. cbn [timer_task_turns]. unfold bind. rewrite E1. split; [exact E2|]. split; [exact Hb2|].
    cbn [concat] in *. rewrite app_nil_r in *.
    constructor; cbn [concat]; try congruence.
    + now rewrite N1, M1, lowest_of_app.
    + now rewrite N2, M2, highest_of_app.
    + rewrite N3, M3, M5, wrap_s_add_l by lia. unfold overruns_in. rewrite sumZ_app. f_equal. lia.
    + rewrite N4. now apply counted_app.
Qed.
