(* ===== verification/LatencyReport.v ===== *)
(** * The latency monitor: reports on the histograms

    What [dump_histogram] and [dump_histo_gnuplot] print about a histogram in
    which the samples were counted. *)

From stdpp Require Import base tactics numbers list strings.
From S2P Require Import Prelude CycTime Timerbench TimerbenchFacts Latency LatencyFacts.

(** ** Cells and sums *)

Lemma sumZ_alter (f : Z -> Z) k x (l : list Z) :
  l !! k = Some x -> sumZ id (alter f k l) = sumZ id l + (f x - x).
Proof.
  revert k. induction l as [|y l IH]; intros [|k] H; try discriminate; cbn [alter list_alter] in *.
  - injection H as ->. rewrite !sumZ_cons. unfold id at 1 3. lia.
  - cbn in H. rewrite !sumZ_cons. fold (alter f k l). rewrite (IH k H). lia.
Qed.

Lemma sumZ_lookup_le (l : list Z) k x : Forall (fun n => 0 <= n) l -> l !! k = Some x -> x <= sumZ id l.
Proof.
  intros Hl. revert k. induction Hl as [|y l Hy Hl IH]; intros [|k] H; try discriminate.
  - injection H as ->. rewrite sumZ_cons.
    assert (0 <= sumZ id l) by (apply sumZ_nonneg; intros z Hz; now apply (proj1 (Forall_forall _ l) Hl)).
    unfold id at 1. lia.
  - rewrite sumZ_cons. specialize (IH k H). unfold id at 1. lia.
Qed.

Lemma sumZ_replicate_0 n : sumZ id (replicate n 0) = 0.
Proof. induction n as [|n IH]; [reflexivity|]. cbn [replicate]. rewrite sumZ_cons, IH. reflexivity. Qed.

(** [N] samples are counted in [h]. *)
Record counts (h : list Z) (N : Z) : Prop := {
  ct_nonneg : Forall (fun n => 0 <= n) h;
  ct_sum : sumZ id h = N
}.

Lemma tally_counts bs size h N v :
  - 2 ^ 31 < v < 2 ^ 31 -> 0 < bs -> 0 < size -> Z.of_nat (length h) = size ->
  counts h N -> N < 2 ^ 31 - 1 -> counts (tally bs size h v) (N + 1).
Proof.
  intros Hv Hb Hs Hl [Hn Hsum] HN. unfold tally.
  pose proof (histogram_index_range v bs size Hv Hb Hs) as Hr.
  set (k := Z.to_nat (histogram_index v bs size)).
  destruct (lookup_lt_is_Some_2 h k) as [x Hx]; [lia|].
  assert (0 <= x <= N).
  { split; [now apply (proj1 (Forall_lookup _ h) Hn k) |]. rewrite <- Hsum. now apply (sumZ_lookup_le h k). }
  split.
  - apply Forall_alter; [exact Hn|]. intros y Hy _. rewrite Hx in Hy. injection Hy as <-.
    rewrite (wrap_s_id 32); lia.
  - rewrite (sumZ_alter _ k x) by exact Hx. rewrite (wrap_s_id 32) by lia. lia.
Qed.

(** ** [dump_histogram] *)

Lemma dump_cells_total n cells : (dump_cells n cells).1.2 = sumZ id cells.
Proof.
  revert n. induction cells as [|x cells IH]; intros n; cbn [dump_cells]; [reflexivity|].
  specialize (IH (n + 1)). destruct (dump_cells (n + 1) cells) as [[lines total] sum]. cbn in IH. subst total.
  rewrite sumZ_cons. change (id x) with x. destruct (Z.eqb_spec x 0); cbn; lia.
Qed.

Lemma dump_cells_lines n cells k hits :
  In (k, hits) (dump_cells n cells).1.1 <->
  exists i, cells !! i = Some hits /\ k = n + Z.of_nat i /\ hits <> 0.
Proof.
  revert n. induction cells as [|x cells IH]; intros n; cbn [dump_cells].
  - split; [contradiction | now intros (i & H & _)].
  - specialize (IH (n + 1)). destruct (dump_cells (n + 1) cells) as [[lines total] sum]. cbn in IH.
    assert (Hsplit : (exists i, (x :: cells) !! i = Some hits /\ k = n + Z.of_nat i /\ hits <> 0) <->
      (k = n /\ hits = x /\ hits <> 0) \/ In (k, hits) lines).
    { rewrite IH. split.
      - intros ([|i] & H1 & H2 & H3); [left; cbn in H1; split_and!; [lia | congruence | exact H3]|].
        right. exists i. split_and!; [exact H1 | lia | exact H3].
      - intros [(-> & -> & H3)|(i & H1 & H2 & H3)]; [exists O | exists (S i)]; split_and!; auto; cbn; lia. }
    rewrite Hsplit. destruct (Z.eqb_spec x 0) as [E|E]; cbn.
    + split; [tauto|]. intros [(_ & -> & ?)|?]; [contradiction | assumption].
    + split; [intros [H|H]; [left; injection H as <- <-; auto | auto] | intros [(-> & -> & _)|H]; auto].
Qed.

(** ** [dump_histo_gnuplot] *)

(** The cell [a] is the first one with a hit, [b] the last one. *)
Definition hit (h : list Z) (a : nat) : Prop := exists x, h !! a = Some x /\ x <> 0.

Lemma first_hit_spec n h :
  (exists a, hit h a) ->
  exists a, first_hit n h = n + Z.of_nat a /\ hit h a /\ forall i, (i < a)%nat -> ~ hit h i.
Proof.
  revert n. induction h as [|x h IH]; intros n (a & y & Hy & Hne); [discriminate|]. cbn [first_hit].
  destruct (Z.eqb_spec x 0) as [->|E].
  - destruct (IH (n + 1)) as (a' & E1 & H1 & H2).
    { destruct a as [|a]; [injection Hy as <-; contradiction|]. now exists a, y. }
    exists (S a'). split; [lia|]. split; [exact H1|]. intros [|i] Hi (z & Hz & Hz0).
    + injection Hz as <-. contradiction.
    + apply (H2 i); [lia | now exists z].
  - exists O. split; [lia|]. split; [now exists x | intros i Hi; lia].
Qed.

Lemma last_hit_spec n h :
  (n <= length h)%nat -> (exists a, (a < n)%nat /\ hit h a) ->
  exists b, last_hit n h = Z.of_nat b /\ (b < n)%nat /\ hit h b /\
    forall i, (b < i < n)%nat -> ~ hit h i.
Proof.
  induction n as [|n IH]; intros Hn (a & Ha & y & Hy & Hne); [lia|]. cbn [last_hit].
  destruct (lookup_lt_is_Some_2 h n) as [x Hx]; [lia|]. rewrite Hx.
  destruct (Z.eqb_spec x 0) as [->|E].
  - destruct IH as (b & E1 & H0 & H1 & H2); [lia | |].
    { exists a. split; [|now exists y]. destruct (decide (a = n)) as [->|]; [congruence | lia]. }
    exists b. split_and!; [exact E1 | lia | exact H1|]. intros i Hi.
    destruct (decide (i = n)) as [->|]; [intros (z & Hz & Hz0); congruence | apply H2; lia].
  - exists n. split_and!; [reflexivity | lia | now exists x | intros i Hi; lia].
Qed.

(** The lines of the cells from [a] on, [k] of them. *)
Definition plot_lines (h : list Z) (a k : nat) : list (Z * Z) :=
  map (fun i => (Z.of_nat i, i32 (nth i h 0 + 1))) (seq a k).

Lemma gnuplot_lines_spec fuel h a b :
  (a <= b + 1)%nat -> (b < length h)%nat -> (b + 1 - a <= fuel)%nat -> Z.of_nat b < 2 ^ 32 - 1 ->
  gnuplot_lines fuel h (Z.of_nat a) (Z.of_nat b) = Some (plot_lines h a (b + 1 - a)).
Proof.
  revert a. induction fuel as [|fuel IH]; intros a Ha Hb Hf Hw; cbn [gnuplot_lines];
    rewrite (wrap_u_id 32 (Z.of_nat a)) by lia.
  - rewrite (proj2 (Z.leb_gt _ _)) by lia. now replace (b + 1 - a)%nat with O by lia.
  - destruct (Z.leb_spec (Z.of_nat a) (Z.of_nat b)) as [Hle|Hgt].
    + rewrite Nat2Z.id. destruct (lookup_lt_is_Some_2 h a) as [x Hx]; [lia|]. rewrite Hx.
      replace (Z.of_nat a + 1) with (Z.of_nat (S a)) by lia. rewrite IH by lia.
      replace (b + 1 - a)%nat with (S (b + 1 - S a)) by lia. unfold plot_lines. cbn [seq map].
      rewrite nth_lookup, Hx. reflexivity.
    + now replace (b + 1 - a)%nat with O by lia.
Qed.

(** The file: from the first cell with a hit to the last one. *)
Lemma gnuplot_of_hits o h :
  Z.of_nat (length h) = histogram_size o -> histogram_size o < 2 ^ 31 -> (exists a, hit h a) ->
  exists a b, dump_histo_gnuplot o h = Some (Z.of_nat a, plot_lines h a (b + 1 - a), Z.of_nat b + 1) /\
    (a <= b < length h)%nat /\ hit h a /\ hit h b /\
    forall i, (i < a \/ b < i)%nat -> ~ hit h i.
Proof.
  intros Hl Hs Hh. unfold dump_histo_gnuplot. rewrite take_ge by lia.
  replace (Z.to_nat (histogram_size o)) with (length h) by lia.
  destruct (first_hit_spec 0 h Hh) as (a & -> & Ha & Ha').
  destruct (last_hit_spec (length h) h) as (b & -> & Hb1 & Hb & Hb'); [lia | |].
  { destruct Ha as (x & Hx & Hx0). exists a. split; [now apply lookup_lt_Some in Hx | now exists x]. }
  assert (Hab : (a <= b)%nat) by (destruct (decide (a <= b)%nat); [assumption|]; exfalso; apply (Ha' b); [lia | assumption]).
  rewrite Z.add_0_l, (wrap_u_id 32 (Z.of_nat b)) by lia.
  rewrite gnuplot_lines_spec by lia. exists a, b.
  rewrite (wrap_u_id 32 (Z.of_nat a)), (wrap_u_id 32 (Z.of_nat b + 1)) by lia.
  split_and!; try assumption; [reflexivity|]. intros i [Hi|Hi] Hhit; [now apply (Ha' i)|].
  apply (Hb' i); [|exact Hhit]. destruct Hhit as (x & Hx & _). apply lookup_lt_Some in Hx. lia.
Qed.

(** ** Theorems *)

Section Reports.
Context `{TL : TscLaws}.

Lemma tally_run_counts o ds h N :
  0 < bucketsize o -> 0 < histogram_size o -> Forall dt_ok ds ->
  Z.of_nat (length h) = histogram_size o -> counts h N -> N + Z.of_nat (length ds) < 2 ^ 31 ->
  counts (foldl (tally_of o) h ds) (N + Z.of_nat (length ds)).
Proof.
  intros Hb Hs Hd. revert h N. induction Hd as [|d ds Hd1 Hd IH]; intros h N Hl Hc HN; cbn [foldl length] in *.
  - now rewrite Z.add_0_r.
  - replace (N + Z.of_nat (S (length ds))) with (N + 1 + Z.of_nat (length ds)) by lia.
    apply IH; [unfold tally_of; now rewrite tally_length | | lia].
    apply tally_counts; try assumption; [apply Hd1 | lia].
Qed.

Lemma counts_hit h N : counts h N -> 0 < N -> exists a, hit h a.
Proof.
  intros [_ <-]. induction h as [|x h IH]; [change (sumZ id []) with 0; lia|]. rewrite sumZ_cons. intros HN.
  destruct (decide (x = 0)) as [->|Hx]; [|now exists O, x].
  destruct IH as (a & y & Hy & Hy0); [exact HN|]. now exists (S a), y.
Qed.

End Reports.

(** The reports account for every sample.  After any number of samples the
    total of [dump_histogram] is that number, its lines are exactly the cells
    with a hit, and the file [dump_histo_gnuplot] writes runs from the first such
    cell to the last one, reading no cell outside the histogram. *)
Theorem latency_histogram_report `{TscLaws} o ds :
  0 < bucketsize o -> 0 < histogram_size o < 2 ^ 31 -> Forall dt_ok ds ->
  0 < Z.of_nat (length ds) < 2 ^ 31 -> do_histogram o = true ->
  let h := foldl (tally_of o) (replicate (Z.to_nat (histogram_size o)) 0) ds in
  hd_total (dump_histogram o h) = Z.of_nat (length ds) /\
  (forall k hits, In (k, hits) (hd_lines (dump_histogram o h)) <->
     0 <= k /\ h !! Z.to_nat k = Some hits /\ hits <> 0) /\
  exists a b, dump_histo_gnuplot o h = Some (Z.of_nat a, plot_lines h a (b + 1 - a), Z.of_nat b + 1) /\
    (a <= b < length h)%nat /\ hit h a /\ hit h b /\ forall i, (i < a \/ b < i)%nat -> ~ hit h i.
Proof.
  intros Hb Hs Hd HN Hdo h.
  assert (Hl : Z.of_nat (length h) = histogram_size o).
  { unfold h. rewrite tally_of_fold_length, length_replicate. lia. }
  assert (Hc : counts h (Z.of_nat (length ds))).
  { apply (tally_run_counts o ds _ 0); try assumption; try lia.
    - rewrite length_replicate. lia.
    - split; [now apply Forall_replicate | apply sumZ_replicate_0]. }
  unfold dump_histogram. rewrite take_ge by lia. pose proof (dump_cells_total 0 h) as Ht.
  pose proof (fun k hits => dump_cells_lines 0 h k hits) as Hli.
  destruct (dump_cells 0 h) as [[lines total] sum]. cbn in Ht, Hli. rewrite Hdo.
  split_and!; cbn.
  - rewrite Ht, (ct_sum _ _ Hc), (wrap_s_id 32); lia.
  - intros k hits. rewrite Hli. split.
    + intros (i & Hi & -> & Hne). replace (Z.to_nat (0 + Z.of_nat i)) with i by lia. split_and!; [lia | auto..].
    + intros (Hk & Hi & Hne). exists (Z.to_nat k). split_and!; [exact Hi | lia | exact Hne].
  - apply gnuplot_of_hits; [exact Hl | lia | now apply (counts_hit h (Z.of_nat (length ds)))].
Qed.

#[local] Instance clock_1GHz : TscClock := {| rt_timer_tsc2ns x := x; rt_timer_ns2tsc x := x |}.
#[local] Instance clock_1GHz_laws : TscLaws.
Proof. split; cbn; intros; lia. Qed.

Definition report_opts : lopts := LOPTS 100000 0 21 false 0 false 99 false 0 6 1000 (Some "plot"%string) true false 0 None.

Lemma latency_histogram_report_witness :
  let h := foldl (tally_of report_opts) (replicate 6 0) [1500; -3200; 1800; 90000] in
  hd_total (dump_histogram report_opts h) = 4 /\
  hd_lines (dump_histogram report_opts h) = [(1, 2); (3, 1); (5, 1)] /\
  exists a b, dump_histo_gnuplot report_opts h = Some (Z.of_nat a, plot_lines h a (b + 1 - a), Z.of_nat b + 1).
Proof.
  destruct (latency_histogram_report report_opts [1500; -3200; 1800; 90000]) as (H1 & _ & a & b & H2 & _).
  - cbn. lia.
  - cbn. lia.
  - repeat (constructor; [split; vm_compute; split; reflexivity|]). constructor.
  - cbn. lia.
  - reflexivity.
  - split; [exact H1|]. split; [vm_compute; reflexivity | exists a, b; exact H2].
Defined.

(** A histogram without a hit: the second search ends below the first cell, the
    border becomes the largest [unsigned], and the first line already reads the
    cell after the last one. *)
Lemma gnuplot_empty o :
  0 < histogram_size o < 2 ^ 31 ->
  dump_histo_gnuplot o (replicate (Z.to_nat (histogram_size o)) 0) = None.
Proof.
  intros Hs. unfold dump_histo_gnuplot. rewrite take_ge by (rewrite length_replicate; lia).
  set (n := Z.to_nat (histogram_size o)).
  assert (H1 : forall k m, first_hit m (replicate k 0) = m + Z.of_nat k).
  { induction k as [|k IH]; intros m; cbn; [lia|]. rewrite IH. lia. }
  assert (H2 : forall k, (k <= n)%nat -> last_hit k (replicate n 0) = -1).
  { induction k as [|k IH]; intros Hk; cbn; [reflexivity|].
    rewrite lookup_replicate_2 by lia. cbn. apply IH. lia. }
  rewrite H1, H2, length_replicate by lia. rewrite Z.add_0_l. replace (u32 (-1)) with (2 ^ 32 - 1) by reflexivity.
  destruct n as [|m] eqn:En; [lia|]. cbn [gnuplot_lines].
  rewrite (wrap_u_id 32 (Z.of_nat (S m))), (proj2 (Z.leb_le _ _)) by lia.
  rewrite lookup_ge_None_2; [reflexivity|]. rewrite length_replicate. lia.
Qed.

(** So the end of the program before the first measuring period is over crashes
    when a file for gnuplot was asked for. *)
Lemma cleanup_plot_early `{TscClock} o overall s file :
  test_mode o = USER_TASK -> do_gnuplot o = Some file -> 0 < histogram_size o < 2 ^ 31 ->
  histogram_min s = Some (replicate (Z.to_nat (histogram_size o)) 0) ->
  histogram_max s = Some (replicate (Z.to_nat (histogram_size o)) 0) ->
  histogram_avg s = Some (replicate (Z.to_nat (histogram_size o)) 0) ->
  cleanup o overall None true s = Fault L_HISTOGRAM.
Proof.
  intros Hm Hg Hs H1 H2 H3. unfold cleanup, bind, get. rewrite Hm. cbn [Z.eqb USER_TASK].
  assert (Hn : need_histo o = true) by (unfold need_histo; rewrite Hg; apply orb_true_r).
  rewrite Hn. unfold dump_hist_stats, ret. rewrite H1, H2, H3, Hg, gnuplot_empty by exact Hs. reflexivity.
Qed.
