(* ===== verification/LatencyTheorems.v ===== *)
(** * The latency monitor: theorems

    The statistics of a run, the same results whether the monitor's task or the
    driver measures, the reports on the histograms, the configuration [main]
    accepts and hands to the driver, and periods that are too long. *)

From stdpp Require Import base tactics numbers list strings.
From Stdlib Require Import Ascii.
From Stdlib Require String.
From S2P Require Import Prelude CycTime Timerbench TimerbenchFacts Latency LatencyFacts LatencyDriver.
#[local] Open Scope cmonad_scope.

(** ** A concrete clock and run *)

(** A clock of 2 GHz: two counts are one nanosecond. *)
#[local] Instance clock_2GHz : TscClock := {| rt_timer_tsc2ns x := Z.quot x 2; rt_timer_ns2tsc x := 2 * x |}.

#[local] Instance clock_2GHz_laws : TscLaws.
Proof.
  split; cbn; intros.
  - apply Z.quot_le_mono; lia.
  - apply Z.quot_opp_l. lia.
Qed.

(** A period of 500 us: two samples in a measuring period. *)
Definition demo_opts : lopts :=
  LOPTS 500000 0 21 false 0 true 99 false 0 10 1000 None true false 0 None.

Lemma demo_opts_ok : lopts_ok demo_opts.
Proof. split; cbn; intros; lia. Qed.

Definition demo_lat : lat :=
  LAT results0 (Some (replicate 10 0)) (Some (replicate 10 0)) (Some (replicate 10 0)) 0 false 0 0 false.

Lemma demo_lat_measuring : measuring demo_opts demo_lat.
Proof.
  split; try reflexivity; try (cbn; unfold TEN_MILLION; lia).
  intros _. do 3 eexists. split_and!; reflexivity.
Qed.

(** Two wake-ups 3 us and 5 us late, then two 1 us and 7 us late. *)
Definition demo_periods : list (nat -> sample) :=
  [ (fun k => match k with O => SAMPLE 0 0 1006000 0 | _ => SAMPLE 0 0 2010000 0 end);
    (fun k => match k with O => SAMPLE 0 0 3002000 0 | _ => SAMPLE 0 0 4014000 0 end) ].

(** ** The statistics of a run *)

(** [cleanup] while the period after the run is measured. *)
Definition final_report `{TscClock} (s : lat) : rts :=
  cleanup_user (set_loops (i32 (test_loops (l_res s) + 1)) (l_res s)).

(** C24: a run of the measuring task, with a period of 1 us to 1 ms, positive sizes
    of histogram and bucket when histograms are asked for, waits that succeed or
    report overruns, latencies that fit a [long] in counts and in nanoseconds, and
    less than 2^31 - 1 measuring periods.  From the end of the warm-up, the
    measuring periods end without a fault; the global minimum and maximum are
    those of all the latencies, the overruns and the averages of the periods are
    summed, every sample is counted in the histogram, the display is woken once a
    period, and the average reported at the end is the mean of the periods'
    averages.  (A longer period divides by zero: [latency_slow_period].) *)
Theorem latency_run_statistics `{TscLaws} o periods s :
  lopts_ok o -> dt_ok TEN_MILLION -> measuring o s -> l_res s = results0 ->
  Forall (fun p => Forall wake_ok (wakes_of o p)) periods ->
  let ds := period_latencies o (expected_tsc s) periods in
  Forall (Forall dt_ok) ds ->
  0 < Z.of_nat (length periods) < 2 ^ 31 - 1 ->
  exists s', latency_turns o periods s = OK tt s' /\
    gminjitter (l_res s') = lowest_of (concat ds) TEN_MILLION /\
    gmaxjitter (l_res s') = highest_of (concat ds) (- TEN_MILLION) /\
    goverrun (l_res s') = i32 (sumZ (reported_in o) periods) /\
    histogram_avg s' = upd_hist o (concat ds) (histogram_avg s) /\
    l_sem s' = l_sem s + Z.of_nat (length periods) /\
    t_gavg (final_report s') =
      i32 (rt_timer_tsc2ns (Z.quot (i64 (sumZ (mean_of o) ds)) (Z.of_nat (length periods)))).
Proof.
  intros Ho Hm Hs Hr Hw ds Hd Hlen.
  destruct (latency_turns_eq o periods s Ho Hm Hs Hw Hd) as (s' & E & _ & [R1 R2 R3 R4 R5 R6 R7]).
  rewrite Hr in R1, R2, R3, R4, R5. cbn in R1, R2, R3, R4, R5.
  exists s'. split_and!; try assumption. unfold final_report, cleanup_user. cbn.
  rewrite R5, R4, !Z.add_0_l, (wrap_s_id 32 (Z.of_nat (length periods))) by lia.
  rewrite (wrap_s_id 32 (Z.of_nat (length periods) + 1)) by lia.
  rewrite (proj2 (Z.ltb_lt 1 _)) by lia. do 3 f_equal. lia.
Qed.

Lemma demo_periods_ok :
  Forall (fun p => Forall wake_ok (wakes_of demo_opts p)) demo_periods /\
  Forall (Forall dt_ok) (period_latencies demo_opts (expected_tsc demo_lat) demo_periods).
Proof.
  split.
  - repeat (constructor; [repeat (constructor; [left; reflexivity|]); constructor|]). constructor.
  - repeat (constructor; [repeat (constructor; [split; vm_compute; split; reflexivity|]); constructor|]).
    constructor.
Qed.

Lemma latency_run_statistics_witness :
  exists s', latency_turns demo_opts demo_periods demo_lat = OK tt s' /\
    gminjitter (l_res s') = 2000 /\ gmaxjitter (l_res s') = 14000 /\
    histogram_avg s' = Some [0; 1; 0; 1; 0; 1; 0; 1; 0; 0] /\
    t_gavg (final_report s') = 4000.
Proof.
  destruct (latency_run_statistics demo_opts demo_periods demo_lat) as (s' & E & H1 & H2 & _ & H3 & _ & H4).
  - exact demo_opts_ok.
  - split; vm_compute; split; reflexivity.
  - exact demo_lat_measuring.
  - reflexivity.
  - apply demo_periods_ok.
  - apply demo_periods_ok.
  - cbn. lia.
  - exists s'. split; [exact E|]. split; [exact H1|]. split; [exact H2|]. split; [exact H3 | exact H4].
Defined.

(** ** The monitor's task and the driver *)

Section Agreement.
Context `{TL : TscLaws}.

(** A latency within the initial bounds of the minima and maxima. *)
Definition bounded (d : Z) : Prop :=
  - TEN_MILLION < d < TEN_MILLION /\ - TEN_MILLION < rt_timer_tsc2ns d < TEN_MILLION.

(** The monitor's bound [u] and the driver's bound [d]: both initial, or the same
    latency, in counts and in nanoseconds. *)
Definition same_bound (m u d : Z) : Prop := (u = m /\ d = m) \/ (bounded u /\ d = rt_timer_tsc2ns u).

(** The overall extremes and the histograms of the samples are the same. *)
Record agree (o : lopts) (s : lat) (b : bench) : Prop := {
  ag_min : same_bound TEN_MILLION (gminjitter (l_res s)) (br_min (t_overall (b_ctx b)));
  ag_max : same_bound (- TEN_MILLION) (gmaxjitter (l_res s)) (br_max (t_overall (b_ctx b)));
  ag_size : t_histogram_size (b_ctx b) = if need_histo o then histogram_size o else 0;
  ag_bucket : need_histo o = true -> t_bucketsize (b_ctx b) = bucketsize o;
  ag_hist : need_histo o = true -> avg_hist b = histogram_avg s
}.

Lemma bounded_dt_ok d : bounded d -> dt_ok d.
Proof. intros [? ?]. unfold TEN_MILLION in *. split; lia. Qed.

Lemma same_bound_low ds u d :
  Forall bounded ds -> same_bound TEN_MILLION u d ->
  same_bound TEN_MILLION (lowest_of ds u) (lowest_of (map rt_timer_tsc2ns ds) d).
Proof.
  intros Hd. revert u d. induction Hd as [|x ds [Hx Hx'] Hd IH]; intros u d Hs; [exact Hs|].
  cbn. apply IH. right. destruct Hs as [[-> ->]|[[Hu Hu'] ->]].
  - rewrite !Z.min_l by lia. now repeat split.
  - destruct (Z.le_ge_cases x u) as [Hle|Hle].
    + rewrite !Z.min_l by (try apply tsc2ns_mono; lia). now repeat split.
    + rewrite !Z.min_r by (try apply tsc2ns_mono; lia). now repeat split.
Qed.

Lemma same_bound_high ds u d :
  Forall bounded ds -> same_bound (- TEN_MILLION) u d ->
  same_bound (- TEN_MILLION) (highest_of ds u) (highest_of (map rt_timer_tsc2ns ds) d).
Proof.
  intros Hd. revert u d. induction Hd as [|x ds [Hx Hx'] Hd IH]; intros u d Hs; [exact Hs|].
  cbn. apply IH. right. destruct Hs as [[-> ->]|[[Hu Hu'] ->]].
  - rewrite !Z.max_r by lia. now repeat split.
  - destruct (Z.le_ge_cases x u) as [Hle|Hle].
    + rewrite !Z.max_l by (try apply tsc2ns_mono; lia). now repeat split.
    + rewrite !Z.max_r by (try apply tsc2ns_mono; lia). now repeat split.
Qed.

Lemma same_bound_limits u d :
  same_bound TEN_MILLION u d \/ same_bound (- TEN_MILLION) u d ->
  - TEN_MILLION <= u <= TEN_MILLION /\ - TEN_MILLION <= d <= TEN_MILLION.
Proof. unfold TEN_MILLION. intros [[[-> ->]|[[? ?] ->]]|[[-> ->]|[[? ?] ->]]]; unfold TEN_MILLION in *; lia. Qed.

(** The histogram of the driver is that of the monitor. *)
Lemma same_histogram o s b ds :
  lopts_ok o -> agree o s b -> need_histo o = true ->
  counted b (map rt_timer_tsc2ns ds) = upd_hist o ds (histogram_avg s).
Proof.
  intros Ho [_ _ Hsz Hbu Hh] Hn. unfold counted, upd_hist, tally_of.
  rewrite Hn in *. rewrite Hsz, (Hbu eq_refl), (Hh eq_refl).
  pose proof (lo_size o Ho Hn). rewrite (proj2 (Z.eqb_neq _ 0)) by lia.
  destruct (histogram_avg s) as [h|]; cbn; [|reflexivity]. f_equal. clear Hh. revert h.
  induction ds as [|d ds IH]; intros h; cbn; [reflexivity | apply IH].
Qed.

End Agreement.

(** C25: the modes of the monitor agree. With a period of 1 us to 1 ms and
    positive sizes when histograms are asked for, let the task of the monitor and
    the task of the driver both measure, from results that agree, and see the same
    latencies, all within the bounds of ten million counts and nanoseconds the
    minima and maxima start from, cut into their own measuring periods in whatever
    way. They end with the same overall minimum and maximum (once converted to
    nanoseconds) and the same histogram of the samples. Each adds its overruns to
    those it had: the monitor the ones the kernel reports with its waits, the
    driver the whole periods each latency exceeds. *)
Theorem latency_modes_agree `{TscLaws} o s b periods turns :
  lopts_ok o -> dt_ok TEN_MILLION -> measuring o s -> bench_measuring b -> agree o s b ->
  Forall (fun p => Forall wake_ok (wakes_of o p)) periods ->
  let ds := concat (period_latencies o (expected_tsc s) periods) in
  Forall bounded ds ->
  concat turns = map rt_timer_tsc2ns ds ->
  exists s' b', latency_turns o periods s = OK tt s' /\ timer_task_turns turns b = OK tt b' /\
    agree o s' b' /\
    gminjitter (l_res s') = lowest_of ds (gminjitter (l_res s)) /\
    gmaxjitter (l_res s') = highest_of ds (gmaxjitter (l_res s)) /\
    goverrun (l_res s') = i32 (goverrun (l_res s) + sumZ (reported_in o) periods) /\
    br_overruns (t_overall (b_ctx b')) =
      i32 (br_overruns (t_overall (b_ctx b))
           + sumZ (fun d => overruns_of (rt_timer_tsc2ns d) (t_period (b_ctx b))) ds).
Proof.
  intros Ho Hm Hs Hb Ha Hw ds Hd Hc.
  destruct (latency_turns_eq o periods s Ho Hm Hs Hw) as (s' & E & _ & [R1 R2 R3 R4 R5 R6 R7]).
  { apply Forall_concat. eapply Forall_impl; [exact Hd | intros; now apply bounded_dt_ok]. }
  destruct (turns_measure turns b Hb) as (b' & E' & _ & [N1 N2 N3 N4 N5 N6 N7]).
  { apply Forall_concat. rewrite Hc. apply Forall_map. eapply Forall_impl; [exact Hd|].
    intros d Hbd. destruct (bounded_dt_ok d Hbd); assumption. }
  exists s', b'. split; [exact E|]. split; [exact E'|]. rewrite Hc in *.
  split; [|split_and!; try assumption; rewrite N3; do 2 f_equal; apply (sumZ_fmap (fun dt => overruns_of dt (t_period (b_ctx b))))].
  pose proof Ha as [A1 A2 A3 A4 A5]. constructor; rewrite ?N6, ?N7; try assumption.
  - rewrite R1, N1. now apply same_bound_low.
  - rewrite R2, N2. now apply same_bound_high.
  - intros Hn. rewrite N4, R6. now apply same_histogram.
Qed.

Definition demo_turns : list (list Z) := [[3000; 5000; 1000]; [7000]].

Lemma demo_warm_measuring : bench_measuring demo_warm.
Proof.
  split; try (vm_compute; congruence).
  destruct (turn_started [] demo_bench demo_bench_started (Forall_nil_2 _)) as (b' & E & Hb & _).
  unfold demo_warm. rewrite E. apply Hb.
Qed.

Lemma demo_agree : agree demo_opts demo_lat demo_warm.
Proof. split; try (intros; reflexivity); left; split; reflexivity. Qed.

Lemma latency_modes_agree_witness :
  exists s' b', latency_turns demo_opts demo_periods demo_lat = OK tt s' /\
    timer_task_turns demo_turns demo_warm = OK tt b' /\ agree demo_opts s' b' /\
    gmaxjitter (l_res s') = 14000.
Proof.
  destruct (latency_modes_agree demo_opts demo_lat demo_warm demo_periods demo_turns)
    as (s' & b' & E1 & E2 & Ha & _ & Hx & _).
  - exact demo_opts_ok.
  - split; vm_compute; split; reflexivity.
  - exact demo_lat_measuring.
  - exact demo_warm_measuring.
  - exact demo_agree.
  - apply demo_periods_ok.
  - repeat (constructor; [split; vm_compute; split; reflexivity|]). constructor.
  - reflexivity.
  - exists s', b'. split; [exact E1|]. split; [exact E2|]. split; [exact Ha | exact Hx].
Defined.

(** ** main *)

(** What the options leave in the globals. *)
Record opts_int (o : lopts) : Prop := {
  oi_period : (1000 | period_ns o);
  oi_size : - 2 ^ 31 <= histogram_size o < 2 ^ 31;
  oi_bucket : - 2 ^ 31 <= bucketsize o < 2 ^ 31;
  oi_priority : - 2 ^ 31 <= priority o < 2 ^ 31
}.

Lemma atoi_range a : - 2 ^ 31 <= atoi a < 2 ^ 31.
Proof. apply (wrap_s_range 32). lia. Qed.

Lemma lat_option_int c a o o' : opts_int o -> lat_option c a o = Some o' -> opts_int o'.
Proof.
  intros [H1 H2 H3 H4] E. pose proof (atoi_range a).
  destruct c as [[] [] [] [] [] [] [] []]; cbn in E; try discriminate; injection E as <-;
    constructor; cbn; try assumption.
  apply Z.divide_factor_r.
Qed.

Lemma lat_options_int l o o' : opts_int o -> lat_options l o = Some o' -> opts_int o'.
Proof.
  revert o. induction l as [|[c a] l IH]; intros o Ho E; cbn in E; [now injection E as <-|].
  destruct (lat_option c a o) as [o1|] eqn:E1; [|discriminate].
  apply (IH o1); [now apply (lat_option_int c a o) | exact E].
Qed.

(** The program when its tasks run. *)
Record running_monitor (o : lopts) (benchdev : Z) (sampling : bool) (s : lat) : Prop := {
  rm_mode : test_mode o = USER_TASK \/ test_mode o = KERNEL_TASK \/ test_mode o = TIMER_HANDLER;
  rm_sampling : sampling = (test_mode o =? USER_TASK);
  rm_device : if sampling then benchdev = -1 else 0 <= benchdev;
  rm_priority : T_LOPRIO < priority o <= T_HIPRIO;
  rm_period : period_ns o <> 0 /\ (1000 | period_ns o);
  rm_quiet : quiet o = true -> test_duration o <> 0;
  rm_size : 0 <= histogram_size o < 2 ^ 31;
  rm_hists : histogram_min s = Some (replicate (Z.to_nat (histogram_size o)) 0) /\
    histogram_max s = Some (replicate (Z.to_nat (histogram_size o)) 0) /\
    histogram_avg s = Some (replicate (Z.to_nat (histogram_size o)) 0);
  rm_results : l_res s = results0 /\ finished s = false
}.

(** The checks keep what the options set, but for [quiet]. *)
Lemma lat_checks_spec o o1 :
  lat_checks o = Some o1 ->
  0 <= test_mode o1 <= 2 /\ (quiet o1 = true -> test_duration o1 <> 0) /\ (opts_int o -> opts_int o1).
Proof.
  unfold lat_checks, USER_TASK, TIMER_HANDLER. intros E.
  set (o2 := if (test_duration o =? 0) && quiet o then set_display (data_lines o) false o else o) in E.
  assert (H2 : (quiet o2 = true -> test_duration o2 <> 0) /\ (opts_int o -> opts_int o2)).
  { unfold o2. destruct (Z.eqb_spec (test_duration o) 0), (quiet o) eqn:Eq; cbn; split; auto; try congruence.
    intros [? ? ? ?]. now constructor. }
  clearbody o2. destruct ((test_mode o2 <? 0) || (2 <? test_mode o2)) eqn:Em; [discriminate|].
  injection E as <-. bool_to_prop. tauto.
Qed.

(** The defaults: the rest of the options stays. *)
Lemma lat_defaults_spec o :
  opts_int o ->
  let o2 := lat_defaults o in
  test_mode o2 = test_mode o /\ quiet o2 = quiet o /\ test_duration o2 = test_duration o /\
  histogram_size o2 = histogram_size o /\ T_LOPRIO < priority o2 <= T_HIPRIO /\
  period_ns o2 <> 0 /\ (1000 | period_ns o2).
Proof.
  intros [H1 H2 H3 H4]. unfold lat_defaults, T_LOPRIO, T_HIPRIO. cbv zeta.
  destruct (Z.eqb_spec (period_ns o) 0) as [Ep|Ep]; cbn; split_and!; try reflexivity; try assumption;
    try (repeat split_if; lia); try discriminate.
  now exists 100.
Qed.

Lemma lat_main_running e l o benchdev sampling s :
  lat_main e l = MO_running o benchdev sampling s -> running_monitor o benchdev sampling s.
Proof.
  unfold lat_main. intros E. destruct (lat_options l lopts0) as [o0|] eqn:El; [|discriminate].
  assert (Hi : opts_int o0).
  { apply (lat_options_int l lopts0); [|exact El]. constructor; cbn; unfold HISTOGRAM_CELLS, T_HIPRIO; try lia. now exists 0. }
  destruct (lat_checks o0) as [o1|] eqn:Ec; [|discriminate].
  destruct (lat_checks_spec o0 o1 Ec) as (Hm & Hq & Hi1). specialize (Hi1 Hi).
  destruct (lat_defaults_spec o1 Hi1) as (D1 & D2 & D3 & D4 & D5 & D6 & D7).
  set (o2 := lat_defaults o1) in *. clearbody o2.
  unfold calloc_cells in E. pose proof (oi_size _ Hi1).
  destruct (me_avg e), (me_max e), (me_min e), (Z.leb_spec 0 (histogram_size o1)) as [Hs|Hs]; cbn [andb] in E;
    try discriminate.
  destruct (Z.eqb_spec (test_mode o2) USER_TASK) as [Eu|Eu]; cbn [negb andb] in E;
    repeat (split_if_in E; [discriminate E|]); try discriminate; injection E as <- <- <- <-; bool_to_prop;
    (constructor; cbn; rewrite ?D4; try assumption; try (split_and!; (reflexivity || assumption)); try lia;
     try (now rewrite D2, D3); try (unfold USER_TASK, KERNEL_TASK, TIMER_HANDLER in *; lia)).
Qed.

(** C27: what [main] starts.  Whatever the command line, when the tasks run the
    mode is one of the three, the priority is above the lowest and at most the
    highest, the period is a multiple of a microsecond and not 0, quiet mode has
    a duration, the device is open exactly in the modes that use it, and the
    three histograms have [histogram_size] empty cells, as [latency] needs. *)
Theorem latency_main_wellformed e l o benchdev sampling s :
  lat_main e l = MO_running o benchdev sampling s ->
  running_monitor o benchdev sampling s /\ hists_ok o s.
Proof.
  intros E. pose proof (lat_main_running e l o benchdev sampling s E) as Hr. split; [exact Hr|].
  intros _. destruct (rm_hists _ _ _ _ Hr) as (H1 & H2 & H3). pose proof (rm_size _ _ _ _ Hr).
  do 3 eexists. split_and!; try eassumption; rewrite length_replicate; lia.
Qed.

(** An in-kernel task with histograms, on device 3. *)
Definition demo_command : list (Ascii.ascii * string) :=
  [("t"%char, "1"); ("p"%char, "200"); ("h"%char, ""); ("H"%char, "50"); ("P"%char, "250")]%string.
Definition main_good : main_env := MENV true true true 3 0 0 0 0.

Lemma latency_main_wellformed_witness :
  match lat_main main_good demo_command with
  | MO_running o benchdev sampling s => priority o = 99 /\ running_monitor o benchdev sampling s
  | _ => False
  end.
Proof.
  destruct (lat_main main_good demo_command) as [c|s| |o d sa s] eqn:E; try discriminate E.
  split; [|exact (proj1 (latency_main_wellformed main_good demo_command o d sa s E))].
  vm_compute in E. injection E as <- _ _ _. reflexivity.
Defined.

(** ** Periods above a millisecond *)

Lemma nsamples_slow o : 1000000 < period_ns o -> nsamples o = 0.
Proof.
  intros Hp. unfold nsamples, ONE_BILLION. rewrite !Z.quot_div_nonneg by (try apply Z.quot_pos; lia).
  rewrite (Z.div_small (_ / _)); [reflexivity|].
  split; [apply Z.div_pos; lia | apply Z.div_lt_upper_bound; lia].
Qed.

(** A turn without samples, before the statistics. *)
Lemma empty_turn `{TscClock} o wakes s :
  nsamples o = 0 ->
  latency_turn o wakes s =
    (let! s1 := get in
     (if negb (warmup s1) then close_measure o inner0 else ret tt) ;;
     modify (fun s => if warmup s && (test_loops (l_res s) =? WARMUP_TIME)
       then with_locals (expected_tsc s) (old_relaxed s) false (with_results (set_loops 0) s) else s))
    (with_results (fun r => set_loops (i32 (test_loops r + 1)) r) s).
Proof. intros Hn. unfold latency_turn. rewrite Hn. reflexivity. Qed.

(** A period above a millisecond.  The number of samples of a measuring
    period is computed as a thousandth of the samples of a second; it is 0, the
    warm-up passes without a sample, and the first period measured divides by
    zero. *)
Theorem latency_slow_period `{TscLaws} o p1 p2 s :
  1000000 < period_ns o ->
  (need_histo o = true -> 0 < histogram_size o < 2 ^ 31 /\ 0 < bucketsize o) ->
  hists_ok o s -> dt_ok TEN_MILLION ->
  warmup s = true -> finished s = false -> test_loops (l_res s) = 0 ->
  (exists s', latency_turn o p1 s = OK tt s' /\ warmup s' = false) /\
  latency_turns o [p1; p2] s = Fault L_DIVIDE.
Proof.
  intros Hp Hcells Hh Hm Hw Hf Hl. pose proof (nsamples_slow o Hp) as Hn.
  set (s1 := with_locals (expected_tsc s) (old_relaxed s) false
    (with_results (set_loops 0) (with_results (fun r => set_loops (i32 (test_loops r + 1)) r) s))).
  assert (E1 : latency_turn o p1 s = OK tt s1).
  { rewrite empty_turn by exact Hn. unfold bind, get, modify, ret. cbn [with_results warmup l_res].
    rewrite Hw. cbn. rewrite Hw, Hl. reflexivity. }
  split; [exists s1; split; [exact E1 | reflexivity]|].
  cbn [latency_turns]. unfold bind at 1. rewrite E1. unfold bind at 1. rewrite empty_turn by exact Hn.
  unfold bind at 1, get at 1. cbn [negb s1 warmup with_locals with_results].
  set (s2 := with_results _ s1). unfold bind at 1, close_measure, bind at 1, get at 1.
  change (finished s2) with (finished s). rewrite Hf. cbn [negb andb]. unfold bind at 1.
  assert (E2 : exists s3, (if need_histo o then add_max o (maxj inner0) ;; add_min o (minj inner0) else ret tt) s2
    = OK tt s3).
  { assert (Ho : lopts_ok (set_period 1000000 o)).
    { split; cbn; intros; [lia | now apply Hcells | now apply Hcells]. }
    eexists. apply (add_extremes_eq (set_period 1000000 o) inner0 s2 Ho Hh Hm). now apply dt_ok_opp. }
  destruct E2 as [s3 ->]. rewrite Hn. reflexivity.
Qed.

Definition slow_opts : lopts := set_period 2000000 demo_opts.
Definition slow_lat : lat := with_locals 0 0 true demo_lat.

Lemma latency_slow_period_witness :
  latency_turns slow_opts [(fun _ => SAMPLE 0 0 0 0); (fun _ => SAMPLE 0 0 0 0)] slow_lat = Fault L_DIVIDE.
Proof.
  apply (latency_slow_period slow_opts).
  - reflexivity.
  - cbn. lia.
  - intros _. do 3 eexists. split_and!; reflexivity.
  - split; vm_compute; split; reflexivity.
  - reflexivity.
  - reflexivity.
  - reflexivity.
Defined.

(** ** The monitor and the driver *)

(** The options are workable for the driver. *)
Definition bench_opts_ok (o : lopts) : Prop :=
  0 < period_ns o <= 1000000000 /\
  (need_histo o = true -> 0 < histogram_size o /\ 0 < bucketsize o).

Lemma bench_config_ok o benchdev s :
  running_monitor o benchdev false s -> bench_opts_ok o -> config_ok (bench_config o).
Proof.
  intros Hr [Hp Hh]. pose proof (rm_size _ _ _ _ Hr). constructor; cbn.
  - destruct (test_mode o =? KERNEL_TASK); auto.
  - lia.
  - destruct (need_histo o); lia.
  - destruct (need_histo o); [intros; now apply Hh | lia].
Qed.

Lemma start_size e c b err b' :
  start_env_ok e -> rt_tmbench_start e c b = OK err b' -> t_histogram_size (b_ctx b') = c_histogram_size c.
Proof.
  intros [E1 E2 E3 E4] E. unfold rt_tmbench_start, start_runner, bind, mutex_down, mutex_up, modify, ret, fault in E.
  rewrite E1, E2, E3, E4, andb_false_r in E. cbn [negb] in E.
  repeat (match type of E with context [if ?x then _ else _] => destruct x end; cbn in E; try discriminate);
    injection E as _ <-; reflexivity.
Qed.

(** What the driver does while a benchmark runs: a turn of its task, or a firing
    of its timer, with the two readings of the clock. *)
Inductive bench_event := Task_turn (dts : list Z) | Timer_fires (now later : Z).

Definition bench_event_step (ev : bench_event) : tm unit :=
  match ev with
  | Task_turn dts => timer_task_turn dts
  | Timer_fires now later => timer_proc_turn now later
  end.

Fixpoint bench_events (evs : list bench_event) : tm unit :=
  match evs with
  | [] => ret tt
  | ev :: evs' => bench_event_step ev ;; bench_events evs'
  end.

(** The latencies fit a [long], with their opposites. *)
Definition event_ok (ev : bench_event) (b : bench) : Prop :=
  match ev with
  | Task_turn dts => Forall (fun dt => - 2 ^ 31 < dt < 2 ^ 31) dts
  | Timer_fires now _ => i32 (now - t_date (b_ctx b)) <> - 2 ^ 31
  end.

Fixpoint events_ok (evs : list bench_event) (b : bench) : Prop :=
  match evs with
  | [] => True
  | ev :: evs' => event_ok ev b /\ forall b', bench_event_step ev b = OK tt b' -> events_ok evs' b'
  end.

Lemma event_started ev b :
  started b -> event_ok ev b ->
  exists b', bench_event_step ev b = OK tt b' /\ started b' /\
    t_histogram_size (b_ctx b') = t_histogram_size (b_ctx b).
Proof.
  intros Hb He. destruct ev as [dts|now later]; cbn in *.
  - now apply turn_started.
  - now apply proc_started.
Qed.

Lemma events_started evs b :
  started b -> events_ok evs b ->
  exists b', bench_events evs b = OK tt b' /\ started b' /\
    t_histogram_size (b_ctx b') = t_histogram_size (b_ctx b).
Proof.
  revert b. induction evs as [|ev evs IH]; intros b Hb He; [now exists b|]. destruct He as [He1 He].
  destruct (event_started ev b Hb He1) as (b1 & E1 & Hb1 & Hz1). cbn [bench_events]. unfold bind. rewrite E1.
  destruct (IH b1 Hb1 (He b1 E1)) as (b2 & E2 & Hb2 & Hz2). exists b2. split_and!; congruence.
Qed.

(** What a successful stop hands back. *)
Lemma stop_out_eq cr ch b r b' :
  t_mode (b_ctx b) = RTTST_TMBENCH_TASK \/ t_mode (b_ctx b) = RTTST_TMBENCH_HANDLER ->
  rt_tmbench_stop cr ch b = OK r b' ->
  exists ov, r.2 = Some (SOUT ov (if 0 <? t_histogram_size (b_ctx b) then t_histogram (b_ctx b) else None)) /\
    br_min ov = br_min (t_overall (b_ctx b)) /\ br_max ov = br_max (t_overall (b_ctx b)) /\
    br_overruns ov = br_overruns (t_overall (b_ctx b)).
Proof.
  intros Hm E. unfold rt_tmbench_stop, destroy_runner, bind, mutex_down, mutex_up, get, modify, ret, fault in E.
  destruct (t_mutex (b_ctx b)); [discriminate|]. cbn in E.
  destruct Hm as [Hm|Hm]; repeat (rewrite Hm in E; cbn in E);
    (destruct (slldiv _ _); [|discriminate]);
    unfold kfree_histogram in E; destruct (0 <? t_histogram_size (b_ctx b)); cbn in E;
    try (destruct (t_histogram (b_ctx b)); [|discriminate]; cbn in E);
    injection E as <- _; eexists; split_and!; reflexivity.
Qed.

(** C29: the monitor drives the driver.  With a period of at most a second and,
    if histograms are asked for, positive sizes, the configuration [display]
    hands over starts the benchmark on an idle device, it runs over any
    latencies (turns of the task, firings of the timer), the stop of [cleanup]
    gives everything back, and the histograms the driver then copies have
    exactly the size of the buffers [main] allocated; without histograms none is
    copied. *)
Theorem latency_drives_bench me l o benchdev s e b evs :
  lat_main me l = MO_running o benchdev false s -> bench_opts_ok o -> idle b -> start_env_ok e ->
  (forall err b1, rt_tmbench_start e (bench_config o) b = OK err b1 -> events_ok evs b1) ->
  exists err b1 b2 r b3 out,
    rt_tmbench_ioctl_nrt (TMBENCH_START e (bench_config o)) b = OK (err, None) b1 /\ started b1 /\
    bench_events evs b1 = OK tt b2 /\
    rt_tmbench_ioctl_nrt (TMBENCH_STOP 0 true) b2 = OK r b3 /\ idle b3 /\ r.2 = Some out /\
    match so_histograms out with
    | Some h => need_histo o = true /\
        Some (length (h_min h)) = length <$> histogram_min s /\
        Some (length (h_max h)) = length <$> histogram_max s /\
        Some (length (h_avg h)) = length <$> histogram_avg s
    | None => need_histo o = false
    end.
Proof.
  intros Hmain Ho Hi He Hd. pose proof (lat_main_running me l o benchdev false s Hmain) as Hr.
  pose proof (bench_config_ok o benchdev s Hr Ho) as Hc.
  destruct (start_idle e (bench_config o) b Hi Hc He) as (err & b1 & E1 & Hs1 & _).
  pose proof (start_size _ _ _ _ _ He E1) as Hz1. cbn in Hz1.
  destruct (events_started evs b1 Hs1 (Hd err b1 E1)) as (b2 & E2 & Hs2 & Hz2). rewrite Hz1 in Hz2.
  destruct (stop_started 0 true b2 Hs2) as (r & b3 & E3 & Hi3).
  destruct (stop_out_eq 0 true b2 r b3 (st_mode _ Hs2) E3) as (ov & Eo & _).
  exists err, b1, b2, r, b3. eexists. cbn [rt_tmbench_ioctl_nrt]. unfold bind at 1. rewrite E1.
  split_and!; [reflexivity | exact Hs1 | exact E2 | exact E3 | exact Hi3 | exact Eo |].
  cbn [so_histograms]. rewrite Hz2. destruct Ho as [_ Ho], (rm_hists _ _ _ _ Hr) as (-> & -> & ->).
  destruct (need_histo o); [|reflexivity]. destruct (Ho eq_refl) as [Hp _].
  rewrite (proj2 (Z.ltb_lt 0 _)) by lia.
  destruct (ro_hist _ (st_run _ Hs2)) as [Hz|(_ & _ & h & -> & L1 & L2 & L3)]; [lia|].
  rewrite Hz2 in L1, L2, L3. cbn. rewrite length_replicate. split_and!; [reflexivity | f_equal; lia..].
Qed.

(** The in-kernel task of [demo_command], then the timer handler. *)
Lemma latency_drives_bench_witness :
  match lat_main main_good demo_command,
        lat_main main_good (demo_command ++ [("t"%char, "2"%string)]) with
  | MO_running o _ false _, MO_running o2 _ false _ =>
      (exists err b1 b2 r b3 out,
        rt_tmbench_ioctl_nrt (TMBENCH_START good_env (bench_config o)) opened = OK (err, None) b1 /\
        bench_events [Task_turn [100; 200]; Task_turn [300]] b1 = OK tt b2 /\
        rt_tmbench_ioctl_nrt (TMBENCH_STOP 0 true) b2 = OK r b3 /\ r.2 = Some out /\
        br_max (so_overall out) = 300) /\
      exists err b1 b2, rt_tmbench_ioctl_nrt (TMBENCH_START good_env (bench_config o2)) opened = OK (err, None) b1 /\
        t_mode (b_ctx b1) = RTTST_TMBENCH_HANDLER /\
        bench_events [Timer_fires 1005700 1005800] b1 = OK tt b2 /\ br_max (t_curr (b_ctx b2)) = 700
  | _, _ => False
  end.
Proof.
  destruct (lat_main main_good demo_command) as [c|s| |o d [] s] eqn:E; try discriminate E.
  destruct (lat_main main_good (demo_command ++ _)) as [c|s2| |o2 d2 [] s2] eqn:E2; try discriminate E2.
  split.
  - destruct (latency_drives_bench main_good demo_command o d s good_env opened [Task_turn [100; 200]; Task_turn [300]])
      as (err & b1 & b2 & r & b3 & out & H1 & _ & H2 & H3 & _ & H4 & _).
    + exact E.
    + vm_compute in E. injection E as <- _ _. split; cbn; lia.
    + apply opened_idle.
    + constructor; reflexivity.
    + intros _ b1 _. repeat (split; [repeat constructor; lia | intros ? _]). exact I.
    + exists err, b1, b2, r, b3, out. split_and!; [exact H1 | exact H2 | exact H3 | exact H4 |].
      vm_compute in E. injection E as <- _ _. vm_compute in H1. injection H1 as <- <-.
      vm_compute in H2. injection H2 as <-. vm_compute in H3. injection H3 as <- _.
      injection H4 as <-. reflexivity.
  - destruct (latency_drives_bench main_good _ o2 d2 s2 good_env opened [Timer_fires 1005700 1005800] E2)
      as (err & b1 & b2 & r & b3 & out & H1 & _ & H2 & _).
    + vm_compute in E2. injection E2 as <- _ _. split; cbn; lia.
    + apply opened_idle.
    + constructor; reflexivity.
    + intros err b1 H1. split; [|intros ? _; exact I].
      vm_compute in E2. injection E2 as <- _ _. vm_compute in H1. injection H1 as <- <-. vm_compute. discriminate.
    + exists err, b1, b2. split; [exact H1|].
      vm_compute in E2. injection E2 as <- _ _. vm_compute in H1. injection H1 as <- <-.
      split; [reflexivity|]. split; [exact H2|]. vm_compute in H2. injection H2 as <-. reflexivity.
Defined.
