(* ===== verification/MsgServers.v ===== *)
(** * The wrist clock with messages (user/msg_clock)

    The servers of cmdcrn.c and dispclk.c and the task of clock.c that differs
    from user/sem_clock.  A task that sends with [rt_send] waits until the
    message is received, so at most one message of it is on its way;
    [rt_send_if] sends only to a task that waits in a receive.  The first
    exchange of each client, in which the server learns who puts and who gets, is
    done.  The server of cmdclk.c is in [ClockMonitors]. *)

From stdpp Require Import base functions tactics numbers list relations.
From S2P Require Import Prelude Hmsh CmdMonitor ClockMonitors ClockDisplay ClockTasks.

(** ** The chronometer's command server (cmdcrn.c) *)

Module MsgChrono.
Import CommandChrono.

(** Where the server is: at the [switch]; in [rt_receive_timed]; with a command
    just received at the [switch] ([first] in the case [stoppedInitial]); before
    [rt_send(get, command)], with a command it [got] or made up; ended. *)
Inductive server_pc :=
| SSwitch | STimed | SGot (first : bool) (c : Z) | SSend (got : bool) (c : Z) | SEnd.

(** [Chronostatus] and [buffered] (0 when empty), the message on its way from
    [put], and the history: commands accepted by [Put], and commands sent to
    [get], marked if they were received from [put]. *)
Record server := SRV {
  sv_status : chrono_status; sv_buffered : Z; sv_outbox : option Z; sv_pc : server_pc;
  sv_accepted : list Z; sv_sent : list (bool * Z)
}.

Definition server_start : server := SRV stoppedInitial 0 None SSwitch [] [].

Definition is_running (st : chrono_status) : bool := match st with running => true | _ => false end.

(** The test of [CommandChrono_Put]. *)
Definition Put_test (st : chrono_status) (command : Z) : bool :=
  negb (Bool.eqb (is_running st) (command =? ch_C)) || (command =? ch_F).

(** [CommandChrono_Put]; [None] while its previous message is on its way. *)
Definition CommandChrono_Put (c : Z) (s : server) : option server :=
  match sv_outbox s with
  | Some _ => None
  | None =>
      Some (if Put_test (sv_status s) c
            then SRV (sv_status s) (sv_buffered s) (Some c) (sv_pc s) (sv_accepted s ++ [c]) (sv_sent s)
            else s)
  end.

(** One step of the loop of [CommandChrono_task]; [timeout] when
    [rt_receive_timed] gives up.  [None] when the task waits. *)
Definition CommandChrono_task (timeout : bool) (s : server) : option server :=
  match sv_pc s with
  | SSwitch =>
      match sv_status s with
      | stoppedInitial =>
          if negb (sv_buffered s =? 0)
          then Some (SRV running 0 (sv_outbox s) (SSend true (sv_buffered s)) (sv_accepted s) (sv_sent s))
          else match sv_outbox s with
               | Some c => Some (SRV stoppedInitial 0 None (SGot true c) (sv_accepted s) (sv_sent s))
               | None => None
               end
      | running =>
          match sv_outbox s with
          | Some c => Some (SRV running (sv_buffered s) None (SGot false c) (sv_accepted s) (sv_sent s))
          | None => Some (SRV running (sv_buffered s) None (SSend false ch_C) (sv_accepted s) (sv_sent s))
          end
      | stoppedFinal =>
          Some (SRV stoppedInitial (sv_buffered s) (sv_outbox s) STimed (sv_accepted s) (sv_sent s))
      end
  | STimed =>
      match sv_outbox s with
      | Some c => Some (SRV (sv_status s) c None (SSend false ch_R) (sv_accepted s) (sv_sent s))
      | None =>
          if timeout
          then Some (SRV (sv_status s) (sv_buffered s) None (SSend false ch_R) (sv_accepted s) (sv_sent s))
          else None
      end
  | SGot first c =>
      let st := if first then running
                else if c =? ch_E then stoppedFinal else sv_status s in
      Some (SRV st (sv_buffered s) (sv_outbox s) (SSend true c) (sv_accepted s) (sv_sent s))
  | SSend got c =>
      Some (SRV (sv_status s) (sv_buffered s) (sv_outbox s) (if c =? ch_F then SEnd else SSwitch)
                (sv_accepted s) (sv_sent s ++ [(got, c)]))
  | SEnd => None
  end.

(** The putting task puts characters that are not NUL: keys. *)
Inductive server_step (s s' : server) : Prop :=
| server_put c : c <> 0 -> CommandChrono_Put c s = Some s' -> server_step s s'
| server_task timeout : CommandChrono_task timeout s = Some s' -> server_step s s'.

(** *** Every accepted command is forwarded, once and in order *)

(** Commands received and not sent yet, the oldest first. *)
Definition pending (s : server) : list Z :=
  match sv_pc s with SGot _ c | SSend true c => [c] | _ => [] end
  ++ (if sv_buffered s =? 0 then [] else [sv_buffered s])
  ++ match sv_outbox s with Some c => [c] | None => [] end.

(** The commands received from [put] among those sent. *)
Definition forwarded (s : server) : list Z := map snd (filter (fun m => fst m = true) (sv_sent s)).

(** What the server makes up: C while it runs, R after a stop. *)
Definition made_up (s : server) : Prop :=
  Forall (fun m : bool * Z => fst m = false -> snd m = ch_C \/ snd m = ch_R) (sv_sent s).

(** In which statuses each point of the loop is reached; a command is buffered
    only from the timed receive to the next [switch]. *)
Definition pc_ok (s : server) : Prop :=
  match sv_pc s with
  | SSwitch => sv_buffered s = 0 \/ sv_status s = stoppedInitial
  | STimed => sv_status s = stoppedInitial /\ sv_buffered s = 0
  | SGot true _ => sv_status s = stoppedInitial /\ sv_buffered s = 0
  | SGot false _ => sv_status s = running /\ sv_buffered s = 0
  | SSend true _ => sv_buffered s = 0
  | SSend false c => (c = ch_C \/ c = ch_R) /\ (sv_buffered s = 0 \/ sv_status s = stoppedInitial)
  | SEnd => True
  end.

Record server_inv (s : server) : Prop := {
  vi_order : sv_accepted s = forwarded s ++ pending s;
  vi_outbox : forall c, sv_outbox s = Some c -> c <> 0;
  vi_made_up : made_up s;
  vi_pc : pc_ok s
}.

Lemma forwarded_snoc s st b o pc a got c :
  forwarded (SRV st b o pc a (sv_sent s ++ [(got, c)])) = forwarded s ++ (if got : bool then [c] else []).
Proof.
  unfold forwarded. cbn. rewrite filter_app, map_app. f_equal. now destruct got.
Qed.

Lemma put_inv c s s' : c <> 0 -> server_inv s -> CommandChrono_Put c s = Some s' -> server_inv s'.
Proof.
  intros Hc [H1 H2 H3 H4] E. unfold CommandChrono_Put in E.
  destruct (sv_outbox s) eqn:Eo; [discriminate|]. injection E as <-.
  destruct (Put_test (sv_status s) c); [|constructor; try assumption; intros x Hx; congruence].
  constructor; cbn; try assumption.
  - rewrite H1. unfold pending. cbn. rewrite Eo, app_nil_r, !app_assoc. reflexivity.
  - intros x [= <-]. exact Hc.
Qed.

Lemma forward_inv got c s :
  server_inv s -> sv_pc s = SSend got c ->
  server_inv (SRV (sv_status s) (sv_buffered s) (sv_outbox s) (if c =? ch_F then SEnd else SSwitch)
                  (sv_accepted s) (sv_sent s ++ [(got, c)])).
Proof.
  intros [H1 H2 H3 H4] E. unfold pc_ok in H4. rewrite E in H4. constructor; try assumption.
  - rewrite forwarded_snoc. cbn [sv_accepted]. rewrite H1, <- app_assoc. f_equal. unfold pending. rewrite E. cbn.
    destruct got, (c =? ch_F); reflexivity.
  - unfold made_up. cbn. apply Forall_app. split; [exact H3|]. constructor; [|constructor].
    cbn. intros ->. apply H4.
  - unfold pc_ok. cbn. destruct (c =? ch_F); [exact I|]. destruct got; [now left | apply H4].
Qed.

Lemma task_inv timeout s s' : server_inv s -> CommandChrono_task timeout s = Some s' -> server_inv s'.
Proof.
  intros Hi E. pose proof Hi as [H1 H2 H3 H4]. unfold CommandChrono_task in E. unfold pc_ok in H4.
  destruct (sv_pc s) as [| |first c|got c|] eqn:Ep; [| | | |discriminate].
  - destruct (sv_status s) eqn:Est.
    + destruct (Z.eqb_spec (sv_buffered s) 0) as [Eb|Eb]; cbn [negb] in E.
      * destruct (sv_outbox s) as [c|] eqn:Eo; [|discriminate]. injection E as <-.
        constructor; cbn; try assumption; [|discriminate | now split].
        rewrite H1. unfold forwarded, pending. cbn. now rewrite Ep, Eb, Eo.
      * injection E as <-. constructor; cbn; try assumption; [|reflexivity].
        rewrite H1. unfold forwarded, pending. cbn. now rewrite Ep, (proj2 (Z.eqb_neq _ 0) Eb).
    + destruct H4 as [Hb|]; [|discriminate]. destruct (sv_outbox s) as [c|] eqn:Eo; injection E as <-;
        (constructor; cbn; try assumption; try discriminate; [|unfold pc_ok; cbn; auto]);
        rewrite H1; unfold forwarded, pending; cbn; now rewrite Ep, Hb, Eo.
    + destruct H4 as [Hb|]; [|discriminate]. injection E as <-.
      constructor; cbn; try assumption; [|now split].
      rewrite H1. unfold forwarded, pending. cbn. now rewrite Ep.
  - destruct H4 as [Hst Hb]. destruct (sv_outbox s) as [c|] eqn:Eo.
    + injection E as <-. pose proof (H2 c eq_refl) as Hc.
      constructor; cbn; try assumption; [|discriminate | unfold pc_ok; cbn; auto].
      rewrite H1. unfold forwarded, pending. cbn. now rewrite Ep, Hb, Eo, (proj2 (Z.eqb_neq c 0) Hc).
    + destruct timeout; [|discriminate]. injection E as <-.
      constructor; cbn; try assumption; try discriminate; [|unfold pc_ok; cbn; auto].
      rewrite H1. unfold forwarded, pending. cbn. now rewrite Ep, Eo.
  - injection E as <-. assert (Hb : sv_buffered s = 0) by (destruct first; apply H4).
    constructor; cbn; try assumption. rewrite H1. unfold forwarded, pending. cbn. now rewrite Ep.
  - injection E as <-. now apply forward_inv.
Qed.

Lemma server_reachable_inv s : rtc server_step server_start s -> server_inv s.
Proof.
  apply rtc_invariant.
  - constructor; try reflexivity; [discriminate | constructor | now left].
  - intros a b Ha [c Hc E|t E]; [now apply (put_inv c a) | now apply (task_inv t a)].
Qed.

End MsgChrono.

(** ** The display server (dispclk.c) *)

Module MsgDisplay.

(** The static buffers: [hours] of [Display_PutHour], [times] of
    [Display_PutTimes].  A message is a pointer to one of them. *)
Inductive which := Hours | Times.

#[global] Instance which_eq_dec : EqDecision which.
Proof. solve_decision. Defined.

(** The character a buffer is marked with, and the destination it stands for. *)
Definition tag (w : which) : Z := match w with Hours => 104 | Times => 116 end.
Definition dest (w : which) : Display_tDest := match w with Hours => destClock | Times => destChrono end.

(** A task that puts: outside; before [hours = chain]; before
    [hours.chain[0] = 'h']; before [rt_send_if]. *)
Inductive put_pc := PutIdle | PutCopy (c : MenageHmsh_tChain11) | PutTag | PutSend.

(** The server: in [rt_receive]; in [rt_send(get, command)]; before it looks at
    the second character; ended. *)
Inductive server_pc := DReceive | DSend (w : which) | DCheck (w : which) | DEnd.

(** The task that gets: outside; in [rt_receive]; before it copies the chain. *)
Inductive get_pc := GetIdle | GetReceive | GetCopy (w : which).

(** The tasks and the buffers, with the history: the chains put in each buffer,
    and what [Display_Get] returned, with the buffer it came from and whether the
    buffer was copied before it was marked. *)
Record display := MD {
  md_buf : which -> MenageHmsh_tChain11; md_put : which -> put_pc;
  md_server : server_pc; md_get : get_pc;
  md_puts : which -> list MenageHmsh_tChain11;
  md_got : list (which * bool * Display_tDest * MenageHmsh_tChain11)
}.

Definition display_start : display :=
  MD (fun _ => replicate 12 0) (fun _ => PutIdle) DReceive GetIdle (fun _ => []) [].

(** [Display_PutHour] and [Display_PutTimes], the store of the chain. *)
Definition Display_store (w : which) (c : MenageHmsh_tChain11) (m : display) : display :=
  MD (<[w := c]> (md_buf m)) (<[w := PutTag]> (md_put m)) (md_server m) (md_get m)
     (<[w := md_puts m w ++ [c]]> (md_puts m)) (md_got m).

(** ... the mark. *)
Definition Display_mark (w : which) (m : display) : display :=
  MD (<[w := <[0%nat := tag w]> (md_buf m w)]> (md_buf m)) (<[w := PutSend]> (md_put m))
     (md_server m) (md_get m) (md_puts m) (md_got m).

(** ... and [rt_send_if]. *)
Definition Display_send_if (w : which) (m : display) : display :=
  MD (md_buf m) (<[w := PutIdle]> (md_put m))
     (match md_server m with DReceive => DSend w | sv => sv end) (md_get m) (md_puts m) (md_got m).

(** The end of [Display_Get]: the copy, and the receiver. *)
Definition Display_copy (w : which) (m : display) : display :=
  let chain := md_buf m w in
  let raced := match md_put m w with PutTag => true | _ => false end in
  let receiver := if decide (chain !! 0%nat = Some 116) then destChrono else destClock in
  MD (md_buf m) (md_put m) (md_server m) GetIdle (md_puts m) (md_got m ++ [(w, raced, receiver, chain)]).

(** The end of a turn of [Display_task]. *)
Definition Display_check (w : which) (m : display) : display :=
  MD (md_buf m) (md_put m) (if decide (md_buf m w !! 1%nat = Some 101) then DEnd else DReceive)
     (md_get m) (md_puts m) (md_got m).

Inductive display_step (m : display) : display -> Prop :=
| put_call w c : md_put m w = PutIdle -> length c = 12%nat ->
    display_step m (MD (md_buf m) (<[w := PutCopy c]> (md_put m)) (md_server m) (md_get m) (md_puts m) (md_got m))
| put_store w c : md_put m w = PutCopy c -> display_step m (Display_store w c m)
| put_mark w : md_put m w = PutTag -> display_step m (Display_mark w m)
| put_send w : md_put m w = PutSend -> display_step m (Display_send_if w m)
| get_call : md_get m = GetIdle ->
    display_step m (MD (md_buf m) (md_put m) (md_server m) GetReceive (md_puts m) (md_got m))
| get_message w : md_server m = DSend w -> md_get m = GetReceive ->
    display_step m (MD (md_buf m) (md_put m) (DCheck w) (GetCopy w) (md_puts m) (md_got m))
| get_copy w : md_get m = GetCopy w -> display_step m (Display_copy w m)
| server_check w : md_server m = DCheck w -> display_step m (Display_check w m).

(** *** What the reader gets *)

(** A buffer holds the last chain put in it, marked unless the putting task is
    between the store and the mark. *)
Definition buffer_ok (m : display) (w : which) : Prop :=
  length (md_buf m w) = 12%nat /\
  match last (md_puts m w) with
  | None => md_put m w = PutIdle \/ exists c, md_put m w = PutCopy c /\ length c = 12%nat
  | Some c =>
      length c = 12%nat /\
      md_buf m w = (match md_put m w with PutTag => c | _ => <[0%nat := tag w]> c end) /\
      forall c', md_put m w = PutCopy c' -> length c' = 12%nat
  end.

Definition used (m : display) (w : which) : Prop := md_puts m w <> [].

Definition mentioned (m : display) (w : which) : Prop :=
  md_server m = DSend w \/ md_server m = DCheck w \/ md_get m = GetCopy w.

(** What [Display_Get] may return from the buffer [w]. *)
Definition got_ok (m : display) (g : which * bool * Display_tDest * MenageHmsh_tChain11) : Prop :=
  let '(w, raced, receiver, chain) := g in
  exists c, c ∈ md_puts m w /\ length c = 12%nat /\
    if raced : bool then chain = c
    else chain = <[0%nat := tag w]> c /\ receiver = dest w.

Record display_inv (m : display) : Prop := {
  di_buffer : forall w, buffer_ok m w;
  di_used : forall w, mentioned m w -> used m w;
  di_got : Forall (got_ok m) (md_got m)
}.

Lemma got_ok_mono m m' g :
  (forall w c, c ∈ md_puts m w -> c ∈ md_puts m' w) -> got_ok m g -> got_ok m' g.
Proof.
  intros Hm. destruct g as [[[w raced] receiver] chain]. intros (c & Hc & H). exists c. auto.
Qed.

Lemma used_last m w : used m w -> exists c, last (md_puts m w) = Some c.
Proof. unfold used. intros Hu. destruct (last (md_puts m w)) eqn:E; eauto. now apply last_None in E. Qed.

(** A step that touches neither buffers nor history. *)
Lemma display_inv_frame m m' :
  display_inv m ->
  (forall w, md_buf m' w = md_buf m w) -> (forall w, md_puts m' w = md_puts m w) -> md_got m' = md_got m ->
  (forall w, buffer_ok m' w) -> (forall w, mentioned m' w -> mentioned m w \/ md_put m w = PutSend) ->
  display_inv m'.
Proof.
  intros [H1 H2 H3] Eb Ep Eg Hb Hm. constructor; [exact Hb | |].
  - intros w Hw. unfold used. rewrite Ep. destruct (Hm w Hw) as [H|H]; [now apply H2|].
    destruct (H1 w) as [_ Hl]. destruct (last (md_puts m w)) eqn:E.
    + intros Hn. rewrite Hn in E. discriminate.
    + destruct Hl as [Hl|(c & Hl & _)]; congruence.
  - rewrite Eg. eapply Forall_impl; [exact H3|]. intros g. apply got_ok_mono. intros w c. now rewrite Ep.
Qed.

(** Reading an updated function at the updated place, or elsewhere. *)
Ltac at_place w w' :=
  destruct (decide (w = w')) as [<-|];
  cbn [md_buf md_put md_server md_get md_puts md_got Display_store Display_mark Display_send_if];
  rewrite ?fn_lookup_insert, ?fn_lookup_insert_ne by assumption.

Lemma call_inv m w c :
  display_inv m -> md_put m w = PutIdle -> length c = 12%nat ->
  display_inv (MD (md_buf m) (<[w := PutCopy c]> (md_put m)) (md_server m) (md_get m) (md_puts m) (md_got m)).
Proof.
  intros Hi Ep Hc. apply (display_inv_frame m); try reflexivity; [exact Hi | | intros w' H; now left].
  intros w'. pose proof (di_buffer m Hi w') as [Hl Hb]. split; [exact Hl|]. at_place w w'; [|exact Hb].
  destruct (last (md_puts m w)); [|right; eauto]. rewrite Ep in Hb. destruct Hb as (H1 & H2 & _).
  split_and!; [exact H1 | exact H2|]. now intros c' [= <-].
Qed.

Lemma store_inv m w c : display_inv m -> md_put m w = PutCopy c -> display_inv (Display_store w c m).
Proof.
  intros [H1 H2 H3] Ep. constructor.
  - intros w'. destruct (H1 w') as [Hl Hb]. split; at_place w w'; try assumption.
    + destruct (last (md_puts m w)) eqn:El; [now apply Hb|].
      destruct Hb as [Hb|(c' & Hb & Hc)]; congruence.
    + rewrite last_snoc. split_and!; [ | reflexivity | discriminate].
      destruct (last (md_puts m w)) eqn:El; [now apply Hb|].
      destruct Hb as [Hb|(c' & Hb & Hc)]; congruence.
  - intros w' Hw. unfold used. cbn. at_place w w'; [intros Hn; now apply app_nil in Hn as [_ ?] | now apply H2].
  - eapply Forall_impl; [exact H3|]. intros g. apply got_ok_mono. intros w' c' Hc. cbn.
    at_place w w'; [apply elem_of_app; now left | exact Hc].
Qed.

Lemma mark_inv m w : display_inv m -> md_put m w = PutTag -> display_inv (Display_mark w m).
Proof.
  intros [H1 H2 H3] Ep. constructor; [|exact H2 | exact H3].
  intros w'. destruct (H1 w') as [Hl Hb]. split; at_place w w'; try assumption;
    [exact (eq_trans (length_insert (md_buf m w) 0 (tag w)) Hl)|].
  rewrite Ep in Hb. destruct (last (md_puts m w)); [|destruct Hb as [Hb|(? & Hb & _)]; discriminate Hb].
  destruct Hb as (Hc & -> & _). now split_and!.
Qed.

Lemma send_if_inv m w : display_inv m -> md_put m w = PutSend -> display_inv (Display_send_if w m).
Proof.
  intros Hi Ep. apply (display_inv_frame m); try reflexivity; [exact Hi | |].
  - intros w'. destruct (di_buffer m Hi w') as [Hl Hb]. split; [exact Hl|]. at_place w w'; [|exact Hb].
    rewrite Ep in Hb. destruct (last (md_puts m w)); [|now left].
    destruct Hb as (H1 & H2 & _). now split_and!.
  - intros w' Hw. unfold mentioned, Display_send_if in *. cbn in Hw.
    destruct (md_server m) eqn:Es; try (now left). destruct Hw as [Hw|[Hw|Hw]]; [|discriminate Hw | tauto].
    injection Hw as <-. now right.
Qed.

Lemma copy_inv m w : display_inv m -> md_get m = GetCopy w -> display_inv (Display_copy w m).
Proof.
  intros [H1 H2 H3] Eg. constructor; [exact H1 | |].
  - intros w' [Hw|[Hw|Hw]]; [apply H2; now left | apply H2; right; now left | discriminate Hw].
  - cbn. apply Forall_app. split.
    + eapply Forall_impl; [exact H3|]. intros g. now apply got_ok_mono.
    + constructor; [|constructor]. destruct (used_last m w) as [c Ec]; [apply H2; right; now right|].
      destruct (H1 w) as [Hl Hb]. rewrite Ec in Hb. destruct Hb as (Hc & Hbuf & _).
      exists c. split; [now apply last_Some_elem_of|]. split; [exact Hc|]. rewrite Hbuf.
      assert (Ht : (<[0%nat := tag w]> c : list Z) !! 0%nat = Some (tag w))
        by (apply list_lookup_insert_eq; lia).
      destruct (md_put m w); try reflexivity; (split; [reflexivity|]);
        destruct (decide _) as [E|E]; destruct w; try reflexivity; exfalso;
        first [exact (E Ht) | discriminate (eq_trans (eq_sym Ht) E)].
Qed.

Lemma display_step_inv m m' : display_inv m -> display_step m m' -> display_inv m'.
Proof.
  intros Hi [w c Ep Hc|w c Ep|w Ep|w Ep|Eg|w Es Eg|w Eg|w Es].
  - now apply call_inv.
  - now apply store_inv.
  - now apply mark_inv.
  - now apply send_if_inv.
  - apply (display_inv_frame m); try reflexivity; [exact Hi | apply (di_buffer m Hi) |].
    intros w [H|[H|H]]; [left; now left | left; right; now left | discriminate H].
  - apply (display_inv_frame m); try reflexivity; [exact Hi | apply (di_buffer m Hi) |].
    intros w' [H|[H|H]]; [discriminate H | |]; injection H as <-; left; now left.
  - now apply copy_inv.
  - apply (display_inv_frame m); try reflexivity; [exact Hi | apply (di_buffer m Hi) |].
    intros w' [H|[H|H]]; [| |left; right; now right]; cbn in H;
      destruct (decide (md_buf m w !! 1%nat = Some 101)); discriminate H.
Qed.

Lemma served_display_inv m : rtc display_step display_start m -> display_inv m.
Proof.
  apply rtc_invariant; [|intros a b; apply display_step_inv]. constructor.
  - intros w. split; [reflexivity | now left].
  - intros w [H|[H|H]]; discriminate H.
  - constructor.
Qed.

End MsgDisplay.
