(* ===== verification/MsgTheorems.v ===== *)
(** * The wrist clock with messages: theorems

    What the servers of user/msg_clock forward and show, in every interleaving of
    the tasks, and where they differ from the version with semaphores. *)

From stdpp Require Import base functions tactics numbers list relations.
From S2P Require Import Prelude Hmsh CmdMonitor ClockMonitors ClockDisplay ClockTasks MsgServers.

(** ** Commands *)

(** C20: the chronometer's server forwards what it accepts.  In every reachable
    state the commands accepted are those forwarded to the chronometer, in order,
    followed by at most two that are on their way; everything else the server
    sends is a C or an R of its own. *)
Theorem msg_chrono_fifo s :
  rtc MsgChrono.server_step MsgChrono.server_start s ->
  MsgChrono.sv_accepted s = MsgChrono.forwarded s ++ MsgChrono.pending s /\
  (length (MsgChrono.pending s) <= 2)%nat /\
  Forall (fun m : bool * Z => m.1 = false -> m.2 = ch_C \/ m.2 = ch_R) (MsgChrono.sv_sent s).
Proof.
  intros Hr. destruct (MsgChrono.server_reachable_inv s Hr) as [H1 _ H3 H4].
  split; [exact H1|]. split; [|exact H3].
  unfold MsgChrono.pending, MsgChrono.pc_ok in *.
  destruct (MsgChrono.sv_pc s) as [| |[] c|[] c|], (MsgChrono.sv_outbox s),
    (Z.eqb_spec (MsgChrono.sv_buffered s) 0) as [E|E]; cbn; try lia; exfalso; tauto.
Qed.

(** Run the steps of a server: keys put, and steps of its task. *)
Inductive move := Key (c : Z) | Task (timeout : bool).

Definition chrono_move (a : move) (s : MsgChrono.server) : option MsgChrono.server :=
  match a with Key c => MsgChrono.CommandChrono_Put c s | Task t => MsgChrono.CommandChrono_task t s end.

Fixpoint moves {S} (f : move -> S -> option S) (l : list move) (s : S) : option S :=
  match l with [] => Some s | a :: l' => match f a s with Some s' => moves f l' s' | None => None end end.

Lemma chrono_moves_reachable l s s' :
  Forall (fun a => match a with Key c => c <> 0 | Task _ => True end) l ->
  moves chrono_move l s = Some s' -> rtc MsgChrono.server_step s s'.
Proof.
  intros Hl. revert s. induction Hl as [|a l Ha Hl IH]; intros s E; cbn in E.
  - injection E as <-. apply rtc_refl.
  - destruct (chrono_move a s) as [s1|] eqn:E1; [|discriminate]. apply rtc_l with s1; [|now apply IH].
    destruct a as [c|t]; [now apply (MsgChrono.server_put s s1 c) | now apply (MsgChrono.server_task s s1 t)].
Qed.

(** C is typed and the chronometer starts; E, and I before the server has seen
    the E. *)
Definition late_key : list move :=
  [Key ch_C; Task false; Task false; Task false; Key ch_E; Task false; Key ch_I; Task false; Task false;
   Task false; Task false; Task false; Task false; Task false; Task false; Task false].

Definition late_state : MsgChrono.server :=
  default MsgChrono.server_start (moves chrono_move late_key MsgChrono.server_start).

Lemma late_state_reachable : rtc MsgChrono.server_step MsgChrono.server_start late_state.
Proof.
  apply (chrono_moves_reachable late_key).
  - repeat (constructor; [first [discriminate | exact I]|]). constructor.
  - vm_compute. reflexivity.
Qed.

Lemma msg_chrono_fifo_witness :
  MsgChrono.sv_accepted late_state = [ch_C; ch_E; ch_I] /\
  MsgChrono.sv_accepted late_state = MsgChrono.forwarded late_state ++ MsgChrono.pending late_state.
Proof. split; [vm_compute; reflexivity | exact (proj1 (msg_chrono_fifo late_state late_state_reachable))]. Defined.

Definition clock_move (a : move) (s : MsgClock.server) : option MsgClock.server :=
  match a with Key c => MsgClock.CommandClock_Put c s | Task _ => MsgClock.CommandClock_task s end.

Lemma clock_moves_reachable l s s' :
  moves clock_move l s = Some s' -> rtc MsgClock.server_step s s'.
Proof.
  revert s. induction l as [|a l IH]; intros s E; cbn in E; [injection E as <-; apply rtc_refl|].
  destruct (clock_move a s) as [s1|] eqn:E1; [|discriminate]. apply rtc_l with s1; [|now apply IH].
  destruct a as [c|t]; [now apply (MsgClock.server_put s s1 c) | now apply MsgClock.server_task].
Qed.

(** The version with messages tests the status too early.  There [Put]
    reads the status while the previous command is still on its way through the
    server: with R and then H typed while the clock is stopped, H is accepted and
    the running clock is told to advance its hours; with E and then I typed
    while the chronometer runs, I is accepted, comes out after the reset, and
    the chronometer runs again though no C was typed.  Neither command reaches
    the tasks in the version with semaphores. *)
Theorem msg_clock_stale_status :
  (exists s, rtc MsgClock.server_step MsgClock.server_start s /\
     (CommandClock.running, ch_H) ∈ MsgClock.sv_sent s /\ ~ clock_gets (CommandClock.running, ch_H)) /\
  (exists s, rtc MsgChrono.server_step MsgChrono.server_start s /\
     MsgChrono.sv_accepted s = [ch_C; ch_E; ch_I] /\
     MsgChrono.sv_sent s = [(true, ch_C); (true, ch_E); (false, ch_R); (true, ch_I); (false, ch_C)] /\
     ~ chrono_gets (CommandChrono.CST CommandChrono.stoppedInitial false, ch_I)).
Proof.
  split.
  - exists (default MsgClock.server_start (moves clock_move [Key ch_R; Task false; Key ch_H; Task false;
      Task false; Task false; Task false; Task false] MsgClock.server_start)). split; [|split].
    + apply (clock_moves_reachable [Key ch_R; Task false; Key ch_H; Task false;
        Task false; Task false; Task false; Task false]). reflexivity.
    + cbn. right. constructor.
    + unfold clock_gets. cbn. rewrite !elem_of_cons, elem_of_nil. intros [|[|[|[]]]]; discriminate.
  - exists late_state. split; [apply late_state_reachable|]. split_and!; [vm_compute; reflexivity.. |].
    unfold chrono_gets. cbn. rewrite !elem_of_cons, elem_of_nil. intros [|[|[]]]; discriminate.
Qed.

(** ** The display *)

(** What the display shows was put.  In every reachable state each chain
    [Display_Get] returned is one that was put in the buffer it came from; unless
    the copy was made between the store of the chain and its mark, it carries
    the mark of that buffer and goes to the destination of that buffer. *)
Theorem msg_display_shows_puts m w raced receiver chain :
  rtc MsgDisplay.display_step MsgDisplay.display_start m ->
  (w, raced, receiver, chain) ∈ MsgDisplay.md_got m ->
  exists c, c ∈ MsgDisplay.md_puts m w /\ length c = 12%nat /\
    if raced : bool then chain = c
    else chain = <[0%nat := MsgDisplay.tag w]> c /\ receiver = MsgDisplay.dest w.
Proof.
  intros Hr Hin. pose proof (MsgDisplay.di_got m (MsgDisplay.served_display_inv m Hr)) as Hg.
  rewrite Forall_forall in Hg. exact (Hg _ Hin).
Qed.

(** The chronometer shows 00:00:01 and then 00:00:02. *)
Definition one_second : MenageHmsh_tChain11 := [0; 48; 48; 58; 48; 48; 58; 48; 49; 32; 32; 32].
Definition two_seconds : MenageHmsh_tChain11 := [0; 48; 48; 58; 48; 48; 58; 48; 50; 32; 32; 32].

(** The steps of a put. *)
Definition put_calls (w : MsgDisplay.which) (c : MenageHmsh_tChain11) (m : MsgDisplay.display) : MsgDisplay.display :=
  MsgDisplay.MD (MsgDisplay.md_buf m) (<[w := MsgDisplay.PutCopy c]> (MsgDisplay.md_put m))
    (MsgDisplay.md_server m) (MsgDisplay.md_get m) (MsgDisplay.md_puts m) (MsgDisplay.md_got m).

(** A complete put, and a get up to the message. *)
Definition put_whole (w : MsgDisplay.which) (c : MenageHmsh_tChain11) (m : MsgDisplay.display) : MsgDisplay.display :=
  MsgDisplay.Display_send_if w (MsgDisplay.Display_mark w (MsgDisplay.Display_store w c (put_calls w c m))).

Definition get_sent (w : MsgDisplay.which) (m : MsgDisplay.display) : MsgDisplay.display :=
  MsgDisplay.MD (MsgDisplay.md_buf m) (MsgDisplay.md_put m) (MsgDisplay.DCheck w) (MsgDisplay.GetCopy w)
    (MsgDisplay.md_puts m) (MsgDisplay.md_got m).

Lemma put_calls_step w c m :
  MsgDisplay.md_put m w = MsgDisplay.PutIdle -> length c = 12%nat -> MsgDisplay.display_step m (put_calls w c m).
Proof. intros. now apply MsgDisplay.put_call. Qed.

Lemma put_whole_steps w c m :
  MsgDisplay.md_put m w = MsgDisplay.PutIdle -> length c = 12%nat ->
  rtc MsgDisplay.display_step m (put_whole w c m).
Proof.
  intros Hp Hc. eapply rtc_l; [now apply (put_calls_step w c)|].
  eapply rtc_l; [apply MsgDisplay.put_store; cbn; now rewrite fn_lookup_insert|].
  eapply rtc_l; [apply MsgDisplay.put_mark; cbn; now rewrite fn_lookup_insert|].
  apply rtc_once. apply MsgDisplay.put_send. cbn. now rewrite fn_lookup_insert.
Qed.

Lemma get_sent_steps w m :
  MsgDisplay.md_get m = MsgDisplay.GetIdle -> MsgDisplay.md_server m = MsgDisplay.DSend w ->
  rtc MsgDisplay.display_step m (get_sent w m).
Proof.
  intros Hg Hs. eapply rtc_l; [now apply MsgDisplay.get_call|]. apply rtc_once.
  match goal with |- MsgDisplay.display_step ?x _ => exact (MsgDisplay.get_message x w Hs eq_refl) end.
Qed.

(** The reader has the message of the first put; the second one has stored its
    chain and not marked it. *)
Definition waiting : MsgDisplay.display :=
  get_sent MsgDisplay.Times (put_whole MsgDisplay.Times one_second MsgDisplay.display_start).
Definition raced_copy : MsgDisplay.display :=
  MsgDisplay.Display_copy MsgDisplay.Times
    (MsgDisplay.Display_store MsgDisplay.Times two_seconds (put_calls MsgDisplay.Times two_seconds waiting)).
Definition plain_copy : MsgDisplay.display := MsgDisplay.Display_copy MsgDisplay.Times waiting.

Lemma waiting_reachable : rtc MsgDisplay.display_step MsgDisplay.display_start waiting.
Proof.
  etransitivity; [now apply (put_whole_steps MsgDisplay.Times one_second)|].
  now apply get_sent_steps.
Qed.

Lemma msg_display_shows_puts_witness :
  exists c, c ∈ MsgDisplay.md_puts plain_copy MsgDisplay.Times /\ length c = 12%nat /\
    <[0%nat := 116]> one_second = <[0%nat := 116]> c /\ destChrono = destChrono.
Proof.
  apply (msg_display_shows_puts plain_copy MsgDisplay.Times false destChrono (<[0%nat := 116]> one_second)).
  - eapply rtc_r; [apply waiting_reachable | now apply MsgDisplay.get_copy].
  - constructor.
Defined.

(** The message is a pointer to a buffer that is written again.  While the
    reader is about to copy the chain of a first [Display_PutTimes], a second one
    stores its chain, whose first character is not set; the reader copies it
    before it is marked and takes the time of the chronometer for the hour.  With
    the semaphores the two never overlap. *)
Theorem msg_display_misroutes :
  exists m, rtc MsgDisplay.display_step MsgDisplay.display_start m /\
    (MsgDisplay.Times, true, destClock, two_seconds) ∈ MsgDisplay.md_got m /\
    MsgDisplay.md_puts m MsgDisplay.Times = [one_second; two_seconds].
Proof.
  exists raced_copy. split; [|split; [constructor | reflexivity]].
  etransitivity; [apply waiting_reachable|].
  eapply rtc_l; [now apply (put_calls_step MsgDisplay.Times two_seconds)|].
  eapply rtc_l; [now apply (MsgDisplay.put_store _ MsgDisplay.Times two_seconds)|].
  apply rtc_once. now apply MsgDisplay.get_copy.
Qed.

(** ** The start *)

(** [ClockChrono_Read] of msg_clock/clock.c: [run] adds up, and the start is a
    message to each of the two tasks. *)
Definition Msg_ClockChrono_Read (key : Z) (v : read_vars) : read_vars * list read_act * bool :=
  let ch := toupper key in
  if (ch =? ch_T) || (ch =? ch_R) || (ch =? ch_H) || (ch =? ch_M) || (ch =? ch_S) then
    (v, [PutClock ch], true)
  else if (ch =? ch_C) || (ch =? ch_I) || (ch =? ch_E) then (v, [PutChrono ch], true)
  else if ch =? ch_N then (RDV (rd_run v) (Z.lnot (rd_hide v)) (rd_pause v), [], true)
  else if ch =? ch_P then (RDV (rd_run v) (rd_hide v) false, [SleepPaused], true)
  else if (ch =? ch_K) || (ch =? ch_D) then
    let run := u32 (rd_run v + ch) in
    (RDV run (rd_hide v) (rd_pause v),
     if run =? ch_K + ch_D then [SignalSync; SignalSync] else [], true)
  else if ch =? ch_F then (v, [PutChrono ch_F; PutClock ch_F], false)
  else (v, [], true).

(** The calls made for a sequence of keys. *)
Fixpoint keys_acts (f : Z -> read_vars -> read_vars * list read_act * bool) (keys : list Z) (v : read_vars)
    : list read_act :=
  match keys with
  | [] => []
  | k :: ks => let '(v', acts, on) := f k v in if on then acts ++ keys_acts f ks v' else acts
  end.

(** K and D start the clock in either order and version; when K comes twice
    before D, only the version with semaphores starts. *)
Lemma start_keys v :
  rd_run v = 0 ->
  keys_acts ClockChrono_Read [ch_K; ch_D] v = [SignalSync; SignalSync] /\
  keys_acts Msg_ClockChrono_Read [ch_D; ch_K] v = [SignalSync; SignalSync] /\
  keys_acts ClockChrono_Read [ch_K; ch_K; ch_D] v = [SignalSync; SignalSync] /\
  keys_acts Msg_ClockChrono_Read [ch_K; ch_K; ch_D] v = [].
Proof. destruct v as [r h p]. cbn. intros ->. split_and!; reflexivity. Qed.
