(* ===== verification/SkeletonDrivers.v ===== *)
(** * The RTDM tutorials (user/tutrtdm/tut01-skeleton-drv.c, tut02-skeleton-drv.c)

    Two devices with one buffer: a write stores bytes, a read returns them and
    erases the buffer.  In the first the buffer belongs to the opened device; in
    the second it is global and a semaphore makes a read wait for a write.  The
    copies to and from user space are services of RTDM: what they return, and how
    many bytes a failed copy from user space has moved, are arguments. *)

From stdpp Require Import base tactics numbers list relations.
From S2P Require Import Prelude.

Definition SIZE_MAX : Z := 1024.

(** [buffer_t]: [size] and [data], of [SIZE_MAX] characters. *)
Record buffer_t := BUF { size : Z; data : list Z }.

(** [(buffer->size > nbyte) ? nbyte : buffer->size], a comparison of
    [size_t] assigned to an [int]. *)
Definition read_size (b : buffer_t) (nbyte : Z) : Z :=
  i32 (if nbyte <? u32 (size b) then nbyte else u32 (size b)).

(** [(nbyte > SIZE_MAX) ? SIZE_MAX : nbyte] *)
Definition write_size (nbyte : Z) : Z := if SIZE_MAX <? nbyte then SIZE_MAX else nbyte.

(** [n] bytes of the caller's [buf] copied to the start of [data]. *)
Definition store (n : nat) (buf : list Z) (d : list Z) : list Z := take n buf ++ drop n d.

(** A copy of [n] bytes out of [data]; [None] when it reads outside. *)
Definition fetch (n : Z) (d : list Z) : option (list Z) :=
  if (n <? 0) || (Z.of_nat (length d) <? n) then None else Some (take (Z.to_nat n) d).

(** ** tut01: a buffer for each open *)

Module Tut01.

(** [simple_rtdm_open_nrt]: the context is as the allocator left it. *)
Definition simple_rtdm_open_nrt (b : buffer_t) : buffer_t * Z := (BUF 0 (data b), 0).

(** [simple_rtdm_read_nrt]: the buffer, the value returned, and the bytes that
    reached the caller if the copy succeeds ([copy_err] is 0).  [None] when it
    reads outside [data]. *)
Definition simple_rtdm_read_nrt (copy_err nbyte : Z) (b : buffer_t) : option (buffer_t * Z * list Z) :=
  let n := read_size b nbyte in
  match fetch n (data b) with
  | None => None
  | Some bytes => Some (BUF 0 (data b), n, if copy_err =? 0 then bytes else [])
  end.

(** [simple_rtdm_write_nrt]: a copy that fails has moved [moved] bytes. *)
Definition simple_rtdm_write_nrt (copy_err : Z) (moved : nat) (buf : list Z) (nbyte : Z) (b : buffer_t)
    : buffer_t * Z :=
  let n := write_size nbyte in
  let k := if copy_err =? 0 then Z.to_nat n else moved in
  (BUF n (store k buf (data b)), i32 nbyte).

End Tut01.

(** ** tut02: one buffer and a semaphore *)

Module Tut02.

Record device := DEV { buffer : buffer_t; sem : Z }.

(** [simple_rtdm_init] *)
Definition simple_rtdm_init (d : list Z) : device := DEV (BUF 0 d) 0.

(** How a read ends: it waits for the semaphore, it reads outside [data], or it
    returns a value, with the bytes copied. *)
Inductive read_out := R_wait | R_fault | R_ret (dv : device) (ret : Z) (bytes : list Z).

(** [simple_rtdm_read_rt] *)
Definition simple_rtdm_read_rt (copy_err nbyte : Z) (dv : device) : read_out :=
  if sem dv <=? 0 then R_wait
  else
    let b := buffer dv in
    let n := read_size b nbyte in
    match fetch n (data b) with
    | None => R_fault
    | Some bytes =>
        if negb (copy_err =? 0) then R_ret (DEV b (sem dv - 1)) copy_err []
        else R_ret (DEV (BUF 0 (data b)) (sem dv - 1)) n bytes
    end.

(** [simple_rtdm_write_rt] *)
Definition simple_rtdm_write_rt (copy_err : Z) (moved : nat) (buf : list Z) (nbyte : Z) (dv : device)
    : device * Z :=
  let n := write_size nbyte in
  if negb (copy_err =? 0) then (DEV (BUF n (store moved buf (data (buffer dv)))) (sem dv), copy_err)
  else (DEV (BUF n (store (Z.to_nat n) buf (data (buffer dv)))) (sem dv + 1), i32 nbyte).

(** The calls of any number of tasks, one after the other. *)
Inductive dev_step (dv : device) : device -> Prop :=
| step_read copy_err nbyte dv' ret bytes : 0 <= nbyte < 2 ^ 32 ->
    simple_rtdm_read_rt copy_err nbyte dv = R_ret dv' ret bytes -> dev_step dv dv'
| step_write copy_err moved buf nbyte : 0 <= nbyte < 2 ^ 32 -> Z.of_nat (length buf) = nbyte ->
    (Z.of_nat moved <= write_size nbyte) ->
    dev_step dv (simple_rtdm_write_rt copy_err moved buf nbyte dv).1.

End Tut02.

(** ** Facts *)

Record buf_ok (b : buffer_t) : Prop := {
  bo_size : 0 <= size b <= SIZE_MAX;
  bo_data : Z.of_nat (length (data b)) = SIZE_MAX
}.

Lemma write_size_range n : 0 <= n < 2 ^ 32 -> 0 <= write_size n <= SIZE_MAX /\ write_size n <= n.
Proof. unfold write_size, SIZE_MAX. intros. split_if; lia. Qed.

Lemma read_size_min b n : buf_ok b -> 0 <= n < 2 ^ 32 -> read_size b n = Z.min (size b) n.
Proof.
  intros [H _] Hn. unfold read_size, SIZE_MAX in *. rewrite (wrap_u_id 32 (size b)) by lia.
  destruct (Z.ltb_spec n (size b)); rewrite (wrap_s_id 32); lia.
Qed.

Lemma fetch_ok b n : buf_ok b -> 0 <= n < 2 ^ 32 ->
  fetch (read_size b n) (data b) = Some (take (Z.to_nat (Z.min (size b) n)) (data b)).
Proof.
  intros Hb Hn. rewrite read_size_min by assumption. destruct Hb as [H1 H2]. unfold fetch.
  rewrite (proj2 (Z.ltb_ge _ 0)), (proj2 (Z.ltb_ge _ _)) by lia. reflexivity.
Qed.

Lemma store_length k buf d :
  (k <= length buf)%nat -> (k <= length d)%nat -> length (store k buf d) = length d.
Proof. intros. unfold store. rewrite length_app, length_take, length_drop. lia. Qed.

Lemma take_store k n buf d : (n <= k)%nat -> (k <= length buf)%nat -> take n (store k buf d) = take n buf.
Proof. intros. unfold store. rewrite take_app_le by (rewrite length_take; lia). rewrite take_take. f_equal. lia. Qed.

(** A write leaves a well-formed buffer, whatever the copy did. *)
Lemma stored_ok k buf nbyte b :
  buf_ok b -> 0 <= nbyte < 2 ^ 32 -> Z.of_nat (length buf) = nbyte -> Z.of_nat k <= write_size nbyte ->
  buf_ok (BUF (write_size nbyte) (store k buf (data b))).
Proof.
  intros [H1 H2] Hn Hl Hk. destruct (write_size_range nbyte Hn). unfold SIZE_MAX in *.
  split; cbn; unfold SIZE_MAX; [lia|]. rewrite store_length by lia. exact H2.
Qed.

(** ** tut01 *)

(** A write and a read on an open device: the caller gets back the first bytes
    of what was written, as many as the buffer and the read allow, and the
    buffer is empty; the write claims that it took every byte. *)
Lemma tut01_roundtrip b buf m :
  buf_ok b -> Z.of_nat (length buf) < 2 ^ 31 -> 0 <= m < 2 ^ 32 ->
  let n := Z.of_nat (length buf) in
  exists b1, Tut01.simple_rtdm_write_nrt 0 0 buf n b = (b1, n) /\
    exists b2, Tut01.simple_rtdm_read_nrt 0 m b1 =
      Some (b2, Z.min (Z.min n SIZE_MAX) m, take (Z.to_nat (Z.min (Z.min n SIZE_MAX) m)) buf) /\
    buf_ok b2 /\ size b2 = 0.
Proof.
  intros Hb Hl Hm n. assert (Hn : 0 <= n < 2 ^ 32) by lia. destruct (write_size_range n Hn) as [Hw Hw'].
  assert (Ew : write_size n = Z.min n SIZE_MAX) by (unfold write_size, SIZE_MAX; split_if; lia).
  eexists. split; [unfold Tut01.simple_rtdm_write_nrt; cbn [Z.eqb]; rewrite (wrap_s_id 32 n) by lia; reflexivity|].
  assert (Hb1 : buf_ok (BUF (write_size n) (store (Z.to_nat (write_size n)) buf (data b))))
    by (apply stored_ok; try assumption; lia).
  unfold Tut01.simple_rtdm_read_nrt. rewrite fetch_ok, read_size_min by assumption. cbn [size data Z.eqb].
  eexists. rewrite take_store, <- Ew by lia. split; [reflexivity|]. split; [|reflexivity].
  destruct Hb1 as [_ H2]. split; [unfold SIZE_MAX; cbn; lia | exact H2].
Qed.

(** A copy that fails on the way in still sets the size: the next read returns
    what the buffer held before. *)
Lemma tut01_stale_read b buf m :
  buf_ok b -> Z.of_nat (length buf) < 2 ^ 31 -> 0 <= m < 2 ^ 32 ->
  let n := Z.of_nat (length buf) in
  exists b1 b2, Tut01.simple_rtdm_write_nrt (-14) 0 buf n b = (b1, n) /\
    Tut01.simple_rtdm_read_nrt 0 m b1 =
      Some (b2, Z.min (Z.min n SIZE_MAX) m, take (Z.to_nat (Z.min (Z.min n SIZE_MAX) m)) (data b)).
Proof.
  intros Hb Hl Hm n. assert (Hn : 0 <= n < 2 ^ 32) by lia.
  assert (Ew : write_size n = Z.min n SIZE_MAX) by (unfold write_size, SIZE_MAX; split_if; lia).
  do 2 eexists. split; [unfold Tut01.simple_rtdm_write_nrt; cbn [Z.eqb]; rewrite (wrap_s_id 32 n) by lia; reflexivity|].
  destruct (write_size_range n Hn) as [Hw Hw'].
  assert (Hb1 : buf_ok (BUF (write_size n) (store 0 buf (data b)))) by (apply stored_ok; try assumption; lia).
  unfold Tut01.simple_rtdm_read_nrt. rewrite fetch_ok, read_size_min by assumption. cbn [size data Z.eqb].
  now rewrite <- Ew.
Qed.

(** ** tut02 *)

Definition dev_ok (dv : Tut02.device) : Prop := buf_ok (Tut02.buffer dv) /\ 0 <= Tut02.sem dv.

Lemma dev_step_ok dv dv' : dev_ok dv -> Tut02.dev_step dv dv' -> dev_ok dv'.
Proof.
  intros [Hb Hs] [copy_err nbyte dv1 ret bytes Hn E|copy_err moved buf nbyte Hn Hl Hm].
  - unfold Tut02.simple_rtdm_read_rt in E. destruct (Z.leb_spec (Tut02.sem dv) 0); [discriminate|].
    rewrite fetch_ok in E by assumption. destruct (negb (copy_err =? 0)); injection E as <- _ _; split; cbn; try lia.
    + exact Hb.
    + destruct Hb as [_ H2]. split; [unfold SIZE_MAX; cbn; lia | exact H2].
  - unfold Tut02.simple_rtdm_write_rt. destruct (write_size_range nbyte Hn).
    destruct (negb (copy_err =? 0)); cbn; (split; cbn; [apply stored_ok; (assumption || lia) | lia]).
Qed.

(** No read of a reachable device goes outside the buffer, and none returns
    more than it was asked for. *)
Lemma tut02_read_bounds d dv copy_err nbyte :
  Z.of_nat (length d) = SIZE_MAX -> rtc Tut02.dev_step (Tut02.simple_rtdm_init d) dv -> 0 <= nbyte < 2 ^ 32 ->
  match Tut02.simple_rtdm_read_rt copy_err nbyte dv with
  | Tut02.R_wait => Tut02.sem dv = 0
  | Tut02.R_fault => False
  | Tut02.R_ret _ ret bytes => copy_err = 0 -> ret = Z.of_nat (length bytes) /\ ret <= nbyte /\ ret <= SIZE_MAX
  end.
Proof.
  intros Hd Hr Hn.
  assert (Hok : dev_ok dv).
  { revert Hr. apply rtc_invariant; [|intros a b; apply dev_step_ok].
    split; [split; cbn; [unfold SIZE_MAX; lia | exact Hd] | cbn; lia]. }
  destruct Hok as [Hb Hs]. unfold Tut02.simple_rtdm_read_rt.
  destruct (Z.leb_spec (Tut02.sem dv) 0); [lia|]. rewrite fetch_ok by assumption.
  destruct (Z.eqb_spec copy_err 0) as [->|Hc]; cbn [negb]; intros E; [|contradiction].
  rewrite read_size_min by assumption. destruct Hb as [H1 H2]. rewrite length_take. lia.
Qed.

(** The writes of [bufs], all of whose copies succeed. *)
Definition writes (bufs : list (list Z)) (dv : Tut02.device) : Tut02.device :=
  foldl (fun dv buf => (Tut02.simple_rtdm_write_rt 0 0 buf (Z.of_nat (length buf)) dv).1) dv bufs.

(** Reads until one has to wait, at most [k]: what each returns. *)
Fixpoint reads (k : nat) (nbyte : Z) (dv : Tut02.device) : list (list Z) * Tut02.device :=
  match k with
  | O => ([], dv)
  | S k' =>
      match Tut02.simple_rtdm_read_rt 0 nbyte dv with
      | Tut02.R_ret dv' _ bytes => let (l, dv'') := reads k' nbyte dv' in (bytes :: l, dv'')
      | _ => ([], dv)
      end
  end.

Lemma reads_ret k nbyte dv dv' ret bytes :
  Tut02.simple_rtdm_read_rt 0 nbyte dv = Tut02.R_ret dv' ret bytes ->
  reads (S k) nbyte dv = (bytes :: (reads k nbyte dv').1, (reads k nbyte dv').2).
Proof. intros E. cbn [reads]. rewrite E. now destruct (reads k nbyte dv'). Qed.

Lemma writes_state bufs dv :
  dev_ok dv -> Forall (fun buf => Z.of_nat (length buf) < 2 ^ 31) bufs ->
  dev_ok (writes bufs dv) /\ Tut02.sem (writes bufs dv) = Tut02.sem dv + Z.of_nat (length bufs) /\
  forall buf, last bufs = Some buf ->
    size (Tut02.buffer (writes bufs dv)) = Z.min (Z.of_nat (length buf)) SIZE_MAX /\
    take (Z.to_nat (Z.min (Z.of_nat (length buf)) SIZE_MAX)) (data (Tut02.buffer (writes bufs dv)))
      = take (Z.to_nat SIZE_MAX) buf.
Proof.
  intros Hd Hl. induction bufs as [|x bufs IH] using rev_ind.
  - cbn. split; [exact Hd|]. split; [lia | discriminate].
  - apply Forall_app in Hl as [Hl Hx]. apply Forall_cons in Hx as [Hx _].
    destruct (IH Hl) as (IH1 & IH2 & _). unfold writes in *. rewrite foldl_app. cbn [foldl].
    set (d := foldl _ dv bufs) in *. clearbody d.
    assert (Hn : 0 <= Z.of_nat (length x) < 2 ^ 32) by lia. destruct (write_size_range _ Hn) as [Hw Hw'].
    assert (Ew : write_size (Z.of_nat (length x)) = Z.min (Z.of_nat (length x)) SIZE_MAX)
      by (unfold write_size, SIZE_MAX; split_if; lia).
    split_and!.
    + apply (dev_step_ok d); [exact IH1|]. apply Tut02.step_write; try lia.
    + cbn. rewrite IH2, length_app. cbn. lia.
    + intros buf. rewrite last_snoc. intros [= <-]. cbn. rewrite Ew. split; [reflexivity|].
      rewrite take_store by lia. unfold SIZE_MAX in *.
      destruct (Z.le_ge_cases (Z.of_nat (length x)) 1024); [rewrite !take_ge by lia; reflexivity | f_equal; lia].
Qed.

(** Reads of an empty buffer return nothing, one for each unit. *)
Lemma reads_empty k n nbyte b :
  buf_ok b -> size b = 0 -> 0 <= nbyte < 2 ^ 32 -> (n <= k)%nat ->
  reads k nbyte (Tut02.DEV b (Z.of_nat n)) = (replicate n [], Tut02.DEV b 0).
Proof.
  intros Hb Hz Hn. revert n. induction k as [|k IH]; intros n Hk.
  - replace n with O by lia. reflexivity.
  - destruct n as [|n]; [reflexivity|]. cbn [reads]. unfold Tut02.simple_rtdm_read_rt. cbn [Tut02.sem Tut02.buffer].
    rewrite (proj2 (Z.leb_gt _ 0)) by lia. rewrite fetch_ok, Hz by assumption. rewrite Z.min_l by lia.
    cbn [Z.eqb negb Z.to_nat take]. replace (Z.of_nat (S n) - 1) with (Z.of_nat n) by lia.
    replace (BUF 0 (data b)) with b by (destruct b; cbn in Hz; now subst). rewrite IH by lia. reflexivity.
Qed.

(** A burst of writes.  Every write lets one read pass, but the buffer
    holds one message: after several writes, the first read returns the last
    message (its first 1024 bytes), the other reads return at once without a
    byte, and then a read waits. *)
Theorem tut02_burst dv bufs buf nbyte :
  dev_ok dv -> Tut02.sem dv = 0 -> Forall (fun b => Z.of_nat (length b) < 2 ^ 31) bufs ->
  last bufs = Some buf -> SIZE_MAX <= nbyte < 2 ^ 32 ->
  exists dv', reads (S (length bufs)) nbyte (writes bufs dv)
      = (take (Z.to_nat SIZE_MAX) buf :: replicate (length bufs - 1) [], dv') /\
    Tut02.simple_rtdm_read_rt 0 nbyte dv' = Tut02.R_wait.
Proof.
  intros Hd Hs Hl Hlast Hn. destruct (writes_state bufs dv Hd Hl) as (Hok & Hsem & Hbuf).
  destruct (Hbuf buf Hlast) as [Hz Ht]. rewrite Hs, Z.add_0_l in Hsem.
  set (d := writes bufs dv) in *. clearbody d. destruct Hok as [Hb _].
  assert (Hn' : 0 <= nbyte < 2 ^ 32) by (unfold SIZE_MAX in Hn; lia).
  destruct bufs as [|x bufs]; [discriminate|]. cbn [length] in *.
  assert (E : Tut02.simple_rtdm_read_rt 0 nbyte d =
    Tut02.R_ret (Tut02.DEV (BUF 0 (data (Tut02.buffer d))) (Z.of_nat (length bufs)))
      (read_size (Tut02.buffer d) nbyte) (take (Z.to_nat SIZE_MAX) buf)).
  { unfold Tut02.simple_rtdm_read_rt. rewrite (proj2 (Z.leb_gt _ 0)) by lia.
    rewrite fetch_ok by assumption. cbn [Z.eqb negb]. rewrite Hz, (Z.min_l (Z.min _ _)), Ht, Hsem by lia.
    do 2 f_equal. lia. }
  rewrite (reads_ret _ _ _ _ _ _ E). rewrite (reads_empty (S (length bufs))).
  - eexists. split; [cbn [fst snd]; rewrite Nat.sub_succ, Nat.sub_0_r; reflexivity | reflexivity].
  - destruct Hb as [_ H2]. split; [unfold SIZE_MAX; cbn; lia | exact H2].
  - reflexivity.
  - exact Hn'.
  - lia.
Qed.

Definition demo_device : Tut02.device := Tut02.simple_rtdm_init (replicate 1024 0).

Lemma tut02_burst_witness :
  exists dv', reads 3 2000 (writes [[1; 2; 3]; [7; 8]] demo_device) = ([[7; 8]; []], dv') /\
    Tut02.simple_rtdm_read_rt 0 2000 dv' = Tut02.R_wait.
Proof.
  apply (tut02_burst demo_device [[1; 2; 3]; [7; 8]] [7; 8] 2000).
  - split; [split; vm_compute; split; congruence | vm_compute; congruence].
  - reflexivity.
  - repeat (constructor; [cbn; lia|]). constructor.
  - reflexivity.
  - unfold SIZE_MAX. lia.
Defined.

(** A read whose copy fails keeps the bytes and gives up its unit of the
    semaphore: the next read waits though there are bytes to read. *)
Lemma tut02_failed_read dv nbyte :
  dev_ok dv -> Tut02.sem dv = 1 -> 0 <= nbyte < 2 ^ 32 ->
  exists dv', Tut02.simple_rtdm_read_rt (-14) nbyte dv = Tut02.R_ret dv' (-14) [] /\
    Tut02.buffer dv' = Tut02.buffer dv /\ Tut02.simple_rtdm_read_rt 0 nbyte dv' = Tut02.R_wait.
Proof.
  intros [Hb _] Hs Hn. unfold Tut02.simple_rtdm_read_rt. rewrite Hs. cbn [Z.leb Z.compare].
  rewrite fetch_ok by assumption. eexists. split; [reflexivity|]. split; reflexivity.
Qed.
