(* ===== verification/DemoDriver.v ===== *)
(** * The RTDM demonstration driver (user/i386/rtdmap/realtimedriver.c)

    A device with a buffer that can be mapped, a value set and read by ioctl, an
    event signalled by the timer interrupt, and reads and writes of a static
    buffer.  [TIMERINT] and [USEMMAP] are defined, as in inc.h.  The services of
    RTDM are modelled by what the driver holds of them (blocks, interrupt,
    event), and what they return is an argument. *)

From stdpp Require Import base tactics numbers list relations.
From S2P Require Import Prelude.
#[local] Open Scope cmonad_scope.

Definition BUFFER_SIZE : Z := 131072.
Definition BUFSIZE : Z := 17.
Definition EVENT_SIGNAL_COUNT : Z := 0.
Definition DD_EFAULT : Z := 14.
Definition DD_ENOTTY : Z := 25.

(** The device: the bytes of [buf] ([None] when it is not allocated),
    [mapped_user_addr] (0 for NULL), [timeout]; the globals [dummy_buffer],
    [events] and [ioctlvalue]; and what it holds: blocks of memory, the
    interrupt, the event, and whether the event is signalled. *)
Record demo := DEMO {
  dd_buf : option (Z -> Z); mapped_user_addr : Z; timeout : Z;
  dummy_buffer : list Z; events : Z; ioctlvalue : Z;
  dd_blocks : Z; dd_irq : Z; dd_event : Z; signalled : bool
}.

Inductive dd_fault :=
| D_NULL      (* access through NULL *)
| D_BUFFER    (* access outside buf *)
| D_FREE.     (* kfree of memory that is not allocated *)

Abbreviation dm := (M demo dd_fault).

Definition with_buf (b : option (Z -> Z)) (blocks : Z) (d : demo) : demo :=
  DEMO b (mapped_user_addr d) (timeout d) (dummy_buffer d) (events d) (ioctlvalue d)
       (dd_blocks d + blocks) (dd_irq d) (dd_event d) (signalled d).
Definition with_held (irq event : Z) (d : demo) : demo :=
  DEMO (dd_buf d) (mapped_user_addr d) (timeout d) (dummy_buffer d) (events d) (ioctlvalue d)
       (dd_blocks d) (dd_irq d + irq) (dd_event d + event) (signalled d).
Definition with_mapped (a t : Z) (d : demo) : demo :=
  DEMO (dd_buf d) a t (dummy_buffer d) (events d) (ioctlvalue d)
       (dd_blocks d) (dd_irq d) (dd_event d) (signalled d).
Definition with_value (v : Z) (d : demo) : demo :=
  DEMO (dd_buf d) (mapped_user_addr d) (timeout d) (dummy_buffer d) (events d) v
       (dd_blocks d) (dd_irq d) (dd_event d) (signalled d).
Definition with_events (n : Z) (s : bool) (d : demo) : demo :=
  DEMO (dd_buf d) (mapped_user_addr d) (timeout d) (dummy_buffer d) n (ioctlvalue d)
       (dd_blocks d) (dd_irq d) (dd_event d) s.
Definition with_dummy (l : list Z) (d : demo) : demo :=
  DEMO (dd_buf d) (mapped_user_addr d) (timeout d) l (events d) (ioctlvalue d)
       (dd_blocks d) (dd_irq d) (dd_event d) (signalled d).

(** ** The words of the buffer *)

(** The [int] at the offset [off] of a buffer of bytes. *)
Definition word_at (f : Z -> Z) (off : Z) : Z :=
  i32 (f off + 256 * f (off + 1) + 65536 * f (off + 2) + 16777216 * f (off + 3)).

(** [((int * )buf)[k]] *)
Definition read_word (k : Z) : dm Z := fun d =>
  match dd_buf d with
  | None => Fault D_NULL
  | Some f => if (0 <=? 4 * k) && (4 * k + 4 <=? BUFFER_SIZE) then OK (word_at f (4 * k)) d else Fault D_BUFFER
  end.

(** [*(int * )buf = v] *)
Definition write_first_word (v : Z) : dm unit := fun d =>
  match dd_buf d with
  | None => Fault D_NULL
  | Some f =>
      OK tt (with_buf (Some (fun off =>
        if (0 <=? off) && (off <? 4) then Z.shiftr (u32 v) (8 * off) mod 256 else f off)) 0 d)
  end.

(** ** Handlers *)

(** [demo_interrupt]: it is always propagated. *)
Definition demo_interrupt : dm unit :=
  modify (fun d => if EVENT_SIGNAL_COUNT <? events d then with_events 0 true d else d) ;;
  modify (fun d => with_events (i32 (events d + 1)) (signalled d) d).

(** [demo_open_rt]: [block] is what [kmalloc] returns ([None] for NULL), with
    the bytes it finds there, [irq_ret] what [rtdm_irq_request] returns. *)
Definition demo_open_rt (block : option (Z -> Z)) (irq_ret : Z) : dm Z :=
  modify (with_buf block (match block with Some _ => 1 | None => 0 end)) ;;
  write_first_word 1234 ;;
  modify (fun d => with_mapped 0 (timeout d) d) ;;
  if irq_ret <? 0 then ret irq_ret
  else
    modify (with_held 1 1) ;;
    modify (fun d => with_events (events d) false (with_mapped (mapped_user_addr d) 0 d)) ;;
    ret 0.

(** [kfree(my_context->buf)] *)
Definition kfree_buf : dm unit := fun d =>
  match dd_buf d with
  | Some _ => OK tt (with_buf None (-1) d)
  | None => Fault D_FREE
  end.

(** [demo_close_rt] *)
Definition demo_close_rt : dm Z :=
  let! _ := read_word 10 in
  kfree_buf ;;
  modify (with_held (-1) (-1)) ;;
  ret 0.

(** The requests of [demo_ioctl_rt].  For [MMAP]: the result of
    [rtdm_mmap_to_user] and the address; for the others, [arg], and whether the
    copy from or to the caller succeeds. *)
Inductive demo_request :=
| MMAP (err addr : Z) | GETVALUE (copied : bool) | SETVALUE (arg : Z) (user_word : option Z) | OTHER.

(** [demo_ioctl_rt]: the value returned and, for [GETVALUE], the word the
    caller gets; [user] when the caller is in user space. *)
Definition demo_ioctl_rt (user : bool) (request : demo_request) : dm (Z * option Z) :=
  match request with
  | MMAP err addr =>
      let! _ := read_word 0 in
      (if err =? 0 then modify (fun d => with_mapped addr (timeout d) d) else ret tt) ;;
      ret (0, None)
  | GETVALUE copied =>
      let! d := get in
      if user && negb copied then ret (- DD_EFAULT, None) else ret (0, Some (ioctlvalue d))
  | SETVALUE arg user_word =>
      if user then
        if u32 arg <? BUFFER_SIZE then
          let! v := read_word (u32 arg) in
          modify (with_value v) ;; ret (0, None)
        else
          match user_word with
          | None => ret (- DD_EFAULT, None)
          | Some v => modify (with_value v) ;; ret (0, None)
          end
      else ret (0, None)
  | OTHER => ret (- DD_ENOTTY, None)
  end.

(** Memory of the caller. *)
Definition mem := Z -> Z.

Definition put_bytes (addr : Z) (l : list Z) (m : mem) : mem := fun a =>
  if addr <=? a then default (m a) (l !! Z.to_nat (a - addr)) else m a.

(** [demo_read_rt]: [access] is the test of the [nbyte] bytes at [buf],
    [copied] whether [rtdm_copy_to_user] succeeds.  It waits for the event first;
    what the wait returns is lost. *)
Definition demo_read_rt (access copied : bool) (buf nbyte : Z) (m : mem) : dm (Z * mem) :=
  if nbyte =? 0 then ret (0, m)
  else if negb access then ret (- DD_EFAULT, m)
  else
    modify (fun d => with_events (events d) false d) ;;
    let! d := get in
    if copied then ret (BUFSIZE, put_bytes buf (take (Z.to_nat BUFSIZE) (dummy_buffer d)) m)
    else ret (- DD_EFAULT, m).

(** [demo_write_rt] *)
Definition demo_write_rt (access copied : bool) (buf nbyte : Z) (m : mem) : dm Z :=
  if nbyte =? 0 then ret 0
  else if negb access then ret (- DD_EFAULT)
  else if copied then
    modify (with_dummy (map (fun k => m (buf + Z.of_nat k)) (seq 0 (Z.to_nat BUFSIZE)))) ;; ret BUFSIZE
  else ret (- DD_EFAULT).

(** ** Facts *)

(** A write and a read of [BUFSIZE] bytes return what was written, whatever the
    size asked for. *)
Lemma demo_write_read d a b n1 n2 m m' :
  n1 <> 0 -> n2 <> 0 ->
  exists d1 d2 m2, demo_write_rt true true a n1 m d = OK BUFSIZE d1 /\
    demo_read_rt true true b n2 m' d1 = OK (BUFSIZE, m2) d2 /\
    (forall k, 0 <= k < BUFSIZE -> m2 (b + k) = m (a + k)) /\
    (forall x, x < b \/ b + BUFSIZE <= x -> m2 x = m' x).
Proof.
  intros H1 H2. unfold demo_write_rt, demo_read_rt.
  rewrite (proj2 (Z.eqb_neq n1 0) H1), (proj2 (Z.eqb_neq n2 0) H2). cbn [negb].
  do 3 eexists. split; [reflexivity|]. split; [reflexivity|]. cbn [dummy_buffer with_dummy with_events].
  set (l := map _ _). assert (Hl : length l = 17%nat) by reflexivity.
  rewrite take_ge by (rewrite Hl; reflexivity). unfold put_bytes, BUFSIZE. split.
  - intros k Hk. rewrite (proj2 (Z.leb_le _ _)) by lia. replace (b + k - b) with k by lia.
    unfold l. rewrite list_lookup_fmap, lookup_seq_lt by (change (Z.to_nat BUFSIZE) with 17%nat; lia).
    cbn. f_equal. lia.
  - intros x Hx. destruct (Z.leb_spec b x); [|reflexivity].
    rewrite lookup_ge_None_2 by lia. reflexivity.
Qed.

(** The bounds of the demonstration driver.  [SETVALUE] with a small
    argument takes it for the index of an [int] of the buffer, but compares it
    with the size in bytes: it is inside the buffer exactly for the first quarter
    of the indices it accepts.  A read writes [BUFSIZE] bytes to the caller,
    whatever the number asked for and checked. *)
Theorem demo_driver_bounds d f arg buf nbyte m :
  dd_buf d = Some f -> 0 <= arg < BUFFER_SIZE -> 0 < nbyte < BUFSIZE -> length (dummy_buffer d) = 17%nat ->
  (arg < BUFFER_SIZE / 4 ->
     demo_ioctl_rt true (SETVALUE arg None) d = OK (0, None) (with_value (word_at f (4 * arg)) d)) /\
  (BUFFER_SIZE / 4 <= arg -> demo_ioctl_rt true (SETVALUE arg None) d = Fault D_BUFFER) /\
  exists d' m', demo_read_rt true true buf nbyte m d = OK (BUFSIZE, m') d' /\
    forall k, nbyte <= k < BUFSIZE -> Some (m' (buf + k)) = dummy_buffer d !! Z.to_nat k.
Proof.
  intros Hf Ha Hn Hl. change (BUFFER_SIZE / 4) with 32768. unfold BUFFER_SIZE, BUFSIZE in *.
  assert (E : forall b, (0 <=? 4 * arg) && (4 * arg + 4 <=? 131072) = b ->
    demo_ioctl_rt true (SETVALUE arg None) d =
      if b then OK (0, None) (with_value (word_at f (4 * arg)) d) else Fault D_BUFFER).
  { intros b Hb. unfold demo_ioctl_rt, read_word, bind, modify, ret, BUFFER_SIZE. rewrite (wrap_u_id 32 arg) by lia.
    rewrite (proj2 (Z.ltb_lt _ _)) by lia. rewrite Hf, Hb. now destruct b. }
  split_and!.
  - intros Hi. apply (E true). apply andb_true_iff. split; apply Z.leb_le; lia.
  - intros Hi. apply (E false). apply andb_false_iff. right. apply Z.leb_gt. lia.
  - unfold demo_read_rt. rewrite (proj2 (Z.eqb_neq nbyte 0)) by lia. cbn [negb].
    do 2 eexists. split; [reflexivity|]. intros k Hk. cbn [dummy_buffer with_events].
    rewrite take_ge by (rewrite Hl; reflexivity).
    unfold put_bytes. rewrite (proj2 (Z.leb_le _ _)) by lia. replace (buf + k - buf) with k by lia.
    destruct (lookup_lt_is_Some_2 (dummy_buffer d) (Z.to_nat k)) as [x Hx]; [lia|]. now rewrite Hx.
Qed.

Definition demo_opened : demo :=
  DEMO (Some (fun _ => 7)) 0 0 (map Z.of_nat (seq 0 17)) 0 0 1 1 1 false.

Lemma demo_driver_bounds_witness :
  demo_ioctl_rt true (SETVALUE 40000 None) demo_opened = Fault D_BUFFER /\
  exists d' m', demo_read_rt true true 100 4 (fun _ => 0) demo_opened = OK (BUFSIZE, m') d' /\ Some (m' 110) = Some 10.
Proof.
  destruct (demo_driver_bounds demo_opened (fun _ => 7) 40000 100 4 (fun _ => 0)) as (_ & H1 & d' & m' & H2 & H3).
  - reflexivity.
  - unfold BUFFER_SIZE. lia.
  - unfold BUFSIZE. lia.
  - reflexivity.
  - split; [apply H1; vm_compute; congruence|]. exists d', m'. split; [exact H2|].
    apply (H3 10). unfold BUFSIZE. lia.
Defined.

(** Opening and closing give everything back; a failed request for the interrupt
    leaves the block behind, and a failed allocation is written through. *)
Lemma demo_open_close d f :
  dd_blocks d = 0 -> dd_irq d = 0 -> dd_event d = 0 ->
  (exists d1 d2, demo_open_rt (Some f) 0 d = OK 0 d1 /\ demo_close_rt d1 = OK 0 d2 /\
     dd_blocks d2 = 0 /\ dd_irq d2 = 0 /\ dd_event d2 = 0) /\
  (exists d1, demo_open_rt (Some f) (-16) d = OK (-16) d1 /\ dd_blocks d1 = 1) /\
  demo_open_rt None 0 d = Fault D_NULL.
Proof.
  intros H1 H2 H3. split_and!; [do 2 eexists | eexists | reflexivity].
  - split; [reflexivity|]. split; [reflexivity|]. cbn. rewrite H1, H2, H3. split_and!; reflexivity.
  - split; [reflexivity|]. cbn. now rewrite H1.
Qed.

(** The event is signalled from the second interrupt on. *)
Lemma demo_interrupt_signals d :
  0 <= events d < 2 ^ 31 - 1 ->
  exists d', demo_interrupt d = OK tt d' /\ 0 < events d' /\
    signalled d' = (signalled d || (0 <? events d)).
Proof.
  intros He. unfold demo_interrupt, bind, modify, EVENT_SIGNAL_COUNT. eexists. split; [reflexivity|].
  destruct (Z.ltb_spec 0 (events d)); cbn; rewrite (wrap_s_id 32) by lia;
    rewrite ?orb_true_r, ?orb_false_r; split; (lia || reflexivity).
Qed.
