(* ===== verification/Jepplin.v ===== *)
(** * The semaphore and message queue exercise (posix/user/jepplin.c)

    A starting task and [NUM_TASKS] others.  The others pass a token around a ring
    of semaphores, then meet the starting task at [sync_sem] and [prio_sem], then
    exchange messages with it.  The model starts when the barrier all of them wait
    at opens: the semaphores are initialised and the queues are open.

    A step is one call on a semaphore or a queue, or one section under [print_mtx]
    (every [DISPLAY] but the last is in one, and none waits inside).  A timed wait
    whose time is over finds the semaphore at 0 or the queue empty; which tasks
    run first is left open, so every order of the steps is covered. *)

From stdpp Require Import base functions tactics numbers list strings relations.
From S2P Require Import Prelude.

Definition JMAX_MSG_SIZE : nat := 10.

(** What is displayed. *)
Inductive shown :=
| D_name (k : nat)                    (* strs[task_no] *)
| D_newline
| D_sync                              (* sync_str *)
| D_sem_timeout (k : nat)
| D_sync_testing                      (* sync_str, "testing message queues" *)
| D_received (k : nat) (buf : string)
| D_mq_out (buf : string)
| D_mbx_timeout (k : nat)
| D_complete (k : nat)
| D_init_complete.

(** Where a task is in [task_code]: before each of its calls. *)
Inductive tpc :=
| TWait (i : nat) | TShow (i : nat) | TLine (i : nat) | TPost (i : nat)
| TSync | TPrio | TName | TTimed | TTimeout | TSync2
| TReceive | TGot (buf : string) | TSend | TSync3 | TTimedReceive | TLate | TComplete | TEnd.

(** Where the starting task is in [start_task_code]. *)
Inductive spc :=
| SPost | SCollect (i : nat) | SSync | SPrio (i : nat) | SLine | SCollect2 (i : nat) | STesting
| SSend (i : nat) | SReceive (i : nat) | SGot (i : nat) (buf : string) | SRelease (i : nat)
| SLine2 | SJoin (i : nat) | SComplete | SEnd.

(** The globals and the tasks; [stolen] counts the timed waits on [prio_sem] that
    did not time out. *)
Record ring := RING {
  sems : list Z; sync_sem : Z; prio_sem : Z;
  mq_in : list string; mq_out : list string;
  tasks : list tpc; start : spc;
  log : list shown; stolen : Z
}.

Definition add_sem (k : nat) (d : Z) (s : ring) : ring :=
  RING (alter (fun v => v + d) k (sems s)) (sync_sem s) (prio_sem s) (mq_in s) (mq_out s) (tasks s) (start s)
       (log s) (stolen s).
Definition add_sync (d : Z) (s : ring) : ring :=
  RING (sems s) (sync_sem s + d) (prio_sem s) (mq_in s) (mq_out s) (tasks s) (start s) (log s) (stolen s).
Definition add_prio (d : Z) (s : ring) : ring :=
  RING (sems s) (sync_sem s) (prio_sem s + d) (mq_in s) (mq_out s) (tasks s) (start s) (log s) (stolen s).
Definition set_in (q : list string) (s : ring) : ring :=
  RING (sems s) (sync_sem s) (prio_sem s) q (mq_out s) (tasks s) (start s) (log s) (stolen s).
Definition set_out (q : list string) (s : ring) : ring :=
  RING (sems s) (sync_sem s) (prio_sem s) (mq_in s) q (tasks s) (start s) (log s) (stolen s).
Definition goto (k : nat) (t : tpc) (s : ring) : ring :=
  RING (sems s) (sync_sem s) (prio_sem s) (mq_in s) (mq_out s) (<[k := t]> (tasks s)) (start s) (log s) (stolen s).
Definition start_goto (p : spc) (s : ring) : ring :=
  RING (sems s) (sync_sem s) (prio_sem s) (mq_in s) (mq_out s) (tasks s) p (log s) (stolen s).
Definition DISPLAY (d : shown) (s : ring) : ring :=
  RING (sems s) (sync_sem s) (prio_sem s) (mq_in s) (mq_out s) (tasks s) (start s) (log s ++ [d]) (stolen s).
Definition steal (s : ring) : ring :=
  RING (sems s) (sync_sem s) (prio_sem s - 1) (mq_in s) (mq_out s) (tasks s) (start s) (log s) (stolen s + 1).

Section Tasks.

(** The names, [strs] in the source; [NUM_TASKS] is their number. *)
Context (strs : list string).

Definition NUM_TASKS : nat := length strs.

(** A message longer than [mq_msgsize] is refused at once. *)
Definition fits (m : string) : bool := (String.length m + 1 <=? JMAX_MSG_SIZE)%nat.

(** [mq_send] on a queue of [mq_maxmsg] = [NUM_TASKS] places; [None] when it waits. *)
Definition mq_send (m : string) (q : list string) : option (list string) :=
  if negb (fits m) then Some q
  else if (length q <? NUM_TASKS)%nat then Some (q ++ [m]) else None.

Definition name (k : nat) : string := default EmptyString (strs !! k).

(** The next step of the task [k]; [None] when it waits or has ended.  The
    [mq_close] of its two descriptors, which nobody else uses, is part of the step
    after the timed receive. *)
Definition task_code (k : nat) (s : ring) : option ring :=
  match tasks s !! k with
  | None => None
  | Some t =>
    match t with
    | TWait i =>
        match sems s !! k with
        | Some v => if 0 <? v then Some (goto k (TShow i) (add_sem k (-1) s)) else None
        | None => None
        end
    | TShow i =>
        Some (goto k (if (k =? NUM_TASKS - 1)%nat then TLine i else TPost i) (DISPLAY (D_name k) s))
    | TLine i => Some (goto k (TPost i) (DISPLAY D_newline s))
    | TPost i =>
        Some (goto k (if (S i <? 5)%nat then TWait (S i) else TSync)
                (add_sem ((k + 1) mod NUM_TASKS)%nat 1 s))
    | TSync => Some (goto k TPrio (add_sync 1 s))
    | TPrio => if 0 <? prio_sem s then Some (goto k TName (add_prio (-1) s)) else None
    | TName => Some (goto k TTimed (DISPLAY (D_name k) s))
    | TTimed => Some (goto k TTimeout (if 0 <? prio_sem s then steal s else s))
    | TTimeout => Some (goto k TSync2 (DISPLAY (D_sem_timeout k) s))
    | TSync2 => Some (goto k TReceive (add_sync 1 s))
    | TReceive => match mq_in s with [] => None | b :: q => Some (goto k (TGot b) (set_in q s)) end
    | TGot b => Some (goto k TSend (DISPLAY (D_received k b) s))
    | TSend => match mq_send (name k) (mq_out s) with
               | Some q => Some (goto k TSync3 (set_out q s))
               | None => None
               end
    | TSync3 => if 0 <? sync_sem s then Some (goto k TTimedReceive (add_sync (-1) s)) else None
    | TTimedReceive => match mq_in s with
                       | [] => Some (goto k TLate s)
                       | _ :: q => Some (goto k TComplete (set_in q s))
                       end
    | TLate => Some (goto k TComplete (DISPLAY (D_mbx_timeout k) s))
    | TComplete => Some (goto k TEnd (DISPLAY (D_complete k) s))
    | TEnd => None
    end
  end.

(** The next turn of a loop of the starting task, or what follows the loop. *)
Definition turn (pc : nat -> spc) (i : nat) (after : spc) : spc :=
  if (S i <? NUM_TASKS)%nat then pc (S i) else after.

(** The next step of the starting task. *)
Definition start_task_code (s : ring) : option ring :=
  match start s with
  | SPost => Some (start_goto (SCollect 0) (add_sem 0 1 s))
  | SCollect i =>
      if 0 <? sync_sem s then Some (start_goto (turn SCollect i SSync) (add_sync (-1) s)) else None
  | SSync => Some (start_goto (SPrio 0) (DISPLAY D_sync s))
  | SPrio i => Some (start_goto (turn SPrio i SLine) (add_prio 1 s))
  | SLine => Some (start_goto (SCollect2 0) (DISPLAY D_newline s))
  | SCollect2 i =>
      if 0 <? sync_sem s then Some (start_goto (turn SCollect2 i STesting) (add_sync (-1) s)) else None
  | STesting => Some (start_goto (SSend 0) (DISPLAY D_sync_testing s))
  | SSend i => match mq_send (name i) (mq_in s) with
               | Some q => Some (start_goto (turn SSend i (SReceive 0)) (set_in q s))
               | None => None
               end
  | SReceive i => match mq_out s with [] => None | b :: q => Some (start_goto (SGot i b) (set_out q s)) end
  | SGot i b => Some (start_goto (turn SReceive i (SRelease 0)) (DISPLAY (D_mq_out b) s))
  | SRelease i => Some (start_goto (turn SRelease i SLine2) (add_sync 1 s))
  | SLine2 => Some (start_goto (SJoin 0) (DISPLAY D_newline s))
  | SJoin i => match tasks s !! i with
               | Some TEnd => Some (start_goto (turn SJoin i SComplete) s)
               | _ => None
               end
  | SComplete => Some (start_goto SEnd (DISPLAY D_init_complete s))
  | SEnd => None
  end.

Inductive ring_step (s s' : ring) : Prop :=
| step_task k : task_code k s = Some s' -> ring_step s s'
| step_start : start_task_code s = Some s' -> ring_step s s'.

(** The state after the barrier. *)
Definition ring_start : ring :=
  RING (replicate NUM_TASKS 0) 0 0 [] [] (replicate NUM_TASKS (TWait 0)) SPost [] 0.

(** Everything is done. *)
Definition finished (s : ring) : Prop := start s = SEnd /\ Forall (eq TEnd) (tasks s).

(** A run by a given order of the tasks; [None] is the starting task. *)
Definition scheduled (c : option nat) (s : ring) : option ring :=
  match c with Some k => task_code k s | None => start_task_code s end.

Fixpoint run_ring (l : list (option nat)) (s : ring) : option ring :=
  match l with
  | [] => Some s
  | c :: l => match scheduled c s with Some s => run_ring l s | None => None end
  end.

Lemma run_ring_rtc l s s' : run_ring l s = Some s' -> rtc ring_step s s'.
Proof.
  revert s. induction l as [|c l IH]; cbn; intros s E; [injection E as <-; constructor|].
  destruct (scheduled c s) as [s1|] eqn:E1; [|discriminate]. apply rtc_l with s1; [|now apply IH].
  destruct c as [k|]; [exact (step_task _ _ k E1) | exact (step_start _ _ E1)].
Qed.

End Tasks.

(** [strs] *)
Definition jepplin_strs : list string := ["Joey "; "Johnny "; "Dee Dee "; "Marky "]%string.
