(* ===== verification/JepplinFacts.v ===== *)
(** * The semaphore and message queue exercise: invariants

    How far the tasks are accounts for the semaphores and the queues; where the
    token is accounts for the ring and for what has been displayed. *)

From stdpp Require Import base functions tactics numbers list strings relations.
From S2P Require Import Prelude Jepplin.

(** ** How far tasks are *)

Definition trank (t : tpc) : Z :=
  match t with
  | TWait _ | TShow _ | TLine _ | TPost _ => 0
  | TSync => 1 | TPrio => 2 | TName => 3 | TTimed => 4 | TTimeout => 5 | TSync2 => 6
  | TReceive => 7 | TGot _ => 8 | TSend => 9 | TSync3 => 10 | TTimedReceive => 11
  | TLate => 12 | TComplete => 13 | TEnd => 14
  end.

Definition beyond (r : Z) (t : tpc) : Z := if r <? trank t then 1 else 0.

(** The number of tasks that are beyond the point [r]. *)
Definition past (r : Z) (l : list tpc) : Z := sumZ (beyond r) l.

Lemma past_goto r k t t' l : l !! k = Some t -> past r (<[k := t']> l) = past r l - beyond r t + beyond r t'.
Proof. apply sumZ_insert. Qed.

Lemma beyond_range r t : 0 <= beyond r t <= 1.
Proof. unfold beyond. destruct (r <? trank t); lia. Qed.

Lemma past_range r l : 0 <= past r l <= Z.of_nat (length l).
Proof.
  unfold past. induction l as [|t l IH]; [unfold sumZ; simpl; lia|]. rewrite sumZ_cons. cbn [length].
  pose proof (beyond_range r t). lia.
Qed.

Lemma past_mono r r' l : r <= r' -> past r' l <= past r l.
Proof.
  intros Hr. unfold past. induction l as [|t l IH]; [unfold sumZ; simpl; lia|]. rewrite !sumZ_cons.
  assert (beyond r' t <= beyond r t); [|lia].
  unfold beyond. destruct (Z.ltb_spec r' (trank t)), (Z.ltb_spec r (trank t)); lia.
Qed.

(** When all are beyond a point, each is. *)
Lemma past_all r l k t : past r l = Z.of_nat (length l) -> l !! k = Some t -> r < trank t.
Proof.
  unfold past. revert k. induction l as [|x l IH]; intros k E H; [discriminate|].
  rewrite sumZ_cons in E. cbn [length] in E. pose proof (past_range r l) as Hp. unfold past in Hp.
  pose proof (beyond_range r x). destruct k as [|k].
  - injection H as ->. assert (E1 : beyond r t = 1) by lia. unfold beyond in E1.
    destruct (Z.ltb_spec r (trank t)); [assumption | discriminate].
  - apply (IH k); [lia | assumption].
Qed.

(** A task that is not beyond [r] is not counted. *)
Lemma past_some r l k t : l !! k = Some t -> trank t <= r -> past r l < Z.of_nat (length l).
Proof.
  intros H Hr. destruct (Z.lt_ge_cases (past r l) (Z.of_nat (length l))) as [|Hge]; [assumption|].
  pose proof (past_range r l). assert (E : past r l = Z.of_nat (length l)) by lia.
  pose proof (past_all r l k t E H). lia.
Qed.

Lemma past_least r l k t : 0 <= r -> l !! k = Some t -> r < trank t -> 0 < past r l.
Proof.
  intros H0 H Hr. pose proof (past_goto r k t (TWait 0) l H) as E.
  pose proof (past_range r (<[k := TWait 0]> l)). unfold beyond in E.
  rewrite (proj2 (Z.ltb_lt _ _) Hr) in E. cbn [trank] in E.
  rewrite (proj2 (Z.ltb_ge _ _) H0) in E. lia.
Qed.

(** When fewer than all are beyond [r], some task is not. *)
Lemma past_missing r l : past r l < Z.of_nat (length l) -> exists k t, l !! k = Some t /\ trank t <= r.
Proof.
  unfold past. induction l as [|x l IH]; [unfold sumZ; simpl; lia|]. rewrite sumZ_cons. cbn [length]. intros H.
  destruct (Z.le_gt_cases (trank x) r) as [Hx|Hx]; [exists O, x; now split|].
  destruct IH as (k & t & Hk & Ht); [|now exists (S k), t].
  unfold beyond at 1 in H. rewrite (proj2 (Z.ltb_lt _ _) Hx) in H. lia.
Qed.

(** ** How far the starting task is *)

(** What the numbers of tasks beyond the points of interest satisfy. *)
Ltac pasts l :=
  pose proof (past_range 1 l); pose proof (past_range 10 l);
  pose proof (past_mono 1 2 l ltac:(lia)); pose proof (past_mono 2 6 l ltac:(lia));
  pose proof (past_mono 6 7 l ltac:(lia)); pose proof (past_mono 7 9 l ltac:(lia));
  pose proof (past_mono 9 10 l ltac:(lia)).

(** The effect of a step of the task [k] on those numbers. *)
Ltac step_past Hk :=
  rewrite ?(past_goto _ _ _ _ _ Hk);
  cbv [beyond trank Z.ltb Z.compare Pos.compare Pos.compare_cont].

Section Ring.
Context (strs : list string).

Definition N : Z := Z.of_nat (NUM_TASKS strs).

Definition collected1 (p : spc) : Z :=
  match p with SPost => 0 | SCollect i => Z.of_nat i | _ => N end.
Definition posted (p : spc) : Z :=
  match p with SPost | SCollect _ | SSync => 0 | SPrio i => Z.of_nat i | _ => N end.
Definition collected2 (p : spc) : Z :=
  match p with
  | SPost | SCollect _ | SSync | SPrio _ | SLine => 0
  | SCollect2 i => Z.of_nat i | _ => N
  end.
Definition sent (p : spc) : Z :=
  match p with
  | SPost | SCollect _ | SSync | SPrio _ | SLine | SCollect2 _ | STesting => 0
  | SSend i => Z.of_nat i | _ => N
  end.
Definition received (p : spc) : Z :=
  match p with
  | SPost | SCollect _ | SSync | SPrio _ | SLine | SCollect2 _ | STesting | SSend _ => 0
  | SReceive i => Z.of_nat i | SGot i _ => Z.of_nat i + 1 | _ => N
  end.
Definition released (p : spc) : Z :=
  match p with SRelease i => Z.of_nat i | SLine2 | SJoin _ | SComplete | SEnd => N | _ => 0 end.

(** The counters of the loops are in range. *)
Definition spc_ok (p : spc) : Prop :=
  match p with
  | SCollect i | SPrio i | SCollect2 i | SSend i | SReceive i | SGot i _ | SRelease i | SJoin i =>
      (i < NUM_TASKS strs)%nat
  | _ => True
  end.

(** The counter of the rounds is in range. *)
Definition tpc_ok (t : tpc) : Prop :=
  match t with TWait i | TShow i | TLine i | TPost i => (i < 5)%nat | _ => True end.

(** ** Counting *)

Record counted (s : ring) : Prop := {
  ct_tasks : length (tasks s) = NUM_TASKS strs;
  ct_rounds : Forall tpc_ok (tasks s);
  ct_start : spc_ok (start s);
  ct_sync : sync_sem s = past 1 (tasks s) + past 6 (tasks s) - past 10 (tasks s)
                         + released (start s) - collected1 (start s) - collected2 (start s);
  ct_sync_pos : 0 <= sync_sem s;
  ct_prio : prio_sem s = posted (start s) - past 2 (tasks s) - stolen s;
  ct_prio_pos : 0 <= prio_sem s;
  ct_stolen : 0 <= stolen s;
  ct_in : Z.of_nat (length (mq_in s)) = sent (start s) - past 7 (tasks s);
  ct_out : Z.of_nat (length (mq_out s)) = past 9 (tasks s) - received (start s);
  ct_first : collected1 (start s) = N -> past 1 (tasks s) = N;
  ct_second : collected2 (start s) = N -> past 6 (tasks s) = N
}.

Context (strs_fit : forallb fits strs = true).

Lemma send_eq k q q' : (k < NUM_TASKS strs)%nat -> mq_send strs (name strs k) q = Some q' ->
  q' = q ++ [name strs k].
Proof.
  intros Hk. unfold mq_send, name. destruct (lookup_lt_is_Some_2 strs k Hk) as [m Hm]. rewrite Hm. cbn [from_option id].
  rewrite forallb_forall in strs_fit. rewrite (strs_fit m) by (apply list_elem_of_In, (list_elem_of_lookup_2 _ _ _ Hm)).
  cbn [negb]. destruct (length q <? NUM_TASKS strs)%nat; congruence.
Qed.

(** A task that waits to be released has been told so after all messages. *)
Lemma counted_released s : counted s -> 0 < past 10 (tasks s) -> mq_in s = [].
Proof.
  intros [Ht Hro Hp Hsy Hsy0 Hpr Hpr0 Hst Hi Ho H1 H2] H. pasts (tasks s). rewrite Ht in *. fold N in *.
  assert (E : Z.of_nat (length (mq_in s)) = 0); [|destruct (mq_in s); [reflexivity | cbn in E; lia]].
  destruct (start s) eqn:Es; cbn in *; try lia.
Qed.

Lemma task_lookup s k t : counted s -> tasks s !! k = Some t -> (k < NUM_TASKS strs)%nat.
Proof. intros Hc Hk. rewrite <- (ct_tasks s Hc). exact (lookup_lt_Some _ _ _ Hk). Qed.

Ltac simpl_queue := match goal with H : mq_in _ = [] |- context [mq_in _] => rewrite H | _ => idtac end.

(** One step of a task: the invariant follows by counting. *)
Ltac counted_step Hk :=
  split; cbn -[past]; step_past Hk; simpl_queue; rewrite ?length_insert, ?length_app; cbn [length]; try lia; try assumption;
  intros; try lia.

Lemma task_counted k s s' : counted s -> task_code strs k s = Some s' -> counted s'.
Proof.
  intros Hc E. unfold task_code in E. destruct (tasks s !! k) as [t|] eqn:Hk; [|discriminate].
  pose proof (task_lookup s k t Hc Hk) as Hlt. pose proof (counted_released s Hc) as Hrel.
  assert (Hok : tpc_ok t) by exact (proj1 (Forall_lookup tpc_ok (tasks s)) (ct_rounds s Hc) k t Hk).
  pose proof (past_least 10 (tasks s) k t ltac:(lia) Hk) as H10.
  pose proof (past_some 1 (tasks s) k t Hk) as Hs1. pose proof (past_some 6 (tasks s) k t Hk) as Hs6.
  destruct Hc as [Ht Hro Hp Hsy Hsy0 Hpr Hpr0 Hst Hi Ho H1 H2]. pasts (tasks s). rewrite Ht in *. fold N in *.
  destruct t; repeat case_match; simplify_eq;
    repeat match goal with
    | H : (_ <? _) = true |- _ => apply Z.ltb_lt in H
    | H : mq_send _ _ _ = Some _ |- _ => apply send_eq in H; [subst|assumption]
    end; cbn [trank length] in *; try discriminate (Hrel (H10 ltac:(lia))).
  all: counted_step Hk; try (apply Forall_insert; [assumption | exact I || exact Hok || now apply Nat.ltb_lt]).
Qed.

(** A turn of a loop: the counter is in range and counts the turns. *)
Lemma turn_cases (pc : nat -> spc) i after :
  (i < NUM_TASKS strs)%nat ->
  ((S i < NUM_TASKS strs)%nat /\ turn strs pc i after = pc (S i)) \/
  (Z.of_nat i + 1 = N /\ turn strs pc i after = after).
Proof.
  intros Hi. unfold turn, N. destruct (Nat.ltb_spec (S i) (NUM_TASKS strs)); [left | right]; split; try lia; reflexivity.
Qed.

Context (strs_some : (0 < NUM_TASKS strs)%nat).

Lemma start_counted s s' : counted s -> start_task_code strs s = Some s' -> counted s'.
Proof.
  intros Hc E. destruct Hc as [Ht Hro Hp Hsy Hsy0 Hpr Hpr0 Hst Hi Ho H1 H2]. unfold start_task_code in E.
  pasts (tasks s). rewrite Ht in *. fold N in *. assert (0 < N) by (unfold N; lia).
  destruct (start s) eqn:Es; cbn in Hp, Hsy, Hpr, Hi, Ho, H1, H2; repeat case_match; simplify_eq;
    repeat match goal with
    | H : (_ <? _) = true |- _ => apply Z.ltb_lt in H
    | H : mq_send _ _ _ = Some _ |- _ => apply send_eq in H; [subst|assumption]
    | |- context [turn strs ?pc ?i ?a] => destruct (turn_cases pc i a Hp) as [[? ->]|[? ->]]
    end.
  all: split; cbn -[past]; rewrite ?length_app; cbn [length] in *; try assumption; try lia; intros; try lia.
Qed.

Lemma start_state_counted : counted (ring_start strs).
Proof.
  assert (E : forall r n, 0 <= r -> past r (replicate n (TWait 0)) = 0).
  { intros r n Hr. unfold past. induction n as [|n IH]; [reflexivity|]. cbn [replicate]. rewrite sumZ_cons, IH.
    unfold beyond. cbn [trank]. now rewrite (proj2 (Z.ltb_ge _ _) Hr). }
  assert (0 < N) by (unfold N; lia).
  split; cbn -[past]; rewrite ?E, ?length_replicate by lia; try (lia || exact I || reflexivity).
  apply Forall_replicate. cbn. lia.
Qed.

Lemma step_counted s s' : counted s -> ring_step strs s s' -> counted s'.
Proof. intros Hc [k E|E]; [exact (task_counted k s s' Hc E) | exact (start_counted s s' Hc E)]. Qed.

End Ring.
