(* ===== verification/JepplinToken.v ===== *)
(** * The semaphore and message queue exercise: the token of the ring

    At any time the token is in one semaphore or held by one task, the number of
    times it has been passed says which, and what has been displayed is the text
    of the rounds so far. *)

From stdpp Require Import base functions tactics numbers list strings relations.
From S2P Require Import Prelude Jepplin JepplinFacts.

Section Token.
Context (strs : list string).
Context (strs_fit : forallb fits strs = true) (strs_some : (0 < NUM_TASKS strs)%nat).

Local Abbreviation NT := (NUM_TASKS strs).

(** How many rounds the task [k] has done when the token was passed [n] times. *)
Definition rounds (n k : nat) : nat := (n / NT + if k <? n mod NT then 1 else 0)%nat.

(** What one round of the task [k] displays, and the text of [n] of them. *)
Definition round_text (k : nat) : list shown := D_name k :: (if (k =? NT - 1)%nat then [D_newline] else []).
Definition ring_text (n : nat) : list shown := concat (map (fun m => round_text (m mod NT)%nat) (seq 0 n)).

Lemma rounds_S n k : (k < NT)%nat -> rounds (S n) k = (rounds n k + if (k =? n mod NT)%nat then 1 else 0)%nat.
Proof.
  intros Hk. unfold rounds. pose proof (Nat.div_mod_eq n NT) as E. pose proof (Nat.mod_upper_bound n NT ltac:(lia)).
  destruct (Nat.eq_dec (S (n mod NT)) NT) as [Hl|Hl].
  - rewrite <- (Nat.div_unique (S n) NT (S (n / NT)) 0) by lia.
    rewrite <- (Nat.mod_unique (S n) NT (S (n / NT)) 0) by lia.
    destruct (Nat.ltb_spec k (n mod NT)), (Nat.eqb_spec k (n mod NT)); cbn [Nat.ltb Nat.leb]; lia.
  - rewrite <- (Nat.div_unique (S n) NT (n / NT) (S (n mod NT))) by lia.
    rewrite <- (Nat.mod_unique (S n) NT (n / NT) (S (n mod NT))) by lia.
    destruct (Nat.ltb_spec k (n mod NT)), (Nat.eqb_spec k (n mod NT)), (Nat.ltb_spec k (S (n mod NT))); lia.
Qed.

Lemma rounds_holder n : rounds n (n mod NT) = (n / NT)%nat.
Proof. unfold rounds. rewrite Nat.ltb_irrefl. lia. Qed.

Lemma rounds_open n : (n / NT < 5 <-> n < 5 * NT)%nat.
Proof. split; intros H; [|apply Nat.Div0.div_lt_upper_bound; lia]. pose proof (Nat.div_mod_eq n NT). pose proof (Nat.mod_upper_bound n NT). nia. Qed.

Lemma ring_text_S n : ring_text (S n) = ring_text n ++ round_text (n mod NT).
Proof. unfold ring_text. rewrite seq_S, map_app, concat_app. cbn. now rewrite app_nil_r. Qed.

Lemma mod_succ n : ((n mod NT + 1) mod NT = S n mod NT)%nat.
Proof. rewrite Nat.Div0.add_mod_idemp_l. f_equal. lia. Qed.

(** A task that does not hold the token. *)
Definition at_rest (n k : nat) (t : tpc) : Prop :=
  if (rounds n k <? 5)%nat then t = TWait (rounds n k) else 0 < trank t.

Definition logged (n : nat) (s : ring) : Prop :=
  if (n <? 5 * NT)%nat then log s = ring_text n else exists rest, log s = ring_text n ++ rest.

(** The holder of the token, and what is displayed. *)
Definition holding (n : nat) (t : tpc) (s : ring) : Prop :=
  let h := (n mod NT)%nat in
  t = TShow (n / NT) /\ log s = ring_text n \/
  t = TLine (n / NT) /\ (h =? NT - 1)%nat = true /\ log s = ring_text n ++ [D_name h] \/
  t = TPost (n / NT) /\ log s = ring_text (S n).

Inductive token (s : ring) : Prop :=
| token_unposted :
    start s = SPost -> sems s = replicate NT 0 -> log s = [] ->
    (forall k t, tasks s !! k = Some t -> at_rest 0 k t) -> token s
| token_in_sem n :
    start s <> SPost -> (n <= 5 * NT)%nat -> sems s = <[(n mod NT)%nat := 1]> (replicate NT 0) ->
    (forall k t, tasks s !! k = Some t -> at_rest n k t) -> logged n s -> token s
| token_held n t :
    start s <> SPost -> (n < 5 * NT)%nat -> sems s = replicate NT 0 ->
    tasks s !! (n mod NT)%nat = Some t -> holding n t s ->
    (forall k t, k <> (n mod NT)%nat -> tasks s !! k = Some t -> at_rest n k t) -> token s.

(** ** Steps that leave the ring alone *)

(** Once all tasks have left the ring, the token has been passed as often as
    there are rounds. *)
Lemma token_done s n :
  counted strs s -> past 1 (tasks s) = N strs ->
  (forall k t, tasks s !! k = Some t -> at_rest n k t) -> ~ (n < 5 * NT)%nat.
Proof.
  intros Hc Hp Hr Hn. rewrite <- rounds_open in Hn.
  destruct (lookup_lt_is_Some_2 (tasks s) (NT - 1)) as [t Ht]; [rewrite (ct_tasks _ _ Hc); lia|].
  pose proof (Hr _ _ Ht) as H. pose proof (Nat.mod_upper_bound n NT ltac:(lia)).
  unfold at_rest, rounds in H. destruct (Nat.ltb_spec (NT - 1) (n mod NT)); [lia|].
  rewrite Nat.add_0_r, (proj2 (Nat.ltb_lt _ _) Hn) in H. subst t.
  rewrite <- (ct_tasks _ _ Hc) in *. unfold N in Hp. rewrite <- (ct_tasks _ _ Hc) in Hp.
  pose proof (past_all 1 _ _ _ Hp Ht) as Hlt. cbn in Hlt. lia.
Qed.

Record frame (s s' : ring) (l : list shown) : Prop := {
  fr_sems : sems s' = sems s;
  fr_start : start s = SPost <-> start s' = SPost;
  fr_tasks : forall k t', tasks s' !! k = Some t' ->
    tasks s !! k = Some t' \/ exists t, tasks s !! k = Some t /\ 0 < trank t /\ 0 < trank t';
  fr_back : forall k t, tasks s !! k = Some t -> trank t = 0 -> tasks s' !! k = Some t;
  fr_log : log s' = log s ++ l;
  fr_all : l = [] \/ past 1 (tasks s) = N strs
}.

Lemma at_rest_frame s s' l n k t' :
  frame s s' l -> (forall t, tasks s !! k = Some t -> at_rest n k t) -> tasks s' !! k = Some t' -> at_rest n k t'.
Proof.
  intros Hf Hr Ht. destruct (fr_tasks _ _ _ Hf k t' Ht) as [H|(t & H & Ha & Hb)]; [now apply Hr|].
  specialize (Hr t H). unfold at_rest in *. destruct (rounds n k <? 5)%nat; [|exact Hb].
  subst t. cbn in Ha. lia.
Qed.

Lemma holding_rank n t s : holding n t s -> trank t = 0.
Proof. intros [[-> _]|[[-> _]|[-> _]]]; reflexivity. Qed.

Lemma token_frame s s' l : counted strs s -> token s -> frame s s' l -> token s'.
Proof.
  intros Hc Ht Hf. pose proof (fr_all _ _ _ Hf) as Hall. pose proof (fr_log _ _ _ Hf) as Hlog.
  destruct Ht as [Es Em El Hr|n Es Hn Em Hr El|n t Es Hn Em Hh Hho Hr].
  - apply token_unposted; [now apply (fr_start _ _ _ Hf) | now rewrite (fr_sems _ _ _ Hf) | |].
    + destruct Hall as [->|Hp]; [now rewrite Hlog, El|]. exfalso. apply (token_done s 0 Hc Hp Hr). lia.
    + intros k t'. exact (at_rest_frame s s' l 0 k t' Hf (Hr k)).
  - apply (token_in_sem s' n); [now rewrite <- (fr_start _ _ _ Hf) | exact Hn | now rewrite (fr_sems _ _ _ Hf) | |].
    + intros k t'. exact (at_rest_frame s s' l n k t' Hf (Hr k)).
    + unfold logged in *. rewrite Hlog. destruct (Nat.ltb_spec n (5 * NT)) as [Hlt|Hge].
      * destruct Hall as [->|Hp]; [now rewrite app_nil_r | destruct (token_done s n Hc Hp Hr Hlt)].
      * destruct El as [rest ->]. exists (rest ++ l). now rewrite app_assoc.
  - assert (Hl : l = []).
    { destruct Hall as [|Hp]; [assumption|]. exfalso. unfold N in Hp. rewrite <- (ct_tasks _ _ Hc) in Hp.
      pose proof (past_all 1 _ _ _ Hp Hh). rewrite (holding_rank n t s Hho) in *. lia. }
    subst l. rewrite app_nil_r in Hlog.
    apply (token_held s' n t); [now rewrite <- (fr_start _ _ _ Hf) | exact Hn | now rewrite (fr_sems _ _ _ Hf) | | |].
    + apply (fr_back _ _ _ Hf); [exact Hh | exact (holding_rank n t s Hho)].
    + unfold holding in *. now rewrite Hlog.
    + intros k t' Hk. exact (at_rest_frame s s' [] n k t' Hf (fun u => Hr k u Hk)).
Qed.

Lemma frame_goto s s' k t t' l :
  tasks s !! k = Some t -> 0 < trank t -> 0 < trank t' ->
  sems s' = sems s -> start s' = start s -> tasks s' = <[k := t']> (tasks s) ->
  log s' = log s ++ l -> (l = [] \/ past 1 (tasks s) = N strs) -> frame s s' l.
Proof.
  intros Hk Ht Ht' Es Ea Et El Hl. split; [assumption | now rewrite Ea | | | assumption | assumption].
  - intros j u. rewrite Et. intros [[-> [<- _]]|[Hne Hu]]%list_lookup_insert_Some; [right; now exists t | now left].
  - intros j u Hu Hr. rewrite Et. destruct (decide (k = j)) as [->|Hne].
    + rewrite Hk in Hu. injection Hu as ->. lia.
    + now rewrite list_lookup_insert_ne.
Qed.

Lemma frame_start s s' l :
  sems s' = sems s -> (start s = SPost <-> start s' = SPost) -> tasks s' = tasks s ->
  log s' = log s ++ l -> (l = [] \/ past 1 (tasks s) = N strs) -> frame s s' l.
Proof.
  intros Es Ea Et El Hl. split; try assumption; intros k t; rewrite Et; auto.
Qed.

(** Tasks beyond [prio_sem] are there because all tasks had left the ring. *)
Lemma phase_all s k t : counted strs s -> tasks s !! k = Some t -> 2 < trank t -> past 1 (tasks s) = N strs.
Proof.
  intros Hc Hk Ht. pose proof (past_least 2 (tasks s) k t ltac:(lia) Hk Ht).
  apply (ct_first _ _ Hc). pose proof (ct_prio _ _ Hc). pose proof (ct_prio_pos _ _ Hc). pose proof (ct_stolen _ _ Hc).
  destruct (start s); cbn in *; lia.
Qed.

(** ** The steps of the ring *)

(** A task in the ring waits for its semaphore or holds the token. *)
Lemma token_holder s k t : token s -> tasks s !! k = Some t -> trank t = 0 ->
  (exists i, t = TWait i) \/
  exists n, k = (n mod NT)%nat /\ start s <> SPost /\ (n < 5 * NT)%nat /\ sems s = replicate NT 0 /\ holding n t s /\
    (forall j u, j <> (n mod NT)%nat -> tasks s !! j = Some u -> at_rest n j u).
Proof.
  intros Ht Hk Hr.
  assert (H : forall n, at_rest n k t -> exists i, t = TWait i).
  { intros n. unfold at_rest. destruct (rounds n k <? 5)%nat; [eauto | lia]. }
  destruct Ht as [Es Em El Hre|n Es Hn Em Hre El|n u Es Hn Em Hh Hho Hre].
  - left. apply (H O), Hre, Hk.
  - left. apply (H n), Hre, Hk.
  - destruct (decide (k = (n mod NT)%nat)) as [->|Hne]; [|left; now apply (H n), Hre].
    rewrite Hk in Hh. injection Hh as <-. right. exists n. now split_and!.
Qed.

Lemma holder_small n : (n mod NT < NT)%nat.
Proof. apply Nat.mod_upper_bound. lia. Qed.

Lemma wait_token s k i v : counted strs s -> token s -> tasks s !! k = Some (TWait i) -> sems s !! k = Some v -> 0 < v ->
  token (goto k (TShow i) (add_sem k (-1) s)).
Proof.
  intros Hc Ht Hk Hv Hpos.
  assert (Hz : sems s = replicate NT 0 -> False).
  { intros E. rewrite E in Hv. apply lookup_replicate in Hv as [-> _]. lia. }
  destruct Ht as [Es Em El Hre|n Es Hn Em Hre El|n u Es Hn Em Hh Hho Hre]; try now destruct Hz.
  rewrite Em in Hv. apply list_lookup_insert_Some in Hv as [[<- [<- _]]|[_ Hv]];
    [|apply lookup_replicate in Hv as [-> _]; lia].
  pose proof (Hre _ _ Hk) as Hi. unfold at_rest in Hi. rewrite rounds_holder in Hi.
  destruct (Nat.ltb_spec (n / NT) 5) as [H5|]; [|cbn in Hi; lia]. injection Hi as ->.
  pose proof (proj1 (rounds_open n) H5) as Hlt.
  apply (token_held _ n (TShow (n / NT))); cbn.
  - exact Es.
  - exact Hlt.
  - rewrite Em. change (list_alter ?f ?k ?l) with (alter f k l).
    pose proof (holder_small n). apply list_eq. intros j. destruct (decide (j = (n mod NT)%nat)) as [->|Hne].
    + rewrite list_lookup_alter_eq, list_lookup_insert_eq by (rewrite length_replicate; lia).
      rewrite lookup_replicate_2 by lia. reflexivity.
    + now rewrite list_lookup_alter_ne, list_lookup_insert_ne by congruence.
  - apply list_lookup_insert_eq. exact (lookup_lt_Some _ _ _ Hk).
  - left. split; [reflexivity|]. unfold logged in El. now rewrite (proj2 (Nat.ltb_lt _ _) Hlt) in El.
  - intros j u Hj Hu. rewrite list_lookup_insert_ne in Hu by congruence. now apply Hre.
Qed.

(** The holder moves on in its round. *)
Lemma hold_token s s' n t :
  start s <> SPost -> (n < 5 * NT)%nat -> sems s = replicate NT 0 ->
  (forall j u, j <> (n mod NT)%nat -> tasks s !! j = Some u -> at_rest n j u) ->
  (n mod NT < length (tasks s))%nat ->
  start s' = start s -> sems s' = sems s -> tasks s' = <[(n mod NT)%nat := t]> (tasks s) -> holding n t s' -> token s'.
Proof.
  intros Es Hn Em Hre Hlt Es' Em' Et Hho. apply (token_held s' n t); try congruence.
  - rewrite Et. now apply list_lookup_insert_eq.
  - intros j u Hj. rewrite Et, list_lookup_insert_ne by congruence. now apply Hre.
Qed.

Lemma round_text_last k : (k =? NT - 1)%nat = true -> round_text k = [D_name k; D_newline].
Proof. unfold round_text. now intros ->. Qed.

Lemma round_text_other k : (k =? NT - 1)%nat = false -> round_text k = [D_name k].
Proof. unfold round_text. now intros ->. Qed.

(** The holder passes the token on. *)
Lemma post_token s n :
  counted strs s -> start s <> SPost -> (n < 5 * NT)%nat -> sems s = replicate NT 0 ->
  (forall j u, j <> (n mod NT)%nat -> tasks s !! j = Some u -> at_rest n j u) ->
  log s = ring_text (S n) ->
  token (goto (n mod NT) (if (S (n / NT) <? 5)%nat then TWait (S (n / NT)) else TSync)
           (add_sem ((n mod NT + 1) mod NT)%nat 1 s)).
Proof.
  intros Hc Es Hn Em Hre El. rewrite mod_succ. apply (token_in_sem _ (S n)); cbn [start goto add_sem sems tasks].
  - exact Es.
  - lia.
  - rewrite Em. pose proof (holder_small (S n)). apply list_eq. intros j.
    destruct (decide (j = (S n mod NT)%nat)) as [->|Hne].
    + rewrite list_lookup_alter_eq, list_lookup_insert_eq by (rewrite length_replicate; lia).
      rewrite lookup_replicate_2 by lia. reflexivity.
    + now rewrite list_lookup_alter_ne, list_lookup_insert_ne by congruence.
  - intros j u [[<- [<- Hlt]]|[Hne Hu]]%list_lookup_insert_Some; rewrite ?(ct_tasks _ _ Hc) in *; unfold at_rest.
    + rewrite rounds_S, Nat.eqb_refl, rounds_holder, Nat.add_1_r by assumption.
      now destruct (S (n / NT) <? 5)%nat.
    + pose proof (lookup_lt_Some _ _ _ Hu) as Hj. rewrite (ct_tasks _ _ Hc) in Hj.
      rewrite rounds_S, (proj2 (Nat.eqb_neq _ _)), Nat.add_0_r by (assumption || congruence).
      now apply Hre; [congruence|].
  - unfold logged. cbn [log]. destruct (S n <? 5 * NT)%nat; [exact El | exists []; now rewrite app_nil_r].
Qed.

Lemma ring_task_token k s s' t :
  counted strs s -> token s -> tasks s !! k = Some t -> trank t = 0 -> task_code strs k s = Some s' -> token s'.
Proof.
  intros Hc Ht Hk Hr E. pose proof (token_holder s k t Ht Hk Hr) as Hcase. unfold task_code in E. rewrite Hk in E.
  destruct Hcase as [[i ->]|(n & -> & Es & Hn & Em & Hho & Hre)].
  - repeat case_match; simplify_eq. eapply wait_token; eauto. now apply Z.ltb_lt.
  - pose proof (lookup_lt_Some _ _ _ Hk) as Hlt.
    destruct Hho as [[-> El]|[(-> & Hl & El)|[-> El]]]; injection E as <-.
    + eapply (hold_token s _ n); eauto; try reflexivity. unfold holding.
      destruct (n mod NT =? NT - 1)%nat eqn:Hl; right; [left | right]; cbn [log goto DISPLAY].
      * split_and!; [reflexivity | reflexivity | now rewrite El].
      * split; [reflexivity|]. now rewrite El, ring_text_S, round_text_other.
    + eapply (hold_token s _ n); eauto; try reflexivity. unfold holding.
      right; right. split; [reflexivity|]. cbn [log goto DISPLAY]. now rewrite El, ring_text_S, round_text_last, <- app_assoc.
    + now apply post_token.
Qed.

Lemma task_token k s s' : counted strs s -> token s -> task_code strs k s = Some s' -> token s'.
Proof.
  intros Hc Ht E. destruct (tasks s !! k) as [t|] eqn:Hk; [|unfold task_code in E; now rewrite Hk in E].
  destruct (Z.eq_dec (trank t) 0) as [Hr|Hr]; [now apply (ring_task_token k s s' t)|].
  assert (H3 : 2 < trank t -> past 1 (tasks s) = N strs) by now apply (phase_all s k t).
  unfold task_code in E. rewrite Hk in E.
  destruct t; try (now destruct Hr); repeat case_match; simplify_eq.
  all: eapply (token_frame s); [exact Hc | exact Ht | eapply frame_goto; [exact Hk | .. ]; cbn in *; try reflexivity; try lia].
  all: first [now left | now rewrite app_nil_r | right; apply H3; lia | reflexivity].
Qed.

Lemma start_token s s' : counted strs s -> token s -> start_task_code strs s = Some s' -> token s'.
Proof.
  intros Hc Ht E. pose proof (ct_first _ _ Hc) as H1. pose proof (ct_start _ _ Hc) as Hp. unfold start_task_code in E.
  destruct (start s) eqn:Es; cbn in H1, Hp; repeat case_match; simplify_eq.
  2-14: eapply (token_frame s);
    [exact Hc | exact Ht | eapply frame_start; cbn; try reflexivity; try rewrite Es; try first [now left | now rewrite app_nil_r | now right; apply H1]].
  2-14: unfold turn; repeat case_match; split; discriminate.
  destruct Ht as [_ Em El Hre|? Hne|? ? Hne]; try now destruct Hne.
  apply (token_in_sem _ 0); cbn; [discriminate | lia | | exact Hre|].
  - rewrite Nat.Div0.mod_0_l. now rewrite Em; destruct NT.
  - unfold logged. now rewrite (proj2 (Nat.ltb_lt 0 (5 * NT))) by lia.
Qed.

Lemma start_state_token : token (ring_start strs).
Proof.
  apply token_unposted; try reflexivity. cbn. intros k t H. apply lookup_replicate in H as [-> Hk].
  unfold at_rest, rounds. now rewrite Nat.Div0.mod_0_l, Nat.Div0.div_0_l.
Qed.

Lemma ring_reachable s : rtc (ring_step strs) (ring_start strs) s -> counted strs s /\ token s.
Proof.
  apply (rtc_invariant (ring_step strs) (fun s => counted strs s /\ token s)); [split; [now apply start_state_counted | exact start_state_token]|].
  intros a b [Hc Ht] Hs. split; [now apply (step_counted strs strs_fit strs_some a)|].
  destruct Hs as [k E|E]; [now apply (task_token k a) | now apply (start_token a)].
Qed.

(** ** What the token says of the display and of the tasks *)

(** The task has the token and has not passed it on. *)
Definition has_token (t : tpc) : bool := match t with TShow _ | TLine _ | TPost _ => true | _ => false end.

Lemma token_unique s j k t u : token s ->
  tasks s !! j = Some t -> tasks s !! k = Some u -> has_token t = true -> has_token u = true -> j = k.
Proof.
  intros Ht Hj Hk Tt Tu.
  assert (Hr : forall n i v, at_rest n i v -> has_token v = false).
  { intros n i v. unfold at_rest. destruct (rounds n i <? 5)%nat; [now intros -> | destruct v; cbn; lia || reflexivity]. }
  destruct Ht as [? ? ? Hre|n ? ? ? Hre|n v ? ? ? ? ? Hre].
  - rewrite (Hr _ _ _ (Hre _ _ Hj)) in Tt. discriminate.
  - rewrite (Hr _ _ _ (Hre _ _ Hj)) in Tt. discriminate.
  - destruct (decide (j = (n mod NT)%nat)) as [->|Hj'], (decide (k = (n mod NT)%nat)) as [->|Hk']; try reflexivity;
      [rewrite (Hr _ _ _ (Hre _ _ Hk' Hk)) in Tu | rewrite (Hr _ _ _ (Hre _ _ Hj' Hj)) in Tt
      | rewrite (Hr _ _ _ (Hre _ _ Hj' Hj)) in Tt]; discriminate.
Qed.

Lemma ring_text_prefix n m : (n <= m)%nat -> ring_text n `prefix_of` ring_text m.
Proof.
  intros Hle. exists (concat (map (fun m => round_text (m mod NT)%nat) (seq n (m - n)))).
  unfold ring_text. rewrite <- concat_app, <- map_app, <- seq_app. now replace (n + (m - n))%nat with m by lia.
Qed.

Lemma token_text s : token s ->
  log s `prefix_of` ring_text (5 * NT) \/ ring_text (5 * NT) `prefix_of` log s.
Proof.
  intros [? ? -> ?|n ? Hn ? ? El|n t ? Hn ? ? Hho ?].
  - left. apply prefix_nil.
  - unfold logged in El. destruct (Nat.ltb_spec n (5 * NT)) as [Hlt|Hge].
    + left. rewrite El. apply ring_text_prefix. lia.
    + right. destruct El as [rest ->]. replace n with (5 * NT)%nat by lia. now exists rest.
  - left. transitivity (ring_text (S n)); [|apply ring_text_prefix; lia].
    destruct Hho as [[_ ->]|[(_ & Hl & ->)|[_ ->]]]; [apply ring_text_prefix; lia | | reflexivity].
    rewrite ring_text_S, round_text_last by assumption. apply prefix_app. now exists [D_newline].
Qed.

(** Once all tasks have left the ring, all its text is displayed. *)
Lemma token_all s : counted strs s -> token s -> past 1 (tasks s) = N strs -> ring_text (5 * NT) `prefix_of` log s.
Proof.
  intros Hc [? ? ? Hre|n ? Hn ? Hre El|n t ? Hn ? Hh Hho ?] Hp.
  - destruct (token_done s 0 Hc Hp Hre). lia.
  - pose proof (token_done s n Hc Hp Hre). unfold logged in El. rewrite (proj2 (Nat.ltb_ge _ _)) in El by lia.
    destruct El as [rest ->]. replace n with (5 * NT)%nat by lia. now exists rest.
  - exfalso. unfold N in Hp. rewrite <- (ct_tasks _ _ Hc) in Hp. pose proof (past_all 1 _ _ _ Hp Hh) as Hr.
    rewrite (holding_rank n t s Hho) in Hr. lia.
Qed.

End Token.
