(* ===== verification/JepplinTheorems.v ===== *)
(** * The semaphore and message queue exercise: theorems

    What the ring displays, and that every run ends with all tasks complete unless
    a timed wait takes a unit meant for another task. *)

From stdpp Require Import base functions tactics numbers list strings relations.
From S2P Require Import Prelude Jepplin JepplinFacts JepplinToken.

(** ** Tasks that wait *)

Section Theorems.
Context (strs : list string).

Local Abbreviation NT := (NUM_TASKS strs).

(** A task that cannot go on, and why. *)
Inductive blocked (k : nat) (s : ring) : tpc -> Prop :=
| blocked_wait i : (forall v, sems s !! k = Some v -> v <= 0) -> blocked k s (TWait i)
| blocked_prio : prio_sem s <= 0 -> blocked k s TPrio
| blocked_receive : mq_in s = [] -> blocked k s TReceive
| blocked_send : (NT <= length (mq_out s))%nat -> blocked k s TSend
| blocked_sync : sync_sem s <= 0 -> blocked k s TSync3
| blocked_end : blocked k s TEnd.

Definition can_step (s : ring) : bool :=
  existsb (fun c => bool_decide (is_Some (scheduled strs c s))) (None :: map Some (seq 0 NT)).

Lemma can_step_true s : can_step s = true -> exists s', ring_step strs s s'.
Proof.
  unfold can_step. rewrite existsb_exists. intros (c & _ & [s' E]%bool_decide_eq_true). exists s'.
  destruct c as [k|]; [exact (step_task _ _ _ k E) | exact (step_start _ _ _ E)].
Qed.

Lemma can_step_false s : can_step s = false ->
  start_task_code strs s = None /\ forall k, (k < NT)%nat -> task_code strs k s = None.
Proof.
  intros H.
  assert (Hn : forall c, In c (None :: map Some (seq 0 NT)) -> scheduled strs c s = None).
  { intros c Hin. destruct (scheduled strs c s) as [s'|] eqn:E; [|reflexivity]. exfalso.
    enough (can_step s = true) by congruence. unfold can_step. apply existsb_exists. exists c. split; [exact Hin|].
    apply bool_decide_eq_true. rewrite E. now eexists. }
  split; [exact (Hn None (or_introl eq_refl))|]. intros k Hk. apply (Hn (Some k)). right.
  apply in_map, in_seq. lia.
Qed.

Lemma mq_send_blocked m q : mq_send strs m q = None -> (NT <= length q)%nat.
Proof. unfold mq_send. destruct (negb (fits m)); [discriminate|]. destruct (Nat.ltb_spec (length q) NT); [discriminate | lia]. Qed.

Lemma task_blocked k s t : tasks s !! k = Some t -> task_code strs k s = None -> blocked k s t.
Proof.
  intros Hk E. unfold task_code in E. rewrite Hk in E.
  destruct t; try discriminate; repeat case_match; try discriminate.
  - apply blocked_wait. intros v Hv. simplify_eq. now apply Z.ltb_ge.
  - apply blocked_wait. congruence.
  - now apply blocked_prio, Z.ltb_ge.
  - now apply blocked_receive.
  - eapply blocked_send, mq_send_blocked; eassumption.
  - now apply blocked_sync, Z.ltb_ge.
  - exact (blocked_end k s).
Qed.

(** ** Progress *)

Context (strs_fit : forallb fits strs = true) (strs_some : (0 < NT)%nat).

Section Stuck.
Context (s : ring) (Hc : counted strs s) (Ht : token strs s) (Hst : stolen s = 0).
Context (Hstuck : can_step s = false).

Lemma stuck_blocked k t : tasks s !! k = Some t -> blocked k s t.
Proof.
  intros Hk. apply task_blocked; [exact Hk|]. apply (proj2 (can_step_false s Hstuck)).
  exact (task_lookup strs s k t Hc Hk).
Qed.

(** Nobody waits in the ring: the task the token waits for could go on. *)
Lemma stuck_ring k t : tasks s !! k = Some t -> 1 < trank t.
Proof.
  intros Hk.
  assert (Hz : trank t = 0 \/ 1 < trank t) by (destruct (stuck_blocked k t Hk); cbn; lia).
  destruct Hz as [Hz|]; [exfalso | assumption].
  destruct Ht as [Es Em El Hre|n Es Hn Em Hre El|n u Es Hn Em Hh Hho Hre].
  - pose proof (proj1 (can_step_false s Hstuck)) as E. unfold start_task_code in E. now rewrite Es in E.
  - assert (Hlt : (n < 5 * NT)%nat).
    { pose proof (Hre k t Hk) as Hr. unfold at_rest, rounds in Hr. destruct (Nat.ltb_spec (n / NT + (if (k <? n mod NT)%nat then 1 else 0)) 5) as [Hr5|]; [|lia].
      apply rounds_open; [assumption|]. lia. }
    destruct (lookup_lt_is_Some_2 (tasks s) (n mod NT)) as [u Hu].
    { rewrite (ct_tasks _ _ Hc). now apply holder_small. }
    pose proof (Hre _ _ Hu) as Hr. unfold at_rest in Hr. rewrite rounds_holder in Hr by assumption.
    rewrite (proj2 (Nat.ltb_lt _ _) (proj2 (rounds_open strs strs_some n) Hlt)) in Hr. subst u.
    pose proof (stuck_blocked _ _ Hu) as Hb. inversion Hb as [i Hv| | | | |].
    specialize (Hv 1). rewrite Em, list_lookup_insert_eq in Hv by (rewrite length_replicate; now apply holder_small).
    specialize (Hv eq_refl). lia.
  - pose proof (stuck_blocked _ _ Hh) as Hb. destruct Hho as [[-> _]|[(-> & _)|[-> _]]]; inversion Hb.
Qed.

(** The numbers of tasks beyond each point where they can wait. *)
Lemma stuck_pasts :
  past 1 (tasks s) = N strs /\ past 2 (tasks s) = past 6 (tasks s) /\
  (past 2 (tasks s) < N strs -> prio_sem s <= 0) /\
  (past 2 (tasks s) = N strs -> past 7 (tasks s) < N strs -> mq_in s = []) /\
  (past 7 (tasks s) = N strs -> past 9 (tasks s) < N strs -> (NT <= length (mq_out s))%nat) /\
  (past 9 (tasks s) = N strs -> past 10 (tasks s) < N strs -> sync_sem s <= 0) /\
  (past 10 (tasks s) = N strs -> Forall (eq TEnd) (tasks s)).
Proof.
  unfold N. rewrite <- (ct_tasks _ _ Hc).
  assert (Hmiss : forall r r', past r (tasks s) = Z.of_nat (length (tasks s)) ->
    past r' (tasks s) < Z.of_nat (length (tasks s)) ->
    exists k t, tasks s !! k = Some t /\ blocked k s t /\ r < trank t <= r').
  { intros r r' Hr Hr'. destruct (past_missing r' _ Hr') as (k & t & Hk & Hle). exists k, t.
    split_and!; [assumption | now apply stuck_blocked | exact (past_all r _ k t Hr Hk) | assumption]. }
  split_and!.
  - destruct (Z.lt_ge_cases (past 1 (tasks s)) (Z.of_nat (length (tasks s)))) as [H|H].
    + destruct (past_missing 1 _ H) as (k & t & Hk & Hle). pose proof (stuck_ring k t Hk). lia.
    + pose proof (past_range 1 (tasks s)). lia.
  - apply sumZ_ext. intros t (k & Hk)%list_elem_of_lookup. destruct (stuck_blocked k t Hk); reflexivity.
  - intros H. destruct (past_missing 2 _ H) as (k & t & Hk & Hle). pose proof (stuck_ring k t Hk).
    destruct (stuck_blocked k t Hk); cbn in *; (lia || assumption).
  - intros H H'. destruct (Hmiss 2 7 H H') as (k & t & _ & Hb & Hr). destruct Hb; cbn in Hr; (lia || assumption).
  - intros H H'. pose proof (ct_tasks _ _ Hc). destruct (Hmiss 7 9 H H') as (k & t & _ & Hb & Hr). destruct Hb; cbn in Hr; lia.
  - intros H H'. destruct (Hmiss 9 10 H H') as (k & t & _ & Hb & Hr). destruct Hb; cbn in Hr; (lia || assumption).
  - intros H. apply Forall_lookup. intros k t Hk. pose proof (past_all 10 _ k t H Hk) as Hr.
    destruct (stuck_blocked k t Hk); cbn in Hr; (lia || reflexivity).
Qed.

Lemma stuck_finished : finished s.
Proof.
  destruct stuck_pasts as (P1 & P2 & Hpr & Hin & Hout & Hsy & Hend). destruct (can_step_false s Hstuck) as [E _].
  pasts (tasks s). pose proof (ct_tasks _ _ Hc) as El. rewrite El in *. fold (N strs) in *.
  pose proof (ct_sync _ _ Hc) as Esy. pose proof (ct_prio _ _ Hc) as Epr. pose proof (ct_in _ _ Hc) as Ein.
  pose proof (ct_out _ _ Hc) as Eout. pose proof (ct_start _ _ Hc) as Hp. pose proof (ct_prio_pos _ _ Hc).
  rewrite Hst in Epr. assert (EN : N strs = Z.of_nat NT) by reflexivity.
  assert (Hmsg : past 2 (tasks s) = N strs -> sent strs (start s) = N strs -> past 9 (tasks s) = N strs).
  { intros E2 Hs. destruct (Z.lt_ge_cases (past 7 (tasks s)) (N strs)) as [Hlt|Hge].
    - rewrite (Hin E2 Hlt) in Ein. cbn in Ein. lia.
    - destruct (Z.lt_ge_cases (past 9 (tasks s)) (N strs)) as [Hlt|]; [|lia].
      specialize (Hout ltac:(lia) Hlt). pose proof (past_range 9 (tasks s)).
      assert (0 <= received strs (start s)) by (destruct (start s); cbn; lia).
      assert (received strs (start s) = 0 /\ past 9 (tasks s) = N strs) by lia. lia. }
  unfold start_task_code in E. clear Hstuck.
  destruct (start s) eqn:Es; cbn in *; try discriminate.
  - destruct (Z.ltb_spec 0 (sync_sem s)); [discriminate | lia].
  - destruct (Z.ltb_spec 0 (sync_sem s)); [discriminate | lia].
  - destruct (mq_send strs _ (mq_in s)) eqn:Em; [discriminate|]. apply mq_send_blocked in Em. lia.
  - destruct (mq_out s); [cbn in Eout; lia | discriminate].
  - assert (Hf : Forall (eq TEnd) (tasks s)) by (apply Hend; lia).
    destruct (lookup_lt_is_Some_2 (tasks s) i ltac:(lia)) as [t Hi]. rewrite Hi in E.
    rewrite <- (proj1 (Forall_lookup _ _) Hf i t Hi) in E. discriminate.
  - split; [exact Es | apply Hend; lia].
Qed.

End Stuck.

(** ** Every run ends *)

(** The steps a task, and the starting task, have left at most. *)
Definition task_left (t : tpc) : Z :=
  match t with
  | TWait i => 33 - 4 * Z.of_nat i | TShow i => 32 - 4 * Z.of_nat i
  | TLine i => 31 - 4 * Z.of_nat i | TPost i => 30 - 4 * Z.of_nat i
  | TSync => 13 | TPrio => 12 | TName => 11 | TTimed => 10 | TTimeout => 9 | TSync2 => 8
  | TReceive => 7 | TGot _ => 6 | TSend => 5 | TSync3 => 4 | TTimedReceive => 3
  | TLate => 2 | TComplete => 1 | TEnd => 0
  end.

Definition start_left (p : spc) : Z :=
  match p with
  | SPost => 8 * N strs + 6
  | SCollect i => 8 * N strs + 5 - Z.of_nat i | SSync => 7 * N strs + 5
  | SPrio i => 7 * N strs + 4 - Z.of_nat i | SLine => 6 * N strs + 4
  | SCollect2 i => 6 * N strs + 3 - Z.of_nat i | STesting => 5 * N strs + 3
  | SSend i => 5 * N strs + 2 - Z.of_nat i
  | SReceive i => 4 * N strs + 2 - 2 * Z.of_nat i | SGot i _ => 4 * N strs + 1 - 2 * Z.of_nat i
  | SRelease i => 2 * N strs + 2 - Z.of_nat i | SLine2 => N strs + 2
  | SJoin i => N strs + 1 - Z.of_nat i | SComplete => 1 | SEnd => 0
  end.

Definition steps_left (s : ring) : Z := sumZ task_left (tasks s) + start_left (start s).

Lemma steps_left_nonneg s : counted strs s -> 0 <= steps_left s.
Proof.
  intros Hc. unfold steps_left. assert (0 <= sumZ task_left (tasks s)).
  { apply sumZ_nonneg. intros t Ht. pose proof (proj1 (Forall_forall _ _) (ct_rounds _ _ Hc) t Ht) as H.
    destruct t; cbn in *; lia. }
  pose proof (ct_start _ _ Hc) as Hp. unfold spc_ok in Hp. unfold start_left, N. destruct (start s); lia.
Qed.

Lemma step_left s s' : counted strs s -> ring_step strs s s' -> steps_left s' < steps_left s.
Proof.
  intros Hc [k E|E]; unfold steps_left.
  - unfold task_code in E. destruct (tasks s !! k) as [t|] eqn:Hk; [|discriminate].
    pose proof (proj1 (Forall_lookup _ _) (ct_rounds _ _ Hc) k t Hk) as Hok.
    destruct t; repeat case_match; simplify_eq; cbn [tasks start goto add_sem add_sync add_prio set_in set_out DISPLAY steal];
      rewrite (sumZ_insert _ _ _ _ _ Hk); cbn [task_left]; cbn in Hok;
      repeat match goal with H : (_ <? _)%nat = _ |- _ => first [apply Nat.ltb_lt in H | apply Nat.ltb_ge in H] end; lia.
  - pose proof (ct_start _ _ Hc) as Hp. unfold start_task_code in E.
    destruct (start s) eqn:Es; cbn in Hp; repeat case_match; simplify_eq;
      cbn [tasks start start_goto add_sem add_sync add_prio set_in set_out DISPLAY]; rewrite ?Es;
      repeat match goal with |- context [turn strs ?pc ?i ?a] => destruct (turn_cases strs pc i a Hp) as [[? ->]|[? ->]] end;
      unfold start_left, N in *; lia.
Qed.

Lemma steps_bound n s s' : counted strs s -> nsteps (ring_step strs) n s s' -> Z.of_nat n + steps_left s' <= steps_left s.
Proof.
  intros Hc Hn. induction Hn as [s|n s s1 s' Hs Hn IH]; [lia|].
  pose proof (step_left s s1 Hc Hs). specialize (IH (step_counted strs strs_fit strs_some s s1 Hc Hs)). lia.
Qed.

Lemma start_steps : steps_left (ring_start strs) = 41 * N strs + 6.
Proof.
  unfold steps_left. cbn [tasks start ring_start start_left].
  assert (E : forall n, sumZ task_left (replicate n (TWait 0)) = 33 * Z.of_nat n).
  { induction n as [|n IH]; [reflexivity|]. cbn [replicate]. rewrite sumZ_cons, IH. cbn [task_left]. lia. }
  rewrite E. unfold N. lia.
Qed.

(** ** The messages *)

Definition got_text (t : tpc) : option string := match t with TGot b => Some b | _ => None end.
Definition shown_text (d : shown) : option string := match d with D_received _ b => Some b | _ => None end.

(** The messages the tasks have received: not displayed yet, and displayed. *)
Definition held_texts (l : list tpc) : list string := omap got_text l.
Definition shown_texts (l : list shown) : list string := omap shown_text l.

(** What was sent is in the queue, held or displayed. *)
Definition delivered (s : ring) : Prop :=
  mq_in s ++ held_texts (tasks s) ++ shown_texts (log s) ≡ₚ map (name strs) (seq 0 (Z.to_nat (sent strs (start s)))).

Lemma held_goto k t t' l : l !! k = Some t ->
  option_list (got_text t) ++ held_texts (<[k := t']> l) ≡ₚ option_list (got_text t') ++ held_texts l.
Proof.
  unfold held_texts. revert k. induction l as [|x l IH]; intros [|k] H; try discriminate.
  - injection H as ->. cbn. destruct (got_text t), (got_text t'); cbn; try reflexivity. apply Permutation_swap.
  - change (<[S k := t']> (x :: l)) with (x :: <[k := t']> l). cbn. specialize (IH k H).
    destruct (got_text x) as [b|]; [|exact IH].
    rewrite <- !Permutation_middle. now rewrite IH.
Qed.

Lemma shown_snoc l d : shown_texts (l ++ [d]) = shown_texts l ++ option_list (shown_text d).
Proof. unfold shown_texts. rewrite omap_app. cbn. now destruct (shown_text d). Qed.

Lemma task_delivered k s s' : counted strs s -> delivered s -> task_code strs k s = Some s' -> delivered s'.
Proof.
  intros Hc Hd E. unfold task_code in E. destruct (tasks s !! k) as [t|] eqn:Hk; [|discriminate].
  pose proof (fun t' => held_goto k t t' (tasks s) Hk) as Hg.
  pose proof (past_least 10 (tasks s) k t ltac:(lia) Hk) as H10. pose proof (counted_released strs s Hc) as Hrel.
  unfold delivered in *. destruct t; repeat case_match; simplify_eq;
    cbn -[held_texts shown_texts] in Hg, H10 |- *; try discriminate (Hrel (H10 ltac:(lia))).
  all: try match goal with |- context [shown_texts (_ ++ _)] => rewrite shown_snoc end; cbn [option_list shown_text];
    rewrite ?app_nil_r; try (rewrite Hg; cbn -[held_texts shown_texts]; congruence || assumption).
  - rewrite Hg. cbn -[held_texts shown_texts]. now rewrite <- Permutation_middle.
  - specialize (Hg TSend). cbn -[held_texts] in Hg. rewrite <- Hd, <- Hg.
    cbn -[held_texts shown_texts]. rewrite !app_assoc, <- Permutation_cons_append. now rewrite <- Permutation_middle, app_assoc.
Qed.

Lemma start_delivered s s' : counted strs s -> delivered s -> start_task_code strs s = Some s' -> delivered s'.
Proof.
  intros Hc Hd E. pose proof (ct_start _ _ Hc) as Hp. unfold start_task_code in E. unfold delivered in *.
  destruct (start s) eqn:Es; cbn in Hp; repeat case_match; simplify_eq;
    repeat match goal with
    | |- context [turn strs ?pc ?i ?a] => destruct (turn_cases strs pc i a Hp) as [[? ->]|[? ->]]
    | H : mq_send _ _ _ = Some _ |- _ => apply (send_eq strs strs_fit) in H; [subst|assumption]
    end; cbn -[held_texts shown_texts seq] in Hd |- *;
    try match goal with |- context [shown_texts (_ ++ _)] => rewrite shown_snoc end; cbn [option_list shown_text];
    rewrite ?app_nil_r; try assumption.
  all: replace (Z.to_nat _) with (S i) by lia; rewrite Nat2Z.id in Hd;
    rewrite seq_S, map_app, <- Hd, <- !app_assoc; cbn -[held_texts shown_texts];
    now rewrite <- Permutation_middle, !(app_assoc _ _ [_]), <- Permutation_cons_append.
Qed.

Lemma ring_delivered s : rtc (ring_step strs) (ring_start strs) s -> delivered s.
Proof.
  intros Hr. apply (rtc_invariant (ring_step strs) (fun s => counted strs s /\ delivered s) (ring_start strs)); [..|exact Hr].
  - split; [now apply start_state_counted|]. unfold delivered, held_texts. cbn. clear. induction NT; [reflexivity | exact IHn].
  - intros a b [Hc Hd] Hs. split; [now apply (step_counted strs strs_fit strs_some a)|].
    destruct Hs as [k E|E]; [now apply (task_delivered k a) | now apply (start_delivered a)].
Qed.

Lemma names_all : map (name strs) (seq 0 NT) = strs.
Proof.
  apply list_eq. intros k. rewrite list_lookup_fmap. destruct (decide (k < length strs)%nat) as [Hk|Hk].
  - rewrite lookup_seq_lt by assumption. unfold name. destruct (lookup_lt_is_Some_2 strs k Hk) as [m Hm].
    cbn. now rewrite Hm.
  - rewrite lookup_seq_ge, (lookup_ge_None_2 strs) by (unfold NUM_TASKS; lia). reflexivity.
Qed.

(** When everything is done all messages were displayed. *)
Lemma finished_texts s : rtc (ring_step strs) (ring_start strs) s -> finished s -> shown_texts (log s) ≡ₚ strs.
Proof.
  intros Hr [Es Hf]. pose proof (ring_delivered s Hr) as Hd. unfold delivered in Hd.
  destruct (ring_reachable strs strs_fit strs_some s Hr) as [Hc _].
  assert (E7 : past 7 (tasks s) = N strs).
  { unfold N. rewrite <- (ct_tasks _ _ Hc). destruct (Z.lt_ge_cases (past 7 (tasks s)) (Z.of_nat (length (tasks s)))) as [H|H];
      [|pose proof (past_range 7 (tasks s)); lia].
    destruct (past_missing 7 _ H) as (k & t & Hk & Hle). rewrite <- (proj1 (Forall_lookup _ _) Hf k t Hk) in Hle.
    cbn in Hle. lia. }
  pose proof (ct_in _ _ Hc) as Ein. rewrite Es, E7 in *. cbn in Ein. rewrite Z.sub_diag in Ein.
  destruct (mq_in s); [|cbn in Ein; lia]. cbn -[held_texts shown_texts seq] in Hd.
  assert (Eh : held_texts (tasks s) = []).
  { unfold held_texts. clear -Hf. induction Hf as [|t l <- Hf IH]; [reflexivity | exact IH]. }
  rewrite Eh in Hd. rewrite Hd. unfold N. now rewrite Nat2Z.id, names_all.
Qed.

End Theorems.

(** ** Properties *)

(** The four tasks of the program, in the order of their numbers. *)
Definition each (n : nat) : list (option nat) := mbind (fun k => replicate n (Some k)) (seq 0 4).
Definition one_round : list (option nat) :=
  replicate 3 (Some 0%nat) ++ replicate 3 (Some 1%nat) ++ replicate 3 (Some 2%nat) ++ replicate 4 (Some 3%nat).
Definition the_ring : list (option nat) := None :: mjoin (replicate 5 one_round).
Definition starter (n : nat) : list (option nat) := replicate n None.

(** A whole run, in the order the priorities give. *)
Definition whole_run : list (option nat) :=
  the_ring ++ each 1 ++ starter 10 ++ each 2 ++ each 3 ++ starter 9 ++ each 3 ++ starter 13 ++ each 4 ++ starter 5.

Definition after_run (l : list (option nat)) : ring :=
  default (ring_start jepplin_strs) (run_ring jepplin_strs l (ring_start jepplin_strs)).

Lemma whole_run_ends : run_ring jepplin_strs whole_run (ring_start jepplin_strs) = Some (after_run whole_run).
Proof. vm_compute. reflexivity. Qed.

Lemma run_ring_nsteps strs l s s' : run_ring strs l s = Some s' -> nsteps (ring_step strs) (length l) s s'.
Proof.
  revert s. induction l as [|c l IH]; cbn; intros s E; [injection E as <-; constructor|].
  destruct (scheduled strs c s) as [s1|] eqn:E1; [|discriminate]. apply nsteps_l with s1; [|now apply IH].
  destruct c as [k|]; [exact (step_task _ _ _ k E1) | exact (step_start _ _ _ E1)].
Qed.

(** What the ring displays.  However the tasks are scheduled, the text up to
    the end of the ring is that of five rounds of all names in order, each ended
    by a newline: the display is always a beginning or a continuation of it.  At most
    one task has the token, and a task gets past its wait for [prio_sem] only after
    the whole text. *)
Theorem jepplin_ring_order strs s :
  forallb fits strs = true -> (0 < NUM_TASKS strs)%nat ->
  rtc (ring_step strs) (ring_start strs) s ->
  (log s `prefix_of` ring_text strs (5 * NUM_TASKS strs) \/ ring_text strs (5 * NUM_TASKS strs) `prefix_of` log s) /\
  (forall j k t u, tasks s !! j = Some t -> tasks s !! k = Some u -> has_token t = true -> has_token u = true -> j = k) /\
  (forall k t, tasks s !! k = Some t -> 2 < trank t -> ring_text strs (5 * NUM_TASKS strs) `prefix_of` log s).
Proof.
  intros Hf Hs Hr. destruct (ring_reachable strs Hf Hs s Hr) as [Hc Ht]. split_and!.
  - now apply (token_text strs Hs).
  - intros j k t u Hj Hk. exact (token_unique strs Hs s j k t u Ht Hj Hk).
  - intros k t Hk Hrk. apply (token_all strs Hs s Hc Ht). exact (phase_all strs Hs s k t Hc Hk Hrk).
Qed.

Lemma jepplin_ring_order_witness :
  ring_text jepplin_strs 20 `prefix_of` log (after_run whole_run).
Proof.
  apply (jepplin_ring_order jepplin_strs (after_run whole_run) eq_refl ltac:(vm_compute; lia)
    (run_ring_rtc _ _ _ _ whole_run_ends)) with 0%nat TEnd; vm_compute; reflexivity.
Defined.

(** C19: every run ends, and well.  Whatever the order of the steps, a run has at
    most 41 steps for each task and 6 more; and a state it has reached can make a
    step, unless all tasks are complete and the messages they displayed are the
    names, each once.  The exception is a run in which a task's timed wait took a
    unit of [prio_sem] another task had not taken yet. *)
Theorem jepplin_completes strs n s :
  forallb fits strs = true -> (0 < NUM_TASKS strs)%nat ->
  nsteps (ring_step strs) n (ring_start strs) s ->
  Z.of_nat n <= 41 * Z.of_nat (NUM_TASKS strs) + 6 /\
  (stolen s = 0 ->
   (exists s', ring_step strs s s') \/ (finished s /\ shown_texts (log s) ≡ₚ strs)).
Proof.
  intros Hf Hs Hn. pose proof (rtc_nsteps_2 _ _ _ Hn) as Hr. destruct (ring_reachable strs Hf Hs s Hr) as [Hc Ht].
  split.
  - pose proof (steps_bound strs Hf Hs n _ _ (start_state_counted strs Hs) Hn) as Hb.
    rewrite start_steps in Hb by assumption. pose proof (steps_left_nonneg strs Hs s Hc). unfold N in Hb. lia.
  - intros Hst. destruct (can_step strs s) eqn:E; [left; now apply (can_step_true strs)|right].
    assert (Hfin : finished s) by now apply (stuck_finished strs Hs).
    split; [exact Hfin | now apply finished_texts].
Qed.

Lemma jepplin_completes_witness :
  finished (after_run whole_run) /\ shown_texts (log (after_run whole_run)) ≡ₚ jepplin_strs.
Proof.
  destruct (proj2 (jepplin_completes jepplin_strs _ (after_run whole_run) eq_refl ltac:(vm_compute; lia)
    (run_ring_nsteps _ _ _ _ whole_run_ends)) ltac:(vm_compute; reflexivity)) as [[s' Hs]|H]; [exfalso | exact H].
  destruct Hs as [k E|E]; [|vm_compute in E; discriminate].
  do 4 (destruct k as [|k]; [vm_compute in E; discriminate|]). vm_compute in E. discriminate.
Defined.

(** The exception is possible: tasks 0 and 1 sleep and wait again before tasks 2
    and 3 have had their units of [prio_sem], take them, and all wait for ever. *)
Lemma jepplin_may_hang : exists s, rtc (ring_step jepplin_strs) (ring_start jepplin_strs) s /\
  can_step jepplin_strs s = false /\ ~ finished s.
Proof.
  set (l := the_ring ++ each 1 ++ starter 10 ++ replicate 5 (Some 0%nat) ++ replicate 5 (Some 1%nat) ++ starter 2).
  exists (after_run l). split_and!.
  - apply (run_ring_rtc _ l). vm_compute. reflexivity.
  - vm_compute. reflexivity.
  - intros [E _]. vm_compute in E. discriminate.
Qed.
