(* ===== verification/Condtest.v ===== *)
(** * The condition variable exercise (posix/user/condtest.c)

    Four tasks and [main] meet at a barrier, wait with one mutex and one condition
    variable for [cond_data] to reach 1, 2 and 3, and meet again.  The code of each
    is a list of calls, one step each; a test of [cond_data] and the display that
    depends on it are one step.  The barrier opens for all at once.

    Which waiting task a [pthread_cond_signal] wakes is left to the scheduling
    policy: it is the function [wakes], of the interface [SignalPolicy].  The two
    seconds of [task_func3] may run out at any moment ([cond_event]); the runs in
    which they are longer than anything else, and run out only when no task can go
    on, are those of [timed_event]. *)

From stdpp Require Import base functions tactics numbers list strings relations.
From S2P Require Import Prelude.

Inductive call :=
| Lock | Unlock                       (* pthread_mutex_lock, _unlock *)
| Wait (n : Z)                        (* while(cond_data < n) pthread_cond_wait *)
| TimedWait (n : Z)                   (* the same with pthread_cond_timedwait and a break *)
| Assign (n : Z)                      (* cond_data = n *)
| Signal | Broadcast                  (* pthread_cond_signal, _broadcast *)
| Say (t : string)
| SayEq (n : Z) (t : string)          (* if(cond_data == n) DISPLAY *)
| SayLt (n : Z) (t : string)          (* if(cond_data < n) DISPLAY *)
| Barrier                             (* pthread_barrier_wait *)
| Join (k : nat).                     (* pthread_join *)

Definition task_func1 : list call :=
  [ Barrier; Say "Starting task1, waiting on the conditional variable to be 1.";
    Lock; Wait 1; Unlock; SayEq 1 "task1, conditional variable signalled, value:";
    Say "task1 signals after setting data to 2."; Say "task1 waits for a broadcast.";
    Lock; Assign 2; Signal; Wait 3; Unlock; SayEq 3 "task1, conditional variable broadcasted, value:";
    Barrier; Say "Ending task1." ].

Definition task_func2 : list call :=
  [ Barrier; Say "Starting task2, waiting on the conditional variable to be 2.";
    Lock; Wait 2; Unlock; SayEq 2 "task2, conditional variable signalled, value:";
    Say "task2 waits for a broadcast.";
    Lock; Wait 3; Unlock; SayEq 3 "task2, conditional variable broadcasted, value:";
    Barrier; Say "Ending task2." ].

Definition task_func3 : list call :=
  [ Barrier; Say "Starting task3, waiting on the conditional variable to be 3 with a 2 s timeout.";
    Lock; TimedWait 3; Unlock; SayLt 3 "task3, timed out, conditional variable value:";
    Lock; Assign 3; Unlock; Say "task3 broadcasts after setting data to 3."; Broadcast;
    Barrier; Say "Ending task3." ].

Definition task_func4 : list call :=
  [ Barrier; Say "Starting task4, signalling after setting data to 1, then waits for a broadcast.";
    Lock; Assign 1; Unlock; Signal;
    Lock; Wait 3; Unlock; SayEq 3 "task4, conditional variable broadcasted, value:";
    Barrier; Say "Ending task4." ].

(** [main], from its first barrier. *)
Definition cond_main : list call :=
  [ Barrier; Say "Do not panic, wait 2 s, till task3 times out."; Barrier;
    Join 1; Join 2; Join 3; Join 4; Say "User space POSIX test program removed." ].

(** [main] is 0, the tasks are 1 to 4. *)
Definition code (k : nat) : list call :=
  match k with 0 => cond_main | 1 => task_func1 | 2 => task_func2 | 3 => task_func3 | _ => task_func4 end%nat.

(** The priority each gives itself, the first argument of
    [pthread_setschedparam_np]: a lower number is more urgent. *)
Definition prio (k : nat) : nat := match k with 0 => 0 | 1 => 1 | 2 => 2 | 3 => 3 | _ => 4 end%nat.

Definition everyone : list nat := [0; 1; 2; 3; 4]%nat.

(** A task runs, sleeps on the condition variable, was woken and needs the mutex
    back, or had its time run out and needs the mutex back. *)
Inductive mode := Run | Asleep | Woken | TimedOut.

#[export] Instance mode_eq_dec : EqDecision mode.
Proof. solve_decision. Defined.

(** The globals and the place and mode of each task; displays with the value
    shown, 0 when there is none. *)
Record ctest := CT {
  cond_data : Z; mtx : option nat; th : nat -> nat * mode; said : list (string * Z)
}.

Definition upd (k : nat) (t : nat * mode) (f : nat -> nat * mode) : nat -> nat * mode :=
  fun j => if (j =? k)%nat then t else f j.

Definition place (s : ctest) (k : nat) : nat := fst (th s k).
Definition asleep (s : ctest) (k : nat) : bool := bool_decide (snd (th s k) = Asleep).

(** The next call of the task [k], and the step over it. *)
Definition next_call (s : ctest) (k : nat) : option call := code k !! place s k.
Definition go (k : nat) (s : ctest) : ctest :=
  CT (cond_data s) (mtx s) (upd k (S (place s k), Run) (th s)) (said s).
Definition become (k : nat) (m : mode) (s : ctest) : ctest :=
  CT (cond_data s) (mtx s) (upd k (place s k, m) (th s)) (said s).
Definition set_mtx (o : option nat) (s : ctest) : ctest := CT (cond_data s) o (th s) (said s).
Definition assign (n : Z) (s : ctest) : ctest := CT n (mtx s) (th s) (said s).
Definition say (t : string) (v : Z) (s : ctest) : ctest := CT (cond_data s) (mtx s) (th s) (said s ++ [(t, v)]).

Definition is_free (s : ctest) : bool := match mtx s with None => true | Some _ => false end.

(** The tasks that wait on the condition variable. *)
Definition sleepers (s : ctest) : list nat := filter (fun k => asleep s k = true) everyone.

Definition wake_all (s : ctest) : ctest :=
  CT (cond_data s) (mtx s) (fun k => let '(p, m) := th s k in (p, if decide (m = Asleep) then Woken else m)) (said s).

(** The choice of the task to wake. *)
Class SignalPolicy := wakes : ctest -> list nat -> nat.

Section Steps.
Context `{SignalPolicy}.

Definition signal (s : ctest) : ctest :=
  match sleepers s with [] => s | l => become (wakes s l) Woken s end.

(** One step of the task [k]; [None] when it waits or has ended. *)
Definition task_step (k : nat) (s : ctest) : option ctest :=
  match snd (th s k) with
  | Asleep => None
  | Woken => if is_free s then Some (become k Run (set_mtx (Some k) s)) else None
  | TimedOut => if is_free s then Some (go k (set_mtx (Some k) s)) else None
  | Run =>
    match next_call s k with
    | None | Some Barrier => None
    | Some Lock => if is_free s then Some (go k (set_mtx (Some k) s)) else None
    | Some Unlock => Some (go k (set_mtx None s))
    | Some (Wait n) | Some (TimedWait n) =>
        Some (if cond_data s <? n then become k Asleep (set_mtx None s) else go k s)
    | Some (Assign n) => Some (go k (assign n s))
    | Some Signal => Some (go k (signal s))
    | Some Broadcast => Some (go k (wake_all s))
    | Some (Say t) => Some (go k (say t 0 s))
    | Some (SayEq n t) => Some (go k (if cond_data s =? n then say t (cond_data s) s else s))
    | Some (SayLt n t) => Some (go k (if cond_data s <? n then say t (cond_data s) s else s))
    | Some (Join j) => if (place s j =? length (code j))%nat then Some (go k s) else None
    end
  end.

Definition at_barrier (s : ctest) (k : nat) : bool :=
  match snd (th s k), next_call s k with Run, Some Barrier => true | _, _ => false end.

(** The barrier, initialised for five, opens. *)
Definition barrier_step (s : ctest) : option ctest :=
  if forallb (at_barrier s) everyone then Some (foldr go s everyone) else None.

(** The two seconds of [pthread_cond_timedwait] run out. *)
Definition timeout_step (k : nat) (s : ctest) : option ctest :=
  match snd (th s k), next_call s k with
  | Asleep, Some (TimedWait _) => Some (become k TimedOut s)
  | _, _ => None
  end.

Definition is_none {A} (o : option A) : bool := match o with None => true | Some _ => false end.

Definition idle (s : ctest) : bool :=
  forallb (fun k => is_none (task_step k s)) everyone && is_none (barrier_step s).

Inductive event := E_task (k : nat) | E_barrier | E_timeout (k : nat).

Definition cond_event (e : event) (s : ctest) : option ctest :=
  match e with
  | E_task k => if (k <? 5)%nat then task_step k s else None
  | E_barrier => barrier_step s
  | E_timeout k => if (k <? 5)%nat then timeout_step k s else None
  end.

(** The two seconds have passed: nothing else can go on. *)
Definition in_time (e : event) (s : ctest) : bool := match e with E_timeout _ => idle s | _ => true end.

Definition timed_event (e : event) (s : ctest) : option ctest := if in_time e s then cond_event e s else None.

Definition cond_step (s s' : ctest) : Prop := exists e, timed_event e s = Some s'.

Definition cond_start : ctest := CT 0 None (fun _ => (O, Run)) [].

(** Everyone has come to the end. *)
Definition all_ended (s : ctest) : bool := forallb (fun k => (place s k =? length (code k))%nat) everyone.

(** A run by a given order of the steps. *)
Fixpoint run_events (step : event -> ctest -> option ctest) (l : list event) (s : ctest) : option ctest :=
  match l with
  | [] => Some s
  | e :: l => match step e s with Some s => run_events step l s | None => None end
  end.

Lemma run_events_nsteps step l s s' :
  run_events step l s = Some s' -> nsteps (fun s s' => exists e, step e s = Some s') (length l) s s'.
Proof.
  revert s. induction l as [|e l IH]; cbn; intros s E; [injection E as <-; constructor|].
  destruct (step e s) as [s1|] eqn:E1; [|discriminate]. apply nsteps_l with s1; [now exists e | now apply IH].
Qed.

End Steps.

(** The policy of the tasks is by priority: a waiting task is woken, and none that
    waits is more urgent. *)
Class PolicyLaws `{SignalPolicy} : Prop := {
  wakes_one s l : l <> [] -> wakes s l ∈ l;
  wakes_urgent s l k : k ∈ l -> (prio (wakes s l) <= prio k)%nat
}.
