(* ===== verification/CondFacts.v ===== *)
(** * The condition variable exercise: the invariant

    For any code with the shape of these: tasks sleep only at their waits, the
    mutex belongs to the task that is between its lock and its unlock, and the
    barriers are passed together.  For this code: where the tasks are says what
    [cond_data] is and which sleeping task is still to be woken by whom. *)

From stdpp Require Import base functions tactics numbers list strings relations.
From S2P Require Import Prelude Condtest.

(** ** Where a task is *)

(** The task [k] has the mutex when it runs at the place [p]. *)
Definition locked (k p : nat) : bool :=
  foldl (fun b c => match c with Lock => true | Unlock => false | _ => b end) false (take p (code k)).

(** The barriers it has passed. *)
Definition passed (k p : nat) : nat :=
  foldl (fun n c => match c with Barrier => S n | _ => n end) O (take p (code k)).

Definition waits (c : option call) : bool := match c with Some (Wait _) | Some (TimedWait _) => true | _ => false end.

(** Calls are made with the mutex, or without, as they should be. *)
Definition disciplined (k p : nat) : bool :=
  match code k !! p with
  | Some (Lock | Barrier | Join _) => negb (locked k p)
  | Some (Unlock | Wait _ | TimedWait _) => locked k p
  | None => negb (locked k p)
  | _ => true
  end.

Lemma code_disciplined k p : (k < 5)%nat -> disciplined k p = true.
Proof.
  intros Hk. do 5 (destruct k as [|k]; [do 17 (destruct p as [|p]; [reflexivity|]); reflexivity|]). lia.
Qed.

Lemma locked_S k p c : code k !! p = Some c ->
  locked k (S p) = match c with Lock => true | Unlock => false | _ => locked k p end.
Proof. intros E. unfold locked. now rewrite (take_S_r _ _ _ E), foldl_app. Qed.

Lemma passed_S k p c : code k !! p = Some c ->
  passed k (S p) = match c with Barrier => S (passed k p) | _ => passed k p end.
Proof. intros E. unfold passed. now rewrite (take_S_r _ _ _ E), foldl_app. Qed.

(** ** The part of the invariant that any such code has *)

Definition task_ok (k : nat) (t : nat * mode) : Prop :=
  (t.1 <= length (code k))%nat /\ (t.2 <> Run -> waits (code k !! t.1) = true) /\
  (t.2 = TimedOut -> exists n, code k !! t.1 = Some (TimedWait n)).

(** The task runs and is between its lock and its unlock. *)
Definition inside (k : nat) (t : nat * mode) : bool := bool_decide (t.2 = Run) && locked k t.1.

Record sync_ok (s : ctest) : Prop := {
  so_task k : (k < 5)%nat -> task_ok k (th s k);
  so_owner j : mtx s = Some j -> (j < 5)%nat;
  so_mutex k : (k < 5)%nat -> bool_decide (mtx s = Some k) = inside k (th s k);
  so_barrier k : (k < 5)%nat -> passed k (place s k) = passed 0 (place s 0)
}.

(** A change of the mode of a sleeping task keeps it: it is not inside. *)
Definition woken (f g : nat -> nat * mode) : Prop :=
  forall k, g k = f k \/ (f k).2 = Asleep /\ g k = ((f k).1, Woken).

Lemma sync_woken s d g l : sync_ok s -> woken (th s) g -> sync_ok (CT d (mtx s) g l).
Proof.
  intros [Ht Ho Hm Hb] Hw. split; cbn [th mtx place]; [|exact Ho|..].
  - intros k Hk. destruct (Hw k) as [->|[E ->]]; [now apply Ht|]. destruct (Ht k Hk) as (H1 & H2 & H3).
    split_and!; cbn; [exact H1 | intros _; apply H2; congruence | discriminate].
  - intros k Hk. rewrite (Hm k Hk). destruct (Hw k) as [->|[E ->]]; [reflexivity|]. unfold inside. cbn. now rewrite E.
  - assert (Hp : forall k, (g k).1 = (th s k).1) by (intros k; destruct (Hw k) as [->|[_ ->]]; reflexivity).
    intros k Hk. unfold place. cbn. rewrite !Hp. now apply Hb.
Qed.

Lemma woken_refl f : woken f f.
Proof. now left. Qed.

Lemma woken_all s : woken (th s) (th (wake_all s)).
Proof.
  intros k. cbn. destruct (th s k) as [p m] eqn:E. cbn. destruct (decide (m = Asleep)) as [->|]; [right; auto | now left].
Qed.

Lemma woken_one s j : asleep s j = true -> woken (th s) (th (become j Woken s)).
Proof.
  intros Hj%bool_decide_eq_true k. cbn. unfold upd, place. destruct (Nat.eqb_spec k j) as [->|]; [now right | now left].
Qed.

(** The task [k] moves to [t'], perhaps after waking others, and the mutex
    becomes [o']. *)
Lemma sync_move s s' k t' g :
  sync_ok s -> (k < 5)%nat -> woken (th s) g ->
  (forall j, th s' j = upd k t' g j) -> task_ok k t' -> passed k t'.1 = passed k (place s k) ->
  bool_decide (mtx s' = Some k) = inside k t' ->
  (forall j, j <> k -> bool_decide (mtx s' = Some j) = bool_decide (mtx s = Some j)) -> sync_ok s'.
Proof.
  intros Hs Hk Hw Et Ht Hp Hm Hmo. destruct (sync_woken s 0 g [] Hs Hw) as [Ht' Ho' Hm' Hb']. cbn in Ht', Ho', Hm'.
  assert (Hb : forall j, (j < 5)%nat -> passed j (place s' j) = passed j (place s j)).
  { intros j Hj. unfold place in *. rewrite Et. unfold upd. destruct (Nat.eqb_spec j k) as [->|]; [exact Hp|].
    destruct (Hw j) as [->|[_ ->]]; reflexivity. }
  split.
  - intros j Hj. rewrite Et. unfold upd. destruct (Nat.eqb_spec j k) as [->|]; [exact Ht | now apply Ht'].
  - intros j Hj. destruct (decide (j = k)) as [->|Hne]; [exact Hk|]. specialize (Hmo j Hne). rewrite Hj in Hmo.
    rewrite bool_decide_eq_true_2 in Hmo by reflexivity. symmetry in Hmo. now apply bool_decide_eq_true, Ho' in Hmo.
  - intros j Hj. rewrite Et. unfold upd. destruct (Nat.eqb_spec j k) as [->|]; [exact Hm | rewrite Hmo by assumption; now apply Hm'].
  - intros j Hj. rewrite !Hb by lia. now apply (so_barrier s Hs).
Qed.

Lemma task_next k p c : (k < 5)%nat -> code k !! p = Some c -> task_ok k (S p, Run).
Proof. intros Hk E. pose proof (lookup_lt_Some _ _ _ E). split_and!; cbn; [lia | congruence | discriminate]. Qed.

Section Steps.
Context `{PolicyLaws}.

Lemma sleepers_asleep s k : k ∈ sleepers s -> asleep s k = true /\ (k < 5)%nat.
Proof.
  unfold sleepers. intros [H1 H2]%list_elem_of_filter. split; [exact H1|].
  unfold everyone in H2. set_unfold in H2. lia.
Qed.

Lemma woken_signal s : woken (th s) (th (signal s)).
Proof.
  unfold signal. destruct (sleepers s) as [|x l] eqn:E; [apply woken_refl|].
  apply woken_one, (sleepers_asleep s). rewrite E. now apply wakes_one.
Qed.

Lemma signal_mtx s : mtx (signal s) = mtx s /\ cond_data (signal s) = cond_data s /\ said (signal s) = said s.
Proof. unfold signal. now destruct (sleepers s). Qed.

(** What the mutex is when a task is at a call. *)
Lemma run_mutex s k : sync_ok s -> (k < 5)%nat -> (th s k).2 = Run ->
  bool_decide (mtx s = Some k) = locked k (place s k).
Proof. intros Hs Hk E. rewrite (so_mutex s Hs k Hk). unfold inside. now rewrite E. Qed.

(** A call that is neither a lock, nor an unlock, nor a barrier. *)
Definition plain (c : call) : bool := match c with Lock | Unlock | Barrier => false | _ => true end.

Lemma plain_sync s s' k p c g :
  (k < 5)%nat -> sync_ok s -> th s k = (p, Run) -> code k !! p = Some c -> plain c = true -> woken (th s) g ->
  (forall j, th s' j = upd k (S p, Run) g j) -> mtx s' = mtx s -> sync_ok s'.
Proof.
  intros Hk Hs Et E Hc Hw Et' Em. apply (sync_move s s' k (S p, Run) g); try assumption.
  - now apply (task_next k p c).
  - unfold place. rewrite Et. cbn [fst]. rewrite (passed_S k p c E). now destruct c.
  - rewrite Em, (so_mutex s Hs k Hk), Et. unfold inside. cbn [fst snd]. rewrite (locked_S k p c E). now destruct c.
  - intros j _. now rewrite Em.
Qed.

(** The mutex goes from the task to nobody, or back. *)
Lemma mutex_free s : is_free s = true -> mtx s = None.
Proof. unfold is_free. now destruct (mtx s). Qed.

Lemma mutex_sync s k o p' m' p m :
  (k < 5)%nat -> sync_ok s -> th s k = (p, m) -> task_ok k (p', m') -> passed k p' = passed k p ->
  inside k (p', m') = bool_decide (o = Some k) -> (o = Some k \/ o = None) -> (mtx s = Some k \/ mtx s = None) ->
  sync_ok (CT (cond_data s) o (upd k (p', m') (th s)) (said s)).
Proof.
  intros Hk Hs Et Ht Hp Hi Ho Hm. apply (sync_move s _ k (p', m') (th s)); try assumption; try reflexivity.
  - apply woken_refl.
  - unfold place. now rewrite Et.
  - now rewrite Hi.
  - intros j Hj. cbn. rewrite !bool_decide_eq_false_2; [reflexivity | |]; destruct Ho, Hm; congruence.
Qed.

(** A test of a waiting loop: the task sleeps and gives the mutex up, or goes on. *)
Lemma wait_sync s k p c n :
  (k < 5)%nat -> sync_ok s -> th s k = (p, Run) -> code k !! p = Some c -> plain c = true -> waits (Some c) = true ->
  locked k p = true -> sync_ok (if cond_data s <? n then become k Asleep (set_mtx None s) else go k s).
Proof.
  intros Hk Hs Et Ec Hpl Hwt Hl. pose proof (run_mutex s k Hs Hk ltac:(now rewrite Et)) as Hrun.
  unfold place in Hrun. rewrite Et in Hrun. cbn [fst] in Hrun. rewrite Hl in Hrun. apply bool_decide_eq_true in Hrun.
  destruct (cond_data s <? n).
  - unfold become, place. cbn. rewrite Et. cbn. apply (mutex_sync s k None p Asleep p Run); auto.
    pose proof (lookup_lt_Some _ _ _ Ec). split_and!; cbn; [lia | now rewrite Ec | discriminate].
  - unfold go, place. rewrite Et. eapply plain_sync; eauto using woken_refl.
Qed.

Lemma woken_place f g k : woken f g -> (g k).1 = (f k).1.
Proof. intros Hw. destruct (Hw k) as [->|[_ ->]]; reflexivity. Qed.

Lemma signal_place s k : fst (th (signal s) k) = fst (th s k).
Proof. apply woken_place, woken_signal. Qed.

Lemma task_sync k s s' : (k < 5)%nat -> sync_ok s -> task_step k s = Some s' -> sync_ok s'.
Proof.
  intros Hk Hs E. pose proof (so_task s Hs k Hk) as (Hlen & Hwait & Hlate).
  pose proof (code_disciplined k (place s k) Hk) as Hd. unfold disciplined in Hd.
  pose proof (run_mutex s k Hs Hk) as Hrun.
  unfold task_step in E. destruct (th s k) as [p m] eqn:Et. unfold next_call, place in *. rewrite Et in *. cbn [fst snd] in *.
  destruct m.
  - specialize (Hrun eq_refl). destruct (code k !! p) as [c|] eqn:Ec; [|discriminate].
    destruct c; simplify_eq.
    + destruct (is_free s) eqn:Ef; [|discriminate]. injection E as <-. unfold go, place. cbn. rewrite Et.
      apply (mutex_sync s k (Some k) (S p) Run p Run); auto using mutex_free.
      * now apply (task_next k p Lock).
      * now rewrite (passed_S _ _ _ Ec).
      * unfold inside. cbn [fst snd]. rewrite (locked_S _ _ _ Ec). now rewrite !bool_decide_eq_true_2.
    + unfold go, place. cbn. rewrite Et. rewrite Hd in Hrun. apply bool_decide_eq_true in Hrun.
      apply (mutex_sync s k None (S p) Run p Run); auto.
      * now apply (task_next k p Unlock).
      * now rewrite (passed_S _ _ _ Ec).
      * unfold inside. cbn [fst snd]. now rewrite (locked_S _ _ _ Ec).
    + now apply (wait_sync s k p (Wait n) n).
    + now apply (wait_sync s k p (TimedWait n) n).
    + unfold go, place. cbn. rewrite Et. eapply plain_sync; eauto using woken_refl.
    + unfold go, place. rewrite (signal_place s k), Et. cbn.
      eapply plain_sync; eauto using woken_signal. apply signal_mtx.
    + unfold go, place. cbn. rewrite Et. cbn. eapply plain_sync; eauto using woken_all.
    + unfold go, place. cbn. rewrite Et. eapply plain_sync; eauto using woken_refl.
    + destruct (cond_data s =? n); unfold go, place; cbn; rewrite Et; eapply plain_sync; eauto using woken_refl.
    + destruct (cond_data s <? n); unfold go, place; cbn; rewrite Et; eapply plain_sync; eauto using woken_refl.
    + destruct (_ =? _)%nat; [|discriminate]. injection E as <-. unfold go, place. rewrite Et.
      eapply plain_sync; eauto using woken_refl.
  - discriminate.
  - destruct (is_free s) eqn:Ef; [|discriminate]. injection E as <-. unfold become, place. cbn. rewrite Et. cbn.
    specialize (Hwait ltac:(discriminate)).
    apply (mutex_sync s k (Some k) p Run p Woken); auto using mutex_free.
    + split_and!; cbn; [assumption | congruence | discriminate].
    + unfold inside. cbn [fst snd]. rewrite !bool_decide_eq_true_2 by reflexivity. now destruct (code k !! p) as [[]|].
  - destruct (is_free s) eqn:Ef; [|discriminate]. injection E as <-. unfold go, place. cbn. rewrite Et. cbn.
    destruct (Hlate eq_refl) as [n Ec]. rewrite Ec in Hd.
    apply (mutex_sync s k (Some k) (S p) Run p TimedOut); auto using mutex_free.
    + now apply (task_next k p (TimedWait n)).
    + now rewrite (passed_S _ _ _ Ec).
    + unfold inside. cbn [fst snd]. now rewrite (locked_S _ _ _ Ec), Hd, !bool_decide_eq_true_2.
Qed.

Lemma barrier_all s s' : barrier_step s = Some s' ->
  cond_data s' = cond_data s /\ mtx s' = mtx s /\ said s' = said s /\
  forall k, (k < 5)%nat -> th s k = (place s k, Run) /\ code k !! place s k = Some Barrier /\ th s' k = (S (place s k), Run).
Proof.
  unfold barrier_step. destruct (forallb (at_barrier s) everyone) eqn:Ea; [|discriminate]. intros [= <-].
  rewrite forallb_forall in Ea. split_and!; try reflexivity. intros k Hk.
  assert (Hin : In k everyone) by (unfold everyone; cbn; lia).
  specialize (Ea k Hin). unfold at_barrier, next_call in Ea. unfold place in *.
  destruct (th s k) as [p m] eqn:Et. cbn [fst snd] in *.
  destruct m; try discriminate. destruct (code k !! p) as [[]|] eqn:Ec; try discriminate.
  split_and!; try reflexivity. clear Ea Ec Hin. destruct s as [d o f l]. cbn [th] in Et.
  do 5 (destruct k as [|k]; [cbv [foldr everyone go place th upd Nat.eqb fst snd]; now rewrite Et|]). lia.
Qed.

Lemma barrier_sync s s' : sync_ok s -> barrier_step s = Some s' -> sync_ok s'.
Proof.
  intros Hs E. destruct (barrier_all s s' E) as (_ & Em & _ & Ha). split.
  - intros k Hk. destruct (Ha k Hk) as (_ & Ec & ->). now apply (task_next k _ Barrier).
  - rewrite Em. exact (so_owner s Hs).
  - intros k Hk. destruct (Ha k Hk) as (Et & Ec & ->). rewrite Em, (so_mutex s Hs k Hk), Et. unfold inside.
    cbn [fst snd]. now rewrite (locked_S _ _ _ Ec).
  - intros k Hk. pose proof (so_barrier s Hs k Hk) as Hb. destruct (Ha k Hk) as (_ & Ec & Ek).
    destruct (Ha O ltac:(lia)) as (_ & Ec0 & E0). change (place s' k) with (fst (th s' k)). change (place s' 0) with (fst (th s' O)). rewrite Ek, E0. cbn [fst].
    now rewrite (passed_S _ _ _ Ec), (passed_S _ _ _ Ec0), Hb.
Qed.

Lemma timeout_sync k s s' : (k < 5)%nat -> sync_ok s -> timeout_step k s = Some s' -> sync_ok s'.
Proof.
  intros Hk Hs E. unfold timeout_step, next_call, place in E. destruct (th s k) as [p m] eqn:Et. cbn [fst snd] in E.
  destruct m; try discriminate. destruct (code k !! p) as [[]|] eqn:Ec; try discriminate. injection E as <-.
  pose proof (so_mutex s Hs k Hk) as Hm. rewrite Et in Hm.
  apply (sync_move s _ k (p, TimedOut) (th s)); try assumption.
  - apply woken_refl.
  - intros j. unfold become, place. cbn. now rewrite Et.
  - pose proof (lookup_lt_Some _ _ _ Ec). split_and!; cbn; [lia | now rewrite Ec | intros _; now exists n].
  - unfold place. now rewrite Et.
  - reflexivity.
Qed.

End Steps.
