(* ===== verification/CondOrder.v ===== *)
(** * The condition variable exercise: the order of the assignments

    Where the tasks are says what [cond_data] is, and a sleeping task is still to
    be woken. *)

From stdpp Require Import base functions tactics numbers list strings relations.
From S2P Require Import Prelude Condtest CondFacts.

(** The place of a task, as a number. *)
Definition at_ (s : ctest) (k : nat) : Z := Z.of_nat (place s k).

(** The assignments are made in the order 1, 2, 3: of [cond_data] and of the places
    of the tasks, [timed] when the time of task 3 has run out. *)
Record order_view (d p1 p2 p3 p4 : Z) (timed : Prop) : Prop := {
  cv_data3 : 8 <= p3 -> d = 3;
  cv_data2 : p3 < 8 -> 10 <= p1 -> d = 2;
  cv_data1 : p3 < 8 -> p1 < 10 -> 4 <= p4 -> d = 1;
  cv_data0 : p3 < 8 -> p1 < 10 -> p4 < 4 -> d = 0;
  cv_one : 4 <= p1 -> 4 <= p4;
  cv_two : 4 <= p2 -> 10 <= p1;
  cv_out : 4 <= p3 -> 11 <= p1 /\ 8 <= p2 /\ 7 <= p4;
  cv_timed : timed -> 11 <= p1 /\ 8 <= p2 /\ 7 <= p4;
  cv_three1 : 12 <= p1 -> 8 <= p3;
  cv_three2 : 9 <= p2 -> 8 <= p3;
  cv_three4 : 8 <= p4 -> 8 <= p3
}.

Definition order_ok (s : ctest) : Prop :=
  order_view (cond_data s) (at_ s 1) (at_ s 2) (at_ s 3) (at_ s 4) ((th s 3%nat).2 = TimedOut).

(** A task that sleeps is still to be woken. *)
Record wake_ok (s : ctest) : Prop := {
  wk_one : asleep s 1 = true -> (at_ s 1 = 3 -> at_ s 4 <= 5) /\ (at_ s 1 = 11 -> at_ s 3 <= 10);
  wk_two : asleep s 2 = true -> (at_ s 2 = 3 -> at_ s 1 <= 10) /\ (at_ s 2 = 8 -> at_ s 3 <= 10);
  wk_four : asleep s 4 = true -> at_ s 3 <= 10
}.

Section Order.
Context `{PolicyLaws}.

(** What a call waits for. *)
Definition target (c : call) : option Z := match c with Wait n | TimedWait n => Some n | _ => None end.

(** The tasks after a call of the task [k]: who was woken. *)
Definition others (c : call) (s : ctest) : nat -> nat * mode :=
  match c with Signal => th (signal s) | Broadcast => th (wake_all s) | _ => th s end.

(** What a call displays. *)
Definition displays (c : call) (d : Z) : list (string * Z) :=
  match c with
  | Say t => [(t, 0)]
  | SayEq n t => if d =? n then [(t, d)] else []
  | SayLt n t => if d <? n then [(t, d)] else []
  | _ => []
  end.

(** A step of the task [k] puts it to sleep, gives it the mutex back, or makes a
    call: a wait is passed when its condition has come or its time has run out. *)
Inductive moved (k : nat) (s s' : ctest) : Prop :=
| mv_sleep c n :
    (th s k).2 = Run -> said s' = said s ->
    code k !! place s k = Some c -> target c = Some n -> cond_data s < n -> cond_data s' = cond_data s ->
    (forall j, th s' j = upd k (place s k, Asleep) (th s) j) -> moved k s s'
| mv_back : said s' = said s -> (th s k).2 = Woken -> cond_data s' = cond_data s ->
    (forall j, th s' j = upd k (place s k, Run) (th s) j) -> moved k s s'
| mv_call c :
    (th s k).2 = Run \/ (th s k).2 = TimedOut /\ (exists n, c = TimedWait n) ->
    said s' = said s ++ displays c (cond_data s) ->
    code k !! place s k = Some c -> c <> Barrier ->
    (forall n, target c = Some n -> n <= cond_data s \/ (th s k).2 = TimedOut /\ c = TimedWait n) ->
    cond_data s' = (match c with Assign n => n | _ => cond_data s end) ->
    (forall j, th s' j = upd k (S (place s k), Run) (others c s) j) -> moved k s s'.

Lemma task_moved k s s' : (k < 5)%nat -> sync_ok s -> task_step k s = Some s' -> moved k s s'.
Proof.
  intros Hk Hs E. pose proof (so_task s Hs k Hk) as (_ & _ & Hlate).
  unfold task_step, next_call in E. destruct (th s k) as [p m] eqn:Et.
  assert (Ep : place s k = p) by (unfold place; now rewrite Et). rewrite Ep in E. cbn [fst snd] in *.
  destruct m.
  - destruct (code k !! p) as [c|] eqn:Ec; [|discriminate]. rewrite <- Ep in Ec.
    assert (Hgo : forall s1, th s1 = others c s -> c <> Barrier -> said s1 = said s ++ displays c (cond_data s) ->
      (forall n, target c = Some n -> n <= cond_data s) -> cond_data s1 = (match c with Assign n => n | _ => cond_data s end) -> moved k s (go k s1)).
    { intros s1 E1 Hb Hsay Ht Hd. apply (mv_call k s _ c); auto; [left; now rewrite Et|].
      assert (Ep1 : place s1 k = place s k).
      { unfold place. rewrite E1. unfold others. destruct c; try reflexivity; first [apply signal_place | apply woken_place, woken_all]. }
      intros j. cbn. now rewrite Ep1, E1. }
    assert (Hw : forall n, target c = Some n ->
      moved k s (if cond_data s <? n then become k Asleep (set_mtx None s) else go k s)).
    { intros n Hn. destruct (Z.ltb_spec (cond_data s) n).
      - apply (mv_sleep k s _ c n); auto. now rewrite Et.
      - apply Hgo; [now destruct c | now destruct c | destruct c; cbn; now rewrite ?app_nil_r | intros; simplify_eq; lia | now destruct c]. }
    destruct c; try discriminate; try (injection E as <-; exact (Hw _ eq_refl)).
    all: repeat case_match; simplify_eq; apply Hgo; try discriminate; try reflexivity;
      try (cbn; rewrite ?app_nil_r; first [reflexivity | apply signal_mtx]).
    all: cbn [displays said say]; case_match; [try reflexivity | now rewrite ?app_nil_r]; congruence.
  - discriminate.
  - destruct (is_free s); [|discriminate]. injection E as <-. apply mv_back; auto. now rewrite Et.
  - destruct (is_free s); [|discriminate]. injection E as <-. destruct (Hlate eq_refl) as [n Ec].
    apply (mv_call k s _ (TimedWait n)); auto; try discriminate; [right; rewrite Et; eauto | now rewrite app_nil_r | now rewrite Ep|]. intros ? [= <-]. right. now rewrite Et.
Qed.

Lemma others_woken c s : woken (th s) (others c s).
Proof. unfold others. destruct c; first [apply woken_signal | apply woken_all | apply woken_refl]. Qed.

Lemma woken_timed f g k : woken f g -> (g k).2 = TimedOut -> (f k).2 = TimedOut.
Proof. intros Hw. destruct (Hw k) as [->|[_ ->]]; [auto | discriminate]. Qed.

(** Places after a step: those of the other tasks are as before. *)
Lemma upd_place k t g s s' j : (forall j, th s' j = upd k t g j) -> woken (th s) g ->
  place s' j = if (j =? k)%nat then t.1 else place s j.
Proof. intros Et Hw. unfold place. rewrite Et. unfold upd. destruct (j =? k)%nat; [reflexivity | now apply woken_place]. Qed.

Lemma upd_timed k t g s s' j : (forall j, th s' j = upd k t g j) -> woken (th s) g -> t.2 <> TimedOut ->
  (th s' j).2 = TimedOut -> j <> k /\ (th s j).2 = TimedOut.
Proof.
  intros Et Hw Ht. rewrite Et. unfold upd. destruct (Nat.eqb_spec j k); [contradiction|].
  intros Hj. split; [assumption | now apply (woken_timed _ g)].
Qed.

Lemma view_weaken d q1 q2 q3 q4 (P Q : Prop) : (Q -> P) -> order_view d q1 q2 q3 q4 P -> order_view d q1 q2 q3 q4 Q.
Proof. intros HPQ []. split; auto. Qed.

Lemma stay_order k m s s' : m <> TimedOut -> order_ok s -> cond_data s' = cond_data s ->
  (forall j, th s' j = upd k (place s k, m) (th s) j) -> order_ok s'.
Proof.
  intros Hm Ho Ed Eth.
  assert (Ep : forall j, place s' j = place s j).
  { intros j. rewrite (upd_place _ _ _ _ _ _ Eth (woken_refl _)). destruct (Nat.eqb_spec j k); now subst. }
  unfold order_ok, at_ in *. rewrite !Ep, Ed. revert Ho. apply view_weaken.
  intros Ht. apply (upd_timed _ _ _ _ _ _ Eth (woken_refl _)) in Ht; [apply Ht | exact Hm].
Qed.

(** The condition of a wait that was passed. *)
Ltac passing Ht :=
  cbn [target] in Ht;
  try match type of Ht with forall n, Some ?m = Some n -> _ => destruct (Ht m eq_refl) as [?|[? [=]]] end; clear Ht.

Ltac ordered Ho Hti :=
  destruct Ho as [D3 D2 D1 D0 O1 O2 OO OT T1 T2 T4];
  try match goal with HT : (th _ _).2 = TimedOut |- _ => pose proof (OT HT); clear HT end; split; try assumption;
  try (intros HT; destruct (Hti HT) as [Hne HT']; specialize (OT HT'); lia); clear OT Hti; lia.

Lemma moved_order k s s' : (k < 5)%nat -> order_ok s -> moved k s s' -> order_ok s'.
Proof.
  intros Hk Ho [c n _ _ Ec Et Hlt Ed Eth|_ Hw Ed Eth|c _ _ Ec Hb Ht Ed Eth].
  - now apply (stay_order k Asleep s).
  - now apply (stay_order k Run s).
  - pose proof (others_woken c s) as Hw. unfold order_ok, at_ in *. rewrite !(upd_place _ _ _ _ _ _ Eth Hw), Ed. cbn [fst].
    assert (Hti : (th s' 3%nat).2 = TimedOut -> 3%nat <> k /\ (th s 3%nat).2 = TimedOut)
      by (apply (upd_timed _ _ _ _ _ _ Eth Hw); discriminate).
    set (T' := (th s' 3%nat).2 = TimedOut) in *. set (T := (th s 3%nat).2 = TimedOut) in *. clearbody T'.
    clear Eth Hw Ed.
    destruct k as [|[|[|[|[|k]]]]]; [| | | | |lia]; cbn [Nat.eqb]; revert Ho Ec Ht Hti;
      generalize (cond_data s), (place s 1), (place s 2), (place s 3), (place s 4), (place s 0);
      intros d q1 q2 q3 q4 q0 Ho Ec Ht Hti.
    + do 8 try destruct q0 as [|q0]; cbn in Ec; simplify_eq; (revert Ho; apply view_weaken; intros; now apply Hti).
    + do 16 try destruct q1 as [|q1]; cbn in Ec; simplify_eq; passing Ht; ordered Ho Hti.
    + do 13 try destruct q2 as [|q2]; cbn in Ec; simplify_eq; passing Ht; ordered Ho Hti.
    + do 13 try destruct q3 as [|q3]; cbn in Ec; simplify_eq; passing Ht; ordered Ho Hti.
    + do 12 try destruct q4 as [|q4]; cbn in Ec; simplify_eq; passing Ht; ordered Ho Hti.
Qed.


(** ** Sleeping tasks *)

(** The waits of the code: task, place and value waited for. *)
Lemma wait_places k p c n : (k < 5)%nat -> code k !! p = Some c -> target c = Some n ->
  In (k, p, n) [(1, 3, 1%Z); (1, 11, 3%Z); (2, 3, 2%Z); (2, 8, 3%Z); (3, 3, 3%Z); (4, 7, 3%Z)]%nat.
Proof.
  intros Hk Ec Ht. destruct k as [|[|[|[|[|k]]]]]; [| | | | |lia]; do 16 try destruct p as [|p]; cbn in Ec;
    try discriminate; injection Ec as <-; try discriminate; injection Ht as <-; cbn; tauto.
Qed.

Lemma asleep_waits s k : sync_ok s -> (k < 5)%nat -> asleep s k = true -> waits (code k !! place s k) = true.
Proof. intros Hs Hk Ha%bool_decide_eq_true. destruct (so_task s Hs k Hk) as (_ & Hw & _). apply Hw. congruence. Qed.

(** A signal wakes the most urgent of the sleeping tasks. *)
Lemma signal_wakes s j : (j < 5)%nat -> asleep s j = true -> (forall i, (i < j)%nat -> asleep s i = false) ->
  asleep (signal s) j = false.
Proof.
  intros Hj Ha Hu.
  assert (Hin : j ∈ sleepers s).
  { apply list_elem_of_filter. split; [exact Ha|]. unfold everyone. set_unfold. lia. }
  unfold signal. destruct (sleepers s) as [|x l] eqn:E; [set_solver|]. rewrite <- E in *.
  assert (Hx : wakes s (sleepers s) ∈ sleepers s) by (apply wakes_one; rewrite E; discriminate).
  pose proof (wakes_urgent s _ j Hin) as Hp. destruct (sleepers_asleep _ _ Hx) as [Hxa Hx5].
  revert Hxa Hx5 Hp. generalize (wakes s (sleepers s)). intros i Hxa Hx5 Hp.
  assert (Hle : (i <= j)%nat) by (do 5 (destruct i as [|i]; [do 5 (destruct j as [|j]; [cbn in Hp; lia|]); lia|]); lia).
  destruct (decide (i = j)) as [->|]; [|rewrite Hu in Hxa by lia; discriminate].
  unfold asleep, become, upd. cbn. now rewrite Nat.eqb_refl.
Qed.

Lemma main_awake s : sync_ok s -> asleep s 0 = false.
Proof.
  intros Hs. apply not_true_iff_false. intros Ha. apply (asleep_waits s 0 Hs ltac:(lia)) in Ha.
  destruct (place s 0) as [|[|[|[|[|[|[|[|]]]]]]]]; discriminate.
Qed.

Lemma woken_asleep s s' g k t j : (forall j, th s' j = upd k t g j) -> woken (th s) g -> t.2 <> Asleep ->
  asleep s' j = true -> j <> k /\ asleep s j = true /\ (g j).2 = Asleep.
Proof.
  intros Et Hw Ht. unfold asleep. rewrite Et. unfold upd. destruct (Nat.eqb_spec j k) as [->|Hne].
  - intros Ha%bool_decide_eq_true. contradiction.
  - intros Ha%bool_decide_eq_true. split_and!; auto. apply bool_decide_eq_true.
    destruct (Hw j) as [E|[E _]]; congruence.
Qed.

Lemma signal_one s : sync_ok s -> asleep s 1 = true -> asleep (signal s) 1 = false.
Proof. intros Hs Ha. apply signal_wakes; [lia | exact Ha|]. intros [|i] Hi; [now apply main_awake | lia]. Qed.

Lemma signal_two s : sync_ok s -> place s 1 = 10%nat -> asleep s 2 = true -> asleep (signal s) 2 = false.
Proof.
  intros Hs E1 Ha. apply signal_wakes; [lia | exact Ha|]. intros [|[|i]] Hi; [now apply main_awake | | lia].
  apply not_true_iff_false. intros H1. apply (asleep_waits s 1 Hs ltac:(lia)) in H1. rewrite E1 in H1. discriminate.
Qed.

Lemma broadcast_wakes s j : asleep (wake_all s) j = false.
Proof. unfold asleep. cbn. destruct (th s j) as [p m]. cbn. now destruct m. Qed.

(** A task that goes to sleep does so before it is to be woken. *)
Lemma sleep_wake k s s' c n : (k < 5)%nat -> order_ok s -> wake_ok s ->
  code k !! place s k = Some c -> target c = Some n -> cond_data s < n ->
  (forall j, th s' j = upd k (place s k, Asleep) (th s) j) -> wake_ok s'.
Proof.
  intros Hk Ho [W1 W2 W4] Ec Et Hlt Eth.
  assert (Ep : forall j, at_ s' j = at_ s j).
  { intros j. unfold at_. rewrite (upd_place _ _ _ _ _ _ Eth (woken_refl _)). destruct (Nat.eqb_spec j k); now subst. }
  assert (Ea : forall j, asleep s' j = true -> j = k \/ asleep s j = true).
  { intros j. unfold asleep. rewrite Eth. unfold upd. destruct (Nat.eqb_spec j k); auto. }
  pose proof (wait_places k _ c n Hk Ec Et) as Hin. unfold order_ok in Ho.
  assert (Hpk : at_ s k = Z.of_nat (place s k)) by reflexivity.
  destruct Ho as [D3 D2 D1 D0 O1 O2 OO _ T1 T2 T4].
  cbn in Hin. split; rewrite !Ep; intros [Ek|Ha]%Ea; auto; clear W1 W2 W4; try (subst k); simplify_eq;
    destruct Hin as [E|[E|[E|[E|[E|[E|[]]]]]]]; try discriminate; injection E; intros; lia.
Qed.

Lemma call_wake k s s' c : (k < 5)%nat -> sync_ok s -> order_ok s -> wake_ok s ->
  code k !! place s k = Some c -> (forall j, th s' j = upd k (S (place s k), Run) (others c s) j) -> wake_ok s'.
Proof.
  intros Hk Hs Ho [W1 W2 W4] Ec Eth. pose proof (others_woken c s) as Hw.
  assert (Ep : forall j, at_ s' j = if (j =? k)%nat then at_ s j + 1 else at_ s j).
  { intros j. unfold at_. rewrite (upd_place _ _ _ _ _ _ Eth Hw). destruct (Nat.eqb_spec j k); subst; cbn [fst]; lia. }
  assert (Ea : forall j, asleep s' j = true -> j <> k /\ asleep s j = true /\ (others c s j).2 = Asleep)
    by (intros j; now apply (woken_asleep s s' _ _ _ _ Eth Hw)).
  assert (Hbc : forall j, asleep s' j = true -> c <> Broadcast).
  { intros j Hj ->. destruct (Ea j Hj) as (_ & _ & Hj'). pose proof (broadcast_wakes s j) as Hb.
    unfold asleep in Hb. apply bool_decide_eq_false in Hb. contradiction. }
  assert (H3 : forall j, asleep s' j = true -> at_ s 3 <= 10 -> at_ s' 3 <= 10).
  { intros j Hj Hle. rewrite Ep. destruct (Nat.eqb_spec 3 k) as [<-|]; [|exact Hle]. unfold at_ in *.
    destruct (Nat.eq_dec (place s 3) 10%nat) as [E|]; [|lia]. rewrite E in Ec. cbn in Ec. injection Ec as <-. now destruct (Hbc j Hj). }
  split; intros Ha; pose proof (H3 _ Ha) as H3'; destruct (Ea _ Ha) as (Hne & Ha0 & Hg).
  - destruct (W1 Ha0) as [Wa Wb]. rewrite !(Ep 1%nat), (proj2 (Nat.eqb_neq _ _) Hne). split; [|auto]. intros E. specialize (Wa E).
    rewrite Ep. destruct (Nat.eqb_spec 4 k) as [<-|]; [|exact Wa]. unfold at_ in *.
    destruct (Nat.eq_dec (place s 4) 5%nat) as [E4|]; [exfalso | lia]. rewrite E4 in Ec. injection Ec as <-.
    pose proof (signal_one s Hs Ha0) as Hb. unfold asleep in Hb. apply bool_decide_eq_false in Hb. contradiction.
  - destruct (W2 Ha0) as [Wa Wb]. rewrite !(Ep 2%nat), (proj2 (Nat.eqb_neq _ _) Hne). split; [|auto]. intros E. specialize (Wa E).
    rewrite Ep. destruct (Nat.eqb_spec 1 k) as [<-|]; [|exact Wa]. unfold at_ in *.
    destruct (Nat.eq_dec (place s 1) 10%nat) as [E1|]; [exfalso | lia]. rewrite E1 in Ec. injection Ec as <-.
    pose proof (signal_two s Hs E1 Ha0) as Hb. unfold asleep in Hb. apply bool_decide_eq_false in Hb. contradiction.
  - auto.
Qed.

Lemma back_wake k s s' : wake_ok s -> (forall j, th s' j = upd k (place s k, Run) (th s) j) -> wake_ok s'.
Proof.
  intros [W1 W2 W4] Eth.
  assert (Ep : forall j, at_ s' j = at_ s j).
  { intros j. unfold at_. rewrite (upd_place _ _ _ _ _ _ Eth (woken_refl _)). destruct (Nat.eqb_spec j k); now subst. }
  split; intros Ha; rewrite !Ep; apply (woken_asleep s s' _ _ _ _ Eth (woken_refl _)) in Ha as (_ & Ha & _); auto; discriminate.
Qed.

Lemma moved_wake k s s' : (k < 5)%nat -> sync_ok s -> order_ok s -> wake_ok s -> moved k s s' -> wake_ok s'.
Proof.
  intros Hk Hs Ho Hw [c n _ _ Ec Et Hlt Ed Eth|_ _ _ Eth|c _ _ Ec _ _ _ Eth].
  - now apply (sleep_wake k s s' c n).
  - now apply (back_wake k s).
  - now apply (call_wake k s s' c).
Qed.

(** ** The whole invariant *)

Definition cond_inv (s : ctest) : Prop := sync_ok s /\ order_ok s /\ wake_ok s.

Lemma cond_task_inv k s s' : (k < 5)%nat -> cond_inv s -> task_step k s = Some s' -> cond_inv s'.
Proof.
  intros Hk (Hs & Ho & Hw) E. pose proof (task_moved k s s' Hk Hs E) as Hm.
  split_and!; [now apply (task_sync k s) | now apply (moved_order k s) | now apply (moved_wake k s)].
Qed.

(** The place of the second barrier; the first is the first call. *)
Definition second (k : nat) : nat := match k with 0 => 2 | 1 => 14 | 2 | 3 => 11 | _ => 10 end%nat.

Lemma barrier_places k p : (k < 5)%nat -> code k !! p = Some Barrier -> p = O \/ p = second k.
Proof.
  intros Hk Ec. destruct k as [|[|[|[|[|k]]]]]; [| | | | |lia]; do 16 try destruct p as [|p]; cbn in Ec;
    try discriminate; auto.
Qed.

Lemma barrier_inv s s' : cond_inv s -> barrier_step s = Some s' -> cond_inv s'.
Proof.
  intros (Hs & Ho & Hw) E. destruct (barrier_all s s' E) as (Ed & _ & _ & Ha).
  assert (Hp : forall k, (k < 5)%nat -> at_ s' k = at_ s k + 1).
  { intros k Hk. destruct (Ha k Hk) as (_ & _ & Ek). unfold at_, place at 1. rewrite Ek. cbn [fst]. lia. }
  assert (Hm : forall k, (k < 5)%nat -> (th s' k).2 = Run) by (intros k Hk; destruct (Ha k Hk) as (_ & _ & ->); reflexivity).
  split_and!; [now apply (barrier_sync s)| |].
  - unfold order_ok in *. rewrite !Hp, Ed by lia.
    apply (view_weaken _ _ _ _ _ ((th s 3%nat).2 = TimedOut)); [rewrite Hm by lia; discriminate|].
    assert (Hb : forall k, (k < 5)%nat -> at_ s k = 0 \/ at_ s k = Z.of_nat (second k)).
    { intros k Hk. destruct (barrier_places k (place s k) Hk) as [E'|E']; [apply (Ha k Hk)|..]; unfold at_; rewrite E'; auto. }
    pose proof (Hb 1%nat ltac:(lia)). pose proof (Hb 2%nat ltac:(lia)). pose proof (Hb 3%nat ltac:(lia)).
    pose proof (Hb 4%nat ltac:(lia)). cbn [second] in *. clear Hb Ha.
    destruct Ho as [? ? ? ? ? ? ? OT ? ? ?]; split; try lia. intros HT. specialize (OT HT). lia.
  - split; intros Hx%bool_decide_eq_true; rewrite Hm in Hx by lia; discriminate.
Qed.

(** ** When nothing but time can pass *)

Lemma idle_spec s : idle s = true -> (forall k, (k < 5)%nat -> task_step k s = None) /\ barrier_step s = None.
Proof.
  intros [Ha Hb]%andb_true_iff. rewrite forallb_forall in Ha. split.
  - intros k Hk. specialize (Ha k). destruct (task_step k s); [|reflexivity]. discriminate Ha. unfold everyone. cbn. lia.
  - now destruct (barrier_step s).
Qed.

(** The owner of the mutex can always go on. *)
Lemma idle_free s : sync_ok s -> idle s = true -> mtx s = None.
Proof.
  intros Hs Hi. destruct (idle_spec s Hi) as [Ht _]. destruct (mtx s) as [k|] eqn:Em; [exfalso|reflexivity].
  pose proof (so_owner s Hs k Em) as Hk. pose proof (so_mutex s Hs k Hk) as Hm. rewrite Em, bool_decide_eq_true_2 in Hm by reflexivity.
  symmetry in Hm. apply andb_true_iff in Hm as [Hr%bool_decide_eq_true Hl].
  specialize (Ht k Hk). unfold task_step in Ht. rewrite Hr in Ht.
  pose proof (code_disciplined k (place s k) Hk) as Hd. unfold disciplined in Hd. unfold next_call, place in *. rewrite Hl in Hd.
  destruct (code k !! (th s k).1) as [[]|]; discriminate.
Qed.

(** Where a task is then. *)
Inductive rests (s : ctest) (k : nat) : Prop :=
| rests_asleep : asleep s k = true -> rests s k
| rests_barrier : at_barrier s k = true -> rests s k
| rests_join j : code k !! place s k = Some (Join j) -> place s j <> length (code j) -> rests s k
| rests_end : place s k = length (code k) -> rests s k.

Lemma idle_rests s k : sync_ok s -> idle s = true -> (k < 5)%nat -> rests s k.
Proof.
  intros Hs Hi Hk. pose proof (idle_free s Hs Hi) as Hf. pose proof (proj1 (idle_spec s Hi) k Hk) as E.
  destruct (so_task s Hs k Hk) as (Hlen & _). unfold task_step, is_free in E. rewrite Hf in E.
  destruct (th s k).2 eqn:Em; try discriminate; [|apply rests_asleep; now apply bool_decide_eq_true].
  unfold next_call in E. destruct (code k !! place s k) as [c|] eqn:Ec.
  - destruct c; try discriminate.
    + apply rests_barrier. unfold at_barrier, next_call. now rewrite Em, Ec.
    + apply (rests_join s k k0); [exact Ec|]. destruct (Nat.eqb_spec (place s k0) (length (code k0))); [discriminate | assumption].
  - apply rests_end. apply lookup_ge_None in Ec. unfold place in *. lia.
Qed.

End Order.
