(* ===== verification/CondRun.v ===== *)
(** * The condition variable exercise: it runs to its end

    The invariant of every state that can be reached, what is left to do, and that
    a state where nothing can be done is the end. *)

From stdpp Require Import base functions tactics numbers list strings relations.
From S2P Require Import Prelude Condtest CondFacts CondOrder.

(** What the tasks display, call by call. *)
Definition meant (c : call) : list (string * Z) :=
  match c with Say t => [(t, 0)] | SayEq n t => [(t, n)] | SayLt n t => [(t, n - 1)] | _ => [] end.

Definition texts (k p : nat) : list (string * Z) := take p (code k) ≫= meant.

Section Run.
Context `{PolicyLaws}.

(** ** Where everybody is when nothing but time can pass *)

Inductive rest_place (s : ctest) (k : nat) : Prop :=
| rp_asleep : asleep s k = true -> In (k, place s k) [(1, 3); (1, 11); (2, 3); (2, 8); (3, 3); (4, 7)]%nat -> rest_place s k
| rp_first : at_barrier s k = true -> place s k = O -> rest_place s k
| rp_second : at_barrier s k = true -> place s k = second k -> rest_place s k
| rp_join j : k = O -> place s O = (j + 2)%nat -> (1 <= j <= 4)%nat -> place s j <> length (code j) -> rest_place s k
| rp_end : place s k = length (code k) -> rest_place s k.

Lemma idle_place s k : sync_ok s -> idle s = true -> (k < 5)%nat -> rest_place s k.
Proof.
  intros Hs Hi Hk. destruct (idle_rests s k Hs Hi Hk) as [Ha|Hb|j Ec Hj|He]; [| | |now apply rp_end].
  - pose proof (asleep_waits s k Hs Hk Ha) as Hw. apply rp_asleep; [exact Ha|].
    destruct (code k !! place s k) as [c|] eqn:Ec; [|discriminate].
    assert (exists n, target c = Some n) as [n Ht] by (destruct c; try discriminate; eexists; reflexivity).
    pose proof (wait_places k _ c n Hk Ec Ht) as Hin. cbn in *. intuition congruence.
  - assert (Ec : code k !! place s k = Some Barrier).
    { unfold at_barrier, next_call in Hb. destruct (th s k).2; try discriminate. now destruct (code k !! place s k) as [[]|]. }
    destruct (barrier_places k _ Hk Ec); [now apply rp_first | now apply rp_second].
  - apply (rp_join s k j).
    all: destruct k as [|[|[|[|[|k]]]]]; [| | | | |lia]; revert Ec; generalize (place s 0), (place s 1), (place s 2), (place s 3), (place s 4).
    all: intros p0 p1 p2 p3 p4 Ec.
    all: first [reflexivity | assumption | idtac].
    all: first [do 16 try destruct p0 as [|p0]; try discriminate Ec; injection Ec; intros; lia
               |do 16 try destruct p1 as [|p1]; discriminate Ec|do 16 try destruct p2 as [|p2]; discriminate Ec
               |do 16 try destruct p3 as [|p3]; discriminate Ec|do 16 try destruct p4 as [|p4]; discriminate Ec].
Qed.

(** How many barriers the task has passed there. *)
Lemma rest_passed s k : (k < 5)%nat -> rest_place s k ->
  match passed k (place s k) with
  | 0 => place s k = O /\ at_barrier s k = true
  | 1 => asleep s k = true /\ In (k, place s k) [(1, 3); (1, 11); (2, 3); (2, 8); (3, 3); (4, 7)] \/
         at_barrier s k = true /\ place s k = second k
  | _ => place s k = length (code k) \/
         exists j, k = O /\ (1 <= j <= 4) /\ place s j <> length (code j)
  end%nat.
Proof.
  intros Hk [Ha Hin|Hb E|Hb E|j -> E Hj Hn|E].
  - assert (passed k (place s k) = 1%nat) as ->; [|now left].
    cbn in Hin. destruct Hin as [[= <- <-]|[[= <- <-]|[[= <- <-]|[[= <- <-]|[[= <- <-]|[[= <- <-]|[]]]]]]]; reflexivity.
  - rewrite E. now split.
  - assert (passed k (place s k) = 1%nat) as ->; [|now right].
    rewrite E. destruct k as [|[|[|[|[|k]]]]]; try reflexivity.
  - assert (passed 0 (place s 0) = 2%nat) as ->; [|eauto].
    rewrite E. destruct j as [|[|[|[|[|j]]]]]; try reflexivity; lia.
  - assert (passed k (place s k) = 2%nat) as ->; [|now left].
    rewrite E. destruct k as [|[|[|[|[|k]]]]]; try reflexivity.
Qed.

Lemma barrier_opens s : (forall k, (k < 5)%nat -> at_barrier s k = true) -> barrier_step s <> None.
Proof.
  intros Ha. unfold barrier_step. replace (forallb (at_barrier s) everyone) with true; [discriminate|].
  symmetry. apply forallb_forall. intros k Hk. apply Ha. unfold everyone in Hk. cbn in Hk. lia.
Qed.

(** The tasks that sleep while task 3 can be timed out: the others wait for 3. *)
Lemma idle_third s : cond_inv s -> idle s = true -> place s 3 = 3%nat -> 11 <= at_ s 1 /\ 8 <= at_ s 2 /\ 7 <= at_ s 4.
Proof.
  intros (Hs & Ho & [W1 W2 _]) Hi E3.
  assert (Hp : forall k, (k < 5)%nat -> passed k (place s k) = 1%nat).
  { intros k Hk. rewrite (so_barrier s Hs k Hk), <- (so_barrier s Hs 3 ltac:(lia)), E3. reflexivity. }
  assert (Hc : forall k, (k < 5)%nat -> asleep s k = true /\ In (k, place s k) [(1, 3); (1, 11); (2, 3); (2, 8); (3, 3); (4, 7)]%nat \/
         at_barrier s k = true /\ place s k = second k).
  { intros k Hk. pose proof (rest_passed s k Hk (idle_place s k Hs Hi Hk)) as Hr. now rewrite Hp in Hr. }
  pose proof (Hc 1%nat ltac:(lia)) as H1. pose proof (Hc 2%nat ltac:(lia)) as H2. pose proof (Hc 4%nat ltac:(lia)) as H4.
  unfold at_ in *. cbn [second In] in *. clear Hc Hp.
  assert (7 <= Z.of_nat (place s 4)) by (destruct H4 as [[_ H4]|[_ ->]]; [|lia]; intuition (simplify_eq; lia)).
  assert (11 <= Z.of_nat (place s 1)).
  { destruct H1 as [[Ha H1]|[_ ->]]; [|lia]. destruct (W1 Ha) as [W _]. intuition (simplify_eq; lia). }
  split_and!; try assumption.
  destruct H2 as [[Ha H2]|[_ ->]]; [|lia]. destruct (W2 Ha) as [W _]. intuition (simplify_eq; lia).
Qed.

(** Only task 3 has a time to run out. *)
Lemma timeout_third k s s' : (k < 5)%nat -> timeout_step k s = Some s' ->
  k = 3%nat /\ place s 3 = 3%nat /\ (th s 3%nat).2 = Asleep /\ s' = become 3 TimedOut s.
Proof.
  intros Hk. unfold timeout_step, next_call. destruct (th s k).2 eqn:Em; try discriminate.
  destruct (code k !! place s k) as [c|] eqn:Ec; [|discriminate]. destruct c; try discriminate. intros [= <-].
  pose proof (wait_places k _ _ n Hk Ec eq_refl) as Hin.
  assert (k = 3%nat /\ place s k = 3%nat) as [-> E3]; [|auto].
  cbn in Hin. destruct Hin as [E|[E|[E|[E|[E|[E|[]]]]]]]; injection E as <- Ep <-; rewrite <- Ep in *; try discriminate; auto.
Qed.

Lemma timeout_inv k s s' : (k < 5)%nat -> cond_inv s -> idle s = true -> timeout_step k s = Some s' -> cond_inv s'.
Proof.
  intros Hk Hinv Hi E. destruct (timeout_third k s s' Hk E) as (-> & E3 & Ea & ->).
  pose proof (idle_third s Hinv Hi E3) as H3. destruct Hinv as (Hs & Ho & [W1 W2 W4]).
  assert (Eth : forall j, th (become 3 TimedOut s) j = upd 3 (place s 3, TimedOut) (th s) j) by reflexivity.
  assert (Ep : forall j, at_ (become 3 TimedOut s) j = at_ s j).
  { intros j. unfold at_. rewrite (upd_place _ _ _ _ _ _ Eth (woken_refl _)). destruct (Nat.eqb_spec j 3); now subst. }
  split_and!; [now apply (timeout_sync 3 s)| |].
  - unfold order_ok in *. rewrite !Ep. cbn [cond_data become]. destruct Ho. split; auto.
  - split; intros Hx; rewrite !Ep; apply (woken_asleep s _ _ _ _ _ Eth (woken_refl _)) in Hx as (_ & Hx & _); auto; discriminate.
Qed.

Lemma start_inv : cond_inv cond_start.
Proof.
  split_and!; split; cbn; try lia; try discriminate; try reflexivity.
  { intros k Hk. split_and!; cbn; [lia | congruence | discriminate]. }
  all: unfold at_, place; cbn; lia.
Qed.

Lemma step_inv s s' : cond_inv s -> cond_step s s' -> cond_inv s'.
Proof.
  intros Hs [[k| |k] E]; unfold timed_event in E; cbn [in_time cond_event] in E.
  - destruct (Nat.ltb_spec k 5); [now apply (cond_task_inv k s) | discriminate].
  - now apply (barrier_inv s).
  - destruct (idle s) eqn:Ei; [|discriminate]. destruct (Nat.ltb_spec k 5); [|discriminate]. now apply (timeout_inv k s).
Qed.

(** ** When nothing can be done it is the end *)

Lemma ended s : (forall k, (k < 5)%nat -> place s k = length (code k)) -> all_ended s = true.
Proof.
  intros Hk. apply forallb_forall. intros k Hin. apply Nat.eqb_eq, Hk. unfold everyone in Hin. cbn in Hin. lia.
Qed.

Lemma idle_end s : cond_inv s -> idle s = true -> timeout_step 3 s = None -> all_ended s = true.
Proof.
  intros (Hs & Ho & [W1 W2 W4]) Hi Ht.
  assert (Hr : forall k, (k < 5)%nat -> rest_place s k) by (intros; now apply idle_place).
  assert (Hp : forall k, (k < 5)%nat -> passed k (place s k) = passed 3 (place s 3)).
  { intros k Hk. now rewrite (so_barrier s Hs k Hk), <- (so_barrier s Hs 3 ltac:(lia)). }
  pose proof (proj2 (idle_spec s Hi)) as Hb.
  pose proof (rest_passed s 3 ltac:(lia) (Hr 3%nat ltac:(lia))) as H3.
  assert (Hq : forall k n, (k < 5)%nat -> passed 3 (place s 3) = n -> passed k (place s k) = n) by (intros; rewrite Hp; auto).
  assert (Hrk : forall k, (k < 5)%nat -> _) by (intros k Hk; exact (rest_passed s k Hk (Hr k Hk))).
  clear Hp Hr. destruct (passed 3 (place s 3)) as [|[|n]].
  - exfalso. apply (barrier_opens s); [|exact Hb]. intros k Hk. specialize (Hrk k Hk). rewrite (Hq k 0%nat Hk eq_refl) in Hrk. apply Hrk.
  - destruct H3 as [[Ha Hin]|[_ E3]].
    { exfalso. apply bool_decide_eq_true in Ha. unfold timeout_step, next_call in Ht. rewrite Ha in Ht.
      assert (place s 3 = 3%nat) as E by (cbn in Hin; intuition congruence). rewrite E in Ht. discriminate. }
    exfalso. apply (barrier_opens s); [|exact Hb]. intros k Hk. specialize (Hrk k Hk). rewrite (Hq k 1%nat Hk eq_refl) in Hrk.
    destruct Hrk as [[Ha Hin]|[Hbk _]]; [exfalso | exact Hbk]. unfold order_ok, at_ in *. rewrite E3 in *.
    destruct Ho as [? ? ? ? ? ? OO _ ? ? ?]. destruct (OO ltac:(cbn; lia)) as (? & ? & ?).
    cbn [In second] in *. destruct Hin as [[= <- Ep]|[[= <- Ep]|[[= <- Ep]|[[= <- Ep]|[[= <- Ep]|[[= <- Ep]|[]]]]]]];
      first [destruct (W1 Ha) as [Wa Wb] | destruct (W2 Ha) as [Wa Wb] | pose proof (W4 Ha) | idtac]; lia.
  - assert (Hend : forall k, (1 <= k < 5)%nat -> place s k = length (code k)).
    { intros k Hk. specialize (Hrk k ltac:(lia)). rewrite (Hq k (S (S n)) ltac:(lia) eq_refl) in Hrk.
      destruct Hrk as [Hrk|(j & -> & _)]; [exact Hrk | lia]. }
    apply ended. intros [|k] Hk; [|apply Hend; lia]. specialize (Hrk O Hk). rewrite (Hq O (S (S n)) ltac:(lia) eq_refl) in Hrk.
    destruct Hrk as [Hrk|(j & _ & Hj & Hn)]; [exact Hrk|]. exfalso. apply Hn, Hend. lia.
Qed.

(** ** What is left to do *)

(** A call, with the waking it may cause; a place of a task and its mode. *)
Definition cost (c : call) : nat :=
  match c with Signal => 3 | Broadcast => 11 | TimedWait _ => 3 | _ => 1 end%nat.
Definition rank (m : mode) : nat := match m with Woken => 3 | Run => 2 | Asleep => 1 | TimedOut => 0 end%nat.
Definition left_over (k : nat) (t : nat * mode) : nat := (sum_list (cost <$> drop t.1 (code k)) + rank t.2)%nat.
Definition to_do (f : nat -> nat * mode) : nat := sum_list ((fun k => left_over k (f k)) <$> everyone).

Lemma left_next k p c m : code k !! p = Some c ->
  (left_over k (S p, Run) + cost c + rank m = left_over k (p, m) + 2)%nat.
Proof. intros Ec. unfold left_over. cbn [fst snd rank]. rewrite (drop_S _ _ _ Ec). cbn. lia. Qed.

Lemma to_do_upd k t f : (k < 5)%nat -> (to_do (upd k t f) + left_over k (f k) = to_do f + left_over k t)%nat.
Proof.
  intros Hk. unfold to_do, everyone, upd. do 5 (destruct k as [|k]; [cbn [fmap list_fmap sum_list Nat.eqb id]; lia|]). lia.
Qed.

Lemma to_do_ext f g : (forall k, f k = g k) -> to_do f = to_do g.
Proof. intros E. unfold to_do. f_equal. apply list_fmap_ext. intros i k _. now rewrite E. Qed.

Lemma to_do_signal s : (to_do (th (signal s)) <= to_do (th s) + 2)%nat.
Proof.
  unfold signal. destruct (sleepers s) as [|x l] eqn:E; [lia|]. rewrite <- E.
  assert (Hx : wakes s (sleepers s) ∈ sleepers s) by (apply wakes_one; now rewrite E).
  destruct (sleepers_asleep s _ Hx) as [Ha%bool_decide_eq_true Hk]. cbn [th become].
  pose proof (to_do_upd _ (place s (wakes s (sleepers s)), Woken) (th s) Hk) as Hu.
  unfold left_over in Hu. rewrite Ha in Hu. unfold place in *. cbn [fst snd rank] in Hu. lia.
Qed.

Lemma to_do_all s : (to_do (th (wake_all s)) <= to_do (th s) + 10)%nat.
Proof.
  assert (Hk : forall k, (left_over k (th (wake_all s) k) <= left_over k (th s k) + 2)%nat).
  { intros k. cbn [th wake_all]. destruct (th s k) as [p m]. unfold left_over. destruct m; cbn [fst snd rank decide]; case_match; cbn [rank] in *; try discriminate; lia. }
  unfold to_do, everyone. cbn [fmap list_fmap sum_list id].
  pose proof (Hk 0%nat). pose proof (Hk 1%nat). pose proof (Hk 2%nat). pose proof (Hk 3%nat). pose proof (Hk 4%nat). lia.
Qed.

Lemma to_do_others c s : (to_do (others c s) + 1 <= to_do (th s) + cost c)%nat.
Proof. pose proof (to_do_signal s). pose proof (to_do_all s). destruct c; cbn [others cost]; lia. Qed.

Lemma moved_less k s s' : (k < 5)%nat -> moved k s s' -> (to_do (th s') < to_do (th s))%nat.
Proof.
  intros Hk [c n Hr _ Ec _ _ _ Eth|_ Hw _ Eth|c Hm _ Ec Hb _ _ Eth]; rewrite (to_do_ext _ _ Eth).
  - pose proof (to_do_upd k (place s k, Asleep) (th s) Hk) as Hu. unfold left_over, place in *. rewrite Hr in Hu. cbn [fst snd rank] in Hu. lia.
  - pose proof (to_do_upd k (place s k, Run) (th s) Hk) as Hu. unfold left_over, place in *. rewrite Hw in Hu. cbn [fst snd rank] in Hu. lia.
  - pose proof (to_do_upd k (S (place s k), Run) (others c s) Hk) as Hu. pose proof (to_do_others c s) as Ho.
    pose proof (left_next k (place s k) c (th s k).2 Ec) as Hn.
    assert (Hge : (left_over k (th s k) <= left_over k (others c s k))%nat).
    { destruct (others_woken c s k) as [->|[E ->]]; [lia|]. unfold left_over. rewrite E. cbn [fst snd rank]. lia. }
    unfold place in *. destruct (th s k) as [p m]. cbn [fst snd] in *.
    destruct Hm as [->|[-> [n ->]]]; cbn [rank cost] in *; [|unfold others in *]; lia.
Qed.

Lemma barrier_less s s' : barrier_step s = Some s' -> (to_do (th s') < to_do (th s))%nat.
Proof.
  intros E. destruct (barrier_all s s' E) as (_ & _ & _ & Ha).
  assert (Hk : forall k, (k < 5)%nat -> (left_over k (th s' k) + 1 = left_over k (th s k))%nat).
  { intros k Hk. destruct (Ha k Hk) as (Et & Ec & ->). pose proof (left_next k _ _ Run Ec) as Hn. rewrite Et. cbn [cost rank] in Hn. lia. }
  unfold to_do, everyone. cbn [fmap list_fmap sum_list id].
  pose proof (Hk 0%nat). pose proof (Hk 1%nat). pose proof (Hk 2%nat). pose proof (Hk 3%nat). pose proof (Hk 4%nat). lia.
Qed.

Lemma step_less s s' : cond_inv s -> cond_step s s' -> (to_do (th s') < to_do (th s))%nat.
Proof.
  intros (Hs & _) [[k| |k] E]; unfold timed_event in E; cbn [in_time cond_event] in E;
    try (destruct (idle s); [|discriminate]); [| now apply barrier_less |];
    (destruct (Nat.ltb_spec k 5) as [Hk|]; [|discriminate]).
  - now apply (moved_less k), task_moved.
  - destruct (timeout_third k s s' Hk E) as (-> & _ & Ha & ->).
    pose proof (to_do_upd 3 (place s 3, TimedOut) (th s) Hk) as Hu. unfold left_over, place in Hu.
    rewrite Ha in Hu. cbn [fst snd rank] in Hu. unfold become, place. cbn [th]. lia.
Qed.

(** ** What has been displayed *)

Definition log_ok (s : ctest) : Prop := said s ≡ₚ everyone ≫= (fun k => texts k (place s k)).

(** A test of [cond_data] finds what the display says. *)
Lemma displays_meant s k c : (k < 5)%nat -> order_ok s -> code k !! place s k = Some c -> displays c (cond_data s) = meant c.
Proof.
  intros Hk Ho Ec. unfold order_ok, at_ in Ho.
  assert (Hd : forall n t, (c = SayEq n t -> cond_data s = n) /\ (c = SayLt n t -> cond_data s = n - 1)).
  { destruct Ho as [D3 D2 D1 D0 O1 O2 OO _ T1 T2 T4].
    destruct k as [|[|[|[|[|k]]]]]; [| | | | |lia]; revert D3 D2 D1 D0 O1 O2 OO T1 T2 T4 Ec;
    generalize (cond_data s), (place s 1), (place s 2), (place s 3), (place s 4), (place s 0);
    intros d q1 q2 q3 q4 q0 D3 D2 D1 D0 O1 O2 OO T1 T2 T4 Ec n t; split; intros ->; revert Ec.
    all: first [do 8 try destruct q0 as [|q0]; intros Ec; discriminate Ec
               |do 16 try destruct q1 as [|q1]; intros Ec; try discriminate Ec; injection Ec as <- _; lia
               |do 16 try destruct q2 as [|q2]; intros Ec; try discriminate Ec; injection Ec as <- _; lia
               |do 16 try destruct q3 as [|q3]; intros Ec; try discriminate Ec; injection Ec as <- _; lia
               |do 16 try destruct q4 as [|q4]; intros Ec; try discriminate Ec; injection Ec as <- _; lia]. }
  destruct c; try reflexivity; cbn; destruct (Hd n t) as [H1 H2].
  - rewrite H1 by reflexivity. now rewrite Z.eqb_refl.
  - rewrite H2 by reflexivity. now replace (n - 1 <? n) with true by (symmetry; apply Z.ltb_lt; lia).
Qed.

Lemma texts_S k p c : code k !! p = Some c -> texts k (S p) = texts k p ++ meant c.
Proof. intros Ec. unfold texts. rewrite (take_S_r _ _ _ Ec), bind_app. cbn. now rewrite app_nil_r. Qed.

Definition all_texts (l : list nat) (f : nat -> nat) : list (string * Z) := l ≫= (fun j => texts j (f j)).

Lemma all_texts_same l f g : (forall j, j ∈ l -> g j = f j) -> all_texts l g = all_texts l f.
Proof.
  unfold all_texts. induction l as [|a l IH]; intros Hj; [reflexivity|]. rewrite !bind_cons.
  rewrite (Hj a) by set_solver. f_equal. apply IH. set_solver.
Qed.

(** The displays of one more call are added to those of all. *)
Lemma all_texts_move l f g k x : NoDup l -> k ∈ l -> texts k (g k) = texts k (f k) ++ x -> (forall j, j <> k -> g j = f j) ->
  all_texts l g ≡ₚ all_texts l f ++ x.
Proof.
  intros Hnd Hk Ex Ej. induction Hnd as [|a l Ha Hnd IH]; [set_solver|]. unfold all_texts in *. rewrite !bind_cons.
  destruct (decide (a = k)) as [->|Hne].
  - pose proof (all_texts_same l f g) as E. unfold all_texts in E. rewrite E, Ex by (intros; apply Ej; set_solver). solve_Permutation.
  - apply elem_of_cons in Hk as [Hk|Hk]; [congruence|]. rewrite (IH Hk), (Ej a Hne). now rewrite app_assoc.
Qed.

Lemma everyone_once : NoDup everyone /\ forall k, (k < 5)%nat <-> k ∈ everyone.
Proof. split; [apply (bool_decide_unpack _); vm_compute; exact I|]. intros k. unfold everyone. set_unfold. lia. Qed.

Lemma moved_log k s s' : (k < 5)%nat -> order_ok s -> log_ok s -> moved k s s' -> log_ok s'.
Proof.
  unfold log_ok. intros Hk Ho Hl Hm.
  assert (Hsame : said s' = said s -> (forall j, place s' j = place s j) -> said s' ≡ₚ all_texts everyone (place s')).
  { intros -> E. rewrite Hl. now rewrite (all_texts_same _ (place s)). }
  destruct Hm as [c n _ Es Ec _ _ _ Eth|Es _ _ Eth|c _ Es Ec _ _ _ Eth].
  - apply Hsame; [exact Es|]. intros j. rewrite (upd_place _ _ _ _ _ _ Eth (woken_refl _)). destruct (Nat.eqb_spec j k); now subst.
  - apply Hsame; [exact Es|]. intros j. rewrite (upd_place _ _ _ _ _ _ Eth (woken_refl _)). destruct (Nat.eqb_spec j k); now subst.
  - rewrite Es, Hl, (displays_meant s k c Hk Ho Ec). symmetry. destruct everyone_once as [Hnd Hin].
    apply (all_texts_move everyone (place s) (place s') k); [exact Hnd | now apply Hin|..].
    + rewrite (upd_place _ _ _ _ _ _ Eth (others_woken c s)), Nat.eqb_refl. now apply texts_S.
    + intros j Hj. rewrite (upd_place _ _ _ _ _ _ Eth (others_woken c s)). now destruct (Nat.eqb_spec j k).
Qed.

Lemma barrier_log s s' : log_ok s -> barrier_step s = Some s' -> log_ok s'.
Proof.
  unfold log_ok. intros Hl E. destruct (barrier_all s s' E) as (_ & _ & -> & Ha). rewrite Hl.
  assert (Hk : forall k, (k < 5)%nat -> texts k (place s' k) = texts k (place s k)).
  { intros k Hk. destruct (Ha k Hk) as (_ & Ec & Et). unfold place at 1. rewrite Et. cbn [fst].
    rewrite (texts_S _ _ _ Ec). apply app_nil_r. }
  unfold everyone. rewrite !bind_cons, !Hk by lia. reflexivity.
Qed.

Lemma step_log s s' : cond_inv s -> log_ok s -> cond_step s s' -> log_ok s'.
Proof.
  intros (Hs & Ho & _) Hl [[k| |k] E]; unfold timed_event in E; cbn [in_time cond_event] in E;
    try (destruct (idle s); [|discriminate]); [| now apply (barrier_log s) |];
    (destruct (Nat.ltb_spec k 5) as [Hk|]; [|discriminate]).
  - now apply (moved_log k s), task_moved.
  - destruct (timeout_third k s s' Hk E) as (-> & _ & _ & ->).
    unfold log_ok. cbn [said become]. etransitivity; [exact Hl|].
    pose proof (all_texts_same everyone (place s) (place (become 3 TimedOut s))) as Hx. unfold all_texts in Hx. rewrite Hx; [reflexivity|].
    intros j _. unfold place, become, upd. cbn. destruct (Nat.eqb_spec j 3); now subst.
Qed.

(** ** The runs *)

Lemma run_bound n s s' : cond_inv s -> log_ok s -> nsteps cond_step n s s' ->
  cond_inv s' /\ log_ok s' /\ (n + to_do (th s') <= to_do (th s))%nat.
Proof.
  intros Hi Hl Hn. revert Hi Hl. induction Hn as [s|n s s1 s2 H1 Hn IH]; intros Hi Hl; [auto with lia|].
  pose proof (step_inv s s1 Hi H1) as Hi1. pose proof (step_less s s1 Hi H1).
  destruct (IH Hi1 (step_log s s1 Hi Hl H1)) as (? & ? & ?). split_and!; auto. lia.
Qed.

Lemma start_log : log_ok cond_start.
Proof. unfold log_ok. reflexivity. Qed.

Lemma start_to_do : to_do (th cond_start) = 88%nat.
Proof. reflexivity. Qed.

(** Something can be done, or it is the end. *)
Lemma cond_progress s : cond_inv s -> (exists s', cond_step s s') \/ all_ended s = true.
Proof.
  intros Hi. destruct (idle s) eqn:Ei.
  - destruct (timeout_step 3 s) as [s'|] eqn:Et; [|right; now apply idle_end]. left. exists s', (E_timeout 3). unfold timed_event. cbn. now rewrite Ei.
  - left. unfold idle in Ei. apply andb_false_iff in Ei as [Ei|Ei].
    + apply not_true_iff_false in Ei. rewrite forallb_forall in Ei.
      destruct (decide (Exists (fun k => task_step k s <> None) everyone)) as [He|Hne].
      * apply Exists_exists in He as (k & Hk & He). destruct (task_step k s) as [s'|] eqn:E; [|contradiction].
        exists s', (E_task k). unfold timed_event. cbn [in_time cond_event]. apply everyone_once, Nat.ltb_lt in Hk. now rewrite Hk.
      * destruct Ei. intros k Hk. destruct (task_step k s) eqn:E; [|reflexivity]. destruct Hne. apply Exists_exists. exists k.
        split; [now apply list_elem_of_In | congruence].
    + destruct (barrier_step s) as [s'|] eqn:E; [|discriminate]. now exists s', E_barrier.
Qed.

Lemma end_data s : cond_inv s -> all_ended s = true -> cond_data s = 3 /\ mtx s = None.
Proof.
  intros (Hs & Ho & _) He. unfold all_ended in He. rewrite forallb_forall in He.
  assert (Hp : forall k, (k < 5)%nat -> place s k = length (code k)).
  { intros k Hk. apply Nat.eqb_eq, He, list_elem_of_In, everyone_once, Hk. }
  split.
  - unfold order_ok, at_ in Ho. rewrite !Hp in Ho by lia. destruct Ho as [D3 _ _ _ _ _ _ _ _ _ _]. apply D3. cbn. lia.
  - destruct (mtx s) as [k|] eqn:Em; [exfalso|reflexivity]. pose proof (so_owner s Hs k Em) as Hk.
    pose proof (so_mutex s Hs k Hk) as Hm. rewrite Em, bool_decide_eq_true_2 in Hm by reflexivity. symmetry in Hm.
    apply andb_true_iff in Hm as [_ Hl]. pose proof (code_disciplined k (place s k) Hk) as Hd. unfold disciplined in Hd.
    unfold place in *. rewrite Hl, (Hp k Hk) in Hd. now rewrite lookup_ge_None_2 in Hd.
Qed.

Lemma end_log s : log_ok s -> all_ended s = true -> said s ≡ₚ everyone ≫= (fun k => code k ≫= meant).
Proof.
  intros Hl He. unfold all_ended in He. rewrite forallb_forall in He. unfold log_ok in Hl. rewrite Hl.
  assert (Hk : forall k, (k < 5)%nat -> texts k (place s k) = code k ≫= meant).
  { intros k Hk. unfold texts. rewrite (proj1 (Nat.eqb_eq _ _) (He k ltac:(apply list_elem_of_In, everyone_once, Hk))). now rewrite firstn_all. }
  unfold everyone. rewrite !bind_cons, !Hk by lia. reflexivity.
Qed.

End Run.
