(* ===== verification/CondTheorems.v ===== *)
(** * The condition variable exercise: theorems

    With the priorities the tasks give themselves, and the time out the last thing
    to happen, the program runs to its end whatever the order of its steps.  With
    the most urgent last, or with an early time out, it may not. *)

From stdpp Require Import base functions tactics numbers list strings relations.
From S2P Require Import Prelude Condtest CondFacts CondOrder CondRun.

(** C40: the condition variable exercise completes, provided that the two seconds of
    [task_func3] run out only once nothing else can move, and that
    [pthread_cond_signal] wakes the most urgent of the waiting tasks.  Whatever the
    order of the steps of the four tasks and of [main] otherwise: a run has no more
    than 88 steps, a state in which nothing more can be done is one where all five
    have come to their end, and then [cond_data] is 3, the mutex is free and what
    was displayed is the text of every call of the five, each display of a value
    showing the value it waited for (2 for the time out of [task_func3]).  (With an
    earlier time out the tasks may wait for ever: [condtest_early_timeout].) *)
Theorem condtest_completes `{PolicyLaws} n s :
  nsteps cond_step n cond_start s ->
  (n <= 88)%nat /\
  ((exists s', cond_step s s') \/
   all_ended s = true /\ cond_data s = 3 /\ mtx s = None /\ said s ≡ₚ everyone ≫= (fun k => code k ≫= meant)).
Proof.
  intros Hn. destruct (run_bound n cond_start s start_inv start_log Hn) as (Hi & Hl & Hle). rewrite start_to_do in Hle.
  split; [lia|]. destruct (cond_progress s Hi) as [Hs|He]; [now left | right].
  destruct (end_data s Hi He). split_and!; [assumption..|now apply end_log].
Qed.

(** ** A run *)

(** The tasks by priority. *)
Definition urgent (k m : nat) : nat := if (prio k <=? prio m)%nat then k else m.
Definition by_priority : SignalPolicy := fun _ l => match l with [] => O | x :: l => foldr urgent x l end.

Lemma urgent_of x l : foldr urgent x l ∈ x :: l /\ Forall (fun k => (prio (foldr urgent x l) <= prio k)%nat) (x :: l).
Proof.
  induction l as [|a l [IH1 IH2]]; cbn [foldr]; [split; repeat constructor|].
  apply Forall_cons in IH2 as [Hx Hl]. set (m := foldr urgent x l) in *. unfold urgent.
  assert (Hm : m ∈ x :: a :: l) by (apply elem_of_cons in IH1 as [E|E]; [rewrite E; left | now do 2 right]).
  destruct (Nat.leb_spec (prio a) (prio m)); (split; [first [exact Hm | right; left]|]); repeat constructor; try lia;
    (eapply Forall_impl; [exact Hl | cbn; intros; lia]).
Qed.

#[export] Instance by_priority_laws : @PolicyLaws by_priority.
Proof.
  split; unfold wakes, by_priority; intros s [|x l].
  - contradiction.
  - intros _. apply urgent_of.
  - intros k Hk. now apply elem_of_nil in Hk.
  - intros k Hk. destruct (urgent_of x l) as [_ Hu]. rewrite Forall_forall in Hu. now apply Hu.
Qed.

(** The first step of a list of them that can be made, again and again. *)
Fixpoint take_first (step : event -> ctest -> option ctest) (l : list event) (s : ctest) : option (event * ctest) :=
  match l with
  | [] => None
  | e :: l => match step e s with Some s' => Some (e, s') | None => take_first step l s end
  end.

Fixpoint greedy (step : event -> ctest -> option ctest) (l : list event) (fuel : nat) (s : ctest) : list event :=
  match fuel with
  | O => []
  | S f => match take_first step l s with Some (e, s') => e :: greedy step l f s' | None => [] end
  end.

Definition an_order : list event := [E_task 3; E_task 2; E_task 1; E_task 4; E_task 0; E_barrier; E_timeout 3].

Definition after_run (step : event -> ctest -> option ctest) (l : list event) : ctest :=
  default cond_start (run_events step l cond_start).

Lemma condtest_completes_witness :
  let step := @timed_event by_priority in
  let s := after_run step (greedy step an_order 100 cond_start) in
  nsteps (@cond_step by_priority) 66 cond_start s /\
  ((66 <= 88)%nat /\
   ((exists s', @cond_step by_priority s s') \/
    all_ended s = true /\ cond_data s = 3 /\ mtx s = None /\ said s ≡ₚ everyone ≫= (fun k => code k ≫= meant))).
Proof.
  intros step s. assert (Hr : nsteps (@cond_step by_priority) 66 cond_start s).
  { apply (run_events_nsteps step (greedy step an_order 100 cond_start)). vm_compute. reflexivity. }
  split; [exact Hr | exact (@condtest_completes by_priority by_priority_laws 66 s Hr)].
Defined.

(** ** With the most urgent last *)

Definition by_number : SignalPolicy := fun _ l => List.last l O.

(** The signal of task 4 goes to task 3; task 1 finds [cond_data] at 3 when it is
    woken by the broadcast, sets it back to 2 and waits for a broadcast that does
    not come. *)
Lemma condtest_hangs :
  let step := @timed_event by_number in
  let s := after_run step (greedy step an_order 100 cond_start) in
  rtc (@cond_step by_number) cond_start s /\ @idle by_number s = true /\ timeout_step 3 s = None /\
  all_ended s = false /\ cond_data s = 2.
Proof.
  intros step s. split_and!; [|vm_compute; reflexivity..].
  apply (rtc_nsteps_2 (length (greedy step an_order 100 cond_start))), (run_events_nsteps step). vm_compute. reflexivity.
Qed.

(** ** With an early time out *)

Definition early_order : list event := [E_timeout 3; E_task 3; E_barrier; E_task 4; E_task 1; E_task 2; E_task 0].

(** The two seconds run out before task 4 has set [cond_data] to 1, as they may on
    a machine that is busy with more urgent work: task 3 sets it to 3 and broadcasts
    to nobody, tasks 4 and 1 set it back to 1 and 2, and all wait for ever. *)
Lemma condtest_early_timeout :
  let step := @cond_event by_priority in
  let s := after_run step (greedy step early_order 100 cond_start) in
  rtc (fun s s' => exists e, step e s = Some s') cond_start s /\
  @idle by_priority s = true /\ timeout_step 3 s = None /\ all_ended s = false /\ cond_data s = 2.
Proof.
  intros step s. split_and!; [|vm_compute; reflexivity..].
  apply (rtc_nsteps_2 (length (greedy step early_order 100 cond_start))), (run_events_nsteps step). vm_compute. reflexivity.
Qed.
