(* ===== verification/FusionSwitch.v ===== *)
(** * The task switch test (user/fusion/switch.c)

    The task [event] is woken by the timer, notes the time and signals a semaphore;
    the task [worker] waits for the semaphore and measures how long the switch took.
    A turn of [event], the more urgent of the two, is one step; [worker] can be
    interrupted by it between its wait, its test, its reading of the time and its
    account.  What the timer and the calls return is part of the step.  [long] has
    32 bits.  The average and the deviation that [dump_stats] computes in floating
    point are not modelled. *)

From stdpp Require Import base tactics numbers list strings relations.
From Stdlib Require Import Ascii.
From S2P Require Import Prelude CycTime Timerbench Latency LatencyFacts LatencyReport.

(** ** The command line *)

Record swopts := SWO { sampling_period : Z; nsamples : Z; ignore : Z; do_histogram : bool }.

Definition swopts0 : swopts := SWO 100000 100000 5 false.

(** One option, as [getopt] returns it; [None] is the usage message and [exit(2)]. *)
Definition sw_option (c : ascii) (optarg : string) (o : swopts) : option swopts :=
  match c with
  | "h" => Some (SWO (sampling_period o) (nsamples o) (ignore o) true)
  | "p" => Some (SWO (i32 (atoi optarg * 1000)) (nsamples o) (ignore o) (do_histogram o))
  | "n" => Some (SWO (sampling_period o) (atoi optarg) (ignore o) (do_histogram o))
  | "i" => Some (SWO (sampling_period o) (nsamples o) (atoi optarg) (do_histogram o))
  | _ => None
  end%char.

Fixpoint sw_options (l : list (ascii * string)) (o : swopts) : option swopts :=
  match l with
  | [] => Some o
  | (c, a) :: l => match sw_option c a o with Some o => sw_options l o | None => None end
  end.

(** The defaults of [main]. *)
Definition sw_main (l : list (ascii * string)) : option swopts :=
  match sw_options l swopts0 with
  | None => None
  | Some o =>
      let p := if sampling_period o =? 0 then 100000 else sampling_period o in
      let n := if nsamples o <=? 0 then 100000 else nsamples o in
      Some (SWO p n (ignore o) (do_histogram o))
  end.

(** ** The state *)

Definition SW_CELLS : Z := 100.

(** Where [worker] is: at its wait, at its test, about to read the time, about to
    subtract, at its end, deleted, or out of the histogram. *)
Inductive wpc := W_wait | W_test | W_read | W_account (t : Z) | W_done | W_deleted | W_crashed.

(** The globals, the locals of [worker], whether [event] lives; and for the
    statements the number of samples ignored and the samples taken, with the number
    of the switch, latest first. *)
Record sw := SW {
  switch_count : Z; switch_tsc : Z; switch_sem : Z; histogram : list Z; lost : Z;
  minjitter : Z; maxjitter : Z; avgjitter : Z;
  w_pc : wpc; w_n : Z; w_count : Z; w_minj : Z; w_maxj : Z; w_sumj : Z;
  e_alive : bool; ignored : Z; taken : list (Z * Z)
}.

Definition sw_start : sw :=
  SW 0 0 0 (replicate (Z.to_nat SW_CELLS) 0) 0 10000000 (-10000000) 0
     W_wait 0 0 10000000 (-10000000) 0 true 0 [].

(** ** The turn of [event] *)

(** [err] is what [rt_task_wait_period] returns. *)
Definition event_turn (err tsc : Z) (s : sw) : option sw :=
  if e_alive s then
    if negb (err =? 0) && negb (err =? - ETIMEDOUT) then
      Some (SW (switch_count s) (switch_tsc s) (switch_sem s) (histogram s) (lost s)
               (minjitter s) (maxjitter s) (avgjitter s)
               (w_pc s) (w_n s) (w_count s) (w_minj s) (w_maxj s) (w_sumj s) false (ignored s) (taken s))
    else
      Some (SW (u64 (switch_count s + 1)) tsc (switch_sem s + 1) (histogram s) (lost s)
               (minjitter s) (maxjitter s) (avgjitter s)
               (w_pc s) (w_n s) (w_count s) (w_minj s) (w_maxj s) (w_sumj s) true (ignored s) (taken s))
  else None.

(** ** The loop of [worker] *)

Definition at_pc (pc : wpc) (s : sw) : sw :=
  SW (switch_count s) (switch_tsc s) (switch_sem s) (histogram s) (lost s) (minjitter s) (maxjitter s) (avgjitter s)
     pc (w_n s) (w_count s) (w_minj s) (w_maxj s) (w_sumj s) (e_alive s) (ignored s) (taken s).

Section Worker.
Context `{TscClock} (o : swopts).

(** [rt_sem_p]: it waits, or it fails and the task deletes itself. *)
Definition worker_wait (err : Z) (s : sw) : option sw :=
  match w_pc s with
  | W_wait =>
      if w_n s <? nsamples o then
        if negb (err =? 0) then Some (at_pc W_deleted s)
        else if 0 <? switch_sem s then
          Some (SW (switch_count s) (switch_tsc s) (switch_sem s - 1) (histogram s) (lost s)
                   (minjitter s) (maxjitter s) (avgjitter s)
                   W_test (w_n s) (w_count s) (w_minj s) (w_maxj s) (w_sumj s) (e_alive s) (ignored s) (taken s))
        else None
      else None
  | _ => None
  end.

(** The two tests of [count]. *)
Definition worker_test (s : sw) : option sw :=
  match w_pc s with
  | W_test =>
      let count := u64 (w_count s + 1) in
      if negb (count =? switch_count s) then
        Some (SW (switch_count s) (switch_tsc s) (switch_sem s) (histogram s) (lost s + 1)
                 (minjitter s) (maxjitter s) (avgjitter s)
                 W_wait (w_n s + 1) (switch_count s) (w_minj s) (w_maxj s) (w_sumj s) (e_alive s) (ignored s) (taken s))
      else if count <? u64 (ignore o) then
        Some (SW (switch_count s) (switch_tsc s) (switch_sem s) (histogram s) (lost s)
                 (minjitter s) (maxjitter s) (avgjitter s)
                 W_wait (w_n s + 1) count (w_minj s) (w_maxj s) (w_sumj s) (e_alive s) (ignored s + 1) (taken s))
      else
        Some (SW (switch_count s) (switch_tsc s) (switch_sem s) (histogram s) (lost s)
                 (minjitter s) (maxjitter s) (avgjitter s)
                 W_read (w_n s) count (w_minj s) (w_maxj s) (w_sumj s) (e_alive s) (ignored s) (taken s))
  | _ => None
  end.

(** [rt_timer_tsc()] *)
Definition worker_read (t : Z) (s : sw) : option sw :=
  match w_pc s with W_read => Some (at_pc (W_account t) s) | _ => None end.

(** [add_histogram]: [None] is an index outside the array. *)
Definition sw_cell (addval : Z) : Z :=
  let inabs := i32 (Z.quot (rt_timer_tsc2ns (if 0 <=? addval then addval else i32 (- addval))) 1000) in
  if inabs <? SW_CELLS then inabs else SW_CELLS - 1.

Definition sw_add_histogram (addval : Z) (h : list Z) : option (list Z) :=
  let k := sw_cell addval in
  if k <? 0 then None
  else match h !! Z.to_nat k with Some n => Some (<[Z.to_nat k := u32 (n + 1)]> h) | None => None end.

(** [dt = (long)(rt_timer_tsc() - switch_tsc)] and what is done with it. *)
Definition worker_account (s : sw) : option sw :=
  match w_pc s with
  | W_account t =>
      let dt := i32 (t - switch_tsc s) in
      match (if do_histogram o then sw_add_histogram dt (histogram s) else Some (histogram s)) with
      | None => Some (at_pc W_crashed s)
      | Some h =>
          Some (SW (switch_count s) (switch_tsc s) (switch_sem s) h (lost s)
                   (minjitter s) (maxjitter s) (avgjitter s)
                   W_wait (w_n s + 1) (w_count s)
                   (if dt <? w_minj s then dt else w_minj s) (if w_maxj s <? dt then dt else w_maxj s)
                   (i64 (w_sumj s + dt)) (e_alive s) (ignored s) ((w_count s, dt) :: taken s))
      end
  | _ => None
  end.

(** After the loop. *)
Definition worker_end (s : sw) : option sw :=
  match w_pc s with
  | W_wait =>
      if w_n s <? nsamples o then None
      else Some (SW (switch_count s) (switch_tsc s) (switch_sem s) (histogram s) (lost s)
                    (w_minj s) (w_maxj s) (Z.quot (w_sumj s) (w_n s))
                    W_done (w_n s) (w_count s) (w_minj s) (w_maxj s) (w_sumj s) (e_alive s) (ignored s) (taken s))
  | _ => None
  end.

(** [dump_histogram]: the lines and what it passes to [dump_stats]. *)
Definition sw_dump_histogram (h : list Z) : list (Z * Z) * Z * Z :=
  let '(lines, total, sum) := dump_cells 0 h in (lines, i32 total, sum).

(** ** Steps *)

Inductive sw_act := A_event (err tsc : Z) | A_wait (err : Z) | A_test | A_read (t : Z) | A_account | A_end.

Definition sw_do (a : sw_act) (s : sw) : option sw :=
  match a with
  | A_event err tsc => event_turn err tsc s
  | A_wait err => worker_wait err s
  | A_test => worker_test s
  | A_read t => worker_read t s
  | A_account => worker_account s
  | A_end => worker_end s
  end.

Definition sw_step (s s' : sw) : Prop := exists a, sw_do a s = Some s'.

Fixpoint sw_run (l : list sw_act) (s : sw) : option sw :=
  match l with
  | [] => Some s
  | a :: l => match sw_do a s with Some s => sw_run l s | None => None end
  end.

Lemma sw_run_rtc l s s' : sw_run l s = Some s' -> rtc sw_step s s'.
Proof.
  revert s. induction l as [|a l IH]; cbn; intros s E; [injection E as <-; constructor|].
  destruct (sw_do a s) as [s1|] eqn:E1; [|discriminate]. apply rtc_l with s1; [now exists a | now apply IH].
Qed.

End Worker.
