(* ===== verification/FusionFacts.v ===== *)
(** * The task switch test: theorems

    Every turn of the loop of [worker] is a sample taken, ignored or lost, the
    samples belong to different switches, and what is printed at the end is theirs. *)

From stdpp Require Import base tactics numbers list strings relations sorting.
From Stdlib Require Import Ascii.
From S2P Require Import Prelude CycTime Timerbench Latency LatencyFacts LatencyReport FusionSwitch.

(** The reading of the time and the last switch are less than 2^31 ticks apart. *)
Definition in_time (s : sw) : Prop := forall t, w_pc s = W_account t -> Z.abs (t - switch_tsc s) < 2 ^ 31.

Definition in_turn (pc : wpc) : Z := match pc with W_test | W_read | W_account _ => 1 | _ => 0 end.

(** A switch that is about to be measured. *)
Definition measuring (pc : wpc) : Prop := match pc with W_read | W_account _ => True | _ => False end.

Definition smallest (l : list (Z * Z)) : Z := foldr (fun x m => Z.min (snd x) m) 10000000 l.
Definition largest (l : list (Z * Z)) : Z := foldr (fun x m => Z.max (snd x) m) (-10000000) l.
Definition later (x y : Z * Z) : Prop := fst y < fst x.

Section Facts.
Context `{TscLaws} (o : swopts).
Context (Hn : 0 < nsamples o < 2 ^ 31) (Hfast : rt_timer_tsc2ns (2 ^ 31) < 1000 * 2 ^ 31).

Record sw_ok (k : Z) (s : sw) : Prop := {
  ok_count : 0 <= w_count s <= switch_count s /\ switch_count s <= k;
  ok_sem : 0 <= switch_sem s /\ switch_count s = switch_sem s + w_n s + in_turn (w_pc s);
  ok_n : 0 <= w_n s /\ w_n s + in_turn (w_pc s) <= nsamples o;
  ok_split : 0 <= lost s /\ 0 <= ignored s /\ w_n s = lost s + ignored s + Z.of_nat (length (taken s));
  ok_ignored : ignored s <= w_count s /\ ignored s <= Z.max 0 (u64 (ignore o) - 1);
  ok_order : StronglySorted later (taken s);
  ok_above : Forall (fun x => u64 (ignore o) <= fst x <= w_count s) (taken s);
  ok_pos : Forall (fun x => 0 < fst x) (taken s);
  ok_new : measuring (w_pc s) -> (0 < w_count s /\ u64 (ignore o) <= w_count s) /\ Forall (fun x => fst x < w_count s) (taken s);
  ok_small : Forall (fun x => Z.abs (snd x) < 2 ^ 31) (taken s);
  ok_min : w_minj s = smallest (taken s);
  ok_max : w_maxj s = largest (taken s);
  ok_sum : w_sumj s = sumZ snd (taken s);
  ok_hist : length (histogram s) = 100%nat /\ counts (histogram s) (if do_histogram o then Z.of_nat (length (taken s)) else 0);
  ok_done : w_pc s = W_done -> nsamples o <= w_n s /\ minjitter s = w_minj s /\ maxjitter s = w_maxj s /\
              avgjitter s = Z.quot (w_sumj s) (w_n s);
  ok_inside : w_pc s <> W_crashed
}.

Lemma start_ok : sw_ok 0 sw_start.
Proof.
  split; cbn; try lia; try constructor; try discriminate; try contradiction; try reflexivity.
  all: repeat split; try lia; try reflexivity.
  - now apply Forall_replicate.
  - rewrite sumZ_replicate_0. now destruct (do_histogram o).
Qed.

(** ** The histogram *)

Lemma sw_cell_range d : Z.abs d < 2 ^ 31 -> 0 <= sw_cell d < SW_CELLS.
Proof.
  intros Hd. unfold sw_cell, SW_CELLS.
  assert (Ha : (if 0 <=? d then d else i32 (- d)) = Z.abs d).
  { destruct (Z.leb_spec 0 d); [lia|]. rewrite (wrap_s_id 32) by lia. lia. }
  rewrite Ha. pose proof (tsc2ns_nonneg (Z.abs d) ltac:(lia)) as H1. pose proof (tsc2ns_mono (Z.abs d) (2 ^ 31) ltac:(lia)) as H2.
  assert (0 <= Z.quot (rt_timer_tsc2ns (Z.abs d)) 1000 < 2 ^ 31).
  { split; [apply Z.quot_pos; lia | apply Z.quot_lt_upper_bound; lia]. }
  rewrite (wrap_s_id 32) by lia. destruct (Z.ltb_spec (Z.quot (rt_timer_tsc2ns (Z.abs d)) 1000) 100); lia.
Qed.

Lemma sw_add_ok d h N : Z.abs d < 2 ^ 31 -> length h = 100%nat -> counts h N -> N < 2 ^ 31 ->
  exists h', sw_add_histogram d h = Some h' /\ length h' = 100%nat /\ counts h' (N + 1).
Proof.
  intros Hd Hl [Hp Hs] HN. pose proof (sw_cell_range d Hd) as Hc. unfold SW_CELLS in Hc. unfold sw_add_histogram.
  destruct (Z.ltb_spec (sw_cell d) 0); [lia|].
  destruct (lookup_lt_is_Some_2 h (Z.to_nat (sw_cell d)) ltac:(lia)) as [x Hx]. rewrite Hx. eexists. split_and!; [reflexivity | now rewrite length_insert|].
  assert (0 <= x <= N).
  { split; [now apply (proj1 (Forall_lookup _ h) Hp (Z.to_nat (sw_cell d))) | rewrite <- Hs; now apply (sumZ_lookup_le h (Z.to_nat (sw_cell d)))]. }
  rewrite wrap_u_id by lia. split.
  - apply Forall_insert; [exact Hp | lia].
  - rewrite (sumZ_insert _ _ _ x) by exact Hx. unfold id in *. lia.
Qed.

(** ** Steps *)

Lemma event_ok k err tsc s s' : 0 <= k -> k + 1 < 2 ^ 64 -> sw_ok k s -> event_turn err tsc s = Some s' -> sw_ok (k + 1) s'.
Proof.
  intros Hk Hk64 [? ? ? ? ? ? ? ? ? ? ? ? ? ? ? ?] E. unfold event_turn in E. destruct (e_alive s); [|discriminate].
  destruct (negb (err =? 0) && negb (err =? - ETIMEDOUT)); injection E as <-; split; cbn; try assumption; try lia.
  - rewrite wrap_u_id by lia. lia.
  - rewrite wrap_u_id by lia. lia.
Qed.

Lemma wait_ok k err s s' : sw_ok k s -> worker_wait o err s = Some s' -> sw_ok (k + 1) s'.
Proof.
  intros [? ? ? ? ? ? ? ? ? ? ? ? ? ? ? ?] E. unfold worker_wait in E. destruct (w_pc s) eqn:Epc; try discriminate. cbn in *.
  destruct (Z.ltb_spec (w_n s) (nsamples o)); [|discriminate]. destruct (negb (err =? 0)).
  - injection E as <-. split; cbn; try assumption; try lia; try discriminate; try contradiction.
  - destruct (Z.ltb_spec 0 (switch_sem s)); [|discriminate]. injection E as <-.
    split; cbn; try assumption; try lia; try discriminate; try contradiction.
Qed.

Lemma test_ok k s s' : k < 2 ^ 64 - 1 -> sw_ok k s -> worker_test o s = Some s' -> sw_ok (k + 1) s'.
Proof.
  intros Hk64 [Hc Hs ? ? ? ? Hab ? ? ? ? ? ? ? ? ?] E. unfold worker_test in E. destruct (w_pc s) eqn:Epc; try discriminate. cbn in *.
  rewrite (wrap_u_id 64) in E by lia.
  assert (Hup : forall c, w_count s <= c -> Forall (fun x => u64 (ignore o) <= fst x <= c) (taken s)).
  { intros c Hle. eapply Forall_impl; [exact Hab|]. cbn. intros x Hx. lia. }
  assert (Hlt : Forall (fun x => fst x < w_count s + 1) (taken s)).
  { eapply Forall_impl; [exact Hab|]. cbn. intros x Hx. lia. }
  destruct (Z.eqb_spec (w_count s + 1) (switch_count s)) as [Ec|Ec]; cbn in E.
  - pose proof (wrap_u_range 64 (ignore o) ltac:(lia)).
    destruct (Z.ltb_spec (w_count s + 1) (u64 (ignore o))); injection E as <-;
      split; cbn; try assumption; try lia; try discriminate; try contradiction; try (apply Hup; lia).
    intros _. split; [lia | exact Hlt].
  - injection E as <-. split; cbn; try assumption; try lia; try discriminate; try contradiction; try (apply Hup; lia).
Qed.

Lemma read_ok k t s s' : sw_ok k s -> worker_read t s = Some s' -> sw_ok (k + 1) s'.
Proof.
  intros [? ? ? ? ? ? ? ? Hnew ? ? ? ? ? ? ?] E. unfold worker_read in E. destruct (w_pc s) eqn:Epc; try discriminate. cbn in *.
  injection E as <-. split; cbn; try assumption; try lia; try discriminate.
Qed.

Lemma sum_small (l : list (Z * Z)) : Forall (fun x => Z.abs (snd x) < 2 ^ 31) l -> Z.abs (sumZ snd l) <= 2 ^ 31 * Z.of_nat (length l).
Proof.
  induction 1 as [|x l Hx Hl IH]; [unfold sumZ; cbn [foldr length]; lia|]. rewrite sumZ_cons. cbn [length]. lia.
Qed.

Lemma account_ok k s s' : in_time s -> sw_ok k s -> worker_account o s = Some s' -> sw_ok (k + 1) s'.
Proof.
  intros Hin [Hc Hsem Hnn Hsp Hig Hso Hab Hps Hnew Hsm Hmin Hmax Hsum [Hlen Hcnt] Hdone Hins] E.
  unfold worker_account in E. destruct (w_pc s) as [| | |t| | |] eqn:Epc; try discriminate. cbn [in_turn measuring] in *.
  specialize (Hin t Epc). destruct (Hnew I) as [[Hp1 Hge] Hlt]. rewrite (wrap_s_id 32) in E by lia. set (d := t - switch_tsc s) in *.
  assert (Hh : exists h, (if do_histogram o then sw_add_histogram d (histogram s) else Some (histogram s)) = Some h /\
    length h = 100%nat /\ counts h (if do_histogram o then Z.of_nat (length (taken s)) + 1 else 0)).
  { destruct (do_histogram o); [|eauto]. apply (sw_add_ok d _ (Z.of_nat (length (taken s)))); try assumption; lia. }
  destruct Hh as (h & Eh & Hhl & Hhc). rewrite Eh in E. injection E as <-. pose proof (sum_small _ Hsm) as Hsb.
  assert (Hl31 : Z.of_nat (length (taken s)) < 2 ^ 31) by lia.
  split; cbn -[Z.pow]; try lia; try discriminate; try contradiction.
  - constructor; [exact Hso|]. exact Hlt.
  - constructor; [cbn; lia | exact Hab].
  - constructor; [exact Hp1 | exact Hps].
  - now constructor.
  - rewrite Hmin, if_ltb_min. reflexivity.
  - rewrite Hmax, if_ltb_max. apply Z.max_comm.
  - rewrite Hsum, sumZ_cons. cbn [snd]. rewrite (wrap_s_id 64) by lia. lia.
  - split; [exact Hhl|]. replace (Z.of_nat (S (length (taken s)))) with (Z.of_nat (length (taken s)) + 1) by lia. exact Hhc.
Qed.

Lemma end_ok k s s' : sw_ok k s -> worker_end o s = Some s' -> sw_ok (k + 1) s'.
Proof.
  intros [? ? ? ? ? ? ? ? ? ? ? ? ? ? ? ?] E. unfold worker_end in E. destruct (w_pc s) eqn:Epc; try discriminate. cbn in *.
  destruct (Z.ltb_spec (w_n s) (nsamples o)); [discriminate|]. injection E as <-.
  split; cbn; try assumption; try lia; try discriminate; try contradiction.
Qed.

(** A step in time. *)
Definition sw_timely (s s' : sw) : Prop := in_time s /\ sw_step o s s'.

Lemma timely_ok n k s s' : 0 <= k -> k + Z.of_nat n < 2 ^ 64 - 1 -> sw_ok k s -> nsteps sw_timely n s s' -> sw_ok (k + Z.of_nat n) s'.
Proof.
  intros Hk Hb Hs Hr. revert k Hk Hb Hs. induction Hr as [s|n s s1 s2 [Hin [a Ha]] Hr IH]; intros k Hk Hb Hs.
  - now rewrite Z.add_0_r.
  - replace (k + Z.of_nat (S n)) with (k + 1 + Z.of_nat n) by lia. apply IH; try lia.
    destruct a; cbn [sw_do] in Ha; eauto using wait_ok, read_ok, account_ok, end_ok.
    + apply (event_ok k err tsc s); try assumption; lia.
    + apply (test_ok k s); try assumption; lia.
Qed.

End Facts.

(** ** Theorems *)

(** C36: the samples of the task switch test. Whatever the interleaving of [event]
    and [worker] and whatever the times, as long as fewer than 2^64 steps are
    made, a reading is less than 2^31 ticks from the last switch, a tick lasts
    less than a microsecond and [nsamples] is positive and below 2^31: the
    histogram is never left, each turn of the loop is a sample lost, ignored or
    taken, at most [ignore] are ignored and none when [ignore] is 0, and the
    samples taken are of different switches, in their order. At the end the
    extremes are those of the samples (and of the starting values), the histogram
    has them all, and when none was lost or ignored there are [nsamples] samples
    and the average is their mean. (One sample less than [ignore] asks for is
    ignored, and the lost and the ignored ones count as collected:
    [switch_ignores_one_less], [switch_average_low].) *)
Theorem switch_samples `{TscLaws} o n s :
  0 < nsamples o < 2 ^ 31 -> rt_timer_tsc2ns (2 ^ 31) < 1000 * 2 ^ 31 ->
  nsteps (sw_timely o) n sw_start s -> Z.of_nat n < 2 ^ 64 - 1 ->
  w_pc s <> W_crashed /\
  w_n s = lost s + ignored s + Z.of_nat (length (taken s)) /\ 0 <= ignored s <= u64 (ignore o) /\
  StronglySorted later (taken s) /\ Forall (fun x => 0 < fst x <= switch_count s) (taken s) /\
  (w_pc s = W_done ->
   minjitter s = smallest (taken s) /\ maxjitter s = largest (taken s) /\
   (do_histogram o = true -> (sw_dump_histogram (histogram s)).1.2 = Z.of_nat (length (taken s))) /\
   (lost s = 0 -> ignored s = 0 ->
    Z.of_nat (length (taken s)) = nsamples o /\
    avgjitter s = Z.quot (sumZ snd (taken s)) (Z.of_nat (length (taken s))))).
Proof.
  intros Hn Hf Hr Hk. destruct (timely_ok o Hn Hf n 0 sw_start s ltac:(lia) ltac:(lia) (start_ok o Hn) Hr)
    as [Hc Hsem Hnn Hsp Hig Hso Hab Hps _ _ Hmin Hmax Hsum [_ Hcnt] Hdone Hins].
  pose proof (wrap_u_range 64 (ignore o) ltac:(lia)).
  split_and!; try assumption; try lia.
  - eapply Forall_impl; [apply Forall_and; split; [exact Hab | exact Hps]|]. cbn. lia.
  - intros Hd. destruct (Hdone Hd) as (Hge & -> & -> & Havg). rewrite Hd in Hnn. cbn in Hnn. assert (w_n s = nsamples o) as E by lia.
    rewrite Hmin, Hmax. split_and!; try reflexivity.
    + intros Hh. rewrite Hh in Hcnt. destruct Hcnt as [_ Hs]. unfold sw_dump_histogram.
      pose proof (dump_cells_total 0 (histogram s)) as Ht. destruct (dump_cells 0 (histogram s)) as [[lines total] sum]. cbn in *.
      rewrite Ht, Hs. apply wrap_s_id; lia.
    + intros Hl Hi. assert (Z.of_nat (length (taken s)) = nsamples o) as El by lia. split; [exact El|].
      now rewrite Havg, Hsum, El, E.
Qed.

(** A clock of 2 GHz. *)
#[local] Instance switch_clock : TscClock := {| rt_timer_tsc2ns x := Z.quot x 2; rt_timer_ns2tsc x := 2 * x |}.

#[local] Instance switch_clock_laws : TscLaws.
Proof. split; cbn; intros; [apply Z.quot_le_mono; lia | now rewrite Z.quot_opp_l]. Qed.

(** A turn of [event] at the time [fst x] and the turn of [worker] it leads to,
    which reads [snd x]. *)
Definition prompt_turn (o : swopts) (i : Z) (x : Z * Z) : list sw_act :=
  [A_event 0 (fst x); A_wait 0; A_test] ++ (if i <? u64 (ignore o) then [] else [A_read (snd x); A_account]).

Fixpoint prompt_turns (o : swopts) (i : Z) (l : list (Z * Z)) : list sw_act :=
  match l with [] => [] | x :: l => prompt_turn o i x ++ prompt_turns o (i + 1) l end.

(** Ten switches of 100 ticks each, of which the first two are ignored. *)
Definition demo_opts : swopts := SWO 100000 10 3 true.
Definition demo_acts : list sw_act := prompt_turns demo_opts 1 (replicate 10 (1000, 1100)) ++ [A_end].
Definition demo_end : sw := default sw_start (sw_run demo_opts demo_acts sw_start).

(** The steps of a run, when each is in time. *)
Fixpoint run_timely (o : swopts) (l : list sw_act) (s : sw) : bool :=
  match l with
  | [] => true
  | a :: l =>
      match w_pc s with W_account t => Z.abs (t - switch_tsc s) <? 2 ^ 31 | _ => true end &&
      match sw_do o a s with Some s' => run_timely o l s' | None => false end
  end.

Lemma run_timely_nsteps o l s : run_timely o l s = true ->
  exists s', sw_run o l s = Some s' /\ nsteps (sw_timely o) (length l) s s'.
Proof.
  revert s. induction l as [|a l IH]; intros s Hl; [eexists; split; [reflexivity | constructor]|]. cbn [run_timely sw_run length] in *.
  apply andb_true_iff in Hl as [Hin Hl]. destruct (sw_do o a s) as [s1|] eqn:E; [|discriminate].
  destruct (IH s1 Hl) as (s' & E' & Hr). exists s'. split; [exact E'|]. apply nsteps_l with s1; [|exact Hr].
  split; [|now exists a]. intros t Et. rewrite Et in Hin. now apply Z.ltb_lt.
Qed.

(** Ten switches of which none is ignored. *)
Definition all_opts : swopts := SWO 100000 10 0 true.
Definition all_acts : list sw_act := prompt_turns all_opts 1 (replicate 10 (1000, 1100)) ++ [A_end].
Definition all_end : sw := default sw_start (sw_run all_opts all_acts sw_start).

Lemma switch_samples_witness :
  w_pc all_end = W_done /\ minjitter all_end = 100 /\ maxjitter all_end = 100 /\ avgjitter all_end = 100 /\
  Z.of_nat (length (taken all_end)) = nsamples all_opts /\ (sw_dump_histogram (histogram all_end)).1.2 = 10.
Proof.
  assert (Hr : nsteps (sw_timely all_opts) (length all_acts) sw_start all_end).
  { destruct (run_timely_nsteps all_opts all_acts sw_start) as (s & E & Hr); [vm_compute; reflexivity|].
    unfold all_end. now rewrite E. }
  assert (H1 : 0 < nsamples all_opts < 2 ^ 31) by (vm_compute; split; reflexivity).
  assert (H2 : rt_timer_tsc2ns (2 ^ 31) < 1000 * 2 ^ 31) by (vm_compute; reflexivity).
  assert (H3 : Z.of_nat (length all_acts) < 2 ^ 64 - 1) by (vm_compute; reflexivity).
  assert (H4 : w_pc all_end = W_done) by (vm_compute; reflexivity).
  destruct (switch_samples all_opts (length all_acts) all_end H1 H2 Hr H3) as (_ & _ & _ & _ & _ & Hd).
  destruct (Hd H4) as (-> & -> & Ht & Ha).
  destruct Ha as [El ->]; [vm_compute; reflexivity .. |].
  rewrite El, Ht by reflexivity. clear. split_and!; vm_compute; reflexivity.
Defined.

(** The test is [count < ignore] and counts from 1: when three samples are to be
    ignored the first two are, and the third is taken. *)
Lemma switch_ignores_one_less :
  w_pc demo_end = W_done /\ lost demo_end = 0 /\ ignored demo_end = 2 /\ last (taken demo_end) = Some (3, 100).
Proof. split_and!; vm_compute; reflexivity. Qed.

(** The samples ignored count among those to collect, and the average is over the
    turns: of ten samples asked for, of 100 ticks each, eight are taken and they
    average 80. *)
Lemma switch_average_low : taken demo_end = rev ((fun i => (i, 100)) <$> seqZ 3 8) /\ avgjitter demo_end = 80.
Proof. split; vm_compute; reflexivity. Qed.
