(* ===== verification/Mqtest.v ===== *)
(** * The message queue test (posix/user/mqtest.c)

    A parent sends four messages of different priorities to a child and waits for
    the child to answer on a second queue; two semaphores order them.  The code of
    each task is a list of calls, one step each.  A message queue keeps its messages
    by priority; it has a name until it is unlinked and lives until it is closed by
    all that opened it.  The states are few: the theorems about all interleavings
    are by a list of states that no step leaves. *)

From stdpp Require Import base tactics numbers list strings relations.
From S2P Require Import Prelude.

(** ** Message queues *)

(** [struct Msg]: text, its size is that of the text, priority. *)
Record msg := Msg { m_str : string; m_prio : Z }.

#[export] Instance msg_eq_dec : EqDecision msg.
Proof. solve_decision. Defined.

(** A queue: its name if it is still linked, how often it is open, its messages. *)
Record mqueue := MQ { mq_name : option string; mq_opens : Z; mq_msgs : list msg }.

#[export] Instance mqueue_eq_dec : EqDecision mqueue.
Proof. solve_decision. Defined.

(** A message goes after those of at least its priority. *)
Fixpoint mq_insert (m : msg) (l : list msg) : list msg :=
  match l with
  | [] => [m]
  | x :: l => if m_prio x <? m_prio m then m :: x :: l else x :: mq_insert m l
  end.

(** ** The code *)

Inductive queue_var := Tx | Rx.

#[export] Instance queue_var_eq_dec : EqDecision queue_var.
Proof. solve_decision. Defined.

Inductive call :=
| Barrier                                    (* pthread_barrier_wait *)
| SemPost (second : bool) | SemWait (second : bool)
| Open (v : queue_var) (name : string) (creat : bool)
| Send (v : queue_var) (m : msg)             (* mq_send, mq_timedsend *)
| GetAttr (v : queue_var)                    (* nMsgs = my_attrs.mq_curmsgs *)
| Drain (v : queue_var)                      (* while(nMsgs-- > 0) mq_receive *)
| TimedReceive (v : queue_var)
| Close (v : queue_var)
| Unlink (name : string)
| JoinChild | JoinParent.

Definition child_answer : msg := Msg "Send parent message on queue!" 4.

Definition child_func : list call :=
  [ Barrier; SemWait false; Open Rx "my_queue1" false; GetAttr Rx; Drain Rx;
    Open Tx "my_queue2" true; Send Tx child_answer; SemPost true; Close Rx; Close Tx; Unlink "mq_queue2" ].

Definition myMsgs : list msg :=
  [ Msg "Test string number one" 5; Msg "This is test string num 2!!" 1;
    Msg "Test string number 3!" 6; Msg "This is test string number four!!" 7 ].

Definition parent_func : list call :=
  [ Barrier; Open Tx "my_queue1" true ] ++ (Send Tx <$> myMsgs) ++
  [ SemPost false; SemWait true; Open Rx "my_queue2" true; TimedReceive Rx;
    JoinChild; Close Tx; Close Rx; Unlink "my_queue1"; Unlink "my_queue2" ].

Definition mq_main : list call := [ Barrier; JoinParent ].

(** ** The state *)

(** [inBuf] of both tasks has 50 characters; [mq_maxmsg] of both queues is 10. *)
Definition BUF : Z := 50.
Definition mq_maxmsg : Z := 10.

Inductive who := Parent | Child | Main.

#[export] Instance who_eq_dec : EqDecision who.
Proof. solve_decision. Defined.

(** A task: its place, its two queue variables (indices of queues, [None] for
    [INVALID_PQUEUE]), what it received. *)
Record task := TK { t_pc : nat; t_tx : option nat; t_rx : option nat; t_got : list msg }.

#[export] Instance task_eq_dec : EqDecision task.
Proof. solve_decision. Defined.

(** The tasks, [nMsgs] of the child, the semaphores, the queues in the order they
    were made, whether the parent found the second queue empty, and whether a buffer
    was overrun or a queue used that is not open. *)
Record mqs := MQS {
  parent : task; child : task; main : task; nMsgs : Z; sem1 : Z; sem2 : Z;
  queues : list mqueue; no_answer : bool; broken : bool
}.

#[export] Instance mqs_eq_dec : EqDecision mqs.
Proof. solve_decision. Defined.

Definition mq_start : mqs :=
  MQS (TK 0 None None []) (TK 0 None None []) (TK 0 None None []) 0 0 0 [] false false.

(** The child with another code, for a statement below. *)
Definition codes := who -> list call.
Definition mq_codes : codes := fun w => match w with Parent => parent_func | Child => child_func | Main => mq_main end.

Definition task_of (w : who) (s : mqs) : task := match w with Parent => parent s | Child => child s | Main => main s end.

Definition set_task (w : who) (t : task) (s : mqs) : mqs :=
  match w with
  | Parent => MQS t (child s) (main s) (nMsgs s) (sem1 s) (sem2 s) (queues s) (no_answer s) (broken s)
  | Child => MQS (parent s) t (main s) (nMsgs s) (sem1 s) (sem2 s) (queues s) (no_answer s) (broken s)
  | Main => MQS (parent s) (child s) t (nMsgs s) (sem1 s) (sem2 s) (queues s) (no_answer s) (broken s)
  end.
Definition next (w : who) (s : mqs) : mqs :=
  let t := task_of w s in set_task w (TK (S (t_pc t)) (t_tx t) (t_rx t) (t_got t)) s.
Definition set_var (w : who) (v : queue_var) (q : option nat) (s : mqs) : mqs :=
  let t := task_of w s in
  set_task w (match v with Tx => TK (t_pc t) q (t_rx t) (t_got t) | Rx => TK (t_pc t) (t_tx t) q (t_got t) end) s.
Definition var (w : who) (v : queue_var) (s : mqs) : option nat :=
  let t := task_of w s in match v with Tx => t_tx t | Rx => t_rx t end.
Definition receive (w : who) (m : msg) (s : mqs) : mqs :=
  let t := task_of w s in set_task w (TK (t_pc t) (t_tx t) (t_rx t) (t_got t ++ [m])) s.
Definition set_queues (l : list mqueue) (s : mqs) : mqs :=
  MQS (parent s) (child s) (main s) (nMsgs s) (sem1 s) (sem2 s) l (no_answer s) (broken s).
Definition set_sems (a b : Z) (s : mqs) : mqs :=
  MQS (parent s) (child s) (main s) (nMsgs s) a b (queues s) (no_answer s) (broken s).
Definition set_count (n : Z) (s : mqs) : mqs :=
  MQS (parent s) (child s) (main s) n (sem1 s) (sem2 s) (queues s) (no_answer s) (broken s).
Definition set_empty (s : mqs) : mqs :=
  MQS (parent s) (child s) (main s) (nMsgs s) (sem1 s) (sem2 s) (queues s) true (broken s).
Definition break (s : mqs) : mqs :=
  MQS (parent s) (child s) (main s) (nMsgs s) (sem1 s) (sem2 s) (queues s) (no_answer s) true.

(** ** Steps *)

(** The queue of a name. *)
Fixpoint find_name (name : string) (l : list mqueue) (i : nat) : option nat :=
  match l with
  | [] => None
  | q :: l => if bool_decide (mq_name q = Some name) then Some i else find_name name l (S i)
  end.

(** A call on the queue of a variable: [skip] when the variable is invalid (the call
    fails, or the code does not make it); a queue that is not open must not be used. *)
Definition on_queue (w : who) (v : queue_var) (s skip : mqs) (k : nat -> mqueue -> option mqs) : option mqs :=
  match var w v s with
  | None => Some (next w skip)
  | Some i =>
      match queues s !! i with
      | Some q => if 0 <? mq_opens q then k i q else Some (next w (break s))
      | None => Some (next w (break s))
      end
  end.

Definition put_back (i : nat) (q : mqueue) (l : list msg) (s : mqs) : mqs :=
  set_queues (<[i := MQ (mq_name q) (mq_opens q) l]> (queues s)) s.

(** A message for a buffer of [BUF] characters and the zero after it. *)
Definition take_message (w : who) (m : msg) (s : mqs) : mqs :=
  if Z.of_nat (String.length (m_str m)) <? BUF then receive w m s else break s.

(** A task at its next call; [None] when it waits or has ended. *)
Definition mq_task (cs : codes) (w : who) (s : mqs) : option mqs :=
  match cs w !! t_pc (task_of w s) with
  | None | Some Barrier => None
  | Some (SemPost b) => Some (next w (if b then set_sems (sem1 s) (sem2 s + 1) s else set_sems (sem1 s + 1) (sem2 s) s))
  | Some (SemWait b) =>
      if 0 <? (if b then sem2 s else sem1 s)
      then Some (next w (if b then set_sems (sem1 s) (sem2 s - 1) s else set_sems (sem1 s - 1) (sem2 s) s)) else None
  | Some (Open v name creat) =>
      match find_name name (queues s) 0 with
      | Some i =>
          Some (next w (set_var w v (Some i) (set_queues (alter (fun q => MQ (mq_name q) (mq_opens q + 1) (mq_msgs q)) i (queues s)) s)))
      | None =>
          if creat
          then Some (next w (set_var w v (Some (length (queues s))) (set_queues (queues s ++ [MQ (Some name) 1 []]) s)))
          else Some (next w s)
      end
  | Some (Send v m) =>
      on_queue w v s s (fun i q =>
        Some (next w (if Z.of_nat (length (mq_msgs q)) <? mq_maxmsg then put_back i q (mq_insert m (mq_msgs q)) s else s)))
  | Some (GetAttr v) =>
      on_queue w v s s (fun i q => Some (next w (set_count (Z.of_nat (length (mq_msgs q))) s)))
  | Some (Drain v) =>
      if 0 <? nMsgs s then
        on_queue w v s s (fun i q =>
          match mq_msgs q with
          | [] => None
          | m :: l => Some (set_count (nMsgs s - 1) (take_message w m (put_back i q l s)))
          end)
      else Some (next w s)
  | Some (TimedReceive v) =>
      on_queue w v s (set_empty s) (fun i q =>
        match mq_msgs q with
        | [] => Some (next w (set_empty s))
        | m :: l => Some (next w (take_message w m (put_back i q l s)))
        end)
  | Some (Close v) =>
      on_queue w v s s (fun i q =>
        Some (next w (set_var w v None (set_queues (<[i := MQ (mq_name q) (mq_opens q - 1) (mq_msgs q)]> (queues s)) s))))
  | Some (Unlink name) =>
      match find_name name (queues s) 0 with
      | Some i => Some (next w (set_queues (alter (fun q => MQ None (mq_opens q) (mq_msgs q)) i (queues s)) s))
      | None => Some (next w s)
      end
  | Some JoinChild => if (t_pc (child s) =? length (cs Child))%nat then Some (next w s) else None
  | Some JoinParent => if (t_pc (parent s) =? length (cs Parent))%nat then Some (next w s) else None
  end.

Definition mq_everyone : list who := [Parent; Child; Main].

(** The barrier, initialised for three, opens. *)
Definition mq_barrier (cs : codes) (s : mqs) : option mqs :=
  if forallb (fun w => match cs w !! t_pc (task_of w s) with Some Barrier => true | _ => false end) mq_everyone
  then Some (foldr next s mq_everyone) else None.

Definition mq_succs (cs : codes) (s : mqs) : list mqs :=
  omap (fun w => mq_task cs w s) mq_everyone ++ match mq_barrier cs s with Some s => [s] | None => [] end.

Definition mq_step (cs : codes) (s s' : mqs) : Prop := s' ∈ mq_succs cs s.

Definition mq_ended (cs : codes) (s : mqs) : bool :=
  forallb (fun w => (t_pc (task_of w s) =? length (cs w))%nat) mq_everyone.

(** No queue is left: none is open, none has a name. *)
Definition mq_clean (s : mqs) : bool :=
  forallb (fun q => (mq_opens q =? 0) && bool_decide (mq_name q = None)) (queues s).
