(* ===== verification/MqFacts.v ===== *)
(** * The message queue test: theorems

    A list of states that contains the first and that no step leaves contains all
    that can be reached: such a list is computed, and what is claimed is checked on
    each of its states. *)

From stdpp Require Import base tactics numbers list strings relations.
From S2P Require Import Prelude Mqtest.

(** ** Closed lists of states *)

Section Closed.
Context {S : Type} `{EqDecision S} (succs : S -> list S).

(** The states from [todo] on that are not in [seen]. *)
Fixpoint explore (fuel : nat) (todo seen : list S) : list S :=
  match fuel, todo with
  | Datatypes.S f, s :: todo =>
      if bool_decide (s ∈ seen) then explore f todo seen else explore f (succs s ++ todo) (s :: seen)
  | _, _ => seen
  end.

Definition closed (l : list S) : bool := forallb (fun s => forallb (fun s' => bool_decide (s' ∈ l)) (succs s)) l.

Lemma closed_spec l : closed l = true -> forall s s', s ∈ l -> s' ∈ succs s -> s' ∈ l.
Proof.
  intros Hl s s' Hs Hs'. unfold closed in Hl. rewrite forallb_forall in Hl. apply list_elem_of_In in Hs, Hs'.
  specialize (Hl s Hs). rewrite forallb_forall in Hl. specialize (Hl s' Hs'). now apply bool_decide_eq_true in Hl.
Qed.

(** Along a run from a state of the list everything stays in it, and a number that
    each step from the list makes smaller bounds the run. *)
Lemma closed_run l (rank : S -> nat) :
  closed l = true -> forallb (fun s => forallb (fun s' => (rank s' <? rank s)%nat) (succs s)) l = true ->
  forall n s s', nsteps (fun a b => b ∈ succs a) n s s' -> s ∈ l -> s' ∈ l /\ (n + rank s' <= rank s)%nat.
Proof.
  intros Hl Hr n s s' Hn. induction Hn as [s|n s s1 s2 H1 Hn IH]; intros Hs; [auto with lia|].
  pose proof (closed_spec l Hl s s1 Hs H1) as Hs1. destruct (IH Hs1) as [H2 H3]. split; [exact H2|].
  rewrite forallb_forall in Hr. specialize (Hr s (proj1 (list_elem_of_In _ _) Hs)). rewrite forallb_forall in Hr.
  specialize (Hr s1 (proj1 (list_elem_of_In _ _) H1)). apply Nat.ltb_lt in Hr. lia.
Qed.

End Closed.

(** ** The states of the test *)

(** What is left: calls, and messages the child has to receive. *)
Definition mq_rank (cs : codes) (s : mqs) : nat :=
  (sum_list ((fun w => length (cs w) - t_pc (task_of w s)) <$> mq_everyone) +
   (if t_pc (child s) <=? 3 then length myMsgs else Z.to_nat (nMsgs s)))%nat.

Definition mq_states : list mqs := explore (mq_succs mq_codes) 4000 [mq_start] [].

Definition by_urgency : list msg := [ Msg "This is test string number four!!" 7; Msg "Test string number 3!" 6;
  Msg "Test string number one" 5; Msg "This is test string num 2!!" 1 ].

(** What holds of each of them: nothing is broken; the child has the first of the
    messages by priority; and it has a successor, or all have ended. *)
Definition mq_good (s : mqs) : bool :=
  negb (broken s) && bool_decide (t_got (child s) = take (length (t_got (child s))) by_urgency) &&
  match mq_succs mq_codes s with
  | [] => mq_ended mq_codes s && mq_clean s && bool_decide (t_got (child s) = by_urgency) &&
          bool_decide (t_got (parent s) = [child_answer])
  | _ => true
  end.

Lemma mq_states_closed : closed (mq_succs mq_codes) mq_states = true.
Proof. vm_compute. reflexivity. Qed.

Lemma mq_states_rank :
  forallb (fun s => forallb (fun s' => (mq_rank mq_codes s' <? mq_rank mq_codes s)%nat) (mq_succs mq_codes s)) mq_states = true.
Proof. vm_compute. reflexivity. Qed.

Lemma mq_states_good : mq_start ∈ mq_states /\ forallb mq_good mq_states = true.
Proof. split; [apply (bool_decide_unpack _)|]; vm_compute; [exact I | reflexivity]. Qed.

Lemma mq_reached n s : nsteps (mq_step mq_codes) n mq_start s -> mq_good s = true /\ (n <= 32)%nat.
Proof.
  intros Hn. destruct mq_states_good as [H0 Hg].
  destruct (closed_run _ mq_states (mq_rank mq_codes) mq_states_closed mq_states_rank n mq_start s Hn H0) as [Hs Hr].
  change (mq_rank mq_codes mq_start) with 32%nat in Hr. split; [|lia].
  rewrite forallb_forall in Hg. apply Hg. now apply list_elem_of_In.
Qed.

(** ** Theorems *)

(** C38: the message queue test.  In every interleaving of the parent, the child
    and [main]: no buffer is overrun and no queue used that is not open; a run has
    at most 32 steps, and one that cannot go on has come to the end of all three
    tasks; then the child has received the four messages by priority, the parent
    the answer of the child, and no queue is left open or with a name. *)
Theorem mqtest_completes n s :
  nsteps (mq_step mq_codes) n mq_start s ->
  (n <= 32)%nat /\ broken s = false /\ t_got (child s) = take (length (t_got (child s))) by_urgency /\
  ((exists s', mq_step mq_codes s s') \/
   mq_ended mq_codes s = true /\ mq_clean s = true /\ t_got (child s) = by_urgency /\ t_got (parent s) = [child_answer]).
Proof.
  intros Hn. destruct (mq_reached n s Hn) as [Hg Hb]. unfold mq_good in Hg.
  apply andb_true_iff in Hg as [[Hbr Hpre%bool_decide_eq_true]%andb_true_iff Hend]. apply negb_true_iff in Hbr.
  split_and!; try assumption. unfold mq_step. destruct (mq_succs mq_codes s) as [|s' l]; [right|left; exists s'; left].
  apply andb_true_iff in Hend as [[[H1 H2]%andb_true_iff H3%bool_decide_eq_true]%andb_true_iff H4%bool_decide_eq_true]. auto.
Qed.

(** The first successor, again and again. *)
Fixpoint mq_first (cs : codes) (n : nat) (s : mqs) : mqs :=
  match n with O => s | S n => match mq_succs cs s with [] => s | s' :: _ => mq_first cs n s' end end.

Fixpoint mq_runs (cs : codes) (n : nat) (s : mqs) : bool :=
  match n with O => true | S n => match mq_succs cs s with [] => false | s' :: _ => mq_runs cs n s' end end.

Lemma mq_first_nsteps cs n s : mq_runs cs n s = true -> nsteps (mq_step cs) n s (mq_first cs n s).
Proof.
  revert s. induction n as [|n IH]; intros s Hr; [constructor|]. cbn [mq_runs mq_first] in *. destruct (mq_succs cs s) as [|s' l] eqn:E; [discriminate|].
  apply nsteps_l with s'; [unfold mq_step; rewrite E; left | now apply IH].
Qed.

Lemma mqtest_completes_witness :
  let s := mq_first mq_codes 30 mq_start in
  nsteps (mq_step mq_codes) 30 mq_start s /\ mq_ended mq_codes s = true /\ t_got (parent s) = [child_answer].
Proof.
  intros s. assert (Hn : nsteps (mq_step mq_codes) 30 mq_start s) by (apply mq_first_nsteps; vm_compute; reflexivity).
  split; [exact Hn|]. destruct (mqtest_completes 30 s Hn) as (_ & _ & _ & [[s' Hs]|(H1 & _ & _ & H2)]); [|auto].
  exfalso. revert Hs. unfold mq_step. replace (mq_succs mq_codes s) with (@nil mqs) by (vm_compute; reflexivity). apply not_elem_of_nil.
Defined.

(** The child unlinks "mq_queue2", a name no queue has, where its comment says it
    unlinks the queue it owns, "my_queue2".  With that name it may do so before the
    parent has opened the queue: the parent then makes another, and the answer is
    lost. *)
Definition intended_codes : codes := fun w =>
  match w with Child => take 10 child_func ++ [Unlink "my_queue2"] | w => mq_codes w end.

Definition child_first (cs : codes) (s : mqs) : list mqs :=
  match mq_task cs Child s with Some s' => [s'] | None => mq_succs cs s end.

Lemma mqtest_intended_loses : exists s, rtc (mq_step intended_codes) mq_start s /\ no_answer s = true /\ t_got (parent s) = [].
Proof.
  assert (Hsub : forall s, child_first intended_codes s ⊆ mq_succs intended_codes s).
  { intros s s'. unfold child_first. destruct (mq_task intended_codes Child s) as [s1|] eqn:E; [|auto].
    intros ->%list_elem_of_singleton. unfold mq_succs. apply elem_of_app. left. apply list_elem_of_omap. exists Child.
    split; [unfold mq_everyone; set_solver | exact E]. }
  set (go := fix go n s := match n with O => s | S n => match child_first intended_codes s with [] => s | s' :: _ => go n s' end end).
  assert (Hgo : forall n s, rtc (mq_step intended_codes) s (go n s)).
  { induction n as [|n IH]; intros s; [constructor|]. cbn -[child_first]. destruct (child_first intended_codes s) as [|s' l] eqn:E; [constructor|].
    apply rtc_l with s'; [apply Hsub; rewrite E; left | apply IH]. }
  exists (go 30%nat mq_start). split; [apply Hgo | split; vm_compute; reflexivity].
Qed.
