(* ===== verification/Calibration.v ===== *)
(** * The calibration tools (kern/i386/calibration: calmod.c, calproc.c, ucal.c)

    A module and a program that talk through a service request and a real-time
    FIFO: the program sends the arguments of a measurement, the module measures in
    its interrupt handlers or in a task and puts what it found in the FIFO.  The
    services of RTAI are inputs of the functions or parameters of the section; the
    FIFO is the interface [Fifo].  A message is a list of words of 32 bits.  The
    final quotient of a frequency is computed in floating point and is not
    modelled. *)

From stdpp Require Import base tactics numbers list strings.
From Stdlib Require Import Ascii.
From Stdlib Require String.
From S2P Require Import Prelude CycTime.

(** ** cal.h *)

Definition CAL_8254 : Z := 1.
Definition KLATENCY : Z := 2.
Definition KTHREADS : Z := 3.
Definition END_KLATENCY : Z := 4.
Definition FREQ_CAL : Z := 5.
Definition END_FREQ_CAL : Z := 6.
Definition BUS_CHECK : Z := 7.
Definition END_BUS_CHECK : Z := 8.
Definition FIFOBUFSIZE : Z := 1000.
Definition INILOOPS : Z := 100.

(** [struct params_t], the members that are used *)
Record params_t := PARAMS { mp : bool; latency_8254 : Z; latency_apic : Z }.

(** [struct times_t] *)
Record times_t := TIMES { cpu_time : Z; apic_time : Z; intrs : Z }.

(** It is put in the FIFO as four words, and read as it was put. *)
Definition times_words (t : times_t) : list Z :=
  [cpu_time t mod 2 ^ 32; cpu_time t / 2 ^ 32; apic_time t; u32 (intrs t)].

Definition words_times (l : list Z) : times_t :=
  match l with
  | [lo; hi; a; n] => TIMES (lo + 2 ^ 32 * hi) a (i32 n)
  | _ => TIMES 0 0 0
  end.

(** ** The FIFO *)

(** [rtf_put]: the FIFO after a block was put in it. *)
Class Fifo := rtf_put : list Z -> list Z -> list Z.

(** A block goes after what is there when there is room for it. *)
Class FifoLaws `{Fifo} : Prop :=
  put_room : forall f b, 4 * Z.of_nat (length (f ++ b)) <= FIFOBUFSIZE -> rtf_put f b = f ++ b.

(** [read] of [n] words: it waits until they are there. *)
Definition fifo_read (n : nat) (f : list Z) : option (list Z * list Z) :=
  if (n <=? length f)%nat then Some (take n f, drop n f) else None.

(** ** calmod.c *)

(** What the timer interrupt does. *)
Inductive handler := H_none | H_calibrate | H_bus.

(** The times of the RTAI timer. *)
Record rt_times := RTT { tick_time : Z; intr_time : Z; linux_time : Z; periodic_tick : Z; linux_tick : Z }.

Record cal := CAL {
  reset_count : Z; count : Z; times : times_t; cpu_tbase : Z; apic_tbase : Z;
  period : Z; expected : Z;
  t0 : Z; bus_period : Z; bus_threshold : Z; use_parport : bool; loops : Z; maxj : Z; bit : Z;
  rtt : rt_times; pended : Z; parport : list Z;
  irq : handler; fifo : list Z
}.

Definition set_irq (h : handler) (s : cal) : cal :=
  CAL (reset_count s) (count s) (times s) (cpu_tbase s) (apic_tbase s) (period s) (expected s)
      (t0 s) (bus_period s) (bus_threshold s) (use_parport s) (loops s) (maxj s) (bit s)
      (rtt s) (pended s) (parport s) h (fifo s).
Definition set_fifo (f : list Z) (s : cal) : cal :=
  CAL (reset_count s) (count s) (times s) (cpu_tbase s) (apic_tbase s) (period s) (expected s)
      (t0 s) (bus_period s) (bus_threshold s) (use_parport s) (loops s) (maxj s) (bit s)
      (rtt s) (pended s) (parport s) (irq s) f.

Section Module.
Context `{Fifo} (params : params_t).
(** [HZ], [CPU_FREQ], [imuldiv] and [count2nano] *)
Context (HZ CPU_FREQ : Z) (imuldiv : Z -> Z -> Z -> Z) (count2nano : Z -> Z).

(** [calibrate]: the readings of the time stamp counter and of the APIC.  The
    interrupt it sends to the other processors has no effect here. *)
Definition calibrate (cpu apic : Z) (s : cal) : cal :=
  let tm := TIMES (u64 cpu) (if mp params then u32 apic else apic_time (times s)) (intrs (times s)) in
  let first := intrs tm <? 0 in
  let cb := if first then i64 (cpu_time tm) else cpu_tbase s in
  let ab := if first then apic_time tm else apic_tbase s in
  let tm := TIMES (cpu_time tm) (apic_time tm) (i32 (intrs tm + 1)) in
  let c := i32 (count s + 1) in
  let '(c, tm, f) :=
    if c =? reset_count s then
      let tm := TIMES (u64 (cpu_time tm - cb)) (u32 (ab - apic_time tm)) (intrs tm) in
      (0, tm, rtf_put (fifo s) (times_words tm))
    else (c, tm, fifo s) in
  CAL (reset_count s) c tm cb ab (period s) (expected s)
      (t0 s) (bus_period s) (bus_threshold s) (use_parport s) (loops s) (maxj s) (bit s)
      (rtt s) (pended s + 1) (parport s) (irq s) f.

(** [spv]: the times at which its waits end. *)
Fixpoint spv_loop (period exp average : Z) (nows : list Z) : Z * Z :=
  match nows with
  | [] => (exp, average)
  | now :: nows =>
      let exp := exp + period in
      spv_loop period exp (i32 (average + i32 (count2nano (now - exp)))) nows
  end.

Definition spv (nows : list Z) (s : cal) : cal :=
  let '(e, average) := spv_loop (period s) (expected s) 0 nows in
  CAL (reset_count s) (count s) (times s) (cpu_tbase s) (apic_tbase s) (period s) e
      (t0 s) (bus_period s) (bus_threshold s) (use_parport s) (loops s) (maxj s) (bit s)
      (rtt s) (pended s) (parport s) (irq s) (rtf_put (fifo s) [u32 average]).

(** The measurement of [rt_timer_tick_ext]. *)
Definition bus_measure (t : Z) (s : cal) : cal :=
  if loops s <? INILOOPS then
    CAL (reset_count s) (count s) (times s) (cpu_tbase s) (apic_tbase s) (period s) (expected s)
        t (bus_period s) (bus_threshold s) (use_parport s) (i32 (loops s + 1)) (maxj s) (bit s)
        (rtt s) (pended s) (parport s) (irq s) (fifo s)
  else
    let bit' := if use_parport s then 1 - bit s else bit s in
    let out := if use_parport s then [bit'] else [] in
    let jit := i32 (Z.abs (i32 (i32 (t - t0 s) - bus_period s))) in
    let m := if maxj s <? jit then jit else maxj s in
    let f := if (maxj s <? jit) && (bus_threshold s <? m)
             then rtf_put (fifo s) [u32 (imuldiv m 1000000000 CPU_FREQ)] else fifo s in
    CAL (reset_count s) (count s) (times s) (cpu_tbase s) (apic_tbase s) (period s) (expected s)
        t (bus_period s) (bus_threshold s) (use_parport s) (i32 (loops s + 1)) m bit'
        (rtt s) (pended s) (parport s ++ out) (irq s) f.

(** [rt_timer_tick_ext]: what it returns is 0 when the interrupt of Linux is due. *)
Definition rt_timer_tick_ext (t : Z) (s : cal) : cal * Z :=
  let s := bus_measure t s in
  let r := rtt s in
  let tick := intr_time r in
  let due := linux_time r <=? tick in
  (CAL (reset_count s) (count s) (times s) (cpu_tbase s) (apic_tbase s) (period s) (expected s)
       (t0 s) (bus_period s) (bus_threshold s) (use_parport s) (loops s) (maxj s) (bit s)
       (RTT tick (tick + periodic_tick r) (if due then linux_time r + linux_tick r else linux_time r)
            (periodic_tick r) (linux_tick r))
       (if due then pended s + 1 else pended s) (parport s) (irq s) (fifo s),
   if due then 0 else 1).

(** What the services return to [user_srq]: the 8254 calibration, the period that
    [start_rt_timer] sets for a number of nanoseconds, [rt_get_time]. *)
Record srq_env := SRQ { r_8254 : Z; r_period : Z -> Z; r_now : Z }.

(** [user_srq] *)
Definition user_srq (e : srq_env) (args : Z * Z * Z * Z) (s : cal) : cal * Z :=
  let '(a0, a1, a2, a3) := args in
  if a0 =? CAL_8254 then (s, r_8254 e)
  else if (a0 =? KTHREADS) || (a0 =? KLATENCY) then
    (CAL (reset_count s) (count s) (times s) (cpu_tbase s) (apic_tbase s) (i32 (r_period e a1))
         (r_now e + i32 (100 * i32 (r_period e a1)))
         (t0 s) (bus_period s) (bus_threshold s) (use_parport s) (loops s) (maxj s) (bit s)
         (rtt s) (pended s) (parport s) (irq s) (fifo s), 0)
  else if a0 =? FREQ_CAL then
    (CAL (i32 (a1 * HZ)) 0 (TIMES (cpu_time (times s)) (apic_time (times s)) (-1)) (cpu_tbase s) (apic_tbase s)
         (period s) (expected s)
         (t0 s) (bus_period s) (bus_threshold s) (use_parport s) (loops s) (maxj s) (bit s)
         (rtt s) (pended s) (parport s) H_calibrate (fifo s), 0)
  else if a0 =? BUS_CHECK then
    (CAL (reset_count s) (count s) (times s) (cpu_tbase s) (apic_tbase s) (period s) (expected s)
         (t0 s) (i32 (imuldiv a1 CPU_FREQ 1000000000)) (i32 (imuldiv a2 CPU_FREQ 1000000000)) (negb (a3 =? 0)) 0 0 (bit s)
         (rtt s) (pended s) (parport s) H_bus (fifo s), 0)
  else if (a0 =? END_FREQ_CAL) || (a0 =? END_BUS_CHECK) then (set_irq H_none s, 0)
  else (s, 0).

(** An interrupt of the timer, for the handler that is installed. *)
Definition interrupt (cpu apic : Z) (s : cal) : cal :=
  match irq s with
  | H_none => s
  | H_calibrate => calibrate cpu apic s
  | H_bus => fst (rt_timer_tick_ext cpu s)
  end.

Definition interrupts (l : list (Z * Z)) (s : cal) : cal :=
  foldl (fun s x => interrupt (fst x) (snd x) s) s l.

(** ** calproc.c *)

(** [getint]: [line] is what [fgets] read, with its newline; [None] is an invalid
    answer. *)
Definition getint (line : string) : option Z :=
  let str := String.substring 0 (String.length line - 1) line in
  if bool_decide (str = "") then None
  else let tmp := atoi str in if tmp <=? 0 then None else Some tmp.

(** The arguments of a latency measurement, for the command k or x. *)
Definition klatency_args (k : bool) (line1 line2 : string) : option (Z * Z * Z * Z) :=
  match getint line1, getint line2 with
  | Some a1, Some a2 =>
      Some (if k then KLATENCY else KTHREADS, u32 (a1 * 1000), u32 (1000000 * a2) / a1, 0)
  | _, _ => None
  end.

(** What is done with the word read: [None] is a division by zero. *)
Definition latency_result (word a2 : Z) : option Z :=
  let n := i32 a2 in
  if n =? 0 then None
  else Some (i32 ((if mp params then i32 (latency_apic params) else i32 (latency_8254 params)) + Z.quot (i32 word) n)).

(** A latency measurement, from the command to its end; [nows] are the times at
    which the waits of the task end.  [None]: an invalid answer. *)
Definition measure_latency (e : srq_env) (k : bool) (line1 line2 : string) (nows : list Z) (s : cal)
    : option (cal * option Z) :=
  match klatency_args k line1 line2 with
  | None => None
  | Some args =>
      let '(_, _, a2, _) := args in
      let s := spv (take (Z.to_nat (i32 a2)) nows) (fst (user_srq e args s)) in
      match fifo_read 1 (fifo s) with
      | Some ([w], f) => Some (fst (user_srq e (END_KLATENCY, 0, 0, 0) (set_fifo f s)), latency_result w a2)
      | _ => None
      end
  end.

(** [sprintf] of an unsigned long: at most ten digits. *)
Definition digit_char (d : Z) : ascii := ascii_of_nat (Z.to_nat (48 + d)).

Fixpoint lu_digits (fuel : nat) (x : Z) (acc : string) : string :=
  match fuel with
  | O => acc
  | S fuel =>
      let acc := String (digit_char (x mod 10)) acc in
      if x <? 10 then acc else lu_digits fuel (x / 10) acc
  end.

Definition sprintf_lu (x : Z) : string := lu_digits 10 x "".

(** [main] of ucal.c: the word it writes; [task_ok] says if the task could be made. *)
Definition ucal (e : srq_env) (task_ok : bool) (argv1 argv2 : string) (nows : list Z) : option Z :=
  if task_ok then
    let period := i32 (r_period e (atoi argv1)) in
    let expected := r_now e + i32 (100 * period) in
    Some (u32 (snd (spv_loop period expected 0 (take (Z.to_nat (atoi argv2)) nows))))
  else None.

(** The command u: the program runs ucal and reads the word it wrote.  [None]: an
    invalid answer, or nothing to read. *)
Definition measure_ulatency (e : srq_env) (task_ok : bool) (line1 line2 : string) (nows : list Z) (s : cal)
    : option (cal * option Z) :=
  match klatency_args false line1 line2 with
  | None => None
  | Some (_, a1, a2, _) =>
      let f := match ucal e task_ok (sprintf_lu a1) (sprintf_lu a2) nows with
               | Some w => rtf_put (fifo s) [w]
               | None => fifo s
               end in
      match fifo_read 1 f with
      | Some ([w], f) => Some (set_fifo f s, latency_result w a2)
      | _ => None
      end
  end.

(** A frequency calibration: the timer interrupts and the turns of the loop of the
    program, in any order.  A turn adds to the time, reads a [times_t] when there is
    one, shows it and ends the measurement when a key was pressed. *)
Inductive freq_event := Tick | Turn (key : bool).

(** [stamps i] are the time stamp counter and the APIC counter at the interrupt [i]. *)
Record freq := FREQ { fmod : cal; ticks : nat; time : Z; shown : list (Z * times_t); going : bool }.

Definition freq_start (e : srq_env) (a1 : Z) (s : cal) : freq :=
  FREQ (fst (user_srq e (FREQ_CAL, a1, 0, 0) s)) 0 0 [] true.

Definition freq_step (e : srq_env) (a1 : Z) (stamps : nat -> Z * Z) (x : freq) (ev : freq_event) : freq :=
  match ev with
  | Tick =>
      FREQ (interrupt (fst (stamps (ticks x))) (snd (stamps (ticks x))) (fmod x)) (S (ticks x))
           (time x) (shown x) (going x)
  | Turn key =>
      if going x then
        match fifo_read 4 (fifo (fmod x)) with
        | Some (m, f) =>
            let t := u32 (time x + a1) in
            let s := set_fifo f (fmod x) in
            let s := if key then fst (user_srq e (END_FREQ_CAL, a1, 0, 0) s) else s in
            FREQ s (ticks x) t (shown x ++ [(t, words_times m)]) (negb key)
        | None => x
        end
      else x
  end.

Definition freq_run (e : srq_env) (a1 : Z) (stamps : nat -> Z * Z) (x : freq) (es : list freq_event) : freq :=
  foldl (freq_step e a1 stamps) x es.

(** A bus check: the timer interrupts and the turns of the loop of the program for
    which [poll] found something.  A key ends the check; otherwise the turn reads an
    int and shows it, in microseconds and thousandths of them. *)
Record bus := BUS { bmod : cal; bticks : nat; bshown : list (Z * Z); bgoing : bool }.

Definition bus_start (e : srq_env) (args : Z * Z * Z) (s : cal) : bus :=
  let '(a1, a2, a3) := args in BUS (fst (user_srq e (BUS_CHECK, u32 (a1 * 1000), u32 (a2 * 1000), a3) s)) 0 [] true.

Definition show_us (w : Z) : Z * Z := (Z.quot (i32 w) 1000, Z.rem (i32 w) 1000).

Definition bus_step (e : srq_env) (tsc : nat -> Z) (x : bus) (ev : freq_event) : bus :=
  match ev with
  | Tick => BUS (interrupt (tsc (bticks x)) 0 (bmod x)) (S (bticks x)) (bshown x) (bgoing x)
  | Turn key =>
      if bgoing x then
        if key then BUS (fst (user_srq e (END_BUS_CHECK, 0, 0, 0) (bmod x))) (bticks x) (bshown x) false
        else
          match fifo_read 1 (fifo (bmod x)) with
          | Some ([w], f) => BUS (set_fifo f (bmod x)) (bticks x) (bshown x ++ [show_us w]) true
          | _ => x
          end
      else x
  end.

Definition bus_run (e : srq_env) (tsc : nat -> Z) (x : bus) (es : list freq_event) : bus :=
  foldl (bus_step e tsc) x es.

End Module.
