(* ===== verification/CalFacts.v ===== *)
(** * Facts of the calibration tools

    What the frequency calibration shows, for every interleaving of the timer
    interrupts and of the program; what the bus check keeps; what a latency
    measurement prints, and when it stops with a division by zero. *)

From stdpp Require Import base tactics numbers list sorting strings.
From Stdlib Require String.
From S2P Require Import Prelude CycTime Calibration.

(** ** Words *)

Lemma words_times_words t :
  0 <= cpu_time t < 2 ^ 64 -> 0 <= apic_time t -> - 2 ^ 31 <= intrs t < 2 ^ 31 ->
  words_times (times_words t) = t.
Proof.
  destruct t as [c a n]. cbn [cpu_time apic_time intrs]. intros Hc Ha Hn.
  unfold times_words, words_times. cbn [cpu_time apic_time intrs]. f_equal.
  - pose proof (Z.div_mod c (2 ^ 32)). lia.
  - transitivity (i32 n); [|apply wrap_s_id; lia].
    unfold wrap_s, wrap_u. f_equal. now rewrite Z.add_mod_idemp_l by lia.
Qed.

(** A reduction moves a number by a multiple of the modulus. *)
Lemma u64_shift x : exists q, u64 x = x + q * 2 ^ 64.
Proof. exists (- (x / 2 ^ 64)). unfold wrap_u. rewrite Z.mod_eq by lia. lia. Qed.

Lemma i64_shift x : exists q, i64 x = x + q * 2 ^ 64.
Proof. exists (- ((x + 2 ^ 63) / 2 ^ 64)). unfold wrap_s. change (64 - 1) with 63. rewrite Z.mod_eq by lia. lia. Qed.

(** A difference of time stamps does not depend on the sign of the base. *)
Lemma u64_sub_base a b : u64 (u64 a - i64 (u64 b)) = u64 (a - b).
Proof.
  destruct (i64_shift (u64 b)) as [r ->], (u64_shift b) as [q ->], (u64_shift a) as [p ->].
  unfold wrap_u. rewrite <- (Z.mod_add (a - b) (p - q - r)) by lia. f_equal. lia.
Qed.

Lemma u32_sub a b : u32 (u32 a - u32 b) = u32 (a - b).
Proof. unfold wrap_u. now rewrite <- Zminus_mod. Qed.

(** ** The frequency calibration *)

Section Freq.
Context `{FifoLaws} (params : params_t) (HZ CPU_FREQ : Z) (imuldiv : Z -> Z -> Z -> Z).
Context (e : srq_env) (a1 : Z) (stamps : nat -> Z * Z).

(** An interrupt finds room for a message. *)
Definition room (s : cal) : bool := 4 * (Z.of_nat (length (fifo s)) + 4) <=? FIFOBUFSIZE.

Fixpoint fits (x : freq) (es : list freq_event) : bool :=
  match es with
  | [] => true
  | ev :: es =>
      (match ev with Tick => room (fmod x) | Turn _ => true end)
      && fits (freq_step params HZ CPU_FREQ imuldiv e a1 stamps x ev) es
  end.

(** The interrupts between two messages. *)
Definition per_msg : nat := Z.to_nat (a1 * HZ).

(** The message [k]: the counts between the first interrupt and the last one. *)
Definition message (k : nat) : times_t :=
  let n := (k * per_msg - 1)%nat in
  TIMES (u64 (fst (stamps n) - fst (stamps 0%nat)))
        (if mp params then u32 (snd (stamps 0%nat) - snd (stamps n)) else 0) (Z.of_nat n).

(** What the turn [k] shows: the time in seconds and the message. *)
Definition reading (k : nat) : Z * times_t := (u32 (Z.of_nat k * a1), message k).

(** The messages [i+1 .. j]. *)
Definition pending (i j : nat) : list Z := concat (map (fun k => times_words (message k)) (seq (S i) (j - i))).

Lemma pending_snoc i j : (i <= j)%nat -> pending i (S j) = pending i j ++ times_words (message (S j)).
Proof.
  intros. unfold pending. replace (S j - i)%nat with (S (j - i)) by lia.
  rewrite seq_S, map_app, concat_app. cbn [map concat]. rewrite app_nil_r.
  now replace (S i + (j - i))%nat with (S j) by lia.
Qed.

Lemma pending_cons i j : (i < j)%nat -> pending i j = times_words (message (S i)) ++ pending (S i) j.
Proof.
  intros. unfold pending. replace (j - i)%nat with (S (j - S i)) by lia. reflexivity.
Qed.

Lemma pending_none i : pending i i = [].
Proof. unfold pending. now rewrite Nat.sub_diag. Qed.

(** The module after [n] interrupts of a calibration. *)
Record counting (n : nat) (s : cal) : Prop := {
  cn_irq : irq s = H_calibrate;
  cn_reset : reset_count s = a1 * HZ;
  cn_count : count s = Z.of_nat (n mod per_msg);
  cn_intrs : intrs (times s) = Z.of_nat n - 1;
  cn_cpu : (0 < n)%nat -> cpu_tbase s = i64 (u64 (fst (stamps 0%nat)));
  cn_apic : (0 < n)%nat -> apic_tbase s = if mp params then u32 (snd (stamps 0%nat)) else 0;
  cn_up : mp params = false -> apic_time (times s) = 0
}.

Context (Hr : 0 < a1 * HZ < 2 ^ 31).

Lemma per_msg_pos : (0 < per_msg)%nat.
Proof using Hr. unfold per_msg. lia. Qed.

Lemma div_mod_succ n m : (0 < m)%nat ->
  if (S (n mod m) =? m)%nat then (S n / m = S (n / m) /\ S n mod m = 0)%nat
  else (S n / m = n / m /\ S n mod m = S (n mod m))%nat.
Proof.
  intros Hm. pose proof (Nat.div_mod n m ltac:(lia)). pose proof (Nat.mod_upper_bound n m ltac:(lia)).
  destruct (Nat.eqb_spec (S (n mod m)) m).
  - split; symmetry;
      [apply (Nat.div_unique _ _ _ 0) | apply (Nat.mod_unique _ _ (S (n / m)))]; lia.
  - split; symmetry;
      [apply (Nat.div_unique _ _ _ (S (n mod m))) | apply (Nat.mod_unique _ _ (n / m))]; lia.
Qed.

(** The interrupt at which the message falls due. *)
Lemma last_interrupt n : S (n mod per_msg) = per_msg -> (S n / per_msg * per_msg - 1 = n)%nat.
Proof using Hr.
  intros Heq. pose proof per_msg_pos as Hp. pose proof (div_mod_succ n per_msg Hp) as Hd.
  apply Nat.eqb_eq in Heq. rewrite Heq in Hd. apply Nat.eqb_eq in Heq. destruct Hd as [-> _].
  pose proof (Nat.div_mod n per_msg ltac:(lia)). lia.
Qed.

(** What the module has noted of the first interrupt, once it has seen one. *)
Lemma first_interrupt n s :
  counting n s ->
  let tm := (if mp params then u32 (snd (stamps n)) else apic_time (times s)) in
  (if intrs (times s) <? 0 then i64 (u64 (fst (stamps n))) else cpu_tbase s) = i64 (u64 (fst (stamps 0%nat)))
  /\ (if intrs (times s) <? 0 then tm else apic_tbase s) = if mp params then u32 (snd (stamps 0%nat)) else 0.
Proof.
  intros [_ _ _ Hin Hcpu Hap Hup] tm. unfold tm. rewrite Hin.
  destruct n as [|n].
  - replace (Z.of_nat 0 - 1 <? 0) with true by reflexivity.
    split; [reflexivity|]. destruct (mp params); auto.
  - replace (Z.of_nat (S n) - 1 <? 0) with false by (symmetry; apply Z.ltb_ge; lia).
    split; [apply Hcpu | apply Hap]; lia.
Qed.

(** The counts of the message that falls due at the interrupt [n]. *)
Lemma due_message n s :
  counting n s -> S (n mod per_msg) = per_msg ->
  TIMES (u64 (u64 (fst (stamps n)) - i64 (u64 (fst (stamps 0%nat)))))
    (u32 ((if mp params then u32 (snd (stamps 0%nat)) else 0)
          - (if mp params then u32 (snd (stamps n)) else apic_time (times s)))) (Z.of_nat n)
  = message (S n / per_msg).
Proof using Hr.
  intros Hs Heq. unfold message. rewrite last_interrupt by assumption.
  rewrite u64_sub_base. f_equal.
  destruct (mp params) eqn:Emp; [apply u32_sub | now rewrite (cn_up _ _ Hs)].
Qed.

(** One interrupt: it puts the next message when it is its turn, and nothing else. *)
Lemma calibrate_counts n s :
  counting n s -> Z.of_nat n < 2 ^ 31 - 1 -> room s = true ->
  let s' := calibrate params (fst (stamps n)) (snd (stamps n)) s in
  counting (S n) s' /\
  fifo s' = fifo s ++ (if (S (n mod per_msg) =? per_msg)%nat then times_words (message (S n / per_msg)) else []).
Proof using Hr H0.
  intros Hs Hn Hroom. unfold room in Hroom. apply Z.leb_le in Hroom.
  destruct (first_interrupt n s Hs) as [Hcb Hab]. pose proof (due_message n s Hs) as Hmsg.
  pose proof per_msg_pos as Hp. pose proof (div_mod_succ n per_msg Hp) as Hd.
  pose proof (Nat.mod_upper_bound n per_msg ltac:(lia)) as Hub.
  pose proof (last_interrupt n) as Hlast.
  destruct Hs as [Hirq Hres Hcnt Hin _ _ Hup].
  assert (Hc : i32 (count s + 1) = Z.of_nat (S (n mod per_msg))).
  { rewrite Hcnt, wrap_s_id; unfold per_msg in *; lia. }
  assert (Hi : i32 (intrs (times s) + 1) = Z.of_nat n) by (rewrite Hin, wrap_s_id; lia).
  intros s'. unfold s', calibrate. cbn [cpu_time apic_time intrs].
  rewrite Hcb, Hab, Hi, Hc, Hres.
  destruct (Nat.eqb_spec (S (n mod per_msg)) per_msg) as [Heq|Hne]; destruct Hd as [Hdv Hmd].
  - replace (Z.of_nat _ =? a1 * HZ) with true by (symmetry; apply Z.eqb_eq; unfold per_msg in *; lia).
    rewrite Hmsg by assumption. split.
    + constructor; cbn; auto; rewrite ?Hmd, ?Hlast by assumption; try lia.
      intros ->. reflexivity.
    + cbn [fifo]. apply put_room. rewrite length_app. cbn. lia.
  - replace (Z.of_nat _ =? a1 * HZ) with false by (symmetry; apply Z.eqb_neq; unfold per_msg in *; lia).
    rewrite app_nil_r. split; [|reflexivity].
    constructor; cbn; auto; rewrite ?Hmd; try lia. intros Emp. rewrite Emp. auto.
Qed.

Lemma fifo_read_times t f : fifo_read 4 (times_words t ++ f) = Some (times_words t, f).
Proof. reflexivity. Qed.

(** A calibration: [j] readings shown of the [k] messages put. *)
Record tracking (x : freq) (k : nat) : Prop := {
  tk_shown : shown x = map reading (seq 1 (length (shown x)));
  tk_time : time x = u32 (Z.of_nat (length (shown x)) * a1);
  tk_le : (length (shown x) <= k <= ticks x / per_msg)%nat;
  tk_fifo : fifo (fmod x) = pending (length (shown x)) k;
  tk_state : if going x then counting (ticks x) (fmod x) /\ k = (ticks x / per_msg)%nat
             else irq (fmod x) = H_none
}.

Lemma message_read k n :
  (k <= n / per_msg)%nat -> Z.of_nat n < 2 ^ 31 -> words_times (times_words (message k)) = message k.
Proof using Hr.
  intros Hk Hn. pose proof per_msg_pos as Hp.
  apply words_times_words; unfold message; cbn [cpu_time apic_time intrs].
  - apply wrap_u_range; lia.
  - destruct (mp params); [apply wrap_u_range|]; lia.
  - assert (k * per_msg <= n)%nat; [|lia].
    etransitivity; [apply Nat.mul_le_mono_r; exact Hk|].
    rewrite Nat.mul_comm. apply Nat.Div0.mul_div_le.
Qed.

Lemma tick_tracks x k :
  tracking x k -> Z.of_nat (ticks x) < 2 ^ 31 - 1 -> room (fmod x) = true ->
  exists k', tracking (freq_step params HZ CPU_FREQ imuldiv e a1 stamps x Tick) k'.
Proof using Hr H0.
  intros [Hsh Htm Hle Hf Hst] Hn Hroom. cbn [freq_step]. unfold interrupt.
  pose proof (div_mod_succ (ticks x) per_msg per_msg_pos) as Hd.
  destruct (going x) eqn:Eg.
  - destruct Hst as [Hc ->]. rewrite (cn_irq _ _ Hc).
    destruct (calibrate_counts _ _ Hc Hn Hroom) as [Hc' Hf'].
    exists (S (ticks x) / per_msg)%nat. rewrite Hf in Hf'.
    destruct (Nat.eqb_spec (S (ticks x mod per_msg)) per_msg); destruct Hd as [Hdv _].
    + constructor; cbn [shown time ticks fmod going]; auto; [lia|].
      rewrite Hf', Hdv. symmetry. apply pending_snoc. lia.
    + constructor; cbn [shown time ticks fmod going]; auto; [lia|].
      now rewrite Hf', Hdv, app_nil_r.
  - exists k. rewrite Hst. constructor; cbn [shown time ticks fmod going]; auto.
    destruct (_ =? _)%nat in Hd; lia.
Qed.

Lemma turn_tracks x k key :
  tracking x k -> Z.of_nat (ticks x) < 2 ^ 31 ->
  exists k', tracking (freq_step params HZ CPU_FREQ imuldiv e a1 stamps x (Turn key)) k'.
Proof using Hr H0.
  intros Hx Hn. exists k. pose proof Hx as [Hsh Htm Hle Hf Hst].
  cbn [freq_step]. destruct (going x) eqn:Eg; [|exact Hx].
  destruct (Nat.eq_dec (length (shown x)) k) as [Heq|Hne].
  { rewrite Hf, Heq, pending_none. exact Hx. }
  rewrite Hf, pending_cons, fifo_read_times by lia. cbn zeta beta.
  rewrite (message_read _ (ticks x)) by lia.
  assert (Ht : u32 (time x + a1) = u32 (Z.of_nat (S (length (shown x))) * a1)).
  { rewrite Htm, wrap_u_add_l by lia. f_equal. lia. }
  constructor; cbn [shown time ticks fmod going]; rewrite ?length_app; cbn [length];
    rewrite ?Nat.add_1_r; auto; try lia.
  - rewrite seq_S, map_app, Ht. f_equal. exact Hsh.
  - destruct key; reflexivity.
  - destruct Hst as [[] ->]. destruct key; cbn [negb]; [reflexivity | split; [|reflexivity]].
    constructor; auto.
Qed.

(** The calibration from its start to any point. *)
Lemma freq_run_tracks es x k :
  tracking x k -> Z.of_nat (ticks x + length es) < 2 ^ 31 - 1 -> fits x es = true ->
  exists k', tracking (freq_run params HZ CPU_FREQ imuldiv e a1 stamps x es) k'.
Proof using Hr H0.
  revert x k. induction es as [|ev es IH]; intros x k Hx Hn Hf; [now exists k|].
  cbn [length fits] in *. apply andb_true_iff in Hf as [Hroom Hf].
  assert (exists k', tracking (freq_step params HZ CPU_FREQ imuldiv e a1 stamps x ev) k') as [k' Hx'].
  { destruct ev; [apply (tick_tracks x k) | apply (turn_tracks x k)]; auto; lia. }
  cbn [freq_run foldl]. apply (IH _ k'); auto.
  enough (ticks (freq_step params HZ CPU_FREQ imuldiv e a1 stamps x ev) <= S (ticks x))%nat by lia.
  destruct ev; cbn [freq_step]; [reflexivity|].
  destruct (going x), (fifo_read 4 (fifo (fmod x))) as [[]|]; cbn; lia.
Qed.

Lemma freq_start_tracks s :
  fifo s = [] -> (mp params = false -> apic_time (times s) = 0) ->
  tracking (freq_start HZ CPU_FREQ imuldiv e a1 s) 0.
Proof using Hr.
  intros Hf Hup. pose proof per_msg_pos. constructor; cbn; auto; try lia. split; [|now rewrite Nat.Div0.div_0_l].
  constructor; cbn; auto; try lia; [apply wrap_s_id; lia|]. now rewrite Nat.Div0.mod_0_l.
Qed.
End Freq.

(** ** The latency of a task *)

Section Latency.
Context `{FifoLaws} (params : params_t) (HZ CPU_FREQ : Z) (imuldiv : Z -> Z -> Z -> Z) (count2nano : Z -> Z).

(** How late the waits were: wait [i] was due [i+1] periods after [exp]. *)
Fixpoint lateness (period exp : Z) (nows : list Z) : list Z :=
  match nows with
  | [] => []
  | now :: nows => count2nano (now - (exp + period)) :: lateness period (exp + period) nows
  end.

Definition zsum (l : list Z) : Z := foldr Z.add 0 l.

Lemma spv_loop_sum period exp average nows :
  snd (spv_loop count2nano period exp (i32 average) nows) = i32 (average + zsum (lateness period exp nows)).
Proof.
  revert exp average. induction nows as [|now nows IH]; intros exp average; cbn.
  { now rewrite Z.add_0_r. }
  replace (i32 (i32 average + i32 (count2nano (now - (exp + period)))))
    with (i32 (average + count2nano (now - (exp + period)))).
  2:{ rewrite wrap_s_add_l, (Z.add_comm average (i32 _)), wrap_s_add_l by lia. f_equal. lia. }
  rewrite IH. unfold zsum. cbn [foldr]. f_equal. lia.
Qed.

Lemma spv_loop_expected period exp average nows :
  fst (spv_loop count2nano period exp average nows) = exp + Z.of_nat (length nows) * period.
Proof. revert exp average. induction nows as [|now nows IH]; intros; cbn; [lia|]. rewrite IH. lia. Qed.

(** The task: one word in the FIFO, the sum. *)
Lemma spv_puts nows s :
  fifo s = [] ->
  fifo (spv count2nano nows s) = [u32 (i32 (zsum (lateness (period s) (expected s) nows)))].
Proof using H0.
  intros Hf. unfold spv. pose proof (spv_loop_sum (period s) (expected s) 0 nows) as Hs.
  change (i32 0) with 0 in Hs. rewrite Z.add_0_l in Hs.
  destruct (spv_loop _ _ _ _ _) as [ex av]. cbn [fifo snd] in *. subst av.
  rewrite Hf. now apply (put_room []).
Qed.

Lemma i32_u32 x : i32 (u32 x) = i32 x.
Proof. unfold wrap_s, wrap_u. now rewrite Z.add_mod_idemp_l by lia. Qed.


(** The counts of a measurement of [p] microseconds for [t] seconds. *)
Lemma klatency_args_ok k line1 line2 p t :
  getint line1 = Some p -> getint line2 = Some t -> 1000000 * t < 2 ^ 32 ->
  0 < p < 2 ^ 31 /\ 0 < t /\
  klatency_args k line1 line2
  = Some (if k then KLATENCY else KTHREADS, u32 (p * 1000), 1000000 * t / p, 0).
Proof.
  intros H1 H2 Ht.
  assert (Hg : forall l v, getint l = Some v -> 0 < v < 2 ^ 31).
  { intros l v. unfold getint. case_bool_decide; [discriminate|].
    destruct (Z.leb_spec (atoi (String.substring 0 (String.length l - 1) l)) 0); [discriminate|].
    intros [= <-]. split; [lia|]. unfold atoi. apply (wrap_s_range 32). lia. }
  pose proof (Hg _ _ H1). pose proof (Hg _ _ H2).
  unfold klatency_args. rewrite H1, H2, (wrap_u_id 32 (1000000 * t)) by lia.
  split; [lia | split; [lia | reflexivity]].
Qed.

Definition latency_in_use : Z := i32 (if mp params then latency_apic params else latency_8254 params).

(** What is printed for the sum of the lateness of [n] waits. *)
Lemma latency_result_ok sum n :
  0 <= n < 2 ^ 31 ->
  latency_result params (u32 (i32 sum)) n
  = if n =? 0 then None else Some (i32 (latency_in_use + Z.quot (i32 sum) n)).
Proof.
  intros Hn. unfold latency_result, latency_in_use. rewrite (wrap_s_id 32 n) by lia.
  destruct (n =? 0); [reflexivity|].
  rewrite i32_u32, wrap_s_idem by lia. destruct (mp params); reflexivity.
Qed.

(** The command k or x: the whole measurement, from an empty FIFO. *)
Lemma measure_latency_sum e k line1 line2 p t nows s :
  getint line1 = Some p -> getint line2 = Some t -> 1000000 * t < 2 ^ 31 -> fifo s = [] ->
  let n := 1000000 * t / p in
  let per := i32 (r_period e (u32 (p * 1000))) in
  let sum := zsum (lateness per (r_now e + i32 (100 * per)) (take (Z.to_nat n) nows)) in
  exists s',
    measure_latency params HZ CPU_FREQ imuldiv count2nano e k line1 line2 nows s
    = Some (s', if n =? 0 then None else Some (i32 (latency_in_use + Z.quot (i32 sum) n)))
    /\ fifo s' = [].
Proof using H0.
  intros H1 H2 Ht Hf n per sum.
  destruct (klatency_args_ok k line1 line2 p t H1 H2 ltac:(lia)) as (Hp & Ht0 & Ha).
  assert (Hn : 0 <= n < 2 ^ 31).
  { unfold n. split; [apply Z.div_pos; lia|]. apply Z.div_lt_upper_bound; nia. }
  unfold measure_latency. rewrite Ha. fold n. rewrite (wrap_s_id 32 n) by lia.
  set (s1 := fst (user_srq _ _ _ _ _ s)).
  assert (Hs1 : fifo s1 = [] /\ period s1 = per /\ expected s1 = r_now e + i32 (100 * per)).
  { unfold s1, per. destruct k; auto. }
  destruct Hs1 as (Hf1 & Hp1 & He1).
  rewrite (spv_puts _ s1 Hf1), Hp1, He1. fold sum.
  eexists. split.
  - cbn [fifo_read length Nat.leb take drop]. now rewrite latency_result_ok by lia.
  - reflexivity.
Qed.

(** ** The decimal numbers given to ucal *)

Ltac digit_cases d :=
  assert (d = 0 \/ d = 1 \/ d = 2 \/ d = 3 \/ d = 4 \/ d = 5 \/ d = 6 \/ d = 7 \/ d = 8 \/ d = 9) by lia;
  repeat match goal with H : _ \/ _ |- _ => destruct H end; subst d.

Lemma digit_char_ok d : 0 <= d < 10 -> digit_of (digit_char d) = Some d.
Proof. intros Hd. digit_cases d; reflexivity. Qed.

Lemma strtol_digit d r :
  0 <= d < 10 ->
  fst (strtol (String (digit_char d) r)) = clamp_long (fst (scan_digits 0 (String (digit_char d) r))).
Proof.
  intros Hd.
  digit_cases d;
    match goal with |- context [digit_char ?k] =>
      let c := eval vm_compute in (digit_char k) in change (digit_char k) with c end;
    unfold strtol; cbn [skip_spaces];
    match goal with |- context [is_space ?c] => change (is_space c) with false end;
    cbv beta iota zeta;
    match goal with |- context [digit_of ?c] =>
      let o := eval vm_compute in (digit_of c) in change (digit_of c) with o end;
    cbv beta iota zeta;
    match goal with |- context [scan_digits ?a ?l] => destruct (scan_digits a l) end; reflexivity.
Qed.

Lemma scan_lu fuel x acc : 0 <= x < 10 ^ Z.of_nat fuel -> scan_digits 0 (lu_digits fuel x acc) = scan_digits x acc.
Proof.
  revert x acc. induction fuel as [|fuel IH]; intros x acc Hx.
  { cbn in *. now replace x with 0 by lia. }
  pose proof (Z.mod_pos_bound x 10 ltac:(lia)) as Hm.
  assert (Hd : forall a, scan_digits a (String (digit_char (x mod 10)) acc) = scan_digits (a * 10 + x mod 10) acc).
  { intros a. cbn [scan_digits]. now rewrite digit_char_ok. }
  cbn [lu_digits]. cbv zeta. destruct (Z.ltb_spec x 10).
  - rewrite Hd, (Z.mod_small x 10) by lia. f_equal.
  - rewrite Nat2Z.inj_succ, Z.pow_succ_r in Hx by lia.
    rewrite IH, Hd by (split; [apply Z.div_pos | apply Z.div_lt_upper_bound]; lia).
    f_equal. rewrite (Z.div_mod x 10) at 3 by lia. lia.
Qed.

Lemma lu_head fuel x acc : 0 <= x -> exists d r, lu_digits (S fuel) x acc = String (digit_char d) r /\ 0 <= d < 10.
Proof.
  revert x acc. induction fuel as [|fuel IH]; intros x acc Hx;
    pose proof (Z.mod_pos_bound x 10 ltac:(lia)).
  { exists (x mod 10), acc. cbn. destruct (x <? 10); auto. }
  remember (S fuel) as f. cbn [lu_digits]. cbv zeta. destruct (x <? 10); [eauto|].
  subst f. apply IH. apply Z.div_pos; lia.
Qed.

(** A number below 2^31 is read as it was printed; from there on the largest int
    is read instead. *)
Lemma atoi_sprintf x : 0 <= x < 2 ^ 32 -> atoi (sprintf_lu x) = Z.min x (2 ^ 31 - 1).
Proof.
  intros Hx. unfold atoi, sprintf_lu.
  destruct (lu_head 9 x "" ltac:(lia)) as (d & r & Hl & Hd).
  pose proof (scan_lu 10 x "" ltac:(cbn; lia)) as Hs. rewrite Hl in *.
  rewrite strtol_digit, Hs by assumption. cbn [scan_digits fst].
  unfold clamp_long, LONG_MAX, LONG_MIN.
  destruct (Z.ltb_spec 2147483647 x), (Z.ltb_spec x (-2147483648)); rewrite wrap_s_id; lia.
Qed.

(** The command u measures what the command x measures, as long as the period in
    nanoseconds is an int. *)
Lemma ulatency_same e line1 line2 p t nows s :
  getint line1 = Some p -> getint line2 = Some t -> 1000 * p < 2 ^ 31 -> 1000000 * t < 2 ^ 31 -> fifo s = [] ->
  option_map snd (measure_ulatency params count2nano e true line1 line2 nows s)
  = option_map snd (measure_latency params HZ CPU_FREQ imuldiv count2nano e false line1 line2 nows s).
Proof using H0.
  intros H1 H2 Hp1 Ht Hf.
  destruct (measure_latency_sum e false line1 line2 p t nows s H1 H2 Ht Hf) as (s' & -> & _).
  destruct (klatency_args_ok false line1 line2 p t H1 H2 ltac:(lia)) as (Hp & Ht0 & Ha).
  assert (Hn : 0 <= 1000000 * t / p < 2 ^ 31).
  { split; [apply Z.div_pos; lia|]. apply Z.div_lt_upper_bound; nia. }
  unfold measure_ulatency, ucal. rewrite Ha, (wrap_u_id 32 (p * 1000)) by lia. cbv zeta.
  rewrite !atoi_sprintf, !Z.min_l by lia. rewrite Hf.
  pose proof (spv_loop_sum (i32 (r_period e (p * 1000))) (r_now e + i32 (100 * i32 (r_period e (p * 1000)))) 0
                (take (Z.to_nat (1000000 * t / p)) nows)) as Hs.
  change (i32 0) with 0 in Hs. rewrite Z.add_0_l in Hs. rewrite Hs, put_room by (unfold FIFOBUFSIZE; cbn; lia).
  cbn [fifo_read app length Nat.leb take drop option_map snd]. now rewrite latency_result_ok by lia.
Qed.

End Latency.

(** ** The bus check *)

Section Bus.
Context `{FifoLaws} (params : params_t) (HZ CPU_FREQ : Z) (imuldiv : Z -> Z -> Z -> Z).
Context (e : srq_env) (tsc : nat -> Z).

Abbreviation step := (bus_step params HZ CPU_FREQ imuldiv e tsc).
Abbreviation run := (bus_run params HZ CPU_FREQ imuldiv e tsc).

(** An interrupt finds room for a word. *)
Fixpoint bus_fits (x : bus) (es : list freq_event) : bool :=
  match es with
  | [] => true
  | ev :: es =>
      (match ev with Tick => 4 * (Z.of_nat (length (fifo (bmod x))) + 1) <=? FIFOBUFSIZE | Turn _ => true end)
      && bus_fits (step x ev) es
  end.

(** How far from the period the time between the interrupts [i-1] and [i] was. *)
Definition jitter (per : Z) (i : nat) : Z := Z.abs (tsc i - tsc (i - 1) - per).

(** No time between two interrupts is out of the range of an int. *)
Definition tame (per : Z) : Prop :=
  forall i, - 2 ^ 31 <= tsc (S i) - tsc i < 2 ^ 31 /\ jitter per (S i) < 2 ^ 31.

(** The jitters of the first [n] interrupts, less the first hundred. *)
Definition jitters (per : Z) (n : nat) : list Z := map (jitter per) (seq 100 (n - 100)).

(** [m] is the largest number of a list of non-negative numbers, or 0. *)
Definition largest (m : Z) (l : list Z) : Prop := (m = 0 \/ m ∈ l) /\ Forall (fun x => x <= m) l.

(** What is shown of a jitter. *)
Definition shown_us (j : Z) : Z * Z := show_us (u32 (imuldiv j 1000000000 CPU_FREQ)).

(** The reports [recs]: ever larger, the last one the largest jitter, none that is
    not above the threshold. *)
Definition reports (thr m : Z) (recs : list Z) : Prop :=
  StronglySorted Z.lt recs /\ Forall (fun j => thr < j <= m) recs /\ (thr < m -> 0 < m -> last recs = Some m).

Lemma reports_snoc thr m recs j :
  reports thr m recs -> m < j -> thr < j -> reports thr j (recs ++ [j]).
Proof.
  intros (Hs & Hf & _) Hm Ht. repeat split.
  - apply StronglySorted_app_2; auto; [|repeat constructor].
    intros x y Hx Hy. apply list_elem_of_singleton in Hy as ->.
    rewrite Forall_forall in Hf. specialize (Hf x Hx). cbn in Hf. lia.
  - apply Forall_app. split; [|repeat constructor; lia].
    eapply Forall_impl; [exact Hf|]. cbn. lia.
  - intros. apply last_snoc.
Qed.

Record checking (stale : list Z) (x : bus) (recs : list Z) (per thr : Z) : Prop := {
  ck_shown : bshown x ++ map show_us (fifo (bmod x)) = map show_us stale ++ map shown_us recs;
  ck_reports : reports thr (maxj (bmod x)) recs;
  ck_pos : 0 <= maxj (bmod x);
  ck_in : Forall (fun j => j ∈ jitters per (bticks x)) recs;
  ck_state : if bgoing x then
      irq (bmod x) = H_bus /\ bus_period (bmod x) = per /\ bus_threshold (bmod x) = thr /\
      loops (bmod x) = Z.of_nat (bticks x) /\ ((0 < bticks x)%nat -> t0 (bmod x) = tsc (bticks x - 1)) /\
      largest (maxj (bmod x)) (jitters per (bticks x))
    else irq (bmod x) = H_none
}.

Context (per thr : Z) (stale : list Z) (Htame : tame per).

Lemma jitters_succ n :
  jitters per (S n) = if (n <? 100)%nat then [] else jitters per n ++ [jitter per n].
Proof.
  unfold jitters. destruct (Nat.ltb_spec n 100).
  - now replace (S n - 100)%nat with 0%nat by lia.
  - replace (S n - 100)%nat with (S (n - 100)) by lia.
    rewrite seq_S, map_app. now replace (100 + (n - 100))%nat with n by lia.
Qed.

Lemma jitters_grow n l :
  Forall (fun j => j ∈ jitters per n) l -> Forall (fun j => j ∈ jitters per (S n)) l.
Proof.
  intros Hl. eapply Forall_impl; [exact Hl|]. intros j Hj. rewrite jitters_succ.
  destruct (Nat.ltb_spec n 100); [|apply elem_of_app; auto].
  unfold jitters in Hj. now replace (n - 100)%nat with 0%nat in Hj by lia.
Qed.

Lemma largest_snoc m l j :
  0 <= m -> largest m l -> largest (if m <? j then j else m) (l ++ [j]).
Proof.
  intros Hm [He Hl]. destruct (Z.ltb_spec m j); split.
  - right. apply elem_of_app. right. constructor.
  - apply Forall_app. split; [|repeat constructor; lia]. eapply Forall_impl; [exact Hl|]. cbn. lia.
  - destruct He; [auto|]. right. apply elem_of_app. auto.
  - apply Forall_app. split; [exact Hl|]. repeat constructor. lia.
Qed.

(** The measured jitter is the true one. *)
Lemma jitter_measured n :
  (0 < n)%nat -> i32 (Z.abs (i32 (i32 (tsc n - tsc (n - 1)) - per))) = jitter per n.
Proof using Htame.
  intros Hn. destruct n as [|n]; [lia|]. destruct (Htame n) as [Hd Hj].
  unfold jitter in *. replace (S n - 1)%nat with n in * by lia.
  rewrite (wrap_s_id 32 (tsc (S n) - tsc n)), (wrap_s_id 32 (_ - per)) by lia.
  apply wrap_s_id; lia.
Qed.

Lemma reports_keep m recs j : reports thr m recs -> m < j -> j <= thr -> reports thr j recs.
Proof.
  intros (Hs & Hf & _) Hm Ht. split; [exact Hs|]. split; [|lia].
  eapply Forall_impl; [exact Hf|]. cbn. lia.
Qed.

(** One interrupt of the bus check. *)
Lemma bus_measure_checks n s :
  bus_period s = per -> bus_threshold s = thr -> loops s = Z.of_nat n -> Z.of_nat n < 2 ^ 31 - 1 ->
  ((0 < n)%nat -> t0 s = tsc (n - 1)) ->
  4 * (Z.of_nat (length (fifo s)) + 1) <= FIFOBUFSIZE ->
  let s' := bus_measure CPU_FREQ imuldiv (tsc n) s in
  let m := if (100 <=? n)%nat && (maxj s <? jitter per n) then jitter per n else maxj s in
  maxj s' = m /\ loops s' = Z.of_nat (S n) /\ t0 s' = tsc n /\
  fifo s' = fifo s ++ (if (maxj s <? m) && (thr <? m) then [u32 (imuldiv m 1000000000 CPU_FREQ)] else []).
Proof using Htame H0.
  intros Hp Ht Hl Hn Ht0 Hroom s' m. unfold s', bus_measure. rewrite Hl. unfold INILOOPS, m.
  destruct (Nat.leb_spec 100 n).
  - replace (Z.of_nat n <? 100) with false by (symmetry; apply Z.ltb_ge; lia).
    rewrite Ht0, Hp, jitter_measured by lia. cbn [maxj loops t0 fifo andb].
    rewrite wrap_s_id by lia. repeat split; try lia. rewrite Ht.
    destruct (maxj s <? jitter per n) eqn:Ej; cbn [andb]; rewrite ?Z.ltb_irrefl, ?app_nil_r; [|reflexivity].
    rewrite Ej. cbn [andb]. destruct (thr <? jitter per n); [|now rewrite app_nil_r].
    apply put_room. rewrite length_app. cbn. lia.
  - replace (Z.of_nat n <? 100) with true by (symmetry; apply Z.ltb_lt; lia).
    cbn [maxj loops t0 fifo andb]. rewrite wrap_s_id, Z.ltb_irrefl, app_nil_r by lia.
    repeat split. lia.
Qed.

Lemma bus_tick_checks x recs :
  checking stale x recs per thr -> Z.of_nat (bticks x) < 2 ^ 31 - 1 ->
  4 * (Z.of_nat (length (fifo (bmod x))) + 1) <= FIFOBUFSIZE ->
  exists recs', checking stale (step x Tick) recs' per thr.
Proof using Htame H0.
  intros [Hsh Hrep Hpos Hin Hst] Hn Hroom. apply jitters_grow in Hin.
  cbn [bus_step]. unfold interrupt. destruct (bgoing x) eqn:Eg.
  2:{ exists recs. rewrite Hst. constructor; cbn [bshown bmod bticks bgoing]; auto. }
  destruct Hst as (Hirq & Hp & Ht & Hl & Ht0 & Hlg). rewrite Hirq.
  destruct (bus_measure_checks (bticks x) (bmod x) Hp Ht Hl Hn Ht0 Hroom) as (Em & El & Et & Ef).
  set (n := bticks x) in *. set (s := bmod x) in *.
  set (s1 := bus_measure CPU_FREQ imuldiv (tsc n) s) in *.
  set (m := if _ : bool then _ else _) in *.
  assert (Hkeep : irq s1 = H_bus /\ bus_period s1 = per /\ bus_threshold s1 = thr).
  { unfold s1, bus_measure. destruct (loops s <? INILOOPS); repeat split; assumption. }
  assert (Hlg' : largest m (jitters per (S n))).
  { rewrite jitters_succ. unfold m. destruct (Nat.leb_spec 100 n), (Nat.ltb_spec n 100); try lia.
    - now apply largest_snoc.
    - cbn [andb]. split; [|constructor]. unfold jitters in Hlg.
      replace (n - 100)%nat with 0%nat in Hlg by lia. destruct Hlg as [[|Hno] _]; [auto | inversion Hno]. }
  assert (Hm : maxj s <= m).
  { unfold m. destruct (_ && _) eqn:E; [|lia]. apply andb_true_iff in E as [_ E%Z.ltb_lt]. lia. }
  clearbody m. exists (recs ++ if (maxj s <? m) && (thr <? m) then [m] else []).
  constructor; cbn [bshown bmod bticks bgoing rt_timer_tick_ext fst fifo maxj irq bus_period bus_threshold loops t0];
    fold s1; rewrite ?Em, ?El, ?Et, ?Ef; [| |lia| |].
  - rewrite !map_app, app_assoc, Hsh, <- app_assoc. do 2 f_equal. destruct (_ && _); reflexivity.
  - destruct (Z.ltb_spec (maxj s) m), (Z.ltb_spec thr m); cbn [andb]; rewrite ?app_nil_r.
    + now apply reports_snoc with (maxj s).
    + now apply reports_keep with (maxj s).
    + now replace m with (maxj s) by lia.
    + now replace m with (maxj s) by lia.
  - apply Forall_app. split; [exact Hin|].
    destruct (Z.ltb_spec (maxj s) m), (thr <? m); cbn [andb]; repeat constructor.
    destruct Hlg' as [[->|] _]; [lia | assumption].
  - destruct Hkeep as (? & ? & ?). repeat split; auto; try apply Hlg'.
    intros. f_equal. lia.
Qed.

Lemma bus_turn_checks x recs key :
  checking stale x recs per thr -> checking stale (step x (Turn key)) recs per thr.
Proof.
  intros Hx. pose proof Hx as [Hsh Hrep Hpos Hin Hst]. cbn [bus_step].
  destruct (bgoing x) eqn:Eg; [|exact Hx].
  destruct key; [constructor; cbn; auto|].
  destruct (fifo (bmod x)) as [|w f] eqn:Ef; [exact Hx|].
  cbn [fifo_read length Nat.leb take drop]. rewrite take_0, drop_0. constructor; auto.
  cbn [bshown bmod fifo set_fifo]. rewrite <- Hsh, <- app_assoc. reflexivity.
Qed.

(** The bus check from its start to any point. *)
Lemma bus_run_checks es x recs :
  checking stale x recs per thr -> Z.of_nat (bticks x + length es) < 2 ^ 31 - 1 -> bus_fits x es = true ->
  exists recs', checking stale (run x es) recs' per thr.
Proof using Htame H0.
  revert x recs. induction es as [|ev es IH]; intros x recs Hx Hn Hf; [now exists recs|].
  cbn [length bus_fits] in *. apply andb_true_iff in Hf as [Hroom Hf].
  assert (exists recs', checking stale (step x ev) recs' per thr) as [recs' Hx'].
  { destruct ev; [apply (bus_tick_checks x recs); [auto|lia|now apply Z.leb_le] |].
    exists recs. now apply bus_turn_checks. }
  cbn [bus_run foldl]. apply (IH _ recs'); auto.
  enough (bticks (step x ev) <= S (bticks x))%nat by lia.
  destruct ev as [|[]]; cbn [bus_step]; [reflexivity|destruct (bgoing x); cbn; lia|].
  destruct (bgoing x), (fifo_read 1 (fifo (bmod x))) as [[[|? []] ?]|]; cbn; lia.
Qed.

Lemma bus_start_checks a1 a2 a3 s :
  per = i32 (imuldiv (u32 (a1 * 1000)) CPU_FREQ 1000000000) ->
  thr = i32 (imuldiv (u32 (a2 * 1000)) CPU_FREQ 1000000000) ->
  checking (fifo s) (bus_start HZ CPU_FREQ imuldiv e (a1, a2, a3) s) [] per thr.
Proof using Type.
  clear Htame. intros -> ->. constructor; cbn; auto; try lia.
  - now rewrite app_nil_r.
  - repeat split; [constructor | constructor | lia].
  - repeat split; auto; lia.
Qed.
End Bus.
