(* ===== verification/CalTheorems.v ===== *)
(** * Theorems of the calibration tools

    The properties of calmod.c, calproc.c and ucal.c, with a FIFO that shows the
    assumptions can hold, and two defects: a division by zero, and words left in the
    FIFO that the next measurement takes for its own. *)

From stdpp Require Import base tactics numbers list sorting strings.
From Stdlib Require String Ascii.
From S2P Require Import Prelude CycTime Calibration CalFacts.

(** A FIFO of [FIFOBUFSIZE] bytes that drops what does not fit. *)
#[local] Instance plain_fifo : Fifo :=
  fun f b => if 4 * Z.of_nat (length (f ++ b)) <=? FIFOBUFSIZE then f ++ b else f.

#[local] Instance plain_fifo_laws : FifoLaws.
Proof. intros f b Hr. unfold rtf_put, plain_fifo. apply Z.leb_le in Hr. now rewrite Hr. Qed.

(** The module as it is loaded, its parameters read. *)
Definition cal0 : cal :=
  CAL 0 0 (TIMES 0 0 0) 0 0 0 0 0 0 0 false 0 0 0 (RTT 0 0 0 0 0) 0 [] H_none [].

Definition env0 : srq_env := SRQ 2000 (fun ns => ns) 5000.

Definition params0 : params_t := PARAMS true 4700 3944.

Definition muldiv (a b c : Z) : Z := a * b / c.

(** The frequency calibration.  Whatever the interleaving of the timer
    interrupts and of the turns of the program, as long as an interrupt finds room
    in the FIFO, what the [k]-th turn shows is the time in seconds and the counts of
    the time stamp counter and of the APIC from the first interrupt to the
    [k * reset_count]-th one, with the number of interrupts between them; and while
    the calibration goes on no message is lost: the FIFO holds the messages of all
    the interrupts so far that were not read yet. *)
Theorem freq_readings `{FifoLaws} params HZ CPU_FREQ imuldiv e a1 stamps es s :
  0 < a1 * HZ < 2 ^ 31 -> fifo s = [] -> (mp params = false -> apic_time (times s) = 0) ->
  Z.of_nat (length es) < 2 ^ 31 - 1 ->
  fits params HZ CPU_FREQ imuldiv e a1 stamps (freq_start HZ CPU_FREQ imuldiv e a1 s) es = true ->
  let x := freq_run params HZ CPU_FREQ imuldiv e a1 stamps (freq_start HZ CPU_FREQ imuldiv e a1 s) es in
  let j := length (shown x) in
  let k := (ticks x / per_msg HZ a1)%nat in
  shown x = map (reading params HZ a1 stamps) (seq 1 j) /\ (j <= k)%nat /\
  (going x = true -> fifo (fmod x) = pending params HZ a1 stamps j k).
Proof.
  intros Hr Hf Hup Hn Hfit x j k.
  destruct (freq_run_tracks params HZ CPU_FREQ imuldiv e a1 stamps Hr es _ 0%nat
              (freq_start_tracks params HZ CPU_FREQ imuldiv e a1 stamps Hr s Hf Hup) Hn Hfit) as [k' Hx].
  fold x in Hx. destruct Hx as [Hs _ Hle Hff Hst]. fold j in Hs, Hle, Hff. fold k in Hle, Hst.
  split; [exact Hs|]. split; [lia|]. intros Hg. rewrite Hg in Hst. destruct Hst as [_ ->]. exact Hff.
Qed.

(** Interrupts every 11932 counts of the APIC timer and every 10 ms of a 1 GHz clock. *)
Definition stamps0 (n : nat) : Z * Z := (10 ^ 12 + Z.of_nat n * 10 ^ 7, 10 ^ 6 - Z.of_nat n * 11932).

Definition freq_events : list freq_event :=
  repeat Tick 5 ++ [Turn false] ++ repeat Tick 3 ++ [Turn false; Tick; Turn true; Tick].

Lemma freq_readings_witness :
  map fst (shown (freq_run params0 4 (10 ^ 9) muldiv env0 1 stamps0
    (freq_start 4 (10 ^ 9) muldiv env0 1 cal0) freq_events)) = [1; 2].
Proof.
  destruct (freq_readings params0 4 (10 ^ 9) muldiv env0 1 stamps0 freq_events cal0) as (-> & _ & _);
    [lia | reflexivity | discriminate | vm_compute; reflexivity | vm_compute; reflexivity | vm_compute; reflexivity].
Defined.

(** C16: the bus check. Whatever the interleaving of the timer interrupts and of
    the turns of the program (fewer than 2^31 - 1 of both), as long as an
    interrupt finds room in the FIFO and no time between two interrupts is out of
    the range of an int, what was shown and what waits in the FIFO are first the
    words an earlier measurement left in the FIFO, if any, and then the reports of
    ever larger jitters that were measured, all above the threshold; while the
    check goes on the last of them is the largest distance from the period of all
    the times between interrupts after the first hundred, when that is above the
    threshold. *)
Theorem bus_check_reports `{FifoLaws} params HZ CPU_FREQ imuldiv e tsc a1 a2 a3 es s :
  let per := i32 (imuldiv (u32 (a1 * 1000)) CPU_FREQ 1000000000) in
  let thr := i32 (imuldiv (u32 (a2 * 1000)) CPU_FREQ 1000000000) in
  tame tsc per -> Z.of_nat (length es) < 2 ^ 31 - 1 ->
  bus_fits params HZ CPU_FREQ imuldiv e tsc (bus_start HZ CPU_FREQ imuldiv e (a1, a2, a3) s) es = true ->
  let x := bus_run params HZ CPU_FREQ imuldiv e tsc (bus_start HZ CPU_FREQ imuldiv e (a1, a2, a3) s) es in
  exists recs,
    bshown x ++ map show_us (fifo (bmod x))
      = map show_us (fifo s) ++ map (shown_us CPU_FREQ imuldiv) recs /\
    StronglySorted Z.lt recs /\ Forall (fun j => thr < j /\ j ∈ jitters tsc per (bticks x)) recs /\
    (bgoing x = true ->
     exists m, largest m (jitters tsc per (bticks x)) /\ (thr < m -> 0 < m -> last recs = Some m)).
Proof.
  intros per thr Ht Hn Hfit x.
  destruct (bus_run_checks params HZ CPU_FREQ imuldiv e tsc per thr (fifo s) Ht es _ []
              (bus_start_checks HZ CPU_FREQ imuldiv e tsc per thr a1 a2 a3 s eq_refl eq_refl) Hn Hfit)
    as [recs [Hs (Hsort & Hall & Hlast) _ Hin Hst]].
  fold x in Hs, Hall, Hlast, Hin, Hst. exists recs. split; [exact Hs|]. split; [exact Hsort|]. split.
  - apply Forall_and. split; [|exact Hin]. eapply Forall_impl; [exact Hall|]. cbn. lia.
  - intros Hg. rewrite Hg in Hst. exists (maxj (bmod x)). split; [apply Hst | exact Hlast].
Qed.

(** 100 quiet interrupts a millisecond apart, then two that are late. *)
Definition tsc0 (n : nat) : Z :=
  10 ^ 12 + Z.of_nat n * 10 ^ 6 + (if (100 <=? n)%nat then 3000 else 0) + (if (101 <=? n)%nat then 9000 else 0).

Lemma tsc0_tame : tame tsc0 (10 ^ 6).
Proof.
  intros i. unfold jitter, tsc0. replace (S i - 1)%nat with i by lia.
  destruct (Nat.leb_spec 100 i), (Nat.leb_spec 101 i), (Nat.leb_spec 100 (S i)), (Nat.leb_spec 101 (S i)); lia.
Qed.

(** A word of 7 microseconds is left in the FIFO. *)
Lemma bus_check_reports_witness :
  let s := set_fifo [7000] cal0 in
  let x := bus_run params0 100 (10 ^ 9) muldiv env0 tsc0
             (bus_start 100 (10 ^ 9) muldiv env0 (1000, 2, 0) s) (repeat Tick 101 ++ [Turn false; Tick]) in
  bshown x ++ map show_us (fifo (bmod x)) = (7, 0) :: [(3, 0); (9, 0)] /\
  exists recs, map (shown_us (10 ^ 9) muldiv) recs = [(3, 0); (9, 0)] /\ StronglySorted Z.lt recs.
Proof.
  intros s x.
  assert (bshown x ++ map show_us (fifo (bmod x)) = (7, 0) :: [(3, 0); (9, 0)]) as E by (vm_compute; reflexivity).
  split; [exact E|].
  destruct (bus_check_reports params0 100 (10 ^ 9) muldiv env0 tsc0 1000 2 0 (repeat Tick 101 ++ [Turn false; Tick]) s)
    as (recs & Hs & Hsort & _);
    [exact tsc0_tame | vm_compute; reflexivity | vm_compute; reflexivity |].
  exists recs. split; [|exact Hsort]. fold x in Hs. rewrite E in Hs. injection Hs as Hs. exact (eq_sym Hs).
Defined.

(** ** The latency of a task *)

(** The whole measurement of the command k or x: from an empty FIFO, as long as the
    sum of the lateness of the waits is an int, the latency printed is the one in use
    plus the mean lateness of the [10^6 t / p] waits, truncated. *)
Theorem latency_measured `{FifoLaws} params HZ CPU_FREQ imuldiv count2nano e k line1 line2 p t nows s :
  getint line1 = Some p -> getint line2 = Some t -> 1000000 * t < 2 ^ 31 -> p <= 1000000 * t -> fifo s = [] ->
  let n := 1000000 * t / p in
  let per := i32 (r_period e (u32 (p * 1000))) in
  let sum := zsum (lateness count2nano per (r_now e + i32 (100 * per)) (take (Z.to_nat n) nows)) in
  - 2 ^ 31 <= sum < 2 ^ 31 ->
  exists s',
    measure_latency params HZ CPU_FREQ imuldiv count2nano e k line1 line2 nows s
    = Some (s', Some (i32 (latency_in_use params + Z.quot sum n))) /\ fifo s' = [].
Proof.
  intros H1 H2 Ht Hpt Hf n per sum Hsum.
  destruct (measure_latency_sum params HZ CPU_FREQ imuldiv count2nano e k line1 line2 p t nows s H1 H2 Ht Hf)
    as (s' & E & Hf').
  destruct (klatency_args_ok k line1 line2 p t H1 H2 ltac:(lia)) as (Hp & Ht0 & _).
  fold n per sum in E. rewrite (wrap_s_id 32 sum) in E by lia. exists s'. split; [|exact Hf'].
  rewrite E. assert (0 < n) by (apply Z.div_str_pos; lia). now destruct (Z.eqb_spec n 0); [lia|].
Qed.

(** A period longer than the time of the measurement: the program divides by zero. *)
Theorem latency_divides_by_zero `{FifoLaws} params HZ CPU_FREQ imuldiv count2nano e k line1 line2 p t nows s :
  getint line1 = Some p -> getint line2 = Some t -> 1000000 * t < 2 ^ 31 -> 1000000 * t < p -> fifo s = [] ->
  option_map snd (measure_latency params HZ CPU_FREQ imuldiv count2nano e k line1 line2 nows s) = Some None.
Proof.
  intros H1 H2 Ht Hpt Hf.
  destruct (measure_latency_sum params HZ CPU_FREQ imuldiv count2nano e k line1 line2 p t nows s H1 H2 Ht Hf)
    as (s' & -> & _).
  destruct (klatency_args_ok k line1 line2 p t H1 H2 ltac:(lia)) as (Hp & Ht0 & _).
  rewrite (Z.div_small (1000000 * t) p) by lia. reflexivity.
Qed.

(** A bus check that is ended when a report waits leaves it in the FIFO, and the
    next latency measurement prints what that word gives, whatever it measured: here
    9000 ns over 100 waits, 90 ns, instead of the mean of 500 ns, which stays in the
    FIFO for the measurement after it. *)
Lemma stale_word_printed :
  let x := bus_run params0 100 (10 ^ 9) muldiv env0 tsc0
             (bus_start 100 (10 ^ 9) muldiv env0 (1000, 5, 0) cal0) (repeat Tick 102 ++ [Turn true]) in
  let nl := String (Ascii.ascii_of_nat 10) "" in
  let nows := map (fun i => 5000 + 101 * 10 ^ 7 + Z.of_nat i * 10 ^ 7 + 500) (seq 0 100) in
  let run s := option_map (fun r => (fifo (fst r), snd r))
    (measure_latency params0 100 (10 ^ 9) muldiv (fun c => c) env0 true
       (String.append "10000" nl) (String.append "1" nl) nows s) in
  fifo (bmod x) = [9000] /\ run cal0 = Some ([], Some (3944 + 500)) /\
  run (bmod x) = Some ([50000], Some (3944 + 90)).
Proof. repeat split; vm_compute; reflexivity. Qed.
