(* ===== verification/Ftest.v ===== *)
(** * Serial line test (user/rtdm/ftest.c)

    The program opens two serial lines, starts a task that writes the time on one
    and a task that reads it on the other, and undoes what it did when something
    fails or a signal comes.  The services are the interface [Services]: what a call
    returns depends on all the calls before it, which the state keeps. *)

From stdpp Require Import base tactics numbers list.
From S2P Require Import Prelude.

(** [WRITE_FILE] or [READ_FILE], and the task that uses it *)
Inductive file := Write | Read.

Inductive call :=
  | Dev_open (f : file) | Set_config (fd : Z) (f : file) | Dev_close (fd : Z) | Dev_write (fd : Z)
  | Dev_read (fd : Z) | Wait_event (fd : Z)
  | Task_create (f : file) | Task_start (f : file) | Task_delete (f : file) | Task_sleep
  | Set_periodic | Wait_period | Timer_read.

#[export] Instance file_eq_dec : EqDecision file.
Proof. solve_decision. Defined.
#[export] Instance call_eq_dec : EqDecision call.
Proof. solve_decision. Defined.

(** A call and what it returned. *)
Abbreviation event := (call * Z)%type.

(** What a call returns, and what it stores through its pointer, after the calls
    before it. *)
Class Services := SERVICES { answer : list event -> call -> Z; stored : list event -> call -> Z }.

Definition EAGAIN : Z := 11.
Definition ETIMEDOUT : Z := 110.
Definition STATE_FILE_OPENED : Z := 1.
Definition STATE_TASK_CREATED : Z := 2.
Definition sz : Z := 8.

(** What the tasks print: the three differences of a message, the number an error
    message is made from, a short transfer. *)
Inductive line := Row (nr a b c : Z) | Error_line (errnum : Z) | Short (n : Z).

Record ft := FT {
  read_fd : Z; write_fd : Z; read_state : Z; write_state : Z;
  trace : list event; printed : list line
}.

Definition ft0 : ft := FT (-1) (-1) 0 0 [] [].

Definition fd_of (f : file) (s : ft) : Z := match f with Write => write_fd s | Read => read_fd s end.
Definition state_of (f : file) (s : ft) : Z := match f with Write => write_state s | Read => read_state s end.
Definition set_fd (f : file) (fd : Z) (s : ft) : ft :=
  match f with
  | Write => FT (read_fd s) fd (read_state s) (write_state s) (trace s) (printed s)
  | Read => FT fd (write_fd s) (read_state s) (write_state s) (trace s) (printed s)
  end.
Definition set_state (f : file) (st : Z) (s : ft) : ft :=
  match f with
  | Write => FT (read_fd s) (write_fd s) (read_state s) st (trace s) (printed s)
  | Read => FT (read_fd s) (write_fd s) st (write_state s) (trace s) (printed s)
  end.
Definition set_bit (f : file) (b : Z) (s : ft) : ft := set_state f (Z.lor (state_of f s) b) s.
Definition clear_bit (f : file) (b : Z) (s : ft) : ft := set_state f (Z.land (state_of f s) (u32 (Z.lnot b))) s.
Definition has_bit (f : file) (b : Z) (s : ft) : bool := negb (Z.land (state_of f s) b =? 0).
Definition print (l : line) (s : ft) : ft :=
  FT (read_fd s) (write_fd s) (read_state s) (write_state s) (trace s) (printed s ++ [l]).

Section Program.
Context `{Services}.

Definition invoke (c : call) (s : ft) : Z * ft :=
  let r := answer (trace s) c in
  (r, FT (read_fd s) (write_fd s) (read_state s) (write_state s) (trace s ++ [(c, r)]) (printed s)).

(** [close_file]: [left] tries are left. *)
Fixpoint close_tries (left : nat) (fd : Z) (s : ft) : Z * ft :=
  let '(err, s) := invoke (Dev_close fd) s in
  if err =? - EAGAIN then
    let s := snd (invoke Task_sleep s) in
    match left with
    | S (S _ as left) => close_tries left fd s
    | _ => (err, s)
    end
  else (err, s).

Definition close_file (fd : Z) (s : ft) : Z * ft := close_tries 10 fd s.

(** [cleanup_all] *)
Definition cleanup_file (f : file) (s : ft) : ft :=
  if has_bit f STATE_FILE_OPENED s
  then clear_bit f STATE_FILE_OPENED (snd (close_file (fd_of f s) s)) else s.

Definition cleanup_tasks (s : ft) : ft :=
  let s := if has_bit Write STATE_TASK_CREATED s then clear_bit Write STATE_TASK_CREATED s else s in
  if has_bit Read STATE_TASK_CREATED s
  then clear_bit Read STATE_TASK_CREATED (snd (invoke (Task_delete Read) s)) else s.

Definition cleanup_all (s : ft) : ft :=
  let s := cleanup_file Read s in
  let s := cleanup_file Write s in
  cleanup_tasks s.

(** [catch_signal] *)
Definition catch_signal (s : ft) : ft := cleanup_all s.

(** The label [error] of [main]. *)
Definition main_error (err : Z) (s : ft) : option Z * ft := (Some err, cleanup_all s).

(** [main]: [None] is the [pause] that ends it when all went well, [Some] is what it
    returns. *)
Definition main (s : ft) : option Z * ft :=
  let err := 0 in
  let '(fd, s) := invoke (Dev_open Write) s in
  let s := set_fd Write fd s in
  if write_fd s <? 0 then main_error err s else
  let s := set_bit Write STATE_FILE_OPENED s in
  let '(err, s) := invoke (Set_config (write_fd s) Write) s in
  if negb (err =? 0) then main_error err s else
  let '(fd, s) := invoke (Dev_open Read) s in
  let s := set_fd Read fd s in
  if read_fd s <? 0 then main_error err s else
  let s := set_bit Read STATE_FILE_OPENED s in
  let '(err, s) := invoke (Set_config (read_fd s) Read) s in
  if negb (err =? 0) then main_error err s else
  let '(err, s) := invoke (Task_create Write) s in
  if negb (err =? 0) then main_error err s else
  let s := set_bit Write STATE_TASK_CREATED s in
  let '(err, s) := invoke (Task_create Read) s in
  if negb (err =? 0) then main_error err s else
  let s := set_bit Read STATE_TASK_CREATED s in
  let '(err, s) := invoke (Task_start Write) s in
  if negb (err =? 0) then main_error err s else
  let '(err, s) := invoke (Task_start Read) s in
  if negb (err =? 0) then main_error err s else
  (None, s).

(** The end of a task: it closes its file, and notes it when that went well. *)
Definition task_exit (f : file) (s : ft) : ft :=
  if has_bit f STATE_FILE_OPENED s then
    let '(err, s) := close_file (fd_of f s) s in
    if err =? 0 then clear_bit f STATE_FILE_OPENED s else s
  else s.

(** A turn of the loop of [write_task_proc]: [true] when it breaks. *)
Definition write_turn (s : ft) : bool * ft :=
  let '(err, s) := invoke Wait_period s in
  if negb (err =? 0) then (true, print (Error_line (- err)) s) else
  let s := snd (invoke Timer_read s) in
  let '(written, s) := invoke (Dev_write (write_fd s)) s in
  if written <? 0 then (true, print (Error_line (- err)) s)
  else if negb (written =? sz) then (true, print (Short written) s)
  else (false, s).

(** A turn of the loop of [read_task_proc], with the number of messages so far. *)
Definition read_turn (nr : Z) (s : ft) : bool * Z * ft :=
  let rxpend := stored (trace s) (Wait_event (read_fd s)) in
  let '(err, s) := invoke (Wait_event (read_fd s)) s in
  if negb (err =? 0) then (negb (err =? - ETIMEDOUT), nr, print (Error_line (- err)) s) else
  let irq_time := u64 rxpend in
  let wt := stored (trace s) (Dev_read (read_fd s)) in
  let '(read, s) := invoke (Dev_read (read_fd s)) s in
  if read =? sz then
    let write_time := u64 wt in
    let '(read_time, s) := invoke Timer_read s in
    (false, i32 (nr + 1),
     print (Row nr (u64 (irq_time - write_time)) (u64 (read_time - irq_time)) (u64 (read_time - write_time))) s)
  else if read <? 0 then (true, nr, print (Error_line (- err)) s)
  else (true, nr, print (Short read) s).

(** The tasks, for at most [n] turns; [true] when they ended. *)
Fixpoint write_turns (n : nat) (s : ft) : bool * ft :=
  match n with
  | O => (false, s)
  | S n => let '(stop, s) := write_turn s in if stop then (true, task_exit Write s) else write_turns n s
  end.

Definition write_task_proc (n : nat) (s : ft) : bool * ft :=
  let '(err, s) := invoke Set_periodic s in
  if negb (err =? 0) then (true, task_exit Write (print (Error_line (- err)) s)) else write_turns n s.

Fixpoint read_turns (n : nat) (nr : Z) (s : ft) : bool * ft :=
  match n with
  | O => (false, s)
  | S n => let '(stop, nr, s) := read_turn nr s in if stop then (true, task_exit Read s) else read_turns n nr s
  end.

Definition read_task_proc (n : nat) (s : ft) : bool * ft := read_turns n 0 s.

End Program.
