(* ===== verification/FtestFacts.v ===== *)
(** * Facts of the serial line test

    What [close_file], [cleanup_all] and the ends of the tasks do, in calls; the
    error paths of [main], a signal, and the race between the two. *)

From stdpp Require Import base tactics numbers list.
From S2P Require Import Prelude Ftest.

Definition add_trace (t : list event) (s : ft) : ft :=
  FT (read_fd s) (write_fd s) (read_state s) (write_state s) (trace s ++ t) (printed s).

(** The calls of [close_file] with [n] tries: one that does not return [-EAGAIN]
    ends them, the others are followed by a sleep. *)
Inductive closing (fd : Z) : nat -> list event -> Z -> Prop :=
  | closing_done n r : r <> - EAGAIN -> closing fd (S n) [(Dev_close fd, r)] r
  | closing_last x : closing fd 1 [(Dev_close fd, - EAGAIN); (Task_sleep, x)] (- EAGAIN)
  | closing_again n x t r :
      closing fd (S n) t r -> closing fd (S (S n)) ((Dev_close fd, - EAGAIN) :: (Task_sleep, x) :: t) r.

(** It is a close tried [n] times at most, and once at least. *)
Definition closes (fd : Z) (t : list event) : list event := filter (fun e => fst e = Dev_close fd) t.

Lemma closes_close fd r t : closes fd ((Dev_close fd, r) :: t) = (Dev_close fd, r) :: closes fd t.
Proof. unfold closes. rewrite filter_cons. now rewrite decide_True. Qed.

Lemma closes_sleep fd x t : closes fd ((Task_sleep, x) :: t) = closes fd t.
Proof. unfold closes. rewrite filter_cons. now rewrite decide_False. Qed.

Lemma closing_count fd n t r : closing fd n t r -> (1 <= length (closes fd t) <= n)%nat.
Proof.
  induction 1; rewrite ?closes_close, ?closes_sleep; cbn [length]; try lia; cbn; lia.
Qed.

(** It gives up only after [n] of them. *)
Lemma closing_gives_up fd n t : closing fd n t (- EAGAIN) -> length (closes fd t) = n.
Proof.
  intros Hc. remember (- EAGAIN) as r eqn:Hr. induction Hc; try congruence;
    rewrite closes_close, closes_sleep; [reflexivity|].
  cbn [length]. now rewrite IHHc.
Qed.

Section Facts.
Context `{Services}.

Lemma invoke_spec c s r s' : invoke c s = (r, s') -> s' = add_trace [(c, r)] s.
Proof. unfold invoke. intros [= <- <-]. reflexivity. Qed.

Lemma add_trace_app t u s : add_trace u (add_trace t s) = add_trace (t ++ u) s.
Proof. unfold add_trace. cbn. now rewrite app_assoc. Qed.

Lemma close_tries_spec n fd s r s' :
  close_tries (S n) fd s = (r, s') -> exists t, s' = add_trace t s /\ closing fd (S n) t r.
Proof.
  revert s. induction n as [|n IH]; intros s; cbn [close_tries];
    destruct (invoke (Dev_close fd) s) as [err s1] eqn:E1; apply invoke_spec in E1 as ->;
    destruct (Z.eqb_spec err (- EAGAIN)) as [->|Hne];
    try (intros [= -> <-]; eexists; split; [reflexivity | now constructor]);
    destruct (invoke Task_sleep _) as [x s2] eqn:E2; apply invoke_spec in E2 as ->; cbn [snd];
    rewrite add_trace_app.
  - intros [= <- <-]. eexists. split; [reflexivity|]. constructor.
  - intros E. apply IH in E as (t & -> & Hc). rewrite add_trace_app.
    eexists. split; [reflexivity|]. now constructor.
Qed.

Lemma close_file_spec fd s r s' :
  close_file fd s = (r, s') -> exists t, s' = add_trace t s /\ closing fd 10 t r.
Proof. apply close_tries_spec. Qed.

(** The calls that undo what a file has: nothing when it is not open. *)
Definition tidied (opened : bool) (fd : Z) (t : list event) : Prop :=
  if opened then exists r, closing fd 10 t r else t = [].

Definition bits (st : Z) : Prop := st = 0 \/ st = 1 \/ st = 2 \/ st = 3.

Lemma cleanup_file_spec f s :
  bits (state_of f s) ->
  exists t, cleanup_file f s = set_state f (Z.land (state_of f s) 2) (add_trace t s) /\
            tidied (has_bit f STATE_FILE_OPENED s) (fd_of f s) t.
Proof.
  intros Hb. unfold cleanup_file, tidied. destruct (has_bit f STATE_FILE_OPENED s) eqn:Eb.
  - destruct (close_file (fd_of f s) s) as [r s1] eqn:E. apply close_file_spec in E as (t & -> & Hc).
    exists t. split; [|eauto]. unfold clear_bit.
    destruct f; cbn; (destruct Hb as [Hb|[Hb|[Hb|Hb]]]; cbn in Hb; rewrite Hb; reflexivity).
  - exists []. split; [|reflexivity]. unfold has_bit, STATE_FILE_OPENED in Eb.
    destruct f, s as [rf wf rs ws tr pr]; cbn in *; unfold add_trace; cbn; rewrite app_nil_r;
      destruct Hb as [Hb|[Hb|[Hb|Hb]]]; subst; try discriminate; reflexivity.
Qed.

Lemma cleanup_tasks_spec s :
  read_state s = 0 \/ read_state s = 2 -> write_state s = 0 \/ write_state s = 2 ->
  exists td,
    cleanup_tasks s = FT (read_fd s) (write_fd s) 0 0 (trace s ++ td) (printed s) /\
    (if has_bit Read STATE_TASK_CREATED s then exists x, td = [(Task_delete Read, x)] else td = []).
Proof.
  destruct s as [rf wf rs ws t p]. cbn [read_state write_state].
  intros [-> | ->] [-> | ->].
  1, 2: exists []; cbn [trace]; rewrite app_nil_r; split; reflexivity.
  all: exists [(Task_delete Read, answer t (Task_delete Read))]; split; [reflexivity | eexists; reflexivity].
Qed.

(** [cleanup_all]: the files that are open are closed, the reading task is deleted
    when it was made, and nothing is left in the states. *)
Lemma cleanup_all_spec s :
  bits (read_state s) -> bits (write_state s) ->
  exists tr tw td,
    cleanup_all s = FT (read_fd s) (write_fd s) 0 0 (trace s ++ tr ++ tw ++ td) (printed s) /\
    tidied (has_bit Read STATE_FILE_OPENED s) (read_fd s) tr /\
    tidied (has_bit Write STATE_FILE_OPENED s) (write_fd s) tw /\
    (if has_bit Read STATE_TASK_CREATED s then exists x, td = [(Task_delete Read, x)] else td = []).
Proof.
  intros Hr Hw. unfold cleanup_all.
  destruct (cleanup_file_spec Read s Hr) as (tr & -> & Htr).
  set (s1 := set_state Read _ _).
  destruct (cleanup_file_spec Write s1 Hw) as (tw & -> & Htw).
  set (s2 := set_state Write _ _).
  assert (Hland : forall st, bits st -> Z.land st 2 = 0 \/ Z.land st 2 = 2).
  { intros st [->|[->|[->|Hst]]]; [..|rewrite Hst]; cbn; auto. }
  destruct (cleanup_tasks_spec s2 (Hland _ Hr) (Hland _ Hw)) as (td & -> & Htd).
  exists tr, tw, td. cbn [read_fd write_fd trace printed s2 s1 set_state add_trace].
  rewrite <- !app_assoc. repeat split; auto.
  replace (has_bit Read STATE_TASK_CREATED s) with (has_bit Read STATE_TASK_CREATED s2); [exact Htd|].
  unfold has_bit. cbn. now rewrite <- Z.land_assoc.
Qed.

(** ** The error paths of [main] *)

Definition undoing (c : call) : Prop :=
  match c with Dev_close _ | Task_delete _ => True | _ => False end.

(** The calls [t] close the file that the calls [t0] opened, when they opened it. *)
Definition undone (f : file) (t0 t : list event) : Prop :=
  (exists fd r, ((Dev_open f, fd) ∈ t0) /\ 0 <= fd /\ closing fd 10 t r) \/
  ((forall fd, (Dev_open f, fd) ∈ t0 -> fd < 0) /\ t = []).

Definition deleted (t0 t : list event) : Prop :=
  (((Task_create Read, 0) ∈ t0) /\ exists x, t = [(Task_delete Read, x)]) \/
  (((Task_create Read, 0) ∉ t0) /\ t = []).

(** What the calls after [t0] undo. *)
Definition all_undone (t0 : list event) (s : ft) : Prop :=
  exists tr tw td, trace s = t0 ++ tr ++ tw ++ td /\ read_state s = 0 /\ write_state s = 0 /\
    undone Read t0 tr /\ undone Write t0 tw /\ deleted t0 td.

(** The states say what was done, and nothing was undone. *)
Record noted (s : ft) : Prop := {
  nt_read : bits (read_state s);
  nt_write : bits (write_state s);
  nt_open : forall f, if has_bit f STATE_FILE_OPENED s
    then ((Dev_open f, fd_of f s) ∈ trace s) /\ 0 <= fd_of f s
    else forall fd, (Dev_open f, fd) ∈ trace s -> fd < 0;
  nt_task : if has_bit Read STATE_TASK_CREATED s
    then (Task_create Read, 0) ∈ trace s else (Task_create Read, 0) ∉ trace s;
  nt_fresh : Forall (fun e => ~ undoing (fst e)) (trace s)
}.

Lemma cleanup_undoes s : noted s -> all_undone (trace s) (cleanup_all s).
Proof.
  intros [Hr Hw Ho Ht _]. destruct (cleanup_all_spec s Hr Hw) as (tr & tw & td & -> & Htr & Htw & Htd).
  exists tr, tw, td. repeat split; auto.
  - specialize (Ho Read). unfold undone, tidied in *. destruct (has_bit Read STATE_FILE_OPENED s).
    + destruct Htr as [r Hc], Ho. left. eauto.
    + auto.
  - specialize (Ho Write). unfold undone, tidied in *. destruct (has_bit Write STATE_FILE_OPENED s).
    + destruct Htw as [r Hc], Ho. left. eauto.
    + auto.
  - unfold deleted. destruct (has_bit Read STATE_TASK_CREATED s); auto.
Qed.

(** How [main] ends: what it did is in [t0]; when that ended with an error it undid
    it and returned the error, which is 0 when a file could not be opened. *)
Definition main_ends (res : option Z) (s : ft) : Prop :=
  match res with
  | Some err => exists t0, Forall (fun e => ~ undoing (fst e)) t0 /\ all_undone t0 s /\
      (err = 0 <-> exists f fd, last t0 = Some (Dev_open f, fd))
  | None => noted s /\ read_state s = 3 /\ write_state s = 3
  end.

Lemma main_error_ends err s :
  noted s -> (err = 0 <-> exists f fd, last (trace s) = Some (Dev_open f, fd)) ->
  let '(res, s') := main_error err s in main_ends res s'.
Proof. intros Hn He. cbn. exists (trace s). split; [apply Hn|]. split; [now apply cleanup_undoes | exact He]. Qed.

Lemma in_cons (e e' : event) l : (e ∈ e' :: l) <-> e = e' \/ (e ∈ l).
Proof. apply elem_of_cons. Qed.

(** A state of [main] whose calls are a list. *)
Ltac bit_values :=
  repeat match goal with |- context [has_bit ?f ?b ?s] =>
    let v := eval vm_compute in (has_bit f b s) in change (has_bit f b s) with v end.

Ltac not_in H :=
  repeat (apply in_cons in H as [H|H]; [first [discriminate | injection H as ->; lia | injection H; intros; lia] |]);
  now apply elem_of_nil in H.

Ltac noted_solve :=
  constructor; cbn;
  [ unfold bits; tauto | unfold bits; tauto
  | intros []; bit_values; cbn; first [split; [repeat rewrite in_cons; tauto | lia] | intros ? Hin; not_in Hin]
  | bit_values; cbn; first [repeat rewrite in_cons; tauto | intros Hin; not_in Hin]
  | repeat constructor; cbn; tauto ].

(** A call of [main] that fails. *)
Ltac fails :=
  apply main_error_ends; [noted_solve | cbn; split; [try lia | intros (? & ? & Hl); try discriminate]; eauto].

Ltac next_call :=
  match goal with |- context [invoke ?c ?s] =>
    let r := fresh "r" in let E := fresh "E" in let s' := fresh "s" in
    destruct (invoke c s) as [r s'] eqn:E; apply invoke_spec in E as ->; cbn -[invoke main_error] end.

Lemma main_ft0_ends : let '(res, s) := main ft0 in main_ends res s.
Proof.
  unfold main.
  next_call. destruct (Z.ltb_spec r 0); [fails|].
  next_call. destruct (Z.eqb_spec r0 0) as [->|]; cbn -[invoke main_error]; [|fails].
  next_call. destruct (Z.ltb_spec r0 0); [fails|].
  next_call. destruct (Z.eqb_spec r1 0) as [->|]; cbn -[invoke main_error]; [|fails].
  next_call. destruct (Z.eqb_spec r1 0) as [->|]; cbn -[invoke main_error]; [|fails].
  next_call. destruct (Z.eqb_spec r1 0) as [->|]; cbn -[invoke main_error]; [|fails].
  next_call. destruct (Z.eqb_spec r1 0) as [->|]; cbn -[invoke main_error]; [|fails].
  next_call. destruct (Z.eqb_spec r1 0) as [->|]; cbn -[invoke main_error]; [|fails].
  split; [noted_solve | split; reflexivity].
Qed.

(** C17: the error paths of the serial line test.  Whatever the services answer,
    [main] either returns, and then every file it had opened is closed, with at most
    ten tries and sleeps between them, the reading task is deleted if it was made,
    nothing else is closed or deleted and no state bit is left; or it waits for a
    signal, whose handler does the same.  What it returns is 0 exactly when the
    call that failed was the opening of a file. *)
Theorem ftest_undoes :
  let '(res, s) := main ft0 in
  match res with
  | Some err => exists t0, Forall (fun e => ~ undoing (fst e)) t0 /\ all_undone t0 s /\
      (err = 0 <-> exists f fd, last t0 = Some (Dev_open f, fd))
  | None => Forall (fun e => ~ undoing (fst e)) (trace s) /\ all_undone (trace s) (catch_signal s)
  end.
Proof.
  pose proof main_ft0_ends as Hm. destruct (main ft0) as [[err|] s]; cbn in Hm; [exact Hm|].
  destruct Hm as [Hn _]. split; [apply Hn | now apply cleanup_undoes].
Qed.

(** ** The tasks *)

(** The end of a task: a file that is open is closed, and its bit is cleared when
    that went well. *)
Lemma task_exit_spec f s :
  bits (state_of f s) -> has_bit f STATE_FILE_OPENED s = true ->
  exists t r, closing (fd_of f s) 10 t r /\ trace (task_exit f s) = trace s ++ t /\
    has_bit f STATE_FILE_OPENED (task_exit f s) = negb (r =? 0).
Proof.
  intros Hb Ho. unfold task_exit. rewrite Ho.
  destruct (close_file (fd_of f s) s) as [r s1] eqn:E. apply close_file_spec in E as (t & -> & Hc).
  exists t, r. split; [exact Hc|]. destruct (r =? 0); [|split; [reflexivity | now destruct f]].
  destruct f; (split; [reflexivity|]); unfold has_bit; cbn;
    destruct Hb as [Hb|[Hb|[Hb|Hb]]]; cbn in Hb; rewrite Hb; reflexivity.
Qed.

(** The three differences of a message agree: the last one is the sum of the others. *)
Lemma read_row_sum nr s stop nr' s' k a b c :
  read_turn nr s = (stop, nr', s') -> last (printed s') = Some (Row k a b c) ->
  last (printed s) <> Some (Row k a b c) -> c = u64 (a + b).
Proof.
  unfold read_turn.
  destruct (invoke (Wait_event _) s) as [e1 s1] eqn:E1; apply invoke_spec in E1 as ->.
  destruct (negb (e1 =? 0)); [intros [= <- <- <-]; cbn; now rewrite last_snoc|].
  destruct (invoke (Dev_read _) _) as [n s1] eqn:E1; apply invoke_spec in E1 as ->.
  destruct (n =? sz); [|destruct (n <? 0); intros [= <- <- <-]; cbn; now rewrite last_snoc].
  destruct (invoke Timer_read _) as [rt s1] eqn:E1; apply invoke_spec in E1 as ->.
  intros [= <- <- <-]; cbn. rewrite last_snoc. intros [= <- <- <- <-] _.
  rewrite wrap_u_add_l, Z.add_comm, wrap_u_add_l by lia. f_equal. lia.
Qed.

(** The message of a read that failed is made from the result of the wait, which was
    0, and not from that of the read. *)
Lemma read_error_line nr s :
  let s1 := snd (invoke (Wait_event (read_fd s)) s) in
  answer (trace s) (Wait_event (read_fd s)) = 0 -> answer (trace s1) (Dev_read (read_fd s)) < 0 ->
  last (printed (snd (read_turn nr s))) = Some (Error_line 0).
Proof.
  intros s1 Hw Hr. unfold read_turn. unfold s1 in Hr. cbn in Hr. cbn. rewrite Hw in *. cbn.
  destruct (Z.eqb_spec (answer (trace s ++ [(Wait_event (read_fd s), 0)]) (Dev_read (read_fd s))) sz) as [E|_].
  { rewrite E in Hr. unfold sz in Hr. lia. }
  destruct (Z.ltb_spec (answer (trace s ++ [(Wait_event (read_fd s), 0)]) (Dev_read (read_fd s))) 0); [|lia].
  cbn. apply last_snoc.
Qed.
End Facts.

(** ** Two closes of one file

    The writing task looks at its bit, the signal comes and its handler closes the
    file, then the task goes on and closes it again: on another descriptor, when the
    number was given again in between. *)
Definition exit_interrupted `{Services} (f : file) (s : ft) : ft :=
  if has_bit f STATE_FILE_OPENED s then
    let s := catch_signal s in
    let '(err, s) := close_file (fd_of f s) s in
    if err =? 0 then clear_bit f STATE_FILE_OPENED s else s
  else s.

Lemma exit_race_closes_twice :
  let _ : Services := SERVICES (fun t c => match c with Dev_open Write => 3 | Dev_open Read => 4 | _ => 0 end)
                               (fun _ _ => 0) in
  length (closes 3 (trace (exit_interrupted Write (snd (main ft0))))) = 2%nat /\
  length (closes 3 (trace (catch_signal (task_exit Write (snd (main ft0)))))) = 1%nat.
Proof. split; vm_compute; reflexivity. Qed.
