(* ===== verification/MailService.v ===== *)
(** * The message queues as the test program sees them

    user/sysvmsg/testmsg.c runs a server and ten clients over eleven queues:
    the clients send to the first, the server answers on the other ten, and
    each queue has one reader.  This file states what the tasks rely on, as a
    class of services: what a queue holds, who is inside a call, who is asleep
    there, and the laws of a send and of a receive.  The program is proved
    against these laws, and the message queue module obeys them. *)

From stdpp Require Import base tactics numbers list.
From S2P Require Import Prelude.

(** ** Tasks, queues, calls *)

Inductive task := TMain | TServer | TClient (t : nat).

#[export] Instance task_eq_dec : EqDecision task.
Proof. solve_decision. Defined.

Abbreviation text := (list Z).

Definition len (x : text) : Z := Z.of_nat (length x).

(** The bytes of a list of messages. *)
Definition bytes (l : list text) : Z := sumZ len l.

(** [rt_msgsnd_nu(q, 1, x, length of x, 0)] and
    [rt_msgrcv_nu(q, &mtype, msg, sizeof(msg), 1, 0)] on queue number [k]: 0 is
    [smbx], [S t] is the queue [rmbx] of client [t]. *)
Inductive op := Snd (k : nat) (x : text) | Rcv (k : nat).

Definition reader (k : nat) : task := match k with O => TServer | S t => TClient t end.

Definition NTASKS : nat := 10.
Definition MAXSIZ : nat := 500.
Definition NQUEUES : nat := S NTASKS.
(** [sizeof(msg)], for [int msg[MAXSIZ + 1]]. *)
Definition MSGSZ : nat := 2004.
(** The bytes a queue holds: [MSGMNB]. *)
Definition CAPACITY : Z := 16384.

(** The tasks there are, and the calls they make. *)
Definition running (t : task) : Prop :=
  match t with TClient n => (n < NTASKS)%nat | _ => True end.

Definition proper (t : task) (o : op) : Prop :=
  match o with
  | Snd k x => running t /\ (k < NQUEUES)%nat /\ (0 < length x <= MSGSZ)%nat
  | Rcv k => (k < NQUEUES)%nat /\ t = reader k
  end.

(** ** Services *)

(** [queued w k] is what lies in queue [k] and [given w k] a message its
    sleeping reader was handed and has not returned with.  [go t o w r w']: task
    [t] runs from the call [o], or from where it slept in it, up to the return
    ([r] holds the value returned and the bytes written) or to the next sleep
    ([None]). *)
Class Mail (W : Type) := {
  mail_ok : W -> Prop;
  queued : W -> nat -> list text;
  given : W -> nat -> option text;
  waits : W -> task -> op -> Prop;
  idle : W -> task -> Prop;
  asleep : W -> task -> Prop;
  go : task -> op -> W -> option (Z * text) -> W -> Prop
}.

Section Laws.
Context {W : Type} `{!Mail W}.

(** Everything that waits to be read, in order. *)
Definition pending_mail (w : W) (k : nat) : list text := option_list (given w k) ++ queued w k.

(** A task can run when it is outside any call, or inside one and awake. *)
Definition may_go (w : W) (t : task) (o : op) : Prop :=
  idle w t \/ (waits w t o /\ ~ asleep w t).

(** The other tasks and the other queues are as before. *)
Definition aside (t : task) (k : nat) (w w' : W) : Prop :=
  (forall t', t' <> t -> (idle w t' -> idle w' t') /\ (forall o, waits w t' o -> waits w' t' o)) /\
  (forall k', (k' < NQUEUES)%nat -> k' <> k -> pending_mail w' k' = pending_mail w k').

(** A send returns 0 with its message last in the queue, or sleeps because the
    queue has no room for it. *)
Definition sent (t : task) (k : nat) (x : text) (w : W) (r : option (Z * text)) (w' : W) : Prop :=
  (r = Some (0, []) /\ idle w' t /\ pending_mail w' k = pending_mail w k ++ [x]) \/
  (r = None /\ waits w' t (Snd k x) /\ pending_mail w' k = pending_mail w k /\
   CAPACITY < len x + bytes (queued w k)).

(** A receive returns the first message and its length, or sleeps because
    there is none. *)
Definition received (t : task) (k : nat) (w : W) (r : option (Z * text)) (w' : W) : Prop :=
  (exists x, r = Some (len x, x) /\ idle w' t /\ pending_mail w k = x :: pending_mail w' k) \/
  (r = None /\ waits w' t (Rcv k) /\ pending_mail w k = [] /\ pending_mail w' k = []).

Definition effect (t : task) (o : op) (w : W) (r : option (Z * text)) (w' : W) : Prop :=
  match o with
  | Snd k x => sent t k x w r w' /\ aside t k w w'
  | Rcv k => received t k w r w' /\ aside t k w w'
  end.
End Laws.

(** A call never fails and has the effect above; nobody sleeps without a
    reason; a queue never holds more than its capacity. *)
Class MailLaws (W : Type) `{!Mail W} := {
  law_runs : forall w t o, mail_ok w -> proper t o -> may_go w t o -> exists r w', go t o w r w';
  law_effect : forall w t o r w', mail_ok w -> proper t o -> may_go w t o -> go t o w r w' ->
    mail_ok w' /\ effect t o w r w';
  law_full : forall w t k x, mail_ok w -> proper t (Snd k x) -> waits w t (Snd k x) -> asleep w t ->
    CAPACITY < len x + bytes (queued w k);
  law_empty : forall w t k, mail_ok w -> proper t (Rcv k) -> waits w t (Rcv k) -> asleep w t -> pending_mail w k = [];
  law_bound : forall w k, mail_ok w -> (k < NQUEUES)%nat -> bytes (queued w k) <= CAPACITY
}.
