(* ===== verification/Testmsg.v ===== *)
(** * A server and its clients over the message queues (user/sysvmsg/testmsg.c)

    The tasks of the test program, as steps over a message service: [mfun] (ten
    clients), [bfun] (the server) and [main].  A step runs one task up to its
    next call, its next test of the shared [end], or its next store to it.  A
    buffer [int msg[MAXSIZ + 1]] is its 2004 bytes; what is on the stack before
    the first store is left free. *)

From stdpp Require Import base tactics numbers list relations.
From S2P Require Import Prelude MailService.

(** ** Buffers *)

Definition byte_at (i : nat) (b : text) : Z := nth i b 0.

(** The [int] at index [i], and the store to it. *)
Definition word (i : nat) (b : text) : Z :=
  i32 (byte_at (4 * i) b + 256 * byte_at (4 * i + 1) b + 65536 * byte_at (4 * i + 2) b
       + 16777216 * byte_at (4 * i + 3) b).

Definition int_bytes (x : Z) : text :=
  [x mod 256; x / 256 mod 256; x / 65536 mod 256; x / 16777216 mod 256].

Definition set_word (i : nat) (x : Z) (b : text) : text :=
  take (4 * i) b ++ int_bytes x ++ drop (4 * i + 4) b.

(** What [rt_msgrcv_nu] leaves in the buffer. *)
Definition overlay (x b : text) : text := x ++ drop (length x) b.

(** ** randu *)

(** The static [i] after a call that found it at [i]. *)
Definition randu_next (i : Z) : Z :=
  let i := i32 (125 * i) in
  i32 (i - i32 (Z.quot i 2796203 * 2796203)).

(** [MAXSIZ*randu()] converted to [int], for the new value of [i]: the product
    is [500 * (2 i - 2796203) / 2796203], which for [i <> 0] is at least
    1/2796203 away from any integer, so that the rounding of the doubles does
    not reach the conversion. *)
Definition draw (i : Z) : Z :=
  Z.quot (Z.of_nat MAXSIZ * (i + i - 2796203)) 2796203.

(** The loop that fills a message, [msg[MAXSIZ] += (msg[i] = MAXSIZ*randu())];
    [seeds] are the values of the static that the calls find.  The tasks share
    it without a lock, so it can be anything another task left there. *)
Fixpoint fill_loop (i : nat) (seeds : list Z) (b : text) : text :=
  match seeds with
  | [] => b
  | s :: seeds' =>
      let v := draw (randu_next s) in
      let b := set_word i v b in
      let b := set_word MAXSIZ (i32 (word MAXSIZ b + v)) b in
      fill_loop (S i) seeds' b
  end.

Definition fill (seeds : list Z) (b : text) : text := fill_loop 1 seeds (set_word MAXSIZ 0 b).

(** The server's [n += msg[i]] over [i = 1 .. MAXSIZ - 1]. *)
Fixpoint sum_loop (n : Z) (i count : nat) (b : text) : Z :=
  match count with
  | O => n
  | S c => sum_loop (i32 (n + word i b)) (S i) c b
  end.

Definition checksum (b : text) : Z := sum_loop 0 1 (MAXSIZ - 1) b.

(** [char msg[] = "let's end the game"]. *)
Definition endmsg : text :=
  [108; 101; 116; 39; 115; 32; 101; 110; 100; 32; 116; 104; 101; 32; 103; 97; 109; 101; 0].

(** ** Tasks *)

Inductive cpc := CStart | CBarrier | CHead | CSend | CRecv | CDone.
Inductive spc := SStart | SBarrier | SHead | SRecv | SCheck | SSend | SDone.
(** The pass of the main task's last loop; [NTASKS] is the server's turn. *)
Inductive mpc := MEnter | MEnd (i : nat) | MSend (i : nat) | MJoin (i : nat) | MDone.

Inductive print := PSendFailed (t : nat) | PReceiveFailed (t : nat) | PWrongReply (t : nat) | PUnknown.

Record client := CLI { c_pc : cpc; c_msg : text; c_cnt : Z }.

Record prog (W : Type) := PROG {
  svc : W;
  end_ : Z;
  main_pc : mpc;
  srv_pc : spc; srv_msg : text;
  clients : list client;
  printed : list print;
  crashed : bool
}.
Arguments PROG {W} _ _ _ _ _ _ _ _.
Arguments svc {W} _.
Arguments end_ {W} _.
Arguments main_pc {W} _.
Arguments srv_pc {W} _.
Arguments srv_msg {W} _.
Arguments clients {W} _.
Arguments printed {W} _.
Arguments crashed {W} _.

Section Program.
Context {W : Type} `{!Mail W}.
Implicit Types p : prog W.

Definition at_main (w : W) (e : Z) (m : mpc) p : prog W :=
  PROG w e m (srv_pc p) (srv_msg p) (clients p) (printed p) (crashed p).
Definition at_server (w : W) (pc : spc) (b : text) (o : list print) p : prog W :=
  PROG w (end_ p) (main_pc p) pc b (clients p) (o ++ printed p) (crashed p).
Definition at_client (t : nat) (w : W) (c : client) (o : list print) p : prog W :=
  PROG w (end_ p) (main_pc p) (srv_pc p) (srv_msg p) (<[t := c]> (clients p)) (o ++ printed p)
       (crashed p).

(** [mfun], after its send and after its receive. *)
Definition after_send (t : nat) (r : option (Z * text)) (c : client) : client * list print :=
  match r with
  | None => (c, [])
  | Some (v, _) =>
      if negb (v =? 0) then (CLI CDone (c_msg c) (c_cnt c), [PSendFailed t])
      else (CLI CRecv (set_word 0 0 (set_word 1 0 (c_msg c))) (c_cnt c), [])
  end.

Definition after_receive (t : nat) (r : option (Z * text)) (c : client) : client * list print :=
  match r with
  | None => (c, [])
  | Some (v, x) =>
      if v <? 0 then (CLI CDone (c_msg c) (c_cnt c), [PReceiveFailed t])
      else
        let b := overlay x (c_msg c) in
        if negb (word 0 b =? Z.of_nat t) || negb (word 1 b =? i32 4294967295)
        then (CLI CDone b (c_cnt c), [PWrongReply t])
        else (CLI CHead b (i32 (c_cnt c + 1)), [])
  end.

(** A client: [mfun(t)].  The barrier is below. *)
Inductive client_step (t : nat) (c : client) p : prog W -> Prop :=
| c_start :
    c_pc c = CStart ->
    client_step t c p (at_client t (svc p) (CLI CBarrier (set_word 0 (Z.of_nat t) (c_msg c)) (c_cnt c)) [] p)
| c_leave :
    c_pc c = CHead -> Z.of_nat t <= end_ p ->
    client_step t c p (at_client t (svc p) (CLI CDone (c_msg c) (c_cnt c)) [] p)
| c_fill seeds :
    c_pc c = CHead -> end_ p < Z.of_nat t -> length seeds = (MAXSIZ - 1)%nat ->
    client_step t c p (at_client t (svc p) (CLI CSend (fill seeds (c_msg c)) (c_cnt c)) [] p)
| c_send r w' :
    c_pc c = CSend -> may_go (svc p) (TClient t) (Snd 0 (c_msg c)) ->
    go (TClient t) (Snd 0 (c_msg c)) (svc p) r w' ->
    client_step t c p (at_client t w' (fst (after_send t r c)) (snd (after_send t r c)) p)
| c_receive r w' :
    c_pc c = CRecv -> may_go (svc p) (TClient t) (Rcv (S t)) ->
    go (TClient t) (Rcv (S t)) (svc p) r w' ->
    client_step t c p (at_client t w' (fst (after_receive t r c)) (snd (after_receive t r c)) p).

(** The server, [bfun].  The reply goes to [rmbx[msg[0]]], an array of
    [NTASKS]. *)
Definition after_request (r : option (Z * text)) p : spc * text * list print :=
  match r with
  | None => (SRecv, srv_msg p, [])
  | Some (_, x) =>
      let b := overlay x (srv_msg p) in
      (SCheck, b, if negb (word MAXSIZ b =? checksum b) then [PUnknown] else [])
  end.

Definition reply_queue p : option nat :=
  let d := word 0 (srv_msg p) in
  if (0 <=? d) && (d <? Z.of_nat NTASKS) then Some (S (Z.to_nat d)) else None.

Definition reply_text p : text := take 8 (srv_msg p).

Inductive server_step p : prog W -> Prop :=
| s_start :
    srv_pc p = SStart -> server_step p (at_server (svc p) SBarrier (srv_msg p) [] p)
| s_leave :
    srv_pc p = SHead -> Z.of_nat NTASKS <= end_ p ->
    server_step p (at_server (svc p) SDone (srv_msg p) [] p)
| s_loop :
    srv_pc p = SHead -> end_ p < Z.of_nat NTASKS ->
    server_step p (at_server (svc p) SRecv (srv_msg p) [] p)
| s_receive r w' :
    srv_pc p = SRecv -> may_go (svc p) TServer (Rcv 0) -> go TServer (Rcv 0) (svc p) r w' ->
    server_step p (let '(pc, b, o) := after_request r p in at_server w' pc b o p)
| s_end :
    srv_pc p = SCheck -> Z.of_nat NTASKS <= end_ p ->
    server_step p (at_server (svc p) SDone (srv_msg p) [] p)
| s_answer :
    srv_pc p = SCheck -> end_ p < Z.of_nat NTASKS ->
    server_step p (at_server (svc p) SSend (set_word 1 4294967295 (srv_msg p)) [] p)
| s_reply k r w' :
    srv_pc p = SSend -> reply_queue p = Some k ->
    may_go (svc p) TServer (Snd k (reply_text p)) ->
    go TServer (Snd k (reply_text p)) (svc p) r w' ->
    server_step p (at_server w' (match r with None => SSend | Some _ => SHead end) (srv_msg p) [] p)
| s_crash :
    srv_pc p = SSend -> reply_queue p = None ->
    server_step p (PROG (svc p) (end_ p) (main_pc p) (srv_pc p) (srv_msg p) (clients p) (printed p) true).

(** [main], from [getchar()] to the last [rt_thread_join]. *)
Definition end_queue (i : nat) : nat := if (i <? NTASKS)%nat then S i else O.

Definition joined (i : nat) p : Prop :=
  if (i <? NTASKS)%nat then c_pc <$> clients p !! i = Some CDone else srv_pc p = SDone.

Inductive main_step p : prog W -> Prop :=
| m_enter : main_pc p = MEnter -> main_step p (at_main (svc p) (end_ p) (MEnd 0) p)
| m_end i :
    main_pc p = MEnd i -> main_step p (at_main (svc p) (Z.of_nat i) (MSend i) p)
| m_send i r w' :
    main_pc p = MSend i -> may_go (svc p) TMain (Snd (end_queue i) endmsg) ->
    go TMain (Snd (end_queue i) endmsg) (svc p) r w' ->
    main_step p (at_main w' (end_ p) (match r with None => MSend i | Some _ => MJoin i end) p)
| m_join i :
    main_pc p = MJoin i -> joined i p ->
    main_step p (at_main (svc p) (end_ p) (if (i <? NTASKS)%nat then MEnd (S i) else MDone) p).

(** [rt_sem_wait_barrier] on a semaphore made with [NTASKS + 1]: the server and
    the clients go on when all of them are there. *)
Definition past_barrier (c : client) : client := CLI CHead (c_msg c) (c_cnt c).

Definition barrier_opens p p' : Prop :=
  srv_pc p = SBarrier /\ Forall (fun c => c_pc c = CBarrier) (clients p) /\
  p' = PROG (svc p) (end_ p) (main_pc p) SHead (srv_msg p) (past_barrier <$> clients p) (printed p) (crashed p).

Inductive tstep p : prog W -> Prop :=
| t_main p' : main_step p p' -> tstep p p'
| t_server p' : server_step p p' -> tstep p p'
| t_client t c p' : clients p !! t = Some c -> client_step t c p p' -> tstep p p'
| t_barrier p' : barrier_opens p p' -> tstep p p'.

(** The threads are created: the queues are empty, nobody is in a call, [end]
    is -1 and the counts are 0. *)
Definition created p : Prop :=
  mail_ok (svc p) /\ (forall k, (k < NQUEUES)%nat -> pending_mail (svc p) k = []) /\
  (forall t, idle (svc p) t) /\ end_ p = -1 /\ main_pc p = MEnter /\ srv_pc p = SStart /\
  length (srv_msg p) = MSGSZ /\ length (clients p) = NTASKS /\
  Forall (fun c => c_pc c = CStart /\ length (c_msg c) = MSGSZ /\ c_cnt c = 0) (clients p) /\
  printed p = [] /\ crashed p = false.

Definition treachable p : Prop := exists p0, created p0 /\ rtc tstep p0 p.
End Program.
