(* ===== verification/TestmsgFacts.v ===== *)
(** * testmsg: buffers, random numbers and the counting of messages *)

From stdpp Require Import base tactics numbers list relations.
From S2P Require Import Prelude MailService Testmsg.

(** ** Words of a buffer *)

Lemma byte_at_app_l i x y : (i < length x)%nat -> byte_at i (x ++ y) = byte_at i x.
Proof. intros H. unfold byte_at. now rewrite app_nth1. Qed.

Lemma byte_at_app_r i x y : (length x <= i)%nat -> byte_at i (x ++ y) = byte_at (i - length x) y.
Proof. intros H. unfold byte_at. now rewrite app_nth2. Qed.

Lemma byte_at_take i n x : (i < n)%nat -> byte_at i (take n x) = byte_at i x.
Proof.
  intros H. unfold byte_at. rewrite !nth_lookup. now rewrite lookup_take_lt.
Qed.

Lemma byte_at_drop i n x : byte_at i (drop n x) = byte_at (n + i) x.
Proof. unfold byte_at. rewrite !nth_lookup. now rewrite lookup_drop. Qed.

Lemma set_word_length i x b : (4 * i + 4 <= length b)%nat -> length (set_word i x b) = length b.
Proof. intros H. unfold set_word. rewrite !length_app, length_take, length_drop. cbn. lia. Qed.

(** A byte outside the word, and the bytes of the word. *)
Lemma set_word_other i x b j :
  (4 * i + 4 <= length b)%nat -> (j < 4 * i \/ 4 * i + 4 <= j)%nat ->
  byte_at j (set_word i x b) = byte_at j b.
Proof.
  intros Hb Hj. unfold set_word. destruct Hj as [Hj|Hj].
  - rewrite byte_at_app_l by (rewrite length_take; lia). now apply byte_at_take.
  - rewrite byte_at_app_r by (rewrite length_take; lia).
    rewrite byte_at_app_r by (rewrite length_take; cbn; lia).
    rewrite byte_at_drop. f_equal. rewrite length_take. cbn. lia.
Qed.

Lemma set_word_same i x b j :
  (4 * i + 4 <= length b)%nat -> (j < 4)%nat ->
  byte_at (4 * i + j) (set_word i x b) = byte_at j (int_bytes x).
Proof.
  intros Hb Hj. unfold set_word. rewrite byte_at_app_r by (rewrite length_take; lia).
  rewrite byte_at_app_l by (rewrite length_take; cbn; lia). f_equal. rewrite length_take. lia.
Qed.

(** Four bytes of an integer make it again. *)
Lemma int_bytes_value x :
  i32 (x mod 256 + 256 * (x / 256 mod 256) + 65536 * (x / 65536 mod 256)
       + 16777216 * (x / 16777216 mod 256)) = i32 x.
Proof.
  assert (E : x mod 256 + 256 * (x / 256 mod 256) + 65536 * (x / 65536 mod 256)
       + 16777216 * (x / 16777216 mod 256) = x mod 2 ^ 32).
  { pose proof (Z.rem_mul_r x 256 256 ltac:(lia) ltac:(lia)) as E1.
    pose proof (Z.rem_mul_r x 65536 256 ltac:(lia) ltac:(lia)) as E2.
    pose proof (Z.rem_mul_r x 16777216 256 ltac:(lia) ltac:(lia)) as E3.
    change (256 * 256) with 65536 in E1. change (65536 * 256) with 16777216 in E2.
    change (16777216 * 256) with (2 ^ 32) in E3. lia. }
  rewrite E. pose proof (wrap_u32_eq32 x) as Hu. unfold eq32, wrap_u in Hu. unfold wrap_s.
  f_equal. rewrite Z.add_mod_idemp_l by lia. reflexivity.
Qed.

Lemma word_set_same i x b : (4 * i + 4 <= length b)%nat -> word i (set_word i x b) = i32 x.
Proof.
  intros Hb. unfold word. rewrite <- (Nat.add_0_r (4 * i)) at 1.
  rewrite !set_word_same by lia. apply int_bytes_value.
Qed.

Lemma word_set_other i j x b :
  (4 * i + 4 <= length b)%nat -> i <> j -> word j (set_word i x b) = word j b.
Proof. intros Hb Hne. unfold word. rewrite !set_word_other by lia. reflexivity. Qed.

Lemma word_app_l i x y : (4 * i + 4 <= length x)%nat -> word i (x ++ y) = word i x.
Proof. intros H. unfold word. rewrite !byte_at_app_l by lia. reflexivity. Qed.

Lemma word_take i n x : (4 * i + 4 <= n)%nat -> word i (take n x) = word i x.
Proof. intros H. unfold word. rewrite !byte_at_take by lia. reflexivity. Qed.

Lemma overlay_length x b : (length x <= length b)%nat -> length (overlay x b) = length b.
Proof. intros H. unfold overlay. rewrite length_app, length_drop. lia. Qed.

Lemma word_overlay i x b : (4 * i + 4 <= length x)%nat -> word i (overlay x b) = word i x.
Proof. apply word_app_l. Qed.

Lemma overlay_full x b : length x = length b -> overlay x b = x.
Proof. intros H. unfold overlay. rewrite drop_ge by lia. apply app_nil_r. Qed.

(** ** The checksum *)

Lemma sum_loop_ext n i count b b' :
  (forall j, (i <= j < i + count)%nat -> word j b = word j b') ->
  sum_loop n i count b = sum_loop n i count b'.
Proof.
  revert n i. induction count as [|c IH]; intros n i H; [reflexivity|]. cbn [sum_loop].
  rewrite (H i) by lia. apply IH. intros j Hj. apply H. lia.
Qed.

Lemma sum_loop_wrap n i count b : sum_loop (i32 n) i count b = sum_loop n i count b \/ count = O.
Proof.
  destruct count as [|c]; [now right|left]. cbn [sum_loop]. now rewrite wrap_s_add_l by lia.
Qed.

Lemma word_range i b : i32 (word i b) = word i b.
Proof. apply wrap_s_idem. lia. Qed.

Lemma fill_loop_length seeds i b :
  length b = MSGSZ -> (i + length seeds <= MAXSIZ)%nat -> length (fill_loop i seeds b) = MSGSZ.
Proof.
  revert i b. induction seeds as [|s seeds IH]; intros i b Hb Hi; [exact Hb|]. cbn [fill_loop length] in *.
  unfold MAXSIZ, MSGSZ in *. apply IH; [|lia]. rewrite !set_word_length; rewrite ?set_word_length; lia.
Qed.

Lemma fill_loop_below seeds i b j :
  length b = MSGSZ -> (i + length seeds <= MAXSIZ)%nat -> (j < i)%nat -> (i <= MAXSIZ)%nat ->
  word j (fill_loop i seeds b) = word j b.
Proof.
  revert i b. induction seeds as [|s seeds IH]; intros i b Hb Hi Hj Hm; [reflexivity|].
  cbn [fill_loop length] in *. unfold MAXSIZ, MSGSZ in *.
  rewrite IH; try lia; [|rewrite !set_word_length; rewrite ?set_word_length; lia].
  rewrite !word_set_other; rewrite ?set_word_length; lia.
Qed.

(** The last word of a filled buffer is what it was plus the server's sum of
    the words filled. *)
Lemma fill_loop_sum seeds i b n :
  length b = MSGSZ -> (i + length seeds <= MAXSIZ)%nat -> (1 <= i)%nat -> word MAXSIZ b = n ->
  word MAXSIZ (fill_loop i seeds b) = sum_loop n i (length seeds) (fill_loop i seeds b).
Proof.
  revert i b n. induction seeds as [|s seeds IH]; intros i b n Hb Hi H1 Hn; [exact Hn|].
  cbn [fill_loop length sum_loop] in *. set (v := draw (randu_next s)).
  set (b1 := set_word i v b). set (b2 := set_word MAXSIZ (i32 (word MAXSIZ b1 + v)) b1).
  unfold MAXSIZ, MSGSZ in *.
  assert (L1 : length b1 = 2004%nat) by (unfold b1; rewrite set_word_length; lia).
  assert (L2 : length b2 = 2004%nat) by (unfold b2; rewrite set_word_length; lia).
  assert (Hv : word i (fill_loop (S i) seeds b2) = i32 v).
  { rewrite fill_loop_below by (unfold MAXSIZ, MSGSZ; lia). unfold b2, b1.
    rewrite word_set_other, word_set_same; rewrite ?set_word_length; lia. }
  rewrite Hv. apply IH; try lia. unfold b2. rewrite word_set_same, wrap_s_idem by lia.
  unfold b1. rewrite word_set_other, Hn by lia.
  rewrite (Z.add_comm n (i32 v)), wrap_s_add_l, Z.add_comm by lia. reflexivity.
Qed.

Lemma fill_ok seeds b :
  length b = MSGSZ -> length seeds = (MAXSIZ - 1)%nat ->
  length (fill seeds b) = MSGSZ /\ word 0 (fill seeds b) = word 0 b /\
  word MAXSIZ (fill seeds b) = checksum (fill seeds b).
Proof.
  intros Hb Hs. unfold fill, checksum. set (b0 := set_word MAXSIZ 0 b). unfold MAXSIZ, MSGSZ in *.
  assert (L0 : length b0 = 2004%nat) by (unfold b0; rewrite set_word_length; lia).
  split_and!.
  - apply fill_loop_length; unfold MAXSIZ, MSGSZ; lia.
  - rewrite fill_loop_below by (unfold MAXSIZ, MSGSZ; lia). unfold b0. rewrite word_set_other; lia.
  - rewrite <- Hs. apply fill_loop_sum; unfold MAXSIZ, MSGSZ; try lia.
    unfold b0. rewrite word_set_same by lia. reflexivity.
Qed.

(** ** randu *)

Lemma draw_range i : 0 <= i < 2796203 -> - Z.of_nat MAXSIZ <= draw i < Z.of_nat MAXSIZ.
Proof.
  intros Hi. unfold draw. change (Z.of_nat MAXSIZ) with 500. split.
  - apply Z.quot_le_lower_bound; lia.
  - destruct (Z.le_gt_cases 0 (500 * (i + i - 2796203))) as [H|H].
    + apply Z.quot_lt_upper_bound; lia.
    + pose proof (Z.quot_le_mono (500 * (i + i - 2796203)) 0 2796203). rewrite Z.quot_0_l in *; lia.
Qed.

(** A call that is not interrupted keeps the static between 0 and 2796202
    without overflow, and the numbers drawn are between -500 and 499. *)
Lemma randu_range i :
  0 <= i < 2796203 ->
  randu_next i = 125 * i mod 2796203 /\ 0 <= randu_next i < 2796203 /\
  - Z.of_nat MAXSIZ <= draw (randu_next i) < Z.of_nat MAXSIZ.
Proof.
  intros Hi. pose proof (Z.mod_pos_bound (125 * i) 2796203 ltac:(lia)) as Hb.
  assert (E : randu_next i = 125 * i mod 2796203).
  { unfold randu_next. cbv zeta. rewrite (wrap_s_id 32 (125 * i)) by lia.
    rewrite Z.quot_div_nonneg by lia. pose proof (Z.div_mod (125 * i) 2796203 ltac:(lia)).
    rewrite (wrap_s_id 32 (125 * i / 2796203 * 2796203)) by lia. rewrite wrap_s_id by lia. lia. }
  rewrite E. split_and!; try lia; now apply draw_range.
Qed.

(** The product that [draw] truncates is no integer, unless [i] is 0: its
    distance to the next one is at least 1/2796203. *)
Lemma draw_gap i k :
  0 < i < 2796203 -> Z.of_nat MAXSIZ * (i + i - 2796203) <> k * 2796203.
Proof.
  intros Hi E. change (Z.of_nat MAXSIZ) with 500 in E.
  assert (Hd : (2796203 | 1000 * i)) by (exists (k + 500); lia).
  apply Z.gauss in Hd; [|reflexivity]. destruct Hd as [c Hc]. nia.
Qed.
