(* ===== verification/TestmsgInv.v ===== *)
(** * testmsg: the invariant of the server and its clients

    Each client has at most one token: its request in the server's queue, in
    the server's hands, or the reply in its own queue.  With this the replies
    never find a full queue, and every message is one its reader expects. *)

From stdpp Require Import base tactics numbers list relations.
From S2P Require Import Prelude MailService Testmsg TestmsgFacts.

(** ** Messages *)

Fixpoint count (f : text -> bool) (l : list text) : nat :=
  match l with [] => O | x :: l' => (if f x then 1 else 0) + count f l' end.

Lemma count_app f l l' : count f (l ++ l') = (count f l + count f l')%nat.
Proof. induction l as [|x l IH]; cbn [count app]; [reflexivity|]. rewrite IH. lia. Qed.

Definition named (t : nat) (x : text) : bool := word 0 x =? Z.of_nat t.
Definition is_end (x : text) : bool := bool_decide (x = endmsg).

(** A whole request of client [t], and the reply to it. *)
Definition request (t : nat) (x : text) : Prop :=
  length x = MSGSZ /\ word 0 x = Z.of_nat t /\ word MAXSIZ x = checksum x.
Definition reply (t : nat) (x : text) : Prop :=
  length x = 8%nat /\ word 0 x = Z.of_nat t /\ word 1 x = -1.

Lemma endmsg_unnamed t : (t < NTASKS)%nat -> named t endmsg = false.
Proof. intros H. apply Z.eqb_neq. change (word 0 endmsg) with 661939564. unfold NTASKS in H. lia. Qed.

Lemma request_named t t' x : request t x -> named t' x = bool_decide (t = t').
Proof.
  intros (_ & E & _). unfold named. rewrite E.
  destruct (Z.eqb_spec (Z.of_nat t) (Z.of_nat t')); [rewrite bool_decide_true by lia | rewrite bool_decide_false by lia]; reflexivity.
Qed.

Lemma request_not_end t x : request t x -> is_end x = false.
Proof. intros (L & _). apply bool_decide_false. intros ->. discriminate. Qed.

Lemma reply_not_end t x : reply t x -> is_end x = false.
Proof. intros (L & _). apply bool_decide_false. intros ->. discriminate. Qed.

(** ** Where the tasks are *)

(** The client [t] was sent the end message ([NTASKS]: the server was). *)
Definition ended (t : nat) (m : mpc) : bool :=
  match m with
  | MEnter => false
  | MEnd i | MSend i => (t <? i)%nat
  | MJoin i => (t <=? i)%nat
  | MDone => true
  end.

Definition end_value (m : mpc) : Z :=
  match m with
  | MEnter => -1
  | MEnd i => Z.of_nat i - 1
  | MSend i | MJoin i => Z.of_nat i
  | MDone => Z.of_nat NTASKS
  end.

(** The clients below this one have been joined. *)
Definition turn (m : mpc) : nat :=
  match m with MEnter => 0 | MEnd i | MSend i | MJoin i => i | MDone => NTASKS end.

Definition early (c : client) : bool := match c_pc c with CStart | CBarrier => true | _ => false end.
Definition early_server (pc : spc) : bool := match pc with SStart | SBarrier => true | _ => false end.

Section Invariant.
Context {W : Type} `{!Mail W}.
Implicit Types p : prog W.

(** The request the server is working on. *)
Definition held p (t : nat) : nat :=
  match srv_pc p with
  | SCheck | SSend => if named t (srv_msg p) then 1 else 0
  | _ => 0
  end.

Definition tokens p (t : nat) : nat :=
  count (named t) (pending_mail (svc p) 0) + held p t + count (named t) (pending_mail (svc p) (S t)).

(** The call a client or the server can be in. *)
Definition client_call p (t : nat) (c : client) : Prop :=
  match c_pc c with
  | CSend => idle (svc p) (TClient t) \/ waits (svc p) (TClient t) (Snd 0 (c_msg c))
  | CRecv => idle (svc p) (TClient t) \/ waits (svc p) (TClient t) (Rcv (S t))
  | _ => idle (svc p) (TClient t)
  end.

Definition server_call p : Prop :=
  match srv_pc p with
  | SRecv => idle (svc p) TServer \/ waits (svc p) TServer (Rcv 0)
  | _ => idle (svc p) TServer
  end.

Record client_inv p (t : nat) (c : client) : Prop := {
  ci_len : length (c_msg c) = MSGSZ;
  ci_name : match c_pc c with CBarrier | CHead | CSend => word 0 (c_msg c) = Z.of_nat t | _ => True end;
  ci_sum : c_pc c = CSend -> word MAXSIZ (c_msg c) = checksum (c_msg c);
  ci_call : client_call p t c;
  ci_box : Forall (fun x => reply t x \/ (x = endmsg /\ ended t (main_pc p) = true))
                  (pending_mail (svc p) (S t));
  ci_once : (count is_end (pending_mail (svc p) (S t)) <= 1)%nat;
  ci_told : ended t (main_pc p) = true -> c_pc c = CDone \/ endmsg ∈ pending_mail (svc p) (S t);
  ci_token : match c_pc c with
             | CRecv => tokens p t = 1%nat
             | CDone => (tokens p t <= 1)%nat
             | _ => tokens p t = 0%nat
             end;
  ci_done : (t < turn (main_pc p))%nat -> c_pc c = CDone
}.

Definition good_request p (x : text) : Prop :=
  (exists t, (t < NTASKS)%nat /\ request t x) \/ (x = endmsg /\ ended NTASKS (main_pc p) = true).

Definition good_print p (o : print) : Prop :=
  match o with
  | PWrongReply t => Z.of_nat t <= end_ p
  | PUnknown => ended NTASKS (main_pc p) = true
  | _ => False
  end.

Definition server_holds p : Prop :=
  match srv_pc p with
  | SCheck => (exists t, (t < NTASKS)%nat /\ word 0 (srv_msg p) = Z.of_nat t) \/
              ended NTASKS (main_pc p) = true
  | SSend => (exists t, (t < NTASKS)%nat /\ word 0 (srv_msg p) = Z.of_nat t) /\
             word 1 (srv_msg p) = -1
  | SDone => end_ p = Z.of_nat NTASKS
  | _ => True
  end.

Record prog_inv p : Prop := {
  pi_ok : mail_ok (svc p);
  pi_len : length (clients p) = NTASKS;
  pi_crash : crashed p = false;
  pi_end : end_ p = end_value (main_pc p);
  pi_turn : (turn (main_pc p) <= NTASKS)%nat;
  pi_clients : forall t c, clients p !! t = Some c -> client_inv p t c;
  pi_box : Forall (good_request p) (pending_mail (svc p) 0);
  pi_srv_len : length (srv_msg p) = MSGSZ;
  pi_srv : server_holds p;
  pi_srv_call : server_call p;
  pi_main_call : idle (svc p) TMain;
  pi_srv_told : ended NTASKS (main_pc p) = true ->
    srv_pc p = SCheck \/ srv_pc p = SDone \/ endmsg ∈ pending_mail (svc p) 0;
  pi_srv_done : main_pc p = MDone -> srv_pc p = SDone;
  pi_printed : Forall (good_print p) (printed p);
  pi_barrier : (Forall (fun c => early c = true) (clients p) /\ early_server (srv_pc p) = true) \/
               (Forall (fun c => early c = false) (clients p) /\ early_server (srv_pc p) = false)
}.

(** ** What a step leaves alone *)

(** What [client_inv] for client [t] reads outside its own record. *)
Record same_for p p' (t : nat) : Prop := {
  sf_main : main_pc p' = main_pc p;
  sf_own : pending_mail (svc p') (S t) = pending_mail (svc p) (S t);
  sf_tokens : tokens p' t = tokens p t;
  sf_idle : idle (svc p) (TClient t) -> idle (svc p') (TClient t);
  sf_waits : forall o, waits (svc p) (TClient t) o -> waits (svc p') (TClient t) o
}.

Lemma client_inv_same p p' t c : same_for p p' t -> client_inv p t c -> client_inv p' t c.
Proof.
  intros [Em Eo Etk Hi Hw] [? ? ? Hc Hb Ho Ht Htk Hd].
  constructor; rewrite ?Em, ?Eo, ?Etk; try assumption.
  unfold client_call in *. destruct (c_pc c); auto; destruct Hc; auto.
Qed.

Lemma good_request_main p p' x : main_pc p' = main_pc p -> good_request p x -> good_request p' x.
Proof. unfold good_request. now intros ->. Qed.

Lemma queued_bytes w k : bytes (queued w k) <= bytes (pending_mail w k).
Proof.
  unfold bytes, pending_mail. rewrite sumZ_app. destruct (given w k) as [x|]; cbn.
  - change (sumZ len [x]) with (len x + 0). unfold len at 2. lia.
  - change (sumZ len []) with 0. lia.
Qed.

(** A client's own queue holds a reply and an end message at most. *)
Lemma own_queue_small p t c : (t < NTASKS)%nat -> client_inv p t c -> bytes (queued (svc p) (S t)) <= 27.
Proof.
  intros Ht Hc. etransitivity; [apply queued_bytes|].
  assert (Hn : (count (named t) (pending_mail (svc p) (S t)) <= 1)%nat).
  { pose proof (ci_token _ _ _ Hc) as Hk. unfold tokens in Hk. destruct (c_pc c); lia. }
  pose proof (ci_once _ _ _ Hc) as He. pose proof (ci_box _ _ _ Hc) as Hb. revert Hn He.
  assert (Hgen : forall l, Forall (fun x => reply t x \/ (x = endmsg /\ ended t (main_pc p) = true)) l ->
    bytes l = 8 * Z.of_nat (count (named t) l) + 19 * Z.of_nat (count is_end l)).
  { induction 1 as [|x l Hx _ IH]; [reflexivity|]. unfold bytes in *. rewrite sumZ_cons, IH.
    cbn [count]. destruct Hx as [Hr|[-> _]].
    - rewrite (reply_not_end t x Hr). destruct Hr as (L & E & _). unfold named. rewrite E, Z.eqb_refl.
      unfold len. rewrite L. lia.
    - rewrite (endmsg_unnamed t Ht). unfold is_end. rewrite bool_decide_true by reflexivity.
      change (len endmsg) with 19. lia. }
  rewrite (Hgen _ Hb). lia.
Qed.
End Invariant.
