(* ===== verification/TestmsgSteps.v ===== *)
(** * testmsg: every step of every task preserves the invariant *)

From stdpp Require Import base tactics numbers list relations.
From S2P Require Import Prelude MailService Testmsg TestmsgFacts TestmsgInv.

Section Steps.
Context {W : Type} `{!Mail W} `{!MailLaws W}.
Implicit Types p : prog W.

(** ** Clients *)

Lemma client_lt p t c : prog_inv p -> clients p !! t = Some c -> (t < NTASKS)%nat.
Proof. intros H Hc. rewrite <- (pi_len _ H). now apply lookup_lt_Some in Hc. Qed.

(** The service seen from the tasks that did not call. *)
Lemma aside_task t k (w w' : W) t' :
  aside t k w w' -> t' <> t -> (idle w t' -> idle w' t') /\ (forall o, waits w t' o -> waits w' t' o).
Proof. intros [H _]. apply H. Qed.

Lemma aside_refl t k (w : W) : aside t k w w.
Proof. split; auto. Qed.

(** A step of client [t]: what is left to show. *)
Lemma client_preserves p t c k w' c' o :
  prog_inv p -> clients p !! t = Some c -> mail_ok w' -> aside (TClient t) k (svc p) w' ->
  let p' := at_client t w' c' o p in
  (forall t', t' <> t -> (t' < NTASKS)%nat -> pending_mail w' (S t') = pending_mail (svc p) (S t') /\
     count (named t') (pending_mail w' 0) = count (named t') (pending_mail (svc p) 0)) ->
  client_inv p' t c' ->
  Forall (good_request p) (pending_mail w' 0) ->
  (endmsg ∈ pending_mail (svc p) 0 -> endmsg ∈ pending_mail w' 0) ->
  Forall (good_print p) o -> early c' = early c -> prog_inv p'.
Proof.
  intros H Hc Hok Ha p' Hpend Hci Hreq Hend Hout He. pose proof (client_lt p t c H Hc) as Ht.
  subst p'. constructor; cbn [svc end_ main_pc srv_pc srv_msg clients printed crashed at_client].
  - exact Hok.
  - rewrite length_insert. apply H.
  - apply H.
  - apply H.
  - apply H.
  - intros t' c0 H0. apply list_lookup_insert_Some in H0 as [(<- & <- & _)|[Hne H0]]; [exact Hci|].
    assert (Ht' : (t' < NTASKS)%nat) by exact (client_lt p t' c0 H H0).
    destruct (Hpend t' ltac:(congruence) Ht') as [E1 E2].
    apply (client_inv_same p); [|exact (pi_clients _ H _ _ H0)].
    constructor; try (reflexivity || assumption); try (apply (aside_task _ _ _ _ _ Ha); congruence).
    unfold tokens. cbn [svc at_client]. now rewrite E1, E2.
  - exact Hreq.
  - apply H.
  - exact (pi_srv _ H).
  - pose proof (pi_srv_call _ H) as Hs. destruct (aside_task _ _ _ _ TServer Ha ltac:(discriminate)) as [A1 A2].
    unfold server_call in *. cbn [svc srv_pc at_client]. destruct (srv_pc p); auto; destruct Hs; auto.
  - apply (aside_task _ _ _ _ TMain Ha ltac:(discriminate)), H.
  - intros Hn. destruct (pi_srv_told _ H Hn) as [|[|]]; auto.
  - exact (pi_srv_done _ H).
  - apply Forall_app. split; [exact Hout | apply H].
  - destruct (pi_barrier _ H) as [[B1 B2]|[B1 B2]]; [left | right]; (split; [|exact B2]);
      (apply Forall_insert; [exact B1|]); rewrite He; exact (proj1 (Forall_lookup _ _) B1 _ _ Hc).
Qed.

(** A step of client [t] that makes no call. *)
Lemma client_local p t c c' :
  prog_inv p -> clients p !! t = Some c -> length (c_msg c') = MSGSZ ->
  match c_pc c' with CBarrier | CHead | CSend => word 0 (c_msg c') = Z.of_nat t | _ => True end ->
  (c_pc c' = CSend -> word MAXSIZ (c_msg c') = checksum (c_msg c')) ->
  match c_pc c with CStart | CBarrier | CHead => True | _ => False end ->
  match c_pc c' with CRecv => False | _ => True end ->
  (c_pc c = CDone -> c_pc c' = CDone) -> ((t < turn (main_pc p))%nat -> c_pc c' = CDone) ->
  early c' = early c -> prog_inv (at_client t (svc p) c' [] p).
Proof.
  intros H Hc Hl Hn Hs Hfrom Hto Hd Htu He. pose proof (pi_clients _ H _ _ Hc) as Hci.
  apply (client_preserves p t c 0 (svc p) c' []); try (assumption || reflexivity); try apply H.
  - apply aside_refl.
  - intros. split; reflexivity.
  - assert (Hidle : idle (svc p) (TClient t)).
    { pose proof (ci_call _ _ _ Hci) as Hcall. unfold client_call in Hcall.
      destruct (c_pc c); (contradiction || exact Hcall). }
    assert (Htk : tokens p t = 0%nat).
    { pose proof (ci_token _ _ _ Hci) as Hk. destruct (c_pc c); (contradiction || exact Hk). }
    constructor; try assumption.
    + unfold client_call. cbn [svc at_client]. destruct (c_pc c'); auto.
    + apply Hci.
    + apply Hci.
    + intros He'. destruct (ci_told _ _ _ Hci He') as [E|E]; auto.
    + change (tokens (at_client t (svc p) c' [] p) t) with (tokens p t). rewrite Htk.
      destruct (c_pc c'); (contradiction || lia || reflexivity).
  - auto.
  - constructor.
Qed.

Lemma set_word_0 (x : Z) b : length b = MSGSZ ->
  length (set_word 0 x b) = MSGSZ /\ word 0 (set_word 0 x b) = i32 x.
Proof.
  intros Hb. unfold MSGSZ in *. split; [rewrite set_word_length; lia | apply word_set_same; lia].
Qed.

Lemma small_int t : (t < NTASKS)%nat -> i32 (Z.of_nat t) = Z.of_nat t.
Proof. intros H. unfold NTASKS in H. apply wrap_s_id; lia. Qed.

(** The send of a request. *)
Lemma client_send_inv p t c r w' :
  prog_inv p -> clients p !! t = Some c -> c_pc c = CSend ->
  may_go (svc p) (TClient t) (Snd 0 (c_msg c)) -> go (TClient t) (Snd 0 (c_msg c)) (svc p) r w' ->
  prog_inv (at_client t w' (fst (after_send t r c)) (snd (after_send t r c)) p).
Proof.
  intros H Hc Hpc Hmay Hgo. pose proof (client_lt p t c H Hc) as Ht.
  pose proof (pi_clients _ H _ _ Hc) as Hci. pose proof (ci_len _ _ _ Hci) as Hlen.
  pose proof (ci_name _ _ _ Hci) as Hname. pose proof (ci_token _ _ _ Hci) as Htk.
  rewrite Hpc in Hname, Htk.
  assert (Hrq : request t (c_msg c)) by (split_and!; [exact Hlen | exact Hname | now apply Hci]).
  assert (Hpr : proper (TClient t) (Snd 0 (c_msg c))).
  { unfold proper. rewrite Hlen. unfold NQUEUES, MSGSZ. split; [exact Ht | lia]. }
  destruct (law_effect _ _ _ _ _ (pi_ok _ H) Hpr Hmay Hgo) as [Hok' [Hsent Ha]].
  assert (Hown : forall t', (t' < NTASKS)%nat -> pending_mail w' (S t') = pending_mail (svc p) (S t')).
  { intros t' Ht'. apply Ha; [unfold NQUEUES; lia | lia]. }
  destruct Hsent as [(-> & Hidle & Hp)|(-> & Hwait & Hp & _)].
  - cbn. apply (client_preserves p t c 0); try assumption.
    + intros t' Hne Ht'. split; [now apply Hown|]. rewrite Hp, count_app. cbn [count].
      rewrite (request_named t t' _ Hrq), bool_decide_false by congruence. lia.
    + destruct (set_word_0 0 (set_word 1 0 (c_msg c))) as [L _].
      { unfold MSGSZ in *. rewrite set_word_length; lia. }
      constructor; cbn; try (exact L || exact I || discriminate).
      * now left.
      * rewrite (Hown t Ht). apply Hci.
      * rewrite (Hown t Ht). apply Hci.
      * intros He. rewrite (Hown t Ht). destruct (ci_told _ _ _ Hci He); [congruence | auto].
      * unfold tokens in *. cbn [svc at_client]. rewrite (Hown t Ht), Hp, count_app. cbn [count].
        rewrite (request_named t t _ Hrq), bool_decide_true by reflexivity.
        change (held (at_client t w' _ [] p) t) with (held p t). lia.
      * intros Htu. pose proof (ci_done _ _ _ Hci Htu). congruence.
    + rewrite Hp. apply Forall_app. split; [apply H|]. constructor; [|constructor]. left. eauto.
    + rewrite Hp. intros Hin. apply elem_of_app. now left.
    + constructor.
    + unfold early. cbn. now rewrite Hpc.
  - cbn. apply (client_preserves p t c 0); try (assumption || reflexivity).
    + intros t' Hne Ht'. split; [now apply Hown | now rewrite Hp].
    + constructor; cbn [svc main_pc at_client]; rewrite ?(Hown t Ht); try apply Hci.
      * unfold client_call. rewrite Hpc. now right.
      * unfold tokens in *. cbn [svc at_client]. rewrite Hpc, (Hown t Ht), Hp. exact Htk.
    + rewrite Hp. apply H.
    + now rewrite Hp.
    + constructor.
Qed.

(** The end message has been sent: [end] was set before. *)
Lemma ended_end t m : (t <= NTASKS)%nat -> ended t m = true -> Z.of_nat t <= end_value m.
Proof. destruct m; cbn [ended end_value]; intros H E; [discriminate|..];
  rewrite ?Nat.ltb_lt, ?Nat.leb_le in E; lia. Qed.

Lemma count_cons f x l : count f (x :: l) = ((if f x then 1 else 0) + count f l)%nat.
Proof. reflexivity. Qed.

(** The receive of the reply, or of the end message. *)
Lemma client_receive_inv p t c r w' :
  prog_inv p -> clients p !! t = Some c -> c_pc c = CRecv ->
  may_go (svc p) (TClient t) (Rcv (S t)) -> go (TClient t) (Rcv (S t)) (svc p) r w' ->
  prog_inv (at_client t w' (fst (after_receive t r c)) (snd (after_receive t r c)) p).
Proof.
  intros H Hc Hpc Hmay Hgo. pose proof (client_lt p t c H Hc) as Ht.
  pose proof (pi_clients _ H _ _ Hc) as Hci. pose proof (ci_len _ _ _ Hci) as Hlen.
  pose proof (ci_token _ _ _ Hci) as Htk. rewrite Hpc in Htk.
  assert (Hpr : proper (TClient t) (Rcv (S t))) by (unfold proper, NQUEUES, NTASKS in *; split; [lia | reflexivity]).
  destruct (law_effect _ _ _ _ _ (pi_ok _ H) Hpr Hmay Hgo) as [Hok' [Hrec Ha]].
  assert (H0 : pending_mail w' 0 = pending_mail (svc p) 0) by (apply Ha; unfold NQUEUES; lia).
  assert (Hother : forall t', t' <> t -> (t' < NTASKS)%nat -> pending_mail w' (S t') = pending_mail (svc p) (S t') /\
     count (named t') (pending_mail w' 0) = count (named t') (pending_mail (svc p) 0)).
  { intros t' Hne Ht'. rewrite H0. split; [|reflexivity]. apply Ha; [unfold NQUEUES; lia | congruence]. }
  assert (Hdone : ~ (t < turn (main_pc p))%nat) by (intros Htu; pose proof (ci_done _ _ _ Hci Htu); congruence).
  assert (Hearly : forall c', early c' = false -> early c' = early c) by (intros c' ->; unfold early; now rewrite Hpc).
  destruct Hrec as [(x & -> & Hidle & Hp)|(-> & Hwait & Hp & Hp')].
  - pose proof (ci_box _ _ _ Hci) as Hb. pose proof (ci_once _ _ _ Hci) as Ho.
    unfold tokens in Htk. rewrite Hp in Hb, Ho, Htk. inversion_clear Hb as [|? ? Hx Hb'].
    rewrite count_cons in Ho, Htk.
    cbn [after_receive]. replace (len x <? 0) with false by (symmetry; apply Z.ltb_ge; unfold len; lia).
    destruct Hx as [Hr|[-> He]].
    + pose proof Hr as (L & E0 & E1). rewrite !word_overlay by lia. rewrite E0, E1, Z.eqb_refl.
      change (-1 =? i32 4294967295) with true. cbn [negb orb fst snd].
      assert (Hov : length (overlay x (c_msg c)) = MSGSZ)
        by (rewrite overlay_length; unfold MSGSZ in *; lia).
      apply (client_preserves p t c (S t)); try assumption; try apply Forall_nil_2;
        try (rewrite H0; auto; apply H); try now apply Hearly.
      constructor; cbn [c_pc c_msg svc main_pc at_client]; try (assumption || discriminate).
      * rewrite word_overlay by lia. exact E0.
      * lia.
      * intros He. right. pose proof (ci_told _ _ _ Hci He) as [|Hin]; [congruence|]. rewrite Hp in Hin.
        apply elem_of_cons in Hin as [<-|Hin]; [|exact Hin]. discriminate.
      * unfold tokens. cbn [svc at_client]. rewrite H0.
        assert (Hnm : named t x = true) by (unfold named; rewrite E0; apply Z.eqb_refl). rewrite Hnm in Htk.
        change (held (at_client t w' _ [] p) t) with (held p t). lia.
      * intros Htu. contradiction.
    + rewrite word_overlay by (change (length endmsg) with 19%nat; lia). change (word 0 endmsg) with 661939564.
      replace (661939564 =? Z.of_nat t) with false by (symmetry; apply Z.eqb_neq; unfold NTASKS in Ht; lia).
      cbn [negb orb fst snd].
      assert (Hov : length (overlay endmsg (c_msg c)) = MSGSZ)
        by (rewrite overlay_length; unfold MSGSZ in *; [|change (length endmsg) with 19%nat]; lia).
      apply (client_preserves p t c (S t)); try assumption; try (rewrite H0; auto; apply H); try now apply Hearly.
      * constructor; cbn [c_pc c_msg svc main_pc at_client]; try (assumption || discriminate || exact I).
        -- lia.
        -- now left.
        -- unfold tokens. cbn [svc at_client]. rewrite H0.
           change (held (at_client t w' _ _ p) t) with (held p t). lia.
        -- reflexivity.
      * constructor; [|constructor]. cbn [good_print]. rewrite (pi_end _ H). apply ended_end; [lia | exact He].
  - cbn [after_receive fst snd].
    apply (client_preserves p t c (S t)); try (assumption || reflexivity); try apply Forall_nil_2;
      try (rewrite H0; auto; apply H).
    constructor; cbn [svc main_pc at_client]; try apply Hci.
    + unfold client_call. rewrite Hpc. now right.
    + rewrite Hp'. constructor.
    + rewrite Hp'. cbn. lia.
    + intros He. rewrite Hp', <- Hp. exact (ci_told _ _ _ Hci He).
    + unfold tokens in *. cbn [svc at_client]. rewrite Hpc, H0, Hp', <- Hp. exact Htk.
Qed.

Lemma client_step_inv p t c p' :
  prog_inv p -> clients p !! t = Some c -> client_step t c p p' -> prog_inv p'.
Proof.
  intros H Hc Hs. pose proof (pi_clients _ H _ _ Hc) as Hci. pose proof (client_lt p t c H Hc) as Ht.
  pose proof (ci_name _ _ _ Hci) as Hn. pose proof (ci_len _ _ _ Hci) as Hl.
  pose proof (ci_done _ _ _ Hci) as Hd.
  destruct Hs as [E|E Hle|seeds E Hlt Hse|r w' E Hm Hg|r w' E Hm Hg].
  - destruct (set_word_0 (Z.of_nat t) (c_msg c) Hl) as [L0 W0]. rewrite small_int in W0 by exact Ht.
    apply (client_local p t c); cbn [c_pc c_msg]; try assumption; rewrite ?E in *; try (discriminate || exact I).
    + intros Htu. discriminate (Hd Htu).
    + unfold early. cbn. now rewrite E.
  - apply (client_local p t c); cbn [c_pc c_msg]; try assumption; rewrite ?E in *; try (discriminate || exact I || (intros _; reflexivity)).
    unfold early. cbn. now rewrite E.
  - destruct (fill_ok seeds (c_msg c) Hl Hse) as (L1 & W1 & S1). rewrite E in Hn.
    apply (client_local p t c); cbn [c_pc c_msg];
      [exact H | exact Hc | exact L1 | now rewrite W1 | intros _; exact S1 | | exact I | | |].
    + now rewrite E.
    + rewrite E. discriminate.
    + intros Htu. rewrite (Hd Htu) in E. discriminate.
    + unfold early. cbn. now rewrite E.
  - now apply client_send_inv.
  - now apply client_receive_inv.
Qed.

(** ** The server *)

Lemma server_preserves p k w' pc b o :
  prog_inv p -> srv_pc p <> SDone -> mail_ok w' -> aside TServer k (svc p) w' ->
  let p' := at_server w' pc b o p in
  (forall t c, clients p !! t = Some c -> client_inv p' t c) ->
  Forall (good_request p) (pending_mail w' 0) -> length b = MSGSZ -> server_holds p' -> server_call p' ->
  (ended NTASKS (main_pc p) = true -> pc = SCheck \/ pc = SDone \/ endmsg ∈ pending_mail w' 0) ->
  Forall (good_print p) o -> early_server pc = early_server (srv_pc p) -> prog_inv p'.
Proof.
  intros H Hnd Hok Ha p' Hci Hreq Hb Hh Hcall Htold Hout He.
  subst p'. constructor; try assumption; cbn [svc end_ main_pc srv_pc srv_msg clients printed crashed at_server]; try apply H.
  - apply (aside_task _ _ _ _ TMain Ha ltac:(discriminate)), H.
  - intros Em. now apply (pi_srv_done _ H) in Em.
  - apply Forall_app. split; [exact Hout | apply H].
  - rewrite He. apply H.
Qed.

(** The state of a client after a step of the server that leaves its queue and
    its token. *)
Lemma client_seen p k w' pc b o t c :
  prog_inv p -> clients p !! t = Some c -> aside TServer k (svc p) w' -> k <> S t ->
  tokens (at_server w' pc b o p) t = tokens p t -> client_inv (at_server w' pc b o p) t c.
Proof.
  intros H Hc Ha Hk Etk. pose proof (client_lt p t c H Hc) as Ht.
  apply (client_inv_same p); [|now apply H]. constructor; try assumption; try reflexivity.
  - apply Ha; [unfold NQUEUES; lia | congruence].
  - apply (aside_task _ _ _ _ _ Ha). discriminate.
  - apply (aside_task _ _ _ _ _ Ha). discriminate.
Qed.

(** A step of the server that makes no call. *)
Lemma server_local p pc b :
  prog_inv p -> srv_pc p <> SDone -> length b = MSGSZ -> idle (svc p) TServer ->
  (forall t, (t < NTASKS)%nat -> held (at_server (svc p) pc b [] p) t = held p t) ->
  server_holds (at_server (svc p) pc b [] p) ->
  (ended NTASKS (main_pc p) = true -> pc = SDone \/ endmsg ∈ pending_mail (svc p) 0) ->
  early_server pc = early_server (srv_pc p) -> prog_inv (at_server (svc p) pc b [] p).
Proof.
  intros H Hnd Hb Hidle Hh Hs Htold He. apply (server_preserves p 0); try (assumption || apply H).
  - apply aside_refl.
  - intros t c Hc. apply (client_seen p 0); [exact H | exact Hc | apply aside_refl | lia|].
    unfold tokens. rewrite Hh by exact (client_lt p t c H Hc). reflexivity.
  - unfold server_call. cbn [svc srv_pc at_server]. destruct pc; auto.
  - intros Hn. destruct (Htold Hn); auto.
  - constructor.
Qed.

(** Once [end] is [NTASKS] every client has ended. *)
Lemma end_all_done p t c :
  prog_inv p -> clients p !! t = Some c -> Z.of_nat NTASKS <= end_ p -> c_pc c = CDone.
Proof.
  intros H Hc He. pose proof (client_lt p t c H Hc) as Ht. apply (ci_done p t c (pi_clients _ H _ _ Hc)).
  rewrite (pi_end _ H) in He. unfold NTASKS in *. destruct (main_pc p); cbn [turn end_value] in *; unfold NTASKS in *; lia.
Qed.

Lemma not_ended_ten p : prog_inv p -> end_ p < Z.of_nat NTASKS -> ended NTASKS (main_pc p) = false.
Proof.
  intros H He. destruct (ended NTASKS (main_pc p)) eqn:E; [|reflexivity].
  apply ended_end in E; [|lia]. rewrite <- (pi_end _ H) in E. lia.
Qed.

(** The end of the server drops the request it holds. *)
Lemma server_quit p :
  prog_inv p -> srv_pc p = SCheck -> Z.of_nat NTASKS <= end_ p ->
  prog_inv (at_server (svc p) SDone (srv_msg p) [] p).
Proof.
  intros H E He. pose proof (pi_srv_call _ H) as Hcall. unfold server_call in Hcall. rewrite E in Hcall.
  apply (server_preserves p 0); try (assumption || congruence || apply H).
  - apply aside_refl.
  - intros t c Hc. pose proof (pi_clients _ H _ _ Hc) as Hci. pose proof (end_all_done p t c H Hc He) as Hd.
    destruct Hci as [A1 A2 A3 A4 A5 A6 A7 A8 A9].
    constructor; try assumption. rewrite Hd in *. unfold tokens in *. cbn [held srv_pc at_server].
    change (svc (at_server _ _ _ _ p)) with (svc p). change (held (at_server _ _ _ _ p) t) with 0%nat. lia.
  - unfold server_holds. cbn [srv_pc end_ at_server]. rewrite (pi_end _ H) in *. pose proof (pi_turn _ H).
    unfold NTASKS in *. destruct (main_pc p); cbn [turn end_value] in *; unfold NTASKS in *; lia.
  - auto.
  - constructor.
  - now rewrite E.
Qed.

(** The receive of a request, or of the end message. *)
Lemma server_receive_inv p r w' :
  prog_inv p -> srv_pc p = SRecv -> may_go (svc p) TServer (Rcv 0) -> go TServer (Rcv 0) (svc p) r w' ->
  prog_inv (let '(pc, b, o) := after_request r p in at_server w' pc b o p).
Proof.
  intros H E Hmay Hgo. pose proof (pi_srv_len _ H) as Hlen.
  assert (Hpr : proper TServer (Rcv 0)) by (split; [unfold NQUEUES; lia | reflexivity]).
  destruct (law_effect _ _ _ _ _ (pi_ok _ H) Hpr Hmay Hgo) as [Hok' [Hrec Ha]].
  assert (Hown : forall t, (t < NTASKS)%nat -> pending_mail w' (S t) = pending_mail (svc p) (S t)).
  { intros t Ht. apply Ha; [unfold NQUEUES; lia | lia]. }
  assert (Hheld : forall t, held p t = 0%nat) by (intros t; unfold held; now rewrite E).
  destruct Hrec as [(x & -> & Hidle & Hp)|(-> & Hwait & Hp & Hp')]; cbn [after_request].
  - pose proof (pi_box _ H) as Hb. rewrite Hp in Hb. inversion_clear Hb as [|? ? Hx Hb'].
    assert (Hxl : (19 <= length x <= MSGSZ)%nat).
    { unfold MSGSZ. destruct Hx as [(t & _ & L & _)|[-> _]]; [rewrite L; unfold MSGSZ|change (length endmsg) with 19%nat]; lia. }
    assert (Hov : word 0 (overlay x (srv_msg p)) = word 0 x) by (apply word_overlay; lia).
    apply (server_preserves p 0); try assumption; [congruence|..].
    + intros t c Hc. pose proof (client_lt p t c H Hc) as Ht. apply (client_seen p 0); try (assumption || lia).
      unfold tokens. rewrite Hheld. cbn [svc at_server]. rewrite (Hown t Ht), Hp, count_cons.
      unfold held. cbn [srv_pc srv_msg at_server]. unfold named at 2. rewrite Hov. fold (named t x). lia.
    + rewrite overlay_length; lia.
    + unfold server_holds. cbn [srv_pc srv_msg main_pc at_server]. rewrite Hov.
      destruct Hx as [(t & Ht & _ & Hw & _)|[_ Hn]]; [left; eauto | now right].
    + auto.
    + destruct Hx as [(t & Ht & L & _ & Hs)|[-> Hn]].
      * rewrite overlay_full by congruence. rewrite Hs, Z.eqb_refl. constructor.
      * destruct (negb _); constructor; [exact Hn | constructor].
    + now rewrite E.
  - apply (server_preserves p 0); try assumption; [congruence|..].
    + intros t c Hc. pose proof (client_lt p t c H Hc) as Ht. apply (client_seen p 0); try (assumption || lia).
      unfold tokens. rewrite Hheld. cbn [svc at_server]. rewrite (Hown t Ht), Hp, Hp'. reflexivity.
    + rewrite Hp'. constructor.
    + exact I.
    + unfold server_call. cbn [srv_pc svc at_server]. now right.
    + intros Hn. destruct (pi_srv_told _ H Hn) as [|[|Hin]]; [congruence | congruence|].
      rewrite Hp in Hin. now apply elem_of_nil in Hin.
    + constructor.
    + now rewrite E.
Qed.

(** The index of [rmbx] is in range, and the reply is one its client expects. *)
Lemma reply_ready p :
  prog_inv p -> srv_pc p = SSend ->
  exists t, (t < NTASKS)%nat /\ reply_queue p = Some (S t) /\ reply t (reply_text p) /\
            word 0 (srv_msg p) = Z.of_nat t.
Proof.
  intros H E. pose proof (pi_srv _ H) as Hs. unfold server_holds in Hs. rewrite E in Hs.
  destruct Hs as [(t & Ht & Hw) H1]. pose proof (pi_srv_len _ H) as Hl. exists t. split_and!; try assumption.
  - unfold reply_queue. rewrite Hw. replace (0 <=? Z.of_nat t) with true by (symmetry; apply Z.leb_le; lia).
    replace (Z.of_nat t <? Z.of_nat NTASKS) with true by (symmetry; apply Z.ltb_lt; lia).
    cbn [andb]. now rewrite Nat2Z.id.
  - unfold reply_text. unfold MSGSZ in Hl. split_and!.
    + rewrite length_take. lia.
    + now rewrite word_take by lia.
    + now rewrite word_take by lia.
Qed.

(** The reply finds room, and gives the token back to the client. *)
Lemma server_reply_inv p k r w' :
  prog_inv p -> srv_pc p = SSend -> reply_queue p = Some k ->
  may_go (svc p) TServer (Snd k (reply_text p)) -> go TServer (Snd k (reply_text p)) (svc p) r w' ->
  prog_inv (at_server w' (match r with None => SSend | Some _ => SHead end) (srv_msg p) [] p) /\ r <> None.
Proof.
  intros H E Hq Hmay Hgo. destruct (reply_ready p H E) as (t & Ht & Hq' & Hr & Hw).
  assert (k = S t) as -> by congruence. clear Hq'. pose proof Hr as (Lr & Wr & _).
  assert (Hpr : proper TServer (Snd (S t) (reply_text p))).
  { split; [exact I|]. split; [unfold NQUEUES; lia | rewrite Lr; unfold MSGSZ; lia]. }
  destruct (law_effect _ _ _ _ _ (pi_ok _ H) Hpr Hmay Hgo) as [Hok' [Hsent Ha]].
  destruct (lookup_lt_is_Some_2 (clients p) t) as [c Hc]; [rewrite (pi_len _ H); exact Ht|].
  pose proof (pi_clients _ H _ _ Hc) as Hci.
  destruct Hsent as [(-> & Hidle & Hp)|(_ & _ & _ & Hfull)]; cycle 1.
  { exfalso. pose proof (own_queue_small p t c Ht Hci). unfold len in Hfull. rewrite Lr in Hfull. unfold CAPACITY in Hfull. lia. }
  split; [|discriminate].
  assert (H0 : pending_mail w' 0 = pending_mail (svc p) 0) by (apply Ha; unfold NQUEUES; lia).
  assert (Hheld : forall t', held p t' = if bool_decide (t = t') then 1%nat else 0%nat).
  { intros t'. unfold held. rewrite E. unfold named. rewrite Hw.
    destruct (Z.eqb_spec (Z.of_nat t) (Z.of_nat t')); [rewrite bool_decide_true by lia|rewrite bool_decide_false by lia]; reflexivity. }
  assert (Hnt : named t (reply_text p) = true) by (unfold named; rewrite Wr; apply Z.eqb_refl).
  apply (server_preserves p (S t)); try (assumption || exact I); [congruence|..].
  - intros t' c' Hc'. pose proof (client_lt p t' c' H Hc') as Ht'.
    destruct (decide (t = t')) as [<-|Hne].
    + assert (c' = c) as -> by congruence.
      assert (Etk : tokens (at_server w' SHead (srv_msg p) [] p) t = tokens p t).
      { unfold tokens. rewrite Hheld, bool_decide_true by reflexivity. unfold held. cbn [svc srv_pc at_server].
        rewrite H0, Hp, count_app. cbn [count]. rewrite Hnt. lia. }
      destruct Hci as [A1 A2 A3 A4 A5 A6 A7 A8 A9]. constructor; cbn [svc main_pc at_server]; rewrite ?Etk, ?Hp; try assumption.
      * destruct (aside_task _ _ _ _ (TClient t) Ha ltac:(discriminate)) as [B1 B2].
        unfold client_call in *. cbn [svc at_server]. destruct (c_pc c); auto; destruct A4; auto.
      * apply Forall_app. split; [exact A5|]. constructor; [now left | constructor].
      * rewrite count_app. cbn [count]. rewrite (reply_not_end t _ Hr). lia.
      * intros He. destruct (A7 He) as [|Hin]; [now left | right]. apply elem_of_app. now left.
    + apply (client_seen p (S t)); try (assumption || congruence).
      unfold tokens. rewrite Hheld, bool_decide_false by exact Hne. unfold held. cbn [svc srv_pc at_server].
      rewrite H0. destruct Ha as [_ Ha]. rewrite (Ha (S t')) by (unfold NQUEUES; lia || congruence). reflexivity.
  - rewrite H0. apply H.
  - apply H.
  - intros Hn. rewrite H0. destruct (pi_srv_told _ H Hn) as [|[|]]; [congruence | congruence | auto].
  - constructor.
  - now rewrite E.
Qed.

Lemma server_step_inv p p' : prog_inv p -> server_step p p' -> prog_inv p'.
Proof.
  intros H Hs. pose proof (pi_srv_call _ H) as Hcall. unfold server_call in Hcall.
  pose proof (pi_srv_len _ H) as Hl. pose proof (pi_srv_told _ H) as Htold. pose proof (pi_srv _ H) as Hh.
  unfold server_holds in Hh.
  destruct Hs as [E|E He|E He|r w' E Hm Hg|E He|E He|k r w' E Hq Hm Hg|E Hq]; rewrite E in Hcall, Htold, Hh.
  - apply server_local; try assumption; [congruence | intros t _; unfold held; cbn; now rewrite E | | now rewrite E].
    intros Hn. destruct (Htold Hn) as [|[|]]; [discriminate | discriminate | auto].
  - apply server_local; try assumption; [congruence | intros t _; unfold held; cbn; now rewrite E | | auto | now rewrite E].
    unfold server_holds. cbn [srv_pc end_ at_server]. rewrite (pi_end _ H) in *. pose proof (pi_turn _ H).
    unfold NTASKS in *. destruct (main_pc p); cbn [turn end_value] in *; unfold NTASKS in *; lia.
  - apply server_local; try assumption; [congruence | intros t _; unfold held; cbn; now rewrite E | | now rewrite E].
    rewrite (not_ended_ten p H He). discriminate.
  - now apply server_receive_inv.
  - now apply server_quit.
  - rewrite (not_ended_ten p H He) in Hh. destruct Hh as [Hh|]; [|discriminate].
    assert (Hw0 : word 0 (set_word 1 4294967295 (srv_msg p)) = word 0 (srv_msg p))
      by (apply word_set_other; unfold MSGSZ in Hl; lia).
    apply server_local; try assumption.
    + congruence.
    + unfold MSGSZ in *. rewrite set_word_length; lia.
    + intros t _. unfold held. cbn [srv_pc srv_msg at_server]. rewrite E. unfold named. now rewrite Hw0.
    + unfold server_holds. cbn [srv_pc srv_msg at_server]. rewrite Hw0. split; [exact Hh|].
      rewrite word_set_same by (unfold MSGSZ in Hl; lia). reflexivity.
    + rewrite (not_ended_ten p H He). discriminate.
    + now rewrite E.
  - now apply (server_reply_inv p k r w').
  - destruct (reply_ready p H E) as (t & _ & Hq' & _). congruence.
Qed.

(** ** The main task *)

Lemma end_value_turn m : (turn m <= NTASKS)%nat -> end_value m <= Z.of_nat NTASKS.
Proof. unfold NTASKS. destruct m; cbn [turn end_value]; unfold NTASKS; lia. Qed.

Lemma main_preserves p k w' e m :
  prog_inv p -> mail_ok w' -> aside TMain k (svc p) w' -> idle w' TMain -> e = end_value m ->
  end_ p <= e -> (turn m <= NTASKS)%nat -> let p' := at_main w' e m p in
  (forall t c, clients p !! t = Some c -> client_inv p' t c) ->
  Forall (good_request p') (pending_mail w' 0) ->
  (ended NTASKS m = true -> srv_pc p = SCheck \/ srv_pc p = SDone \/ endmsg ∈ pending_mail w' 0) ->
  (ended NTASKS (main_pc p) = true -> ended NTASKS m = true) ->
  (m = MDone -> srv_pc p = SDone) -> prog_inv p'.
Proof.
  intros H Hok Ha Hidle He Hle Htu p' Hci Hreq Htold Hmono Hsd. subst p'.
  constructor; try assumption; cbn [svc end_ main_pc srv_pc srv_msg clients printed crashed at_main]; try apply H.
  - pose proof (pi_srv _ H) as Hs. pose proof (end_value_turn m Htu) as Hb.
    unfold server_holds in *. cbn [srv_pc srv_msg end_ main_pc at_main].
    destruct (srv_pc p); try assumption; [destruct Hs; auto | lia].
  - pose proof (pi_srv_call _ H) as Hs. destruct (aside_task _ _ _ _ TServer Ha ltac:(discriminate)) as [A1 A2].
    unfold server_call in *. cbn [svc srv_pc at_main]. destruct (srv_pc p); auto; destruct Hs; auto.
  - eapply Forall_impl; [apply H|]. intros [t|t|t|] Ho; cbn in *; try assumption; [lia | auto].
Qed.

Lemma client_inv_main p t c e m :
  client_inv p t c -> ended t m = ended t (main_pc p) -> ((t < turn m)%nat -> c_pc c = CDone) ->
  client_inv (at_main (svc p) e m p) t c.
Proof.
  intros [A1 A2 A3 A4 A5 A6 A7 A8 A9] He Hd.
  constructor; cbn [svc main_pc at_main]; rewrite ?He; assumption.
Qed.

(** A step of [main] that makes no call. *)
Lemma main_local p e m :
  prog_inv p -> e = end_value m -> end_ p <= e -> (turn m <= NTASKS)%nat ->
  (forall t, (t <= NTASKS)%nat -> ended t m = ended t (main_pc p)) ->
  (forall t c, clients p !! t = Some c -> (t < turn m)%nat -> c_pc c = CDone) ->
  (m = MDone -> srv_pc p = SDone) -> prog_inv (at_main (svc p) e m p).
Proof.
  intros H He Hle Htu Hen Hd Hsd. apply (main_preserves p 0); try (assumption || apply H).
  - apply aside_refl.
  - intros t c Hc. pose proof (client_lt p t c H Hc) as Ht.
    apply client_inv_main; [now apply H | apply Hen; lia | now apply Hd].
  - eapply Forall_impl; [apply H|]. intros x [|[? Hx]]; [now left | right].
    split; [assumption|]. cbn [main_pc at_main]. now rewrite Hen by lia.
  - rewrite Hen by lia. apply H.
  - now rewrite Hen by lia.
Qed.

(** A queue that was sent no end message holds none. *)
Lemma no_end_yet p t c :
  client_inv p t c -> ended t (main_pc p) = false -> count is_end (pending_mail (svc p) (S t)) = O.
Proof.
  intros Hci He. pose proof (ci_box _ _ _ Hci) as Hb. rewrite He in Hb.
  induction Hb as [|x l Hx _ IH]; [reflexivity|]. cbn [count]. rewrite IH.
  destruct Hx as [Hr|[_ ?]]; [|discriminate]. now rewrite (reply_not_end t x Hr).
Qed.

(** Requests fill the server's queue eight at most, so that the end message
    always finds room. *)
Lemma server_queue_room p :
  prog_inv p -> ended NTASKS (main_pc p) = false -> bytes (queued (svc p) 0) + 19 <= CAPACITY.
Proof.
  intros H He. pose proof (law_bound (svc p) 0 (pi_ok _ H) ltac:(unfold NQUEUES; lia)) as Hb.
  assert (Hall : Forall (fun x : text => len x = 2004) (queued (svc p) 0)).
  { pose proof (pi_box _ H) as Hx. unfold pending_mail in Hx. apply Forall_app in Hx as [_ Hx].
    eapply Forall_impl; [exact Hx|]. intros x [(t & _ & L & _)|[_ ?]]; [|congruence].
    unfold len. rewrite L. reflexivity. }
  assert (Hsum : exists n, bytes (queued (svc p) 0) = 2004 * n).
  { clear Hb. unfold bytes. induction Hall as [|x l Hx _ [n IH]]; [exists 0; reflexivity|].
    exists (n + 1). rewrite sumZ_cons, Hx, IH. lia. }
  destruct Hsum as [n En]. rewrite En in *. unfold CAPACITY in *. lia.
Qed.

(** The end message never waits for room. *)
Lemma main_send_inv p i r w' :
  prog_inv p -> main_pc p = MSend i -> may_go (svc p) TMain (Snd (end_queue i) endmsg) ->
  go TMain (Snd (end_queue i) endmsg) (svc p) r w' ->
  prog_inv (at_main w' (end_ p) (match r with None => MSend i | Some _ => MJoin i end) p) /\ r <> None.
Proof.
  intros H E Hmay Hgo. pose proof (pi_turn _ H) as Htu. pose proof (pi_end _ H) as Hend. rewrite E in Htu, Hend. cbn [turn end_value] in Htu, Hend.
  assert (Hk : (end_queue i < NQUEUES)%nat /\ (end_queue i = S i /\ i < NTASKS \/ end_queue i = 0 /\ i = NTASKS)%nat).
  { unfold end_queue, NQUEUES. destruct (Nat.ltb_spec i NTASKS); lia. }
  destruct Hk as [Hk Hki].
  assert (Hpr : proper TMain (Snd (end_queue i) endmsg)) by (split; [exact I|]; split; [exact Hk | change (length endmsg) with 19%nat; unfold MSGSZ; lia]).
  destruct (law_effect _ _ _ _ _ (pi_ok _ H) Hpr Hmay Hgo) as [Hok' [Hsent Ha]].
  assert (Hci : forall t, (t < NTASKS)%nat -> exists c, clients p !! t = Some c /\ client_inv p t c).
  { intros t Ht. destruct (lookup_lt_is_Some_2 (clients p) t) as [c Hc]; [rewrite (pi_len _ H); exact Ht|].
    exists c. split; [exact Hc | now apply H]. }
  assert (Hn : forall t, (i <= t)%nat -> ended t (main_pc p) = false).
  { intros t Ht. rewrite E. cbn [ended]. apply Nat.ltb_ge. exact Ht. }
  destruct Hsent as [(-> & Hidle & Hp)|(_ & _ & _ & Hfull)]; cycle 1.
  { exfalso. change (len endmsg) with 19 in Hfull. destruct Hki as [[Ek Hi]|[Ek Hi]]; rewrite Ek in Hfull.
    - destruct (Hci i Hi) as (c & _ & Hc). pose proof (own_queue_small p i c Hi Hc). unfold CAPACITY in Hfull. lia.
    - pose proof (server_queue_room p H (Hn NTASKS ltac:(lia))). lia. }
  split; [|discriminate].
  assert (Hej : forall t, ended t (main_pc p) = true -> ended t (MJoin i) = true).
  { intros t. rewrite E. cbn [ended]. rewrite Nat.ltb_lt, Nat.leb_le. lia. }
  assert (Hne : forall t, t <> i -> ended t (MJoin i) = ended t (main_pc p)).
  { intros t Ht. rewrite E. cbn [ended]. apply eq_true_iff_eq. rewrite Nat.ltb_lt, Nat.leb_le. lia. }
  apply (main_preserves p (end_queue i)); try (assumption || exact Hend || lia || apply Hej || discriminate).
  - intros t c Hc. pose proof (client_lt p t c H Hc) as Ht. pose proof (pi_clients _ H _ _ Hc) as Hct.
    assert (Hp0 : count (named t) (pending_mail w' 0) = count (named t) (pending_mail (svc p) 0)).
    { destruct Hki as [[Hk0 Hi]|[Hk0 Hi]].
      - f_equal. apply Ha; [unfold NQUEUES; lia | lia].
      - rewrite Hk0 in Hp. rewrite Hp, count_app. cbn [count]. rewrite (endmsg_unnamed t Ht). lia. }
    assert (Hps : count (named t) (pending_mail w' (S t)) = count (named t) (pending_mail (svc p) (S t))).
    { destruct (decide (end_queue i = S t)) as [Ek|Ek].
      - rewrite Ek in Hp. rewrite Hp, count_app. cbn [count]. rewrite (endmsg_unnamed t Ht). lia.
      - f_equal. apply Ha; [unfold NQUEUES; lia | congruence]. }
    assert (Etk : tokens (at_main w' (end_ p) (MJoin i) p) t = tokens p t).
    { unfold tokens. cbn [svc at_main]. rewrite Hp0, Hps. reflexivity. }
    assert (Hcall : client_call (at_main w' (end_ p) (MJoin i) p) t c).
    { pose proof (ci_call _ _ _ Hct) as A4. destruct (aside_task _ _ _ _ (TClient t) Ha ltac:(discriminate)) as [B1 B2].
      unfold client_call in *. cbn [svc at_main]. destruct (c_pc c); auto; destruct A4; auto. }
    pose proof (ci_done _ _ _ Hct) as Hdone. rewrite E in Hdone.
    destruct (decide (end_queue i = S t)) as [Ek|Ek].
    + assert (t = i) as -> by lia. rewrite Ek in Hp.
      constructor; cbn [svc main_pc at_main]; rewrite ?Etk, ?Hp; try assumption; try apply Hct.
      * apply Forall_app. split; [eapply Forall_impl; [apply Hct|]; intros x [|[? ?]]; auto|].
        constructor; [|constructor]. right. split; [reflexivity|]. cbn [ended main_pc at_main]. apply Nat.leb_refl.
      * rewrite count_app, (no_end_yet p i c Hct (Hn i ltac:(lia))). change (count is_end [endmsg]) with 1%nat. lia.
      * intros _. right. apply elem_of_app. right. now apply list_elem_of_singleton.
    + assert (Hq : pending_mail w' (S t) = pending_mail (svc p) (S t)) by (apply Ha; [unfold NQUEUES; lia | congruence]).
      constructor; cbn [svc main_pc at_main]; rewrite ?Etk, ?Hq, ?(Hne t) by lia; try assumption; apply Hct.
  - destruct Hki as [[Hk0 Hi]|[Hk0 Hi]].
    + replace (pending_mail w' 0) with (pending_mail (svc p) 0) by (symmetry; apply Ha; [unfold NQUEUES; lia | lia]).
      eapply Forall_impl; [apply H|]. intros x [|[? Hx]]; [now left | right]. split; [assumption|]. now apply Hej.
    + rewrite Hk0 in Hp. rewrite Hp. apply Forall_app. split.
      * eapply Forall_impl; [apply H|]. intros x [|[? Hx]]; [now left | right]. split; [assumption|]. now apply Hej.
      * constructor; [|constructor]. right. split; [reflexivity|]. cbn [ended main_pc at_main]. rewrite Hi. apply Nat.leb_refl.
  - intros He. cbn [ended] in He. apply Nat.leb_le in He. destruct Hki as [[_ ?]|[Hk0 _]]; [lia|]. right. right.
    rewrite Hk0 in Hp. rewrite Hp. apply elem_of_app. right. now apply list_elem_of_singleton.
Qed.

Lemma main_step_inv p p' : prog_inv p -> main_step p p' -> prog_inv p'.
Proof.
  intros H Hs. pose proof (pi_end _ H) as He. pose proof (pi_turn _ H) as Htu.
  assert (Hd : forall t c, clients p !! t = Some c -> (t < turn (main_pc p))%nat -> c_pc c = CDone).
  { intros t c Hc. apply (ci_done p t c). now apply H. }
  destruct Hs as [E|i E|i r w' E Hm Hg|i E Hj]; rewrite E in He, Htu, Hd; cbn [turn end_value] in He, Htu, Hd.
  - apply main_local; cbn [turn end_value]; try (assumption || discriminate || lia).
    intros t _. rewrite E. reflexivity.
  - apply main_local; cbn [turn end_value]; try (assumption || discriminate || lia).
    intros t _. rewrite E. reflexivity.
  - now apply (main_send_inv p i r w').
  - unfold joined in Hj. destruct (Nat.ltb_spec i NTASKS) as [Hi|Hi].
    + apply main_local; cbn [turn end_value]; try (assumption || discriminate || lia).
      * intros t _. rewrite E. cbn [ended]. apply eq_true_iff_eq. rewrite Nat.ltb_lt, Nat.leb_le. lia.
      * intros t c Hc Ht. destruct (decide (t = i)) as [->|]; [|apply (Hd t c Hc); lia].
        rewrite Hc in Hj. cbn in Hj. congruence.
    + assert (i = NTASKS) as -> by lia.
      apply main_local; cbn [turn end_value]; try (assumption || discriminate || lia).
      * intros t Ht. rewrite E. cbn [ended]. symmetry. now apply Nat.leb_le.
      * intros _. exact Hj.
Qed.
End Steps.
