(* ===== verification/TestmsgRun.v ===== *)
(** * testmsg: the invariant in every reachable state, and the way to the end

    From every state in which the invariant holds some task can run, and there
    is one whose step brings the end nearer: the ranks below decrease
    lexicographically, first with the progress of [main], then with the client
    it waits for, then with the work left to the server. *)

From stdpp Require Import base tactics numbers list relations.
From S2P Require Import Prelude MailService Testmsg TestmsgFacts TestmsgInv TestmsgSteps.

Section Run.
Context {W : Type} `{!Mail W} `{!MailLaws W}.
Implicit Types p : prog W.

(** ** The invariant is reached and kept *)

Lemma barrier_inv_kept p p' : prog_inv p -> barrier_opens p p' -> prog_inv p'.
Proof.
  intros H (Es & Hall & ->).
  assert (Hpc : forall t c, clients p !! t = Some c -> c_pc c = CBarrier)
    by (intros t c Hc; exact (proj1 (Forall_lookup _ _) Hall t c Hc)).
  constructor; cbn [svc end_ main_pc srv_pc srv_msg clients printed crashed]; try apply H.
  - rewrite length_fmap. apply H.
  - intros t c' Hc'. apply list_lookup_fmap_Some in Hc' as (c & -> & Hc).
    pose proof (pi_clients _ H _ _ Hc) as [A1 A2 A3 A4 A5 A6 A7 A8 A9]. pose proof (Hpc t c Hc) as E.
    unfold client_call in A4. rewrite E in A2, A4, A7, A8, A9.
    constructor; cbn [c_pc c_msg past_barrier svc main_pc]; try assumption; try discriminate.
    + intros He. destruct (A7 He) as [|Hin]; [discriminate | now right].
    + unfold tokens, held in *. cbn [svc srv_pc srv_msg]. rewrite Es in A8. exact A8.
    + intros Htu. discriminate (A9 Htu).
  - exact I.
  - pose proof (pi_srv_call _ H) as Hs. unfold server_call in *. now rewrite Es in Hs.
  - intros Hn. destruct (pi_srv_told _ H Hn) as [|[|]]; [congruence | congruence | auto].
  - intros Em. pose proof (pi_srv_done _ H Em). congruence.
  - right. split; [|reflexivity]. apply Forall_fmap, Forall_forall. intros c _. reflexivity.
Qed.

Lemma tstep_inv p p' : prog_inv p -> tstep p p' -> prog_inv p'.
Proof.
  intros H [p1 Hs|p1 Hs|t c p1 Hc Hs|p1 Hs].
  - now apply (main_step_inv p).
  - now apply (server_step_inv p).
  - now apply (client_step_inv p t c).
  - now apply (barrier_inv_kept p).
Qed.

Lemma created_inv p : created p -> prog_inv p.
Proof.
  intros (Hok & Hbox & Hidle & He & Hm & Hs & Hl & Hn & Hc & Hp & Hcr).
  constructor; rewrite ?Hm, ?Hs, ?Hp, ?Hbox by (unfold NQUEUES; lia); try assumption; try (cbn; lia); try apply Forall_nil_2.
  - intros t c Hct. pose proof (lookup_lt_Some _ _ _ Hct) as Ht. rewrite Hn in Ht.
    destruct (proj1 (Forall_lookup _ _) Hc t c Hct) as (E & L & _).
    assert (Htk : tokens p t = O).
    { unfold tokens, held. rewrite Hs, !Hbox by (unfold NQUEUES; lia). reflexivity. }
    constructor; rewrite ?Hm, ?E, ?Hbox by (unfold NQUEUES; lia); try (assumption || discriminate || exact I || apply Forall_nil_2).
    + unfold client_call. now rewrite E.
    + cbn. lia.
    + cbn. lia.
  - unfold server_holds. now rewrite Hs.
  - unfold server_call. now rewrite Hs.
  - apply Hidle.
  - discriminate.
  - left. split; [|reflexivity]. eapply Forall_impl; [exact Hc|]. intros c (E & _). unfold early. now rewrite E.
Qed.

Lemma treachable_inv p : treachable p -> prog_inv p.
Proof.
  intros (p0 & H0 & Hr). apply (rtc_invariant tstep _ p0); [now apply created_inv | apply tstep_inv | exact Hr].
Qed.

(** ** Ranks *)

Definition main_rank (m : mpc) : nat :=
  match m with
  | MEnter => 34
  | MEnd i => 3 * (NTASKS - i) + 3
  | MSend i => 3 * (NTASKS - i) + 2
  | MJoin i => 3 * (NTASKS - i) + 1
  | MDone => 0
  end.

Definition client_rank (pc : cpc) : nat :=
  match pc with CSend => 3 | CRecv => 2 | CHead => 1 | _ => 0 end.

Definition server_rank (pc : spc) : nat :=
  match pc with SCheck => 3 | SSend => 2 | SHead => 1 | _ => 0 end.

Fixpoint starting (l : list client) : nat :=
  match l with [] => O | c :: l' => (match c_pc c with CStart => 1 | _ => 0 end) + starting l' end.

(** The tasks that are not at the barrier yet, or the client [main] waits for. *)
Definition wait_rank p : nat :=
  if early_server (srv_pc p)
  then 10 + starting (clients p) + (match srv_pc p with SStart => 1 | _ => 0 end)
  else match clients p !! turn (main_pc p) with Some c => client_rank (c_pc c) | None => 0 end.

Definition work_rank p : nat := 4 * length (pending_mail (svc p) 0) + server_rank (srv_pc p).

(** [p'] is nearer to the end than [p]. *)
Definition nearer p' p : Prop :=
  (main_rank (main_pc p') < main_rank (main_pc p))%nat \/
  main_rank (main_pc p') = main_rank (main_pc p) /\
  ((wait_rank p' < wait_rank p)%nat \/
   wait_rank p' = wait_rank p /\ (work_rank p' < work_rank p)%nat).

Lemma nearer_wf : well_founded nearer.
Proof.
  assert (H : forall a b c p, main_rank (main_pc p) = a -> wait_rank p = b -> work_rank p = c -> Acc nearer p).
  { induction a as [a IHa] using (well_founded_induction lt_wf).
    induction b as [b IHb] using (well_founded_induction lt_wf).
    induction c as [c IHc] using (well_founded_induction lt_wf).
    intros p <- <- <-. constructor. intros p' [Hlt|[E [Hlt|[E' Hlt]]]].
    - exact (IHa _ Hlt _ _ _ eq_refl eq_refl eq_refl).
    - exact (IHb _ Hlt _ _ E eq_refl eq_refl).
    - exact (IHc _ Hlt _ E E' eq_refl). }
  intros p. exact (H _ _ _ p eq_refl eq_refl eq_refl).
Qed.

(** ** A task that can run *)

Lemma client_can_send p t c :
  prog_inv p -> clients p !! t = Some c -> c_pc c = CSend -> pending_mail (svc p) 0 = [] ->
  exists w', tstep p (at_client t w' (CLI CRecv (set_word 0 0 (set_word 1 0 (c_msg c))) (c_cnt c)) [] p).
Proof.
  intros H Hc E Hnil. pose proof (pi_clients _ H _ _ Hc) as Hci. pose proof (ci_len _ _ _ Hci) as Hl.
  pose proof (queued_bytes (svc p) 0) as Hq. rewrite Hnil in Hq. change (bytes []) with 0 in Hq.
  assert (Hroom : ~ CAPACITY < len (c_msg c) + bytes (queued (svc p) 0)).
  { unfold len. rewrite Hl. unfold CAPACITY, MSGSZ. lia. }
  assert (Hpr : proper (TClient t) (Snd 0 (c_msg c))).
  { unfold proper. rewrite Hl. unfold NQUEUES, MSGSZ. split; [exact (client_lt p t c H Hc) | lia]. }
  assert (Hmay : may_go (svc p) (TClient t) (Snd 0 (c_msg c))).
  { pose proof (ci_call _ _ _ Hci) as Hcall. unfold client_call in Hcall. rewrite E in Hcall.
    destruct Hcall as [|Hw]; [now left | right]. split; [exact Hw|]. intros Ha.
    exact (Hroom (law_full _ _ _ _ (pi_ok _ H) Hpr Hw Ha)). }
  destruct (law_runs _ _ _ (pi_ok _ H) Hpr Hmay) as (r & w' & Hgo).
  destruct (law_effect _ _ _ _ _ (pi_ok _ H) Hpr Hmay Hgo) as [_ [[(-> & _)|(_ & _ & _ & Hf)] _]]; [|contradiction].
  exists w'. apply (t_client p t c); [exact Hc|]. exact (c_send t c p _ w' E Hmay Hgo).
Qed.

(** A client that waits for a reply and has mail takes the first of it. *)
Lemma client_receives p t c :
  prog_inv p -> clients p !! t = Some c -> c_pc c = CRecv -> pending_mail (svc p) (S t) <> [] ->
  exists w' x, x ∈ pending_mail (svc p) (S t) /\
    tstep p (at_client t w' (fst (after_receive t (Some (len x, x)) c)) (snd (after_receive t (Some (len x, x)) c)) p).
Proof.
  intros H Hc E Hbox. pose proof (pi_clients _ H _ _ Hc) as Hci. pose proof (client_lt p t c H Hc) as Ht.
  assert (Hpr : proper (TClient t) (Rcv (S t))) by (split; [unfold NQUEUES; lia | reflexivity]).
  assert (Hmay : may_go (svc p) (TClient t) (Rcv (S t))).
  { pose proof (ci_call _ _ _ Hci) as Hcall. unfold client_call in Hcall. rewrite E in Hcall.
    destruct Hcall as [|Hw]; [now left | right]. split; [exact Hw|]. intros Ha.
    exact (Hbox (law_empty _ _ _ (pi_ok _ H) Hpr Hw Ha)). }
  destruct (law_runs _ _ _ (pi_ok _ H) Hpr Hmay) as (r & w' & Hgo).
  destruct (law_effect _ _ _ _ _ (pi_ok _ H) Hpr Hmay Hgo) as [_ [[(x & -> & _ & Ex)|(_ & _ & Hn & _)] _]]; [|contradiction].
  exists w', x. split; [rewrite Ex; left|].
  apply (t_client p t c); [exact Hc|]. exact (c_receive t c p _ w' E Hmay Hgo).
Qed.

Lemma client_can_receive p t c :
  prog_inv p -> clients p !! t = Some c -> c_pc c = CRecv -> pending_mail (svc p) (S t) <> [] ->
  exists w' c' o, tstep p (at_client t w' c' o p) /\ (c_pc c' = CHead \/ c_pc c' = CDone).
Proof.
  intros H Hc E Hbox. destruct (client_receives p t c H Hc E Hbox) as (w' & x & _ & Hs).
  eexists w', _, _. split; [exact Hs|].
  cbn [after_receive]. destruct (len x <? 0); [now right|]. destruct (_ || _); [now right | now left].
Qed.

(** As long as [end] has not reached its number what it takes is its reply. *)
Lemma client_gets_reply p t c :
  prog_inv p -> clients p !! t = Some c -> c_pc c = CRecv -> end_ p < Z.of_nat t ->
  pending_mail (svc p) (S t) <> [] ->
  exists w' b, tstep p (at_client t w' (CLI CHead b (i32 (c_cnt c + 1))) [] p).
Proof.
  intros H Hc E He Hbox. destruct (client_receives p t c H Hc E Hbox) as (w' & x & Hin & Hs).
  pose proof (client_lt p t c H Hc) as Ht.
  pose proof (proj1 (Forall_forall _ _) (ci_box _ _ _ (pi_clients _ H _ _ Hc)) x Hin) as Hx. cbn in Hx.
  assert (Hr : reply t x).
  { destruct Hx as [Hx|[_ Hx]]; [exact Hx|]. apply ended_end in Hx; [|lia]. rewrite (pi_end _ H) in He. lia. }
  destruct Hr as (L & W0 & W1). cbn [after_receive] in Hs.
  rewrite !word_overlay in Hs by lia. rewrite W0, W1, Z.eqb_refl in Hs. change (i32 4294967295) with (-1) in Hs.
  replace (len x <? 0) with false in Hs by (unfold len; lia). cbn [negb orb Z.eqb Pos.eqb fst snd] in Hs. eauto.
Qed.

(** The server goes on whenever it has something to do; each step leaves it
    less. *)
Lemma server_can_run p :
  prog_inv p -> early_server (srv_pc p) = false -> srv_pc p <> SDone ->
  (srv_pc p = SRecv -> pending_mail (svc p) 0 <> []) ->
  exists w' pc b o, tstep p (at_server w' pc b o p) /\ early_server pc = false /\
    (4 * length (pending_mail w' 0) + server_rank pc < work_rank p)%nat.
Proof.
  intros H He Hd Hne. unfold work_rank. pose proof (pi_srv_call _ H) as Hcall. unfold server_call in Hcall.
  destruct (srv_pc p) eqn:E; try discriminate; try contradiction.
  - destruct (Z.lt_ge_cases (end_ p) (Z.of_nat NTASKS)) as [Hlt|Hge].
    + exists (svc p), SRecv, (srv_msg p), []. split; [apply t_server; now apply s_loop|]. cbn; split; [reflexivity | lia].
    + exists (svc p), SDone, (srv_msg p), []. split; [apply t_server; now apply s_leave|]. cbn; split; [reflexivity | lia].
  - assert (Hpr : proper TServer (Rcv 0)) by (split; [unfold NQUEUES; lia | reflexivity]).
    assert (Hmay : may_go (svc p) TServer (Rcv 0)).
    { destruct Hcall as [|Hw]; [now left | right]. split; [exact Hw|]. intros Ha.
      exact (Hne eq_refl (law_empty _ _ _ (pi_ok _ H) Hpr Hw Ha)). }
    destruct (law_runs _ _ _ (pi_ok _ H) Hpr Hmay) as (r & w' & Hgo).
    destruct (law_effect _ _ _ _ _ (pi_ok _ H) Hpr Hmay Hgo) as [_ [[(x & -> & _ & Hp)|(_ & _ & Hn & _)] _]];
      [|now specialize (Hne eq_refl)].
    pose proof (s_receive p _ w' E Hmay Hgo) as Hs. cbn [after_request] in Hs.
    eexists w', SCheck, _, _. split; [apply t_server; exact Hs|]. rewrite Hp. cbn; split; [reflexivity | lia].
  - destruct (Z.lt_ge_cases (end_ p) (Z.of_nat NTASKS)) as [Hlt|Hge].
    + eexists (svc p), SSend, _, _. split; [apply t_server; now apply s_answer|]. cbn; split; [reflexivity | lia].
    + eexists (svc p), SDone, _, _. split; [apply t_server; now apply s_end|]. cbn; split; [reflexivity | lia].
  - destruct (reply_ready p H E) as (t & Ht & Hq & (Lr & _) & _).
    assert (Hpr : proper TServer (Snd (S t) (reply_text p))) 
      by (split; [exact I|]; split; [unfold NQUEUES; lia | rewrite Lr; unfold MSGSZ; lia]).
    assert (Hmay : may_go (svc p) TServer (Snd (S t) (reply_text p))) by now left.
    destruct (law_runs _ _ _ (pi_ok _ H) Hpr Hmay) as (r & w' & Hgo).
    destruct (server_reply_inv p (S t) r w' H E Hq Hmay Hgo) as [_ Hr].
    destruct (law_effect _ _ _ _ _ (pi_ok _ H) Hpr Hmay Hgo) as [_ [_ [_ Ha]]].
    pose proof (s_reply p (S t) r w' E Hq Hmay Hgo) as Hs. destruct r as [v|]; [|contradiction].
    eexists w', SHead, _, _. split; [apply t_server; exact Hs|]. rewrite (Ha 0%nat) by (unfold NQUEUES; lia).
    cbn; split; [reflexivity | lia].
Qed.

(** ** Replies *)

(** The server, running alone, brings the reply of a client that waits for it:
    its request is in the server's queue or in the server's hands. *)
Lemma reply_comes p t c :
  prog_inv p -> clients p !! t = Some c -> c_pc c = CRecv -> end_ p < Z.of_nat t ->
  exists p', rtc tstep p p' /\ clients p' = clients p /\ end_ p' = end_ p /\ pending_mail (svc p') (S t) <> [].
Proof.
  remember (work_rank p) as n eqn:En. revert p En.
  induction n as [n IH] using (well_founded_induction lt_wf). intros p -> H Hc E He.
  pose proof (client_lt p t c H Hc) as Ht.
  destruct (pending_mail (svc p) (S t)) as [|x l] eqn:Ebox.
  2:{ exists p. rewrite Ebox. split_and!; [apply rtc_refl | reflexivity | reflexivity | discriminate]. }
  pose proof (ci_token _ _ _ (pi_clients _ H _ _ Hc)) as Htk. rewrite E in Htk.
  unfold tokens in Htk. rewrite Ebox in Htk. cbn [count] in Htk.
  assert (Hlate : early_server (srv_pc p) = false).
  { destruct (pi_barrier _ H) as [[Hall _]|[_ Hl]]; [|exact Hl].
    pose proof (proj1 (Forall_lookup _ _) Hall t c Hc) as Hx. cbn in Hx. unfold early in Hx. now rewrite E in Hx. }
  destruct (server_can_run p H Hlate) as (w' & pc & b & o & Hs & _ & Hr).
  - intros Ed. pose proof (pi_srv _ H) as Hh. unfold server_holds in Hh. rewrite Ed in Hh. lia.
  - intros Er En. unfold held in Htk. rewrite Er, En in Htk. discriminate.
  - destruct (IH _ Hr (at_server w' pc b o p) eq_refl (tstep_inv _ _ H Hs) Hc E He) as (p' & Hp & E1 & E2 & Hn).
    exists p'. split_and!; try assumption. now apply rtc_l with (at_server w' pc b o p).
Qed.

Lemma reply_received p t c :
  prog_inv p -> clients p !! t = Some c -> c_pc c = CRecv -> end_ p < Z.of_nat t ->
  exists p' c', rtc tstep p p' /\ clients p' !! t = Some c' /\ c_pc c' = CHead /\ c_cnt c' = i32 (c_cnt c + 1).
Proof.
  intros H Hc E He. destruct (reply_comes p t c H Hc E He) as (p1 & Hp & E1 & E2 & Hbox).
  assert (H1 : prog_inv p1) by (apply (rtc_invariant tstep _ p); [exact H | apply tstep_inv | exact Hp]).
  assert (Hc1 : clients p1 !! t = Some c) by now rewrite E1.
  destruct (client_gets_reply p1 t c H1 Hc1 E ltac:(lia) Hbox) as (w' & b & Hs).
  eexists _, _. split; [eapply rtc_r; [exact Hp | exact Hs]|]. cbn [clients at_client].
  rewrite list_lookup_insert_eq by (now apply lookup_lt_Some in Hc1). split_and!; reflexivity.
Qed.

(** The end messages of [main] and the replies of the server never wait for room. *)
Lemma main_never_waits p i :
  prog_inv p -> main_pc p = MSend i ->
  (exists w', go TMain (Snd (end_queue i) endmsg) (svc p) (Some (0, [])) w') /\
  (forall r w', go TMain (Snd (end_queue i) endmsg) (svc p) r w' -> r = Some (0, [])).
Proof.
  intros H Em. pose proof (pi_turn _ H) as Htu. rewrite Em in Htu. cbn [turn] in Htu.
  assert (Hpr : proper TMain (Snd (end_queue i) endmsg)).
  { split; [exact I|]. split; [|change (length endmsg) with 19%nat; unfold MSGSZ; lia].
    unfold end_queue, NQUEUES. destruct (Nat.ltb_spec i NTASKS); lia. }
  assert (Hmay : may_go (svc p) TMain (Snd (end_queue i) endmsg)) by (left; apply H).
  assert (Hall : forall r w', go TMain (Snd (end_queue i) endmsg) (svc p) r w' -> r = Some (0, [])).
  { intros r w' Hgo. destruct (main_send_inv p i r w' H Em Hmay Hgo) as [_ Hr].
    destruct (law_effect _ _ _ _ _ (pi_ok _ H) Hpr Hmay Hgo) as [_ [[(-> & _)|(-> & _)] _]]; [reflexivity | contradiction]. }
  split; [|exact Hall]. destruct (law_runs _ _ _ (pi_ok _ H) Hpr Hmay) as (r & w' & Hgo).
  exists w'. now rewrite <- (Hall r w' Hgo).
Qed.

Lemma server_never_waits p :
  prog_inv p -> srv_pc p = SSend ->
  exists k, reply_queue p = Some k /\
    (exists w', go TServer (Snd k (reply_text p)) (svc p) (Some (0, [])) w') /\
    (forall r w', go TServer (Snd k (reply_text p)) (svc p) r w' -> r = Some (0, [])).
Proof.
  intros H E. destruct (reply_ready p H E) as (t & Ht & Hq & (Lr & _) & _).
  assert (Hpr : proper TServer (Snd (S t) (reply_text p)))
    by (split; [exact I|]; split; [unfold NQUEUES; lia | rewrite Lr; unfold MSGSZ; lia]).
  assert (Hmay : may_go (svc p) TServer (Snd (S t) (reply_text p))).
  { left. pose proof (pi_srv_call _ H) as Hcall. unfold server_call in Hcall. now rewrite E in Hcall. }
  assert (Hall : forall r w', go TServer (Snd (S t) (reply_text p)) (svc p) r w' -> r = Some (0, [])).
  { intros r w' Hgo. destruct (server_reply_inv p (S t) r w' H E Hq Hmay Hgo) as [_ Hr].
    destruct (law_effect _ _ _ _ _ (pi_ok _ H) Hpr Hmay Hgo) as [_ [[(-> & _)|(-> & _)] _]]; [reflexivity | contradiction]. }
  exists (S t). split_and!; [exact Hq | | exact Hall]. destruct (law_runs _ _ _ (pi_ok _ H) Hpr Hmay) as (r & w' & Hgo).
  exists w'. now rewrite <- (Hall r w' Hgo).
Qed.

(** ** Before the barrier *)

Lemma starting_insert l t c c' :
  l !! t = Some c -> c_pc c = CStart -> c_pc c' <> CStart -> (starting (<[t := c']> l) < starting l)%nat.
Proof.
  revert t. induction l as [|x l IH]; intros [|t] Hc E E'; try discriminate.
  - injection Hc as ->. change (<[0%nat := c']> (c :: l)) with (c' :: l). cbn [starting]. rewrite E.
    destruct (c_pc c'); (contradiction || lia).
  - specialize (IH t Hc E E'). change (<[S t := c']> (x :: l)) with (x :: <[t := c']> l). cbn [starting]. lia.
Qed.

Lemma starting_some l : (exists t c, l !! t = Some c /\ c_pc c = CStart) \/ Forall (fun c => c_pc c <> CStart) l.
Proof.
  induction l as [|x l [(t & c & Hc & E)|IH]]; [right; constructor | left; exists (S t), c; auto|].
  destruct (c_pc x) eqn:E; [left; exists 0%nat, x; auto|..]; right; constructor; auto; congruence.
Qed.

Lemma early_can_run p :
  prog_inv p -> early_server (srv_pc p) = true ->
  exists p', tstep p p' /\ main_pc p' = main_pc p /\ (wait_rank p' < wait_rank p)%nat.
Proof.
  intros H He. unfold wait_rank. rewrite He. destruct (pi_barrier _ H) as [[Hall _]|[_ Hn]]; [|congruence].
  destruct (starting_some (clients p)) as [(t & c & Hc & E)|Hns].
  - eexists. split; [apply (t_client p t c); [exact Hc | now apply c_start]|].
    split; [reflexivity|]. cbn [srv_pc clients at_client]. rewrite He.
    pose proof (starting_insert _ t c (CLI CBarrier (set_word 0 (Z.of_nat t) (c_msg c)) (c_cnt c)) Hc E ltac:(discriminate)).
    lia.
  - destruct (srv_pc p) eqn:Es; try discriminate.
    + eexists. split; [apply t_server; now apply s_start|]. split; [reflexivity|].
      cbn [srv_pc clients at_server early_server]. lia.
    + eexists. split; [apply t_barrier; split; [exact Es | split; [|reflexivity]]|].
      * apply Forall_lookup. intros t c Hc. pose proof (proj1 (Forall_lookup _ _) Hns t c Hc) as H1.
        pose proof (proj1 (Forall_lookup _ _) Hall t c Hc) as H2. cbn in H1, H2. unfold early in H2.
        destruct (c_pc c); congruence.
      * split; [reflexivity|]. cbn [srv_pc clients main_pc early_server].
        destruct ((past_barrier <$> clients p) !! _) as [c|]; [destruct (c_pc c)|]; cbn [client_rank]; lia.
Qed.

(** ** The way to the end *)

Lemma wait_rank_client p t c w' c' o :
  early_server (srv_pc p) = false -> turn (main_pc p) = t -> clients p !! t = Some c ->
  (client_rank (c_pc c') < client_rank (c_pc c))%nat -> nearer (at_client t w' c' o p) p.
Proof.
  intros He Ht Hc Hr. right. split; [reflexivity|]. left. unfold wait_rank. cbn [srv_pc clients main_pc at_client].
  rewrite He, Ht, Hc, list_lookup_insert_eq by (now apply lookup_lt_Some in Hc). exact Hr.
Qed.

Lemma nearer_server p w' pc b o :
  early_server (srv_pc p) = false -> early_server pc = false ->
  (4 * length (pending_mail w' 0) + server_rank pc < work_rank p)%nat -> nearer (at_server w' pc b o p) p.
Proof.
  intros He He' Hr. right. split; [reflexivity|]. right. split; [|exact Hr].
  unfold wait_rank. cbn [srv_pc clients main_pc at_server]. now rewrite He, He'.
Qed.

(** [main] waits for client [i]. *)
Lemma client_nearer p i c :
  prog_inv p -> main_pc p = MJoin i -> clients p !! i = Some c -> (i < NTASKS)%nat ->
  early_server (srv_pc p) = false -> c_pc c <> CDone -> exists p', tstep p p' /\ nearer p' p.
Proof.
  intros H Em Hc Hi He Hd. pose proof (pi_clients _ H _ _ Hc) as Hci.
  assert (Hend : end_ p = Z.of_nat i) by (rewrite (pi_end _ H), Em; reflexivity).
  assert (Htold : endmsg ∈ pending_mail (svc p) (S i)).
  { destruct (ci_told _ _ _ Hci) as [|Hin]; [rewrite Em; cbn [ended]; apply Nat.leb_refl | contradiction | exact Hin]. }
  assert (Ht : turn (main_pc p) = i) by now rewrite Em.
  destruct (pi_barrier _ H) as [[_ ?]|[Hlate _]]; [congruence|].
  pose proof (proj1 (Forall_lookup _ _) Hlate i c Hc) as Hl. cbn in Hl. unfold early in Hl.
  destruct (c_pc c) eqn:E; try discriminate; try contradiction.
  - eexists. split; [apply (t_client p i c); [exact Hc | apply c_leave; [exact E | lia]]|].
    apply (wait_rank_client p i c); try assumption. rewrite E. cbn. lia.
  - destruct (pending_mail (svc p) 0) as [|x l] eqn:Eb.
    + destruct (client_can_send p i c H Hc E Eb) as [w' Hs]. eexists. split; [exact Hs|].
      apply (wait_rank_client p i c); try assumption. rewrite E. cbn. lia.
    + destruct (server_can_run p H He) as (w' & pc & b & o & Hs & He' & Hr).
      * intros Ed. pose proof (pi_srv _ H) as Hh. unfold server_holds in Hh. rewrite Ed in Hh. lia.
      * intros _. congruence.
      * eexists. split; [exact Hs | now apply nearer_server].
  - destruct (client_can_receive p i c H Hc E) as (w' & c' & o & Hs & Hpc).
    { intros En. rewrite En in Htold. now apply elem_of_nil in Htold. }
    eexists. split; [exact Hs|]. apply (wait_rank_client p i c); try assumption.
    rewrite E. destruct Hpc as [-> | ->]; cbn; lia.
Qed.

Lemma can_get_nearer p : prog_inv p -> main_pc p <> MDone -> exists p', tstep p p' /\ nearer p' p.
Proof.
  intros H Hd. pose proof (pi_turn _ H) as Htu. destruct (main_pc p) as [|i|i|i|] eqn:Em; [..|contradiction]; cbn [turn] in Htu.
  - eexists. split; [apply t_main; now apply m_enter|]. left. cbn [main_pc at_main]. rewrite Em. cbn. lia.
  - eexists. split; [apply t_main; now apply (m_end p i)|]. left. cbn [main_pc at_main]. rewrite Em. cbn [main_rank]. lia.
  - assert (Hpr : proper TMain (Snd (end_queue i) endmsg)).
    { split; [exact I|]. split; [|change (length endmsg) with 19%nat; unfold MSGSZ; lia]. unfold end_queue, NQUEUES. destruct (Nat.ltb_spec i NTASKS); lia. }
    assert (Hmay : may_go (svc p) TMain (Snd (end_queue i) endmsg)) by (left; apply H).
    destruct (law_runs _ _ _ (pi_ok _ H) Hpr Hmay) as (r & w' & Hgo).
    destruct (main_send_inv p i r w' H Em Hmay Hgo) as [_ Hr].
    pose proof (m_send p i r w' Em Hmay Hgo) as Hs. destruct r as [v|]; [|contradiction].
    eexists. split; [apply t_main; exact Hs|]. left. cbn [main_pc at_main]. rewrite Em. cbn [main_rank]. lia.
  - destruct (early_server (srv_pc p)) eqn:He.
    { destruct (early_can_run p H He) as (p' & Hs & E & Hr). exists p'. split; [exact Hs|]. right. split; [now rewrite E | now left]. }
    assert (Hjoin : joined i p -> exists p', tstep p p' /\ nearer p' p).
    { intros Hj. eexists. split; [apply t_main; exact (m_join p i Em Hj)|]. left. cbn [main_pc at_main]. rewrite Em.
      destruct (Nat.ltb_spec i NTASKS); cbn [main_rank]; lia. }
    destruct (Nat.ltb_spec i NTASKS) as [Hi|Hi].
    + destruct (lookup_lt_is_Some_2 (clients p) i) as [c Hc]; [rewrite (pi_len _ H); exact Hi|].
      destruct (decide (client_rank (c_pc c) = O)) as [E0|E0].
      * apply Hjoin. unfold joined. rewrite (proj2 (Nat.ltb_lt i NTASKS) Hi), Hc. cbn. f_equal.
        destruct (pi_barrier _ H) as [[_ ?]|[Hlate _]]; [congruence|].
        pose proof (proj1 (Forall_lookup _ _) Hlate i c Hc) as Hl. cbn in Hl. unfold early in Hl.
        destruct (c_pc c); (discriminate || reflexivity).
      * apply (client_nearer p i c); try assumption. intros E. rewrite E in E0. now apply E0.
    + assert (Ed : srv_pc p = SDone \/ srv_pc p <> SDone) by (destruct (srv_pc p); auto; right; discriminate).
      destruct Ed as [Ed|Ed].
      { apply Hjoin. unfold joined. now rewrite (proj2 (Nat.ltb_ge i NTASKS) Hi). }
      destruct (server_can_run p H He Ed) as (w' & pc & b & o & Hs & He' & Hr).
      * intros E En. assert (Hn : ended NTASKS (main_pc p) = true) by (rewrite Em; cbn [ended]; apply Nat.leb_le; lia).
        destruct (pi_srv_told _ H Hn) as [|[|Hin]]; [congruence | congruence|]. rewrite En in Hin. now apply elem_of_nil in Hin.
      * eexists. split; [exact Hs | now apply nearer_server].
Qed.

Lemma reaches_end p : prog_inv p -> exists p', rtc tstep p p' /\ main_pc p' = MDone.
Proof.
  induction p as [p IH] using (well_founded_induction nearer_wf). intros H.
  assert (Hd : main_pc p = MDone \/ main_pc p <> MDone) by (destruct (main_pc p); auto; right; discriminate).
  destruct Hd as [Hd|Hd]; [exists p; split; [apply rtc_refl | exact Hd]|].
  destruct (can_get_nearer p H Hd) as (p1 & Hs & Hn).
  destruct (IH p1 Hn (tstep_inv p p1 H Hs)) as (p' & Hr & Hm). exists p'. split; [|exact Hm]. now apply rtc_l with p1.
Qed.
End Run.
