(* ===== verification/SysvMail.v ===== *)
(** * The message queue module as a message service

    The tasks of testmsg call the module of msg.c; a task that sleeps in
    [schedule()] runs again once [wake_up_process] was called on it.  Given
    eleven queues its tasks may use, calls that find memory and are not
    interrupted, and no other user of these queues, the module obeys the laws
    of [MailLaws]. *)

From stdpp Require Import base tactics numbers list gmap relations.
From S2P Require Import Prelude.
From S2P Require Import SysvState.
From S2P Require Import IpcUtil.
From S2P Require Import IpcFacts.
From S2P Require Import SysvMsg.
From S2P Require Import MsgText.
From S2P Require Import SysvInv.
From S2P Require Import SysvOps.
From S2P Require Import SysvTransfer.
From S2P Require Import SysvSearch.
From S2P Require Import SysvSystem.
From S2P Require Import SysvEffects.
From S2P Require Import MailService.

(** ** The queues and the callers *)

(** The identifiers [rt_msgget] gave, the queues they name and the identities
    of the tasks. *)
Record setup := SETUP {
  qid : nat -> Z;
  qptr : nat -> Z;
  qperm : nat -> kern_ipc_perm;
  pid : task -> Z;
  qid_pos : forall k, (k < NQUEUES)%nat -> 0 <= qid k;
  qid_valid : forall k, (k < NQUEUES)%nat -> ipc_checkid (qperm k) (qid k) = false;
  qptr_inj : forall k k', (k < NQUEUES)%nat -> (k' < NQUEUES)%nat -> qptr k = qptr k' -> k = k';
  pid_inj : forall t t', pid t = pid t' -> t = t'
}.

(** A call of task [t] that finds memory and access, without a signal. *)
Definition calls_as (c : setup) (t : task) (e : env) : Prop :=
  e_pid e = pid c t /\ env_ok e true /\ e_signal_pending e = false /\
  forall k, (k < NQUEUES)%nat -> ipcperms e (qperm c k) S_IRUGO = 0 /\ ipcperms e (qperm c k) S_IWUGO = 0.

(** The module and the tasks that wait for [wake_up_process]. *)
Record world := WORLD { module : sys; off : gset Z }.

(** [rt_msgsnd_nu] and [rt_msgrcv_nu] of the user space half of
    rtai_sysvmsg.h. *)
Definition call_of (c : setup) (o : op) : call :=
  match o with
  | Snd k x => CallSnd (qid c k) 1 x (len x) 0 true
  | Rcv k => CallRcv (qid c k) (Z.of_nat MSGSZ) 1 0 true
  end.

Definition result_of (a : answer) : option (Z * text) :=
  match a with
  | AnsSnd (Some v) => Some (v, [])
  | AnsRcv (Some rp) => Some (rp_ret rp, rp_mtext rp)
  | AnsGet r => Some (r, [])
  | AnsCtl r _ => Some (r, [])
  | _ => None
  end.

(** The tasks a call woke. *)
Definition new_woken (s s' : sys) : list Z := take (length (woken s') - length (woken s)) (woken s').

Definition off_after (t : Z) (r : option (Z * text)) (s s' : sys) (o : gset Z) : gset Z :=
  (o ∖ list_to_set (new_woken s s')) ∪ (if r is None then {[t]} else ∅).

Definition queue_of (c : setup) (s : sys) (k : nat) : list msg_msg :=
  match queues s !! qptr c k with Some q => q_messages q | None => [] end.

Definition handed_to (c : setup) (s : sys) (k : nat) : option text :=
  match receivers s !! pid c (reader k) with
  | Some r => match r_msg r with inl m => Some (payload m) | inr _ => None end
  | None => None
  end.

(** A message as the tasks send them. *)
Definition letter (x : text) : msg_msg := made 1 x (len x).
Definition is_letter (m : msg_msg) : Prop := exists x, m = letter x /\ (0 < length x <= MSGSZ)%nat.

Definition pending_call (c : setup) (o : op) : pending :=
  match o with
  | Snd k x => PSnd (qid c k) (letter x) (len x) 0
  | Rcv k => PRcv (qid c k) (qptr c k) (Z.of_nat MSGSZ) 1 SEARCH_EQUAL 0 true
  end.

(** ** What holds between the calls *)

(** The bytes queued. *)
Definition load (c : setup) (s : sys) (k : nat) : Z := sumZ m_ts (queue_of c s k).

Record queue_fine (c : setup) (s : sys) (k : nat) (q : msg_queue) : Prop := {
  qf_at : queue_at (msg_ids s) (qid c k) = Some (qptr c k);
  qf_queue : queues s !! qptr c k = Some q;
  qf_perm : q_perm q = qperm c k;
  qf_bytes : q_qbytes q = CAPACITY;
  qf_letters : Forall is_letter (q_messages q);
  qf_load : sumZ m_ts (q_messages q) <= CAPACITY;
  qf_readers : q_receivers q = [] \/ (q_receivers q = [pid c (reader k)] /\ q_messages q = [])
}.

(** A sleeping caller. *)
Definition sleeper_fine (c : setup) (s : sys) (o : gset Z) (n : Z) (pd : pending) : Prop :=
  exists t op, n = pid c t /\ proper t op /\ pd = pending_call c op /\
  match op with
  | Snd k x =>
      (exists sd, senders s !! n = Some sd /\ s_list sd = Some (qptr c k)) /\
      (n ∈ o -> CAPACITY < len x + load c s k)
  | Rcv k =>
      exists r, receivers s !! n = Some r /\ r_mode r = SEARCH_EQUAL /\ r_msgtype r = 1 /\
        r_maxsize r = Z.of_nat MSGSZ /\
        match r_msg r with
        | inl m => is_letter m /\ n ∉ o
        | inr err => err = - EAGAIN /\ n ∈ o
        end
  end.

Record fine (c : setup) (ary : bool) (d : Z) (o : gset Z) (s : sys) : Prop := {
  fi_inv : Inv false ary d s;
  fi_queue : forall k, (k < NQUEUES)%nat -> exists q, queue_fine c s k q;
  fi_sleep : forall n pd, sleeping s !! n = Some pd -> sleeper_fine c s o n pd;
  fi_off : forall n, n ∈ o -> is_Some (sleeping s !! n)
}.

#[export] Instance sysv_mail (c : setup) : Mail world := {|
  mail_ok w := fine c false 0 (off w) (module w);
  queued w k := payload <$> queue_of c (module w) k;
  given w k := handed_to c (module w) k;
  waits w t o := sleeping (module w) !! pid c t = Some (pending_call c o);
  idle w t := sleeping (module w) !! pid c t = None;
  asleep w t := pid c t ∈ off w;
  go t o w r w' := exists e a s', calls_as c t e /\
    (if decide (sleeping (module w) !! pid c t = None)
     then run_call e (call_of c o) (module w) = OK a s'
     else run_call e Resume (module w) = OK a s') /\
    r = result_of a /\ w' = WORLD s' (off_after (pid c t) r (module w) s' (off w))
|}.

(** ** Letters *)

Lemma payload_letter x : payload (letter x) = x.
Proof.
  unfold letter, made. rewrite payload_loaded by (unfold len; lia).
  unfold len. rewrite Nat2Z.id. now apply take_ge.
Qed.

Lemma letter_inj x y : letter x = letter y -> x = y.
Proof. intros E. rewrite <- (payload_letter x), E. apply payload_letter. Qed.

Lemma letter_ok x : msg_ok (letter x).
Proof. apply loaded_ok; unfold len; lia. Qed.

Lemma letters_bytes l : Forall is_letter l -> bytes (payload <$> l) = sumZ m_ts l.
Proof.
  induction 1 as [|m l (x & -> & _) _ IH]; [reflexivity|]. unfold bytes in *.
  cbn [fmap list_fmap]. rewrite !sumZ_cons. cbn in IH. rewrite payload_letter, IH. reflexivity.
Qed.

Lemma letters_size l : Forall is_letter l -> 0 <= sumZ m_ts l /\ Z.of_nat (length l) <= sumZ m_ts l.
Proof.
  induction 1 as [|m l (x & -> & Hx) _ [IH1 IH2]]; [split; reflexivity|]. rewrite sumZ_cons.
  change (m_ts (letter x)) with (len x). cbn [length]. unfold len. lia.
Qed.

Lemma pending_call_snd c o k x : pending_call c o = pending_call c (Snd k x) ->
  exists k', o = Snd k' x /\ qid c k' = qid c k.
Proof.
  destruct o as [k' y|k']; [|discriminate]. intros E. exists k'.
  pose proof (f_equal (fun p => match p with PSnd i _ _ _ => i | _ => 0 end) E) as Ei.
  pose proof (f_equal (fun p => match p with PSnd _ m _ _ => m | _ => letter [] end) E) as Em.
  split; [|exact Ei]. f_equal. now apply letter_inj.
Qed.

Lemma pending_call_rcv c o k : pending_call c o = pending_call c (Rcv k) ->
  exists k', o = Rcv k' /\ qid c k' = qid c k.
Proof.
  destruct o as [k' y|k']; [discriminate|]. intros E. exists k'.
  pose proof (f_equal (fun p => match p with PRcv i _ _ _ _ _ _ => i | _ => 0 end) E) as Ei. now split.
Qed.

(** ** What the module does not change *)

Section Sysv.
Variable c : setup.

Lemma qid_inj s k k' q q' :
  queue_fine c s k q -> queue_fine c s k' q' -> (k < NQUEUES)%nat -> (k' < NQUEUES)%nat ->
  qid c k = qid c k' -> k = k'.
Proof.
  intros H H' Hk Hk' E. apply (qptr_inj c); try assumption.
  pose proof (qf_at _ _ _ _ H) as A. pose proof (qf_at _ _ _ _ H') as A'. rewrite E in A. congruence.
Qed.

Lemma sleeper_kept s s' o o' n pd :
  sleeper_fine c s o n pd -> senders s' !! n = senders s !! n -> receivers s' !! n = receivers s !! n ->
  (forall k, pd = pending_call c (Rcv k) -> n ∈ o' <-> n ∈ o) ->
  (forall k x, pd = pending_call c (Snd k x) -> (k < NQUEUES)%nat -> n ∈ o' ->
     n ∈ o /\ load c s k <= load c s' k) ->
  sleeper_fine c s' o' n pd.
Proof.
  intros (t & op & En & Hp & Epd & H) Es Er Hr Hs. exists t, op. split_and!; try assumption.
  destruct op as [k x|k].
  - rewrite Es. destruct H as [H1 H2]. split; [exact H1|]. intros Hin.
    destruct (Hs k x Epd ltac:(apply Hp) Hin) as [Hin' Hl]. specialize (H2 Hin'). lia.
  - rewrite Er. destruct H as (r & A & B & C & D & H). exists r. split_and!; try assumption.
    specialize (Hr k Epd). destruct (r_msg r); destruct H; split; try assumption; tauto.
Qed.

(** A change of one of the queues. *)
Lemma queue_fine_other s s' k k' q q' :
  queue_fine c s k' q -> (k < NQUEUES)%nat -> (k' < NQUEUES)%nat -> k' <> k ->
  ids_entries (msg_ids s') = ids_entries (msg_ids s) -> queues s' = <[qptr c k := q']> (queues s) ->
  queue_fine c s' k' q.
Proof.
  intros [A B C D E F G] Hk Hk' Hne Ei Eq. constructor; try assumption.
  - unfold queue_at in *. now rewrite Ei.
  - rewrite Eq, lookup_insert_ne; [exact B|]. intros E'. apply Hne. now apply (qptr_inj c).
Qed.

Lemma queue_of_insert s s' k q' :
  (k < NQUEUES)%nat -> queues s' = <[qptr c k := q']> (queues s) ->
  queue_of c s' k = q_messages q' /\
  forall k', (k' < NQUEUES)%nat -> k' <> k -> queue_of c s' k' = queue_of c s k'.
Proof.
  intros Hk Eq. unfold queue_of. rewrite Eq. split; [now rewrite lookup_insert_eq|].
  intros k' Hk' Hne. rewrite lookup_insert_ne; [reflexivity|]. intros E. apply Hne. now apply (qptr_inj c).
Qed.

Lemma queue_of_eq s k q : queue_fine c s k q -> queue_of c s k = q_messages q.
Proof. intros H. unfold queue_of. now rewrite (qf_queue _ _ _ _ H). Qed.

(** The lock is taken and memory allocated. *)
Lemma fine_locked o s b : fine c false 0 o s -> fine c true b o (locked (add_heap b s)).
Proof.
  intros [A B C D]. constructor; [|  | exact C | exact D].
  - exact (Inv_locked _ _ _ (Inv_heap _ _ _ b _ A)).
  - intros k Hk. destruct (B k Hk) as (q & []). exists q. constructor; assumption.
Qed.

(** The stack of a task that runs again is gone. *)
Lemma fine_forget ary d d' o s n :
  fine c ary d o s -> Inv false ary d' (forget n s) -> n ∉ o -> fine c ary d' o (forget n s).
Proof.
  intros [A B C D] HI Hn. constructor; [exact HI| | |].
  - intros k Hk. destruct (B k Hk) as (q & [Q1 Q2 Q3 Q4 Q5 Q6 Q7]). exists (unlink_q n q).
    constructor; try assumption.
    + cbn. rewrite lookup_fmap, Q2. reflexivity.
    + cbn [q_receivers q_messages unlink_q msq_with_senders msq_with_receivers].
      destruct Q7 as [->|[-> Q7]]; [now left|]. cbn [unlink]. destruct (_ =? _); [now left | now right].
  - intros n' pd. cbn. rewrite lookup_delete_Some. intros [Hne Hs].
    apply (sleeper_kept s _ o); [now apply C | cbn; now rewrite lookup_delete_ne | cbn; now rewrite lookup_delete_ne | tauto|].
    intros k x _ Hk Hin. split; [exact Hin|]. unfold load, queue_of. cbn. rewrite lookup_fmap.
    destruct (queues s !! qptr c k); cbn; lia.
  - intros n' Hin. cbn. rewrite lookup_delete_ne; [now apply D|]. intros ->. contradiction.
Qed.

Lemma queue_of_forget s n k : queue_of c (forget n s) k = queue_of c s k.
Proof. unfold queue_of. cbn. rewrite lookup_fmap. now destruct (queues s !! qptr c k). Qed.

(** The reader of a queue: asleep on it, handed a message, or not there. *)
Lemma reader_state ary d o s k q :
  fine c ary d o s -> (k < NQUEUES)%nat -> queue_fine c s k q ->
  match handed_to c s k with
  | Some x => q_receivers q = []
  | None => q_receivers q = [] \/
      q_receivers q = [pid c (reader k)] /\ q_messages q = [] /\
      exists r, receivers s !! pid c (reader k) = Some r /\ r_list r = Some (qptr c k) /\
        r_mode r = SEARCH_EQUAL /\ r_msgtype r = 1 /\ r_maxsize r = Z.of_nat MSGSZ /\
        r_msg r = inr (- EAGAIN) /\ pid c (reader k) ∈ o
  end.
Proof.
  intros H Hk Hq. pose proof (fi_inv _ _ _ _ _ H) as HI.
  pose proof (inv_link _ _ _ _ HI _ _ (qf_queue _ _ _ _ Hq)) as [_ _ _ Hl].
  assert (Hin : q_receivers q = [] \/ q_receivers q = [pid c (reader k)] /\ q_messages q = [] /\
     exists r, receivers s !! pid c (reader k) = Some r /\ r_list r = Some (qptr c k) /\ r_msg r = inr (- EAGAIN)).
  { destruct (qf_readers _ _ _ _ Hq) as [E|[E En]]; [now left | right]. split_and!; try assumption.
    apply Hl. rewrite E. constructor. }
  destruct Hin as [E|(E & En & r & Hr & Hrl & Hrm)].
  - rewrite E. destruct (handed_to c s k); auto.
  - unfold handed_to. rewrite Hr, Hrm. right. split_and!; try assumption. exists r.
    pose proof (inv_task _ _ _ _ HI (pid c (reader k))) as Ht. unfold task_wf in Ht.
    destruct (sleeping s !! pid c (reader k)) as [pd|] eqn:Esl; [|destruct Ht; congruence].
    destruct (fi_sleep _ _ _ _ _ H _ _ Esl) as (t & op & En' & Hp & Epd & Hop). subst pd.
    destruct op as [k' x|k']; cbn in Ht.
    + destruct Ht as (_ & _ & _ & Hn & _). congruence.
    + destruct Hop as (r' & Hr' & B1 & B2 & B3 & B4). assert (r' = r) as -> by congruence.
      rewrite Hrm in B4. destruct B4. now split_and!.
Qed.

(** ** The three ends of a send *)

(** The access of a caller to queue [k]. *)
Lemma calls_open e t s k q flag :
  calls_as c t e -> queue_fine c s k q -> (k < NQUEUES)%nat -> flag = S_IRUGO \/ flag = S_IWUGO ->
  opens e s (qid c k) flag (qptr c k) q.
Proof.
  intros (_ & _ & _ & Hp) [A B C _ _ _ _] Hk Hf. destruct (Hp k Hk) as [P1 P2].
  constructor; try assumption.
  - now apply (qid_pos c).
  - rewrite C. now apply (qid_valid c).
  - rewrite C. destruct Hf as [-> | ->]; assumption.
Qed.

Lemma send_full e id p q msg s :
  Inv false true (msg_blocks msg) s -> opens e s id S_IWUGO p q -> room q (m_ts msg) = false ->
  msgsnd_retry e id p msg (m_ts msg) 0 s
    = OK None (unlocked (slept_snd (e_pid e) p q (PSnd id msg (m_ts msg) 0) s)).
Proof.
  intros HI [Hid Hat Hp Hck Hpm] Hroom. unfold msgsnd_retry. run (deref_q_eq p q s Hp).
  rewrite Hck, Hpm, room_test, Hroom. cbn [negb Z.eqb].
  change (negb (Z.land 0 IPC_NOWAIT =? 0)) with false. cbn beta iota.
  unfold ss_add. unfold bind at 1. unfold bind at 1, modify at 1.
  rewrite (upd_q_eq p _ q) by exact Hp. cbn beta iota.
  unfold ipc_unlock, spin_unlock. unfold bind at 1. cbn_sys. rewrite (inv_ary _ _ _ _ HI). reflexivity.
Qed.

(** The queue after a send, without its new message. *)
Definition stamped (e : env) (q : msg_queue) : msg_queue :=
  MSQ (q_perm q) (e_get_seconds e) (q_rtime q) (q_ctime q) (q_cbytes q) (q_qnum q)
      (q_qbytes q) (e_pid e) (q_lrpid q) (q_messages q) (q_receivers q) (q_senders q).

Lemma send_queues e id p q msg s :
  Inv false true (msg_blocks msg) s -> opens e s id S_IWUGO p q -> room q (m_ts msg) = true ->
  q_receivers q = [] ->
  exists s', msgsnd_retry e id p msg (m_ts msg) 0 s = OK (Some 0) s' /\
    queues s' = <[p := enqueued msg (m_ts msg) (stamped e q)]> (queues s) /\
    receivers s' = receivers s /\ senders s' = senders s /\ sleeping s' = sleeping s /\
    woken s' = woken s /\ ids_entries (msg_ids s') = ids_entries (msg_ids s).
Proof.
  intros HI [Hid Hat Hp Hck Hpm] Hroom Hr. unfold msgsnd_retry. run (deref_q_eq p q s Hp).
  rewrite Hck, Hpm, room_test, Hroom. cbn [negb Z.eqb].
  match goal with |- context [upd_q p ?f] => change f with (stamped e) end.
  run (upd_q_eq p (stamped e) q s Hp). set (s1 := set_queues _ s).
  assert (Hp1 : queues s1 !! p = Some (stamped e q)) by apply lookup_insert_eq.
  unfold pipelined_send. unfold bind at 1. unfold bind at 1. rewrite (deref_q_eq p _ s1 Hp1).
  cbn [q_receivers stamped]. rewrite Hr. cbn [pipelined_list]. unfold ret at 1. cbn beta iota.
  unfold bind at 1. unfold bind at 1. rewrite (upd_q_eq p _ _ s1 Hp1). cbn beta iota. unfold modify.
  unfold ipc_unlock, spin_unlock, bind. cbn_sys. change (msg_ids s1) with (msg_ids s). rewrite (inv_ary _ _ _ _ HI).
  eexists. split; [reflexivity|]. cbn_sys. split_and!; try reflexivity.
  unfold s1. cbn_sys. now rewrite insert_insert_eq.
Qed.

(** The queue after its only receiver was handed the message. *)
Definition passed (e : env) (n : Z) (q : msg_queue) : msg_queue :=
  MSQ (q_perm q) (e_get_seconds e) (e_get_seconds e) (q_ctime q) (q_cbytes q) (q_qnum q)
      (q_qbytes q) (e_pid e) n (q_messages q) [] (q_senders q).

Lemma send_hands e id p q msg s n r :
  Inv false true (msg_blocks msg) s -> opens e s id S_IWUGO p q -> room q (m_ts msg) = true ->
  q_receivers q = [n] -> receivers s !! n = Some r -> r_list r = Some p ->
  testmsg msg (r_msgtype r) (r_mode r) = true -> m_ts msg <= r_maxsize r ->
  exists s', msgsnd_retry e id p msg (m_ts msg) 0 s = OK (Some 0) s' /\
    queues s' = <[p := passed e (r_tsk r) q]> (queues s) /\
    receivers s' = <[n := finished (inl msg) r]> (receivers s) /\ senders s' = senders s /\
    sleeping s' = sleeping s /\ woken s' = n :: woken s /\
    ids_entries (msg_ids s') = ids_entries (msg_ids s).
Proof.
  intros HI [Hid Hat Hp Hck Hpm] Hroom Hn Hr Hrl Htest Hsz. unfold msgsnd_retry. run (deref_q_eq p q s Hp).
  rewrite Hck, Hpm, room_test, Hroom. cbn [negb Z.eqb].
  match goal with |- context [upd_q p ?f] => change f with (stamped e) end.
  run (upd_q_eq p (stamped e) q s Hp). set (s1 := set_queues _ s).
  assert (Hp1 : queues s1 !! p = Some (stamped e q)) by apply lookup_insert_eq.
  unfold pipelined_send. unfold bind at 1. unfold bind at 1. rewrite (deref_q_eq p _ s1 Hp1).
  cbn [q_receivers stamped]. rewrite Hn. cbn [pipelined_list].
  unfold bind at 1, deref_r. change (receivers s1) with (receivers s). rewrite Hr, Htest.
  unfold bind at 1. rewrite (rcv_list_del_eq n r p (stamped e q) s1 Hr Hrl Hp1).
  replace (r_maxsize r <? m_ts msg) with false by (symmetry; apply Z.ltb_ge; lia).
  unfold bind at 1. rewrite (upd_r_finish n r p (stamped e q) (inl msg) s1).
  set (s2 := finish _ _ _ _ _ _).
  assert (Hp2 : queues s2 !! p = Some (msq_with_receivers (unlink n (q_receivers (stamped e q))) (stamped e q)))
    by apply lookup_insert_eq.
  unfold bind at 1. rewrite (upd_q_eq p _ _ s2 Hp2). cbn beta iota.
  unfold bind, wake_up_process, modify, ret, ipc_unlock, spin_unlock. cbn_sys.
  change (msg_ids s2) with (msg_ids s). rewrite (inv_ary _ _ _ _ HI).
  eexists. split; [reflexivity|]. cbn_sys. split_and!; try reflexivity.
  unfold s2, finish, s1. cbn_sys. rewrite !insert_insert_eq. f_equal.
  cbn [q_receivers stamped]. rewrite Hn. cbn [unlink]. rewrite Z.eqb_refl. reflexivity.
Qed.

(** ** A send *)

Lemma new_woken_app s s' l : woken s' = l ++ woken s -> new_woken s s' = l.
Proof.
  intros E. unfold new_woken. rewrite E, length_app.
  replace (length l + length (woken s) - length (woken s))%nat with (length l) by lia. apply take_app_length.
Qed.

Lemma off_slept n s s' o : woken s' = woken s -> off_after n None s s' o = o ∪ {[n]}.
Proof. intros E. unfold off_after. rewrite (new_woken_app s s' []) by exact E. cbn [list_to_set]. now rewrite difference_empty_L. Qed.

Lemma off_woke n v s s' o l :
  woken s' = l ++ woken s -> off_after n (Some v) s s' o = o ∖ list_to_set l.
Proof. intros E. unfold off_after. rewrite (new_woken_app s s' l) by exact E. apply union_empty_r_L. Qed.

Lemma off_other (o : gset Z) n n' : n' <> n -> n' ∈ o ∪ {[n]} <-> n' ∈ o.
Proof. rewrite elem_of_union, elem_of_singleton. intuition congruence. Qed.

Lemma off_except (o : gset Z) n n' : n' ∈ o ∖ list_to_set [n] <-> n' ∈ o /\ n' <> n.
Proof. cbn [list_to_set]. rewrite union_empty_r_L, elem_of_difference, elem_of_singleton. reflexivity. Qed.

Lemma reader_inj k k' : reader k = reader k' -> k = k'.
Proof. destruct k, k'; cbn; congruence. Qed.

(** Everything that waits to be read from queue [k]. *)
Definition mails (s : sys) (k : nat) : list text :=
  option_list (handed_to c s k) ++ (payload <$> queue_of c s k).

Lemma mails_same s s' k :
  receivers s' !! pid c (reader k) = receivers s !! pid c (reader k) -> queue_of c s' k = queue_of c s k ->
  mails s' k = mails s k.
Proof. intros E1 E2. unfold mails, handed_to. now rewrite E1, E2. Qed.

Lemma room_fine ary d o s k q x :
  fine c ary d o s -> queue_fine c s k q -> (0 < length x <= MSGSZ)%nat ->
  room q (len x) = (len x + load c s k <=? CAPACITY).
Proof.
  intros H Hq Hx. pose proof (inv_queue _ _ _ _ (fi_inv _ _ _ _ _ H) _ _ (qf_queue _ _ _ _ Hq)) as [_ [Cr Cb] [Nr Nb] _ _].
  destruct (letters_size _ (qf_letters _ _ _ _ Hq)) as [L1 L2]. pose proof (qf_load _ _ _ _ Hq) as L3.
  unfold load. rewrite (queue_of_eq s k q Hq). unfold CAPACITY, MSGSZ in *.
  apply eq32_small in Cb; [|lia|lia]. apply eq32_small in Nb; [|lia|lia].
  unfold room. rewrite (qf_bytes _ _ _ _ Hq), Cb, Nb. unfold CAPACITY, len.
  rewrite !wrap_u_id by lia. apply eq_true_iff_eq. rewrite andb_true_iff, !Z.leb_le. lia.
Qed.

(** Build the invariant after a change of queue [k]. *)
Lemma fine_update ary d d' o o' s s' k q' :
  fine c ary d o s -> Inv false false d' s' -> (k < NQUEUES)%nat ->
  ids_entries (msg_ids s') = ids_entries (msg_ids s) -> queues s' = <[qptr c k := q']> (queues s) ->
  queue_fine c s' k q' ->
  (forall n pd, sleeping s' !! n = Some pd -> sleeper_fine c s' o' n pd) ->
  (forall n, n ∈ o' -> is_Some (sleeping s' !! n)) -> fine c false d' o' s'.
Proof.
  intros H HI Hk Ei Eq Hq Hs Ho. constructor; try assumption.
  intros k' Hk'. destruct (decide (k' = k)) as [->|Hne]; [eauto|].
  destruct (fi_queue _ _ _ _ _ H k' Hk') as [q0 Hq0]. exists q0. now apply (queue_fine_other s s' k k' q0 q').
Qed.

(** The effect of a send on the queues. *)
Definition send_effect (t : task) (k : nat) (x : text) (r : option Z) (s s' : sys) : Prop :=
  ((r = Some 0 /\ sleeping s' = sleeping s /\ mails s' k = mails s k ++ [x]) \/
   (r = None /\ sleeping s' = <[pid c t := pending_call c (Snd k x)]> (sleeping s) /\
    mails s' k = mails s k /\ CAPACITY < len x + load c s k)) /\
  (forall k', (k' < NQUEUES)%nat -> k' <> k -> mails s' k' = mails s k').

Section Send.
Context (o : gset Z) (s : sys) (t : task) (e : env) (k : nat) (x : text).
Hypothesis Hf : fine c true (0 + msg_blocks (letter x)) o s.
Hypothesis Ha : calls_as c t e.
Hypothesis Hsl : sleeping s !! pid c t = None.
Hypothesis Hpr : proper t (Snd k x).

Let Hk : (k < NQUEUES)%nat := proj1 (proj2 Hpr).
Let Hx : (0 < length x <= MSGSZ)%nat := proj2 (proj2 Hpr).

Lemma send_safe q r s' :
  queue_fine c s k q -> msgsnd_retry e (qid c k) (qptr c k) (letter x) (len x) 0 s = OK r s' ->
  Inv false false 0 s'.
Proof.
  intros Hq E. destruct Ha as (Ep & _).
  destruct (msgsnd_retry_safe e (qid c k) (qptr c k) (letter x) 0 0 s (fi_inv _ _ _ _ _ Hf)
    (qf_at _ _ _ _ Hq) (qid_pos c k Hk) (letter_ok x) ltac:(now rewrite Ep)) as (r' & s2 & E' & HI & _).
  change (m_ts (letter x)) with (len x) in E'. rewrite E in E'. injection E' as <- <-. exact HI.
Qed.

(** The other sleepers, when nobody was woken and no queue lost a message. *)
Lemma others_fine s' n pd :
  sleeping s !! n = Some pd -> senders s' !! n = senders s !! n -> receivers s' !! n = receivers s !! n ->
  (forall k', (k' < NQUEUES)%nat -> load c s k' <= load c s' k') ->
  forall o', n ∈ o' <-> n ∈ o -> sleeper_fine c s' o' n pd.
Proof.
  intros Hn Es Er Hl o' Ho. apply (sleeper_kept s s' o); try assumption.
  - now apply (fi_sleep _ _ _ _ _ Hf).
  - auto.
  - intros k' y _ Hk' Hin. split; [now apply Ho | now apply Hl].
Qed.

Lemma send_full_fine q :
  queue_fine c s k q -> CAPACITY < len x + load c s k ->
  exists s', msgsnd_retry e (qid c k) (qptr c k) (letter x) (len x) 0 s = OK None s' /\
    fine c false 0 (off_after (pid c t) None s s' o) s' /\ send_effect t k x None s s'.
Proof.
  intros Hq Hfull. pose proof (calls_open e t s k q S_IWUGO Ha Hq Hk ltac:(now right)) as Hop.
  assert (Hroom : room q (len x) = false).
  { rewrite (room_fine _ _ _ _ _ _ _ Hf Hq Hx). apply Z.leb_gt. lia. }
  pose proof (send_full e _ _ q (letter x) s (fi_inv _ _ _ _ _ Hf) Hop Hroom) as E.
  change (m_ts (letter x)) with (len x) in E. destruct Ha as (Ep & _). rewrite Ep in E.
  set (s' := unlocked _) in E. exists s'. split; [exact E|].
  assert (Eq : queues s' = <[qptr c k := msq_with_senders (q_senders q ++ [pid c t]) q]> (queues s)) by reflexivity.
  destruct (queue_of_insert s s' k _ Hk Eq) as [Q1 Q2].
  assert (Qall : forall k', (k' < NQUEUES)%nat -> queue_of c s' k' = queue_of c s k').
  { intros k' Hk'. destruct (decide (k' = k)) as [->|Hne]; [|now apply Q2].
    rewrite Q1, (queue_of_eq s k q Hq). reflexivity. }
  assert (Hload : forall k', (k' < NQUEUES)%nat -> load c s k' <= load c s' k')
    by (intros k' Hk'; unfold load; rewrite Qall by exact Hk'; lia).
  assert (Eo : off_after (pid c t) None s s' o = o ∪ {[pid c t]}) by (apply off_slept; reflexivity).
  split.
  - rewrite Eo. apply (fine_update true (0 + msg_blocks (letter x)) 0 o _ s s' k _ Hf (send_safe q _ _ Hq E) Hk eq_refl Eq).
    + destruct Hq as [A1 A2 A3 A4 A5 A6 A7]. constructor; try assumption. rewrite Eq. apply lookup_insert_eq.
    + intros n pd Hn. cbn in Hn. apply lookup_insert_Some in Hn as [[<- <-]|[Hne Hn]].
      * exists t, (Snd k x). split_and!; try (reflexivity || assumption); cbn.
        -- eexists. split; [apply lookup_insert_eq | reflexivity].
        -- intros _. specialize (Hload k Hk). lia.
      * apply others_fine; try assumption; [cbn; now rewrite lookup_insert_ne | reflexivity | apply off_other; congruence].
    + intros n. cbn. rewrite lookup_insert_is_Some'. rewrite elem_of_union, elem_of_singleton.
      intros [Hn| ->]; [right; now apply (fi_off _ _ _ _ _ Hf) | now left].
  - split; [right; split_and!; try (reflexivity || assumption) |]; intros; apply mails_same; auto.
Qed.

Lemma send_queues_fine q :
  queue_fine c s k q -> len x + load c s k <= CAPACITY -> q_receivers q = [] ->
  exists s', msgsnd_retry e (qid c k) (qptr c k) (letter x) (len x) 0 s = OK (Some 0) s' /\
    fine c false 0 (off_after (pid c t) (Some (0, [])) s s' o) s' /\ send_effect t k x (Some 0) s s'.
Proof.
  intros Hq Hfit Hr. pose proof (calls_open e t s k q S_IWUGO Ha Hq Hk ltac:(now right)) as Hop.
  assert (Hroom : room q (len x) = true).
  { rewrite (room_fine _ _ _ _ _ _ _ Hf Hq Hx). apply Z.leb_le. lia. }
  destruct (send_queues e _ _ q (letter x) s (fi_inv _ _ _ _ _ Hf) Hop Hroom Hr)
    as (s' & E & Eq & Er & Es & Esl & Ew & Ei).
  change (m_ts (letter x)) with (len x) in E, Eq. set (q' := enqueued _ _ _) in Eq.
  exists s'. split; [exact E|].
  destruct (queue_of_insert s s' k _ Hk Eq) as [Q1 Q2].
  assert (Eq' : queue_of c s' k = queue_of c s k ++ [letter x]) by (rewrite Q1, (queue_of_eq s k q Hq); reflexivity).
  assert (Hlen : 0 <= len x) by (unfold len; lia).
  assert (Hsum : load c s' k = load c s k + len x) by (unfold load; rewrite Eq', sumZ_snoc; reflexivity).
  assert (Hload : forall k', (k' < NQUEUES)%nat -> load c s k' <= load c s' k').
  { intros k' Hk'. destruct (decide (k' = k)) as [->|Hne]; [lia|]. unfold load. rewrite Q2 by assumption. lia. }
  rewrite (off_woke _ _ s s' o []) by exact Ew. cbn [list_to_set]. rewrite difference_empty_L.
  split.
  - apply (fine_update true (0 + msg_blocks (letter x)) 0 o _ s s' k _ Hf (send_safe q _ _ Hq E) Hk Ei Eq).
    + destruct Hq as [A1 A2 A3 A4 A5 A6 A7]. constructor; try assumption.
      * unfold queue_at in *. now rewrite Ei.
      * rewrite Eq. apply lookup_insert_eq.
      * unfold q'. cbn. apply Forall_app. split; [exact A5|]. constructor; [|constructor]. exists x. now split.
      * unfold load in Hsum. rewrite Q1 in Hsum. rewrite Hsum. fold (load c s k). lia.
      * now left.
    + intros n pd Hn. rewrite Esl in Hn. apply others_fine; try assumption; [now rewrite Es | now rewrite Er | tauto].
    + intros n. rewrite Esl. apply (fi_off _ _ _ _ _ Hf).
  - split; [left; split_and!; [reflexivity | exact Esl|] |].
    + unfold mails, handed_to. rewrite Er, Eq', fmap_app, app_assoc.
      change (payload <$> [letter x]) with [payload (letter x)]. now rewrite payload_letter.
    + intros k' Hk' Hne. apply mails_same; [now rewrite Er | now apply Q2].
Qed.

Lemma send_hands_fine q :
  queue_fine c s k q -> len x + load c s k <= CAPACITY -> q_receivers q <> [] ->
  exists s', msgsnd_retry e (qid c k) (qptr c k) (letter x) (len x) 0 s = OK (Some 0) s' /\
    fine c false 0 (off_after (pid c t) (Some (0, [])) s s' o) s' /\ send_effect t k x (Some 0) s s'.
Proof.
  intros Hq Hfit Hne. pose proof (calls_open e t s k q S_IWUGO Ha Hq Hk ltac:(now right)) as Hop.
  assert (Hroom : room q (len x) = true).
  { rewrite (room_fine _ _ _ _ _ _ _ Hf Hq Hx). apply Z.leb_le. lia. }
  pose proof (reader_state _ _ _ _ _ _ Hf Hk Hq) as Hrd. destruct (handed_to c s k) as [y|] eqn:Eh; [contradiction|].
  destruct Hrd as [Hrd|(Hrs & Hnil & r & Hr & Hrl & Hmo & Hty & Hmx & Hmsg & Hin)]; [contradiction|].
  set (n := pid c (reader k)) in *.
  destruct (send_hands e _ _ q (letter x) s n r (fi_inv _ _ _ _ _ Hf) Hop Hroom Hrs Hr Hrl)
    as (s' & E & Eq & Er & Es & Esl & Ew & Ei).
  { rewrite Hty, Hmo. reflexivity. }
  { rewrite Hmx. change (m_ts (letter x)) with (len x). unfold len. lia. }
  change (m_ts (letter x)) with (len x) in E. set (q' := passed _ _ _) in Eq.
  exists s'. split; [exact E|].
  destruct (queue_of_insert s s' k _ Hk Eq) as [Q1 Q2].
  assert (Qall : forall k', (k' < NQUEUES)%nat -> queue_of c s' k' = queue_of c s k').
  { intros k' Hk'. destruct (decide (k' = k)) as [->|Hne']; [|now apply Q2].
    rewrite Q1, (queue_of_eq s k q Hq). reflexivity. }
  assert (Hload : forall k', (k' < NQUEUES)%nat -> load c s k' <= load c s' k')
    by (intros k' Hk'; unfold load; rewrite Qall by exact Hk'; lia).
  rewrite (off_woke _ _ s s' o [n]) by exact Ew.
  split.
  - apply (fine_update true (0 + msg_blocks (letter x)) 0 o _ s s' k _ Hf (send_safe q _ _ Hq E) Hk Ei Eq).
    + destruct Hq as [A1 A2 A3 A4 A5 A6 A7]. constructor; try assumption.
      * unfold queue_at in *. now rewrite Ei.
      * rewrite Eq. apply lookup_insert_eq.
      * now left.
    + intros n' pd Hn. rewrite Esl in Hn. destruct (decide (n' = n)) as [->|Hn'].
      * destruct (fi_sleep _ _ _ _ _ Hf n pd Hn) as (t' & op & Et & Hp' & Epd & Hop'). exists t', op.
        split_and!; try assumption. destruct op as [k' y|k'].
        -- destruct Hop' as [(sd & Hsd & _) _].
           pose proof (inv_task _ _ _ _ (fi_inv _ _ _ _ _ Hf) n) as Htk. rewrite Hn, Epd in Htk. cbn in Htk.
           destruct Htk as (_ & _ & _ & Htk & _). congruence.
        -- rewrite Er, lookup_insert_eq. eexists. split; [reflexivity|]. cbn [r_mode r_msgtype r_maxsize r_msg finished].
           split_and!; try assumption.
           ++ exists x. now split.
           ++ rewrite off_except. tauto.
      * apply others_fine; try assumption; [now rewrite Es | now rewrite Er, lookup_insert_ne by congruence |].
        rewrite off_except. tauto.
    + intros n' Hn'. rewrite Esl. apply (fi_off _ _ _ _ _ Hf). now apply off_except in Hn'.
  - split; [left; split_and!; [reflexivity | exact Esl|] |].
    + unfold mails. rewrite Eh, Q1. unfold handed_to. rewrite Er. fold n. rewrite lookup_insert_eq.
      rewrite (queue_of_eq s k q Hq). change (q_messages q') with (q_messages q). rewrite Hnil.
      cbn [r_msg finished]. now rewrite payload_letter.
    + intros k' Hk' Hne'. apply mails_same; [|now apply Q2]. rewrite Er, lookup_insert_ne; [reflexivity|].
      intros En. apply (pid_inj c) in En. apply Hne'. symmetry. now apply reader_inj.
Qed.

Lemma send_fine :
  exists r s', msgsnd_retry e (qid c k) (qptr c k) (letter x) (len x) 0 s = OK r s' /\
    fine c false 0 (off_after (pid c t) (result_of (AnsSnd r)) s s' o) s' /\ send_effect t k x r s s'.
Proof.
  destruct (fi_queue _ _ _ _ _ Hf k Hk) as [q Hq].
  destruct (Z.lt_ge_cases CAPACITY (len x + load c s k)) as [Hfull|Hfit].
  - destruct (send_full_fine q Hq Hfull) as (s' & H). now exists None, s'.
  - exists (Some 0). destruct (q_receivers q) as [|n l] eqn:Er.
    + apply (send_queues_fine q Hq); [lia | exact Er].
    + apply (send_hands_fine q Hq); [lia | congruence].
Qed.
End Send.

(** ** A receive *)

Lemma recv_takes e id p q m l s :
  Inv false false 0 s -> opens e s id S_IRUGO p q -> env_ok e true -> q_messages q = m :: l -> is_letter m ->
  exists s', msgrcv_retry e id p (Z.of_nat MSGSZ) 1 SEARCH_EQUAL 0 true (locked s)
      = OK (Some (REPLY (m_ts m) (Some 1) (payload m))) s' /\
    queues s' = <[p := dequeued e 0 m q]> (queues s) /\ receivers s' = receivers s /\
    senders s' = senders s /\ sleeping s' = sleeping s /\ woken s' = rev (q_senders q) ++ woken s /\
    ids_entries (msg_ids s') = ids_entries (msg_ids s).
Proof.
  intros HI [Hid Hat Hp Hck Hpm] He Eq (x & -> & Hx). unfold msgrcv_retry.
  run (deref_q_eq p q (locked s) Hp). rewrite Hck, Hpm. cbn [negb Z.eqb].
  assert (Hs : search_msg 1 SEARCH_EQUAL (q_messages q) = Some 0%nat) by (rewrite Eq; reflexivity).
  rewrite Hs, Eq. cbn [lookup list_lookup].
  replace (Z.of_nat MSGSZ <? m_ts (letter x)) with false
    by (symmetry; apply Z.ltb_ge; change (m_ts (letter x)) with (len x); unfold len; lia).
  cbn [andb].
  match goal with |- context [upd_q p ?f] => change f with (dequeued e 0 (letter x)) end.
  run (upd_q_eq p (dequeued e 0 (letter x)) q (locked s) Hp). unfold bind at 1, modify.
  run (ss_wakeup_eq (q_senders q)
    (set_atomics (- m_ts (letter x)) (-1) (set_queues <[p:=dequeued e 0 (letter x) q]> (locked s)))).
  unfold ipc_unlock, spin_unlock. unfold bind at 1. cbn_sys. cbn [ids_ary ids_with_locks].
  unfold bind. rewrite msgrcv_success_eq by (apply letter_ok || assumption || (unfold MSGSZ; lia)).
  change (m_ts (letter x)) with (len x). rewrite payload_letter. change (m_type (letter x)) with 1.
  replace (Z.min (Z.of_nat MSGSZ) (len x)) with (len x) by (unfold len; lia).
  eexists. split; [unfold len; rewrite Nat2Z.id, take_ge by lia; reflexivity|]. split_and!; reflexivity.
Qed.

Lemma recv_sleeps e id p q s :
  Inv false false 0 s -> opens e s id S_IRUGO p q -> q_messages q = [] ->
  msgrcv_retry e id p (Z.of_nat MSGSZ) 1 SEARCH_EQUAL 0 true (locked s)
    = OK None (unlocked (slept_rcv (e_pid e) p q
        (RCV (Some p) (e_pid e) SEARCH_EQUAL 1 (Z.of_nat MSGSZ) (inr (- EAGAIN)))
        (PRcv id p (Z.of_nat MSGSZ) 1 SEARCH_EQUAL 0 true) (locked s))).
Proof.
  intros HI [Hid Hat Hp Hck Hpm] Eq. unfold msgrcv_retry. run (deref_q_eq p q (locked s) Hp).
  rewrite Hck, Hpm, Eq. cbn [negb Z.eqb]. change (search_msg 1 SEARCH_EQUAL []) with (@None nat). cbn beta iota.
  change (negb (Z.land 0 IPC_NOWAIT =? 0)) with false. cbn beta iota.
  run (upd_q_eq p (fun q => msq_with_receivers (q_receivers q ++ [e_pid e]) q) q (locked s) Hp).
  unfold bind at 1, modify at 1. unfold ipc_unlock, spin_unlock. unfold bind at 1. cbn_sys.
  cbn [ids_ary ids_with_locks]. reflexivity.
Qed.

(** The effect of a receive on the queues. *)
Definition recv_effect (t : task) (k : nat) (r : option SysvMsg.reply) (s s' : sys) : Prop :=
  ((exists x, r = Some (REPLY (len x) (Some 1) x) /\ sleeping s' !! pid c t = None /\
      mails s k = x :: mails s' k) \/
   (r = None /\ sleeping s' !! pid c t = Some (pending_call c (Rcv k)) /\ mails s k = [] /\ mails s' k = [])) /\
  (forall n, n <> pid c t -> sleeping s' !! n = sleeping s !! n) /\
  (forall k', (k' < NQUEUES)%nat -> k' <> k -> mails s' k' = mails s k').

Section Receive.
Context (o : gset Z) (s : sys) (e : env) (k : nat).
Hypothesis Hf : fine c false 0 o s.
Hypothesis Ha : calls_as c (reader k) e.
Hypothesis Hk : (k < NQUEUES)%nat.

Section Call.
Hypothesis Hsl : sleeping s !! pid c (reader k) = None.

Lemma recv_safe q r s' :
  queue_fine c s k q ->
  msgrcv_retry e (qid c k) (qptr c k) (Z.of_nat MSGSZ) 1 SEARCH_EQUAL 0 true (locked s) = OK r s' ->
  Inv false false 0 s'.
Proof.
  intros Hq E. destruct Ha as (Ep & _).
  destruct (msgrcv_retry_safe e (qid c k) (qptr c k) (Z.of_nat MSGSZ) 1 SEARCH_EQUAL 0 true 0 (locked s)
    (Inv_locked _ _ _ (fi_inv _ _ _ _ _ Hf)) (qf_at _ _ _ _ Hq) (qid_pos c k Hk) ltac:(now rewrite Ep))
    as (r' & s2 & E' & HI & _).
  rewrite E in E'. injection E' as <- <-. exact HI.
Qed.

Lemma idle_unhanded : handed_to c s k = None.
Proof.
  destruct (Inv_awake _ _ _ _ _ (fi_inv _ _ _ _ _ Hf) Hsl) as (_ & Hr & _). unfold handed_to. now rewrite Hr.
Qed.

(** Those who sleep in a send on queue [k] are on its list; those who sleep in
    a receive are on no list of senders. *)
Lemma sender_linked q n k' y :
  queue_fine c s k q -> sleeping s !! n = Some (pending_call c (Snd k' y)) ->
  sleeper_fine c s o n (pending_call c (Snd k' y)) -> (k' < NQUEUES)%nat -> k' = k -> n ∈ q_senders q.
Proof.
  intros Hq Hn (t & op & En & Hp & Epd & Hop) Hk' ->. symmetry in Epd.
  destruct (pending_call_snd _ _ _ _ Epd) as (k2 & -> & Ei). destruct Hp as (_ & Hk2 & _).
  destruct (fi_queue _ _ _ _ _ Hf k2 Hk2) as [q2 Hq2].
  assert (k2 = k) as -> by exact (qid_inj s k2 k q2 q Hq2 Hq Hk2 Hk Ei).
  apply (lw_snd _ _ _ _ (inv_link _ _ _ _ (fi_inv _ _ _ _ _ Hf) _ _ (qf_queue _ _ _ _ Hq))). apply Hop.
Qed.

Lemma receiver_unlinked q n k' :
  queue_fine c s k q -> sleeping s !! n = Some (pending_call c (Rcv k')) -> n ∉ q_senders q.
Proof.
  intros Hq Hn Hin. apply (lw_snd _ _ _ _ (inv_link _ _ _ _ (fi_inv _ _ _ _ _ Hf) _ _ (qf_queue _ _ _ _ Hq))) in Hin
    as (m & Hm & _).
  pose proof (inv_task _ _ _ _ (fi_inv _ _ _ _ _ Hf) n) as Ht. rewrite Hn in Ht. cbn in Ht.
  destruct Ht as (_ & Hs & _). congruence.
Qed.

Lemma recv_takes_fine q m l :
  queue_fine c s k q -> q_messages q = m :: l ->
  exists r s', msgrcv_retry e (qid c k) (qptr c k) (Z.of_nat MSGSZ) 1 SEARCH_EQUAL 0 true (locked s) = OK r s' /\
    fine c false 0 (off_after (pid c (reader k)) (result_of (AnsRcv r)) s s' o) s' /\
    recv_effect (reader k) k r s s'.
Proof.
  intros Hq Em. pose proof (calls_open e _ s k q S_IRUGO Ha Hq Hk ltac:(now left)) as Hop.
  pose proof (qf_letters _ _ _ _ Hq) as Hl. rewrite Em in Hl. inversion_clear Hl as [|? ? Hm Hl'].
  destruct Ha as (Ep & Henv & _).
  destruct (recv_takes e _ _ q m l s (fi_inv _ _ _ _ _ Hf) Hop Henv Em Hm) as (s' & E & Eq & Er & Es & Esl & Ew & Ei).
  eexists _, s'. split; [exact E|].
  destruct (queue_of_insert s s' k _ Hk Eq) as [Q1 Q2].
  assert (Q1' : queue_of c s' k = l) by (rewrite Q1; cbn; now rewrite Em).
  cbn [result_of]. rewrite (off_woke _ _ s s' o _) by exact Ew.
  assert (Ho : forall n, n ∈ o ∖ list_to_set (rev (q_senders q)) <-> n ∈ o /\ (n ∉ q_senders q)).
  { intros n. rewrite elem_of_difference, elem_of_list_to_set, <- Permutation_rev. reflexivity. }
  split.
  - apply (fine_update false 0 0 o _ s s' k _ Hf (recv_safe q _ _ Hq E) Hk Ei Eq).
    + pose proof (letters_size _ Hl') as [Hl0 _]. destruct Hm as (x & -> & Hx).
      destruct Hq as [A1 A2 A3 A4 A5 A6 A7]. constructor; try assumption.
      * unfold queue_at in *. now rewrite Ei.
      * rewrite Eq. apply lookup_insert_eq.
      * cbn. now rewrite Em.
      * cbn. rewrite Em in *. cbn. rewrite sumZ_cons in A6. change (m_ts (letter x)) with (len x) in A6. unfold len in A6. lia.
      * cbn. destruct A7 as [A7|[_ A7]]; [now left | congruence].
    + intros n pd Hn. rewrite Esl in Hn. pose proof (fi_sleep _ _ _ _ _ Hf n pd Hn) as Hsf.
      apply (sleeper_kept s s' o); [exact Hsf | now rewrite Es | now rewrite Er | |].
      * intros k' Epd. rewrite Ho. rewrite Epd in Hn. pose proof (receiver_unlinked q n k' Hq Hn). tauto.
      * intros k' y Epd Hk' Hin. apply Ho in Hin as [Hin Hns]. split; [exact Hin|].
        destruct (decide (k' = k)) as [E'|Hne].
        -- subst pd. destruct Hns. exact (sender_linked q n k' y Hq Hn Hsf Hk' E').
        -- unfold load. rewrite Q2 by assumption. lia.
    + intros n. rewrite Esl, Ho. intros [Hn _]. now apply (fi_off _ _ _ _ _ Hf).
  - split_and!.
    + left. exists (payload m). destruct Hm as (x & -> & Hx). rewrite payload_letter. split_and!.
      * reflexivity.
      * now rewrite Esl.
      * unfold mails. unfold handed_to at 2. rewrite Er. fold (handed_to c s k). rewrite idle_unhanded, Q1'.
        rewrite (queue_of_eq s k q Hq), Em. cbn [option_list app fmap list_fmap]. now rewrite payload_letter.
    + intros n _. now rewrite Esl.
    + intros k' Hk' Hne. apply mails_same; [now rewrite Er | now apply Q2].
Qed.

Lemma recv_sleeps_fine q :
  queue_fine c s k q -> q_messages q = [] ->
  exists r s', msgrcv_retry e (qid c k) (qptr c k) (Z.of_nat MSGSZ) 1 SEARCH_EQUAL 0 true (locked s) = OK r s' /\
    fine c false 0 (off_after (pid c (reader k)) (result_of (AnsRcv r)) s s' o) s' /\
    recv_effect (reader k) k r s s'.
Proof.
  intros Hq Em. pose proof (calls_open e _ s k q S_IRUGO Ha Hq Hk ltac:(now left)) as Hop.
  pose proof (recv_sleeps e _ _ q s (fi_inv _ _ _ _ _ Hf) Hop Em) as E. destruct Ha as (Ep & _). rewrite Ep in E.
  set (n := pid c (reader k)) in *.
  set (s' := unlocked _) in E. eexists _, s'. split; [exact E|].
  assert (Hnr : q_receivers q = []).
  { destruct (Inv_awake _ _ _ _ _ (fi_inv _ _ _ _ _ Hf) Hsl) as (_ & _ & Hl).
    destruct (Hl _ _ (qf_queue _ _ _ _ Hq)) as [_ Hn]. destruct (qf_readers _ _ _ _ Hq) as [|[Er _]]; [assumption|].
    rewrite Er in Hn. destruct Hn. constructor. }
  assert (Eq : queues s' = <[qptr c k := msq_with_receivers (q_receivers q ++ [n]) q]> (queues s)) by reflexivity.
  destruct (queue_of_insert s s' k _ Hk Eq) as [Q1 Q2].
  assert (Qall : forall k', (k' < NQUEUES)%nat -> queue_of c s' k' = queue_of c s k').
  { intros k' Hk'. destruct (decide (k' = k)) as [->|Hne]; [|now apply Q2].
    rewrite Q1, (queue_of_eq s k q Hq). reflexivity. }
  cbn [result_of]. rewrite (off_slept n s s' o) by reflexivity.
  split.
  - apply (fine_update false 0 0 o _ s s' k _ Hf (recv_safe q _ _ Hq E) Hk eq_refl Eq).
    + destruct Hq as [A1 A2 A3 A4 A5 A6 A7]. constructor; try assumption.
      * rewrite Eq. apply lookup_insert_eq.
      * right. cbn. rewrite Hnr. now split.
    + intros n' pd Hn'. cbn in Hn'. apply lookup_insert_Some in Hn' as [[<- <-]|[Hne Hn']].
      * exists (reader k), (Rcv k). split_and!; try reflexivity; [now split|].
        eexists. split; [apply lookup_insert_eq|]. cbn. split_and!; try reflexivity.
        apply elem_of_union. right. now apply elem_of_singleton.
      * apply (sleeper_kept s s' o); [now apply (fi_sleep _ _ _ _ _ Hf) | reflexivity | cbn; now rewrite lookup_insert_ne | |].
        -- intros k' _. apply off_other. congruence.
        -- intros k' y _ Hk' Hin. apply off_other in Hin; [|congruence]. split; [exact Hin|].
           unfold load. rewrite Qall by exact Hk'. lia.
    + intros n'. cbn. rewrite lookup_insert_is_Some', elem_of_union, elem_of_singleton.
      intros [Hn'| ->]; [right; now apply (fi_off _ _ _ _ _ Hf) | now left].
  - split_and!.
    + right. unfold mails. rewrite idle_unhanded, (queue_of_eq s k q Hq), Em, Q1. split_and!; try reflexivity.
      * cbn. apply lookup_insert_eq.
      * unfold handed_to. cbn. rewrite lookup_insert_eq. cbn. now rewrite Em.
    + intros n' Hne. cbn. rewrite lookup_insert_ne; [reflexivity|]. intros En. now apply Hne.
    + intros k' Hk' Hne. apply mails_same; [|now apply Qall]. cbn. rewrite lookup_insert_ne; [reflexivity|].
      intros En. apply (pid_inj c) in En. apply Hne. symmetry. now apply reader_inj.
Qed.
End Call.

Lemma fine_heap ary d b o' s' : fine c ary d o' s' -> fine c ary (d + b) o' (add_heap b s').
Proof.
  intros [A B C D]. constructor; [now apply Inv_heap| |exact C | exact D].
  intros k' Hk'. destruct (B k' Hk') as (q & []). exists q. constructor; assumption.
Qed.

(** A reader that was handed a message returns with it. *)
Lemma recv_resumes :
  sleeping s !! pid c (reader k) = Some (pending_call c (Rcv k)) -> pid c (reader k) ∉ o ->
  exists r s', run_call e Resume s = OK (AnsRcv r) s' /\
    fine c false 0 (off_after (pid c (reader k)) (result_of (AnsRcv r)) s s' o) s' /\
    recv_effect (reader k) k r s s'.
Proof.
  intros Hsl Hno. set (n := pid c (reader k)) in *. pose proof (fi_inv _ _ _ _ _ Hf) as HI.
  destruct Ha as (Ep & Henv & _). fold n in Ep.
  destruct (receiver_forget _ _ _ s n _ _ _ _ _ _ _ HI Hsl) as (Hid & r & Hr & HF & Hcase).
  destruct (fi_sleep _ _ _ _ _ Hf n _ Hsl) as (t & op & En & Hp & Epd & Hop). symmetry in Epd.
  destruct (pending_call_rcv _ _ _ Epd) as (k2 & -> & _). destruct Hop as (r' & Hr' & _ & _ & _ & Hmsg).
  assert (r' = r) as -> by congruence. destruct (r_msg r) as [m|err] eqn:Erm; [|destruct Hmsg; contradiction].
  destruct Hmsg as [(x & -> & Hx) _]. destruct Hcase as [Hm Hforget].
  assert (E : run_call e Resume s = OK (AnsRcv (Some (REPLY (len x) (Some 1) x)))
                (add_heap (- msg_blocks (letter x)) (forget n s))).
  { cbn [run_call]. unfold bind at 1, get. rewrite Ep, Hsl. unfold resume, bind at 1, modify at 1. rewrite Ep.
    cbn [pending_call]. unfold msgrcv_resume. unfold bind at 1. unfold bind at 1. set (s0 := set_sleeping (delete n) s) in *.
    rewrite (ipc_lock_eq (qid c k) s0 Hid (inv_ids _ _ _ _ HI) (inv_ary _ _ _ _ HI)).
    assert (Hary : ids_ary (msg_ids s0) = false) by apply HI.
    pose proof (resume_exit (queue_at (msg_ids s0) (qid c k)) (qid c k) n
      (let! rp := msgrcv_success e (letter x) (Z.of_nat MSGSZ) true in ret (Some rp)) s0 Hid Hary) as Hex.
    rewrite Hforget in Hex.
    assert (Hsucc : (let! rp := msgrcv_success e (letter x) (Z.of_nat MSGSZ) true in ret (Some rp)) (forget n s)
       = OK (Some (REPLY (len x) (Some 1) x)) (add_heap (- msg_blocks (letter x)) (forget n s))).
    { unfold bind. rewrite msgrcv_success_eq by (apply letter_ok || assumption || (unfold MSGSZ; lia)).
      change (m_ts (letter x)) with (len x). rewrite payload_letter. change (m_type (letter x)) with 1.
      replace (Z.min (Z.of_nat MSGSZ) (len x)) with (len x) by (unfold len; lia).
      unfold len at 2. rewrite Nat2Z.id, take_ge by lia. reflexivity. }
    rewrite Hsucc in Hex. rewrite Ep.
    destruct (queue_at (msg_ids s0) (qid c k)); cbn beta iota; unfold bind at 1, deref_r;
      change (receivers (locked s0)) with (receivers s); change (receivers s0) with (receivers s);
      rewrite Hr, Erm, Hex; reflexivity. }
  eexists _, _. split; [exact E|]. cbn [result_of rp_ret rp_mtext].
  assert (Enone : handed_to c (add_heap (- msg_blocks (letter x)) (forget n s)) k = None).
  { unfold handed_to. cbn. fold n. now rewrite lookup_delete_eq. }
  rewrite (off_woke _ _ s _ o []) by reflexivity. cbn [list_to_set]. rewrite difference_empty_L.
  split.
  - pose proof (fine_forget false 0 _ o s n Hf HF Hno) as HG.
    apply (fine_heap _ _ (- msg_blocks (letter x))) in HG. unfold rcv_blocks in HG. rewrite Erm in HG.
    now rewrite Z.add_0_l, Z.add_opp_diag_r in HG.
  - split_and!.
    + left. exists x. split_and!; [reflexivity | cbn; apply lookup_delete_eq|].
      unfold mails. rewrite Enone. change (queue_of c (add_heap _ (forget n s)) k) with (queue_of c (forget n s) k).
      rewrite queue_of_forget. unfold handed_to. fold n. rewrite Hr, Erm. cbn [option_list app].
      now rewrite payload_letter.
    + intros n' Hne. cbn. rewrite lookup_delete_ne; [reflexivity|]. intros En'. now apply Hne.
    + intros k' Hk' Hne. apply mails_same; [|apply queue_of_forget].
      cbn. rewrite lookup_delete_ne; [reflexivity|]. intros En'. apply (pid_inj c) in En'. apply Hne. symmetry. now apply reader_inj.
Qed.
End Receive.

(** ** The calls, from their entry and from a sleep *)

(** A task inside a call of the module. *)
Definition steps (t : task) (op : op) (e : env) (s : sys) : res sys fault_kind answer :=
  if decide (sleeping s !! pid c t = None) then run_call e (call_of c op) s else run_call e Resume s.

(** The effect of a step on the sleepers and the queues, as the service sees
    it. *)
Definition step_effect (t : task) (op : op) (r : option (Z * text)) (s s' : sys) : Prop :=
  (forall n, n <> pid c t -> sleeping s' !! n = sleeping s !! n) /\
  match op with
  | Snd k x =>
      ((r = Some (0, []) /\ sleeping s' !! pid c t = None /\ mails s' k = mails s k ++ [x]) \/
       (r = None /\ sleeping s' !! pid c t = Some (pending_call c op) /\ mails s' k = mails s k /\
        CAPACITY < len x + load c s k)) /\
      (forall k', (k' < NQUEUES)%nat -> k' <> k -> mails s' k' = mails s k')
  | Rcv k =>
      ((exists x, r = Some (len x, x) /\ sleeping s' !! pid c t = None /\ mails s k = x :: mails s' k) \/
       (r = None /\ sleeping s' !! pid c t = Some (pending_call c op) /\ mails s k = [] /\ mails s' k = [])) /\
      (forall k', (k' < NQUEUES)%nat -> k' <> k -> mails s' k' = mails s k')
  end.

Lemma send_step o s t e k x :
  fine c false 0 o s -> calls_as c t e -> proper t (Snd k x) -> sleeping s !! pid c t = None ->
  exists a s', run_call e (call_of c (Snd k x)) s = OK a s' /\
    fine c false 0 (off_after (pid c t) (result_of a) s s' o) s' /\
    step_effect t (Snd k x) (result_of a) s s'.
Proof.
  intros Hf Ha Hpr Hsl. pose proof Hpr as (_ & Hk & Hx). destruct (fi_queue _ _ _ _ _ Hf k Hk) as [q Hq].
  pose proof (calls_open e t s k q S_IWUGO Ha Hq Hk ltac:(now right)) as Hop. pose proof Ha as (Ep & Henv & _).
  destruct (rt_msgsnd_enter e (qid c k) 1 x (len x) 0 true (qptr c k) q s (fi_inv _ _ _ _ _ Hf) Hop Henv
    ltac:(lia) ltac:(unfold len, msg_ctlmax, MSGMAX, MSGSZ in *; lia)) as (_ & _ & _ & E).
  set (s1 := locked _) in E. pose proof (fine_locked o s (0 + msg_blocks (letter x)) Hf) as Hf1.
  rewrite Z.add_0_l in Hf1 at 2. change (locked (add_heap (msg_blocks (letter x)) s)) with s1 in Hf1.
  destruct (send_fine o s1 t e k x Hf1 Ha Hsl Hpr) as (r & s' & E' & Hf' & Heff & Hoth).
  exists (AnsSnd r), s'. split_and!.
  - cbn [run_call call_of]. unfold bind. rewrite E. change (made 1 x (len x)) with (letter x). now rewrite E'.
  - exact Hf'.
  - split.
    { intros n Hn. destruct Heff as [(_ & -> & _)|(_ & -> & _)]; [reflexivity|]. now rewrite lookup_insert_ne by congruence. }
    split; [|exact Hoth]. destruct Heff as [(-> & Es & Em)|(-> & Es & Em & Hl)]; [left | right]; split_and!; try (reflexivity || assumption).
    + rewrite Es. exact Hsl.
    + rewrite Es. apply lookup_insert_eq.
Qed.

Lemma send_resume o s t e k x :
  fine c false 0 o s -> calls_as c t e -> proper t (Snd k x) ->
  sleeping s !! pid c t = Some (pending_call c (Snd k x)) -> pid c t ∉ o ->
  exists a s', run_call e Resume s = OK a s' /\
    fine c false 0 (off_after (pid c t) (result_of a) s s' o) s' /\
    step_effect t (Snd k x) (result_of a) s s'.
Proof.
  intros Hf Ha Hpr Hsl Hno. pose proof Hpr as (_ & Hk & Hx). destruct (fi_queue _ _ _ _ _ Hf k Hk) as [q Hq].
  pose proof (fi_inv _ _ _ _ _ Hf) as HI. pose proof Ha as (Ep & Henv & Hsig & _). set (n := pid c t) in *.
  destruct (sender_forget _ _ _ (locked s) n _ _ _ _ (Inv_locked _ _ _ HI) Hsl) as (Hid & Hm & _ & Ed & _ & HF).
  set (s1 := forget n (locked s)) in *.
  assert (Hf1 : fine c true (0 + msg_blocks (letter x)) o s1).
  { apply (fine_forget true 0); try assumption.
    pose proof (fine_locked o s 0 Hf) as HL. now rewrite add_heap_0 in HL. }
  destruct (send_fine o s1 t e k x Hf1 Ha (forget_awake n (locked s)) Hpr) as (r & s' & E' & Hf' & Heff & Hoth).
  assert (Hrn : receivers s !! n = None).
  { pose proof (inv_task _ _ _ _ HI n) as Hw. rewrite Hsl in Hw. cbn in Hw. apply Hw. }
  assert (Hmails : forall k', mails s1 k' = mails s k').
  { intros k'. apply mails_same; [|exact (queue_of_forget (locked s) n k')]. unfold s1. cbn.
    destruct (decide (pid c (reader k') = n)) as [->|Hne]; [now rewrite lookup_delete_eq|].
    now rewrite lookup_delete_ne by congruence. }
  assert (Hload : load c s1 k = load c s k) by exact (f_equal (sumZ m_ts) (queue_of_forget (locked s) n k)).
  exists (AnsSnd r), s'. split_and!.
  - cbn [run_call]. unfold bind at 1, get. rewrite Ep, Hsl. unfold resume, bind at 1, modify at 1. rewrite Ep.
    cbn [pending_call]. unfold bind at 1. unfold msgsnd_resume. unfold bind at 1. set (s0 := set_sleeping (delete n) s).
    rewrite (ipc_lock_eq (qid c k) s0 Hid (inv_ids _ _ _ _ HI) (inv_ary _ _ _ _ HI)).
    change (queue_at (msg_ids s0) (qid c k)) with (queue_at (msg_ids s) (qid c k)). rewrite (qf_at _ _ _ _ Hq).
    rewrite Ep. change (set_sleeping (delete n) (locked s)) with (locked s0) in Ed. unfold bind at 1 in Ed. unfold bind at 1.
    destruct (ss_del n (locked s0)) as [[] s2|] eqn:E1; [|discriminate]. unfold bind at 1. rewrite Ed, Hsig.
    fold s1. now rewrite E'.
  - exact Hf'.
  - split.
    { intros n' Hne. assert (Hs1 : sleeping s1 !! n' = sleeping s !! n') by (unfold s1; cbn; rewrite lookup_delete_ne; [reflexivity | intros En; now apply Hne]).
      destruct Heff as [(_ & -> & _)|(_ & -> & _)]; [exact Hs1|]. rewrite lookup_insert_ne; [exact Hs1 | intros En; now apply Hne]. }
    split; [|intros k' Hk' Hne; now rewrite Hoth, Hmails by assumption].
    rewrite Hmails, Hload in Heff.
    destruct Heff as [(-> & Es & Em)|(-> & Es & Em & Hl)]; [left | right]; split_and!; try (reflexivity || assumption).
    + rewrite Es. apply lookup_delete_eq.
    + rewrite Es. apply lookup_insert_eq.
Qed.

Lemma recv_step o s t e k :
  fine c false 0 o s -> calls_as c t e -> proper t (Rcv k) -> sleeping s !! pid c t = None ->
  exists a s', run_call e (call_of c (Rcv k)) s = OK a s' /\
    fine c false 0 (off_after (pid c t) (result_of a) s s' o) s' /\
    step_effect t (Rcv k) (result_of a) s s'.
Proof.
  intros Hf Ha [Hk ->] Hsl. destruct (fi_queue _ _ _ _ _ Hf k Hk) as [q Hq].
  pose proof (calls_open e _ s k q S_IRUGO Ha Hq Hk ltac:(now left)) as Hop.
  pose proof (rt_msgrcv_enter e (qid c k) (Z.of_nat MSGSZ) 1 0 true (qptr c k) q s (fi_inv _ _ _ _ _ Hf) Hop
    ltac:(lia) ltac:(unfold MSGSZ; lia)) as E. change (snd (convert_mode 1 0)) with 1 in E.
  change (fst (convert_mode 1 0)) with SEARCH_EQUAL in E.
  assert (Hr : exists r s', msgrcv_retry e (qid c k) (qptr c k) (Z.of_nat MSGSZ) 1 SEARCH_EQUAL 0 true (locked s) = OK r s' /\
    fine c false 0 (off_after (pid c (reader k)) (result_of (AnsRcv r)) s s' o) s' /\ recv_effect (reader k) k r s s').
  { destruct (q_messages q) as [|m l] eqn:Em.
    - exact (recv_sleeps_fine o s e k Hf Ha Hk Hsl q Hq Em).
    - exact (recv_takes_fine o s e k Hf Ha Hk Hsl q m l Hq Em). }
  destruct Hr as (r & s' & E' & Hf' & Heff & Hoth & Hm). exists (AnsRcv r), s'. split_and!; try assumption.
  - cbn [run_call call_of]. unfold bind. now rewrite E, E'.
  - split; [exact Hoth|]. split; [|exact Hm]. destruct Heff as [(x & -> & Hx)|(-> & Hx)]; [left; exists x | right]; now split.
Qed.

Lemma recv_resume o s t e k :
  fine c false 0 o s -> calls_as c t e -> proper t (Rcv k) ->
  sleeping s !! pid c t = Some (pending_call c (Rcv k)) -> pid c t ∉ o ->
  exists a s', run_call e Resume s = OK a s' /\
    fine c false 0 (off_after (pid c t) (result_of a) s s' o) s' /\
    step_effect t (Rcv k) (result_of a) s s'.
Proof.
  intros Hf Ha [Hk ->] Hsl Hno.
  destruct (recv_resumes o s e k Hf Ha Hk Hsl Hno) as (r & s' & E & Hf' & Heff & Hoth & Hm).
  exists (AnsRcv r), s'. split_and!; try assumption.
  split; [exact Hoth|]. split; [|exact Hm]. destruct Heff as [(x & -> & Hx)|(-> & Hx)]; [left; exists x | right]; now split.
Qed.

(** A task that may go runs its call to the return or to the next sleep. *)
Lemma steps_fine o s t op e :
  fine c false 0 o s -> calls_as c t e -> proper t op ->
  sleeping s !! pid c t = None \/ sleeping s !! pid c t = Some (pending_call c op) /\ (pid c t ∉ o) ->
  exists a s', steps t op e s = OK a s' /\ fine c false 0 (off_after (pid c t) (result_of a) s s' o) s' /\
    step_effect t op (result_of a) s s'.
Proof.
  intros Hf Ha Hpr Hsl. unfold steps. destruct Hsl as [Hsl|[Hsl Hno]].
  - rewrite decide_True by exact Hsl. destruct op; [now apply send_step | now apply recv_step].
  - rewrite decide_False by congruence. destruct op; [now apply send_resume | now apply recv_resume].
Qed.
End Sysv.

(** ** The module obeys the laws *)

(** What a step of the module is for the service. *)
Lemma effect_of_go (c : setup) (w : world) t op r w' :
  fine c false 0 (off w) (module w) -> proper t op -> may_go (Mail0 := sysv_mail c) w t op ->
  go (Mail := sysv_mail c) t op w r w' ->
  fine c false 0 (off w') (module w') /\ effect (Mail0 := sysv_mail c) t op w r w'.
Proof.
  intros Hok Hpr Hmay (e & a & s' & Ha & E & -> & ->).
  destruct (steps_fine c (off w) (module w) t op e Hok Ha Hpr Hmay) as (a' & s2 & E' & Hf & Hoth & Heff).
  unfold steps in E'. assert (a' = a /\ s2 = s') as [-> ->] by (case_decide; rewrite E in E'; injection E' as <- <-; auto).
  split; [exact Hf|].
  assert (Hside : forall t', t' <> t -> (sleeping (module w) !! pid c t' = None -> sleeping s' !! pid c t' = None) /\
    (forall o, sleeping (module w) !! pid c t' = Some (pending_call c o) -> sleeping s' !! pid c t' = Some (pending_call c o))).
  { intros t' Hne. rewrite Hoth by (intros E0; apply Hne; now apply (pid_inj c)). auto. }
  destruct op as [k x|k]; destruct Heff as [Heff Hm]; (split; [|split; [exact Hside | exact Hm]]); [|exact Heff].
  destruct Heff as [H1|(H1 & H2 & H3 & H4)]; [now left | right]. split_and!; try assumption.
  destruct Hpr as (_ & Hk & _). destruct (fi_queue _ _ _ _ _ Hok k Hk) as [q Hq].
  cbn [queued sysv_mail]. rewrite letters_bytes; [exact H4|]. rewrite (queue_of_eq c _ k q Hq). apply Hq.
Qed.

#[export] Instance sysv_mail_laws (c : setup) (callers : forall t, exists e, calls_as c t e) : @MailLaws world (sysv_mail c).
Proof.
  split.
  - intros w t op Hok Hpr Hmay. destruct (callers t) as [e Ha].
    destruct (steps_fine c (off w) (module w) t op e Hok Ha Hpr Hmay) as (a & s' & E & _).
    eexists _, _, e, a, s'. split; [exact Ha|]. split; [|split; reflexivity].
    unfold steps in E. now case_decide.
  - intros w t op r w' Hok Hpr Hmay Hgo. exact (effect_of_go c w t op r w' Hok Hpr Hmay Hgo).
  - intros w t k x Hok (_ & Hk & Hx) Hw Ha. destruct (fi_queue _ _ _ _ _ Hok k Hk) as [q Hq].
    destruct (fi_sleep _ _ _ _ _ Hok _ _ Hw) as (t' & op & _ & Hp & Epd & Hop). symmetry in Epd.
    destruct (pending_call_snd _ _ _ _ Epd) as (k2 & -> & Ei). destruct Hp as (_ & Hk2 & _).
    destruct (fi_queue _ _ _ _ _ Hok k2 Hk2) as [q2 Hq2].
    assert (k2 = k) as -> by exact (qid_inj c _ k2 k q2 q Hq2 Hq Hk2 Hk Ei).
    cbn [queued sysv_mail]. rewrite letters_bytes; [now apply Hop|]. rewrite (queue_of_eq c _ k q Hq). apply Hq.
  - intros w t k Hok [Hk ->] Hw Ha. destruct (fi_queue _ _ _ _ _ Hok k Hk) as [q Hq].
    destruct (fi_sleep _ _ _ _ _ Hok _ _ Hw) as (t' & op & _ & Hp & Epd & Hop). symmetry in Epd.
    destruct (pending_call_rcv _ _ _ Epd) as (k2 & -> & Ei). destruct Hop as (r & Hr & _ & _ & _ & Hmsg).
    cbn [asleep sysv_mail] in Ha. destruct (r_msg r) as [m|err] eqn:Em; [destruct Hmsg; contradiction|].
    destruct Hmsg as [-> _]. change (mails c (module w) k = []).
    pose proof (reader_state c _ _ _ _ _ _ Hok Hk Hq) as Hrd.
    assert (En : handed_to c (module w) k = None) by (unfold handed_to; now rewrite Hr, Em).
    rewrite En in Hrd. unfold mails. rewrite En, (queue_of_eq c _ k q Hq).
    destruct Hrd as [Hnil|(_ & -> & _)]; [exfalso|reflexivity].
    pose proof (inv_task _ _ _ _ (fi_inv _ _ _ _ _ Hok) (pid c (reader k))) as Ht. cbn [waits sysv_mail] in Hw. rewrite Hw in Ht.
    cbn in Ht. destruct Ht as (_ & _ & r' & Hr' & _ & Hl). assert (r' = r) as -> by congruence. rewrite Em in Hl.
    destruct (Hl eq_refl) as [Hl1 _].
    assert (Hin : pid c (reader k) ∈ q_receivers q).
    { apply (lw_rcv _ _ _ _ (inv_link _ _ _ _ (fi_inv _ _ _ _ _ Hok) _ _ (qf_queue _ _ _ _ Hq))). exists r. now split_and!. }
    rewrite Hnil in Hin. now apply elem_of_nil in Hin.
  - intros w k Hok Hk. destruct (fi_queue _ _ _ _ _ Hok k Hk) as [q Hq].
    cbn [queued sysv_mail]. rewrite letters_bytes; rewrite (queue_of_eq c _ k q Hq); apply Hq.
Qed.
