(* ===== verification/TestmsgModule.v ===== *)
(** * testmsg over the module: the queues are made, used and removed

    What [main] does before and after the tasks: the [rt_msgget] calls that
    make the queues and the [rt_msgctl] calls that remove them, and a module in
    which the eleven queues were just made. *)

From stdpp Require Import base tactics numbers list gmap relations.
From S2P Require Import Prelude.
From S2P Require Import SysvState.
From S2P Require Import IpcUtil.
From S2P Require Import IpcFacts.
From S2P Require Import SysvMsg.
From S2P Require Import MsgText.
From S2P Require Import SysvInv.
From S2P Require Import SysvOps.
From S2P Require Import SysvTransfer.
From S2P Require Import SysvSearch.
From S2P Require Import SysvSystem.
From S2P Require Import SysvEffects.
From S2P Require Import SysvTheorems.
From S2P Require Import MailService Testmsg TestmsgFacts TestmsgInv TestmsgSteps TestmsgRun.
From S2P Require Import SysvMail.

(** ** Creation *)

(** [0x666 | IPC_CREAT], with the hexadecimal the code has. *)
Definition create_flags : Z := Z.lor 1638 IPC_CREAT.

(** The calls of [main] that make [smbx] and the [rmbx]; [keys] are the names
    through [nam2num]. *)
Fixpoint create_queues (e : env) (keys : list Z) : cmd (list Z) :=
  match keys with
  | [] => ret []
  | key :: keys' =>
      let! id := rt_msgget e key create_flags in
      let! ids := create_queues e keys' in
      ret (id :: ids)
  end.

(** The flags ask for a queue that is new: one left behind is not taken. *)
Lemma left_behind_refused e key s id p q :
  reachable s -> names s id p q -> p_key (q_perm q) = key -> key <> IPC_PRIVATE ->
  rt_msgget e key create_flags s = OK (- EEXIST) s.
Proof.
  intros Hr Hn Hk Hp. exact (msgget_existing e key create_flags s id p q (reachable_Inv s Hr) Hn Hk Hp).
Qed.

(** The mode they give, 0146, refuses its owner what it grants the others:
    without [CAP_IPC_OWNER] the program cannot send on the queues it made. *)
Lemma owner_refused e q :
  p_mode (q_perm q) = Z.land create_flags S_IRWXUGO -> e_euid e = p_cuid (q_perm q) ->
  e_capable e CAP_IPC_OWNER = false ->
  ipcperms e (q_perm q) S_IWUGO = -1 /\ ipcperms e (q_perm q) S_IRUGO = -1.
Proof.
  intros Hm Hu Hc. unfold ipcperms. rewrite Hm, Hu, Hc, Z.eqb_refl. split; reflexivity.
Qed.

(** ** Removal *)

(** The calls of [main] after the tasks have ended. *)
Fixpoint remove_queues (e : env) (ids : list Z) : cmd (list Z) :=
  match ids with
  | [] => ret []
  | id :: ids' =>
      let! r := _rt_msgctl e id IPC_RMID BufNull true in
      let! rs := remove_queues e ids' in
      ret (fst r :: rs)
  end.

(** Every [rmbx], then [smbx]. *)
Definition removal_order (c : setup) : list Z := qid c <$> (seq 1 NTASKS ++ [0%nat]).

Lemma msgctl_rmid e id s :
  0 <= id -> _rt_msgctl e id IPC_RMID BufNull true s = (let! r := msgctl_change e id None in ret (r, OutNone)) s.
Proof.
  intros Hid. unfold _rt_msgctl. rewrite (proj2 (Z.ltb_ge id 0)) by lia. reflexivity.
Qed.

Section Remove.
Variable c : setup.
Variable e : env.
Hypothesis Howner : forall k, (k < NQUEUES)%nat -> e_euid e = p_cuid (qperm c k).

(** Queue [k] is there. *)
Definition there (s : sys) (k : nat) : Prop :=
  exists q, queue_at (msg_ids s) (qid c k) = Some (qptr c k) /\ queues s !! qptr c k = Some q /\
            q_perm q = qperm c k.

Lemma remove_one s k :
  Inv false false 0 s -> (k < NQUEUES)%nat -> there s k ->
  exists s', _rt_msgctl e (qid c k) IPC_RMID BufNull true s = OK (0, OutNone) s' /\ Inv false false 0 s' /\
    queues s' = delete (qptr c k) (queues s) /\ sleeping s' = sleeping s /\
    (forall k', (k' < NQUEUES)%nat -> k' <> k -> there s k' -> there s' k').
Proof.
  intros HI Hk (q & Hat & Hp & Hpm). pose proof (qid_pos c k Hk) as Hid.
  assert (Hck : ipc_checkid (q_perm q) (qid c k) = false) by (rewrite Hpm; now apply (qid_valid c)).
  assert (Hmay : may_change e q = true).
  { unfold may_change. rewrite Hpm, (Howner k Hk), Z.eqb_refl. reflexivity. }
  destruct (rmid_effect e (qid c k) (qptr c k) q s HI Hid Hat Hp Hck Hmay) as (s' & E & Eq & Ei & _ & _ & Esl & _).
  assert (E' : _rt_msgctl e (qid c k) IPC_RMID BufNull true s = OK (0, OutNone) s').
  { rewrite msgctl_rmid by exact Hid. unfold bind. now rewrite E. }
  exists s'. split_and!; try assumption.
  - destruct (rt_msgctl_safe e (qid c k) IPC_RMID BufNull true 0 s HI) as (r & s2 & E2 & HI2 & _).
    rewrite E' in E2. now injection E2 as <- <-.
  - intros k' Hk' Hne (q' & Hat' & Hp' & Hpm'). exists q'. split_and!; try assumption.
    + apply queue_at_slot in Hat, Hat'. unfold queue_at. rewrite Ei, list_lookup_insert_ne; [now rewrite Hat'|].
      intros Es. rewrite Es in Hat. apply Hne. apply (qptr_inj c); try assumption. congruence.
    + rewrite Eq, lookup_delete_ne; [exact Hp'|]. intros Es. apply Hne. symmetry. now apply (qptr_inj c).
Qed.

Lemma remove_all l s :
  Inv false false 0 s -> NoDup l -> Forall (fun k => (k < NQUEUES)%nat) l -> (forall k, k ∈ l -> there s k) ->
  exists s', remove_queues e (qid c <$> l) s = OK (replicate (length l) 0) s' /\ Inv false false 0 s' /\
    sleeping s' = sleeping s /\ (forall k, k ∈ l -> queues s' !! qptr c k = None) /\
    (forall p, (forall k, k ∈ l -> p <> qptr c k) -> queues s' !! p = queues s !! p).
Proof.
  intros HI Hnd Hlt Hth. revert s HI Hth. induction Hnd as [|k l Hk Hnd IH]; intros s HI Hth.
  { exists s. split_and!; try (reflexivity || assumption). intros k Hin. now apply elem_of_nil in Hin. }
  inversion_clear Hlt as [|? ? Hk' Hl']. destruct (remove_one s k HI Hk' (Hth k ltac:(constructor)))
    as (s1 & E1 & HI1 & Eq1 & Esl1 & Hth1).
  destruct (IH Hl' s1 HI1) as (s2 & E2 & HI2 & Esl2 & Hgone & Hrest).
  { intros k' Hin. apply Hth1; [exact (proj1 (Forall_forall _ _) Hl' k' Hin) | intros ->; contradiction|].
    apply Hth. now constructor. }
  assert (Hne : forall k', k' ∈ l -> qptr c k <> qptr c k').
  { intros k' Hin Es. apply Hk. apply (qptr_inj c) in Es; [congruence | exact Hk' | exact (proj1 (Forall_forall _ _) Hl' k' Hin)]. }
  exists s2. split_and!.
  - cbn [fmap list_fmap remove_queues]. unfold bind at 1. rewrite E1. unfold bind.
    change (list_fmap nat Z (qid c) l) with (qid c <$> l). rewrite E2. reflexivity.
  - exact HI2.
  - congruence.
  - intros k' Hin. apply elem_of_cons in Hin as [->|Hin]; [|now apply Hgone].
    rewrite Hrest by exact Hne. rewrite Eq1. apply lookup_delete_eq.
  - intros p Hp. rewrite Hrest by (intros k' Hin; apply Hp; now constructor).
    rewrite Eq1. apply lookup_delete_ne. intros Es. apply (Hp k); [constructor | congruence].
Qed.
End Remove.

(** Once [main] has joined the tasks, nobody is in the module. *)
Lemma nobody_sleeps c (callers : forall t, exists e, calls_as c t e) (p : prog world) :
  prog_inv (Mail0 := sysv_mail c) p -> main_pc p = MDone -> sleeping (module (svc p)) = ∅.
Proof.
  intros H Hm. pose proof (pi_ok _ H) as Hf. cbn [mail_ok sysv_mail] in Hf. apply map_empty. intros n.
  destruct (sleeping (module (svc p)) !! n) as [pd|] eqn:En; [exfalso|reflexivity].
  destruct (fi_sleep _ _ _ _ _ Hf n pd En) as (t & o & -> & Hp & _).
  assert (Hidle : sleeping (module (svc p)) !! pid c t = None); [|congruence].
  assert (Hrun : running t).
  { destruct o as [k x|k]; [apply Hp|]. destruct Hp as [Hk ->]. destruct k; cbn; [exact I | unfold NQUEUES in Hk; lia]. }
  destruct t as [| |t].
  - exact (pi_main_call _ H).
  - pose proof (pi_srv_call _ H) as Hs. unfold server_call in Hs. now rewrite (pi_srv_done _ H Hm) in Hs.
  - cbn in Hrun. destruct (lookup_lt_is_Some_2 (clients p) t) as [cl Hc]; [rewrite (pi_len _ H); exact Hrun|].
    pose proof (pi_clients _ H _ _ Hc) as Hci. pose proof (ci_call _ _ _ Hci) as Hs. unfold client_call in Hs.
    rewrite (ci_done _ _ _ Hci) in Hs; [exact Hs|]. rewrite Hm. exact Hrun.
Qed.

(** ** Eleven new queues *)

Definition demo_keys : list Z := (fun k => Z.of_nat k + 1) <$> seq 0 NQUEUES.

(** The module after [main] made its queues, called by the superuser. *)
Definition fresh_module : sys :=
  match create_queues (root_env 100) demo_keys (boot (root_env 0)) with
  | OK _ s => s
  | Fault _ => boot (root_env 0)
  end.

Definition demo_pid (t : task) : Z :=
  match t with TMain => 100 | TServer => 101 | TClient n => 102 + Z.of_nat n end.

(** Every [k] below [NQUEUES], one by one. *)
Lemma every_queue (P : nat -> Prop) : Forall P (seq 0 NQUEUES) -> forall k, (k < NQUEUES)%nat -> P k.
Proof. intros H k Hk. apply (proj1 (Forall_forall _ _) H). apply elem_of_seq. lia. Qed.

Ltac one_by_one := apply every_queue; cbn [seq NQUEUES NTASKS]; repeat (apply Forall_cons_2 || apply Forall_nil_2).

Definition demo_setup : setup.
Proof.
  refine (SETUP (fun k => 32769 * Z.of_nat k) (fun k => Z.of_nat k + 1)
    (fun k => KIP (Z.of_nat k + 1) 0 0 0 0 102 (Z.of_nat k)) demo_pid _ _ _ _).
  - intros k _. lia.
  - one_by_one; reflexivity.
  - intros k k' _ _ E. lia.
  - intros [| |n] [| |n']; cbn; intros E; try reflexivity; try (exfalso; lia). f_equal. lia.
Defined.

Lemma demo_callers t : exists e, calls_as demo_setup t e.
Proof. exists (root_env (demo_pid t)). split_and!; try reflexivity; [split; reflexivity|]. intros k H. split; reflexivity. Qed.

Lemma empty_queue_fine c s k q :
  queue_at (msg_ids s) (qid c k) = Some (qptr c k) -> queues s !! qptr c k = Some q ->
  q_perm q = qperm c k -> q_qbytes q = CAPACITY -> q_messages q = [] -> q_receivers q = [] -> queue_fine c s k q.
Proof.
  intros ? ? ? ? Em Er. constructor; try assumption; rewrite ?Em; [apply Forall_nil_2 | change (sumZ m_ts []) with 0; unfold CAPACITY; lia | now left].
Qed.

Lemma fresh_fine : fine demo_setup false 0 ∅ fresh_module.
Proof.
  constructor.
  - apply reachable_Inv. exists (root_env 0), (boot (root_env 0)). split; [reflexivity|].
    apply (exec_rtc ((fun key => (root_env 100, CallGet key create_flags)) <$> demo_keys)). vm_compute. reflexivity.
  - intros k H. exists (match queues fresh_module !! (Z.of_nat k + 1) with Some q => q | None => fresh_queue (root_env 0) 0 0 0 end).
    revert k H. one_by_one; apply empty_queue_fine; vm_compute; reflexivity.
  - intros n pd Hn. vm_compute in Hn. discriminate.
  - intros n Hn. now apply elem_of_empty in Hn.
Qed.

Lemma fresh_mails k : (k < NQUEUES)%nat -> mails demo_setup fresh_module k = [].
Proof. revert k. one_by_one; vm_compute; reflexivity. Qed.

(** Not to be computed while types are compared. *)
#[global] Strategy opaque [fresh_module].

(** The program at the creation of its threads. *)
Definition demo_prog : prog world :=
  PROG (WORLD fresh_module ∅) (-1) MEnter SStart (replicate MSGSZ 0)
       (replicate NTASKS (CLI CStart (replicate MSGSZ 0) 0)) [] false.

Lemma demo_created : @created world (sysv_mail demo_setup) demo_prog.
Proof.
  split_and!; try reflexivity.
  - exact fresh_fine.
  - exact fresh_mails.
  - apply Forall_replicate. now split_and!.
Qed.
