(* ===== verification/TestmsgTheorems.v ===== *)
(** * testmsg: theorems

    For any message service that obeys the laws, in every interleaving of the
    server, the ten clients and [main]; and for the module of msg.c, which is
    such a service. *)

From stdpp Require Import base tactics numbers list gmap relations.
From S2P Require Import Prelude.
From S2P Require Import SysvState.
From S2P Require Import IpcUtil.
From S2P Require Import IpcFacts.
From S2P Require Import SysvMsg.
From S2P Require Import SysvInv.
From S2P Require Import SysvSystem.
From S2P Require Import SysvEffects.
From S2P Require Import SysvTheorems.
From S2P Require Import MailService Testmsg TestmsgFacts TestmsgInv TestmsgSteps TestmsgRun.
From S2P Require Import SysvMail TestmsgModule.

(** C26: in every reachable state of the test, whatever the interleaving: the
    server never answers outside its array of queues and no call fails; a
    client prints WRONG REPLY only after [end] has reached its number (it took
    the end message for a reply) and the server prints UNKNOWN MSG only after
    [end] is [NTASKS]; and a client that waits for a reply has exactly one
    token, its request in the server's queue, in the server's hands, or the
    reply in its own queue. *)
Theorem testmsg_replies_match {W : Type} `{!Mail W} `{!MailLaws W} (p : prog W) :
  treachable p ->
  crashed p = false /\
  Forall (fun o => match o with
                   | PWrongReply t => Z.of_nat t <= end_ p
                   | PUnknown => end_ p = Z.of_nat NTASKS
                   | PSendFailed _ | PReceiveFailed _ => False
                   end) (printed p) /\
  (forall t c, clients p !! t = Some c -> c_pc c = CRecv -> tokens p t = 1%nat) /\
  (forall t x, (t < NTASKS)%nat -> x ∈ pending_mail (svc p) (S t) ->
     reply t x \/ (x = endmsg /\ Z.of_nat t <= end_ p)).
Proof.
  intros Hr. pose proof (treachable_inv p Hr) as H. pose proof (pi_end _ H) as He.
  split_and!.
  - apply H.
  - eapply Forall_impl; [apply H|]. intros [t|t|t|] Ho; cbn in *; try assumption.
    apply ended_end in Ho; [|lia]. pose proof (end_value_turn _ (pi_turn _ H)). lia.
  - intros t c Hc E. pose proof (ci_token _ _ _ (pi_clients _ H _ _ Hc)) as Hk. now rewrite E in Hk.
  - intros t x Ht Hin. destruct (lookup_lt_is_Some_2 (clients p) t) as [c Hc]; [rewrite (pi_len _ H); exact Ht|].
    pose proof (ci_box _ _ _ (pi_clients _ H _ _ Hc)) as Hb.
    destruct (proj1 (Forall_forall _ _) Hb x Hin) as [|[-> Hn]]; [now left | right]. split; [reflexivity|].
    rewrite He. apply ended_end; [lia | exact Hn].
Qed.

Lemma testmsg_replies_match_witness :
  crashed demo_prog = false /\
  exists p, @tstep world (sysv_mail demo_setup) demo_prog p /\ crashed p = false /\ printed p = [].
Proof.
  split; [apply (@testmsg_replies_match world (sysv_mail demo_setup) (sysv_mail_laws demo_setup demo_callers) demo_prog);
    exists demo_prog; split; [exact demo_created | apply rtc_refl] |].
  assert (Hs : @tstep world (sysv_mail demo_setup) demo_prog (at_main (svc demo_prog) (-1) (MEnd 0) demo_prog)).
  { apply t_main. now apply m_enter. }
  eexists. split; [exact Hs|].
  destruct (@testmsg_replies_match world (sysv_mail demo_setup) (sysv_mail_laws demo_setup demo_callers)
    (at_main (svc demo_prog) (-1) (MEnd 0) demo_prog)) as [Hc _].
  - exists demo_prog. split; [exact demo_created | now apply rtc_once].
  - split; [exact Hc | reflexivity].
Defined.

(** C35: the test goes on.  In every reachable state: a client that waits for a
    reply while [end] has not reached its number can be brought to receive it and
    to count it; the reply of the server and the end message of [main] never wait
    for room (the call is possible and whatever it does it returns 0 at once); and
    the test can be brought to its end, a run in which [main] joins every client and
    then the server. *)
Theorem testmsg_can_end {W : Type} `{!Mail W} `{!MailLaws W} (p : prog W) :
  treachable p ->
  (forall t c, clients p !! t = Some c -> c_pc c = CRecv -> end_ p < Z.of_nat t ->
     exists p' c', rtc tstep p p' /\ clients p' !! t = Some c' /\ c_pc c' = CHead /\
       c_cnt c' = i32 (c_cnt c + 1)) /\
  (srv_pc p = SSend -> exists k, reply_queue p = Some k /\
     (exists w', go TServer (Snd k (reply_text p)) (svc p) (Some (0, [])) w') /\
     (forall r w', go TServer (Snd k (reply_text p)) (svc p) r w' -> r = Some (0, []))) /\
  (forall i, main_pc p = MSend i ->
     (exists w', go TMain (Snd (end_queue i) endmsg) (svc p) (Some (0, [])) w') /\
     (forall r w', go TMain (Snd (end_queue i) endmsg) (svc p) r w' -> r = Some (0, []))) /\
  exists p', rtc tstep p p' /\ main_pc p' = MDone /\ srv_pc p' = SDone /\
    Forall (fun c => c_pc c = CDone) (clients p').
Proof.
  intros Hr. pose proof (treachable_inv p Hr) as H. split_and!.
  - intros t c. now apply reply_received.
  - now apply server_never_waits.
  - intros i. now apply main_never_waits.
  - destruct (reaches_end p H) as (p' & Hp & Hm).
    assert (H' : prog_inv p') by (apply (rtc_invariant tstep _ p); [exact H | apply tstep_inv | exact Hp]).
    exists p'. split_and!; try assumption.
    + exact (pi_srv_done _ H' Hm).
    + apply Forall_lookup. intros t c Hc. apply (end_all_done p' t c H' Hc). rewrite (pi_end _ H'), Hm. reflexivity.
Qed.

Lemma testmsg_can_end_witness :
  exists p', rtc (@tstep world (sysv_mail demo_setup)) demo_prog p' /\ main_pc p' = MDone /\
    srv_pc p' = SDone /\ Forall (fun c => c_pc c = CDone) (clients p').
Proof.
  apply (@testmsg_can_end world (sysv_mail demo_setup) (sysv_mail_laws demo_setup demo_callers) demo_prog).
  exists demo_prog. split; [exact demo_created | apply rtc_refl].
Defined.

(** C11: the module implements the message service the test is written for.
    From any consistent state, when a task that may run makes one of its calls,
    or runs again inside one it slept in, the code of msg.c reaches its return
    or its next [schedule()]; and a send appends its message or sleeps on a
    full queue, a receive takes the first message or sleeps on an empty one,
    whether the message went through the queue or straight to the sleeping
    reader; the other queues and the other tasks see nothing, and consistency
    is kept. *)
Theorem module_is_mail_service (c : setup) (w : world) (t : task) (o : op) (e : env) :
  fine c false 0 (off w) (module w) -> calls_as c t e -> proper t o ->
  may_go (Mail0 := sysv_mail c) w t o ->
  exists a s', steps c t o e (module w) = OK a s' /\
    let w' := WORLD s' (off_after (pid c t) (result_of a) (module w) s' (off w)) in
    fine c false 0 (off w') s' /\ effect (Mail0 := sysv_mail c) t o w (result_of a) w'.
Proof.
  intros Hf Ha Hp Hm. destruct (steps_fine c (off w) (module w) t o e Hf Ha Hp Hm) as (a & s' & E & Hf' & _).
  exists a, s'. split; [exact E|]. split; [exact Hf'|].
  assert (Hgo : go (Mail := sysv_mail c) t o w (result_of a) (WORLD s' (off_after (pid c t) (result_of a) (module w) s' (off w)))).
  { exists e, a, s'. unfold steps in E. split; [exact Ha|]. split; [|split; reflexivity]. now case_decide. }
  exact (proj2 (effect_of_go c w t o _ _ Hf Hp Hm Hgo)).
Qed.

Lemma module_is_mail_service_witness :
  exists a s', steps demo_setup (TClient 3) (Snd 0 [1; 2; 3]) (root_env 105) fresh_module = OK a s' /\
    mails demo_setup s' 0 = [[1; 2; 3]].
Proof.
  destruct (module_is_mail_service demo_setup (WORLD fresh_module ∅) (TClient 3) (Snd 0 [1; 2; 3]) (root_env 105))
    as (a & s' & E & _ & [(_ & _ & Hm)|(_ & _ & _ & Hf)] & _).
  - exact fresh_fine.
  - split_and!; try reflexivity; [split; reflexivity|]. intros k H. split; reflexivity.
  - unfold proper, running, NQUEUES, NTASKS, MSGSZ. cbn [length]. lia.
  - left. vm_compute. reflexivity.
  - exists a, s'. split; [exact E|].
    change (mails demo_setup s' 0 = mails demo_setup fresh_module 0 ++ [[1; 2; 3]]) in Hm.
    now rewrite (fresh_mails 0) in Hm by (unfold NQUEUES; lia).
  - exfalso. vm_compute in Hf. discriminate.
Defined.

(** C7: the test leaves the module as it found it.  Once [main] has joined
    the tasks nobody sleeps in the module; its [rt_msgctl] calls all return 0,
    the eleven queues are gone, the other queues untouched, and the memory
    still allocated is that of the identifier table and of the other queues:
    the messages nobody read have been freed. *)
Theorem testmsg_cleans_up (c : setup) (callers : forall t, exists e, calls_as c t e) (p : prog world) (e : env) :
  treachable (Mail0 := sysv_mail c) p -> main_pc p = MDone ->
  (forall k, (k < NQUEUES)%nat -> e_euid e = p_cuid (qperm c k)) ->
  exists s', remove_queues e (removal_order c) (module (svc p)) = OK (replicate NQUEUES 0) s' /\
    (forall k, (k < NQUEUES)%nat -> queues s' !! qptr c k = None) /\
    (forall q, (forall k, (k < NQUEUES)%nat -> q <> qptr c k) -> queues s' !! q = queues (module (svc p)) !! q) /\
    sleeping s' = ∅ /\ heap s' = tab_blocks (msg_ids s') + msum q_blocks (queues s').
Proof.
  intros Hr Hm Hown. pose proof (treachable_inv (MailLaws0 := sysv_mail_laws c callers) p Hr) as H.
  pose proof (pi_ok _ H) as Hf. cbn [mail_ok sysv_mail] in Hf. pose proof (nobody_sleeps c callers p H Hm) as Hsl.
  assert (Hin : forall k, k ∈ seq 1 NTASKS ++ [0%nat] <-> (k < NQUEUES)%nat).
  { intros k. rewrite elem_of_app, elem_of_seq, list_elem_of_singleton. unfold NQUEUES. lia. }
  destruct (remove_all c e Hown (seq 1 NTASKS ++ [0%nat]) (module (svc p)) (fi_inv _ _ _ _ _ Hf))
    as (s' & E & HI & Esl & Hgone & Hrest).
  - apply (bool_decide_eq_true_1 _). vm_compute. reflexivity.
  - apply Forall_forall. intros k. apply Hin.
  - intros k Hk. destruct (fi_queue _ _ _ _ _ Hf k) as [q [A1 A2 A3 _ _ _ _]]; [now apply Hin|]. now exists q.
  - exists s'. split_and!.
    + exact E.
    + intros k Hk. apply Hgone. now apply Hin.
    + intros q Hq. apply Hrest. intros k Hk. apply Hq. now apply Hin.
    + now rewrite Esl.
    + rewrite (inv_heap _ _ _ _ HI). rewrite Esl, Hsl.
      assert (receivers s' = ∅) as ->.
      { apply map_empty. intros n. pose proof (inv_task _ _ _ _ HI n) as Hw. rewrite Esl, Hsl, lookup_empty in Hw. apply Hw. }
      rewrite !msum_empty. lia.
Qed.

Lemma testmsg_cleans_up_witness :
  exists p s', main_pc p = MDone /\
    remove_queues (root_env 100) (removal_order demo_setup) (module (svc p)) = OK (replicate NQUEUES 0) s' /\
    sleeping s' = ∅.
Proof.
  destruct (reaches_end (MailLaws0 := sysv_mail_laws demo_setup demo_callers) demo_prog (created_inv demo_prog demo_created))
    as (p & Hp & Hm).
  destruct (testmsg_cleans_up demo_setup demo_callers p (root_env 100)) as (s' & E & _ & _ & Hs & _).
  - exists demo_prog. split; [exact demo_created | exact Hp].
  - exact Hm.
  - intros k _. reflexivity.
  - exists p, s'. split_and!; [exact Hm | exact E | exact Hs].
Defined.
