(* ===== verification/Kcomedi.v ===== *)
(** * The comedi test module (user/comedi/kcomedi.c)

    The module stands in for the comedi services of RTAI to check how calls and
    their parameters travel: each function prints what it was given and returns
    fixed values.  Everything it does is here: the calls, their remote forms
    ([RT_comedi_...]), which take their structures from one block of bytes with
    offsets in front, and the table of the functions.

    Memory is bytes.  The layouts of the structures, which comedi and RTAI
    declare, the user space accesses and the kernel's address limit are
    parameters. *)

From stdpp Require Import base tactics numbers list strings.
From S2P Require Import Prelude.

(** ** Memory *)

Abbreviation bytemem := (Z -> Z).

Definition load (m : bytemem) (a : Z) : Z :=
  m a + 256 * m (a + 1) + 65536 * m (a + 2) + 16777216 * m (a + 3).

Definition store_byte (m : bytemem) (a v : Z) : bytemem := fun b => if b =? a then v else m b.

Definition store (m : bytemem) (a v : Z) : bytemem :=
  store_byte (store_byte (store_byte (store_byte m
    a (v mod 256)) (a + 1) (v / 256 mod 256)) (a + 2) (v / 65536 mod 256)) (a + 3) (v / 16777216 mod 256).

(** The address of element [i] of an array of words. *)
Definition elem (a i : Z) : Z := u32 (a + 4 * i).

(** [memcpy] from [src] in [m] to the start of the local [l]. *)
Definition memcpy (l m : bytemem) (src n : Z) : bytemem :=
  fun i => if (0 <=? i) && (i <? n) then m (u32 (src + i)) else l i.

(** A structure of words: where its fields are, and its size. *)
Record layout (F : Type) := LAYOUT { field_at : F -> Z; size_of : Z }.
Arguments LAYOUT {F} _ _.
Arguments field_at {F} _ _.
Arguments size_of {F} _.

Definition load_struct {F} (y : layout F) (m : bytemem) (a : Z) : F -> Z :=
  fun f => load m (a + field_at y f).

(** ** Structures *)

Inductive insn_field := I_insn | I_n | I_data | I_subdev | I_chanspec.

Inductive cmd_field :=
| C_subdev | C_flags | C_start_src | C_start_arg | C_scan_begin_src | C_scan_begin_arg
| C_convert_src | C_convert_arg | C_scan_end_src | C_scan_end_arg | C_stop_src | C_stop_arg
| C_chanlist | C_chanlist_len | C_data | C_data_len.

Inductive list_field := L_n_insns | L_insns.

Inductive insns_field :=
| O_insns_ofst | O_data_ofsts | O_data_ofst | O_insn_len | O_subdev_ofst | O_chanspec_ofst | O_n_ofst.

Inductive cmds_field := O_cmd_ofst | O_cmd_len | O_chanlist_ofst | O_chanlist_len | O_cmd_data_ofst | O_data_len.

Inductive range_field := R_min | R_max | R_flags.

(** ** State *)

Inductive arg := Num (z : Z) | Str (s : string).
Record line := LINE { line_text : string; line_args : list arg }.

(** [rt_task_suspend_timed], [rt_task_suspend_until], [rt_sleep], and
    [rt_task_suspend_if], which does not wait. *)
Inductive pause := SuspendTimed (ns : Z) | SuspendIf | SuspendUntil (t : Z) | Sleep (ns : Z).

Record kcom := KCOM {
  kmem : bytemem;
  kresumsg : Z -> Z;
  klog : list line;
  kpauses : list pause
}.

(** A [memcpy] over the end of a local array; a loop longer than its fuel. *)
Inductive kfault := StackSmash | OutOfFuel.

Abbreviation kcmd := (M kcom kfault).
#[local] Open Scope cmonad_scope.

Definition rt_printk (t : string) (l : list arg) : kcmd unit :=
  modify (fun s => KCOM (kmem s) (kresumsg s) (LINE t l :: klog s) (kpauses s)).
Definition on_mem (f : bytemem -> bytemem) : kcmd unit :=
  modify (fun s => KCOM (f (kmem s)) (kresumsg s) (klog s) (kpauses s)).
Definition peek (a : Z) : kcmd Z := let! s := get in ret (load (kmem s) a).
Definition poke (a v : Z) : kcmd unit := on_mem (fun m => store m a v).
Definition pause_for (p : pause) : kcmd unit :=
  modify (fun s => KCOM (kmem s) (kresumsg s) (klog s) (p :: kpauses s)).
Definition set_resumsg (task v : Z) : kcmd unit :=
  modify (fun s => KCOM (kmem s) (fun t => if t =? task then v else kresumsg s t) (klog s) (kpauses s)).

(** ** Parameters *)

(** The layouts, the highest user space address and the accesses to user
    space. *)
Class Machine := {
  insn_layout : layout insn_field;
  cmd_layout : layout cmd_field;
  list_layout : layout list_field;
  insns_layout : layout insns_field;
  cmds_layout : layout cmds_field;
  range_layout : layout range_field;
  PAGE_OFFSET : Z;
  (** the words of user space that are mapped *)
  user_word : Z -> Prop;
  get_user : bytemem -> Z -> Z;
  put_user : bytemem -> Z -> Z -> bytemem;
  COMEDI_NAMELEN : nat;
  INSN_INTTRIG : Z;
  RTE_PERM : Z
}.

(** A layout of words: the fields lie inside, and apart from each other. *)
Record layout_ok {F} (y : layout F) : Prop := {
  lo_inside : forall f, 0 <= field_at y f /\ field_at y f + 4 <= size_of y;
  lo_apart : forall f g, f <> g -> field_at y f + 4 <= field_at y g \/ field_at y g + 4 <= field_at y f
}.

Class MachineLaws `{!Machine} := {
  ml_insn : layout_ok insn_layout;
  ml_cmd : layout_ok cmd_layout;
  ml_list : layout_ok list_layout;
  ml_insns : layout_ok insns_layout;
  ml_cmds : layout_ok cmds_layout;
  (** a word that is mapped is read and written *)
  ml_get : forall m a, user_word a -> get_user m a = load m a;
  ml_put : forall m a v, user_word a -> put_user m a v = store m a v
}.

Definition DEV : Z := 830666.
Definition SUBDEV : Z := 123.
Definition RANGE_MIN : Z := -99.
Definition RANGE_MAX : Z := 99.
Definition RANGE_FLAGS : Z := 0.
Definition MAXDATA : Z := 978.
Definition N_RANGES : Z := 3.
Definition N_CHANNELS : Z := 5.
Definition SUBDEV_TYPE : Z := 6.
Definition BOARD_NAME : string := "BOARD_NAME".
Definition DRIVER_NAME : string := "DRIVER_NAME".
Definition CBMASK : Z := 4294967295.
Definition COMEDI_VERS : Z := 999.

Inductive waitmode := WAIT | WAITIF | WAITUNTIL.

Section Module_.
Context `{!Machine}.
(** The calling task, the time of the call and the address of the local
    [cbmask] of [__rt_comedi_command_data_wread]. *)
Variable whoami : Z.
Variable rt_get_time : Z.
Variable local_cbmask : Z.
(** The address of the local [data] of [_rt_comedi_trigger]. *)
Variable local_data : Z.
(** What is on the stack where a local array comes to lie. *)
Variable stack : bytemem.

Definition KSPACE (a : Z) : bool := PAGE_OFFSET <? a.

(** ** Calls *)

Definition _comedi_open (filename : string) : kcmd Z :=
  rt_printk "COMEDI OPEN" [Str filename; Num (Z.of_nat (String.length filename))] ;;
  rt_printk "COMEDI OPEN RETURNS" [Num DEV] ;;
  ret DEV.

Definition _comedi_close (dev : Z) : kcmd Z :=
  rt_printk "COMEDI CLOSE" [Num dev] ;; ret 0.

Definition _comedi_lock (dev subdev : Z) : kcmd Z := ret 0.
Definition _comedi_unlock (dev subdev : Z) : kcmd Z := ret 0.

(** A body between [RTAI_COMEDI_LOCK] and [RTAI_COMEDI_UNLOCK]. *)
Definition locked_by {A} (dev subdev : Z) (body : kcmd unit) (r : A) : kcmd A :=
  _comedi_lock dev subdev ;; body ;; _comedi_unlock dev subdev ;; ret r.

Definition _comedi_cancel (dev subdev : Z) : kcmd Z :=
  locked_by dev subdev (rt_printk "COMEDI CANCEL" [Num dev; Num subdev]) 0.

Definition rt_comedi_register_callback (dev subdev mask callback task : Z) : kcmd Z :=
  let task := if task =? 0 then whoami else task in
  set_resumsg task 0 ;;
  locked_by dev subdev
    (rt_printk "COMEDI REGISTER CALLBACK" [Num dev; Num subdev; Num mask; Num callback; Num task]) 0.

(** What a command prints: its fields, then its channel list. *)
Definition cmd_args (cmd : cmd_field -> Z) : list arg :=
  Num <$> [cmd C_subdev; cmd C_flags; cmd C_start_src; cmd C_start_arg; cmd C_scan_begin_src;
    cmd C_scan_begin_arg; cmd C_convert_src; cmd C_convert_arg; cmd C_scan_end_src; cmd C_scan_end_arg;
    cmd C_stop_src; cmd C_stop_arg; cmd C_chanlist_len].

Fixpoint print_array (t : string) (a i : Z) (count : nat) : kcmd unit :=
  match count with
  | O => ret tt
  | S c =>
      let! v := peek (elem a i) in
      rt_printk t [Num i; Num v] ;;
      print_array t a (i + 1) c
  end.

Definition command_body (t : string) (dev : Z) (cmd : cmd_field -> Z) : kcmd Z :=
  locked_by dev (cmd C_subdev)
    (rt_printk t (cmd_args cmd) ;;
     print_array "CHANLIST" (cmd C_chanlist) 0 (Z.to_nat (cmd C_chanlist_len))) 0.

(** [comedi_cmd cmd = *cmdin] is the load in [command_at]. *)
Definition _comedi_command (dev : Z) (cmd : cmd_field -> Z) : kcmd Z := command_body "COMEDI COMMAND" dev cmd.
Definition _comedi_command_test (dev : Z) (cmd : cmd_field -> Z) : kcmd Z :=
  command_body "COMEDI COMMAND TEST" dev cmd.

Definition command_at (test : bool) (dev cmdin : Z) : kcmd Z :=
  let! s := get in
  let cmd := load_struct cmd_layout (kmem s) cmdin in
  if test then _comedi_command_test dev cmd else _comedi_command dev cmd.

(** Stores to fields of a local structure. *)
Definition with_cmd (cmd : cmd_field -> Z) (chanlist chanlist_len data data_len : Z) : cmd_field -> Z :=
  fun f => match f with
           | C_chanlist => chanlist | C_chanlist_len => chanlist_len
           | C_data => data | C_data_len => data_len
           | _ => cmd f
           end.

Definition RT_comedi_command (dev ofstlens : Z) (test : bool) : kcmd Z :=
  let! s := get in
  let o := load_struct cmds_layout (kmem s) ofstlens in
  if 2 * size_of cmd_layout <? o O_cmd_len then fault StackSmash else
  let local := memcpy stack (kmem s) (u32 (ofstlens + o O_cmd_ofst)) (o O_cmd_len) in
  let cmd := with_cmd (load_struct cmd_layout local 0) (u32 (ofstlens + o O_chanlist_ofst))
               (o O_chanlist_len) (u32 (ofstlens + o O_cmd_data_ofst)) (o O_data_len) in
  if test then _comedi_command_test dev cmd else _comedi_command dev cmd.

(** [for (i = 0; i < n; i++) { data[i] = base + i; rt_printk(...) }]. *)
Fixpoint write_samples (t : string) (base a i : Z) (count : nat) : kcmd unit :=
  match count with
  | O => ret tt
  | S c =>
      poke (elem a i) (base + i) ;;
      let! v := peek (elem a i) in
      rt_printk t [Num i; Num v] ;;
      write_samples t base a (i + 1) c
  end.

Definition rt_comedi_command_data_read (dev subdev nchans data : Z) : kcmd Z :=
  locked_by dev subdev
    (rt_printk "COMEDI COMMAND READ" [Num dev; Num subdev; Num nchans] ;;
     write_samples "CHAN" 830666 data 0 (Z.to_nat nchans)) nchans.

Definition rt_comedi_command_data_write (dev subdev nchans data : Z) : kcmd Z :=
  locked_by dev subdev
    (rt_printk "COMEDI COMMAND WRITE" [Num dev; Num subdev; Num nchans] ;;
     print_array "CHAN" data 0 (Z.to_nat nchans)) nchans.

(** ** Waits *)

Definition __rt_comedi_wait (until cbmask : Z) (mode : waitmode) : kcmd Z :=
  if cbmask =? 0 then ret RTE_PERM else
  match mode with
  | WAIT => rt_printk "COMEDI WAIT WARNING: REACHED AND SKIPPED" [] ;; pause_for (SuspendTimed 100000)
  | WAITIF => pause_for SuspendIf
  | WAITUNTIL => pause_for (SuspendUntil until)
  end ;;
  set_resumsg whoami CBMASK ;;
  let! s := get in
  (if KSPACE cbmask then poke cbmask (u32 (kresumsg s whoami))
   else on_mem (fun m => put_user m cbmask (u32 (kresumsg s whoami)))) ;;
  set_resumsg whoami 0 ;;
  ret 0.

Definition rt_comedi_wait (cbmask : Z) : kcmd Z :=
  let! v := peek cbmask in
  rt_printk "COMEDI WAIT" [Num v] ;; __rt_comedi_wait 0 cbmask WAIT.

Definition rt_comedi_wait_if (cbmask : Z) : kcmd Z :=
  let! v := peek cbmask in
  rt_printk "COMEDI WAIT IF" [Num v] ;; __rt_comedi_wait 0 cbmask WAITIF.

Definition _rt_comedi_wait_until (cbmask until : Z) : kcmd Z :=
  let! v := peek cbmask in
  rt_printk "COMEDI WAIT UNTIL" [Num v; Num until] ;; __rt_comedi_wait until cbmask WAITUNTIL.

Definition _rt_comedi_wait_timed (cbmask delay : Z) : kcmd Z :=
  let! v := peek cbmask in
  rt_printk "COMEDI WAIT TIMED" [Num v; Num delay] ;;
  _rt_comedi_wait_until cbmask (i64 (rt_get_time + delay)).

Definition __rt_comedi_command_data_wread (dev subdev nchans data until cbmaskarg : Z) (mode : waitmode) : kcmd Z :=
  let! s := get in
  let kspace := KSPACE cbmaskarg in
  let mask := if kspace then load (kmem s) cbmaskarg else get_user (kmem s) cbmaskarg in
  let! retval :=
    match mode with
    | WAIT => rt_comedi_wait local_cbmask
    | WAITIF => rt_comedi_wait_if local_cbmask
    | WAITUNTIL => _rt_comedi_wait_until local_cbmask until
    end in
  let! cbmask := peek local_cbmask in
  if (retval =? 0) && negb (Z.land mask cbmask =? 0) then
    (if kspace then poke cbmaskarg cbmask else on_mem (fun m => put_user m cbmaskarg cbmask)) ;;
    let! r := rt_comedi_command_data_read dev subdev nchans data in
    ret (i32 r)
  else ret (i32 retval).

Definition rt_comedi_command_data_wread (dev subdev nchans data cbmask : Z) : kcmd Z :=
  let! v := peek cbmask in
  rt_printk "COMEDI COMMAND WREAD" [Num dev; Num subdev; Num nchans; Num v] ;;
  __rt_comedi_command_data_wread dev subdev nchans data 0 cbmask WAIT.

Definition rt_comedi_command_data_wread_if (dev subdev nchans data cbmask : Z) : kcmd Z :=
  let! v := peek cbmask in
  rt_printk "COMEDI COMMAND WREAD IF" [Num dev; Num subdev; Num nchans; Num v] ;;
  __rt_comedi_command_data_wread dev subdev nchans data 0 cbmask WAITIF.

Definition _rt_comedi_command_data_wread_until (dev subdev nchans data cbmask until : Z) : kcmd Z :=
  let! v := peek cbmask in
  rt_printk "COMEDI COMMAND WREAD UNTIL" [Num dev; Num subdev; Num nchans; Num v; Num until] ;;
  __rt_comedi_command_data_wread dev subdev nchans data until cbmask WAITUNTIL.

Definition _rt_comedi_command_data_wread_timed (dev subdev nchans data cbmask delay : Z) : kcmd Z :=
  let! v := peek cbmask in
  rt_printk "COMEDI COMMAND WREAD TIMED" [Num dev; Num subdev; Num nchans; Num v; Num delay] ;;
  _rt_comedi_command_data_wread_until dev subdev nchans data cbmask (i64 (rt_get_time + delay)).

(** The remote form: the two low bits of [nchans] say which. *)
Definition RT_comedi_command_data_wread (dev subdev nchans data cbmask datalen time : Z) : kcmd Z :=
  let mode := Z.land nchans 3 in
  let n := Z.shiftr nchans 2 in
  if mode =? 0 then rt_comedi_command_data_wread dev subdev n data cbmask
  else if mode =? 1 then rt_comedi_command_data_wread_if dev subdev n data cbmask
  else if mode =? 2 then _rt_comedi_command_data_wread_until dev subdev n data cbmask time
  else if mode =? 3 then _rt_comedi_command_data_wread_timed dev subdev n data cbmask time
  else ret 0.

(** ** Single data, digital lines *)

Definition _comedi_data_write (dev subdev chan range aref data : Z) : kcmd Z :=
  locked_by dev subdev
    (rt_printk "COMEDI DATA WRITE" [Num dev; Num subdev; Num chan; Num range; Num aref; Num data]) 1.

(** Store a value and print what the word then holds. *)
Definition give (t : string) (a v : Z) : kcmd unit :=
  poke a v ;; let! v := peek a in rt_printk t [Num v].

Definition _comedi_data_read (dev subdev chan range aref data : Z) : kcmd Z :=
  locked_by dev subdev
    (rt_printk "COMEDI DATA READ" [Num dev; Num subdev; Num chan; Num range; Num aref] ;;
     give "COMEDI DATA READ RETURNS" data 11259370) 1.

Definition _comedi_data_read_delayed (dev subdev chan range aref data nanosec : Z) : kcmd Z :=
  locked_by dev subdev
    (rt_printk "COMEDI DATA READ DELAYED" [Num dev; Num subdev; Num chan; Num range; Num aref; Num nanosec] ;;
     pause_for (Sleep nanosec) ;;
     give "COMEDI DATA READ DELAYED RETURNS" data 13290670) 1.

Definition _comedi_data_read_hint (dev subdev chan range aref : Z) : kcmd Z :=
  locked_by dev subdev
    (rt_printk "COMEDI DATA READ HINT" [Num dev; Num subdev; Num chan; Num range; Num aref]) 1.

Definition _comedi_dio_config (dev subdev chan io : Z) : kcmd Z :=
  locked_by dev subdev (rt_printk "COMEDI DIO CONFIG" [Num dev; Num subdev; Num chan; Num io]) 1.

Definition _comedi_dio_read (dev subdev chan val : Z) : kcmd Z :=
  locked_by dev subdev
    (rt_printk "COMEDI DIO READ" [Num dev; Num subdev; Num chan] ;;
     give "COMEDI DIO READ RETURNS" val 4294967295) 1.

Definition _comedi_dio_write (dev subdev chan val : Z) : kcmd Z :=
  locked_by dev subdev (rt_printk "COMEDI DIO WRITE" [Num dev; Num subdev; Num chan; Num val]) 1.

Definition _comedi_dio_bitfield (dev subdev write_mask bits : Z) : kcmd Z :=
  locked_by dev subdev
    (let! b := peek bits in
     rt_printk "COMEDI DIO BITFIELD" [Num dev; Num subdev; Num write_mask; Num b] ;;
     let! b := peek bits in
     give "COMEDI DIO BITFIELD RETURNS" bits (Z.lor b 4294967295)) 1.

(** ** Inquiries *)

Definition _comedi_get_n_subdevices (dev : Z) : kcmd Z :=
  rt_printk "COMEDI GET N SUBDEVICES" [Num dev] ;; ret 0.

Definition _comedi_get_version_code (dev : Z) : kcmd Z :=
  rt_printk "COMEDI GET VERSION CODE" [Num dev] ;; ret COMEDI_VERS.

(** [strncpy(name, s, n)]: the characters, then zeros. *)
Fixpoint strncpy (m : bytemem) (a : Z) (s : string) (n : nat) : bytemem :=
  match n with
  | O => m
  | S n' =>
      match s with
      | EmptyString => strncpy (store_byte m a 0) (a + 1) EmptyString n'
      | String c s' => strncpy (store_byte m a (Z.of_nat (Ascii.nat_of_ascii c))) (a + 1) s' n'
      end
  end.

Definition rt_comedi_get_driver_name (dev name : Z) : kcmd Z :=
  rt_printk "COMEDI GET DRIVER NAME" [Num dev] ;;
  on_mem (fun m => strncpy m name DRIVER_NAME COMEDI_NAMELEN) ;;
  rt_printk "COMEDI GET DRIVER NAME RETURNS" [Str DRIVER_NAME] ;;
  ret name.

Definition rt_comedi_get_board_name (dev name : Z) : kcmd Z :=
  rt_printk "COMEDI GET BOARD NAME" [Num dev] ;;
  on_mem (fun m => strncpy m name BOARD_NAME COMEDI_NAMELEN) ;;
  rt_printk "COMEDI GET BOARD NAME RETURNS" [Str BOARD_NAME] ;;
  ret name.

(** Print the question, print the answer, return it. *)
Definition answers (t t' : string) (l : list arg) (v : Z) : kcmd Z :=
  rt_printk t l ;; rt_printk t' [Num v] ;; ret v.

Definition _comedi_get_subdevice_type (dev subdev : Z) : kcmd Z :=
  answers "COMEDI GET SUBDEV TYPE" "COMEDI GET SUBDEV TYPE RETURNS" [Num dev; Num subdev] SUBDEV_TYPE.

Definition _comedi_find_subdevice_by_type (dev type start_subdevice : Z) : kcmd Z :=
  answers "COMEDI FIND SUBDEV BY TYPE" "COMEDI FIND SUBDEV BY TYPE RETURNS"
    [Num dev; Num type; Num start_subdevice] SUBDEV.

Definition _comedi_get_n_channels (dev subdev : Z) : kcmd Z :=
  answers "COMEDI GET N CHANNELS" "COMEDI GET N CHANNELS RETURNS" [Num dev; Num subdev] N_CHANNELS.

Definition _comedi_get_maxdata (dev subdev chan : Z) : kcmd Z :=
  answers "COMEDI GET MAXDATA" "COMEDI GET MAXDATA RETURNS" [Num dev; Num subdev; Num chan] MAXDATA.

Definition _comedi_get_n_ranges (dev subdev chan : Z) : kcmd Z :=
  answers "COMEDI GET N RANGES" "COMEDI GET N RANGES RETURNS" [Num dev; Num subdev; Num chan] N_RANGES.

Definition _comedi_get_krange (dev subdev chan range krange : Z) : kcmd Z :=
  rt_printk "COMEDI GET KRANGE" [Num dev; Num subdev; Num chan; Num range] ;;
  rt_printk "COMEDI GET KRANGE RETURNS" [Num RANGE_MIN; Num RANGE_MAX; Num RANGE_FLAGS] ;;
  poke (krange + field_at range_layout R_min) (u32 RANGE_MIN) ;;
  poke (krange + field_at range_layout R_max) RANGE_MAX ;;
  poke (krange + field_at range_layout R_flags) RANGE_FLAGS ;;
  ret 0.

Definition locked_answer (t t' : string) (dev subdev v : Z) : kcmd Z :=
  locked_by dev subdev (rt_printk t [Num dev; Num subdev] ;; rt_printk t' [Num v]) v.

Definition _comedi_poll (dev subdev : Z) : kcmd Z :=
  locked_answer "COMEDI POLL" "COMEDI POLL RETURNS" dev subdev 33.

Definition _comedi_get_subdevice_flags (dev subdev : Z) : kcmd Z :=
  locked_answer "COMEDI GET SUBDEVICE FLAGS" "COMEDI GET SUBDEVICE FLAGS RETURNS" dev subdev 2004318071.

Definition _comedi_get_buf_head_pos (dev subdev : Z) : kcmd Z :=
  locked_answer "COMEDI GET BUF HEAD POS" "COMEDI GET BUF HEAD POS RETURNS" dev subdev 123456789.

Definition _comedi_set_user_int_count (dev subdev buf_user_count : Z) : kcmd Z :=
  locked_by dev subdev (rt_printk "COMEDI SET USER INT COUNT" [Num dev; Num subdev; Num buf_user_count]) 0.

Definition _comedi_map (dev subdev ptr : Z) : kcmd Z :=
  locked_by dev subdev (rt_printk "COMEDI MAP" [Num dev; Num subdev]) 0.

Definition _comedi_unmap (dev subdev : Z) : kcmd Z :=
  locked_by dev subdev (rt_printk "COMEDI UNMAP" [Num dev; Num subdev]) 0.

(** ** Instructions *)

(** [comedi_insn insn = *insnin] is the load of the callers. *)
Definition _comedi_do_insn (dev : Z) (insn : insn_field -> Z) : kcmd Z :=
  let! d := peek (insn I_data) in
  rt_printk "COMEDI DO INST" (Num <$> [insn I_insn; insn I_n; d; insn I_subdev; insn I_chanspec]) ;;
  write_samples "#" 13290656 (insn I_data) 0 (Z.to_nat (insn I_n)) ;;
  let retval := i32 (insn I_n) in
  rt_printk "COMEDI DO INST RETURNS" [Num retval] ;;
  ret retval.

Definition do_insn_at (dev insnin : Z) : kcmd Z :=
  let! s := get in _comedi_do_insn dev (load_struct insn_layout (kmem s) insnin).

(** The loop of [rt_comedi_do_insnlist] from instruction [i].  The length of the
    list is read each time.  [n] is unsigned, and so is its comparison with 0. *)
Fixpoint insnlist_loop (dev ilist i : Z) (fuel : nat) : kcmd Z :=
  match fuel with
  | O => fault OutOfFuel
  | S c =>
      let! n_insns := peek (ilist + field_at list_layout L_n_insns) in
      if n_insns <=? i then ret i else
      let! insns := peek (ilist + field_at list_layout L_insns) in
      let insn := u32 (insns + size_of insn_layout * i) in
      let! r := do_insn_at dev insn in
      poke (insn + field_at insn_layout I_n) (u32 r) ;;
      if u32 r <? 0 then ret i else insnlist_loop dev ilist (i + 1) c
  end.

(** The fuel: a turn for each instruction and the last test. *)
Definition rt_comedi_do_insnlist (dev ilist : Z) : kcmd Z :=
  let! n := peek (ilist + field_at list_layout L_n_insns) in
  insnlist_loop dev ilist 0 (S (Z.to_nat n)).

(** Stores to the fields of the local instruction. *)
Definition store_field (l : bytemem) (f : insn_field) (v : Z) : bytemem := store l (field_at insn_layout f) v.

(** The loop of [RT_comedi_do_insnlist]; [insns] advances, [local] is the array
    [insn], and the header is read again each time. *)
Fixpoint RT_insnlist_loop (dev ofstlens data_ofsts data insns i : Z) (local : bytemem) (count : nat) : kcmd Z :=
  match count with
  | O => ret i
  | S c =>
      let! s := get in
      let o := load_struct insns_layout (kmem s) ofstlens in
      if 2 * size_of insn_layout <? o O_insn_len then fault StackSmash else
      let local := memcpy local (kmem s) insns (o O_insn_len) in
      let local := store_field local I_data (elem data (load (kmem s) (elem data_ofsts i))) in
      let local := store_field local I_subdev (load (kmem s) (u32 (insns + o O_subdev_ofst))) in
      let local := store_field local I_chanspec (load (kmem s) (u32 (insns + o O_chanspec_ofst))) in
      let! r := _comedi_do_insn dev (load_struct insn_layout local 0) in
      let! s := get in
      let o := load_struct insns_layout (kmem s) ofstlens in
      poke (u32 (insns + o O_n_ofst)) (u32 r) ;;
      if u32 r <? 0 then ret i
      else
        let! s := get in
        let o := load_struct insns_layout (kmem s) ofstlens in
        RT_insnlist_loop dev ofstlens data_ofsts data (u32 (insns + o O_insn_len)) (i + 1) local c
  end.

Definition RT_comedi_do_insnlist (dev n_insns ofstlens : Z) : kcmd Z :=
  let! s := get in
  let o := load_struct insns_layout (kmem s) ofstlens in
  RT_insnlist_loop dev ofstlens (u32 (ofstlens + o O_data_ofsts)) (u32 (ofstlens + o O_data_ofst))
    (u32 (ofstlens + o O_insns_ofst)) 0 stack (Z.to_nat n_insns).

(** [data] is a local with the value 0; the channel is not set. *)
Definition _rt_comedi_trigger (dev subdev : Z) : kcmd Z :=
  poke local_data 0 ;;
  _comedi_do_insn dev (fun f => match f with
    | I_insn => INSN_INTTRIG | I_n => 1 | I_data => local_data | I_subdev => subdev
    | I_chanspec => load stack (field_at insn_layout I_chanspec)
    end).

Definition rt_comedi_trigger (dev subdev : Z) : kcmd Z :=
  rt_printk "COMEDI TRIGGER" [Num dev; Num subdev] ;; _rt_comedi_trigger dev subdev.

(** ** The table *)

Inductive service :=
| OPEN | CLOSE | LOCK | UNLOCK | CANCEL | REGISTER_CALLBACK | COMMAND | COMMAND_TEST | TRIGGER
| DATA_WRITE | DATA_READ | DATA_READ_DELAYED | DATA_READ_HINT | DIO_CONFIG | DIO_READ | DIO_WRITE | DIO_BITFIELD
| GET_N_SUBDEVICES | GET_VERSION_CODE | GET_DRIVER_NAME | GET_BOARD_NAME | GET_SUBDEVICE_TYPE
| FIND_SUBDEVICE_TYPE | GET_N_CHANNELS | GET_MAXDATA | GET_N_RANGES | DO_INSN | DO_INSN_LIST | POLL
| GET_SUBDEVICE_FLAGS | GET_KRANGE | GET_BUF_HEAD_POS | SET_USER_INT_COUNT | MAP | UNMAP
| WAIT_ | WAIT_IF | WAIT_UNTIL | WAIT_TIMED
| COMD_DATA_READ | COMD_DATA_WREAD | COMD_DATA_WREAD_IF | COMD_DATA_WREAD_UNTIL | COMD_DATA_WREAD_TIMED
| COMD_DATA_WRITE | RT_COMMAND | RT_DO_INSN_LIST | RT_COMD_DATA_WREAD.

(** An argument of a call. *)
Definition num (l : list arg) (i : nat) : Z := match l !! i with Some (Num z) => z | _ => 0 end.
Definition str (l : list arg) (i : nat) : string := match l !! i with Some (Str t) => t | _ => EmptyString end.

(** The type of an entry and its function. *)
Definition rtai_comedi_fun (k : service) (l : list arg) : Z * kcmd Z :=
  let a (i : Z) := num l (Z.to_nat i) in
  match k with
  | OPEN => (0, _comedi_open (str l O))
  | CLOSE => (0, _comedi_close (a 0))
  | LOCK => (0, _comedi_lock (a 0) (a 1))
  | UNLOCK => (0, _comedi_unlock (a 0) (a 1))
  | CANCEL => (0, _comedi_cancel (a 0) (a 1))
  | REGISTER_CALLBACK => (0, rt_comedi_register_callback (a 0) (a 1) (a 2) (a 3) (a 4))
  | COMMAND => (0, command_at false (a 0) (a 1))
  | COMMAND_TEST => (0, command_at true (a 0) (a 1))
  | TRIGGER => (0, rt_comedi_trigger (a 0) (a 1))
  | DATA_WRITE => (0, _comedi_data_write (a 0) (a 1) (a 2) (a 3) (a 4) (a 5))
  | DATA_READ => (0, _comedi_data_read (a 0) (a 1) (a 2) (a 3) (a 4) (a 5))
  | DATA_READ_DELAYED => (1, _comedi_data_read_delayed (a 0) (a 1) (a 2) (a 3) (a 4) (a 5) (a 6))
  | DATA_READ_HINT => (0, _comedi_data_read_hint (a 0) (a 1) (a 2) (a 3) (a 4))
  | DIO_CONFIG => (0, _comedi_dio_config (a 0) (a 1) (a 2) (a 3))
  | DIO_READ => (0, _comedi_dio_read (a 0) (a 1) (a 2) (a 3))
  | DIO_WRITE => (0, _comedi_dio_write (a 0) (a 1) (a 2) (a 3))
  | DIO_BITFIELD => (0, _comedi_dio_bitfield (a 0) (a 1) (a 2) (a 3))
  | GET_N_SUBDEVICES => (0, _comedi_get_n_subdevices (a 0))
  | GET_VERSION_CODE => (0, _comedi_get_version_code (a 0))
  | GET_DRIVER_NAME => (0, rt_comedi_get_driver_name (a 0) (a 1))
  | GET_BOARD_NAME => (0, rt_comedi_get_board_name (a 0) (a 1))
  | GET_SUBDEVICE_TYPE => (0, _comedi_get_subdevice_type (a 0) (a 1))
  | FIND_SUBDEVICE_TYPE => (0, _comedi_find_subdevice_by_type (a 0) (a 1) (a 2))
  | GET_N_CHANNELS => (0, _comedi_get_n_channels (a 0) (a 1))
  | GET_MAXDATA => (0, _comedi_get_maxdata (a 0) (a 1) (a 2))
  | GET_N_RANGES => (0, _comedi_get_n_ranges (a 0) (a 1) (a 2))
  | DO_INSN => (0, do_insn_at (a 0) (a 1))
  | DO_INSN_LIST => (0, rt_comedi_do_insnlist (a 0) (a 1))
  | POLL => (0, _comedi_poll (a 0) (a 1))
  | GET_SUBDEVICE_FLAGS => (0, _comedi_get_subdevice_flags (a 0) (a 1))
  | GET_KRANGE => (0, _comedi_get_krange (a 0) (a 1) (a 2) (a 3) (a 4))
  | GET_BUF_HEAD_POS => (0, _comedi_get_buf_head_pos (a 0) (a 1))
  | SET_USER_INT_COUNT => (0, _comedi_set_user_int_count (a 0) (a 1) (a 2))
  | MAP => (0, _comedi_map (a 0) (a 1) (a 2))
  | UNMAP => (0, _comedi_unmap (a 0) (a 1))
  | WAIT_ => (1, rt_comedi_wait (a 0))
  | WAIT_IF => (0, rt_comedi_wait_if (a 0))
  | WAIT_UNTIL => (1, _rt_comedi_wait_until (a 0) (a 1))
  | WAIT_TIMED => (1, _rt_comedi_wait_timed (a 0) (a 1))
  | COMD_DATA_READ => (0, rt_comedi_command_data_read (a 0) (a 1) (a 2) (a 3))
  | COMD_DATA_WREAD => (1, rt_comedi_command_data_wread (a 0) (a 1) (a 2) (a 3) (a 4))
  | COMD_DATA_WREAD_IF => (0, rt_comedi_command_data_wread_if (a 0) (a 1) (a 2) (a 3) (a 4))
  | COMD_DATA_WREAD_UNTIL => (1, _rt_comedi_command_data_wread_until (a 0) (a 1) (a 2) (a 3) (a 4) (a 5))
  | COMD_DATA_WREAD_TIMED => (1, _rt_comedi_command_data_wread_timed (a 0) (a 1) (a 2) (a 3) (a 4) (a 5))
  | COMD_DATA_WRITE => (0, rt_comedi_command_data_write (a 0) (a 1) (a 2) (a 3))
  | RT_COMMAND => (0, RT_comedi_command (a 0) (a 1) (negb (a 2 =? 0)))
  | RT_DO_INSN_LIST => (0, RT_comedi_do_insnlist (a 0) (a 1) (a 2))
  | RT_COMD_DATA_WREAD => (0, RT_comedi_command_data_wread (a 0) (a 1) (a 2) (a 3) (a 4) (a 5) (a 6))
  end.
End Module_.
