(* ===== verification/KcomediFacts.v ===== *)
(** * The comedi test module: memory and instructions *)

From stdpp Require Import base tactics numbers list strings.
From S2P Require Import Prelude Kcomedi.

#[local] Open Scope cmonad_scope.

(** ** Bytes and words *)

Definition bytes_ok (m : bytemem) : Prop := forall a, 0 <= m a < 256.

Lemma word_of_bytes b0 b1 b2 b3 :
  0 <= b0 < 256 -> 0 <= b1 < 256 -> 0 <= b2 < 256 -> 0 <= b3 < 256 ->
  let v := b0 + 256 * b1 + 65536 * b2 + 16777216 * b3 in
  0 <= v < 2 ^ 32 /\ v mod 256 = b0 /\ v / 256 mod 256 = b1 /\ v / 65536 mod 256 = b2 /\ v / 16777216 mod 256 = b3.
Proof. intros. subst v. change (2 ^ 32) with 4294967296. split_and!; Z.to_euclidean_division_equations; lia. Qed.

Lemma bytes_of_word v : 0 <= v < 2 ^ 32 ->
  v mod 256 + 256 * (v / 256 mod 256) + 65536 * (v / 65536 mod 256) + 16777216 * (v / 16777216 mod 256) = v.
Proof. change (2 ^ 32) with 4294967296. intros. Z.to_euclidean_division_equations; lia. Qed.

Lemma load_range m a : bytes_ok m -> 0 <= load m a < 2 ^ 32.
Proof. intros H. exact (proj1 (word_of_bytes _ _ _ _ (H a) (H (a + 1)) (H (a + 2)) (H (a + 3)))). Qed.

Lemma load_ext m m' a : (forall b, a <= b < a + 4 -> m b = m' b) -> load m a = load m' a.
Proof. intros H. unfold load. now rewrite !H by lia. Qed.

Lemma store_other m a v b : b < a \/ a + 4 <= b -> store m a v b = m b.
Proof. intros H. unfold store, store_byte. repeat (case_match; bool_to_prop; try lia). Qed.

Lemma store_here m a v :
  store m a v a = v mod 256 /\ store m a v (a + 1) = v / 256 mod 256 /\
  store m a v (a + 2) = v / 65536 mod 256 /\ store m a v (a + 3) = v / 16777216 mod 256.
Proof. unfold store, store_byte. split_and!; repeat (case_match; bool_to_prop; try lia). Qed.

Lemma load_store m a v : 0 <= v < 2 ^ 32 -> load (store m a v) a = v.
Proof.
  intros H. destruct (store_here m a v) as (A & B & C & D). unfold load. rewrite A, B, C, D. now apply bytes_of_word.
Qed.

Lemma load_store_other m a v b : b + 4 <= a \/ a + 4 <= b -> load (store m a v) b = load m b.
Proof. intros H. apply load_ext. intros c Hc. apply store_other. lia. Qed.

Lemma store_bytes m a v : bytes_ok m -> bytes_ok (store m a v).
Proof. intros H b. unfold store, store_byte. repeat case_match; try apply H; apply Z.mod_pos_bound; lia. Qed.

(** A word stored over itself. *)
Lemma store_same m a b : bytes_ok m -> store m a (load m a) b = m b.
Proof.
  intros H. destruct (decide (b < a \/ a + 4 <= b)); [now apply store_other|].
  pose proof (word_of_bytes _ _ _ _ (H a) (H (a + 1)) (H (a + 2)) (H (a + 3))) as (_ & A & B & C & D).
  fold (load m a) in A, B, C, D. destruct (store_here m a (load m a)) as (A' & B' & C' & D').
  assert (b = a \/ b = a + 1 \/ b = a + 2 \/ b = a + 3) as [->|[->|[->| ->]]] by lia; congruence.
Qed.

Lemma elem_small a i : 0 <= a + 4 * i < 2 ^ 32 -> elem a i = a + 4 * i.
Proof. intros H. now apply wrap_u_id. Qed.

(** ** Samples *)

(** The memory after [count] samples from [base + i] at [a], and the lines. *)
Fixpoint filled (base a i : Z) (count : nat) (m : bytemem) : bytemem :=
  match count with
  | O => m
  | S c => filled base a (i + 1) c (store m (a + 4 * i) (base + i))
  end.

Fixpoint sample_lines (t : string) (base i : Z) (count : nat) : list line :=
  match count with
  | O => []
  | S c => LINE t [Num i; Num (base + i)] :: sample_lines t base (i + 1) c
  end.

(** The state after [m'] has replaced the memory and [l] was printed. *)
Definition grown (s : kcom) (m' : bytemem) (l : list line) : kcom :=
  KCOM m' (kresumsg s) (rev l ++ klog s) (kpauses s).

Lemma grown_grown s m1 l1 m2 l2 : grown (grown s m1 l1) m2 l2 = grown s m2 (l1 ++ l2).
Proof. unfold grown. cbn. now rewrite rev_app_distr, <- app_assoc. Qed.

Lemma grown_nil s : grown s (kmem s) [] = s.
Proof. now destruct s. Qed.

Lemma write_samples_eq t base a count : forall i s,
  0 <= a -> 0 <= i -> a + 4 * (i + Z.of_nat count) <= 2 ^ 32 -> 0 <= base -> base + i + Z.of_nat count < 2 ^ 32 ->
  write_samples t base a i count s
    = OK tt (grown s (filled base a i count (kmem s)) (sample_lines t base i count)).
Proof.
  induction count as [|c IH]; intros i s Ha Hi Hfit Hb Hv; cbn [write_samples filled sample_lines].
  - now rewrite grown_nil.
  - unfold bind at 1, poke, on_mem, modify, bind at 1, peek, bind at 1, get, ret, bind at 1, rt_printk, modify.
    cbn [kmem kresumsg klog kpauses]. rewrite elem_small by lia. rewrite load_store by lia.
    rewrite IH by lia. unfold grown. cbn. now rewrite <- app_assoc.
Qed.

Lemma filled_other base a count : forall i m b,
  b < a + 4 * i \/ a + 4 * (i + Z.of_nat count) <= b -> filled base a i count m b = m b.
Proof.
  induction count as [|c IH]; intros i m b Hb; cbn [filled]; [reflexivity|].
  rewrite IH by lia. apply store_other. lia.
Qed.

Lemma filled_bytes base a count : forall i m, bytes_ok m -> bytes_ok (filled base a i count m).
Proof. induction count as [|c IH]; intros i m Hm; cbn [filled]; [exact Hm|]. now apply IH, store_bytes. Qed.

Lemma filled_sample base a count : forall i m x,
  0 <= base + i -> base + i + Z.of_nat count < 2 ^ 32 -> i <= x < i + Z.of_nat count ->
  load (filled base a i count m) (a + 4 * x) = base + x.
Proof.
  induction count as [|c IH]; intros i m x Hb Hv Hx; cbn [filled]; [lia|].
  destruct (decide (x = i)) as [->|Hne].
  - rewrite (load_ext _ (store m (a + 4 * i) (base + i)));
      [apply load_store; lia|]. intros b Hbb. apply filled_other. lia.
  - apply IH; lia.
Qed.

(** ** Instructions *)

Definition FIRST : Z := 13290656.

(** What an instruction says, its samples apart; [n] of them. *)
Record job := JOB { j_insn : Z; j_n : Z; j_subdev : Z; j_chanspec : Z }.

(** What performing it prints, when the first sample was [d]. *)
Definition job_lines (b : job) (d : Z) : list line :=
  LINE "COMEDI DO INST" (Num <$> [j_insn b; j_n b; d; j_subdev b; j_chanspec b]) ::
  sample_lines "#" FIRST 0 (Z.to_nat (j_n b)) ++ [LINE "COMEDI DO INST RETURNS" [Num (j_n b)]].

Definition says (f : insn_field -> Z) (b : job) (a : Z) : Prop :=
  f I_insn = j_insn b /\ f I_n = j_n b /\ f I_data = a /\ f I_subdev = j_subdev b /\ f I_chanspec = j_chanspec b.

Lemma says_ext f g b a : (forall x, f x = g x) -> says f b a -> says g b a.
Proof. intros E. unfold says. now rewrite !E. Qed.

Lemma do_insn_eq dev f b a s :
  says f b a -> 0 <= a -> 1 <= j_n b -> a + 4 * j_n b <= 2 ^ 32 ->
  _comedi_do_insn dev f s
    = OK (j_n b) (grown s (filled FIRST a 0 (Z.to_nat (j_n b)) (kmem s)) (job_lines b (load (kmem s) a))).
Proof.
  intros (E1 & E2 & E3 & E4 & E5) Ha Hn Hfit. unfold _comedi_do_insn. rewrite E1, E2, E3, E4, E5.
  unfold bind at 1, peek, bind at 1, get, ret at 1. unfold bind at 1. unfold rt_printk at 1, modify at 1.
  unfold bind at 1. rewrite write_samples_eq; [| lia | lia | rewrite Z2Nat.id; lia | unfold FIRST; lia |].
  2: { unfold FIRST. rewrite Z2Nat.id by lia. change (2 ^ 32) with 4294967296 in *. lia. }
  unfold grown. cbn [kmem kresumsg klog kpauses]. unfold rt_printk, modify, bind, ret.
  cbn [kmem kresumsg klog kpauses]. rewrite wrap_s_id; [| lia | change (2 ^ 32) with 4294967296 in *; lia].
  f_equal. f_equal. unfold job_lines, FIRST. cbn [rev]. rewrite rev_app_distr. cbn. now rewrite <- !app_assoc.
Qed.

(** ** Lists of instructions *)

(** The samples of instruction [i] are at [place i]; they fit in memory. *)
Definition placed (place : nat -> Z) (l : list job) : Prop :=
  forall i b, l !! i = Some b -> 1 <= j_n b /\ 0 <= place i /\ place i + 4 * j_n b <= 2 ^ 32.

(** The samples of two instructions do not overlap. *)
Definition apart (place : nat -> Z) (l : list job) : Prop :=
  forall i i' b b', l !! i = Some b -> l !! i' = Some b' -> i <> i' ->
  place i + 4 * j_n b <= place i' \/ place i' + 4 * j_n b' <= place i.

(** No sample lies between [lo] and [hi]. *)
Definition clear (place : nat -> Z) (l : list job) (lo hi : Z) : Prop :=
  forall i b, l !! i = Some b -> place i + 4 * j_n b <= lo \/ hi <= place i.

(** The first [k] instructions were performed on [m0], and nothing else. *)
Record performed (place : nat -> Z) (l : list job) (m0 : bytemem) (k : nat) (m : bytemem) : Prop := {
  pf_bytes : bytes_ok m;
  pf_rest : forall a, (forall i b, (i < k)%nat -> l !! i = Some b -> a < place i \/ place i + 4 * j_n b <= a) -> m a = m0 a;
  pf_samples : forall i b x, (i < k)%nat -> l !! i = Some b -> 0 <= x < j_n b -> load m (place i + 4 * x) = FIRST + x
}.

(** The lines of the instructions from [i]. *)
Fixpoint all_lines (place : nat -> Z) (m0 : bytemem) (i : nat) (l : list job) : list line :=
  match l with
  | [] => []
  | b :: l' => job_lines b (load m0 (place i)) ++ all_lines place m0 (S i) l'
  end.

Section Lists.
Variables (place : nat -> Z) (l : list job) (m0 : bytemem).
Hypothesis Hplaced : placed place l.
Hypothesis Hapart : apart place l.

Lemma performed_0 : bytes_ok m0 -> performed place l m0 0 m0.
Proof. intros H. constructor; [exact H | reflexivity | intros; lia]. Qed.

Lemma performed_ext k m m' : (forall a, m' a = m a) -> performed place l m0 k m -> performed place l m0 k m'.
Proof.
  intros E [A B C]. constructor.
  - intros a. rewrite E. apply A.
  - intros a Ha. rewrite E. now apply B.
  - intros i b x Hi Hb Hx. rewrite (load_ext m' m); [now apply (C i b) | intros; apply E].
Qed.

(** What lies clear of the samples is still there. *)
Lemma performed_load k m lo hi a :
  performed place l m0 k m -> clear place l lo hi -> lo <= a -> a + 4 <= hi -> load m a = load m0 a.
Proof.
  intros [_ B _] Hc Hlo Hhi. apply load_ext. intros b Hb. apply B. intros i j _ Hj. destruct (Hc i j Hj); lia.
Qed.

Lemma performed_first k m b : performed place l m0 k m -> l !! k = Some b -> load m (place k) = load m0 (place k).
Proof.
  intros [_ B _] Hb. apply load_ext. intros a Ha. apply B. intros i b' Hi Hb'.
  destruct (Hplaced k b Hb). destruct (Hapart i k b' b Hb' Hb ltac:(lia)); lia.
Qed.

Lemma performed_S k m b :
  performed place l m0 k m -> l !! k = Some b ->
  performed place l m0 (S k) (filled FIRST (place k) 0 (Z.to_nat (j_n b)) m).
Proof.
  intros [A B C] Hb. pose proof (Hplaced k b Hb) as (Hn & Hp & Hf).
  assert (Hv : FIRST + 0 + Z.of_nat (Z.to_nat (j_n b)) < 2 ^ 32).
  { rewrite Z2Nat.id by lia. unfold FIRST. change (2 ^ 32) with 4294967296 in *. lia. }
  constructor.
  - now apply filled_bytes.
  - intros a Ha. rewrite filled_other; [apply B | rewrite Z2Nat.id by lia].
    + intros i b' Hi. apply Ha. lia.
    + specialize (Ha k b ltac:(lia) Hb). lia.
  - intros i b' x Hi Hb' Hx. destruct (decide (i = k)) as [->|Hne].
    + assert (b' = b) as -> by congruence. apply filled_sample; [unfold FIRST; lia | exact Hv | rewrite Z2Nat.id; lia].
    + rewrite (load_ext _ m); [apply (C i b'); [lia | assumption..]|]. intros a Ha'. apply filled_other. rewrite Z2Nat.id by lia.
      destruct (Hapart i k b' b Hb' Hb Hne); lia.
Qed.

(** [n] written back over itself. *)
Lemma performed_writeback k m a v :
  performed place l m0 k m -> load m a = v -> performed place l m0 k (store m a v).
Proof.
  intros H <-. apply (performed_ext k m); [|exact H]. intros b. apply store_same. apply H.
Qed.
End Lists.

(** ** The list of the caller *)

Section Direct.
Context `{!Machine, !MachineLaws}.
Variables (place : nat -> Z) (l : list job) (m0 : bytemem).

(** A [comedi_insnlist] at [ilist] and its array at [insns]. *)
Record direct (ilist insns : Z) : Prop := {
  di_n : load m0 (ilist + field_at list_layout L_n_insns) = Z.of_nat (length l);
  di_insns : load m0 (ilist + field_at list_layout L_insns) = insns;
  di_job : forall i b, l !! i = Some b ->
    says (load_struct insn_layout m0 (insns + size_of insn_layout * Z.of_nat i)) b (place i);
  di_fit : 0 <= insns /\ insns + size_of insn_layout * Z.of_nat (length l) <= 2 ^ 32;
  di_list : clear place l ilist (ilist + size_of list_layout);
  di_array : clear place l insns (insns + size_of insn_layout * Z.of_nat (length l))
}.

Hypothesis Hplaced : placed place l.
Hypothesis Hapart : apart place l.

Lemma insn_inside k i f : (i < k)%nat ->
  0 <= size_of insn_layout * Z.of_nat i + field_at insn_layout f /\
  size_of insn_layout * Z.of_nat i + field_at insn_layout f + 4 <= size_of insn_layout * Z.of_nat k.
Proof.
  intros Hik. destruct (lo_inside _ ml_insn f). assert (Z.of_nat i + 1 <= Z.of_nat k) by lia. nia.
Qed.

Lemma insnlist_loop_S dev ilist i c :
  insnlist_loop dev ilist i (S c) =
  (let! n_insns := peek (ilist + field_at list_layout L_n_insns) in
   if n_insns <=? i then ret i else
   let! insns := peek (ilist + field_at list_layout L_insns) in
   let insn := u32 (insns + size_of insn_layout * i) in
   let! r := do_insn_at dev insn in
   poke (insn + field_at insn_layout I_n) (u32 r) ;;
   if u32 r <? 0 then ret i else insnlist_loop dev ilist (i + 1) c).
Proof. reflexivity. Qed.

Lemma direct_loop dev ilist insns c : forall k s,
  direct ilist insns -> (k + c = length l)%nat -> performed place l m0 k (kmem s) ->
  exists m, insnlist_loop dev ilist (Z.of_nat k) (S c) s
      = OK (Z.of_nat (length l)) (grown s m (all_lines place m0 k (drop k l))) /\
    performed place l m0 (length l) m.
Proof.
  induction c as [|c IH]; intros k s Hd Hk Hp.
  all: assert (El : load (kmem s) (ilist + field_at list_layout L_n_insns) = Z.of_nat (length l))
    by (destruct (lo_inside _ ml_list L_n_insns);
        rewrite (performed_load place l m0 k _ _ _ _ Hp (di_list _ _ Hd)) by lia; apply Hd).
  - exists (kmem s). assert (k = length l) as -> by lia. split; [|exact Hp].
    rewrite insnlist_loop_S. unfold bind at 1, peek, bind at 1, get, ret at 1. rewrite El, Z.leb_refl.
    rewrite drop_ge by lia. now rewrite grown_nil.
  - destruct (lookup_lt_is_Some_2 l k ltac:(lia)) as [b Hb]. pose proof (Hplaced k b Hb) as (Hn & Hpl & Hf).
    assert (Ea : load (kmem s) (ilist + field_at list_layout L_insns) = insns).
    { destruct (lo_inside _ ml_list L_insns).
      rewrite (performed_load place l m0 k _ _ _ _ Hp (di_list _ _ Hd)) by lia. apply Hd. }
    assert (Ew : u32 (insns + size_of insn_layout * Z.of_nat k) = insns + size_of insn_layout * Z.of_nat k).
    { apply wrap_u_id. destruct (di_fit _ _ Hd). pose proof (insn_inside (length l) k I_n ltac:(lia)).
      destruct (lo_inside _ ml_insn I_n). nia. }
    assert (Efld : forall m f, performed place l m0 (S k) m \/ performed place l m0 k m ->
      load_struct insn_layout m (insns + size_of insn_layout * Z.of_nat k) f
        = load_struct insn_layout m0 (insns + size_of insn_layout * Z.of_nat k) f).
    { intros m f Hm. unfold load_struct. pose proof (insn_inside (length l) k f ltac:(lia)).
      destruct Hm as [Hm|Hm]; apply (performed_load place l m0 _ _ _ _ _ Hm (di_array _ _ Hd)); lia. }
    pose proof (di_job _ _ Hd k b Hb) as Hs.
    assert (Hs' : says (load_struct insn_layout (kmem s) (insns + size_of insn_layout * Z.of_nat k)) b (place k)).
    { apply (says_ext _ _ _ _ (fun f => eq_sym (Efld (kmem s) f (or_intror Hp))) Hs). }
    pose proof (performed_S place l m0 Hplaced Hapart k _ b Hp Hb) as Hp'.
    rewrite insnlist_loop_S. unfold bind at 1, peek at 1, bind at 1, get, ret at 1. rewrite El.
    rewrite (proj2 (Z.leb_gt _ _)) by lia. unfold bind at 1, peek at 1, bind at 1, get, ret at 1. rewrite Ea, Ew.
    unfold bind at 1, do_insn_at, bind at 1, get. rewrite (do_insn_eq dev _ b (place k)) by assumption.
    unfold bind at 1, poke, on_mem, modify. rewrite (wrap_u_id 32) by (change (2 ^ 32) with 4294967296 in *; lia).
    rewrite (proj2 (Z.ltb_ge _ _)) by lia. replace (Z.of_nat k + 1) with (Z.of_nat (S k)) by lia.
    set (m1 := filled FIRST (place k) 0 (Z.to_nat (j_n b)) (kmem s)) in *.
    set (s1 := KCOM _ _ _ _).
    assert (Hp1 : performed place l m0 (S k) (kmem s1)).
    { apply performed_writeback; [exact Hp'|]. cbn [kmem grown].
      rewrite <- (proj1 (proj2 Hs)). exact (Efld m1 I_n (or_introl Hp')). }
    destruct (IH (S k) s1 Hd ltac:(lia) Hp1) as (m & E & Hm). exists m. split; [|exact Hm]. rewrite E. f_equal.
    rewrite (drop_S l b k Hb). cbn [all_lines].
    rewrite <- (performed_first place l m0 Hplaced Hapart k _ b Hp Hb). unfold s1, grown.
    cbn [kmem kresumsg klog kpauses]. now rewrite rev_app_distr, <- app_assoc.
Qed.

Lemma direct_run dev ilist insns s :
  kmem s = m0 -> bytes_ok m0 -> direct ilist insns ->
  exists m, rt_comedi_do_insnlist dev ilist s = OK (Z.of_nat (length l)) (grown s m (all_lines place m0 0 l)) /\
    performed place l m0 (length l) m.
Proof.
  intros E Hb Hd. destruct (direct_loop dev ilist insns (length l) 0 s Hd eq_refl) as (m & Hrun & Hm).
  - rewrite E. now apply performed_0.
  - exists m. split; [|exact Hm]. rewrite drop_0 in Hrun. rewrite <- Hrun.
    unfold rt_comedi_do_insnlist, bind at 1, peek, bind at 1, get, ret. rewrite E, (di_n _ _ Hd), Nat2Z.id. reflexivity.
Qed.
End Direct.

(** ** The list in a block *)

Section Remote.
Context `{!Machine, !MachineLaws}.
Variables (place : nat -> Z) (l : list job) (m0 : bytemem).

(** A block at [B], from a machine where an instruction has the layout [rl],
    with [insn] and [n] where they are here. *)
Record remote (rl : layout insn_field) (B : Z) (o : insns_field -> Z) : Prop := {
  re_header : forall f, load_struct insns_layout m0 B f = o f;
  re_layout : layout_ok rl;
  re_same : field_at rl I_insn = field_at insn_layout I_insn /\ field_at rl I_n = field_at insn_layout I_n;
  re_len : o O_insn_len = size_of rl /\ size_of rl <= 2 * size_of insn_layout;
  re_fields : o O_subdev_ofst = field_at rl I_subdev /\ o O_chanspec_ofst = field_at rl I_chanspec /\ o O_n_ofst = field_at rl I_n;
  re_job : forall i b, l !! i = Some b ->
    let f := load_struct rl m0 (B + o O_insns_ofst + size_of rl * Z.of_nat i) in
    f I_insn = j_insn b /\ f I_n = j_n b /\ f I_subdev = j_subdev b /\ f I_chanspec = j_chanspec b;
  re_place : forall i b, l !! i = Some b ->
    place i = B + o O_data_ofst + 4 * load m0 (B + o O_data_ofsts + 4 * Z.of_nat i);
  re_base : 0 <= B /\ (forall f, 0 <= o f) /\ B + o O_data_ofst < 2 ^ 32;
  re_fit : B + o O_insns_ofst + size_of rl * Z.of_nat (length l) < 2 ^ 32 /\
           B + o O_data_ofsts + 4 * Z.of_nat (length l) < 2 ^ 32;
  re_clear : clear place l B (B + size_of insns_layout);
  re_insns : clear place l (B + o O_insns_ofst) (B + o O_insns_ofst + size_of rl * Z.of_nat (length l));
  re_ofsts : clear place l (B + o O_data_ofsts) (B + o O_data_ofsts + 4 * Z.of_nat (length l))
}.

Hypothesis Hplaced : placed place l.
Hypothesis Hapart : apart place l.
Hypothesis Hbytes : bytes_ok m0.

Lemma load_field_same local f v : 0 <= v < 2 ^ 32 -> load (store_field local f v) (field_at insn_layout f) = v.
Proof. apply load_store. Qed.

Lemma load_field_other local f g v : g <> f ->
  load (store_field local f v) (field_at insn_layout g) = load local (field_at insn_layout g).
Proof. intros E. apply load_store_other. destruct (lo_apart _ ml_insn g f E); lia. Qed.

Lemma load_memcpy local m src n a : 0 <= a -> a + 4 <= n -> 0 <= src -> src + n <= 2 ^ 32 ->
  load (memcpy local m src n) a = load m (src + a).
Proof.
  intros Ha Hn Hs Hf. unfold load, memcpy.
  repeat rewrite (proj2 (andb_true_iff _ _)) by (split; [apply Z.leb_le | apply Z.ltb_lt]; lia).
  rewrite !wrap_u_id by lia. now rewrite !Z.add_assoc.
Qed.
(** The local instruction that the copy and the three stores leave. *)
Lemma local_says local m src n b a :
  (forall f, f = I_insn \/ f = I_n -> field_at insn_layout f + 4 <= n) -> 0 <= src -> src + n <= 2 ^ 32 ->
  load m (src + field_at insn_layout I_insn) = j_insn b -> load m (src + field_at insn_layout I_n) = j_n b ->
  0 <= a < 2 ^ 32 -> 0 <= j_subdev b < 2 ^ 32 -> 0 <= j_chanspec b < 2 ^ 32 ->
  says (load_struct insn_layout
    (store_field (store_field (store_field (memcpy local m src n) I_data a) I_subdev (j_subdev b)) I_chanspec (j_chanspec b)) 0) b a.
Proof.
  intros Hn Hs Hf E1 E2 Ha Hsd Hcs. unfold says, load_struct. rewrite !Z.add_0_l.
  destruct (lo_inside _ ml_insn I_insn), (lo_inside _ ml_insn I_n).
  rewrite (load_field_same _ I_chanspec), !(load_field_other _ I_chanspec) by (assumption || discriminate).
  rewrite (load_field_same _ I_subdev), !(load_field_other _ I_subdev) by (assumption || discriminate).
  rewrite (load_field_same _ I_data), !(load_field_other _ I_data) by (assumption || discriminate).
  rewrite !load_memcpy by (auto || lia). now split_and!.
Qed.
Lemma remote_header rl B o k m f :
  remote rl B o -> performed place l m0 k m -> load_struct insns_layout m B f = o f.
Proof.
  intros Hr Hm. rewrite <- (re_header _ _ _ Hr f). unfold load_struct. destruct (lo_inside _ ml_insns f).
  apply (performed_load place l m0 k m _ _ _ Hm (re_clear _ _ _ Hr)); lia.
Qed.

(** A word of instruction [i] in the block, its address and what it holds. *)
Lemma remote_insn rl B o k m i f :
  remote rl B o -> performed place l m0 k m -> (i < length l)%nat ->
  let p := B + o O_insns_ofst + size_of rl * Z.of_nat i in
  u32 (p + field_at rl f) = p + field_at rl f /\ load m (p + field_at rl f) = load_struct rl m0 p f /\ 0 <= p /\ p + size_of rl < 2 ^ 32 /\ field_at rl f + 4 <= size_of rl.
Proof.
  intros Hr Hm Hi p. destruct (lo_inside _ (re_layout _ _ _ Hr) f). destruct (re_base _ _ _ Hr) as (Hb & Ho & _).
  destruct (re_fit _ _ _ Hr) as [Hf _]. pose proof (Ho O_insns_ofst).
  assert (Z.of_nat i + 1 <= Z.of_nat (length l)) by lia. subst p. split_and!; try nia.
  - apply wrap_u_id. nia.
  - apply (performed_load place l m0 k m _ _ _ Hm (re_insns _ _ _ Hr)); nia.
Qed.

Lemma remote_data rl B o k m b :
  remote rl B o -> performed place l m0 k m -> l !! k = Some b ->
  elem (B + o O_data_ofst) (load m (elem (B + o O_data_ofsts) (Z.of_nat k))) = place k.
Proof.
  intros Hr Hm Hb. pose proof (lookup_lt_Some _ _ _ Hb) as Hk. destruct (re_base _ _ _ Hr) as (HB & Ho & _).
  destruct (re_fit _ _ _ Hr) as [_ Hf]. pose proof (Ho O_data_ofsts).
  rewrite (elem_small (B + o O_data_ofsts)) by lia.
  rewrite (performed_load place l m0 k m _ _ _ Hm (re_ofsts _ _ _ Hr)) by lia.
  rewrite (re_place _ _ _ Hr k b Hb). apply elem_small. rewrite <- (re_place _ _ _ Hr k b Hb).
  pose proof (Hplaced k b Hb). lia.
Qed.

(** One turn of the loop. *)
Lemma remote_turn dev rl B o c k s local b :
  remote rl B o -> performed place l m0 k (kmem s) -> l !! k = Some b ->
  exists local' m, performed place l m0 (S k) m /\
    RT_insnlist_loop dev B (B + o O_data_ofsts) (B + o O_data_ofst) (B + o O_insns_ofst + size_of rl * Z.of_nat k)
      (Z.of_nat k) local (S c) s
    = RT_insnlist_loop dev B (B + o O_data_ofsts) (B + o O_data_ofst) (B + o O_insns_ofst + size_of rl * Z.of_nat (S k))
      (Z.of_nat (S k)) local' c (grown s m (job_lines b (load m0 (place k)))).
Proof.
  intros Hr Hp Hb. pose proof (lookup_lt_Some _ _ _ Hb) as Hk. pose proof (Hplaced k b Hb) as (Hn & Hpl & Hf).
  pose proof (performed_S place l m0 Hplaced Hapart k _ b Hp Hb) as Hp'.
  pose proof (fun f => remote_insn rl B o k (kmem s) k f Hr Hp Hk) as Hi.
  destruct (re_job _ _ _ Hr k b Hb) as (J1 & J2 & J3 & J4). destruct (re_same _ _ _ Hr) as [S1 S2].
  destruct (re_len _ _ _ Hr) as [L1 L2]. destruct (re_fields _ _ _ Hr) as (F1 & F2 & F3).
  set (p := B + o O_insns_ofst + size_of rl * Z.of_nat k) in *. cbn zeta in Hi.
  assert (Hrange : forall a, 0 <= load m0 a < 2 ^ 32) by (intros a; now apply load_range).
  set (d := load m0 (place k)).
  cbn [RT_insnlist_loop]. unfold bind at 1, get. rewrite !(remote_header rl B o k _ _ Hr Hp), L1, F1, F2.
  rewrite (proj2 (Z.ltb_ge _ _)) by lia. rewrite (remote_data rl B o k _ b Hr Hp Hb).
  rewrite (proj1 (Hi I_subdev)), (proj1 (Hi I_chanspec)).
  rewrite (proj1 (proj2 (Hi I_subdev))), (proj1 (proj2 (Hi I_chanspec))), J3, J4.
  set (local' := store_field _ _ _). unfold bind at 1.
  rewrite (do_insn_eq dev _ b (place k)); [| | lia | lia | exact Hf].
  2: { apply local_says; try lia.
       - intros f [-> | ->]; [rewrite <- S1 | rewrite <- S2]; apply Hi.
       - apply (Hi I_n).
       - destruct (Hi I_n) as (_ & _ & _ & Hfit & _). lia.
       - rewrite <- S1, <- J1. apply (Hi I_insn).
       - rewrite <- S2, <- J2. apply (Hi I_n).
       - rewrite <- J3. apply Hrange.
       - rewrite <- J4. apply Hrange. }
  rewrite (performed_first place l m0 Hplaced Hapart k _ b Hp Hb). fold d.
  set (m1 := filled FIRST (place k) 0 (Z.to_nat (j_n b)) (kmem s)) in *.
  unfold bind at 1, get. cbn [kmem grown]. rewrite !(remote_header rl B o (S k) m1 _ Hr Hp'), F3, (proj1 (Hi I_n)).
  unfold bind at 1, poke, on_mem, modify. rewrite (wrap_u_id 32 (j_n b)) by (change (2 ^ 32) with 4294967296 in *; lia).
  rewrite (proj2 (Z.ltb_ge _ _)) by lia. unfold bind at 1, get. cbn [kmem grown kresumsg klog kpauses].
  set (m2 := store m1 _ _).
  assert (Hp2 : performed place l m0 (S k) m2).
  { apply performed_writeback; [exact Hp'|]. destruct (remote_insn rl B o (S k) m1 k I_n Hr Hp' Hk) as (_ & E & _).
    fold p in E. rewrite E. exact J2. }
  rewrite !(remote_header rl B o (S k) m2 _ Hr Hp2), L1. exists local', m2. split; [exact Hp2|].
  destruct (Hi I_n) as (_ & _ & H1 & H2 & H3). destruct (lo_inside _ (re_layout _ _ _ Hr) I_n).
  rewrite (wrap_u_id 32 (p + _)) by lia. replace (Z.of_nat k + 1) with (Z.of_nat (S k)) by lia.
  replace (p + size_of rl) with (B + o O_insns_ofst + size_of rl * Z.of_nat (S k)) by (subst p; lia). reflexivity.
Qed.

Lemma remote_loop dev rl B o c : forall k s local,
  remote rl B o -> (k + c = length l)%nat -> performed place l m0 k (kmem s) ->
  exists m, RT_insnlist_loop dev B (B + o O_data_ofsts) (B + o O_data_ofst)
      (B + o O_insns_ofst + size_of rl * Z.of_nat k) (Z.of_nat k) local c s
      = OK (Z.of_nat (length l)) (grown s m (all_lines place m0 k (drop k l))) /\
    performed place l m0 (length l) m.
Proof.
  induction c as [|c IH]; intros k s local Hr Hk Hp.
  - exists (kmem s). assert (k = length l) as -> by lia. split; [|exact Hp].
    rewrite drop_ge by lia. now rewrite grown_nil.
  - destruct (lookup_lt_is_Some_2 l k ltac:(lia)) as [b Hb].
    destruct (remote_turn dev rl B o c k s local b Hr Hp Hb) as (local' & m1 & Hm1 & ->).
    destruct (IH (S k) (grown s m1 (job_lines b (load m0 (place k)))) local' Hr ltac:(lia) Hm1) as (m & E & Hm).
    exists m. split; [|exact Hm]. rewrite E, grown_grown, (drop_S l b k Hb). reflexivity.
Qed.

Lemma remote_run dev stack rl B o s :
  kmem s = m0 -> remote rl B o ->
  exists m, RT_comedi_do_insnlist stack dev (Z.of_nat (length l)) B s
      = OK (Z.of_nat (length l)) (grown s m (all_lines place m0 0 l)) /\
    performed place l m0 (length l) m.
Proof.
  intros E Hr. destruct (re_base _ _ _ Hr) as (HB & Ho & Hd). destruct (re_fit _ _ _ Hr) as [F1 F2].
  destruct (lo_inside _ (re_layout _ _ _ Hr) I_n).
  destruct (remote_loop dev rl B o (length l) 0 s stack Hr eq_refl) as (m & Hrun & Hm).
  - rewrite E. now apply performed_0.
  - exists m. split; [|exact Hm]. rewrite drop_0 in Hrun. rewrite <- Hrun.
    unfold RT_comedi_do_insnlist, bind at 1, get. rewrite E, !(re_header _ _ _ Hr), Nat2Z.id.
    pose proof (Ho O_data_ofsts). pose proof (Ho O_data_ofst). pose proof (Ho O_insns_ofst).
    rewrite !wrap_u_id by nia. f_equal; lia.
Qed.
End Remote.
