(* ===== verification/KcomediTheorems.v ===== *)
(** * The comedi test module: theorems

    The remote form of a call does what the call does: for lists of
    instructions in a block of another machine, for reads that wait, for
    commands.  The entries of the table that may suspend their caller are those
    marked so, with one exception. *)

From stdpp Require Import base tactics numbers list strings.
From S2P Require Import Prelude Kcomedi KcomediFacts.

#[local] Open Scope cmonad_scope.

(** ** Lists of instructions *)

(** Outside the samples. *)
Definition beside (place : nat -> Z) (l : list job) (a : Z) : Prop :=
  forall i b, l !! i = Some b -> a < place i \/ place i + 4 * j_n b <= a.

Lemma all_lines_ext place place' m m' l : forall k,
  (forall i b, l !! i = Some b -> load m (place (k + i)%nat) = load m' (place' (k + i)%nat)) ->
  all_lines place m k l = all_lines place' m' k l.
Proof.
  induction l as [|b l IH]; intros k H; [reflexivity|]. cbn [all_lines]. f_equal.
  - f_equal. specialize (H O b eq_refl). now rewrite Nat.add_0_r in H.
  - apply IH. intros i b' Hb'. specialize (H (S i) b' Hb'). now rewrite Nat.add_succ_r in H.
Qed.

Lemma performed_all place l m0 m :
  performed place l m0 (length l) m ->
  (forall i b x, l !! i = Some b -> 0 <= x < j_n b -> load m (place i + 4 * x) = FIRST + x) /\
  (forall a, beside place l a -> m a = m0 a).
Proof.
  intros [_ B C]. split.
  - intros i b x Hb. apply (C i b x); [now apply lookup_lt_Some in Hb | exact Hb].
  - intros a Ha. apply B. intros i b _. apply Ha.
Qed.

(** C22: a list of instructions sent in a block does what the list does where
    it is.  The block may come from a machine with another layout of
    [comedi_insn], twice as large at most, as long as [insn] and [n] are where
    they are here.  Both calls perform every instruction and return their
    number, print the same lines, leave the same samples and change nothing
    else. *)
Theorem insnlist_remote_agrees `{!Machine, !MachineLaws} (l : list job) (dev : Z)
    (place : nat -> Z) (ilist insns : Z) (s : kcom)
    (place' : nat -> Z) (rl : layout insn_field) (B : Z) (o : insns_field -> Z) (stack : bytemem) (s' : kcom) :
  placed place l -> apart place l -> bytes_ok (kmem s) -> direct place l (kmem s) ilist insns ->
  placed place' l -> apart place' l -> bytes_ok (kmem s') -> remote place' l (kmem s') rl B o ->
  (forall i b, l !! i = Some b -> load (kmem s) (place i) = load (kmem s') (place' i)) ->
  exists m m' lines,
    rt_comedi_do_insnlist dev ilist s = OK (Z.of_nat (length l)) (grown s m lines) /\
    RT_comedi_do_insnlist stack dev (Z.of_nat (length l)) B s' = OK (Z.of_nat (length l)) (grown s' m' lines) /\
    (forall i b x, l !! i = Some b -> 0 <= x < j_n b ->
       load m (place i + 4 * x) = FIRST + x /\ load m' (place' i + 4 * x) = FIRST + x) /\
    (forall a, beside place l a -> m a = kmem s a) /\ (forall a, beside place' l a -> m' a = kmem s' a).
Proof.
  intros Hp Ha Hb Hd Hp' Ha' Hb' Hr Hfirst.
  destruct (direct_run place l (kmem s) Hp Ha dev ilist insns s eq_refl Hb Hd) as (m & E & Hm).
  destruct (remote_run place' l (kmem s') Hp' Ha' Hb' dev stack rl B o s' eq_refl Hr) as (m' & E' & Hm').
  apply performed_all in Hm as [Hs Hrest]. apply performed_all in Hm' as [Hs' Hrest'].
  exists m, m', (all_lines place (kmem s) 0 l). split_and!; try assumption.
  - rewrite E'. do 2 f_equal. symmetry. now apply all_lines_ext.
  - intros i b x Hi Hx. split; [now apply (Hs i b) | now apply (Hs' i b)].
Qed.

(** ** A machine of 32 bits, and a block from one of 64 *)

(** Fields one after the other, at the offsets of a function. *)
Definition insn_at (data subdev chanspec : Z) (f : insn_field) : Z :=
  match f with I_insn => 0 | I_n => 4 | I_data => data | I_subdev => subdev | I_chanspec => chanspec end.
Definition cmd_at (f : cmd_field) : Z :=
  4 * match f with
      | C_subdev => 0 | C_flags => 1 | C_start_src => 2 | C_start_arg => 3 | C_scan_begin_src => 4
      | C_scan_begin_arg => 5 | C_convert_src => 6 | C_convert_arg => 7 | C_scan_end_src => 8
      | C_scan_end_arg => 9 | C_stop_src => 10 | C_stop_arg => 11 | C_chanlist => 12
      | C_chanlist_len => 13 | C_data => 14 | C_data_len => 15
      end.
Definition list_at (f : list_field) : Z := match f with L_n_insns => 0 | L_insns => 4 end.
Definition insns_at (f : insns_field) : Z :=
  4 * match f with
      | O_insns_ofst => 0 | O_data_ofsts => 1 | O_data_ofst => 2 | O_insn_len => 3
      | O_subdev_ofst => 4 | O_chanspec_ofst => 5 | O_n_ofst => 6
      end.
Definition cmds_at (f : cmds_field) : Z :=
  4 * match f with
      | O_cmd_ofst => 0 | O_cmd_len => 1 | O_chanlist_ofst => 2 | O_chanlist_len => 3
      | O_cmd_data_ofst => 4 | O_data_len => 5
      end.
Definition range_at (f : range_field) : Z := match f with R_min => 0 | R_max => 4 | R_flags => 8 end.

Definition demo_machine : Machine := {|
  insn_layout := LAYOUT (insn_at 8 12 16) 32;
  cmd_layout := LAYOUT cmd_at 64;
  list_layout := LAYOUT list_at 8;
  insns_layout := LAYOUT insns_at 28;
  cmds_layout := LAYOUT cmds_at 24;
  range_layout := LAYOUT range_at 12;
  PAGE_OFFSET := 3221225472;
  user_word a := 0 <= a < 3221225468;
  get_user := load;
  put_user := store;
  COMEDI_NAMELEN := 20;
  INSN_INTTRIG := 134217731;
  RTE_PERM := -4
|}.

Ltac each_field := constructor; [intros []; vm_compute; intuition congruence | intros [] [] ?; first [congruence | vm_compute; intuition congruence]].

Lemma demo_laws : @MachineLaws demo_machine.
Proof. constructor; [each_field.. | reflexivity | reflexivity]. Qed.

(** The words of a list over an empty memory. *)
Definition words (l : list (Z * Z)) : bytemem := foldr (fun w m => store m w.1 w.2) (fun _ => 0) l.

Lemma words_ok l : bytes_ok (words l).
Proof. induction l as [|w l IH]; [intros a; cbn; lia | now apply store_bytes]. Qed.

Definition demo_jobs : list job := [JOB 67108864 2 123 5; JOB 67108865 1 123 6].

Definition direct_state : kcom := KCOM (words
  [(100, 2); (104, 200);
   (200, 67108864); (204, 2); (208, 400); (212, 123); (216, 5);
   (232, 67108865); (236, 1); (240, 500); (244, 123); (248, 6); (400, 7); (404, 8); (500, 9)]) (fun _ => 0) [] [].

Definition direct_place (i : nat) : Z := match i with O => 400 | _ => 500 end.

Definition demo_header (f : insns_field) : Z :=
  match f with
  | O_insns_ofst => 28 | O_data_ofsts => 108 | O_data_ofst => 116 | O_insn_len => 40
  | O_subdev_ofst => 16 | O_chanspec_ofst => 20 | O_n_ofst => 4
  end.

Definition remote_state : kcom := KCOM (words
  [(1000, 28); (1004, 108); (1008, 116); (1012, 40); (1016, 16); (1020, 20); (1024, 4);
   (1028, 67108864); (1032, 2); (1044, 123); (1048, 5);
   (1068, 67108865); (1072, 1); (1084, 123); (1088, 6);
   (1108, 0); (1112, 2); (1116, 7); (1120, 8); (1124, 9)]) (fun _ => 0) [] [].

Definition remote_place (i : nat) : Z := match i with O => 1116 | _ => 1124 end.

Ltac two_jobs := intros [|[|?]] ? [= <-]; vm_compute; (reflexivity || intuition congruence).
Ltac four_jobs := intros [|[|?]] [|[|?]] ? ? [= <-] [= <-] ?; vm_compute; intuition congruence.

Lemma insnlist_remote_agrees_witness :
  exists m m' lines,
    @rt_comedi_do_insnlist demo_machine DEV 100 direct_state = OK 2 (grown direct_state m lines) /\
    @RT_comedi_do_insnlist demo_machine (fun _ => 0) DEV 2 1000 remote_state = OK 2 (grown remote_state m' lines) /\
    load m 404 = 13290657 /\ load m' 1120 = 13290657.
Proof.
  destruct (@insnlist_remote_agrees demo_machine demo_laws demo_jobs DEV direct_place 100 200 direct_state
    remote_place (LAYOUT (insn_at 8 16 20) 40) 1000 demo_header (fun _ => 0) remote_state)
    as (m & m' & lines & E & E' & Hs & _); [two_jobs | four_jobs | apply words_ok | | two_jobs | four_jobs | apply words_ok | | two_jobs |].
  - constructor; try reflexivity; try two_jobs. vm_compute. split; discriminate.
  - constructor; try two_jobs; try each_field; try (intros []; reflexivity); try (vm_compute; split_and!; (reflexivity || discriminate)).
    vm_compute. split_and!; try discriminate; try reflexivity. intros []; discriminate.
  - exists m, m', lines. split_and!; [exact E | exact E' | |];
    destruct (Hs O (JOB 67108864 2 123 5) 1 eq_refl ltac:(cbn; lia)) as [H1 H2]; assumption.
Defined.

(** ** Reads that wait *)

(** A call prints its arguments and the word at [a], and goes on. *)
Lemma announce t f a (k : kcmd Z) s :
  (let! v := peek a in rt_printk t (f v) ;; k) s
    = k (KCOM (kmem s) (kresumsg s) (LINE t (f (load (kmem s) a)) :: klog s) (kpauses s)).
Proof. reflexivity. Qed.

Section Wread.
Context `{!Machine, !MachineLaws}.
Variables (whoami now local : Z).

Definition pause_of (mode : waitmode) (until : Z) : pause :=
  match mode with WAIT => SuspendTimed 100000 | WAITIF => SuspendIf | WAITUNTIL => SuspendUntil until end.

(** [s'] is [s] after a wait with the mask at [cb]. *)
Record waited (cb : Z) (p : pause) (s s' : kcom) : Prop := {
  wa_mem : kmem s' = store (kmem s) cb CBMASK;
  wa_mine : kresumsg s' whoami = 0;
  wa_others : forall t, t <> whoami -> kresumsg s' t = kresumsg s t;
  wa_pauses : kpauses s' = p :: kpauses s;
  wa_log : exists l, klog s' = l ++ klog s
}.

Lemma wait_eq until cb mode s :
  KSPACE cb = true -> cb <> 0 ->
  exists s', __rt_comedi_wait whoami until cb mode s = OK 0 s' /\ waited cb (pause_of mode until) s s'.
Proof.
  intros Hk Hc. unfold __rt_comedi_wait. rewrite (proj2 (Z.eqb_neq _ _) Hc), Hk.
  destruct mode; unfold bind, rt_printk, pause_for, set_resumsg, poke, on_mem, modify, get, ret;
    cbn [kmem kresumsg klog kpauses]; rewrite Z.eqb_refl; (eexists; split; [reflexivity|]); constructor;
    cbn [kmem kresumsg klog kpauses]; try reflexivity; try (now rewrite Z.eqb_refl).
  all: try (intros t Ht; now rewrite (proj2 (Z.eqb_neq _ _) Ht)).
  all: first [now eexists [_] | now exists []].
Qed.

(** A line printed before the wait. *)
Lemma waited_after cb p s s' x :
  waited cb p (KCOM (kmem s) (kresumsg s) (x :: klog s) (kpauses s)) s' -> waited cb p s s'.
Proof. intros [A B C D [y E]]. constructor; try assumption. exists (y ++ [x]). now rewrite <- app_assoc. Qed.

Lemma waits_eq until mode s :
  KSPACE local = true -> local <> 0 ->
  exists s', match mode with
             | WAIT => rt_comedi_wait whoami local
             | WAITIF => rt_comedi_wait_if whoami local
             | WAITUNTIL => _rt_comedi_wait_until whoami local until
             end s = OK 0 s' /\ waited local (pause_of mode until) s s'.
Proof.
  intros Hk Hc.
  destruct mode; unfold rt_comedi_wait, rt_comedi_wait_if, _rt_comedi_wait_until; rewrite announce;
    match goal with |- context [__rt_comedi_wait _ ?u _ ?m ?s1] => destruct (wait_eq u local m s1 Hk Hc) as (s' & E & Hw) end;
    exists s'; (split; [exact E | exact (waited_after _ _ _ _ _ Hw)]).
Qed.

Lemma data_read_eq dev subdev n data s :
  0 <= n < 2 ^ 29 -> 0 <= data -> data + 4 * n <= 2 ^ 32 ->
  exists l, rt_comedi_command_data_read dev subdev n data s
    = OK n (KCOM (filled 830666 data 0 (Z.to_nat n) (kmem s)) (kresumsg s) (l ++ klog s) (kpauses s)).
Proof.
  intros Hn Hd Hf. unfold rt_comedi_command_data_read, locked_by, _comedi_lock, _comedi_unlock, bind, ret, rt_printk, modify.
  rewrite write_samples_eq; [| lia | lia | rewrite Z2Nat.id; lia | lia |].
  - eexists (_ ++ [_]). rewrite <- app_assoc. reflexivity.
  - rewrite Z2Nat.id by lia. change (2 ^ 29) with 536870912 in Hn. change (2 ^ 32) with 4294967296. lia.
Qed.

(** Where a read that waits may put its samples: apart from the two masks. *)
Record wread_args (n data cb : Z) : Prop := {
  wr_n : 0 <= n < 2 ^ 29;
  wr_data : 0 <= data /\ data + 4 * n <= 2 ^ 32;
  wr_local : KSPACE local = true /\ local <> 0 /\ (data + 4 * n <= local \/ local + 4 <= data);
  wr_mask : KSPACE cb = true \/ user_word cb;
  wr_apart : (cb + 4 <= local \/ local + 4 <= cb) /\ (data + 4 * n <= cb \/ cb + 4 <= data)
}.

(** What a read that waits does: it suspends its caller once, and the mask of
    the caller says whether it reads. *)
Record outcome (p : pause) (n data cb : Z) (s : kcom) (r : Z) (s' : kcom) : Prop := {
  ou_pauses : kpauses s' = p :: kpauses s;
  ou_mine : kresumsg s' whoami = 0;
  ou_others : forall t, t <> whoami -> kresumsg s' t = kresumsg s t;
  ou_none : load (kmem s) cb = 0 ->
    r = 0 /\ forall a, a < local \/ local + 4 <= a -> kmem s' a = kmem s a;
  ou_some : load (kmem s) cb <> 0 ->
    r = n /\ load (kmem s') cb = CBMASK /\
    (forall x, 0 <= x < n -> load (kmem s') (data + 4 * x) = 830666 + x) /\
    forall a, a < local \/ local + 4 <= a -> a < cb \/ cb + 4 <= a -> a < data \/ data + 4 * n <= a ->
      kmem s' a = kmem s a
}.

Lemma land_mask v : 0 <= v < 2 ^ 32 -> Z.land v CBMASK = v.
Proof. intros Hv. change CBMASK with (Z.ones 32). rewrite Z.land_ones by lia. now apply Z.mod_small. Qed.

Lemma wread_eq dev subdev n data until cb mode s :
  bytes_ok (kmem s) -> wread_args n data cb ->
  exists r s', __rt_comedi_command_data_wread whoami local dev subdev n data until cb mode s = OK r s' /\
    outcome (pause_of mode until) n data cb s r s'.
Proof.
  intros Hb [[Hn0 Hn] [Hd Hf] (Hk & Hl & Hdl) Hm [Hcl Hcd]]. unfold __rt_comedi_command_data_wread, bind at 1, get.
  destruct (waits_eq until mode s Hk Hl) as (s1 & E1 & [W1 W2 W3 W4 _]). unfold bind at 1. rewrite E1.
  unfold bind at 1, peek, bind at 1, get, ret at 1. rewrite W1, load_store by (unfold CBMASK; lia).
  assert (Emask : (if KSPACE cb then load (kmem s) cb else get_user (kmem s) cb) = load (kmem s) cb).
  { destruct (KSPACE cb); [reflexivity|]. destruct Hm as [|Hm]; [discriminate | now apply ml_get]. }
  rewrite Emask, land_mask by now apply load_range. cbn [Z.eqb andb].
  destruct (Z.eqb_spec (load (kmem s) cb) 0) as [E0|E0]; cbn [negb].
  - exists 0, s1. split; [reflexivity|]. constructor; try assumption; [|congruence]. intros _.
    split; [reflexivity|]. intros a Ha. rewrite W1. now apply store_other.
  - unfold bind at 1. set (s2 := KCOM (store (kmem s1) cb CBMASK) (kresumsg s1) (klog s1) (kpauses s1)).
    assert (E2 : (if KSPACE cb then poke cb CBMASK else on_mem (fun m => put_user m cb CBMASK)) s1 = OK tt s2).
    { destruct (KSPACE cb); [reflexivity|]. destruct Hm as [|Hm]; [discriminate|].
      unfold on_mem, modify. now rewrite ml_put. }
    rewrite E2. destruct (data_read_eq dev subdev n data s2 (conj Hn0 Hn) Hd Hf) as [l E3].
    unfold bind at 1. rewrite E3. eexists _, _. split; [reflexivity|].
    constructor; cbn [kmem kresumsg klog kpauses s2]; try assumption; [congruence|]. intros _.
    change (2 ^ 29) with 536870912 in Hn. split_and!.
    + now rewrite wrap_s_id by lia.
    + rewrite (load_ext _ (store (kmem s1) cb CBMASK)); [apply load_store; unfold CBMASK; lia|].
      intros b Hbb. apply filled_other. lia.
    + intros x Hx. apply filled_sample; change (2 ^ 32) with 4294967296; lia.
    + intros a Ha1 Ha2 Ha3. rewrite filled_other by lia. rewrite store_other by exact Ha2.
      rewrite W1. now apply store_other.
Qed.
(** The four remote modes. *)
Definition remote_pause (mode time : Z) : pause :=
  if mode =? 0 then SuspendTimed 100000
  else if mode =? 1 then SuspendIf
  else if mode =? 2 then SuspendUntil time
  else SuspendUntil (i64 (now + time)).

Lemma mode_bits n mode : 0 <= mode < 4 -> Z.land (4 * n + mode) 3 = mode /\ Z.shiftr (4 * n + mode) 2 = n.
Proof.
  intros Hm. change 3 with (Z.ones 2). rewrite Z.land_ones, Z.shiftr_div_pow2 by lia. change (2 ^ 2) with 4.
  split; Z.to_euclidean_division_equations; lia.
Qed.
End Wread.

(** The remote form of the reads that wait.  The two low bits of the
    channel number choose the wait and the rest is the number of channels; the
    caller is suspended once, for the time asked for; then, if its mask is 0,
    nothing is read and 0 is returned, and otherwise its mask is set to the
    events, the channels are read in order and their number is returned.
    Nothing else changes. *)
Theorem wread_remote `{!Machine, !MachineLaws} (whoami now local dev subdev n mode data cb datalen time : Z) (s : kcom) :
  0 <= mode < 4 -> bytes_ok (kmem s) -> wread_args local n data cb ->
  exists r s',
    RT_comedi_command_data_wread whoami now local dev subdev (4 * n + mode) data cb datalen time s = OK r s' /\
    outcome whoami local (remote_pause now mode time) n data cb s r s'.
Proof.
  intros Hm Hb Ha. unfold RT_comedi_command_data_wread. destruct (mode_bits n mode Hm) as [-> ->].
  assert (mode = 0 \/ mode = 1 \/ mode = 2 \/ mode = 3) as Hc by lia.
  destruct Hc as [->|[->|[->| ->]]]; cbn [Z.eqb Pos.eqb];
    unfold rt_comedi_command_data_wread, rt_comedi_command_data_wread_if, _rt_comedi_command_data_wread_timed,
      _rt_comedi_command_data_wread_until; rewrite ?announce.
  all: match goal with |- context [__rt_comedi_command_data_wread _ _ _ _ _ _ ?u _ ?m ?s1] =>
         destruct (wread_eq whoami local dev subdev n data u cb m s1 Hb Ha) as (r & s' & E & [O1 O2 O3 O4 O5]) end;
       exists r, s'; (split; [exact E | constructor; assumption]).
Qed.

Definition wread_state : kcom := KCOM (words [(2000, 8)]) (fun _ => 0) [] [].

Lemma wread_remote_witness :
  exists s', @RT_comedi_command_data_wread demo_machine 9 1000 3221226000 DEV SUBDEV (4 * 3 + 2) 2100 2000 12 5000 wread_state
    = OK 3 s' /\ load (kmem s') 2108 = 830668 /\ kpauses s' = [SuspendUntil 5000].
Proof.
  destruct (@wread_remote demo_machine demo_laws 9 1000 3221226000 DEV SUBDEV 3 2 2100 2000 12 5000 wread_state)
    as (r & s' & E & [O1 _ _ _ O5]).
  - lia.
  - apply words_ok.
  - constructor; cbn; first [lia | split_and!; (reflexivity || lia) | right; lia].
  - destruct (O5 ltac:(vm_compute; discriminate)) as (-> & _ & Hs & _).
    exists s'. split_and!; [exact E | exact (Hs 2 ltac:(lia)) | exact O1].
Defined.

(** ** Commands *)

Fixpoint array_lines (t : string) (m : bytemem) (a i : Z) (count : nat) : list line :=
  match count with
  | O => []
  | S c => LINE t [Num i; Num (load m (elem a i))] :: array_lines t m a (i + 1) c
  end.

Lemma print_array_eq t a count : forall i s,
  print_array t a i count s = OK tt (grown s (kmem s) (array_lines t (kmem s) a i count)).
Proof.
  induction count as [|c IH]; intros i s; cbn [print_array array_lines]; [now rewrite grown_nil|].
  unfold bind at 1, peek, bind at 1, get, ret, bind at 1, rt_printk, modify. rewrite IH.
  unfold grown. cbn. now rewrite <- app_assoc.
Qed.

Lemma array_lines_ext t m m' a a' count : forall i,
  (forall x, i <= x < i + Z.of_nat count -> load m (elem a x) = load m' (elem a' x)) ->
  array_lines t m a i count = array_lines t m' a' i count.
Proof.
  induction count as [|c IH]; intros i H; cbn [array_lines]; [reflexivity|].
  rewrite (H i) by lia. f_equal. apply IH. intros x Hx. apply H. lia.
Qed.

Lemma command_body_eq t dev cmd s :
  command_body t dev cmd s = OK 0 (grown s (kmem s)
    (LINE t (cmd_args cmd) :: array_lines "CHANLIST" (kmem s) (cmd C_chanlist) 0 (Z.to_nat (cmd C_chanlist_len)))).
Proof.
  unfold command_body, locked_by, _comedi_lock, _comedi_unlock, bind, ret, rt_printk, modify.
  rewrite print_array_eq. unfold grown. cbn. now rewrite <- app_assoc.
Qed.

(** A command sent in a block prints what the command prints where it is. *)
Lemma command_remote `{!Machine, !MachineLaws} stack dev test A s B s' (o : cmds_field -> Z) :
  (forall f, load_struct cmds_layout (kmem s') B f = o f) ->
  o O_cmd_len <= 2 * size_of cmd_layout -> size_of cmd_layout <= o O_cmd_len ->
  0 <= B + o O_cmd_ofst -> B + o O_cmd_ofst + o O_cmd_len < 2 ^ 32 ->
  (forall f, f <> C_chanlist -> f <> C_chanlist_len -> f <> C_data -> f <> C_data_len ->
     load_struct cmd_layout (kmem s') (B + o O_cmd_ofst) f = load_struct cmd_layout (kmem s) A f) ->
  o O_chanlist_len = load_struct cmd_layout (kmem s) A C_chanlist_len ->
  (forall x, 0 <= x < o O_chanlist_len ->
     load (kmem s') (elem (u32 (B + o O_chanlist_ofst)) x)
       = load (kmem s) (elem (load_struct cmd_layout (kmem s) A C_chanlist) x)) ->
  exists lines, command_at test dev A s = OK 0 (grown s (kmem s) lines) /\
    RT_comedi_command stack dev B test s' = OK 0 (grown s' (kmem s') lines).
Proof.
  intros Ho H1 H2 H3 H4 Hf Hlen Hch. set (c := load_struct cmd_layout (kmem s) A) in *.
  exists (LINE (if test then "COMEDI COMMAND TEST"%string else "COMEDI COMMAND"%string) (cmd_args c) ::
          array_lines "CHANLIST" (kmem s) (c C_chanlist) 0 (Z.to_nat (c C_chanlist_len))).
  split.
  - unfold command_at, bind, get. destruct test; apply command_body_eq.
  - unfold RT_comedi_command, bind, get. rewrite !Ho. rewrite (proj2 (Z.ltb_ge _ _)) by lia.
    destruct (lo_inside _ ml_cmd C_subdev). rewrite (wrap_u_id 32 (B + o O_cmd_ofst)) by lia.
    set (local := memcpy _ _ _ _).
    assert (El : forall f, load_struct cmd_layout local 0 f = load_struct cmd_layout (kmem s') (B + o O_cmd_ofst) f).
    { intros f. unfold load_struct. rewrite Z.add_0_l. destruct (lo_inside _ ml_cmd f).
      apply load_memcpy; lia. }
    assert (Ea : cmd_args (with_cmd (load_struct cmd_layout local 0) (u32 (B + o O_chanlist_ofst)) (o O_chanlist_len)
      (u32 (B + o O_cmd_data_ofst)) (o O_data_len)) = cmd_args c).
    { unfold cmd_args, with_cmd. now rewrite !El, !Hf, Hlen by discriminate. }
    destruct test; unfold _comedi_command, _comedi_command_test; rewrite command_body_eq, Ea; cbn [with_cmd];
      rewrite Hlen; do 3 f_equal; apply array_lines_ext; rewrite <- Hlen; intros x Hx; apply Hch; lia.
Qed.

(** ** Lengths the sender chose *)

(** The length of an instruction comes from the block and is not checked: the
    copy runs over the end of the local array. *)
Lemma insnlist_smashes `{!Machine} stack dev B n s :
  0 < n -> 2 * size_of insn_layout < load_struct insns_layout (kmem s) B O_insn_len ->
  RT_comedi_do_insnlist stack dev n B s = Fault StackSmash.
Proof.
  intros Hn Hl. unfold RT_comedi_do_insnlist, bind, get. destruct (Z.to_nat n) eqn:E; [lia|]. cbn [RT_insnlist_loop].
  unfold bind, get. now rewrite (proj2 (Z.ltb_lt _ _) Hl).
Qed.

Lemma command_smashes `{!Machine} stack dev B test s :
  2 * size_of cmd_layout < load_struct cmds_layout (kmem s) B O_cmd_len ->
  RT_comedi_command stack dev B test s = Fault StackSmash.
Proof. intros Hl. unfold RT_comedi_command, bind, get. now rewrite (proj2 (Z.ltb_lt _ _) Hl). Qed.

(** The test for a failed instruction compares an unsigned number with 0. *)
Lemma insnlist_test_dead r : (u32 r <? 0) = false.
Proof. apply Z.ltb_ge, wrap_u_range. lia. Qed.

(** ** The types of the table *)

(** A piece of code that never makes its caller wait. *)
Definition never_waits {A} (c : kcmd A) : Prop :=
  forall s a s', c s = OK a s' -> kpauses s' = kpauses s \/ kpauses s' = SuspendIf :: kpauses s.
Definition no_pause {A} (c : kcmd A) : Prop := forall s a s', c s = OK a s' -> kpauses s' = kpauses s.

Create HintDb pauses.

Lemma np_ret {A} (a : A) : no_pause (ret a).
Proof. now intros s b s' [= <- <-]. Qed.
Lemma np_fault {A} f : no_pause (fault f : kcmd A).
Proof. now intros s b s'. Qed.
Lemma np_get : no_pause get.
Proof. now intros s b s' [= <- <-]. Qed.
Lemma np_printk t l : no_pause (rt_printk t l).
Proof. now intros s b s' [= <- <-]. Qed.
Lemma np_mem f : no_pause (on_mem f).
Proof. now intros s b s' [= <- <-]. Qed.
Lemma np_resumsg t v : no_pause (set_resumsg t v).
Proof. now intros s b s' [= <- <-]. Qed.
Lemma np_bind {A B} (c : kcmd A) (k : A -> kcmd B) : no_pause c -> (forall a, no_pause (k a)) -> no_pause (bind c k).
Proof.
  intros Hc Hk s b s'. unfold bind. destruct (c s) as [a s1|] eqn:E; [|discriminate]. intros E'.
  rewrite (Hk a _ _ _ E'). now apply (Hc s a).
Qed.
Lemma np_if {A} (b : bool) (c d : kcmd A) : no_pause c -> no_pause d -> no_pause (if b then c else d).
Proof. now destruct b. Qed.
#[local] Hint Resolve np_ret np_fault np_get np_printk np_mem np_resumsg np_bind np_if : pauses.

Lemma np_peek a : no_pause (peek a).
Proof. unfold peek. auto with pauses. Qed.
Lemma np_poke a v : no_pause (poke a v).
Proof. unfold poke. auto with pauses. Qed.
#[local] Hint Resolve np_peek np_poke : pauses.

Lemma np_array t a count : forall i, no_pause (print_array t a i count).
Proof. induction count; intros i; cbn [print_array]; auto 6 with pauses. Qed.
Lemma np_samples t base a count : forall i, no_pause (write_samples t base a i count).
Proof. induction count; intros i; cbn [write_samples]; auto 8 with pauses. Qed.
#[local] Hint Resolve np_array np_samples : pauses.

Lemma np_locked {A} dev subdev body (r : A) : no_pause body -> no_pause (locked_by dev subdev body r).
Proof. intros H. unfold locked_by, _comedi_lock, _comedi_unlock. auto 8 with pauses. Qed.
Lemma np_insn dev f : no_pause (_comedi_do_insn dev f).
Proof. unfold _comedi_do_insn. auto 12 with pauses. Qed.
Lemma np_give t a v : no_pause (give t a v).
Proof. unfold give. auto 8 with pauses. Qed.
#[local] Hint Resolve np_locked np_insn np_give : pauses.

Lemma np_insnlist `{!Machine} dev ilist fuel : forall i, no_pause (insnlist_loop dev ilist i fuel).
Proof. induction fuel; intros i; cbn [insnlist_loop]; unfold do_insn_at; auto 16 with pauses. Qed.
Lemma np_RT_insnlist `{!Machine} dev B do_ d count : forall insns i local,
  no_pause (RT_insnlist_loop dev B do_ d insns i local count).
Proof. induction count; intros insns i local; cbn [RT_insnlist_loop]; auto 16 with pauses. Qed.
Lemma np_command dev cmd : no_pause (_comedi_command dev cmd) /\ no_pause (_comedi_command_test dev cmd).
Proof. unfold _comedi_command, _comedi_command_test, command_body. split; auto with pauses. Qed.
Lemma np_answer t t' dev subdev v : no_pause (locked_answer t t' dev subdev v).
Proof. unfold locked_answer. auto with pauses. Qed.
#[local] Hint Resolve np_insnlist np_RT_insnlist np_answer : pauses.
#[local] Hint Extern 1 (no_pause (_comedi_command _ _)) => apply np_command : pauses.
#[local] Hint Extern 1 (no_pause (_comedi_command_test _ _)) => apply np_command : pauses.

Lemma no_pause_never {A} (c : kcmd A) : no_pause c -> never_waits c.
Proof. intros H s a s' E. left. now apply (H s a). Qed.

(** [never_waits] of a wait that does not wait, with code before and after. *)
Lemma nw_before {A B} (c : kcmd A) (k : A -> kcmd B) : no_pause c -> (forall a, never_waits (k a)) -> never_waits (bind c k).
Proof.
  intros Hc Hk s b s'. unfold bind. destruct (c s) as [a s1|] eqn:E; [|discriminate]. intros E'.
  rewrite <- (Hc s a s1 E). now apply (Hk a s1 b).
Qed.
Lemma nw_after {A B} (c : kcmd A) (k : A -> kcmd B) : never_waits c -> (forall a, no_pause (k a)) -> never_waits (bind c k).
Proof.
  intros Hc Hk s b s'. unfold bind. destruct (c s) as [a s1|] eqn:E; [|discriminate]. intros E'.
  rewrite (Hk a s1 b s' E'). now apply (Hc s a).
Qed.
Lemma nw_if_wait : never_waits (pause_for SuspendIf).
Proof. intros s b s' [= <- <-]. now right. Qed.

Lemma nw_wait_if `{!Machine} whoami cb : never_waits (rt_comedi_wait_if whoami cb).
Proof.
  unfold rt_comedi_wait_if, __rt_comedi_wait. apply nw_before; [auto with pauses|]. intros v.
  apply nw_before; [auto with pauses|]. intros _. destruct (cb =? 0); [apply no_pause_never; auto with pauses|].
  apply nw_after; [apply nw_if_wait|]. intros _. auto 12 with pauses.
Qed.

Lemma nw_wread_if `{!Machine} whoami local dev subdev n data cb :
  never_waits (rt_comedi_command_data_wread_if whoami local dev subdev n data cb).
Proof.
  unfold rt_comedi_command_data_wread_if, __rt_comedi_command_data_wread. do 3 (apply nw_before; [auto with pauses|]; intros ?).
  apply nw_after; [apply nw_wait_if|]. intros v. unfold rt_comedi_command_data_read. auto 14 with pauses.
Qed.

(** An entry of type 0 does not make its caller wait, but for the remote read
    that waits. *)
Lemma table_types `{!Machine} whoami now local d stack k args :
  fst (rtai_comedi_fun whoami now local d stack k args) = 0 -> k <> RT_COMD_DATA_WREAD ->
  never_waits (snd (rtai_comedi_fun whoami now local d stack k args)).
Proof.
  intros Ht Hk. destruct k; try discriminate Ht; try congruence; cbn [rtai_comedi_fun snd].
  all: try apply nw_wait_if; try apply nw_wread_if; apply no_pause_never.
  all: unfold _comedi_open, _comedi_close, _comedi_lock, _comedi_unlock, _comedi_cancel, rt_comedi_register_callback,
    command_at, rt_comedi_trigger, _rt_comedi_trigger,
    _comedi_data_write, _comedi_data_read, _comedi_data_read_hint, _comedi_dio_config, _comedi_dio_read,
    _comedi_dio_write, _comedi_dio_bitfield, _comedi_get_n_subdevices, _comedi_get_version_code,
    rt_comedi_get_driver_name, rt_comedi_get_board_name, _comedi_get_subdevice_type, _comedi_find_subdevice_by_type,
    _comedi_get_n_channels, _comedi_get_maxdata, _comedi_get_n_ranges, answers, do_insn_at, rt_comedi_do_insnlist,
    _comedi_poll, _comedi_get_subdevice_flags, _comedi_get_krange, _comedi_get_buf_head_pos,
    _comedi_set_user_int_count, _comedi_map, _comedi_unmap, rt_comedi_command_data_read, rt_comedi_command_data_write,
    RT_comedi_command, RT_comedi_do_insnlist.
  all: auto 16 with pauses.
Qed.
