(* ===== verification/Agent.v ===== *)
(** * An agent between two processes (user/rt_agent)

    A periodic kernel task (rt_agent.c) relays blocks of a shared memory from
    sender.c to receiver.c: the sender is synchronised with the agent by two
    semaphores, the receiver by messages.  The agent is a kernel task of the
    highest priority: on one processor what it does in a period, from one
    [rt_task_wait_period] to the next, is not interrupted, and is one step.  The
    two processes are interrupted anywhere (their [printf] leaves hard real
    time), and their steps are the accesses to what is shared. *)

From stdpp Require Import base tactics numbers list relations.
From S2P Require Import Prelude.

Definition SHMSIZE : Z := 4000.
Definition COUNT : nat := 3000.

(** The messages: of the receiver, and the last answer. *)
Definition RPC_MSG : Z := 2863311530.
Definition LAST_MSG : Z := 4008636142.

(** ** State *)

(** [op] of the agent; before its loop, after it, and at its end. *)
Inductive agent_pc := ABegin | ARun (op : Z) | ALast | ADone.

(** The sender; [n] is [count], [i] the index and [c] the checksum of the loop. *)
Inductive sender_pc :=
| SBegin | SInit | SHead (n : nat) | SWait (n : nat) | SDraw (n : nat) | STest (n : nat) | SFix (n : nat)
| SFill (n : nat) (i c : Z) | SPut (n : nat) (c : Z) | SSignal (n : nat)
| SLastWait | SZero | SLastSignal | SDone.

(** The receiver; [RPosted] waits in [rt_rpc] to be received, [RTaken] to be
    answered, [RSent] waits in [rt_send]. *)
Inductive receiver_pc :=
| RBegin | RRpc | RPosted | RTaken | RGot (v : Z) | RSum (i c : Z) | RCheck (c : Z) | RSend | RSent | RDone.

Record relay := RELAY {
  shm : Z -> Z;
  shmsem : Z; agentsem : Z;
  agent : agent_pc; sender : sender_pc; receiver : receiver_pc;
  shm_size : Z;
  sent_sums : list Z;       (* the checksums the sender printed, latest first *)
  received_sums : list Z;   (* those of the receiver *)
  wrong : bool;             (* WRONG CHECKSUM was printed *)
  outside : bool            (* an access outside the block *)
}.

Definition set_shm (f : Z -> Z) s := RELAY f (shmsem s) (agentsem s) (agent s) (sender s) (receiver s)
  (shm_size s) (sent_sums s) (received_sums s) (wrong s) (outside s).
Definition set_sems (a b : Z) s := RELAY (shm s) a b (agent s) (sender s) (receiver s)
  (shm_size s) (sent_sums s) (received_sums s) (wrong s) (outside s).
Definition set_agent a s := RELAY (shm s) (shmsem s) (agentsem s) a (sender s) (receiver s)
  (shm_size s) (sent_sums s) (received_sums s) (wrong s) (outside s).
Definition set_sender p s := RELAY (shm s) (shmsem s) (agentsem s) (agent s) p (receiver s)
  (shm_size s) (sent_sums s) (received_sums s) (wrong s) (outside s).
Definition set_receiver p s := RELAY (shm s) (shmsem s) (agentsem s) (agent s) (sender s) p
  (shm_size s) (sent_sums s) (received_sums s) (wrong s) (outside s).
Definition set_size n s := RELAY (shm s) (shmsem s) (agentsem s) (agent s) (sender s) (receiver s)
  n (sent_sums s) (received_sums s) (wrong s) (outside s).
Definition set_sums a b s := RELAY (shm s) (shmsem s) (agentsem s) (agent s) (sender s) (receiver s)
  (shm_size s) a b (wrong s) (outside s).
Definition complain (b : bool) s := RELAY (shm s) (shmsem s) (agentsem s) (agent s) (sender s) (receiver s)
  (shm_size s) (sent_sums s) (received_sums s) (wrong s || b) (outside s).

(** An access to [shm[i]]: the block has [SHMSIZE + 2] words. *)
Definition touch (i : Z) s := RELAY (shm s) (shmsem s) (agentsem s) (agent s) (sender s) (receiver s)
  (shm_size s) (sent_sums s) (received_sums s) (wrong s)
  (outside s || negb ((0 <=? i) && (i <? SHMSIZE + 2))).
Definition store (i v : Z) s := touch i (set_shm (fun j => if j =? i then v else shm s j) s).

Section Relay.
(** The bits of an [unsigned long]. *)
Variable w : Z.

(** [chksum += shm[i]], [count] times. *)
Fixpoint sum_from (m : Z -> Z) (i : Z) (count : nat) (c : Z) : Z :=
  match count with
  | O => c
  | S k => sum_from m (i + 1) k (wrap_u w (c + m i))
  end.

(** [chksum != shm[shm[0] + 1]]: the [int] becomes an [unsigned long]. *)
Definition mismatch (c : Z) s : bool := negb (c =? wrap_u w (shm s (shm s 0 + 1))).

(** ** The agent *)

(** [rt_receive_if]: what the receiver sent or asked, if anything. *)
Definition receive_if s : option relay :=
  match receiver s with
  | RPosted => Some (set_receiver RTaken s)
  | RSent => Some (set_receiver RRpc s)
  | _ => None
  end.

(** [rt_return]: to a task that waits for an answer. *)
Definition rt_return (v : Z) s : relay :=
  match receiver s with RTaken => set_receiver (RGot v) s | _ => s end.

(** The cases of the [switch], each falling into the next. *)
Definition case4 s : relay := set_agent (ARun 1) (set_sems (shmsem s + 1) (agentsem s) s).

Definition case3 s : relay :=
  match receive_if s with None => set_agent (ARun 3) s | Some s => case4 s end.

Definition case2 s : relay :=
  match receive_if s with None => set_agent (ARun 2) s | Some s => case3 (rt_return RPC_MSG s) end.

Definition case1 s : relay :=
  if agentsem s <=? 0 then set_agent (ARun 1) s
  else
    let s := set_sems (shmsem s) (agentsem s - 1) s in
    let s := touch (shm s 0 + 1) s in
    case2 (complain (mismatch (sum_from (shm s) 1 (Z.to_nat (shm s 0)) 0) s) s).

(** After the loop, [rt_receive_if] until there is a message. *)
Definition agent_last s : relay :=
  match receive_if s with None => set_agent ALast s | Some s => set_agent ADone (rt_return LAST_MSG s) end.

Definition agent_loop (op : Z) s : relay :=
  if shm s 0 =? 0 then agent_last s
  else if op =? 1 then case1 s
  else if op =? 2 then case2 s
  else if op =? 3 then case3 s
  else if op =? 4 then case4 s
  else set_agent (ARun op) s.

Definition registered s : bool :=
  match sender s, receiver s with SBegin, _ | _, RBegin => false | _, _ => true end.

(** A period of [fun]. *)
Definition agent_turn s : relay :=
  match agent s with
  | ABegin => if registered s then agent_loop 4 s else s
  | ARun op => agent_loop op s
  | ALast => agent_last s
  | ADone => s
  end.

(** ** The sender *)

Inductive sender_step s : relay -> Prop :=
| s_register : sender s = SBegin -> sender_step s (set_sender SInit s)
| s_size : sender s = SInit -> sender_step s (set_size (shm s 0) (set_sender (SHead COUNT) s))
| s_more n : sender s = SHead (S n) -> sender_step s (set_sender (SWait n) s)
| s_enough : sender s = SHead O -> sender_step s (set_sender SLastWait s)
| s_wait n : sender s = SWait n -> 0 < shmsem s ->
    sender_step s (set_sender (SDraw n) (set_sems (shmsem s - 1) (agentsem s) s))
(** [shm[0] = ((float)rand()/(float)RAND_MAX)*shm_size] *)
| s_draw n x : sender s = SDraw n -> 0 <= x <= INT_MAX ->
    sender_step s (set_sender (if x =? 0 then SFix n else STest n) (store 0 x s))
| s_test n : sender s = STest n ->
    sender_step s (set_sender (if shm_size s <? shm s 0 then SFix n else SFill n 1 0) s)
| s_fix n : sender s = SFix n -> sender_step s (set_sender (SFill n 1 0) (store 0 (shm_size s) s))
| s_fill n i c r : sender s = SFill n i c -> i <= shm s 0 -> 0 <= r <= INT_MAX ->
    sender_step s (set_sender (SFill n (i + 1) (wrap_u w (c + r))) (store i r s))
| s_filled n i c : sender s = SFill n i c -> shm s 0 < i -> sender_step s (set_sender (SPut n c) s)
| s_put n c : sender s = SPut n c ->
    sender_step s (set_sender (SSignal n)
      (set_sums (c :: sent_sums s) (received_sums s) (store (shm s 0 + 1) (i32 c) s)))
| s_signal n : sender s = SSignal n ->
    sender_step s (set_sender (SHead n) (set_sems (shmsem s) (agentsem s + 1) s))
| s_last_wait : sender s = SLastWait -> 0 < shmsem s ->
    sender_step s (set_sender SZero (set_sems (shmsem s - 1) (agentsem s) s))
| s_zero : sender s = SZero -> sender_step s (set_sender SLastSignal (store 0 0 s))
| s_last_signal : sender s = SLastSignal ->
    sender_step s (set_sender SDone (set_sems (shmsem s) (agentsem s + 1) s)).

(** ** The receiver *)

Inductive receiver_step s : relay -> Prop :=
| r_register : receiver s = RBegin -> receiver_step s (set_receiver RRpc s)
| r_rpc : receiver s = RRpc -> receiver_step s (set_receiver RPosted s)
| r_block v : receiver s = RGot v -> v <> LAST_MSG -> receiver_step s (set_receiver (RSum 1 0) s)
| r_end : receiver s = RGot LAST_MSG -> receiver_step s (set_receiver RDone s)
| r_sum i c : receiver s = RSum i c -> i <= shm s 0 ->
    receiver_step s (set_receiver (RSum (i + 1) (wrap_u w (c + shm s i))) (touch i s))
| r_summed i c : receiver s = RSum i c -> shm s 0 < i -> receiver_step s (set_receiver (RCheck c) s)
| r_check c : receiver s = RCheck c ->
    receiver_step s (set_receiver RSend
      (set_sums (sent_sums s) (c :: received_sums s) (complain (mismatch c s) (touch (shm s 0 + 1) s))))
| r_send : receiver s = RSend -> receiver_step s (set_receiver RSent s).

Inductive rstep s : relay -> Prop :=
| rs_agent : rstep s (agent_turn s)
| rs_sender s' : sender_step s s' -> rstep s s'
| rs_receiver s' : receiver_step s s' -> rstep s s'.

(** The module is loaded: the block is what it happens to be but for its first
    word. *)
Definition loaded (s : relay) : Prop :=
  shm s 0 = SHMSIZE /\ shmsem s = 0 /\ agentsem s = 0 /\ agent s = ABegin /\ sender s = SBegin /\
  receiver s = RBegin /\ sent_sums s = [] /\ received_sums s = [] /\ wrong s = false /\ outside s = false.

Definition rreachable (s : relay) : Prop := exists s0, loaded s0 /\ rtc rstep s0 s.
End Relay.
