(* ===== verification/AgentFacts.v ===== *)
(** * The agent between two processes: invariant

    One token passes from the sender to the agent, to the receiver and back;
    the block is only written by the task that has it. *)

From stdpp Require Import base tactics numbers list relations.
From S2P Require Import Prelude Agent.

Abbreviation sum := (sum_from 32).
Abbreviation step := (rstep 32).

(** Not to be computed. *)
#[local] Opaque COUNT.

(** The checksum of the block. *)
Definition total (m : Z -> Z) (n : Z) : Z := sum m 1 (Z.to_nat n) 0.

Lemma sum_snoc m k : forall i c, sum m i (S k) c = u32 (sum m i k c + m (i + Z.of_nat k)).
Proof.
  induction k as [|k IH]; intros i c; [cbn; do 2 f_equal; f_equal; lia|].
  change (sum m i (S (S k)) c) with (sum m (i + 1) (S k) (u32 (c + m i))). rewrite IH.
  change (sum m i (S k) c) with (sum m (i + 1) k (u32 (c + m i))). do 3 f_equal. lia.
Qed.

Lemma total_S m i : 1 <= i -> total m i = u32 (total m (i - 1) + m i).
Proof.
  intros H. unfold total. replace (Z.to_nat i) with (S (Z.to_nat (i - 1))) by lia. rewrite sum_snoc. do 3 f_equal. lia.
Qed.

Lemma sum_ext m m' k : forall i c, (forall j, i <= j < i + Z.of_nat k -> m j = m' j) -> sum m i k c = sum m' i k c.
Proof.
  induction k as [|k IH]; intros i c H; cbn [sum_from]; [reflexivity|].
  rewrite (H i) by lia. apply IH. intros j Hj. apply H. lia.
Qed.

Lemma total_ext m m' n : (forall j, 1 <= j <= n -> m j = m' j) -> total m n = total m' n.
Proof. intros H. apply sum_ext. intros j Hj. apply H. lia. Qed.

Lemma sum_range m k : forall i c, 0 <= c < 2 ^ 32 -> 0 <= sum m i k c < 2 ^ 32.
Proof.
  induction k as [|k IH]; intros i c Hc; cbn [sum_from]; [exact Hc|]. apply IH, wrap_u_range. lia.
Qed.

Lemma total_range m n : 0 <= total m n < 2 ^ 32.
Proof. apply sum_range. lia. Qed.

(** A checksum stored as an [int] and read again. *)
Lemma checksum_back c : 0 <= c < 2 ^ 32 -> u32 (i32 c) = c.
Proof.
  intros H. apply eq32_small; [apply wrap_u_range; lia | exact H |].
  rewrite wrap_u32_eq32. apply wrap_s32_eq32.
Qed.

(** ** What the block holds *)

Definition in_block (n : Z) : Prop := 1 <= n <= SHMSIZE.

Definition block s : Prop :=
  in_block (shm s 0) /\ head (sent_sums s) = Some (total (shm s) (shm s 0)) /\
  u32 (shm s (shm s 0 + 1)) = total (shm s) (shm s 0).

Definition content s : Prop :=
  match sender s with
  | SBegin | SInit => shm s 0 = SHMSIZE
  | SHead _ | SWait _ | SLastWait | SDraw _ | SZero => in_block (shm s 0)
  | STest _ => 1 <= shm s 0
  | SFix _ => shm s 0 = 0 \/ SHMSIZE < shm s 0
  | SFill _ i c => in_block (shm s 0) /\ 1 <= i <= shm s 0 + 1 /\ c = total (shm s) (i - 1)
  | SPut _ c => in_block (shm s 0) /\ c = total (shm s) (shm s 0)
  | SSignal _ => block s
  | SLastSignal | SDone => shm s 0 = 0
  end.

(** The checksums the sender has printed. *)
Definition sent_count (p : sender_pc) : nat :=
  match p with
  | SBegin | SInit => 0
  | SHead n | SSignal n => COUNT - n
  | SWait n | SDraw n | STest n | SFix n | SFill n _ _ | SPut n _ => COUNT - S n
  | SLastWait | SZero | SLastSignal | SDone => COUNT
  end.

Definition count_ok (p : sender_pc) : Prop :=
  match p with
  | SHead n => (n <= COUNT)%nat
  | SWait n | SDraw n | STest n | SFix n | SFill n _ _ | SPut n _ | SSignal n => (n < COUNT)%nat
  | _ => True
  end.

(** ** Who has the token *)

Definition waits (p : sender_pc) : bool :=
  match p with SHead _ | SWait _ | SLastWait => true | _ => false end.
Definition holds (p : sender_pc) : bool :=
  match p with
  | SDraw _ | STest _ | SFix _ | SFill _ _ _ | SPut _ _ | SSignal _ | SZero | SLastSignal => true | _ => false
  end.
Definition ready (r : receiver_pc) : bool := match r with RRpc | RPosted => true | _ => false end.

(** The agent waits for [agentsem], or it has left its loop. *)
Definition idle s : Prop :=
  match agent s with
  | ARun op => op = 1 /\ ready (receiver s) = true
  | ALast => ready (receiver s) = true
  | ADone => receiver s = RGot LAST_MSG \/ receiver s = RDone
  | ABegin => False
  end.

(** The sender printed one checksum more than the receiver. *)
Definition ahead s : Prop := exists c, sent_sums s = c :: received_sums s.

(** The receiver has the block. *)
Definition reading s : Prop :=
  match receiver s with
  | RGot v => v = RPC_MSG /\ ahead s
  | RSum i c => 1 <= i <= shm s 0 + 1 /\ c = total (shm s) (i - 1) /\ ahead s
  | RCheck c => c = total (shm s) (shm s 0) /\ ahead s
  | RSend | RSent => sent_sums s = received_sums s
  | _ => False
  end.

Inductive phase s : Prop :=
| ph_start :
    agent s = ABegin -> shmsem s = 0 -> agentsem s = 0 ->
    match sender s with SBegin | SInit => True | SHead n => n = COUNT | SWait n => S n = COUNT | _ => False end ->
    match receiver s with RBegin | RRpc | RPosted => True | _ => False end ->
    sent_sums s = received_sums s -> phase s
| ph_free :
    agent s = ARun 1 -> shmsem s = 1 -> agentsem s = 0 -> waits (sender s) = true \/ sender s = SInit ->
    ready (receiver s) = true -> sent_sums s = received_sums s -> phase s
| ph_sender :
    shmsem s = 0 -> agentsem s = 0 -> holds (sender s) = true -> idle s ->
    match sender s with SSignal _ => ahead s | _ => sent_sums s = received_sums s end -> phase s
| ph_given :
    shmsem s = 0 -> agentsem s = 1 -> waits (sender s) = true -> idle s -> block s -> ahead s -> phase s
| ph_agent :
    agent s = ARun 2 -> shmsem s = 0 -> agentsem s = 0 -> waits (sender s) = true ->
    ready (receiver s) = true -> block s -> ahead s -> phase s
| ph_receiver :
    agent s = ARun 3 -> shmsem s = 0 -> agentsem s = 0 -> waits (sender s) = true -> reading s -> block s -> phase s
| ph_end :
    sender s = SDone -> shmsem s = 0 -> agentsem s = 1 -> idle s -> sent_sums s = received_sums s -> phase s.

Record relay_inv s : Prop := {
  ri_wrong : wrong s = false;
  ri_outside : outside s = false;
  ri_content : content s;
  ri_size : sender s <> SBegin -> sender s <> SInit -> shm_size s = SHMSIZE;
  ri_count : count_ok (sender s) /\ length (sent_sums s) = sent_count (sender s);
  ri_phase : phase s
}.

Lemma loaded_inv s : loaded s -> relay_inv s.
Proof.
  intros (H0 & H1 & H2 & H3 & H4 & H5 & H6 & H7 & H8 & H9). constructor; try assumption.
  - unfold content. now rewrite H4.
  - congruence.
  - rewrite H4, H6. now split.
  - apply ph_start; rewrite ?H4, ?H5, ?H6, ?H7; auto.
Qed.

(** ** Steps of the sender *)

(** The hypotheses of each phase. *)
Ltac phases H :=
  destruct H as [A1 A2 A3 A4 A5 A6|A1 A2 A3 A4 A5 A6|A1 A2 A3 A4 A5|A1 A2 A3 A4 A5 A6|A1 A2 A3 A4 A5 A6 A7|A1 A2 A3 A4 A5 A6|A1 A2 A3 A4 A5].

Lemma touch_inside s i : outside s = false -> 0 <= i < SHMSIZE + 2 ->
  (outside s || negb ((0 <=? i) && (i <? SHMSIZE + 2))) = false.
Proof.
  intros -> H. rewrite (proj2 (Z.leb_le _ _)), (proj2 (Z.ltb_lt _ _)) by lia. reflexivity.
Qed.

Lemma phase_move s p :
  phase s -> waits (sender s) = true -> waits p = true ->
  (agent s = ABegin -> match p with SHead n => n = COUNT | SWait n => S n = COUNT | _ => False end) ->
  phase (set_sender p s).
Proof.
  intros H Hw Hp Hs. phases H.
  - apply ph_start; try assumption. specialize (Hs A1). cbn. now destruct p.
  - apply ph_free; try assumption. now left.
  - destruct (sender s); discriminate.
  - now apply ph_given.
  - now apply ph_agent.
  - now apply ph_receiver.
  - rewrite A1 in Hw. discriminate.
Qed.

(** The sender moves inside its part. *)
Lemma phase_holds s s' :
  phase s -> holds (sender s) = true -> holds (sender s') = true ->
  shmsem s' = shmsem s -> agentsem s' = agentsem s -> agent s' = agent s -> receiver s' = receiver s ->
  match sender s with SSignal _ => False | _ => True end ->
  match sender s' with SSignal _ => exists c, sent_sums s' = c :: sent_sums s | _ => sent_sums s' = sent_sums s end ->
  received_sums s' = received_sums s -> phase s'.
Proof.
  intros H Hh Hh' E1 E2 E3 E4 Hn Hs E5. phases H.
  all: try (destruct (sender s); discriminate || contradiction).
  - destruct A4 as [A4|A4]; [destruct (sender s); discriminate | rewrite A4 in Hh; discriminate].
  - apply ph_sender; try congruence.
    + unfold idle in *. now rewrite E3, E4.
    + assert (E : sent_sums s = received_sums s) by (destruct (sender s); assumption || contradiction).
      destruct (sender s'); try congruence. destruct Hs as [c Hc]. exists c. congruence.
Qed.

Lemma store_same_word s i v : shm (store i v s) i = v.
Proof. cbn. now rewrite Z.eqb_refl. Qed.

Lemma store_other_word s i v j : j <> i -> shm (store i v s) j = shm s j.
Proof. intros H. cbn. now rewrite (proj2 (Z.eqb_neq j i) H). Qed.

(** ... and stores a word. *)
Lemma fill_content s i r :
  in_block (shm s 0) -> 1 <= i <= shm s 0 ->
  total (shm (store i r s)) i = u32 (total (shm s) (i - 1) + r) /\ shm (store i r s) 0 = shm s 0.
Proof.
  intros Hb Hi. rewrite total_S, store_same_word by lia. rewrite (total_ext _ (shm s)).
  - split; [reflexivity | apply store_other_word; lia].
  - intros j Hj. apply store_other_word. lia.
Qed.

(** The token comes to the sender and leaves it. *)
Lemma phase_take s p : phase s -> waits (sender s) = true -> 0 < shmsem s ->
  match p with SDraw _ | SZero => True | _ => False end ->
  phase (set_sender p (set_sems (shmsem s - 1) (agentsem s) s)).
Proof.
  intros H Hw Hpos Hp. phases H; try lia.
  apply ph_sender; cbn.
  - lia.
  - exact A3.
  - now destruct p.
  - unfold idle. cbn. rewrite A1. now split.
  - destruct p; contradiction || exact A6.
Qed.

Lemma phase_give s p : phase s -> content s -> holds (sender s) = true ->
  match sender s with SSignal _ => waits p = true | SLastSignal => p = SDone | _ => False end ->
  phase (set_sender p (set_sems (shmsem s) (agentsem s + 1) s)).
Proof.
  intros H Hc Hh Hp. phases H; try (destruct (sender s); discriminate || contradiction).
  - destruct A4 as [A4|A4]; [destruct (sender s); discriminate | rewrite A4 in Hh; discriminate].
  - unfold content in Hc. destruct (sender s); try contradiction.
    + apply ph_given; try assumption. cbn. lia.
    + subst p. apply ph_end; try assumption; [reflexivity | cbn; lia].
Qed.

(** Inside its part the sender keeps all but the content to show. *)
Lemma inv_holds s s' :
  relay_inv s -> holds (sender s) = true -> holds (sender s') = true ->
  shmsem s' = shmsem s -> agentsem s' = agentsem s -> agent s' = agent s -> receiver s' = receiver s ->
  shm_size s' = shm_size s -> wrong s' = wrong s -> received_sums s' = received_sums s ->
  match sender s with SSignal _ => False | _ => True end ->
  match sender s' with SSignal _ => exists c, sent_sums s' = c :: sent_sums s | _ => sent_sums s' = sent_sums s end ->
  outside s' = false -> content s' -> count_ok (sender s') ->
  length (sent_sums s') = sent_count (sender s') -> relay_inv s'.
Proof.
  intros [W O C Z N P] Hh Hh' E1 E2 E3 E4 E5 E6 E7 Hn Hs HO HC HN1 HN2. constructor; try assumption.
  - congruence.
  - intros _ _. rewrite E5. apply Z; intros E; rewrite E in Hh; discriminate.
  - now split.
  - now apply (phase_holds s).
Qed.

Lemma size_in_block : in_block SHMSIZE.
Proof. unfold in_block, SHMSIZE. lia. Qed.

Lemma sender_part_inv s s' : relay_inv s -> holds (sender s) = true ->
  match sender s with SSignal _ | SLastSignal => False | _ => True end -> sender_step 32 s s' -> relay_inv s'.
Proof.
  intros H Hh Hn Hs. pose proof H as [_ O C Z [N1 N2] _]. unfold content in C. pose proof size_in_block as HB.
  destruct Hs as [E|E|n E|E|n E Hpos|n x E Hx|n E|n E|n i c r E Hi Hr|n i c E Hi|n c E|n E|E Hpos|E|E];
    rewrite E in *; try discriminate; try contradiction; cbn [count_ok sent_count] in N1, N2;
    assert (Hz : shm_size s = SHMSIZE) by (apply Z; discriminate); unfold in_block, SHMSIZE in *.
  - apply (inv_holds s); try assumption; try reflexivity; try (now rewrite E); cbn; try (destruct (x =? 0) eqn:Ex; bool_to_prop; cbn).
    all: try reflexivity; try assumption; try exact (touch_inside s 0 O ltac:(unfold SHMSIZE; lia)).
    + now left.
    + lia.
  - apply (inv_holds s); try assumption; try reflexivity; try (now rewrite E); cbn; destruct (shm_size s <? shm s 0) eqn:Ex; bool_to_prop; cbn.
    all: try reflexivity; try assumption; unfold in_block, SHMSIZE in *; try lia. split_and!; try lia. reflexivity.
  - apply (inv_holds s); try assumption; try reflexivity; try (now rewrite E); cbn; try exact (touch_inside s 0 O ltac:(unfold SHMSIZE; lia)).
    unfold in_block, SHMSIZE. split_and!; try lia. reflexivity.
  - destruct C as (C1 & C2 & ->). destruct (fill_content s i r) as [F1 F2]; [exact C1 | lia |].
    apply (inv_holds s); try assumption; try reflexivity; try (now rewrite E).
    + exact (touch_inside s i O ltac:(unfold SHMSIZE; lia)).
    + unfold content. cbn [sender set_sender]. change (shm (set_sender _ ?t)) with (shm t). rewrite F2.
      split_and!; [exact C1 | lia | lia |].
      replace (i + 1 - 1) with i by lia. now rewrite F1.
  - destruct C as (C1 & C2 & ->). apply (inv_holds s); try assumption; try reflexivity; try (now rewrite E).
    cbn. split; [exact C1|]. f_equal. lia.
  - destruct C as (C1 & ->). apply (inv_holds s); try assumption; try reflexivity; try (now rewrite E).
    + cbn. now eexists.
    + exact (touch_inside s (shm s 0 + 1) O ltac:(unfold SHMSIZE; lia)).
    + assert (E0 : shm (store (shm s 0 + 1) (i32 (total (shm s) (shm s 0))) s) 0 = shm s 0) by (apply store_other_word; lia).
      assert (Et : total (shm (store (shm s 0 + 1) (i32 (total (shm s) (shm s 0))) s)) (shm s 0) = total (shm s) (shm s 0))
        by (apply total_ext; intros j Hj; apply store_other_word; lia).
      unfold content, block. cbn [sender set_sender set_sums sent_sums head].
      change (shm (set_sender _ (set_sums _ _ ?t))) with (shm t). rewrite E0, Et, store_same_word.
      split_and!; [exact C1 | reflexivity | apply checksum_back, total_range].
    + cbn. lia.
  - apply (inv_holds s); try assumption; try reflexivity; try (now rewrite E).
    exact (touch_inside s 0 O ltac:(unfold SHMSIZE; lia)).
Qed.

(** The agent has not begun only at the start. *)
Lemma phase_begin s : phase s -> agent s = ABegin ->
  match sender s with SBegin | SInit => True | SHead n => n = COUNT | SWait n => S n = COUNT | _ => False end.
Proof. intros H Ha. phases H; try congruence; unfold idle in *; rewrite Ha in *; contradiction. Qed.

Lemma sender_inv s s' : relay_inv s -> sender_step 32 s s' -> relay_inv s'.
Proof.
  intros H Hs. destruct (holds (sender s) && match sender s with SSignal _ | SLastSignal => false | _ => true end) eqn:Eh.
  { apply (sender_part_inv s); try assumption; [now apply andb_true_iff in Eh|].
    apply andb_true_iff in Eh as [_ Eh]. now destruct (sender s). }
  destruct H as [W O C Z N P]. pose proof C as C'. unfold content in C'. pose proof (phase_begin s P) as Hb.
  destruct Hs as [E|E|n E|E|n E Hpos|n x E Hx|n E|n E|n i c r E Hi Hr|n i c E Hi|n c E|n E|E Hpos|E|E];
    rewrite E in *; try discriminate; cbn [count_ok sent_count] in N; destruct N as [N1 N2].
  - constructor; cbn; try assumption; try congruence; [now split|].
    phases P; rewrite E in *; try discriminate; [now apply ph_start | destruct A4; discriminate].
  - constructor; cbn; try assumption; [rewrite C'; apply size_in_block | now intros | split; lia |].
    phases P; rewrite E in *; try discriminate; [now apply ph_start | apply ph_free; try assumption; now left].
  - constructor; cbn; try assumption; [intros _ _; apply Z; discriminate | split; lia |].
    apply phase_move; [exact P | now rewrite E | reflexivity | intros Ha; specialize (Hb Ha); lia].
  - constructor; cbn; try assumption; [intros _ _; apply Z; discriminate | split; [exact I | lia] |].
    apply phase_move; [exact P | now rewrite E | reflexivity | intros Ha; specialize (Hb Ha); discriminate].
  - constructor; cbn; try assumption; [intros _ _; apply Z; discriminate | split; lia |].
    apply phase_take; [exact P | now rewrite E | exact Hpos | exact I].
  - constructor; cbn; try assumption; [apply C' | intros _ _; apply Z; discriminate | split; lia |].
    apply phase_give; try assumption; now rewrite E.
  - constructor; cbn; try assumption; [intros _ _; apply Z; discriminate | split; [exact I | lia] |].
    apply phase_take; [exact P | now rewrite E | exact Hpos | exact I].
  - constructor; cbn; try assumption; [intros _ _; apply Z; discriminate | split; [exact I | lia] |].
    apply phase_give; try assumption; now rewrite E.
Qed.

(** ** Steps of the receiver *)

(** The receiver moves while another has the token. *)
Lemma phase_receiver_early s r :
  phase s -> match receiver s, r with RBegin, RRpc | RRpc, RPosted => True | _, _ => False end ->
  phase (set_receiver r s).
Proof.
  intros H Hr. assert (Hi : idle s -> idle (set_receiver r s)).
  { unfold idle. cbn. destruct (agent s); [easy | intros [-> Hi]; split; [reflexivity|] | intros Hi | intros [Hi|Hi]];
      destruct (receiver s); try discriminate; try contradiction; now destruct r. }
  assert (Hy : ready (receiver s) = true -> ready r = true) by (destruct (receiver s); try discriminate; now destruct r).
  phases H.
  - apply ph_start; try assumption. cbn. destruct (receiver s); try contradiction; now destruct r.
  - apply ph_free; auto.
  - apply ph_sender; auto.
  - apply ph_given; auto.
  - apply ph_agent; auto.
  - exfalso. unfold reading in A5. destruct (receiver s); contradiction.
  - apply ph_end; auto.
Qed.

(** The receiver has been answered. *)
Lemma phase_answered s :
  phase s -> match receiver s with RGot _ | RSum _ _ | RCheck _ | RSend => True | _ => False end ->
  receiver s = RGot LAST_MSG /\ agent s = ADone \/
  agent s = ARun 3 /\ shmsem s = 0 /\ agentsem s = 0 /\ waits (sender s) = true /\ reading s /\ block s.
Proof.
  intros H Hr. phases H; unfold idle, ready in *; try (destruct (receiver s); discriminate || contradiction).
  all: try (right; now split_and!).
  all: left; destruct (agent s); try contradiction; [destruct A4 as [_ A4] | |]; destruct (receiver s); try discriminate; try contradiction.
  all: destruct A4; try discriminate; now split.
Qed.

Lemma inv_reading s s' :
  relay_inv s -> agent s = ARun 3 -> waits (sender s) = true -> reading s' -> block s ->
  shm s' = shm s -> shmsem s = 0 -> shmsem s' = 0 -> agentsem s' = 0 -> agent s' = agent s -> sender s' = sender s ->
  shm_size s' = shm_size s -> sent_sums s' = sent_sums s -> wrong s' = false -> outside s' = false -> relay_inv s'.
Proof.
  intros [W O C Z N P] Ha Hw Hr Hb E1 _ E2 E3 E4 E5 E6 E7 E8 E9. constructor; try assumption.
  - unfold content in *. rewrite E1, E5. now destruct (sender s).
  - intros. rewrite E6. apply Z; congruence.
  - rewrite E5, E7. exact N.
  - apply ph_receiver; try congruence. unfold block in *. now rewrite E1, E7.
Qed.

Lemma phase_receiver_end s : phase s -> agent s = ADone -> phase (set_receiver RDone s).
Proof.
  intros H Ha. assert (Hi : idle (set_receiver RDone s)) by (unfold idle; cbn; rewrite Ha; now right).
  phases H; try congruence; [now apply ph_sender | now apply ph_given | now apply ph_end].
Qed.

Lemma block_mismatch s : block s -> mismatch 32 (total (shm s) (shm s 0)) s = false.
Proof. intros (_ & _ & E). unfold mismatch. now rewrite E, Z.eqb_refl. Qed.

Lemma receiver_reads s s' : relay_inv s -> agent s = ARun 3 -> shmsem s = 0 -> agentsem s = 0 ->
  waits (sender s) = true -> reading s -> block s -> receiver_step 32 s s' -> relay_inv s'.
Proof.
  intros H Ha H1 H2 Hw Hr Hb Hs. pose proof H as [W O _ _ _ _]. pose proof Hb as (Hin & Hh & _). unfold in_block in Hin.
  unfold reading in Hr.
  destruct Hs as [E|E|v E Hv|E|i c E Hi|i c E Hi|c E|E]; rewrite E in Hr; try contradiction;
    [| destruct Hr; discriminate |..]; apply (inv_reading s); try assumption; try reflexivity; unfold reading; cbn.
  - split_and!; [lia | lia | reflexivity | apply Hr].
  - destruct Hr as (C1 & -> & C2). split_and!; [lia | lia | | exact C2].
    replace (i + 1 - 1) with i by lia. symmetry. apply total_S. lia.
  - apply touch_inside; [exact O|]. unfold SHMSIZE in *. lia.
  - destruct Hr as (C1 & -> & C2). split; [f_equal; lia | exact C2].
  - destruct Hr as [-> [d Hd]]. rewrite Hd in *. cbn in Hh. now injection Hh as ->.
  - destruct Hr as [-> _]. rewrite W. exact (block_mismatch s Hb).
  - apply touch_inside; [exact O|]. unfold SHMSIZE in *. lia.
Qed.

Lemma receiver_inv s s' : relay_inv s -> receiver_step 32 s s' -> relay_inv s'.
Proof.
  intros H Hs. pose proof H as [W O C Z N P].
  destruct (match receiver s with RBegin | RRpc => true | _ => false end) eqn:Ee.
  - destruct Hs as [E|E|v E Hv|E|i c E Hi|i c E Hi|c E|E]; rewrite E in Ee; try discriminate;
      (constructor; try assumption; apply phase_receiver_early; [exact P | now rewrite E]).
  - destruct (phase_answered s P) as [[Er Ha]|(Ha & H1 & H2 & Hw & Hr & Hb)].
    + destruct Hs as [E|E|v E Hv|E|i c E Hi|i c E Hi|c E|E]; rewrite E in *; try discriminate; exact I.
    + destruct Hs as [E|E|v E Hv|E|i c E Hi|i c E Hi|c E|E]; rewrite Er in E; try discriminate.
      * injection E as <-. contradiction.
      * constructor; try assumption. now apply phase_receiver_end.
    + now apply (receiver_reads s).
Qed.

(** ** Turns of the agent *)

Lemma set_agent_same s a : agent s = a -> set_agent a s = s.
Proof. intros <-. now destruct s. Qed.

Lemma inv_agent s s' :
  relay_inv s -> shm s' = shm s -> sender s' = sender s -> shm_size s' = shm_size s -> sent_sums s' = sent_sums s ->
  received_sums s' = received_sums s -> wrong s' = false -> outside s' = false -> phase s' -> relay_inv s'.
Proof.
  intros [W O C Z N P] E1 E2 E3 E4 E5 E6 E7 HP. constructor; try assumption.
  - unfold content, block in *. rewrite E1, E2, E4. exact C.
  - rewrite E2, E3. exact Z.
  - now rewrite E2, E4.
Qed.

(** After its loop. *)
Lemma agent_last_cases s : ready (receiver s) = true ->
  agent_last s = set_agent ALast s \/ agent_last s = set_agent ADone (set_receiver (RGot LAST_MSG) s).
Proof.
  unfold agent_last, receive_if, rt_return. destruct (receiver s); try discriminate; intros _; [now left | now right].
Qed.

Lemma idle_last s : ready (receiver s) = true -> idle (agent_last s).
Proof.
  intros Hr. destruct (agent_last_cases s Hr) as [-> | ->]; [exact Hr | now left].
Qed.

Lemma last_inv s : relay_inv s -> ready (receiver s) = true -> (idle (agent_last s) -> phase (agent_last s)) -> relay_inv (agent_last s).
Proof.
  intros H Hr HP. specialize (HP (idle_last s Hr)). pose proof H as [W O _ _ _ _].
  destruct (agent_last_cases s Hr) as [E|E]; rewrite E in *; now apply (inv_agent s).
Qed.

(** The agent asks the receiver for its message; [s1] is [s] with [agentsem]
    taken. *)
Lemma case2_inv s s1 :
  relay_inv s -> shm s1 = shm s -> sender s1 = sender s -> shm_size s1 = shm_size s -> sent_sums s1 = sent_sums s ->
  received_sums s1 = received_sums s -> wrong s1 = false -> outside s1 = false ->
  shmsem s1 = 0 -> agentsem s1 = 0 -> waits (sender s1) = true -> ready (receiver s1) = true ->
  block s1 -> ahead s1 -> relay_inv (case2 s1).
Proof.
  intros H E1 E2 E3 E4 E5 W O H1 H2 Hw Hr Hb Ha. unfold case2, receive_if.
  destruct (receiver s1) eqn:E; try discriminate.
  - apply (inv_agent s); try assumption. apply ph_agent; try assumption; try reflexivity. cbn. now rewrite E.
  - cbn [rt_return receiver set_receiver case3 receive_if]. apply (inv_agent s); try assumption.
    apply ph_receiver; try assumption; [reflexivity | now split].
Qed.

Lemma case1_inv s :
  relay_inv s -> shmsem s = 0 -> agentsem s = 1 -> waits (sender s) = true -> ready (receiver s) = true ->
  block s -> ahead s -> relay_inv (case1 32 s).
Proof.
  intros H H1 H2 Hw Hr Hb Ha. pose proof H as [W O _ _ _ _]. unfold case1. rewrite H2. cbn [Z.leb Z.compare].
  apply (case2_inv s); try assumption; try reflexivity.
  - cbn [wrong complain touch set_sems]. rewrite W. exact (block_mismatch s Hb).
  - apply touch_inside; [exact O|]. destruct Hb as [Hb _]. unfold in_block, SHMSIZE in *. cbn. lia.
Qed.

Lemma case1_waits s : relay_inv s -> agentsem s = 0 -> agent s = ARun 1 -> relay_inv (case1 32 s).
Proof.
  intros H H1 H2. unfold case1. rewrite H1. cbn [Z.leb Z.compare].
  now rewrite (set_agent_same s).
Qed.

(** The block is not empty while the sender waits. *)
Lemma waits_loop s : relay_inv s -> waits (sender s) = true \/ sender s = SInit -> (shm s 0 =? 0) = false.
Proof.
  intros H Hw. apply Z.eqb_neq. pose proof (ri_content _ H) as C. unfold content, in_block, SHMSIZE in C.
  destruct Hw as [Hw|Hw]; [destruct (sender s); try discriminate | rewrite Hw in C]; lia.
Qed.

Lemma agent_idle_inv s : relay_inv s -> idle s ->
  (forall s', shm s' = shm s -> sender s' = sender s -> sent_sums s' = sent_sums s -> received_sums s' = received_sums s ->
     shmsem s' = shmsem s -> agentsem s' = agentsem s -> idle s' -> phase s') ->
  (agent s = ARun 1 -> ready (receiver s) = true -> shm s 0 <> 0 -> relay_inv (case1 32 s)) ->
  relay_inv (agent_turn 32 s).
Proof.
  intros H Hi HP Hc. unfold agent_turn. unfold idle in Hi. pose proof (last_inv s H) as HL.
  assert (HF : ready (receiver s) = true -> relay_inv (agent_last s)).
  { intros Hr. apply HL; [exact Hr|]. intros Hi'.
    destruct (agent_last_cases s Hr) as [E|E]; rewrite E in *; now apply HP. }
  destruct (agent s) as [|op| |] eqn:Ea; [contradiction | | now apply HF | exact H].
  destruct Hi as [-> Hr]. unfold agent_loop. destruct (Z.eqb_spec (shm s 0) 0); [now apply HF|]. cbn [Z.eqb Pos.eqb]. now apply Hc.
Qed.

Lemma agent_inv s : relay_inv s -> relay_inv (agent_turn 32 s).
Proof.
  intros H. pose proof H as [W O C Z N P]. phases P.
  - unfold agent_turn. rewrite A1. destruct (registered s) eqn:Er; [|exact H]. unfold registered in Er.
    assert (Hw : waits (sender s) = true \/ sender s = SInit) by (destruct (sender s); try discriminate; try contradiction; auto).
    unfold agent_loop. rewrite (waits_loop s H Hw). cbn [Z.eqb Pos.eqb]. apply (inv_agent s); try assumption; try reflexivity.
    apply ph_free; try assumption; try reflexivity; [cbn; lia|]. change (receiver (case4 s)) with (receiver s); destruct (sender s), (receiver s); try discriminate; try contradiction; reflexivity.
  - unfold agent_turn. rewrite A1. unfold agent_loop. rewrite (waits_loop s H A4). cbn [Z.eqb Pos.eqb].
    now apply case1_waits.
  - apply agent_idle_inv; try assumption.
    + intros s' E1 E2 E3 E4 E5 E6 Hi. apply ph_sender; try congruence. rewrite E2. unfold ahead in *. rewrite E3, E4. exact A5.
    + intros Ha _ _. now apply case1_waits.
  - apply agent_idle_inv; try assumption.
    + intros s' E1 E2 E3 E4 E5 E6 Hi. apply ph_given; try congruence; unfold block, ahead in *; now rewrite ?E1, ?E3, ?E4.
    + intros Ha Hr _. now apply case1_inv.
  - unfold agent_turn. rewrite A1. unfold agent_loop. rewrite (waits_loop s H (or_introl A4)). cbn [Z.eqb Pos.eqb].
    now apply (case2_inv s).
  - unfold agent_turn. rewrite A1. unfold agent_loop. rewrite (waits_loop s H (or_introl A4)). cbn [Z.eqb Pos.eqb].
    unfold case3, receive_if. destruct (receiver s) eqn:E;
      try (rewrite (set_agent_same s) by exact A1; exact H).
    + unfold reading in A5. rewrite E in A5. contradiction.
    + apply (inv_agent s); try assumption; try reflexivity. unfold reading in A5. rewrite E in A5.
      apply ph_free; try assumption; try reflexivity; [cbn; lia | now left].
  - apply agent_idle_inv; try assumption.
    + intros s' E1 E2 E3 E4 E5 E6 Hi. apply ph_end; congruence || assumption.
    + intros _ _ Hz. unfold content in C. rewrite A1 in C. contradiction.
Qed.

Lemma relay_step_inv s s' : relay_inv s -> step s s' -> relay_inv s'.
Proof. intros H [|s1 Hs|s1 Hs]; [now apply agent_inv | now apply (sender_inv s) | now apply (receiver_inv s)]. Qed.

Lemma reachable_relay_inv s : rreachable 32 s -> relay_inv s.
Proof.
  intros (s0 & H0 & Hr). apply (rtc_invariant step relay_inv s0); [now apply loaded_inv | apply relay_step_inv | exact Hr].
Qed.
