(* ===== verification/AgentTheorems.v ===== *)
(** * The agent between two processes: theorems

    Every block reaches the receiver intact and in order, whatever the
    interleaving; the relay can be brought to its end as long as the agent has
    not met an empty block too early, which it can. *)

From stdpp Require Import base tactics numbers list relations.
From S2P Require Import Prelude Agent AgentFacts.

#[local] Opaque COUNT.

(** ** Runs of one task *)

Section Runs.
Implicit Types s : relay.

(** What a run of one process leaves alone. *)
Definition same_sems s s' : Prop := shmsem s' = shmsem s /\ agentsem s' = agentsem s /\ agent s' = agent s.

Lemma run_sender s s' : sender_step 32 s s' -> rtc step s s'.
Proof. intros H. apply rtc_once. now apply rs_sender. Qed.

Lemma run_receiver s s' : receiver_step 32 s s' -> rtc step s s'.
Proof. intros H. apply rtc_once. now apply rs_receiver. Qed.

Lemma run_post s : ready (receiver s) = true -> rtc step s (set_receiver RPosted s).
Proof.
  intros Hr. destruct (receiver s) eqn:E; try discriminate.
  - apply run_receiver. now apply r_rpc.
  - replace (set_receiver RPosted s) with s by (rewrite <- E; now destruct s). apply rtc_refl.
Qed.

(** The rest of the block is filled. *)
Lemma run_fill n k : forall s i c, sender s = SFill n i c -> 1 <= i -> shm s 0 + 1 - i <= Z.of_nat k ->
  exists s' c', rtc step s s' /\ sender s' = SPut n c' /\ same_sems s s' /\ receiver s' = receiver s.
Proof.
  induction k as [|k IH]; intros s i c E Hi Hk.
  - eexists _, c. split; [apply run_sender; apply (s_filled 32 s n i c E); lia|]. now split_and!.
  - destruct (decide (i <= shm s 0)) as [Hle|Hgt].
    + destruct (IH (set_sender (SFill n (i + 1) (u32 (c + 7))) (store i 7 s)) (i + 1) (u32 (c + 7)) eq_refl ltac:(lia))
        as (s' & c' & Hr & Es & Hm & Er).
      * change (shm (set_sender _ ?t)) with (shm t). rewrite store_other_word by lia. lia.
      * exists s', c'. split; [|now split_and!]. eapply rtc_l; [|exact Hr]. apply rs_sender.
        apply (s_fill 32 s n i c 7 E Hle). unfold INT_MAX. lia.
    + eexists _, c. split; [apply run_sender; apply (s_filled 32 s n i c E); lia|]. now split_and!.
Qed.

(** The sender finishes its block and gives it to the agent. *)
Definition given_to s s' (n : nat) : Prop :=
  rtc step s s' /\ sender s' = SHead n /\ agent s' = agent s /\ receiver s' = receiver s.

Lemma given_trans s s1 s' n :
  rtc step s s1 -> same_sems s s1 -> receiver s1 = receiver s -> given_to s1 s' n -> given_to s s' n.
Proof.
  intros Hr (_ & _ & Ea) Er (Hr' & Es & Ea' & Er'). split_and!; [now transitivity s1 | exact Es | congruence | congruence].
Qed.

Lemma run_put s n c : sender s = SPut n c -> exists s', given_to s s' n.
Proof.
  intros E. eexists. split.
  - eapply rtc_l; [apply rs_sender; exact (s_put 32 s n c E)|]. apply run_sender. now apply s_signal.
  - now split_and!.
Qed.

Lemma run_filling s n i c : relay_inv s -> sender s = SFill n i c -> exists s', given_to s s' n.
Proof.
  intros H E. pose proof (ri_content _ H) as C. unfold content in C. rewrite E in C. destruct C as (C1 & C2 & _).
  destruct (run_fill n (Z.to_nat (shm s 0 + 1 - i)) s i c E ltac:(lia) ltac:(lia)) as (s1 & c' & Hr & Es & Hm & Er).
  destruct (run_put s1 n c' Es) as [s' Hg]. exists s'. now apply (given_trans s s1).
Qed.

(** One step, and the rest is known. *)
Lemma run_more s s1 n :
  relay_inv s -> sender_step 32 s s1 -> same_sems s s1 -> receiver s1 = receiver s ->
  (relay_inv s1 -> exists s', given_to s1 s' n) -> exists s', given_to s s' n.
Proof.
  intros H Hs Hm Er Hg. destruct (Hg (sender_inv s s1 H Hs)) as [s' Hs']. exists s'.
  apply (given_trans s s1); try assumption. now apply run_sender.
Qed.

Lemma run_block s n : relay_inv s ->
  match sender s with SDraw m | STest m | SFix m | SFill m _ _ | SPut m _ | SSignal m => m = n | _ => False end ->
  exists s', given_to s s' n.
Proof.
  assert (HF : forall t, relay_inv t -> sender t = SFix n -> exists s', given_to t s' n).
  { intros t Ht Et. apply (run_more t _ n Ht (s_fix 32 t n Et)); [now split_and! | reflexivity|].
    intros Ht'. now apply (run_filling _ n 1 0 Ht'). }
  assert (HT : forall t, relay_inv t -> sender t = STest n -> exists s', given_to t s' n).
  { intros t Ht Et. apply (run_more t _ n Ht (s_test 32 t n Et)); [now split_and! | reflexivity|].
    destruct (shm_size t <? shm t 0); intros Ht'; [now apply HF | now apply (run_filling _ n 1 0 Ht')]. }
  intros H Hs. destruct (sender s) eqn:E; try contradiction; subst.
  - apply (run_more s _ n H (s_draw 32 s n 1 E ltac:(unfold INT_MAX; lia))); [now split_and! | reflexivity|].
    intros Ht. now apply HT.
  - now apply HT.
  - now apply HF.
  - now apply (run_filling s n i c).
  - now apply (run_put s n c).
  - eexists. split; [apply run_sender; exact (s_signal 32 s n E)|]. now split_and!.
Qed.

(** The receiver reads its block and answers. *)
Lemma run_sum k : forall s i c, receiver s = RSum i c -> shm s 0 + 1 - i <= Z.of_nat k ->
  exists s' c', rtc step s s' /\ receiver s' = RCheck c' /\ same_sems s s' /\ sender s' = sender s.
Proof.
  induction k as [|k IH]; intros s i c E Hk.
  - eexists _, c. split; [apply run_receiver; apply (r_summed 32 s i c E); lia|]. now split_and!.
  - destruct (decide (i <= shm s 0)) as [Hle|Hgt].
    + destruct (IH (set_receiver (RSum (i + 1) (u32 (c + shm s i))) (touch i s)) (i + 1) (u32 (c + shm s i)) eq_refl)
        as (s' & c' & Hr & Es & Hm & Er); [cbn; lia|].
      exists s', c'. split; [|now split_and!]. eapply rtc_l; [|exact Hr]. apply rs_receiver. now apply r_sum.
    + eexists _, c. split; [apply run_receiver; apply (r_summed 32 s i c E); lia|]. now split_and!.
Qed.

Definition answered s s' : Prop :=
  rtc step s s' /\ receiver s' = RSent /\ same_sems s s' /\ sender s' = sender s.

Lemma answered_trans s s1 s' :
  rtc step s s1 -> same_sems s s1 -> sender s1 = sender s -> answered s1 s' -> answered s s'.
Proof.
  intros Hr (E1 & E2 & E3) Es (Hr' & Er & (F1 & F2 & F3) & Es'). split_and!; [now transitivity s1 | exact Er | | congruence].
  split_and!; congruence.
Qed.

Lemma run_check s c : receiver s = RCheck c -> exists s', answered s s'.
Proof.
  intros E. eexists. split.
  - eapply rtc_l; [apply rs_receiver; exact (r_check 32 s c E)|]. apply run_receiver. now apply r_send.
  - now split_and!.
Qed.

Lemma run_sum_all s i c : receiver s = RSum i c -> exists s', answered s s'.
Proof.
  intros E. destruct (run_sum (Z.to_nat (shm s 0 + 1 - i)) s i c E ltac:(lia)) as (s1 & c' & Hr & E1 & Hm & Es).
  destruct (run_check s1 c' E1) as [s' Ha]. exists s'. now apply (answered_trans s s1).
Qed.

Lemma run_read s : reading s -> exists s', answered s s'.
Proof.
  intros Hr. unfold reading in Hr. destruct (receiver s) eqn:E; try contradiction.
  - destruct Hr as [-> _]. assert (Hs : receiver_step 32 s (set_receiver (RSum 1 0) s)) by (apply (r_block 32 s RPC_MSG E); discriminate).
    destruct (run_sum_all (set_receiver (RSum 1 0) s) 1 0 eq_refl) as [s' Ha]. exists s'.
    apply (answered_trans s _ s' (run_receiver _ _ Hs)); [now split_and! | reflexivity | exact Ha].
  - now apply (run_sum_all s i c).
  - now apply (run_check s c).
  - eexists. split; [apply run_receiver; exact (r_send 32 s E)|]. now split_and!.
  - exists s. split; [apply rtc_refl|]. now split_and!.
Qed.
End Runs.

(** ** Progress *)

(** The blocks still to be given. *)
Definition left (p : sender_pc) : nat :=
  match p with
  | SBegin | SInit => COUNT
  | SHead n => n
  | SWait n | SDraw n | STest n | SFix n | SFill n _ _ | SPut n _ | SSignal n => S n
  | _ => 0
  end.

(** The agent has not left its loop before the sender's end. *)
Definition on_course s : Prop :=
  match agent s with
  | ALast | ADone => match sender s with SLastSignal | SDone => True | _ => False end
  | _ => True
  end.

Definition rank s : nat :=
  8 * left (sender s) +
  match agent s with
  | ABegin => 2
  | ARun op =>
      if op =? 2 then 4 else if op =? 3 then 3 else if shmsem s =? 1 then 1 else if holds (sender s) then 0 else 5
  | _ => 0
  end.

Definition nearer s s' : Prop :=
  rtc step s s' /\ on_course s' /\ (sender s' = SDone \/ (rank s' < rank s)%nat).

Lemma rtc_inv s s' : relay_inv s -> rtc step s s' -> relay_inv s'.
Proof. intros H Hr. apply (rtc_invariant step _ s); [exact H | apply relay_step_inv | exact Hr]. Qed.

(** The start: both processes register and the agent begins. *)
Lemma start_nearer s : relay_inv s -> agent s = ABegin -> exists s', nearer s s'.
Proof.
  intros H Ha.
  assert (exists s1, rtc step s s1 /\ registered s1 = true /\ agent s1 = ABegin /\ left (sender s1) = left (sender s) /\
    (waits (sender s1) = true \/ sender s1 = SInit)) as (s1 & Hr & Hg & Ha1 & Hl & Hw).
  { set (s1 := match sender s with SBegin => set_sender SInit s | _ => s end).
    assert (H1 : rtc step s s1).
    { unfold s1. destruct (sender s) eqn:E; try apply rtc_refl. apply run_sender. now apply s_register. }
    set (s2 := match receiver s with RBegin => set_receiver RRpc s1 | _ => s1 end).
    assert (H2 : rtc step s1 s2).
    { unfold s2. destruct (receiver s) eqn:E; try apply rtc_refl. apply run_receiver. apply r_register.
      unfold s1. destruct (sender s); exact E. }
    exists s2. split; [now transitivity s1|]. pose proof (phase_begin s (ri_phase _ H) Ha) as Hb.
    assert (Hrec : receiver s1 = receiver s) by (unfold s1; now destruct (sender s)).
    unfold registered, s2. destruct (receiver s) eqn:Er; cbn [receiver sender agent set_receiver]; rewrite ?Hrec, ?Er;
      unfold s1; destruct (sender s) eqn:Es; try contradiction; cbn [sender agent set_sender]; rewrite ?Es; auto. }
  pose proof (rtc_inv s s1 H Hr) as H1. exists (agent_turn 32 s1).
  assert (E : agent_turn 32 s1 = case4 s1).
  { unfold agent_turn, agent_loop. rewrite Ha1, Hg, (waits_loop s1 H1 Hw). reflexivity. }
  pose proof (ri_phase _ H1) as P. phases P; try congruence; unfold idle in *; rewrite ?Ha1 in *; try contradiction.
  split_and!; [eapply rtc_r; [exact Hr | apply rs_agent] | now rewrite E | right].
  rewrite E. unfold rank. cbn [agent case4 set_agent sender set_sems shmsem]. rewrite A2, Hl, Ha. change (0 + 1 =? 1) with true. cbn [Z.eqb Pos.eqb]. lia.
Qed.

(** The sender takes the token. *)
Lemma free_nearer s : relay_inv s -> agent s = ARun 1 -> shmsem s = 1 ->
  waits (sender s) = true \/ sender s = SInit -> exists s', nearer s s'.
Proof.
  intros H Ha Hs.
  assert (Ht : forall t p, rtc step s t -> agent t = ARun 1 -> shmsem t = 1 -> left p = left (sender s) ->
    holds p = true -> (relay_inv t -> sender_step 32 t (set_sender p (set_sems (shmsem t - 1) (agentsem t) t))) -> exists s', nearer s s').
  { intros t p Hr Hat Hst Hl Hp Hstep. eexists. split_and!.
    - eapply rtc_r; [exact Hr|]. apply rs_sender. apply Hstep. now apply (rtc_inv s).
    - unfold on_course. cbn. now rewrite Hat.
    - right. unfold rank. cbn [agent shmsem sender set_sender set_sems]. rewrite Hat, Hst, Ha, Hs, Hp, Hl. change (1 - 1 =? 1) with false. cbn [Z.eqb Pos.eqb]. lia. }
  assert (Hwait : forall t n, rtc step s t -> agent t = ARun 1 -> shmsem t = 1 -> sender t = SWait n -> left (sender s) = S n -> exists s', nearer s s').
  { intros t n Hr Hat Hst Et Hl. apply (Ht t (SDraw n)); try assumption; [now rewrite Hl | reflexivity|].
    intros _. apply (s_wait 32 t n Et). lia. }
  assert (Hlast : forall t, rtc step s t -> agent t = ARun 1 -> shmsem t = 1 -> sender t = SLastWait -> left (sender s) = O -> exists s', nearer s s').
  { intros t Hr Hat Hst Et Hl. apply (Ht t SZero); try assumption; [now rewrite Hl | reflexivity|].
    intros _. apply (s_last_wait 32 t Et). lia. }
  assert (Hhead : forall t n, rtc step s t -> agent t = ARun 1 -> shmsem t = 1 -> sender t = SHead n -> left (sender s) = n -> exists s', nearer s s').
  { intros t [|n] Hr Hat Hst Et Hl.
    - apply (Hlast (set_sender SLastWait t)); try assumption; [|reflexivity]. eapply rtc_r; [exact Hr|]. apply rs_sender. now apply s_enough.
    - apply (Hwait (set_sender (SWait n) t) n); try assumption; [|reflexivity]. eapply rtc_r; [exact Hr|]. apply rs_sender. now apply s_more. }
  intros Hw. destruct (sender s) eqn:E; try (destruct Hw; discriminate).
  - apply (Hhead (set_size (shm s 0) (set_sender (SHead COUNT) s)) COUNT); try assumption; try reflexivity.
    apply run_sender. now apply s_size.
  - apply (Hhead s n); try assumption; [apply rtc_refl | reflexivity].
  - apply (Hwait s n); try assumption; [apply rtc_refl | reflexivity].
  - apply (Hlast s); try assumption; [apply rtc_refl | reflexivity].
Qed.

(** The sender gives its block, or ends. *)
Lemma sender_nearer s : relay_inv s -> holds (sender s) = true -> on_course s -> idle s -> exists s', nearer s s'.
Proof.
  intros H Hh Hc Hi.
  assert (Hb : forall n, match sender s with SDraw m | STest m | SFix m | SFill m _ _ | SPut m _ | SSignal m => m = n | _ => False end ->
    exists s', nearer s s').
  { intros n Hn. destruct (run_block s n H Hn) as (s' & Hr & Es & Ea & _). exists s'.
    assert (Ha : agent s = ARun 1).
    { unfold on_course, idle in *. destruct (agent s); try (destruct (sender s); contradiction); [now destruct Hi as [-> _]]. }
    split_and!; [exact Hr | unfold on_course; now rewrite Ea, Ha | right].
    assert (left (sender s) = S n) by (destruct (sender s); try contradiction; now subst).
    unfold rank. rewrite Es, Ea, Ha. cbn [Z.eqb Pos.eqb left]. destruct (shmsem s' =? 1), (shmsem s =? 1); cbn [holds]; rewrite ?Hh; lia. }
  destruct (sender s) eqn:E; try discriminate; try (now apply (Hb n)); clear Hb.
  - eexists. split_and!; [| | left].
    + eapply rtc_l; [apply rs_sender; exact (s_zero 32 s E)|]. apply run_sender. now apply s_last_signal.
    + unfold on_course. cbn. now destruct (agent s).
    + reflexivity.
  - eexists. split_and!; [apply run_sender; exact (s_last_signal 32 s E) | | now left].
    unfold on_course. cbn. now destruct (agent s).
Qed.

(** The agent checks the block and lets the receiver read it. *)
Lemma agent_nearer s : relay_inv s -> waits (sender s) = true -> ready (receiver s) = true ->
  agent s = ARun 1 /\ shmsem s = 0 /\ agentsem s = 1 \/ agent s = ARun 2 -> exists s', nearer s s'.
Proof.
  intros H Hw Hr Ha. exists (agent_turn 32 (set_receiver RPosted s)).
  pose proof (rtc_inv _ _ H (run_post s Hr)) as H1.
  assert (E : agent (agent_turn 32 (set_receiver RPosted s)) = ARun 3 /\ sender (agent_turn 32 (set_receiver RPosted s)) = sender s).
  { unfold agent_turn, agent_loop. cbn [agent set_receiver]. rewrite (waits_loop _ H1 (or_introl Hw)).
    destruct Ha as [(-> & _ & Ha)| ->]; cbn [Z.eqb Pos.eqb]; [|now split].
    unfold case1. cbn [agentsem set_receiver]. rewrite Ha. now split. }
  destruct E as [E1 E2]. split_and!.
  - eapply rtc_r; [exact (run_post s Hr) | apply rs_agent].
  - unfold on_course. now rewrite E1.
  - right. unfold rank. rewrite E1, E2. destruct Ha as [(-> & -> & _)| ->]; cbn [Z.eqb Pos.eqb]; [|lia].
    destruct (sender s); try discriminate; cbn [holds]; lia.
Qed.

(** The receiver reads the block and the token is free again. *)
Lemma receiver_nearer s : relay_inv s -> waits (sender s) = true -> agent s = ARun 3 -> shmsem s = 0 ->
  reading s -> exists s', nearer s s'.
Proof.
  intros H Hw Ha Hs Hrd. destruct (run_read s Hrd) as (s1 & Hr & Er & (E1 & _ & E3) & Es). exists (agent_turn 32 s1).
  pose proof (rtc_inv _ _ H Hr) as H1.
  assert (E : agent_turn 32 s1 = case4 (set_receiver RRpc s1)).
  { unfold agent_turn, agent_loop. rewrite E3, Ha, (waits_loop s1 H1) by (left; congruence). cbn [Z.eqb Pos.eqb].
    unfold case3, receive_if. now rewrite Er. }
  rewrite E. split_and!; [rewrite <- E; eapply rtc_r; [exact Hr | apply rs_agent] | exact I | right].
  unfold rank. cbn [agent sender shmsem case4 set_agent set_sems set_receiver]. rewrite Es, E1, Hs, Ha.
  change (0 + 1 =? 1) with true. cbn [Z.eqb Pos.eqb]. lia.
Qed.

Lemma progress s : relay_inv s -> on_course s -> sender s <> SDone -> exists s', nearer s s'.
Proof.
  intros H Hc Hd. pose proof (ri_phase _ H) as P.
  assert (Hi : waits (sender s) = true -> idle s -> agent s = ARun 1 /\ ready (receiver s) = true).
  { intros Hw Hi. unfold on_course, idle in *. destruct (agent s); try contradiction; [destruct Hi as [-> Hi]; now split | |];
      destruct (sender s); discriminate || contradiction. }
  phases P.
  - now apply start_nearer.
  - now apply free_nearer.
  - now apply sender_nearer.
  - destruct (Hi A3 A4) as [Ha Hr]. apply agent_nearer; try assumption. left. now split_and!.
  - apply agent_nearer; try assumption. now right.
  - now apply receiver_nearer.
  - contradiction.
Qed.

Lemma reaches_done s : relay_inv s -> on_course s -> exists s', rtc step s s' /\ on_course s' /\ sender s' = SDone.
Proof.
  intros H Hc. remember (rank s) as k eqn:Ek. revert s H Hc Ek. induction k as [k IH] using lt_wf_ind. intros s H Hc ->.
  assert (Hdec : sender s = SDone \/ sender s <> SDone) by (destruct (sender s); (now left) || (right; discriminate)).
  destruct Hdec as [Hd|Hd]; [exists s; split_and!; [apply rtc_refl | exact Hc | exact Hd]|].
  destruct (progress s H Hc Hd) as (s1 & Hr & Hc1 & [Hd1|Hlt]); [now exists s1|].
  destruct (IH _ Hlt s1 (rtc_inv _ _ H Hr) Hc1 eq_refl) as (s' & Hr' & Hc' & Hd'). exists s'.
  split_and!; [now transitivity s1 | exact Hc' | exact Hd'].
Qed.

(** The agent and the receiver end after the sender. *)
Lemma last_messages s : relay_inv s -> sender s = SDone ->
  exists s', rtc step s s' /\ sender s' = SDone /\ agent s' = ADone /\ receiver s' = RDone.
Proof.
  intros H Hd. pose proof (ri_content _ H) as C. unfold content in C. rewrite Hd in C.
  assert (Hi : idle s).
  { pose proof (ri_phase _ H) as P. phases P; rewrite Hd in *; try discriminate; try contradiction; [destruct A4; discriminate | assumption]. }
  assert (Hend : forall t, rtc step s t -> sender t = SDone -> agent t = ADone -> receiver t = RGot LAST_MSG ->
    exists s', rtc step s s' /\ sender s' = SDone /\ agent s' = ADone /\ receiver s' = RDone).
  { intros t Hr Es Ea Er. exists (set_receiver RDone t). split_and!; try assumption; [|reflexivity].
    eapply rtc_r; [exact Hr|]. apply rs_receiver. now apply r_end. }
  assert (Hpost : ready (receiver s) = true -> agent_turn 32 (set_receiver RPosted s) = agent_last (set_receiver RPosted s) ->
    exists s', rtc step s s' /\ sender s' = SDone /\ agent s' = ADone /\ receiver s' = RDone).
  { intros Hr E. apply (Hend (agent_turn 32 (set_receiver RPosted s))).
    - eapply rtc_r; [exact (run_post s Hr) | apply rs_agent].
    - rewrite E. exact Hd.
    - now rewrite E.
    - now rewrite E. }
  unfold idle in Hi. destruct (agent s) eqn:Ea; [contradiction | | |].
  - destruct Hi as [-> Hr]. apply Hpost; [exact Hr|]. unfold agent_turn, agent_loop. cbn [agent set_receiver shm]. now rewrite Ea, C.
  - apply Hpost; [exact Hi|]. unfold agent_turn. cbn [agent set_receiver]. now rewrite Ea.
  - destruct Hi as [Hr|Hr]; [apply (Hend s); try assumption; apply rtc_refl | exists s; split_and!; try assumption; apply rtc_refl].
Qed.

(** ** The theorems *)

(** C21: the relay passes every block intact on one processor, where a period of
    the agent, a kernel task of the highest priority, is not interrupted, and where
    a [long] has 32 bits.  In any interleaving of the periods of the agent with the
    accesses of the sender and of the receiver, neither the agent nor the receiver
    finds a wrong checksum and no task reads or writes outside the block; the
    receiver has printed the checksums of the sender in their order, all of them or
    all but the last; and when the sender has ended the receiver has had every
    one of the [COUNT] blocks.  (With a [long] of 64 bits the checksums differ:
    [relay_64_mismatch].) *)
Theorem relay_intact (s : relay) :
  rreachable 32 s ->
  wrong s = false /\ outside s = false /\
  (sent_sums s = received_sums s \/ exists c, sent_sums s = c :: received_sums s) /\
  (sender s = SDone -> length (received_sums s) = COUNT).
Proof.
  intros Hr. pose proof (reachable_relay_inv s Hr) as H. pose proof H as [W O C Z [_ N] P]. split_and!; try assumption.
  - phases P; try (now left); try (now right).
    + destruct (sender s); (now left) || (now right).
    + unfold reading in A5. destruct (receiver s); try contradiction; try (now left); right; apply A5.
  - intros E. rewrite E in N. cbn [sent_count] in N. phases P; rewrite E in *; try discriminate; try contradiction.
    + destruct A4; discriminate.
    + now rewrite <- A5.
Qed.

(** A module just loaded, and its first turns. *)
Definition demo_relay : relay :=
  RELAY (fun i => if i =? 0 then SHMSIZE else 0) 0 0 ABegin SBegin RBegin 0 [] [] false false.

Lemma demo_loaded : loaded demo_relay.
Proof. now split_and!. Qed.

Definition demo_begun : relay := agent_turn 32 (set_receiver RRpc (set_sender SInit demo_relay)).

Lemma demo_run : rtc step demo_relay demo_begun.
Proof.
  eapply rtc_l; [apply rs_sender; now apply s_register|]. eapply rtc_l; [apply rs_receiver; now apply r_register|].
  apply rtc_once. apply rs_agent.
Qed.

Lemma relay_intact_witness : wrong demo_begun = false /\ agent demo_begun = ARun 1 /\ shmsem demo_begun = 1.
Proof.
  split; [|now split]. apply (relay_intact demo_begun). exists demo_relay. split; [exact demo_loaded | exact demo_run].
Defined.

(** C39: on one processor and with a [long] of 32 bits, as for [relay_intact], the
    relay can always be brought to its end, from every state that can be reached
    unless the agent left its loop before the sender's end: all three tasks end
    and the receiver has had every block. *)
Theorem relay_can_end (s : relay) :
  rreachable 32 s -> on_course s ->
  exists s', rtc step s s' /\ sender s' = SDone /\ agent s' = ADone /\ receiver s' = RDone /\
    received_sums s' = sent_sums s' /\ length (received_sums s') = COUNT.
Proof.
  intros Hr Hc. pose proof (reachable_relay_inv s Hr) as H.
  destruct (reaches_done s H Hc) as (s1 & Hr1 & _ & Hd1). pose proof (rtc_inv _ _ H Hr1) as H1.
  destruct (last_messages s1 H1 Hd1) as (s' & Hr' & Hd & Ha & Hrec). pose proof (rtc_inv _ _ H1 Hr') as H'.
  exists s'. pose proof (ri_count _ H') as [_ N]. rewrite Hd in N. cbn [sent_count] in N.
  assert (E : sent_sums s' = received_sums s').
  { pose proof (ri_phase _ H') as P. phases P; rewrite Hd in *; try discriminate; try contradiction; [destruct A4; discriminate | assumption]. }
  split_and!; try assumption; [now transitivity s1 | now symmetry | now rewrite <- E].
Qed.

Lemma relay_can_end_witness :
  exists s', rtc step demo_begun s' /\ sender s' = SDone /\ agent s' = ADone /\ receiver s' = RDone /\
    received_sums s' = sent_sums s' /\ length (received_sums s') = COUNT.
Proof.
  apply (relay_can_end demo_begun); [|exact I]. exists demo_relay. split; [exact demo_loaded | exact demo_run].
Defined.

(** ** The agent leaves too early *)

(** Nothing moves any more: the sender waits for a token that nobody has. *)
Definition hung s : Prop :=
  agent s = ADone /\ receiver s = RDone /\ shmsem s = 0 /\ exists n, sender s = SWait n.

Lemma hung_for_ever s s' : hung s -> rtc step s s' -> s' = s.
Proof.
  intros (Ha & Hr & Hz & n & Es) Hrun. induction Hrun as [|s s1 s2 Hs _ IH]; [reflexivity|].
  assert (s1 = s) as ->; [|now apply IH]. destruct Hs as [|s1 Hs|s1 Hs].
  - unfold agent_turn. now rewrite Ha.
  - destruct Hs; try congruence. lia.
  - destruct Hs; congruence.
Qed.

#[local] Transparent COUNT.

(** [shm[0]] is 0 between the two stores of the sender's [if] when the number
    drawn is 0; an agent that comes then takes it for the end. *)
Lemma relay_hangs : exists s, rreachable 32 s /\ hung s.
Proof.
  assert (H0 : relay_inv demo_begun) by (apply reachable_relay_inv; exists demo_relay; split; [exact demo_loaded | exact demo_run]).
  set (a := set_size (shm demo_begun 0) (set_sender (SHead COUNT) demo_begun)).
  set (b := set_sender (SWait 2999) a).
  set (c := set_sender (SDraw 2999) (set_sems (shmsem b - 1) (agentsem b) b)).
  set (d := set_sender (SFix 2999) (store 0 0 c)).
  set (e := agent_turn 32 (set_receiver RPosted d)).
  set (f := set_receiver RDone e).
  assert (Hr : rtc step demo_begun f).
  { apply (rtc_l _ _ a); [apply rs_sender; now apply s_size|].
    apply (rtc_l _ _ b); [apply rs_sender; now apply s_more|].
    apply (rtc_l _ _ c); [apply rs_sender; now apply s_wait|].
    apply (rtc_l _ _ d); [apply rs_sender; apply (s_draw 32 c 2999 0); [reflexivity | unfold INT_MAX; lia]|].
    apply (rtc_l _ _ (set_receiver RPosted d)); [apply rs_receiver; now apply r_rpc|].
    apply (rtc_l _ _ e); [apply rs_agent|]. apply rtc_once, rs_receiver. now apply r_end. }
  pose proof (rtc_inv _ _ H0 Hr) as Hf.
  destruct (run_block f 2999 Hf eq_refl) as (g & Hg & Es & Ea & Er). pose proof (rtc_inv _ _ Hf Hg) as H1.
  exists (set_sender (SWait 2998) g). split.
  - exists demo_relay. split; [exact demo_loaded|]. transitivity demo_begun; [exact demo_run|]. transitivity f; [exact Hr|].
    eapply rtc_r; [exact Hg|]. apply rs_sender. now apply s_more.
  - assert (Ha : agent g = ADone) by (rewrite Ea; reflexivity).
    pose proof (ri_phase _ H1) as P. split_and!; [exact Ha | exact Er | | now exists 2998%nat].
    phases P; try congruence; assumption.
Qed.

(** ** Wider longs *)

(** With an [unsigned long] of 64 bits the sum is longer than the [int] that
    keeps it: two words that sum to 2^31 are enough. *)
Lemma relay_64_mismatch m :
  m 0 = 2 -> m 1 = 2147483647 -> m 2 = 1 -> m 3 = i32 (sum_from 64 m 1 2 0) ->
  mismatch 64 (sum_from 64 m 1 2 0) (set_shm m demo_relay) = true.
Proof.
  intros E0 E1 E2 E3. assert (Es : sum_from 64 m 1 2 0 = 2147483648).
  { cbn [sum_from]. change (1 + 1) with 2. rewrite E1, E2. reflexivity. }
  rewrite Es in *. unfold mismatch. cbn [shm set_shm]. rewrite E0. change (2 + 1) with 3. rewrite E3. reflexivity.
Qed.
