(* ===== verification/FusionLatency.v ===== *)
(** * The latency monitor of fusion (user/fusion/latency.c)

    An earlier version of the monitor of [Latency], for the native interface.
    It has the same globals, histograms and reports, which are shared; what it
    does differently is here: the number of samples, the measuring task, whose
    sums are [long]s and which does not count the periods it lost, the start of
    the timer, the options, [main] and the end.  The options that it has not are
    off.  The second half says what a period and a run leave in the globals, what
    the warm-up leaves, the lateness that is never made up, the sum that does not
    fit a [long] and the crash when a histogram cannot be allocated. *)

From stdpp Require Import base tactics numbers list strings.
From Stdlib Require Import Ascii.
From Stdlib Require String.
From S2P Require Import Prelude CycTime Timerbench TimerbenchFacts Latency LatencyFacts.
#[local] Open Scope cmonad_scope.

Definition FUSION_CELLS : Z := 100.
Definition FUSION_PERIOD : Z := 100000.

Definition fl_opts0 : lopts :=
  LOPTS 0 0 21 false 0 false T_HIPRIO false USER_TASK FUSION_CELLS 1000 None false false 0 None.

(** [do_histogram || do_stats] *)
Definition fl_histo (o : lopts) : bool := do_histogram o || do_stats o.

(** A wake-up: the result of [rt_task_wait_period] and the time stamp. *)
Record wake := WAKE { k_err : Z; k_tsc : Z }.

Section Fusion.
Context `{TscClock}.

(** ** The measuring task *)

Definition fl_nsamples (o : lopts) : Z := i32 (Z.quot ONE_BILLION (period_ns o)).

(** The start: the results of [rt_timer_start], [rt_timer_inquire] and
    [rt_task_set_periodic]; false when the task returns. *)
Definition fl_start (o : lopts) (start_err inquire_err tsc periodic_err : Z) : lm bool :=
  if negb (start_err =? 0) then ret false
  else if negb (inquire_err =? 0) then ret false
  else if period_ns o =? 0 then fault L_DIVIDE
  else
    modify (fun s => with_locals (i64 (tsc + rt_timer_ns2tsc 1000000)) (old_relaxed s) true s) ;;
    ret (periodic_err =? 0).

(** One turn of the loop over the samples; [L_EXIT] is [rt_task_delete]. *)
Definition fl_sample_turn (o : lopts) (k : wake) (i : inner) : lm inner :=
  modify (fun s => with_locals (i64 (expected_tsc s + period_tsc o)) (old_relaxed s) (warmup s) s) ;;
  let! i :=
    (if k_err k =? 0 then ret i
     else if negb (k_err k =? - ETIMEDOUT) then fault L_EXIT
     else ret (INNER (minj i) (maxj i) (sumj i) (i32 (overrun i + 1)))) in
  let! s := get in
  let dt := i32 (k_tsc k - expected_tsc s) in
  let i := INNER (if dt <? minj i then dt else minj i) (if maxj i <? dt then dt else maxj i)
                 (i32 (sumj i + dt)) (overrun i) in
  (if negb (finished s || warmup s) && fl_histo o then add_avg o dt else ret tt) ;;
  ret i.

Fixpoint fl_sample_loop (o : lopts) (ks : list wake) (i : inner) : lm inner :=
  match ks with
  | [] => ret i
  | k :: ks' => let! i' := fl_sample_turn o k i in fl_sample_loop o ks' i'
  end.

Definition fl_publish (i : inner) (avg : Z) (r : results) : results :=
  RES (minj i) (maxj i) avg
      (if minj i <? gminjitter r then minj i else gminjitter r)
      (if gmaxjitter r <? maxj i then maxj i else gmaxjitter r)
      (i32 (goverrun r + overrun i)) (i32 (gavgjitter r + avg)) (max_relaxed r) (test_loops r).

Definition fl_close_measure (o : lopts) (i : inner) : lm unit :=
  let! s := get in
  (if negb (finished s) && fl_histo o then add_max o (maxj i) ;; add_min o (minj i) else ret tt) ;;
  if fl_nsamples o =? 0 then fault L_DIVIDE
  else
    modify (with_results (fl_publish i (i32 (Z.quot (sumj i) (fl_nsamples o))))) ;;
    modify (fun s => with_sem (l_sem s + 1) s).

(** One turn of the [for (;;)] of [latency]. *)
Definition fl_turn (o : lopts) (wakes : nat -> wake) : lm unit :=
  modify (with_results (fun r => set_loops (i32 (test_loops r + 1)) r)) ;;
  let! i := fl_sample_loop o (map wakes (seq 0 (Z.to_nat (fl_nsamples o)))) inner0 in
  let! s := get in
  (if negb (warmup s) then fl_close_measure o i else ret tt) ;;
  modify (fun s =>
    if warmup s && (test_loops (l_res s) =? WARMUP_TIME)
    then with_locals (expected_tsc s) (old_relaxed s) false (with_results (set_loops 0) s)
    else s).

Fixpoint fl_turns (o : lopts) (periods : list (nat -> wake)) : lm unit :=
  match periods with
  | [] => ret tt
  | p :: ps => fl_turn o p ;; fl_turns o ps
  end.

(** ** The display *)

Definition fl_display_start (sem_err : Z) : lm bool :=
  if sem_err =? 0 then modify (with_sem 0) ;; ret true else ret false.

(** One turn; the line has no count of switches. *)
Definition fl_display_turn (o : lopts) (n sem_err : Z) : lm display_out :=
  let! s := get in
  if negb (sem_err =? 0) then ret D_return
  else if l_sem s <=? 0 then ret D_wait
  else
    modify (fun s => with_sem (l_sem s - 1) s) ;;
    ret (display_line o n (user_line (l_res s))).

(** ** The end *)

(** The three histograms, then the three statistics. *)
Definition fl_dump (o : lopts) (s : lat) : option hist_stats :=
  match histogram_min s, histogram_avg s, histogram_max s with
  | Some hmin, Some havg, Some hmax =>
      Some (HSTATS (dump_histogram o hmin) (dump_histogram o havg) (dump_histogram o hmax)
        [fst (dump_stats o hmin); fst (dump_stats o havg); fst (dump_stats o hmax)] None)
  | _, _, _ => None
  end.

(** [gavgjitter] after its division. *)
Definition fl_average (r : results) : Z :=
  Z.quot (gavgjitter r) ((if 1 <? test_loops r then test_loops r else 2) - 1).

(** [cleanup_upon_sig]; [None] when the end was already asked for, a fault when
    a histogram that was not allocated is read. *)
Definition cleanup_upon_sig (o : lopts) : lm (option (rts * option hist_stats)) :=
  let! s := get in
  if finished s then ret None
  else
    modify (fun s => LAT (l_res s) (histogram_min s) (histogram_max s) (histogram_avg s) (l_sem s) true
                         (expected_tsc s) (old_relaxed s) (warmup s)) ;;
    let! stats :=
      (if fl_histo o then match fl_dump o s with Some h => ret (Some h) | None => fault L_HISTOGRAM end
       else ret None) in
    modify (with_hists None None None) ;;
    let r := l_res s in
    ret (Some (RTS (i32 (rt_timer_tsc2ns (gminjitter r))) (i32 (rt_timer_tsc2ns (fl_average r)))
                   (i32 (rt_timer_tsc2ns (gmaxjitter r))) (goverrun r) (max_relaxed r), stats)).
End Fusion.

(** ** main *)

(** The options are among those of the other monitor. *)
Definition fl_option (c : ascii) (optarg : string) (o : lopts) : option lopts :=
  match c with
  | "h" => Some (set_histo (do_gnuplot o) true (do_stats o) o)
  | "s" => Some (set_histo (do_gnuplot o) (do_histogram o) true o)
  | "H" => Some (set_cells (atoi optarg) (bucketsize o) o)
  | "B" => Some (set_cells (histogram_size o) (atoi optarg) o)
  | "p" => Some (set_period (atoi optarg * 1000) o)
  | "l" => Some (set_display (atoi optarg) (quiet o) o)
  | "T" => Some (set_duration (atoi optarg) (Some (u32 (atoi optarg + WARMUP_TIME))) o)
  | "q" => Some (set_display (data_lines o) true o)
  | _ => None
  end%char.

Fixpoint fl_options (l : list (ascii * string)) (o : lopts) : option lopts :=
  match l with
  | [] => Some o
  | (c, a) :: l' => match fl_option c a o with Some o' => fl_options l' o' | None => None end
  end.

(** [main]: what the allocations and the calls that make the tasks give is in
    [e].  It exits, it goes to [cleanup_upon_sig] before the tasks exist, it
    returns, or it waits while they run. *)
Definition fl_main (e : main_env) (l : list (ascii * string)) : main_out :=
  match fl_options l fl_opts0 with
  | None => MO_exit 2
  | Some o =>
      let o1 := if (test_duration o =? 0) && quiet o then set_display (data_lines o) false o else o in
      let havg := calloc_cells o1 (me_avg e) in
      let hmax := calloc_cells o1 (me_max e) in
      let hmin := calloc_cells o1 (me_min e) in
      let s := LAT results0 hmin hmax havg 0 false 0 0 true in
      match havg, hmax, hmin with
      | Some _, Some _, Some _ =>
          let o2 := if period_ns o1 =? 0 then set_period FUSION_PERIOD o1 else o1 in
          if negb (me_display_create e =? 0) then MO_return
          else if negb (me_display_start e =? 0) then MO_return
          else if negb (me_sampling_create e =? 0) then MO_return
          else if negb (me_sampling_start e =? 0) then MO_return
          else MO_running o2 (-1) true s
      | _, _, _ => MO_cleanup s
      end
  end.

(** ** A wake-up *)


(** Options [fl_main] can run with: no option of the other monitor. *)
Record fl_ok (o : lopts) : Prop := {
  fo_period : 1000 <= period_ns o <= ONE_BILLION;
  fo_plot : do_gnuplot o = None;
  fo_freeze : freeze_max o = false;
  fo_size : fl_histo o = true -> 0 < histogram_size o < 2 ^ 31;
  fo_bucket : fl_histo o = true -> 0 < bucketsize o
}.

Lemma fl_need o : fl_ok o -> need_histo o = fl_histo o.
Proof. intros H. unfold need_histo, fl_histo. rewrite (fo_plot o H). apply orb_false_r. Qed.

(** The histograms do not depend on the period. *)
Lemma fl_lopts_ok o : fl_ok o -> lopts_ok (set_period 1000 o).
Proof.
  intros H. pose proof (fl_need o H) as E. split; [cbn; lia | |]; change (need_histo (set_period 1000 o)) with (need_histo o);
    rewrite E; [apply (fo_size o H) | apply (fo_bucket o H)].
Qed.

Lemma fl_nsamples_range o : fl_ok o -> 1 <= fl_nsamples o <= 1000000.
Proof.
  intros H. pose proof (fo_period o H) as Hp. unfold fl_nsamples, ONE_BILLION in *. rewrite Z.quot_div_nonneg by lia.
  assert (1 <= 1000000000 / period_ns o <= 1000000).
  { split; [apply Z.div_le_lower_bound; lia | apply Z.div_le_upper_bound; lia]. }
  rewrite (wrap_s_id 32) by lia. lia.
Qed.

(** A wake-up that does not end the task, and whether it was too late. *)
Definition woken (k : wake) : Prop := k_err k = 0 \/ k_err k = - ETIMEDOUT.
Definition timeout (k : wake) : Z := if k_err k =? 0 then 0 else 1.

Section Run.
Context `{TL : TscLaws}.

(** The latencies: the date expected is a period later each time, whatever was
    lost. *)
Fixpoint fl_latencies (p e : Z) (ks : list wake) : list Z :=
  match ks with
  | [] => []
  | k :: ks' => let e1 := i64 (e + p) in i32 (k_tsc k - e1) :: fl_latencies p e1 ks'
  end.

Fixpoint fl_expected (p e : Z) (ks : list wake) : Z :=
  match ks with [] => e | k :: ks' => fl_expected p (i64 (e + p)) ks' end.

Lemma fl_latencies_length p e ks : length (fl_latencies p e ks) = length ks.
Proof. revert e. induction ks; intros e; cbn; auto. Qed.

(** The state after some wake-ups: the histogram and the date expected. *)
Definition fl_after (o : lopts) (e : Z) (ds : list Z) (s : lat) : lat :=
  state_after o e (max_relaxed (l_res s)) (old_relaxed s) ds s.

Lemma fl_after_cons o e1 d e2 ds s : fl_after o e2 ds (fl_after o e1 [d] s) = fl_after o e2 (d :: ds) s.
Proof. apply state_after_cons. Qed.

Lemma fl_sample_turn_eq o k i s :
  fl_ok o -> hists_ok o s -> woken k -> i32 (overrun i) = overrun i ->
  let e1 := i64 (expected_tsc s + period_tsc o) in
  let d := i32 (k_tsc k - e1) in
  dt_ok d ->
  fl_sample_turn o k i s =
    OK (INNER (Z.min d (minj i)) (Z.max (maxj i) d) (i32 (sumj i + d)) (i32 (overrun i + timeout k)))
       (fl_after o e1 [d] s).
Proof.
  intros Ho Hh Hw Hov e1 d Hd. unfold fl_sample_turn, timeout.
  unfold bind at 1, modify at 1. fold e1. set (s1 := with_locals e1 (old_relaxed s) (warmup s) s).
  set (i1 := if k_err k =? 0 then i else INNER (minj i) (maxj i) (sumj i) (i32 (overrun i + 1))).
  match goal with |- bind ?m _ s1 = _ => assert (Ei : m s1 = OK i1 s1) end.
  { unfold i1. destruct Hw as [-> | ->]; reflexivity. }
  unfold bind at 1. rewrite Ei. unfold bind at 1, get. cbn [expected_tsc s1 with_locals finished warmup]. fold d.
  fold (live s).
  assert (Ha : (if live s && fl_histo o then add_avg o d else ret tt) s1
    = OK tt (with_hists (histogram_min s) (histogram_max s)
        (if live s && need_histo o then (fun h => tally_of o h d) <$> histogram_avg s else histogram_avg s) s1)).
  { pose proof (add_avg_eq (set_period 1000 o) d s1 (fl_lopts_ok o Ho) Hh Hd) as Ha.
    change (need_histo (set_period 1000 o)) with (need_histo o) in Ha. change (live s1) with (live s) in Ha.
    rewrite <- (fl_need o Ho). exact Ha. }
  unfold bind at 1. rewrite Ha. unfold ret. f_equal.
  - unfold i1. destruct (k_err k =? 0); cbn [minj maxj sumj overrun]; rewrite ?Z.add_0_r, ?Hov; f_equal; try reflexivity; split_if; lia.
  - unfold fl_after, state_after, with_hists, s1. cbn. rewrite (fo_freeze o Ho), andb_false_r.
    destruct s as [[] ? ? ? ? ? ? ? ?]. reflexivity.
Qed.

Lemma fl_sample_loop_eq o ks i s :
  fl_ok o -> hists_ok o s -> Forall woken ks -> i32 (overrun i) = overrun i -> i32 (sumj i) = sumj i ->
  let ds := fl_latencies (period_tsc o) (expected_tsc s) ks in
  Forall dt_ok ds ->
  fl_sample_loop o ks i s =
    OK (INNER (lowest_of ds (minj i)) (highest_of ds (maxj i)) (i32 (sumj i + sumZ id ds))
              (i32 (overrun i + sumZ timeout ks)))
       (fl_after o (fl_expected (period_tsc o) (expected_tsc s) ks) ds s).
Proof.
  intros Ho. revert i s. induction ks as [|k ks IH]; intros i s Hh Hw Hov Hsum ds Hd.
  - unfold ds, fl_after, state_after. cbn. change (sumZ id []) with 0. change (sumZ timeout []) with 0.
    rewrite !Z.add_0_r, Hov, Hsum. destruct i as [i1 i2 i3 i4], s as [[r1 r2 r3 r4 r5 r6 r7 r8 r9] h1 h2 h3 n f e old wu].
    cbn. unfold ret. f_equal. destruct (_ && freeze_max o), (_ && need_histo o), h3; reflexivity.
  - apply Forall_cons in Hw as [Hw1 Hw]. apply Forall_cons in Hd as [Hd1 Hd].
    cbn [fl_sample_loop]. unfold bind. rewrite (fl_sample_turn_eq o k i s Ho Hh Hw1 Hov Hd1).
    set (e1 := i64 (expected_tsc s + period_tsc o)) in *. set (d := i32 (k_tsc k - e1)) in *.
    rewrite IH; try assumption.
    + rewrite fl_after_cons. cbn [minj maxj sumj overrun].
      rewrite !wrap_s_add_l, <- !Z.add_assoc by lia. reflexivity.
    + now apply hists_ok_after.
    + now apply wrap_s_idem.
    + now apply wrap_s_idem.
Qed.

(** ** A measuring period *)

Definition fl_wakes (o : lopts) (wakes : nat -> wake) : list wake :=
  map wakes (seq 0 (Z.to_nat (fl_nsamples o))).

(** The average of a period: the sum is a [long]. *)
Definition fl_mean (o : lopts) (ds : list Z) : Z := Z.quot (i32 (sumZ id ds)) (fl_nsamples o).

Definition fl_results_after (o : lopts) (ds : list Z) (ov : Z) (r : results) : results :=
  RES (lowest_of ds TEN_MILLION) (highest_of ds (- TEN_MILLION)) (fl_mean o ds)
      (Z.min (lowest_of ds TEN_MILLION) (gminjitter r))
      (Z.max (gmaxjitter r) (highest_of ds (- TEN_MILLION)))
      (i32 (goverrun r + ov)) (i32 (gavgjitter r + fl_mean o ds)) (max_relaxed r) (i32 (test_loops r + 1)).

Lemma fl_mean_range o ds : fl_ok o -> i32 (fl_mean o ds) = fl_mean o ds.
Proof.
  intros Ho. pose proof (fl_nsamples_range o Ho) as Hn. unfold fl_mean.
  pose proof (wrap_s_range 32 (sumZ id ds) ltac:(lia)) as Hr. apply (wrap_s_id 32); [lia|].
  change (2 ^ (32 - 1)) with 2147483648 in *. set (x := i32 (sumZ id ds)) in *. set (n := fl_nsamples o) in *.
  pose proof (Z.quot_le_mono (-2147483648 * n) x n ltac:(lia) ltac:(nia)) as H1.
  pose proof (Z.quot_le_mono x (2147483647 * n) n ltac:(lia) ltac:(nia)) as H2.
  rewrite Z.quot_mul in H1, H2 by lia. lia.
Qed.

Lemma fl_close_measure_eq o ds ov s :
  fl_ok o -> hists_ok o s -> finished s = false -> dt_ok TEN_MILLION -> Forall dt_ok ds ->
  let i := INNER (lowest_of ds TEN_MILLION) (highest_of ds (- TEN_MILLION)) (i32 (sumZ id ds)) ov in
  fl_close_measure o i s =
    OK tt (LAT (fl_publish i (fl_mean o ds) (l_res s)) (upd_hist o [minj i] (histogram_min s))
               (upd_hist o [maxj i] (histogram_max s))
               (histogram_avg s) (l_sem s + 1) false (expected_tsc s) (old_relaxed s) (warmup s)).
Proof.
  intros Ho Hh Hf Hm Hd i. unfold fl_close_measure. unfold bind at 1, get. rewrite Hf. cbn [negb andb].
  destruct (extremes_ok ds Hm Hd) as [H1 H2].
  assert (Ha : (if fl_histo o then add_max o (maxj i) ;; add_min o (minj i) else ret tt) s
    = OK tt (with_hists (upd_hist o [minj i] (histogram_min s)) (upd_hist o [maxj i] (histogram_max s))
               (histogram_avg s) s)).
  { rewrite <- (fl_need o Ho). exact (add_extremes_eq (set_period 1000 o) i s (fl_lopts_ok o Ho) Hh H1 H2). }
  unfold bind at 1. rewrite Ha. pose proof (fl_nsamples_range o Ho) as Hn.
  rewrite (proj2 (Z.eqb_neq _ 0)) by lia. unfold bind, modify. cbn [i sumj].
  fold (fl_mean o ds). rewrite (fl_mean_range o ds Ho).
  unfold with_results, with_sem, with_hists. cbn. now rewrite Hf.
Qed.

(** What one measuring period does. *)
Record fl_measured (o : lopts) (ds : list Z) (ov e : Z) (s s' : lat) : Prop := {
  fm_live : live s' = live s;
  fm_res : l_res s' = fl_results_after o ds ov (l_res s);
  fm_avg : histogram_avg s' = upd_hist o ds (histogram_avg s);
  fm_max : histogram_max s' = upd_hist o [highest_of ds (- TEN_MILLION)] (histogram_max s);
  fm_min : histogram_min s' = upd_hist o [lowest_of ds TEN_MILLION] (histogram_min s);
  fm_sem : l_sem s' = l_sem s + 1;
  fm_expected : expected_tsc s' = e
}.

Lemma fl_turn_eq o wakes s :
  fl_ok o -> hists_ok o s -> live s = true -> dt_ok TEN_MILLION ->
  let ks := fl_wakes o wakes in
  let ds := fl_latencies (period_tsc o) (expected_tsc s) ks in
  Forall woken ks -> Forall dt_ok ds ->
  exists s', fl_turn o wakes s = OK tt s' /\
    fl_measured o ds (sumZ timeout ks) (fl_expected (period_tsc o) (expected_tsc s) ks) s s' /\
    hists_ok o s'.
Proof.
  intros Ho Hh Hl Hm ks ds Hw Hd. unfold fl_turn. unfold bind at 1, modify at 1.
  set (s1 := with_results _ s). unfold bind at 1. fold (fl_wakes o wakes). fold ks.
  rewrite (fl_sample_loop_eq o ks inner0 s1 Ho Hh Hw eq_refl eq_refl Hd).
  change (fl_latencies (period_tsc o) (expected_tsc s1) ks) with ds.
  cbn [inner0 minj maxj sumj overrun]. rewrite !Z.add_0_l.
  set (e := fl_expected _ _ ks). set (s2 := fl_after o e ds s1).
  assert (Hf : finished s = false /\ warmup s = false)
    by (unfold live in Hl; destruct (finished s), (warmup s); auto).
  destruct Hf as [Hf Hwu]. unfold bind at 1, get. change (warmup s2) with (warmup s). rewrite Hwu. cbn [negb].
  unfold bind at 1.
  rewrite (fl_close_measure_eq o ds (i32 (sumZ timeout ks)) s2 Ho (hists_ok_after o e _ _ ds s1 Hh) Hf Hm Hd).
  unfold modify. cbn [warmup]. change (warmup s2) with (warmup s). rewrite Hwu.
  set (s3 := LAT _ _ _ _ _ _ _ _ _). change (false && _) with false. cbv iota.
  exists s3. split; [reflexivity|].
  assert (Hms : fl_measured o ds (sumZ timeout ks) e s s3).
  { constructor; try reflexivity.
    - unfold live. cbn. now rewrite Hf, Hwu.
    - unfold s3, fl_results_after, fl_publish. cbn. rewrite (fo_freeze o Ho), andb_false_r. f_equal.
      + apply if_ltb_min.
      + apply if_ltb_max.
      + rewrite !(Z.add_comm (goverrun _)). apply wrap_s_add_l. lia.
    - unfold s3, upd_hist. cbn. change (live s1) with (live s). now rewrite Hl. }
  split; [exact Hms|].
  intros Hn. destruct (Hh Hn) as (hmin & hmax & havg & E1 & E2 & E3 & L1 & L2 & L3).
  rewrite (fm_avg _ _ _ _ _ _ Hms), (fm_max _ _ _ _ _ _ Hms), (fm_min _ _ _ _ _ _ Hms).
  unfold upd_hist. rewrite Hn, E1, E2, E3. cbn [fmap option_fmap option_map].
  eexists _, _, _. split_and!; [reflexivity | reflexivity | reflexivity | ..]; now rewrite tally_of_fold_length.
Qed.


(** ** A run of periods *)

Fixpoint fl_period_latencies (o : lopts) (e : Z) (periods : list (nat -> wake)) : list (list Z) :=
  match periods with
  | [] => []
  | p :: ps =>
      fl_latencies (period_tsc o) e (fl_wakes o p)
        :: fl_period_latencies o (fl_expected (period_tsc o) e (fl_wakes o p)) ps
  end.

(** The task measures, with results within the initial bounds. *)
Record fl_measuring (o : lopts) (s : lat) : Prop := {
  fg_live : live s = true;
  fg_hists : hists_ok o s;
  fg_min : gminjitter (l_res s) <= TEN_MILLION;
  fg_max : - TEN_MILLION <= gmaxjitter (l_res s);
  fg_overrun : i32 (goverrun (l_res s)) = goverrun (l_res s);
  fg_avg : i32 (gavgjitter (l_res s)) = gavgjitter (l_res s);
  fg_loops : i32 (test_loops (l_res s)) = test_loops (l_res s)
}.

(** What a run does: the extremes and the histogram are those of all the
    latencies, a late wake-up is one overrun, the sum of the averages is one of
    averages of [long]s, and [display] is woken once a period. *)
Record fl_run_done (o : lopts) (periods : list (nat -> wake)) (s s' : lat) : Prop := {
  fr_min : gminjitter (l_res s') =
    lowest_of (concat (fl_period_latencies o (expected_tsc s) periods)) (gminjitter (l_res s));
  fr_max : gmaxjitter (l_res s') =
    highest_of (concat (fl_period_latencies o (expected_tsc s) periods)) (gmaxjitter (l_res s));
  fr_overrun : goverrun (l_res s') =
    i32 (goverrun (l_res s) + sumZ (fun p => sumZ timeout (fl_wakes o p)) periods);
  fr_avg : gavgjitter (l_res s') =
    i32 (gavgjitter (l_res s) + sumZ (fl_mean o) (fl_period_latencies o (expected_tsc s) periods));
  fr_loops : test_loops (l_res s') = i32 (test_loops (l_res s) + Z.of_nat (length periods));
  fr_hist : histogram_avg s' =
    upd_hist o (concat (fl_period_latencies o (expected_tsc s) periods)) (histogram_avg s);
  fr_sem : l_sem s' = l_sem s + Z.of_nat (length periods)
}.

Lemma fl_measured_measuring o ds ov e s s' :
  fl_measuring o s -> fl_measured o ds ov e s s' -> hists_ok o s' -> fl_measuring o s'.
Proof.
  intros [H1 H2 H3 H4 H5 H6 H7] [L E _ _ _ _ _] Hh.
  constructor; rewrite ?E; try exact Hh; cbn; try congruence; try lia; apply wrap_s_idem; lia.
Qed.

Lemma fl_run_done_cons o p ps s s1 s' :
  fl_measuring o s ->
  fl_measured o (fl_latencies (period_tsc o) (expected_tsc s) (fl_wakes o p)) (sumZ timeout (fl_wakes o p))
    (fl_expected (period_tsc o) (expected_tsc s) (fl_wakes o p)) s s1 ->
  fl_run_done o ps s1 s' -> fl_run_done o (p :: ps) s s'.
Proof.
  intros [H1 H2 H3 H4 H5 H6 H7] [L E A _ _ S X] [R1 R2 R3 R4 R5 R6 R7].
  rewrite X, E in *. cbn [fl_results_after gminjitter gmaxjitter goverrun gavgjitter test_loops] in *.
  constructor; cbn [fl_period_latencies concat length]; rewrite ?sumZ_cons.
  - rewrite R1, lowest_of_app. f_equal. rewrite (lowest_of_sentinel _ (gminjitter (l_res s)) TEN_MILLION) by lia. lia.
  - rewrite R2, highest_of_app. f_equal. rewrite (highest_of_sentinel _ (gmaxjitter (l_res s)) (- TEN_MILLION)) by lia. lia.
  - rewrite R3, wrap_s_add_l by lia. f_equal. lia.
  - rewrite R4, wrap_s_add_l by lia. f_equal. lia.
  - rewrite R5, wrap_s_add_l by lia. f_equal. lia.
  - now rewrite R6, A, upd_hist_app.
  - rewrite R7, S. lia.
Qed.

(** A run of the measuring task: it never faults, and the globals are the
    statistics of the latencies it saw. *)
Theorem fl_turns_statistics o periods s :
  fl_ok o -> dt_ok TEN_MILLION -> fl_measuring o s ->
  Forall (fun p => Forall woken (fl_wakes o p)) periods ->
  Forall (Forall dt_ok) (fl_period_latencies o (expected_tsc s) periods) ->
  exists s', fl_turns o periods s = OK tt s' /\ fl_measuring o s' /\ fl_run_done o periods s s'.
Proof.
  intros Ho Hm. revert s. induction periods as [|p ps IH]; intros s Hs Hw Hd.
  - exists s. split; [reflexivity|]. split; [exact Hs|]. destruct Hs as [H1 H2 H3 H4 H5 H6 H7].
    constructor; cbn [fl_period_latencies concat length];
      rewrite ?(eq_refl : sumZ _ (@nil (nat -> wake)) = 0), ?(eq_refl : sumZ _ (@nil (list Z)) = 0), ?Z.add_0_r;
      try (cbn; congruence); try (cbn; lia).
    unfold upd_hist. destruct (need_histo o), (histogram_avg s); reflexivity.
  - apply Forall_cons in Hw as [Hw1 Hw]. apply Forall_cons in Hd as [Hd1 Hd].
    destruct (fl_turn_eq o p s Ho (fg_hists o s Hs) (fg_live o s Hs) Hm Hw1 Hd1) as (s1 & E & Hms & Hh1).
    pose proof (fl_measured_measuring o _ _ _ s s1 Hs Hms Hh1) as Hs1.
    cbn [fl_turns]. unfold bind. rewrite E.
    destruct (IH s1 Hs1 Hw) as (s' & E' & Hs' & Hrd).
    { now rewrite (fm_expected _ _ _ _ _ _ Hms). }
    exists s'. split; [exact E'|]. split; [exact Hs'|]. now apply (fl_run_done_cons o p ps s s1 s').
Qed.

(** The warm-up: one period whose latencies count nowhere, after which the task
    measures and nothing was displayed. *)
Theorem fl_warmup_discarded o wakes s :
  fl_ok o -> hists_ok o s -> finished s = false -> warmup s = true -> test_loops (l_res s) = 0 ->
  let ks := fl_wakes o wakes in
  Forall woken ks -> Forall dt_ok (fl_latencies (period_tsc o) (expected_tsc s) ks) ->
  fl_turn o wakes s =
    OK tt (with_locals (fl_expected (period_tsc o) (expected_tsc s) ks) (old_relaxed s) false s).
Proof.
  intros Ho Hh Hf Hwu Hl ks Hw Hd. unfold fl_turn. unfold bind at 1, modify at 1.
  set (s1 := with_results _ s). unfold bind at 1. fold (fl_wakes o wakes). fold ks.
  rewrite (fl_sample_loop_eq o ks inner0 s1 Ho Hh Hw eq_refl eq_refl Hd).
  change (expected_tsc s1) with (expected_tsc s). unfold fl_after, state_after.
  assert (Hlive : live s1 = false) by (unfold live; cbn; rewrite Hwu; apply andb_false_r || now rewrite orb_true_r).
  rewrite Hlive. unfold bind, get, modify, with_locals. cbn. rewrite Hwu. cbn. rewrite Hl. cbn.
  destruct s as [[] ? ? ? ? ? ? ? ?]. cbn in *. now subst.
Qed.
End Run.

(** ** Lost periods *)

(** The wake-ups on a grid of period [p] that is late by [c]. *)
Definition grid (p e c : Z) (n : nat) : list wake :=
  map (fun j => WAKE 0 (e + p * Z.of_nat (S j) + c)) (seq 0 n).

(** Once wake-ups were lost, the date expected stays behind: every latency
    measured afterwards has the whole delay in it. *)
Theorem fl_delay_stays p e c n :
  0 <= p -> 0 <= e -> e + p * Z.of_nat n < 2 ^ 63 -> - 2 ^ 31 <= c < 2 ^ 31 ->
  fl_latencies p e (grid p e c n) = replicate n c.
Proof.
  intros Hp. revert e. induction n as [|n IH]; intros e He Hn Hc; [reflexivity|].
  assert (Ee : i64 (e + p) = e + p) by (apply (wrap_s_id 64); nia).
  unfold grid. cbn [seq map fl_latencies replicate k_tsc]. rewrite Ee. f_equal.
  - rewrite (wrap_s_id 32); lia.
  - rewrite <- (IH (e + p)) by nia. f_equal. unfold grid. rewrite <- seq_shift, map_map.
    apply map_ext. intros j. f_equal. lia.
Qed.

(** [Latency] makes up for the periods the kernel reports as lost: when [c] is
    one lost period, the same wake-ups are on time after the first. *)
Example fl_delay_example :
  fl_latencies 100 0 (WAKE (- ETIMEDOUT) 200 :: grid 100 100 100 3) = [100; 100; 100; 100] /\
  latencies 100 0 (SAMPLE (- ETIMEDOUT) 1 200 0 :: map (fun k => SAMPLE 0 0 (k_tsc k) 0) (grid 100 100 100 3))
    = [100; 0; 0; 0].
Proof. split; reflexivity. Qed.

(** ** The sum of a period *)

(** While the sum fits a [long] the average is the average. *)
Lemma fl_mean_exact o ds :
  - 2 ^ 31 <= sumZ id ds < 2 ^ 31 -> fl_mean o ds = Z.quot (sumZ id ds) (fl_nsamples o).
Proof. intros H. unfold fl_mean. now rewrite (wrap_s_id 32) by lia. Qed.

(** With the default period, ten thousand latencies of 300000 cycles (100
    microseconds at 3 GHz) have a negative average. *)
Example fl_mean_wraps :
  fl_nsamples (set_period FUSION_PERIOD fl_opts0) = 10000 /\
  fl_mean (set_period FUSION_PERIOD fl_opts0) (replicate (Z.to_nat 10000) 300000) = -129496.
Proof. split; vm_compute; reflexivity. Qed.

(** ** main *)

(** The options leave those of the other monitor alone. *)
Lemma fl_option_keeps c a o o' :
  fl_option c a o = Some o' -> do_gnuplot o' = do_gnuplot o /\ freeze_max o' = freeze_max o.
Proof.
  intros E. unfold fl_option in E. destruct c as [[] [] [] [] [] [] [] []]; try discriminate E;
    injection E as <-; now split.
Qed.

Lemma fl_options_keep l o o' :
  fl_options l o = Some o' -> do_gnuplot o' = do_gnuplot o /\ freeze_max o' = freeze_max o.
Proof.
  revert o. induction l as [|[c a] l IH]; intros o E; cbn in E; [injection E as <-; now split|].
  destruct (fl_option c a o) as [o1|] eqn:E1; [|discriminate].
  destruct (IH o1 E) as [-> ->]. now apply (fl_option_keeps c a).
Qed.

(** What [main] starts the tasks with: three histograms of [histogram_size]
    cells, a period that is not 0, and only the options of this monitor. *)
Theorem fl_main_running e l o dev smp s :
  fl_main e l = MO_running o dev smp s ->
  period_ns o <> 0 /\ do_gnuplot o = None /\ freeze_max o = false /\ hists_ok o s /\
  finished s = false /\ warmup s = true /\ l_res s = results0.
Proof.
  unfold fl_main. destruct (fl_options l fl_opts0) as [o0|] eqn:Eo; [|discriminate].
  destruct (fl_options_keep _ _ _ Eo) as [Eg Ef].
  set (o1 := if (test_duration o0 =? 0) && quiet o0 then _ else _).
  assert (K : do_gnuplot o1 = None /\ freeze_max o1 = false) by (unfold o1; split_if; now split).
  clearbody o1. unfold calloc_cells. destruct K as [K1 K2].
  destruct (me_avg e), (me_max e), (me_min e), (0 <=? histogram_size o1) eqn:C; cbn [andb]; try discriminate.
  repeat (split_if; [discriminate|]). intros Er. injection Er as <- _ _ <-. bool_to_prop.
  destruct (period_ns o1 =? 0) eqn:Ep; bool_to_prop;
    (split_and!; try assumption; try reflexivity; try (cbn; unfold FUSION_PERIOD; lia));
    intros _; eexists _, _, _; (split_and!; try reflexivity); rewrite length_replicate; cbn; lia.
Qed.

(** When the memory of a histogram is missing, [main] ends through
    [cleanup_upon_sig], which reads the missing histogram if a report was asked
    for. *)
Theorem fl_oom_crashes `{TscClock} e l o :
  fl_options l fl_opts0 = Some o -> fl_histo o = true -> me_avg e && me_max e && me_min e = false ->
  exists s, fl_main e l = MO_cleanup s /\
    cleanup_upon_sig o s = Fault L_HISTOGRAM.
Proof.
  intros Eo Hh Hm. unfold fl_main. rewrite Eo. set (o1 := if (test_duration o =? 0) && quiet o then _ else _).
  clearbody o1. unfold calloc_cells.
  destruct (me_avg e), (me_max e), (me_min e), (0 <=? histogram_size o1); try discriminate Hm; cbn [andb];
    (eexists; split; [reflexivity|]); unfold cleanup_upon_sig, bind, get, modify; cbn;
    rewrite Hh; reflexivity.
Qed.
